(* ===== verification/_CoqProject ===== *)
-Q . S2P
Prelude.v
Bio.v
Cache.v
Log.v
LogSpec.v
Trans.v
Txn.v
Str.v
Fs.v
FsView.v
Alloc.v
Content.v
Verify.v
FsImage.v
FsThms.v
Dir.v
Path.v
Write.v
FsTxn.v
Mkfs.v
MkfsInv.v
MkfsIO.v
MkfsBuild.v
MkfsThms.v
Boot.v
Cfs.v
CfsThms.v
Rescue.v
Kalloc.v
Mp.v
Bootmain.v
Irq.v
Umalloc.v
UmallocThms.v
Vm.v
Ring.v
Pipe.v
Spinlock.v
File.v
FileWrite.v
Proc.v
ProcThms.v
Syscall.v
Exec.v
Sysfile.v
Sh.v
ShGrammar.v
ShParse.v
ShPrint.v
ShRun.v
Trap.v
Kbd.v
Console.v
Printf.v
Tools.v
Programs.v
Grep.v
Fds.v
Ide.v
