(* ===== verification/Prelude.v ===== *)
(** * zv6: a kernel with a checksummed, replicated, logged file system

    zv6 is a teaching kernel for x86 in C, derived from xv6. Its file system keeps
    with every inode the exclusive or of the 32-bit words of the contents, verifies
    it whenever the inode is locked for the first time, and repairs it from up to
    two replica inodes, called dittos. This library is a shallow embedding of the
    kernel, of the host programs that make and damage images, and of the user
    programs: their routines are functions of a monad of computations, written from
    the sources under src/, and the theorems are about those functions.

    ** Conventions

    A routine that touches state [S] and returns [A] is a [K S A]. Its outcome is a
    value and a new state, a panic with its message, a point where the caller has
    to give the processor up ([Sleeps]), an access C leaves undefined ([Undef]), or
    the exhaustion of a recursion bound ([NoFuel]). [wp] is total correctness:
    the routine returns, and its result satisfies the condition. [keeps] is a
    frame condition for every outcome with a state. Loops of C that are not
    structural take a bound computed from their data; the theorems about them
    are total, so they show that the bound is enough. Machine integers are [Z]
    with the reductions [u32], [s32], [u16], [s16], [u8] where C makes them.
    Pointers to table entries are indices; a null pointer is [None] or 0.

    ** Parts, and the files that model them

    - Storage. Bio: the buffer cache of bio.c with its LRU list, over the memory
      disk of memide.c whose state includes the history of sector writes. Cache:
      the abstract cache, a function from sectors to blocks with a set of held
      and pinned ones, refined by Bio. Log: log.c. LogSpec, Trans: what a
      transaction does to the abstract cache. Txn: whole transactions, crashes
      between any two sector writes, and recovery. Ide: the driver of ide.c with
      its queue of requests, which refines the memory disk.
    - File system. Fs: all of fs.c, from blocks to path names, checksums and
      dittos, over the log. FsView: the view of the disk inside a transaction and
      the rules for the primitives. Alloc: block allocation. Content: file contents
      and checksums. Verify: [iget] and [ilock]. Dir, Path: directories and path
      names. Write: inodes on disk, [iupdate] and [writei]. FsImage: a concrete
      image. FsThms: theorems on these routines. FsTxn, FileWrite: file system code
      in transactions, and crashes. Rescue: repair from the dittos.
    - Images. Mkfs: all of mkfs.c. MkfsInv, MkfsIO, MkfsBuild, MkfsThms: what it
      builds. Boot: the kernel on such an image. Cfs, CfsThms: cfs.c, which flips
      bits of a file, and what the kernel makes of it.
    - Memory. Kalloc: the page allocator of kalloc.c. Vm: the page tables of vm.c in
      physical pages.
    - Objects behind descriptors. Ring: the arithmetic of ring buffers. Pipe: the
      pipes of pipe.c. File: the file table of file.c over file system, pipes and
      pages. Kbd, Console: the keyboard (kbd.c), the screen, the editing of lines
      and the console device (console.c, uart.c).
    - Processes. Proc: the process table of proc.c over all of the above. ProcThms:
      its invariant, the scheduler. Spinlock: the locks of spinlock.c on several
      processors. Syscall: arguments and process calls (syscall.c, sysproc.c).
      Exec: exec.c. Sysfile: the file system calls (sysfile.c) and the table of
      system calls. Fds: runs of system calls. Trap: trap.c.
    - Start. Bootmain: the boot loader bootmain.c. Mp: the search for processors of
      mp.c. Irq: the interrupt controllers (picirq.c, ioapic.c, lapic.c, timer.c) in
      the order in which main.c sets them up.
    - User programs. Str: string.c and the string and memory routines of ulib.c.
      Umalloc, UmallocThms: the allocator of umalloc.c. Printf: printf.c, and
      [cprintf] of console.c. Sh: the parser of sh.c; ShGrammar, ShParse, ShPrint:
      its language; ShRun: the execution of commands. Grep: grep.c. Tools: wc.c,
      cat.c, pcat.c, echo.c. Programs: init.c, ls.c, the small programs, and the
      rest of ulib.c.

    The state of a layer of the kernel is a record that contains the state of the
    layer below: [bio] in [lst] (log) in [fs] in [sys] (files) in [kernel]. A
    routine of a lower layer runs in a higher one through [zoom]. The device
    switch, the firmware's memory and the random numbers of cfs.c are parameters;
    the system calls a user program makes are a class of operations ([Sys],
    [SysFiles], and [sbrk] in Umalloc), with laws, where a theorem needs them, in a
    second class; the shell is a tree of system calls, because it forks. Giving up
    the processor is the outcome [Sleeps]; where a theorem is about what follows
    ([scheduler], [trap]), the switch is a parameter that stands for whatever the
    others do meanwhile.

    ** What the theorems show

    - The log makes transactions atomic and durable over crashes at any sector
      write ([transactions_atomic_durable]); a [write] to a file without dittos and
      without new blocks that a crash interrupts leaves a whole number of its
      transactions ([filewrite_crash_safe]).
    - [ilock] accepts an inode exactly when its contents match its checksum, else
      names the first intact ditto or reports corruption; a corruption of a single
      word is found when the inode is first locked; [ilock_trans] restores the
      contents from a ditto, and a crash meanwhile leaves a whole number of chunks
      restored, which pass for intact ([rescue_crash_hides]).
    - Block allocation, reading and writing of files, path names, and the encoding of
      inodes are exact.
    - mkfs builds an image whose files the kernel finds by name and reads back
      ([mkfs_correct], [mkfs_files_readable]); damage done by cfs is reported
      exactly when the flipped bits do not cancel out ([cfs_detected]); [init]
      asks for dittos of the right files of the root directory ([init_backs_up]).
    - Open files are counted exactly, over all processes; pipes are FIFO queues, and
      a pipe's life leaves nothing behind. The console delivers the edited line.
    - Pages and blocks of the user allocator are handed out exclusively; copying
      out to user memory is exact and respects protection; arguments of system
      calls are within the process.
    - The process table stays a tree of live parents with distinct pids; ready
      processes are run in every turn of the scheduler; a killed process does not
      get back to user code; spin locks exclude each other under every interleaving.
    - The shell's parser accepts exactly its grammar and prints back; a command
      starts exactly its programs, with the right descriptors, and in a list after
      the programs before it have ended. The matcher of grep agrees with a
      relational semantics; the filters copy and count their input.
    - The boot loader loads every segment; the processors are found; every enabled
      interrupt is delivered with its vector. The IDE driver refines the memory disk.
    - Some theorems show where the code falls short of what it means to do, such as
      [rescue_crash_hides], [mkfs_thirty_files_panic], [filewrite_dittos_overflow],
      [namei_corrupted_leaks], [mpinit_bad_tables], [fork_fail_leaves_target],
      [uva2ka_null_deref] and [grep_stale_line].

    ** Bounds

    [loop_bound] for [readi], [writei] and their counterparts in mkfs.c and cfs.c,
    [dir_bound] for directories, the length of the path for [namex], [NINODE + 1]
    levels for the recursion of [ilock_ext] into dittos, the length of the line
    for the shell's parser and the number of its nodes for [runcmd], the size of
    a segment in sectors for the boot loader, [list_bound] for the free list of
    [malloc]. The loops of [mpinit] over the firmware's table and of the filters
    over their input take their bound as an argument, and the theorems state how
    much is enough.
    Only [distance_to_root], which climbs a tree whose shape is not known, takes
    its bound ([levels]) without such a theorem.

    ** Not modelled

    Concurrency inside the file system: a routine runs alone, and waiting for
    another thread is the outcome [Sleeps]. Loading of segment, page table and
    interrupt table registers has no counterpart in the model (parts of vm.c, proc.c
    and trap.c), nor has the start of other processors ([startothers] of main.c,
    [lapicstartap]), which runs assembly code. The assembly files, the declarations in
    headers, zombie.c, and the test programs usertests.c, forktest.c and stressfs.c
    are left out. Of the devices, the set-up of the serial port and the probing
    for a second disk are not modelled. *)

(** ** Shared vocabulary

    The kernel monad with its total and partial weakest preconditions, C integer
    widths, little-endian encoding, slices of byte arrays, bit flags, and the
    automation built on them. *)
From Stdlib Require Export ZArith Lia.
From stdpp Require Export prelude functions gmap list strings.

#[global] Open Scope Z_scope.

(** ** The kernel monad

    A kernel routine run by one thread either returns, calls [panic], reaches a
    [sleep] whose condition does not hold in the current state, performs an
    access C leaves undefined, or (for the routines written with an explicit
    recursion bound) exhausts the bound. *)
Inductive outcome (S A : Type) : Type :=
| Ret (a : A) (s : S)
| Panic (msg : string)
| Sleeps (s : S)
| Undef (why : string)
| NoFuel.

Arguments Ret {S A} a s.
Arguments Panic {S A} msg.
Arguments Sleeps {S A} s.
Arguments Undef {S A} why.
Arguments NoFuel {S A}.

Definition K (S A : Type) : Type := S -> outcome S A.

Definition ret {S A} (a : A) : K S A := fun s => Ret a s.

Definition bind {S A B} (m : K S A) (f : A -> K S B) : K S B := fun s =>
  match m s with
  | Ret a s' => f a s'
  | Panic msg => Panic msg
  | Sleeps s' => Sleeps s'
  | Undef why => Undef why
  | NoFuel => NoFuel
  end.

Definition panic {S A} (msg : string) : K S A := fun _ => Panic msg.
Definition undef {S A} (why : string) : K S A := fun _ => Undef why.
Definition sleeps {S A} : K S A := fun s => Sleeps s.
Definition nofuel {S A} : K S A := fun _ => NoFuel.
Definition get {S} : K S S := fun s => Ret s s.
Definition put {S} (s : S) : K S unit := fun _ => Ret tt s.
Definition gets {S A} (f : S -> A) : K S A := fun s => Ret (f s) s.
Definition modify {S} (f : S -> S) : K S unit := fun s => Ret tt (f s).
Definition lift_opt {S A} (why : string) (o : option A) : K S A :=
  match o with Some a => ret a | None => undef why end.

(** Run a routine of a component on its part of a larger state. *)
Definition zoom {S T A} (prj : S -> T) (upd : T -> S -> S) (m : K T A) : K S A := fun s =>
  match m (prj s) with
  | Ret a t => Ret a (upd t s)
  | Panic msg => Panic msg
  | Sleeps t => Sleeps (upd t s)
  | Undef why => Undef why
  | NoFuel => NoFuel
  end.

Declare Scope kernel_scope.
Delimit Scope kernel_scope with kernel.
Notation "'let!' x ':=' m 'in' k" := (bind m (fun x => k))
  (at level 10, x pattern, m at level 100, k at level 200,
   format "'[v' 'let!'  x  ':='  m  'in' '/' k ']'") : kernel_scope.
Notation "m ';;;' k" := (bind m (fun _ => k))
  (at level 199, right associativity, format "'[v' m ';;;' '/' k ']'") : kernel_scope.
#[global] Open Scope kernel_scope.

Definition when {S} (c : bool) (m : K S unit) : K S unit := if c then m else ret tt.

(** [foldK f l a] is the C loop [for x in l: a = f(x, a)]. *)
Fixpoint foldK {S X A} (f : X -> A -> K S A) (l : list X) (a : A) : K S A :=
  match l with
  | [] => ret a
  | x :: l' => let! a' := f x a in foldK f l' a'
  end.

Definition forK {S X} (f : X -> K S unit) (l : list X) : K S unit :=
  foldK (fun x _ => f x) l tt.

(** The indices [a, a+1, ..., b-1] of a counting loop. *)
Definition zrange (a b : Z) : list Z := seqZ a (b - a).

(** ** Searching a table *)

(** First index of [l] whose entry satisfies [p]. *)
Fixpoint index_of {A} (p : A -> bool) (l : list A) : option nat :=
  match l with
  | [] => None
  | x :: l' => if p x then Some O else S <$> index_of p l'
  end.

Lemma index_of_Some {A} (p : A -> bool) l i : index_of p l = Some i ->
  exists x, l !! i = Some x /\ p x = true /\ forall j y, (j < i)%nat -> l !! j = Some y -> p y = false.
Proof.
  revert i; induction l as [|a l IH]; intros i H; [done|]. cbn in H. destruct (p a) eqn:Ep.
  - injection H as <-. exists a. split_and!; try done. intros j y Hj; lia.
  - destruct (index_of p l) as [k|] eqn:E; [|done]. injection H as <-.
    destruct (IH k eq_refl) as (x & Hx & Px & Hl). exists x. split_and!; try done.
    intros [|j] y Hj Hy; [by injection Hy as <-|]. apply (Hl j); [lia|done].
Qed.

Lemma index_of_None {A} (p : A -> bool) l : index_of p l = None <-> forall i x, l !! i = Some x -> p x = false.
Proof.
  induction l as [|a l IH]; cbn; [split; [intros _ i x; by rewrite lookup_nil|done]|].
  destruct (p a) eqn:Ep; [split; [done|]; intros H; specialize (H 0%nat a eq_refl); congruence|].
  rewrite fmap_None, IH. split.
  - intros H [|i] x Hx; [by injection Hx as <-|]. by eapply H.
  - intros H i x Hx. apply (H (S i) x Hx).
Qed.

Lemma index_of_first {A} (f : A -> bool) l i x : l !! i = Some x -> f x = true ->
  (forall j y, (j < i)%nat -> l !! j = Some y -> f y = false) -> index_of f l = Some i.
Proof.
  revert l; induction i as [|i IH]; intros [|a l] Hx Hf Hb; try done; cbn in *.
  - injection Hx as ->. by rewrite Hf.
  - rewrite (Hb 0%nat a ltac:(lia) eq_refl). rewrite (IH l Hx Hf); [done|].
    intros j y Hj Hy. apply (Hb (S j) y); [lia|done].
Qed.

Lemma index_of_unique {X} (P : X -> bool) (l : list X) j x : l !! j = Some x -> P x = true ->
  (forall k y, l !! k = Some y -> P y = true -> k = j) -> index_of P l = Some j.
Proof.
  intros Hj Hx Hu. destruct (index_of P l) as [k|] eqn:E.
  - destruct (index_of_Some _ _ _ E) as (y & Hy & Hp & _). f_equal. by eapply Hu.
  - pose proof (proj1 (index_of_None _ _) E j x Hj) as F. cbn in F. congruence.
Qed.

(** ** Weakest preconditions *)

(** Total: the routine returns, and its result satisfies [Q]. *)
Definition wp {S A} (m : K S A) (Q : A -> S -> Prop) (s : S) : Prop :=
  match m s with Ret a s' => Q a s' | _ => False end.

(** Partial: if the routine returns, its result satisfies [Q]. *)
Definition wlp {S A} (m : K S A) (Q : A -> S -> Prop) (s : S) : Prop :=
  match m s with Ret a s' => Q a s' | _ => True end.

Section wp.
Context {S : Type}.
Implicit Types s : S.

Lemma wp_Ret {A} (m : K S A) Q s : wp m Q s <-> exists a s', m s = Ret a s' /\ Q a s'.
Proof.
  unfold wp; destruct (m s) as [a s'| | | |]; (split; [|by intros (?&?&[=<- <-]&?)]); try done.
  by exists a, s'.
Qed.

Lemma wp_returns {A} (m : K S A) a (P : S -> Prop) s :
  wp m (fun r s' => r = a /\ P s') s -> exists s', m s = Ret a s' /\ P s'.
Proof. rewrite wp_Ret. intros (r & s' & E & -> & H). by exists s'. Qed.

(** A sequence that returns, or gives the processor up, taken apart. *)
Lemma bind_Ret {A B} (m : K S A) (f : A -> K S B) s b s2 :
  bind m f s = Ret b s2 -> exists a s1, m s = Ret a s1 /\ f a s1 = Ret b s2.
Proof. unfold bind. destruct (m s) as [a s1| | | |]; naive_solver. Qed.

Lemma bind_eq {A B} (m : K S A) (f : A -> K S B) s a s' : m s = Ret a s' -> bind m f s = f a s'.
Proof. intros E. unfold bind. by rewrite E. Qed.

Lemma bind_Sleeps {A B} (m : K S A) (f : A -> K S B) s s2 :
  bind m f s = Sleeps s2 -> m s = Sleeps s2 \/ exists a s1, m s = Ret a s1 /\ f a s1 = Sleeps s2.
Proof. unfold bind. destruct (m s) as [a s1| | | |]; naive_solver. Qed.

Lemma wp_bind {A B} (m : K S A) (f : A -> K S B) Q s :
  wp (bind m f) Q s <-> wp m (fun a => wp (f a) Q) s.
Proof. unfold wp, bind. by destruct (m s). Qed.

Lemma wlp_bind {A B} (m : K S A) (f : A -> K S B) Q s :
  wlp (bind m f) Q s <-> wlp m (fun a => wlp (f a) Q) s.
Proof. unfold wlp, bind. by destruct (m s). Qed.

Lemma wp_mono {A} (m : K S A) (P Q : A -> S -> Prop) s :
  wp m P s -> (forall a s', P a s' -> Q a s') -> wp m Q s.
Proof. unfold wp. destruct (m s); naive_solver. Qed.

Lemma wlp_mono {A} (m : K S A) (P Q : A -> S -> Prop) s :
  wlp m P s -> (forall a s', P a s' -> Q a s') -> wlp m Q s.
Proof. unfold wlp. destruct (m s); naive_solver. Qed.

Lemma wp_wlp {A} (m : K S A) (Q : A -> S -> Prop) s : wp m Q s -> wlp m Q s.
Proof. unfold wp, wlp. by destruct (m s). Qed.

Lemma wp_ret {A} (a : A) Q s : Q a s -> wp (ret a) Q s.
Proof. done. Qed.

Lemma wp_get (Q : S -> S -> Prop) s : Q s s -> wp get Q s.
Proof. done. Qed.

Lemma wp_gets {A} (f : S -> A) Q s : Q (f s) s -> wp (gets f) Q s.
Proof. done. Qed.

Lemma wp_modify (f : S -> S) Q s : Q tt (f s) -> wp (modify f) Q s.
Proof. done. Qed.

(** A routine that panics after a prefix that returns. *)
Lemma panics_bind {A B} (m : K S A) (f : A -> K S B) msg s :
  wp m (fun a s' => f a s' = Panic msg) s -> bind m f s = Panic msg.
Proof. unfold wp, bind. by destruct (m s). Qed.

Lemma wp_foldK {X A} (f : X -> A -> K S A) (l : list X)
    (I : nat -> A -> S -> Prop) a s :
  I 0%nat a s ->
  (forall i x a s, l !! i = Some x -> I i a s -> wp (f x a) (I (1 + i)%nat) s) ->
  wp (foldK f l a) (I (length l)) s.
Proof.
  revert I a s; induction l as [|x l IH]; intros I a s H0 Hs; [done|].
  cbn [foldK]. rewrite wp_bind.
  eapply wp_mono; [by apply (Hs 0%nat)|].
  intros a' s' H'. apply (IH (fun i => I (1 + i)%nat)); [done|].
  intros i y b t Hl HI. by apply (Hs (1 + i)%nat).
Qed.

(** An invariant of a loop that returned. *)
Lemma forK_Ret {X} (f : X -> K S unit) (l : list X) (I : nat -> S -> Prop) s s' :
  I 0%nat s ->
  (forall i x s s', l !! i = Some x -> I i s -> f x s = Ret tt s' -> I (1 + i)%nat s') ->
  forK f l s = Ret tt s' -> I (length l) s'.
Proof.
  unfold forK. revert I s; induction l as [|x l IH]; intros I s H0 Hs E; [by injection E as <-|].
  cbn [foldK] in E. apply bind_Ret in E as ([] & s1 & E1 & E).
  apply (IH (fun i => I (1 + i)%nat) s1); [by eapply (Hs 0%nat)| |done].
  intros i y t t' Hl HI Et. by eapply (Hs (1 + i)%nat).
Qed.

Lemma foldK_app {X A} (f : X -> A -> K S A) l1 l2 a s :
  foldK f (l1 ++ l2) a s = bind (foldK f l1 a) (foldK f l2) s.
Proof.
  revert a s; induction l1 as [|x l1 IH]; intros a s; [done|].
  cbn [foldK app]. unfold bind. destruct (f x a s); [|done..].
  rewrite IH. unfold bind. done.
Qed.
End wp.

Lemma wp_zoom {S T A} (prj : S -> T) upd (m : K T A) Q s :
  wp (zoom prj upd m) Q s <-> wp m (fun a t => Q a (upd t s)) (prj s).
Proof. unfold wp, zoom. by destruct (m (prj s)). Qed.

Lemma wlp_zoom {S T A} (prj : S -> T) upd (m : K T A) Q s :
  wlp (zoom prj upd m) Q s <-> wlp m (fun a t => Q a (upd t s)) (prj s).
Proof. unfold wlp, zoom. by destruct (m (prj s)). Qed.

(** Outcomes related through a relation on states. *)
Definition sim {S T A} (R : S -> T -> Prop) (o : outcome S A) (o' : outcome T A) : Prop :=
  match o, o' with
  | Ret a s, Ret b t => a = b /\ R s t
  | Sleeps s, Sleeps t => R s t
  | Panic m, Panic m' => m = m'
  | _, _ => False
  end.

(** ** Frame conditions: what a routine leaves related, whether it returns or sleeps *)

Definition keeps {S A} (R : relation S) (m : K S A) : Prop :=
  forall s, match m s with Ret _ s' | Sleeps s' => R s s' | _ => True end.

Section keeps.
Context {S : Type} (R : relation S).

Lemma keeps_Ret {A} (m : K S A) s a s' : keeps R m -> m s = Ret a s' -> R s s'.
Proof. intros H E. specialize (H s). by rewrite E in H. Qed.

Lemma keeps_bind `{!Transitive R} {A B} (m : K S A) (f : A -> K S B) :
  keeps R m -> (forall a, keeps R (f a)) -> keeps R (bind m f).
Proof.
  intros Hm Hf s. specialize (Hm s). unfold bind. destruct (m s) as [a s'| | | |]; try done.
  specialize (Hf a s'). destruct (f a s'); try done; by etrans.
Qed.

Lemma keeps_ret `{!Reflexive R} {A} (a : A) : keeps R (ret a).
Proof. intros s. apply reflexivity. Qed.
Lemma keeps_get `{!Reflexive R} : keeps R get.
Proof. intros s. apply reflexivity. Qed.
Lemma keeps_gets `{!Reflexive R} {A} (f : S -> A) : keeps R (gets f).
Proof. intros s. apply reflexivity. Qed.
Lemma keeps_sleeps `{!Reflexive R} {A} : keeps R (@sleeps S A).
Proof. intros s. apply reflexivity. Qed.
Lemma keeps_panic {A} msg : keeps R (@panic S A msg).
Proof. done. Qed.
Lemma keeps_undef {A} why : keeps R (@undef S A why).
Proof. done. Qed.
Lemma keeps_nofuel {A} : keeps R (@nofuel S A).
Proof. done. Qed.
Lemma keeps_lift_opt `{!Reflexive R} {A} why (o : option A) : keeps R (lift_opt why o).
Proof. destruct o; [apply keeps_ret|done]. Qed.
Lemma keeps_modify f : (forall s, R s (f s)) -> keeps R (modify f).
Proof. intros H s. apply H. Qed.

Lemma keeps_zoom {T A} (prj : S -> T) upd (m : K T A) : (forall t s, R s (upd t s)) -> keeps R (zoom prj upd m).
Proof. intros H s. unfold zoom. destruct (m (prj s)); try done; apply H. Qed.

Lemma keeps_foldK `{!Reflexive R, !Transitive R} {X A} (f : X -> A -> K S A) l a :
  (forall x a, keeps R (f x a)) -> keeps R (foldK f l a).
Proof. intros H. revert a. induction l as [|x l IH]; intros a; [apply keeps_ret|]. by apply keeps_bind. Qed.
End keeps.

Create HintDb keeps.
#[export] Hint Resolve keeps_ret keeps_get keeps_gets keeps_sleeps keeps_panic keeps_undef keeps_nofuel
  keeps_lift_opt : keeps.

#[export] Hint Extern 2 (keeps _ (forK _ _)) => unfold forK; refine (keeps_foldK _ _ _ _ _); intros : keeps.

(** Split a routine into its steps and branches; what is left are the steps that
    change the state. *)
Ltac keeps_step :=
  match goal with
  | |- keeps _ (bind _ _) => refine (keeps_bind _ _ _ _ _); [|intros ?]
  | |- keeps _ (match ?x with _ => _ end) => destruct x
  | |- keeps _ _ => solve [eauto with keeps typeclass_instances]
  end.
Ltac keeps_tac := repeat (cbv zeta; keeps_step).

(** [wp_step] peels the head of a [bind]; primitives reduce. *)
Ltac wp_simpl :=
  cbn beta iota delta [ret get put gets modify when panic undef].
Ltac wp_step := rewrite wp_bind.
Ltac wp_next H := wp_step; eapply wp_mono; [eapply H|].

Arguments wp : simpl never.
Arguments wlp : simpl never.
Arguments bind : simpl never.
Arguments zoom : simpl never.

(** ** C integers *)

Definition u8 (z : Z) : Z := z `mod` 256.
Definition u16 (z : Z) : Z := z `mod` 65536.
Definition u32 (z : Z) : Z := z `mod` 4294967296.
(** Two's complement reading of a 16- or 32-bit pattern. *)
Definition s16 (z : Z) : Z := let w := u16 z in if w <? 32768 then w else w - 65536.
Definition s32 (z : Z) : Z := let w := u32 z in if w <? 2147483648 then w else w - 4294967296.

Lemma u32_small z : 0 <= z < 4294967296 -> u32 z = z.
Proof. apply Z.mod_small. Qed.

Lemma u32_range z : 0 <= u32 z < 4294967296.
Proof. apply Z.mod_pos_bound. lia. Qed.

Lemma u8_range z : 0 <= u8 z < 256.
Proof. apply Z.mod_pos_bound. lia. Qed.

Lemma u8_small z : 0 <= z < 256 -> u8 z = z.
Proof. apply Z.mod_small. Qed.

Lemma s32_small z : -2147483648 <= z < 2147483648 -> s32 z = z.
Proof.
  intros H. unfold s32, u32. destruct (decide (0 <= z)).
  - rewrite Z.mod_small by lia. destruct (Z.ltb_spec z 2147483648); lia.
  - rewrite <- (Z_mod_plus_full z 1 4294967296), Z.mod_small by lia.
    destruct (Z.ltb_spec (z + 1 * 4294967296) 2147483648); lia.
Qed.

Lemma s32_range z : -2147483648 <= s32 z < 2147483648.
Proof.
  unfold s32. pose proof (u32_range z). destruct (Z.ltb_spec (u32 z) 2147483648); lia.
Qed.

Lemma s32_u32 z : s32 (u32 z) = s32 z.
Proof. unfold s32, u32. by rewrite Z.mod_mod by lia. Qed.

Lemma u32_s32 z : u32 (s32 z) = u32 z.
Proof.
  unfold s32, u32. destruct (Z.ltb_spec (z `mod` 4294967296) 2147483648).
  - apply Z.mod_mod. lia.
  - replace (z `mod` 4294967296 - 4294967296) with (z `mod` 4294967296 + (-1) * 4294967296) by lia.
    rewrite Z_mod_plus_full. apply Z.mod_mod. lia.
Qed.

#[global] Opaque u32 u16 u8.

(** ** Bit flags: [flag f m] is the C test [f & m], for a one-bit mask [m] *)

Definition flag (f m : Z) : bool := negb (Z.land f m =? 0).
Definition flag_set (f m : Z) : Z := Z.lor f m.
Definition flag_clr (f m : Z) : Z := Z.land f (Z.lnot m).

Lemma flag_testbit f k : 0 <= k -> flag f (2 ^ k) = Z.testbit f k.
Proof.
  intros Hk. unfold flag. destruct (Z.eqb_spec (Z.land f (2 ^ k)) 0) as [E|E]; simpl.
  - apply (f_equal (fun z => Z.testbit z k)) in E.
    rewrite Z.land_spec, Z.pow2_bits_true, Z.bits_0, andb_true_r in E by done. done.
  - destruct (Z.testbit f k) eqn:T; [done|]. exfalso. apply E.
    apply Z.bits_inj'. intros i Hi. rewrite Z.land_spec, Z.bits_0.
    rewrite Z.pow2_bits_eqb by done. destruct (Z.eqb_spec k i); [subst|]; by rewrite ?T, ?andb_false_r.
Qed.

Lemma flag_set_spec f k j : 0 <= k -> 0 <= j ->
  flag (flag_set f (2 ^ k)) (2 ^ j) = (k =? j) || flag f (2 ^ j).
Proof.
  intros. rewrite !flag_testbit by done. unfold flag_set.
  rewrite Z.lor_spec, Z.pow2_bits_eqb by done. apply orb_comm.
Qed.

Lemma flag_clr_spec f k j : 0 <= k -> 0 <= j ->
  flag (flag_clr f (2 ^ k)) (2 ^ j) = negb (k =? j) && flag f (2 ^ j).
Proof.
  intros. rewrite !flag_testbit by done. unfold flag_clr.
  rewrite Z.land_spec, Z.lnot_spec, Z.pow2_bits_eqb by done. apply andb_comm.
Qed.

(** ** Byte arrays *)

Abbreviation block := (list Z) (only parsing).

Definition is_byte (z : Z) : Prop := 0 <= z < 256.

#[global] Instance is_byte_dec z : Decision (is_byte z).
Proof. unfold is_byte. apply _. Defined.

(** Closed decidable facts by evaluation. *)
Ltac by_evaluation := apply (bool_decide_unpack _); vm_compute; exact I.

Definition slice {A} (d : list A) (o n : Z) : list A :=
  take (Z.to_nat n) (drop (Z.to_nat o) d).

Definition splice {A} (d : list A) (o : Z) (l : list A) : list A :=
  take (Z.to_nat o) d ++ l ++ drop (Z.to_nat o + length l) d.

Fixpoint le_enc (n : nat) (v : Z) : list Z :=
  match n with
  | O => []
  | S n' => v `mod` 256 :: le_enc n' (v / 256)
  end.

Fixpoint le_dec (bs : list Z) : Z :=
  match bs with
  | [] => 0
  | b :: bs' => b + 256 * le_dec bs'
  end.

Definition get32 (d : block) (o : Z) : Z := le_dec (slice d o 4).
Definition put32 (d : block) (o v : Z) : block := splice d o (le_enc 4 v).
Definition get16 (d : block) (o : Z) : Z := le_dec (slice d o 2).
Definition put16 (d : block) (o v : Z) : block := splice d o (le_enc 2 v).

Section arrays.
Context {A : Type}.
Implicit Types (d l : list A) (o n : Z).

Lemma length_slice d o n :
  0 <= o -> 0 <= n -> o + n <= Z.of_nat (length d) -> length (slice d o n) = Z.to_nat n.
Proof. intros. unfold slice. rewrite length_take, length_drop. lia. Qed.

Lemma length_splice d o l :
  0 <= o -> o + Z.of_nat (length l) <= Z.of_nat (length d) ->
  length (splice d o l) = length d.
Proof. intros. unfold splice. rewrite !length_app, length_take, length_drop. lia. Qed.

Lemma lookup_splice d o l (i : nat) : 0 <= o <= Z.of_nat (length d) ->
  splice d o l !! i =
    if decide (o <= Z.of_nat i < o + Z.of_nat (length l)) then l !! (i - Z.to_nat o)%nat else d !! i.
Proof.
  intros Ho. unfold splice. case_decide.
  - rewrite lookup_app_r by (rewrite length_take; lia).
    rewrite lookup_app_l by (rewrite length_take; lia).
    f_equal. rewrite length_take. lia.
  - destruct (decide (Z.of_nat i < o)).
    + rewrite lookup_app_l by (rewrite length_take; lia). apply lookup_take_lt. lia.
    + rewrite lookup_app_r, lookup_app_r, lookup_drop by (rewrite ?length_take; lia).
      f_equal. rewrite length_take. lia.
Qed.

Lemma lookup_slice d o n (i : nat) :
  slice d o n !! i = if decide (Z.of_nat i < n) then d !! (Z.to_nat o + i)%nat else None.
Proof.
  unfold slice. case_decide.
  - rewrite lookup_take_lt by lia. apply lookup_drop.
  - apply lookup_take_ge. lia.
Qed.

Lemma slice_splice_eq d o l n :
  0 <= o -> o + Z.of_nat (length l) <= Z.of_nat (length d) -> n = Z.of_nat (length l) ->
  slice (splice d o l) o n = l.
Proof.
  intros Ho Hl ->. apply list_eq. intros i. rewrite lookup_slice. case_decide.
  - rewrite lookup_splice by lia. rewrite decide_True by lia. f_equal. lia.
  - symmetry. apply lookup_ge_None_2. lia.
Qed.

Lemma slice_splice_disj d o l o' n :
  0 <= o -> 0 <= o' -> o + Z.of_nat (length l) <= Z.of_nat (length d) ->
  o' + n <= o \/ o + Z.of_nat (length l) <= o' ->
  slice (splice d o l) o' n = slice d o' n.
Proof.
  intros Ho Ho' Hl Hd. apply list_eq. intros i. rewrite !lookup_slice. case_decide; [|done].
  rewrite lookup_splice by lia. rewrite decide_False by lia. done.
Qed.

(** A slice that lies inside the spliced range sees only the new bytes. *)
Lemma slice_splice_in d o l o' n :
  0 <= o -> o <= o' -> o + Z.of_nat (length l) <= Z.of_nat (length d) ->
  o' + n <= o + Z.of_nat (length l) ->
  slice (splice d o l) o' n = slice l (o' - o) n.
Proof.
  intros Ho Ho' Hl Hd. apply list_eq. intros i. rewrite !lookup_slice. case_decide; [|done].
  rewrite lookup_splice by lia. rewrite decide_True by lia. f_equal. lia.
Qed.

Lemma slice_full d n : n = Z.of_nat (length d) -> slice d 0 n = d.
Proof. intros ->. unfold slice. rewrite drop_0, Nat2Z.id. apply take_ge. lia. Qed.

Lemma splice_id d o n :
  0 <= o -> 0 <= n -> o + n <= Z.of_nat (length d) -> splice d o (slice d o n) = d.
Proof.
  intros. apply list_eq. intros i.
  rewrite lookup_splice by (rewrite ?length_slice; lia).
  rewrite length_slice by lia. case_decide; [|done].
  rewrite lookup_slice, decide_True by lia. f_equal. lia.
Qed.
End arrays.

Lemma splice_app {A} (d l1 l2 : list A) o o' : 0 <= o <= Z.of_nat (length d) -> o' = o + Z.of_nat (length l1) ->
  splice (splice d o l1) o' l2 = splice d o (l1 ++ l2).
Proof.
  intros Ho ->. apply list_eq. intros i. rewrite lookup_splice.
  2:{ unfold splice. rewrite !length_app, length_take. lia. }
  rewrite !lookup_splice by lia. rewrite length_app. repeat case_decide; try lia; try done.
  - rewrite lookup_app_r by lia. f_equal. lia.
  - rewrite lookup_app_l by lia. done.
Qed.

Lemma splice_nil {A} (d : list A) o : splice d o [] = d.
Proof. unfold splice. rewrite Nat.add_0_r. apply take_drop. Qed.

Lemma Forall_slice {A} (P : A -> Prop) d o n : Forall P d -> Forall P (slice d o n).
Proof. intros. by apply Forall_take, Forall_drop. Qed.

Lemma Forall_splice {A} (P : A -> Prop) d o l :
  Forall P d -> Forall P l -> Forall P (splice d o l).
Proof.
  intros. unfold splice. repeat apply Forall_app_2; auto using Forall_take, Forall_drop.
Qed.

Lemma length_le_enc n v : length (le_enc n v) = n.
Proof. revert v; induction n; intros; simpl; auto. Qed.

Lemma le_enc_bytes n v : Forall is_byte (le_enc n v).
Proof.
  revert v; induction n; intros; simpl; constructor; auto.
  unfold is_byte. apply Z.mod_pos_bound. lia.
Qed.

Lemma le_dec_enc n v : le_dec (le_enc n v) = v `mod` 256 ^ Z.of_nat n.
Proof.
  revert v; induction n as [|n IH]; intros v; cbn [le_enc le_dec].
  - by rewrite Z.mod_1_r.
  - rewrite IH, Nat2Z.inj_succ, Z.pow_succ_r by lia.
    rewrite Z.rem_mul_r by lia. lia.
Qed.

Lemma le_dec_bound bs : Forall is_byte bs -> 0 <= le_dec bs < 256 ^ Z.of_nat (length bs).
Proof.
  induction 1 as [|b bs Hb _ IH]; cbn [le_dec length]; [done|].
  rewrite Nat2Z.inj_succ, Z.pow_succ_r by lia. unfold is_byte in Hb. lia.
Qed.

Lemma le_enc_dec bs : Forall is_byte bs -> le_enc (length bs) (le_dec bs) = bs.
Proof.
  induction 1 as [|b bs Hb _ IH]; cbn [le_enc le_dec length]; [done|].
  unfold is_byte in Hb. replace (b + 256 * le_dec bs) with (b + le_dec bs * 256) by lia.
  rewrite Z_mod_plus_full, Z.mod_small by lia.
  rewrite Z.div_add, Z.div_small, Z.add_0_l by lia. by rewrite IH.
Qed.

Section words.
Implicit Types (d : block) (o v : Z).

Lemma length_put32 d o v :
  0 <= o -> o + 4 <= Z.of_nat (length d) -> length (put32 d o v) = length d.
Proof. intros. apply length_splice; rewrite ?length_le_enc; lia. Qed.

Lemma length_put16 d o v :
  0 <= o -> o + 2 <= Z.of_nat (length d) -> length (put16 d o v) = length d.
Proof. intros. apply length_splice; rewrite ?length_le_enc; lia. Qed.

Lemma get32_put32_eq d o v :
  0 <= o -> o + 4 <= Z.of_nat (length d) -> get32 (put32 d o v) o = u32 v.
Proof.
  intros. unfold get32, put32. rewrite slice_splice_eq by (rewrite ?length_le_enc; lia).
  by rewrite le_dec_enc.
Qed.

Lemma get32_put32_ne d o o' v :
  0 <= o -> 0 <= o' -> o + 4 <= Z.of_nat (length d) -> o' + 4 <= o \/ o + 4 <= o' ->
  get32 (put32 d o v) o' = get32 d o'.
Proof.
  intros. unfold get32, put32. f_equal. apply slice_splice_disj; rewrite ?length_le_enc; lia.
Qed.

Lemma put32_bytes d o v : Forall is_byte d -> Forall is_byte (put32 d o v).
Proof. intros. apply Forall_splice; auto using le_enc_bytes. Qed.

Lemma get32_range d o :
  Forall is_byte d -> 0 <= o -> o + 4 <= Z.of_nat (length d) -> 0 <= get32 d o < 4294967296.
Proof.
  intros Hd ??. pose proof (le_dec_bound (slice d o 4) (Forall_slice _ _ _ _ Hd)) as Hb.
  rewrite length_slice in Hb by lia. exact Hb.
Qed.
End words.

Arguments slice : simpl never.
Arguments splice : simpl never.
Arguments le_enc : simpl never.
Arguments le_dec : simpl never.

(** ** Finite sets *)

Lemma size_union_le (X Y : gset Z) : (size (X ∪ Y) <= size X + size Y)%nat.
Proof.
  rewrite size_union_alt. assert (size (Y ∖ X) <= size Y)%nat by (apply subseteq_size; set_solver). lia.
Qed.
