(* ===== verification/Bio.v ===== *)
(** The buffer cache of bio.c over the memory disk of memide.c: the cached
    sectors, the LRU ring, and the refinement of both to a map from sectors to
    their current contents. *)
From S2P Require Import Prelude.

(** ** Data *)

(** param.h, fs.h, buf.h *)
Definition NBUF : Z := 20.
Definition BSIZE : Z := 512.
Definition B_BUSY : Z := 1.
Definition B_VALID : Z := 2.
Definition B_DIRTY : Z := 4.

Definition zblock : block := replicate (Z.to_nat BSIZE) 0.

(** struct buf; the ring pointers [prev] and [next] are the list [lru] of the
    cache, see [Ring] below. *)
Record buf := Buf { b_flags : Z; b_dev : Z; b_sector : Z; b_data : block }.

Definition set_flags (f : Z -> Z) (b : buf) : buf := Buf (f (b_flags b)) (b_dev b) (b_sector b) (b_data b).
Definition set_data (d : block) (b : buf) : buf := Buf (b_flags b) (b_dev b) (b_sector b) d.

(** The disk image [memdisk] with its size in sectors, the sector writes it has
    received so far (ghost, for crashes), the buffers [bcache.buf], and the
    buffer indices in ring order from [head.next]. *)
Record bio := Bio {
  disk : gmap Z block;
  disksize : Z;
  writes : list (Z * block);
  bufs : list buf;
  lru : list nat
}.

Definition dsk (σ : bio) (s : Z) : block := default zblock (disk σ !! s).

Definition set_bufs (f : list buf -> list buf) (σ : bio) : bio :=
  Bio (disk σ) (disksize σ) (writes σ) (f (bufs σ)) (lru σ).
Definition set_lru (f : list nat -> list nat) (σ : bio) : bio :=
  Bio (disk σ) (disksize σ) (writes σ) (bufs σ) (f (lru σ)).
Definition disk_write (s : Z) (d : block) (σ : bio) : bio :=
  Bio (<[s := d]> (disk σ)) (disksize σ) (writes σ ++ [(s, d)]) (bufs σ) (lru σ).

(** Dereference and update of a buffer pointer. *)
Definition getbuf (i : nat) : K bio buf :=
  let! σ := get in lift_opt "struct buf pointer" (bufs σ !! i).
Definition updbuf (i : nat) (f : buf -> buf) : K bio unit :=
  let! b := getbuf i in modify (set_bufs <[i := f b]>).

(** ** Operations *)

(** binit *)
Definition binit (d : gmap Z block) (size : Z) : bio :=
  Bio d size [] (replicate (Z.to_nat NBUF) (Buf 0 (u32 (-1)) 0 zblock))
      (rev (seq 0 (Z.to_nat NBUF))).

(** First buffer of [order] that satisfies [p]. *)
Fixpoint scan (p : buf -> bool) (bs : list buf) (order : list nat) : option nat :=
  match order with
  | [] => None
  | i :: rest =>
    match bs !! i with
    | Some b => if p b then Some i else scan p bs rest
    | None => scan p bs rest
    end
  end.

Definition busy (b : buf) : bool := flag (b_flags b) B_BUSY.
Definition valid (b : buf) : bool := flag (b_flags b) B_VALID.
Definition dirty (b : buf) : bool := flag (b_flags b) B_DIRTY.
Definition has_key (dev sector : Z) (b : buf) : bool := (b_dev b =? dev) && (b_sector b =? sector).

Definition bget (dev sector : Z) : K bio nat :=
  let! σ := get in
  match scan (has_key dev sector) (bufs σ) (lru σ) with
  | Some i =>
    let! b := getbuf i in
    if busy b then sleeps
    else updbuf i (set_flags (fun f => flag_set f B_BUSY));;; ret i
  | None =>
    match scan (fun b => negb (busy b) && negb (dirty b)) (bufs σ) (rev (lru σ)) with
    | Some i =>
      updbuf i (fun b => Buf B_BUSY dev sector (b_data b));;; ret i
    | None => panic "bget: no buffers"
    end
  end.

(** iderw of memide.c *)
Definition iderw (i : nat) : K bio unit :=
  let! b := getbuf i in
  if negb (busy b) then panic "iderw: buf not busy"
  else if Z.land (b_flags b) (Z.lor B_VALID B_DIRTY) =? B_VALID then panic "iderw: nothing to do"
  else if negb (b_dev b =? 1) then panic "iderw: request not for disk 1"
  else let! σ := get in
  if disksize σ <=? b_sector b then panic "iderw: sector out of range"
  else (if dirty b then
          updbuf i (set_flags (fun f => flag_clr f B_DIRTY));;;
          modify (disk_write (b_sector b) (b_data b))
        else updbuf i (set_data (dsk σ (b_sector b))));;;
  updbuf i (set_flags (fun f => flag_set f B_VALID)).

Definition bread (dev sector : Z) : K bio nat :=
  let! i := bget dev sector in
  let! b := getbuf i in
  (if negb (valid b) then iderw i else ret tt);;;
  ret i.

Definition bwrite (i : nat) : K bio unit :=
  let! b := getbuf i in
  if negb (busy b) then panic "bwrite"
  else updbuf i (set_flags (fun f => flag_set f B_DIRTY));;;
  iderw i.

(** Unlink [i] and relink it at [head.next]. *)
Definition to_front (i : nat) (l : list nat) : list nat := i :: filter (fun j => j <> i) l.

Definition brelse (i : nat) : K bio unit :=
  let! b := getbuf i in
  if negb (busy b) then panic "brelse"
  else modify (set_lru (to_front i));;;
  updbuf i (set_flags (fun f => flag_clr f B_BUSY)).

(** Reading and replacing the [data] of a held buffer. *)
Definition bdata (i : nat) : K bio block := let! b := getbuf i in ret (b_data b).
Definition bset (i : nat) (d : block) : K bio unit := updbuf i (set_data d).

(** ** Flag algebra *)

Lemma one_bit m : m ∈ [1; 2; 4] -> exists k, 0 <= k /\ m = 2 ^ k.
Proof.
  rewrite !list_elem_of_In; simpl. intros [<- | [<- | [<- | F] ] ]; [..|destruct F].
  - by exists 0.
  - by exists 1.
  - by exists 2.
Qed.

Lemma pow2_eqb k j : 0 <= k -> 0 <= j -> (2 ^ k =? 2 ^ j) = (k =? j).
Proof.
  intros. destruct (Z.eqb_spec k j) as [->|N]; [apply Z.eqb_refl|].
  apply Z.eqb_neq. intros E. apply N. apply (Z.pow_inj_r 2); lia.
Qed.

Lemma flag_set_bit f m t : m ∈ [1; 2; 4] -> t ∈ [1; 2; 4] ->
  flag (flag_set f m) t = (m =? t) || flag f t.
Proof.
  intros (k & ? & ->)%one_bit (j & ? & ->)%one_bit. rewrite pow2_eqb by done.
  by apply flag_set_spec.
Qed.

Lemma flag_clr_bit f m t : m ∈ [1; 2; 4] -> t ∈ [1; 2; 4] ->
  flag (flag_clr f m) t = negb (m =? t) && flag f t.
Proof.
  intros (k & ? & ->)%one_bit (j & ? & ->)%one_bit. rewrite pow2_eqb by done.
  by apply flag_clr_spec.
Qed.

Ltac bit_mem := unfold B_BUSY, B_VALID, B_DIRTY; apply list_elem_of_In; simpl; tauto.
Ltac flags :=
  unfold busy, valid, dirty in *; cbn [b_flags b_dev b_sector b_data set_flags set_data] in *;
  repeat first [rewrite flag_set_bit in * by bit_mem | rewrite flag_clr_bit in * by bit_mem];
  cbn [Z.eqb Pos.eqb orb andb negb B_BUSY B_VALID B_DIRTY] in *.

Lemma nothing_to_do f :
  (Z.land f (Z.lor B_VALID B_DIRTY) =? B_VALID) = flag f B_VALID && negb (flag f B_DIRTY).
Proof.
  change (Z.lor B_VALID B_DIRTY) with 6. change B_VALID with (2 ^ 1). change B_DIRTY with (2 ^ 2).
  rewrite !flag_testbit by lia.
  assert (Z.land f 6 = (if Z.testbit f 1 then 2 else 0) + (if Z.testbit f 2 then 4 else 0)) as ->.
  { apply Z.bits_inj'. intros i Hi. rewrite Z.land_spec.
    destruct (decide (i < 3)).
    - assert (i = 0 \/ i = 1 \/ i = 2) as [-> | [-> | ->] ] by lia;
        destruct (Z.testbit f 1), (Z.testbit f 2); try reflexivity;
        by destruct (Z.testbit f 0).
    - assert (forall z, 0 <= z < 8 -> Z.testbit z i = false) as Hz.
      { intros z Hz. apply Z.bits_above_log2; [lia|].
        destruct (decide (z = 0)); [subst; simpl; lia|].
        apply Z.log2_lt_pow2; [lia|]. change 8 with (2 ^ 3) in Hz.
        apply Z.lt_le_trans with (2 ^ 3); [lia|]. apply Z.pow_le_mono_r; lia. }
      rewrite (Hz 6) by lia. rewrite andb_false_r. symmetry. apply Hz.
      destruct (Z.testbit f 1), (Z.testbit f 2); lia. }
  by destruct (Z.testbit f 1), (Z.testbit f 2).
Qed.

(** ** Invariant and abstraction *)

Definition block_ok (d : block) : Prop := length d = Z.to_nat BSIZE /\ Forall is_byte d.

#[global] Instance block_ok_dec d : Decision (block_ok d).
Proof. unfold block_ok. apply _. Defined.

(** A buffer is either unused since [binit], or holds a sector of the disk;
    one that nobody holds and that is not pinned by the log agrees with it. *)
Inductive buf_ok (σ : bio) (b : buf) : Prop :=
| buf_unused : b_dev b = u32 (-1) -> b_flags b = 0 -> buf_ok σ b
| buf_cached : b_dev b = 1 -> 0 <= b_sector b < disksize σ -> valid b = true -> block_ok (b_data b) ->
    (busy b = false -> dirty b = false -> b_data b = dsk σ (b_sector b)) -> buf_ok σ b.

Record bio_ok (σ : bio) : Prop := {
  ok_len : length (bufs σ) = Z.to_nat NBUF;
  ok_lru : lru σ ≡ₚ seq 0 (Z.to_nat NBUF);
  ok_disk : forall s, block_ok (dsk σ s);
  ok_bufs : forall i b, bufs σ !! i = Some b -> buf_ok σ b;
  ok_keys : forall i j bi bj, bufs σ !! i = Some bi -> bufs σ !! j = Some bj ->
    b_dev bi = 1 -> b_dev bj = 1 -> b_sector bi = b_sector bj -> i = j
}.

(** The contents a client sees in sector [s]: the cached copy, else the disk. *)
Definition view (σ : bio) (s : Z) : block :=
  match scan (has_key 1 s) (bufs σ) (lru σ) with
  | Some i => match bufs σ !! i with Some b => b_data b | None => zblock end
  | None => dsk σ s
  end.

(** Buffers that [bget] may not recycle. *)
Definition pinned (b : buf) : bool := busy b || dirty b.
Definition used (σ : bio) : nat := length (filter (fun b => pinned b = true) (bufs σ)).

Definition not_busy (σ : bio) (s : Z) : Prop :=
  forall i b, bufs σ !! i = Some b -> has_key 1 s b = true -> busy b = false.
Definition is_cached (σ : bio) (s : Z) : Prop :=
  exists i b, bufs σ !! i = Some b /\ has_key 1 s b = true.

Lemma has_key_true dev s b : has_key dev s b = true <-> b_dev b = dev /\ b_sector b = s.
Proof. unfold has_key. rewrite andb_true_iff, !Z.eqb_eq. done. Qed.

Lemma scan_Some p bs order i : scan p bs order = Some i ->
  i ∈ order /\ exists b, bs !! i = Some b /\ p b = true.
Proof.
  induction order as [|j order IH]; simpl; [done|].
  destruct (bs !! j) as [b|] eqn:E.
  - destruct (p b) eqn:P.
    + intros [= <-]. split; [constructor|eauto].
    + intros H. apply IH in H as [? ?]. split; [by constructor|done].
  - intros H. apply IH in H as [? ?]. split; [by constructor|done].
Qed.

Lemma scan_None p bs order : scan p bs order = None ->
  forall i b, i ∈ order -> bs !! i = Some b -> p b = false.
Proof.
  induction order as [|j order IH]; simpl; intros H i b Hi Hb; [by apply elem_of_nil in Hi|].
  apply elem_of_cons in Hi as [->|Hi].
  - rewrite Hb in H. by destruct (p b).
  - destruct (bs !! j) as [b'|]; [destruct (p b'); [done|]|]; eauto.
Qed.

Lemma ok_lru_elem σ i b : bio_ok σ -> bufs σ !! i = Some b -> i ∈ lru σ.
Proof.
  intros Hok Hb. rewrite (ok_lru _ Hok). apply elem_of_seq.
  apply lookup_lt_Some in Hb. rewrite (ok_len _ Hok) in Hb. lia.
Qed.

Lemma view_cached σ i b s : bio_ok σ -> bufs σ !! i = Some b -> has_key 1 s b = true ->
  view σ s = b_data b.
Proof.
  intros Hok Hb Hk. unfold view. destruct (scan _ _ _) as [j|] eqn:E.
  - apply scan_Some in E as [_ (b' & Hb' & Hk')]. apply has_key_true in Hk as [??], Hk' as [??].
    assert (i = j) as -> by (eapply ok_keys; eauto; congruence). by simplify_eq; rewrite Hb.
  - eapply scan_None in E; [|by eapply ok_lru_elem|done]. congruence.
Qed.

Lemma view_uncached σ s : ~ is_cached σ s -> view σ s = dsk σ s.
Proof.
  intros Hn. unfold view. destruct (scan _ _ _) as [j|] eqn:E; [|done].
  apply scan_Some in E as [_ (b & Hb & Hk)]. destruct Hn. by exists j, b.
Qed.

Lemma is_cached_dec σ s : is_cached σ s \/ ~ is_cached σ s.
Proof.
  destruct (scan (has_key 1 s) (bufs σ) (seq 0 (length (bufs σ)))) as [i|] eqn:E.
  - left. apply scan_Some in E as [_ (b & ? & ?)]. by exists i, b.
  - right. intros (i & b & Hb & Hk). eapply scan_None in E; [|apply elem_of_seq|done]; [congruence|].
    apply lookup_lt_Some in Hb. lia.
Qed.

(** ** Replacing one buffer *)

Abbreviation setb i b σ := (set_bufs <[i := b]> σ).

Lemma bio_ok_set σ i b0 b : bio_ok σ -> bufs σ !! i = Some b0 -> buf_ok σ b ->
  (b_dev b = 1 -> forall j bj, j <> i -> bufs σ !! j = Some bj -> b_dev bj = 1 -> b_sector bj <> b_sector b) ->
  bio_ok (setb i b σ).
Proof.
  intros Hok Hi Hb Hk.
  assert (i < length (bufs σ))%nat as Hlt by eauto using lookup_lt_Some.
  assert (forall j bj, <[i:=b]> (bufs σ) !! j = Some bj -> (j = i /\ bj = b) \/ (j <> i /\ bufs σ !! j = Some bj)) as Hins.
  { intros j bj. destruct (decide (j = i)) as [->|N].
    - rewrite list_lookup_insert_eq by done. intros [= <-]. by left.
    - rewrite list_lookup_insert_ne by done. by right. }
  split; cbn [set_bufs bufs lru disk disksize].
  - rewrite length_insert. apply Hok.
  - apply Hok.
  - apply Hok.
  - intros j bj [(-> & ->)|(? & Hj)]%Hins; [destruct Hb|destruct (ok_bufs _ Hok _ _ Hj)];
      [apply buf_unused|apply buf_cached|apply buf_unused|apply buf_cached]; done.
  - intros j k bj bk [(-> & ->)|(? & Hj)]%Hins [(-> & ->)|(? & Hk')]%Hins ? ? E; [done|..].
    + by destruct (Hk ltac:(done) k bk).
    + by destruct (Hk ltac:(done) j bj).
    + eapply (ok_keys _ Hok); eauto.
Qed.

Lemma view_setb σ i b0 b s : bio_ok σ -> bufs σ !! i = Some b0 -> bio_ok (setb i b σ) ->
  view (setb i b σ) s =
    if has_key 1 s b then b_data b else if has_key 1 s b0 then dsk σ s else view σ s.
Proof.
  intros Hok Hi Hok'.
  assert (i < length (bufs σ))%nat as Hlt by eauto using lookup_lt_Some.
  destruct (has_key 1 s b) eqn:Kb.
  { eapply view_cached; [done| |done]. by apply list_lookup_insert_eq. }
  destruct (has_key 1 s b0) eqn:K0.
  { rewrite view_uncached; [done|]. intros (j & bj & Hj & Kj). cbn [set_bufs bufs] in Hj.
    destruct (decide (j = i)) as [->|N].
    - rewrite list_lookup_insert_eq in Hj by done. congruence.
    - rewrite list_lookup_insert_ne in Hj by done. apply has_key_true in K0 as [??], Kj as [??].
      apply N. eapply (ok_keys _ Hok); eauto. congruence. }
  destruct (is_cached_dec σ s) as [(j & bj & Hj & Kj)|N].
  - assert (j <> i) by congruence.
    rewrite (view_cached _ _ _ _ Hok Hj Kj). eapply view_cached; [done| |done].
    cbn [set_bufs bufs]. by rewrite list_lookup_insert_ne.
  - rewrite (view_uncached _ _ N), view_uncached; [done|].
    intros (j & bj & Hj & Kj). cbn [set_bufs bufs] in Hj. destruct (decide (j = i)) as [->|Nj].
    + rewrite list_lookup_insert_eq in Hj by done. congruence.
    + rewrite list_lookup_insert_ne in Hj by done. apply N. by exists j, bj.
Qed.

Definition pin (b : buf) : nat := if pinned b then 1 else 0.

Lemma used_insert (l : list buf) i b0 b : l !! i = Some b0 ->
  (length (filter (fun b => pinned b = true) (<[i := b]> l)) + pin b0
   = length (filter (fun b => pinned b = true) l) + pin b)%nat.
Proof.
  revert i; induction l as [|x l IH]; intros [|i] Hi; simplify_eq/=.
  - rewrite !filter_cons. unfold pin. destruct (pinned b0), (pinned b); simpl; lia.
  - specialize (IH _ Hi). rewrite !filter_cons. destruct (decide (pinned x = true)); simpl; lia.
Qed.

Lemma used_setb σ i b0 b : bufs σ !! i = Some b0 -> (used (setb i b σ) + pin b0 = used σ + pin b)%nat.
Proof. apply used_insert. Qed.

Lemma used_lt_evict σ : bio_ok σ -> (used σ < Z.to_nat NBUF)%nat ->
  exists i b, bufs σ !! i = Some b /\ busy b = false /\ dirty b = false.
Proof.
  intros Hok. unfold used. rewrite <- (ok_len _ Hok). generalize (bufs σ). clear.
  induction l as [|x l IH]; simpl; [lia|]. rewrite filter_cons.
  destruct (decide (pinned x = true)) as [P|P]; simpl; intros H.
  - destruct IH as (i & b & ? & ?); [lia|]. by exists (S i), b.
  - exists 0%nat, x. unfold pinned in P. destruct (busy x), (dirty x); first [by destruct P | by split_and!].
Qed.

(** ** Specifications of the operations *)

Section specs.
Implicit Types (σ : bio) (i : nat) (s : Z).

Lemma wp_getbuf i b (Q : buf -> bio -> Prop) σ :
  bufs σ !! i = Some b -> Q b σ -> wp (getbuf i) Q σ.
Proof. intros Hb HQ. unfold getbuf. rewrite wp_bind. apply wp_get. by rewrite Hb. Qed.

Lemma wp_updbuf i b f (Q : unit -> bio -> Prop) σ :
  bufs σ !! i = Some b -> Q tt (setb i (f b) σ) -> wp (updbuf i f) Q σ.
Proof. intros Hb HQ. unfold updbuf. rewrite wp_bind. by eapply wp_getbuf. Qed.

Lemma setb_setb i b1 b2 σ : setb i b2 (setb i b1 σ) = setb i b2 σ.
Proof. unfold set_bufs; simpl. by rewrite list_insert_insert_eq. Qed.

Lemma setb_lookup i b b0 σ : bufs σ !! i = Some b0 -> bufs (setb i b σ) !! i = Some b.
Proof. intros H. apply list_lookup_insert_eq. by eapply lookup_lt_Some. Qed.

Lemma setb_lookup_ne i j b σ : i <> j -> bufs (setb i b σ) !! j = bufs σ !! j.
Proof. intros H. by apply list_lookup_insert_ne. Qed.

(** What [bread] leaves behind: buffer [i], previously [b0], now holds sector
    [s] busy and valid with the contents clients see; nothing else changed. *)
Record read_post σ s i σ' (b0 b : buf) : Prop := {
  rp_was : bufs σ !! i = Some b0;
  rp_free : busy b0 = false;
  rp_state : σ' = setb i b σ;
  rp_dev : b_dev b = 1;
  rp_sector : b_sector b = s;
  rp_busy : busy b = true;
  rp_valid : valid b = true;
  rp_dirty : dirty b = dirty b0;
  rp_pin : dirty b0 = true -> has_key 1 s b0 = true;
  rp_data : b_data b = view σ s;
  rp_clean : dirty b = false -> b_data b = dsk σ s;
  rp_ok : bio_ok σ';
  rp_view : forall s', view σ' s' = view σ s'
}.

Lemma bread_hit σ s i b0 : bio_ok σ -> not_busy σ s ->
  scan (has_key 1 s) (bufs σ) (lru σ) = Some i -> bufs σ !! i = Some b0 ->
  has_key 1 s b0 = true ->
  wp (bread 1 s) (fun j σ' => j = i /\ exists b, read_post σ s i σ' b0 b) σ.
Proof.
  intros Hok Hnb Es Hi Hk. pose proof (Hnb _ _ Hi Hk) as Hb.
  pose proof (ok_bufs _ Hok _ _ Hi) as B0. pose proof (proj1 (has_key_true _ _ _) Hk) as [Kd Ks].
  destruct B0 as [Hd _|Hd Hs Hv Hda Hcl]; [rewrite Hd in Kd; discriminate|].
  unfold bread, bget. rewrite !wp_bind. apply wp_get. rewrite Es, wp_bind.
  eapply wp_getbuf; [done|]. rewrite Hb. rewrite wp_bind.
  eapply wp_updbuf; [done|]. apply wp_ret. rewrite wp_bind.
  eapply wp_getbuf; [by eapply setb_lookup|].
  assert (valid (set_flags (fun f => flag_set f B_BUSY) b0) = true) as -> by (flags; done).
  simpl negb. rewrite wp_bind. apply wp_ret. apply wp_ret. split; [done|].
  exists (set_flags (fun f => flag_set f B_BUSY) b0).
  assert (bio_ok (setb i (set_flags (fun f => flag_set f B_BUSY) b0) σ)) as Hok'.
  { eapply bio_ok_set; [done..| |].
    - apply buf_cached; flags; done.
    - cbn. intros _ j bj N Hj Dj E. apply N. eapply (ok_keys _ Hok); eauto. }
  assert (forall s', view (setb i (set_flags (fun f => flag_set f B_BUSY) b0) σ) s' = view σ s').
  { intros s'. rewrite (view_setb _ _ _ _ _ Hok Hi Hok').
    change (has_key 1 s' (set_flags _ b0)) with (has_key 1 s' b0).
    destruct (has_key 1 s' b0) eqn:E; [|done]. by rewrite (view_cached _ _ _ _ Hok Hi E). }
  split; try done; try (by flags).
  - by rewrite (view_cached _ _ _ _ Hok Hi Hk).
  - intros D. rewrite <- Ks. apply Hcl; [done|]. by flags.
Qed.

Lemma bread_miss σ s : bio_ok σ -> 0 <= s < disksize σ ->
  scan (has_key 1 s) (bufs σ) (lru σ) = None -> (used σ < Z.to_nat NBUF)%nat ->
  wp (bread 1 s) (fun i σ' => exists b0 b, read_post σ s i σ' b0 b) σ.
Proof.
  intros Hok Hs Es Hu. unfold bread, bget. rewrite !wp_bind. apply wp_get. rewrite Es.
  destruct (scan _ _ (rev _)) as [i|] eqn:Ev; last first.
  { exfalso. destruct (used_lt_evict _ Hok Hu) as (j & bj & Hj & B & D).
    eapply scan_None in Ev; [..|done].
    - by rewrite B, D in Ev.
    - rewrite list_elem_of_In, <- in_rev, <- list_elem_of_In. by eapply ok_lru_elem. }
  apply scan_Some in Ev as [_ (b0 & Hi & Hp)]. apply andb_true_iff in Hp as [Hb Hd].
  apply negb_true_iff in Hb, Hd.
  assert (forall j bj, bufs σ !! j = Some bj -> b_dev bj = 1 -> b_sector bj <> s) as Hno.
  { intros j bj Hj Dj Sj. eapply scan_None in Es; [|by eapply ok_lru_elem|done].
    assert (has_key 1 s bj = true) by (by apply has_key_true). congruence. }
  rewrite wp_bind. eapply wp_updbuf; [done|]. apply wp_ret. rewrite wp_bind.
  eapply wp_getbuf; [by eapply setb_lookup|]. rewrite wp_bind.
  change (negb (valid (Buf B_BUSY _ _ _))) with true. cbv iota. unfold iderw.
  rewrite wp_bind. eapply wp_getbuf; [by eapply setb_lookup|]. cbn [b_flags b_dev b_sector b_data].
  change (negb (busy (Buf B_BUSY _ _ _))) with false.
  change (Z.land B_BUSY (Z.lor B_VALID B_DIRTY) =? B_VALID) with false. cbv iota. simpl negb. cbv iota.
  rewrite wp_bind. apply wp_get. cbn [set_bufs disksize b_sector].
  destruct (Z.leb_spec (disksize σ) s); [lia|]. rewrite wp_bind.
  change (dirty (Buf B_BUSY _ _ _)) with false. cbv iota.
  eapply wp_updbuf; [by eapply setb_lookup|]. rewrite setb_setb.
  eapply wp_updbuf; [by eapply setb_lookup|]. rewrite setb_setb. apply wp_ret.
  change (dsk _ s) with (dsk σ s). cbn [set_flags set_data b_flags b_dev b_sector b_data].
  exists b0, (Buf (flag_set B_BUSY B_VALID) 1 s (dsk σ s)).
  set (b := Buf (flag_set B_BUSY B_VALID) 1 s (dsk σ s)).
  assert (bio_ok (setb i b σ)) as Hok'.
  { eapply bio_ok_set; [done..| |].
    - apply buf_cached; try done. apply Hok.
    - cbn. intros _ j bj N Hj Dj. by eapply Hno. }
  assert (forall s', view (setb i b σ) s' = view σ s') as Hv.
  { intros s'. rewrite (view_setb _ _ _ _ _ Hok Hi Hok'). destruct (has_key 1 s' b) eqn:E.
    - apply has_key_true in E as [_ <-]. cbn. rewrite view_uncached; [done|].
      intros (j & bj & Hj & Kj). apply has_key_true in Kj as [??]. by eapply Hno.
    - destruct (has_key 1 s' b0) eqn:E0; [|done].
      rewrite (view_cached _ _ _ _ Hok Hi E0). apply has_key_true in E0 as [D0 <-].
      destruct (ok_bufs _ Hok _ _ Hi) as [F _|???? Hcl]; [rewrite F in D0; discriminate|].
      symmetry. by apply Hcl. }
  split; try done.
  - congruence.
  - rewrite view_uncached; [done|].
    intros (j & bj & Hj & Kj). apply has_key_true in Kj as [??]. by eapply Hno.
Qed.

Lemma bread_spec σ s : bio_ok σ -> 0 <= s < disksize σ -> not_busy σ s ->
  is_cached σ s \/ (used σ < Z.to_nat NBUF)%nat ->
  wp (bread 1 s) (fun i σ' => exists b0 b, read_post σ s i σ' b0 b) σ.
Proof.
  intros Hok Hs Hnb Hc. destruct (scan (has_key 1 s) (bufs σ) (lru σ)) as [i|] eqn:Es.
  - pose proof (scan_Some _ _ _ _ Es) as [_ (b0 & Hi & Hk)].
    eapply wp_mono; [by eapply bread_hit|]. intros j σ' [-> [b H]]. eauto.
  - apply bread_miss; try done. destruct Hc as [(i & b & Hb & Hk)|]; [|done].
    eapply scan_None in Es; [|by eapply ok_lru_elem|done]. congruence.
Qed.

Lemma read_post_used σ s i σ' b0 b : read_post σ s i σ' b0 b ->
  (used σ' + (if dirty b then 1 else 0) = used σ + 1)%nat.
Proof.
  intros H. rewrite (rp_state _ _ _ _ _ _ H).
  pose proof (used_setb σ i b0 b (rp_was _ _ _ _ _ _ H)) as U. revert U.
  unfold pin, pinned.
  rewrite (rp_busy _ _ _ _ _ _ H), (rp_free _ _ _ _ _ _ H), <- (rp_dirty _ _ _ _ _ _ H).
  destruct (dirty b); simpl; lia.
Qed.

Lemma read_post_held σ s i σ' b0 b : read_post σ s i σ' b0 b -> bufs σ' !! i = Some b.
Proof. intros []. subst σ'. by eapply setb_lookup. Qed.

Lemma bio_ok_lru σ f : bio_ok σ -> f (lru σ) ≡ₚ lru σ -> bio_ok (set_lru f σ).
Proof.
  intros Hok Hf. split; cbn; try apply Hok.
  - rewrite Hf. apply Hok.
  - intros i b Hi. destruct (ok_bufs _ Hok _ _ Hi); [by apply buf_unused|by apply buf_cached].
Qed.

(** Two caches with the same buffers and disk present the same contents. *)
Lemma view_same σ σ' s : bio_ok σ -> bio_ok σ' -> bufs σ' = bufs σ -> disk σ' = disk σ ->
  view σ' s = view σ s.
Proof.
  intros Hok Hok' Hb Hd. destruct (is_cached_dec σ s) as [(i & b & Hi & Hk)|N].
  - rewrite (view_cached _ _ _ _ Hok Hi Hk). eapply view_cached; [done| |done]. by rewrite Hb.
  - rewrite (view_uncached _ _ N), view_uncached.
    + unfold dsk. by rewrite Hd.
    + intros (i & b & Hi & Hk). apply N. exists i, b. by rewrite <- Hb.
Qed.

Lemma to_front_perm i l : NoDup l -> i ∈ l -> to_front i l ≡ₚ l.
Proof.
  intros Hnd Hi. unfold to_front. apply list_elem_of_split in Hi as (l1 & l2 & ->).
  assert (forall k : list nat, i ∉ k -> filter (fun j => j <> i) k = k) as Hf.
  { induction k as [|x k IH]; intros Hk; [done|].
    apply not_elem_of_cons in Hk as [??]. rewrite filter_cons_True by done. by rewrite IH. }
  apply NoDup_app in Hnd as (_ & H1 & H2). apply NoDup_cons in H2 as [H2 _].
  rewrite filter_app, filter_cons_False by (intros E; by apply E).
  rewrite !Hf; [apply Permutation_middle|done|].
  intros E. apply (H1 _ E). constructor.
Qed.

Lemma ok_lru_nodup σ : bio_ok σ -> NoDup (lru σ).
Proof. intros Hok. rewrite (ok_lru _ Hok). apply NoDup_seq. Qed.

Lemma brelse_spec σ i b : bio_ok σ -> bufs σ !! i = Some b -> busy b = true -> b_dev b = 1 ->
  dirty b = true \/ b_data b = dsk σ (b_sector b) ->
  wp (brelse i) (fun _ σ' =>
    σ' = setb i (set_flags (fun f => flag_clr f B_BUSY) b) (set_lru (to_front i) σ) /\ bio_ok σ' /\
    (forall s, view σ' s = view σ s) /\
    (used σ' + 1 = used σ + (if dirty b then 1 else 0))%nat) σ.
Proof.
  intros Hok Hi Hb Hd Hc. unfold brelse. rewrite wp_bind. eapply wp_getbuf; [done|].
  rewrite Hb. simpl negb. rewrite wp_bind. apply wp_modify. eapply wp_updbuf; [done|].
  set (b' := set_flags _ b). set (σ1 := set_lru (to_front i) σ).
  assert (bio_ok σ1) as Hok1.
  { apply bio_ok_lru; [done|]. apply to_front_perm; [by apply ok_lru_nodup|by eapply ok_lru_elem]. }
  assert (bio_ok (setb i b' σ1)) as Hok'.
  { eapply bio_ok_set; [done|done| |].
    - destruct (ok_bufs _ Hok _ _ Hi) as [F _|? ? ? ? ?]; [rewrite F in Hd; discriminate|].
      apply buf_cached; subst b'; flags; try done. intros _ D. destruct Hc; [congruence|done].
    - cbn. intros _ j bj N Hj Dj E. apply N. eapply (ok_keys _ Hok); eauto. }
  split; [done|]. split; [done|]. split.
  - intros s. rewrite (view_setb σ1 i b b' s Hok1 Hi Hok').
    change (has_key 1 s b') with (has_key 1 s b). rewrite (view_same σ σ1) by done.
    destruct (has_key 1 s b) eqn:E; [|done]. by rewrite (view_cached _ _ _ _ Hok Hi E).
  - pose proof (used_setb σ1 i b b' Hi) as U. change (used σ1) with (used σ) in U. revert U.
    unfold pin, pinned. assert (busy b' = false) as -> by (subst b'; by flags).
    assert (dirty b' = dirty b) as -> by (subst b'; by flags). rewrite Hb.
    destruct (dirty b); simpl; lia.
Qed.

Lemma bset_spec σ i b d : bio_ok σ -> bufs σ !! i = Some b -> busy b = true -> b_dev b = 1 -> block_ok d ->
  wp (bset i d) (fun _ σ' => σ' = setb i (set_data d b) σ /\ bio_ok σ' /\
    (forall s, view σ' s = if decide (s = b_sector b) then d else view σ s) /\ used σ' = used σ) σ.
Proof.
  intros Hok Hi Hb Hd Hdd. unfold bset. eapply wp_updbuf; [done|].
  assert (bio_ok (setb i (set_data d b) σ)) as Hok'.
  { eapply bio_ok_set; [done|done| |].
    - destruct (ok_bufs _ Hok _ _ Hi) as [F _|? ? ? ? ?]; [rewrite F in Hd; discriminate|].
      apply buf_cached; try done. intros E. unfold busy in *. cbn in E. congruence.
    - cbn. intros _ j bj N Hj Dj E. apply N. eapply (ok_keys _ Hok); eauto. }
  split; [done|]. split; [done|]. split.
  - intros s. rewrite (view_setb _ _ _ _ _ Hok Hi Hok'). change (has_key 1 s (set_data d b)) with (has_key 1 s b).
    unfold has_key. rewrite Hd. simpl. destruct (Z.eqb_spec (b_sector b) s), (decide (s = b_sector b)); congruence.
  - pose proof (used_setb σ i b (set_data d b) Hi) as U.
    change (pin (set_data d b)) with (pin b) in U. lia.
Qed.

(** After [bwrite] the buffer is still held, valid and clean, and the sector has
    been written. *)
Definition written (b : buf) : buf :=
  set_flags (fun f => flag_set (flag_clr (flag_set f B_DIRTY) B_DIRTY) B_VALID) b.

Lemma written_flags b : busy b = true ->
  busy (written b) = true /\ dirty (written b) = false /\ valid (written b) = true.
Proof. intros Hb. unfold written. split_and!; by flags. Qed.

(** The pure state change of [bwrite]. *)
Definition after_write (i : nat) (b : buf) (σ : bio) : bio :=
  disk_write (b_sector b) (b_data b) (setb i (written b) σ).

Lemma after_write_dsk i b σ s :
  dsk (after_write i b σ) s = if decide (s = b_sector b) then b_data b else dsk σ s.
Proof.
  unfold dsk, after_write, disk_write. cbn [disk set_bufs]. case_decide; subst.
  - by rewrite lookup_insert_eq.
  - by rewrite lookup_insert_ne.
Qed.

Lemma after_write_lookup i b0 b σ j bj : bufs σ !! i = Some b0 ->
  bufs (after_write i b σ) !! j = Some bj ->
  (j = i /\ bj = written b) \/ (j <> i /\ bufs σ !! j = Some bj).
Proof.
  intros Hi Hj. change (bufs _) with (bufs (setb i (written b) σ)) in Hj.
  destruct (decide (j = i)) as [->|N].
  - rewrite (setb_lookup _ _ _ _ Hi) in Hj. simplify_eq. by left.
  - rewrite setb_lookup_ne in Hj by done. by right.
Qed.

Lemma after_write_ok σ i b : bio_ok σ -> bufs σ !! i = Some b -> busy b = true -> b_dev b = 1 ->
  bio_ok (after_write i b σ).
Proof.
  intros Hok Hi Hb Hd. destruct (written_flags b Hb) as (Wb & Wd & Wv).
  destruct (ok_bufs _ Hok _ _ Hi) as [F _|_ Hs Hv Hda _]; [rewrite F in Hd; discriminate|].
  split.
  - cbn. rewrite length_insert. apply Hok.
  - apply Hok.
  - intros s. rewrite after_write_dsk. case_decide; [done|apply Hok].
  - intros j bj [(-> & ->)|(N & Hj)]%(after_write_lookup _ _ _ _ _ _ Hi).
    + apply buf_cached; try done. congruence.
    + pose proof (ok_bufs _ Hok _ _ Hj) as [?|Dj ? ? ? Hcl]; [by apply buf_unused|].
      apply buf_cached; try done. intros. rewrite after_write_dsk. rewrite decide_False; [by apply Hcl|].
      intros E. apply N. eapply (ok_keys _ Hok); eauto.
  - intros j k bj bk [(-> & ->)|(Nj & Hj)]%(after_write_lookup _ _ _ _ _ _ Hi)
      [(-> & ->)|(Nk & Hk)]%(after_write_lookup _ _ _ _ _ _ Hi) ? ? E; [done|..];
      eapply (ok_keys _ Hok); eauto.
Qed.

Lemma after_write_view σ i b s : bio_ok σ -> bufs σ !! i = Some b -> busy b = true -> b_dev b = 1 ->
  view (after_write i b σ) s = view σ s.
Proof.
  intros Hok Hi Hb Hd. pose proof (after_write_ok _ _ _ Hok Hi Hb Hd) as Hok'.
  destruct (is_cached_dec σ s) as [(j & bj & Hj & Hk)|N].
  - rewrite (view_cached _ _ _ _ Hok Hj Hk). destruct (decide (j = i)) as [->|Nj].
    + assert (bj = b) as -> by congruence.
      apply (view_cached _ i (written b) s Hok'); [by eapply setb_lookup|done].
    + apply (view_cached _ j bj s Hok'); [|done].
      change (bufs _) with (bufs (setb i (written b) σ)). by rewrite setb_lookup_ne.
  - rewrite (view_uncached _ _ N), view_uncached.
    + rewrite after_write_dsk. rewrite decide_False; [done|]. intros ->. apply N. exists i, b.
      split; [done|]. by apply has_key_true.
    + intros (j & bj & [(-> & ->)|(Nj & Hj)]%(after_write_lookup _ _ _ _ _ _ Hi) & Hk); apply N.
      * by exists i, b.
      * by exists j, bj.
Qed.

Lemma bwrite_run σ i b : bufs σ !! i = Some b -> busy b = true -> b_dev b = 1 ->
  b_sector b < disksize σ -> bwrite i σ = Ret tt (after_write i b σ).
Proof.
  intros Hi Hb Hd Hs.
  enough (wp (bwrite i) (fun r σ' => r = tt /\ σ' = after_write i b σ) σ) as E.
  { apply wp_Ret in E as (r & σ' & E & -> & ->). done. }
  unfold bwrite. rewrite wp_bind. eapply wp_getbuf; [done|]. rewrite Hb. simpl negb. cbv iota.
  rewrite wp_bind. eapply wp_updbuf; [done|]. unfold iderw. rewrite wp_bind.
  eapply wp_getbuf; [by eapply setb_lookup|].
  assert (busy (set_flags (fun f => flag_set f B_DIRTY) b) = true) as -> by (by flags).
  assert (dirty (set_flags (fun f => flag_set f B_DIRTY) b) = true) as Hdi by (by flags).
  rewrite nothing_to_do. unfold dirty in Hdi at 1. rewrite Hdi, andb_false_r.
  cbn [negb b_dev set_flags]. rewrite Hd. simpl.
  rewrite wp_bind. apply wp_get. cbn [b_sector set_flags]. change (disksize (setb i _ σ)) with (disksize σ).
  destruct (Z.leb_spec (disksize σ) (b_sector b)); [lia|].
  unfold dirty. cbn [b_flags set_flags] in Hdi |- *. rewrite Hdi. rewrite wp_bind, wp_bind.
  eapply wp_updbuf; [by eapply setb_lookup|]. rewrite setb_setb. apply wp_modify.
  eapply wp_updbuf; [by eapply setb_lookup|]. cbn [b_sector b_data set_flags].
  split; [done|]. change (setb i ?x (disk_write ?s ?d ?t)) with (disk_write s d (setb i x t)).
  by rewrite setb_setb.
Qed.

Lemma bwrite_spec σ i b : bio_ok σ -> bufs σ !! i = Some b -> busy b = true -> b_dev b = 1 ->
  wp (bwrite i) (fun _ σ' => σ' = after_write i b σ /\
    bio_ok σ' /\ (forall s, view σ' s = view σ s) /\
    used σ' = used σ) σ.
Proof.
  intros Hok Hi Hb Hd.
  destruct (ok_bufs _ Hok _ _ Hi) as [F _|_ Hs _ _ _]; [rewrite F in Hd; discriminate|].
  apply wp_Ret. exists tt, (after_write i b σ). split; [apply bwrite_run; [done..|lia]|].
  split; [done|]. split; [by apply after_write_ok|]. split; [intros; by apply after_write_view|].
  pose proof (used_setb σ i b (written b) Hi) as U.
  change (used (after_write i b σ)) with (used (setb i (written b) σ)).
  revert U. unfold pin, pinned. destruct (written_flags b Hb) as (-> & _ & _). rewrite Hb. simpl. lia.
Qed.
End specs.
