(* ===== verification/Cache.v ===== *)
(** The buffer cache as its clients see it: an abstract state (current contents,
    disk contents, held and pinned sectors) and the refinement of bio.c to it.
    The log and the file system are verified against this specification only. *)
From S2P Require Import Prelude Bio.

Record cache := Cache {
  cur : Z -> block;           (* contents a reader of the sector sees *)
  dur : Z -> block;           (* contents of the disk *)
  held : gmap nat Z;          (* buffers between bread and brelse, with their sector *)
  pins : gset Z;              (* sectors marked B_DIRTY by the log *)
  wrs : list (Z * block);     (* sector writes issued to the disk *)
  csize : Z                   (* sectors of the disk *)
}.

Definition held_secs (A : cache) : gset Z := map_img (held A).
Definition room (A : cache) : nat := Z.to_nat NBUF - size (held_secs A ∪ pins A).

Definition c_bread (i : nat) (s : Z) (A : cache) : cache :=
  Cache (cur A) (dur A) (<[i := s]> (held A)) (pins A) (wrs A) (csize A).
Definition c_brelse (i : nat) (A : cache) : cache :=
  Cache (cur A) (dur A) (delete i (held A)) (pins A) (wrs A) (csize A).
Definition c_set (s : Z) (d : block) (A : cache) : cache :=
  Cache (<[s := d]> (cur A)) (dur A) (held A) (pins A) (wrs A) (csize A).
Definition c_write (s : Z) (A : cache) : cache :=
  Cache (cur A) (<[s := cur A s]> (dur A)) (held A) (pins A ∖ {[s]}) (wrs A ++ [(s, cur A s)]) (csize A).
Definition c_pin (s : Z) (A : cache) : cache :=
  Cache (cur A) (dur A) (held A) (pins A ∪ {[s]}) (wrs A) (csize A).

(** The refinement relation. *)
Record R (σ : bio) (A : cache) : Prop := {
  R_ok : bio_ok σ;
  R_cur : forall s, view σ s = cur A s;
  R_dur : forall s, dsk σ s = dur A s;
  R_held : forall i s, held A !! i = Some s <->
    exists b, bufs σ !! i = Some b /\ busy b = true /\ has_key 1 s b = true;
  R_pins : forall s, s ∈ pins A <->
    exists i b, bufs σ !! i = Some b /\ dirty b = true /\ has_key 1 s b = true;
  R_wrs : writes σ = wrs A;
  R_size : disksize σ = csize A
}.

Lemma NoDup_fmap_filter {X Y} (f : X -> Y) (P : X -> Prop) `{forall x, Decision (P x)} (l : list X) :
  (forall i j x y, l !! i = Some x -> l !! j = Some y -> P x -> P y -> f x = f y -> i = j) ->
  NoDup (f <$> filter P l).
Proof.
  induction l as [|x l IH]; intros Hinj; [constructor|].
  assert (NoDup (f <$> filter P l)) as ND.
  { apply IH. intros i j y z Hi Hj Py Pz E.
    specialize (Hinj (S i) (S j) y z Hi Hj Py Pz E). lia. }
  rewrite filter_cons. destruct (decide (P x)) as [Px|]; [|done].
  simpl. constructor; [|done]. intros (y & E & Hy)%list_elem_of_fmap.
  apply list_elem_of_filter in Hy as [Py Hy]. apply list_elem_of_lookup in Hy as [j Hj].
  specialize (Hinj 0%nat (S j) x y eq_refl Hj Px Py E). lia.
Qed.

Section refinement.
Implicit Types (σ : bio) (A : cache) (i : nat) (s : Z).

Lemma busy_dev σ i b : bio_ok σ -> bufs σ !! i = Some b -> pinned b = true -> b_dev b = 1.
Proof.
  intros Hok Hi Hp. destruct (ok_bufs _ Hok _ _ Hi) as [_ F|]; [|done].
  unfold pinned, busy, dirty in Hp. rewrite F in Hp. done.
Qed.

Lemma elem_held_secs A s : s ∈ held_secs A <-> exists i, held A !! i = Some s.
Proof. apply elem_of_map_img. Qed.

Lemma R_used σ A : R σ A -> used σ = size (held_secs A ∪ pins A).
Proof.
  intros HR. pose proof (R_ok _ _ HR) as Hok. unfold used.
  set (l := filter (fun b => pinned b = true) (bufs σ)).
  assert (NoDup (b_sector <$> l)) as ND.
  { apply NoDup_fmap_filter. intros i j x y Hi Hj Px Py E.
    eapply (ok_keys _ Hok); eauto using busy_dev. }
  rewrite <- (length_fmap b_sector l), <- (size_list_to_set (C := gset Z)) by done.
  f_equal. apply set_eq. intros s. rewrite elem_of_list_to_set, list_elem_of_fmap.
  rewrite elem_of_union, elem_held_secs, (R_pins _ _ HR). split.
  - intros (b & -> & Hb). apply list_elem_of_filter in Hb as [Hp Hb].
    apply list_elem_of_lookup in Hb as [i Hi]. pose proof (busy_dev _ _ _ Hok Hi Hp) as Hd.
    assert (has_key 1 (b_sector b) b = true) by (by apply has_key_true).
    unfold pinned in Hp. apply orb_true_iff in Hp as [Hp|Hp].
    + left. exists i. apply (R_held _ _ HR). by exists b.
    + right. by exists i, b.
  - intros [(i & Hi)|(i & b & Hi & Hp & Hk)].
    + apply (R_held _ _ HR) in Hi as (b & Hi & Hp & Hk). exists b. apply has_key_true in Hk as [? ?].
      split; [done|]. apply list_elem_of_filter. unfold pinned. rewrite Hp.
      split; [done|]. apply list_elem_of_lookup; eauto.
    + exists b. apply has_key_true in Hk as [? ?].
      split; [done|]. apply list_elem_of_filter. unfold pinned. rewrite Hp, orb_true_r.
      split; [done|]. apply list_elem_of_lookup; eauto.
Qed.

Lemma R_block σ A s : R σ A -> block_ok (cur A s).
Proof.
  intros HR. rewrite <- (R_cur _ _ HR). pose proof (R_ok _ _ HR) as Hok.
  destruct (is_cached_dec σ s) as [(i & b & Hi & Hk)|N].
  - rewrite (view_cached _ _ _ _ Hok Hi Hk). apply has_key_true in Hk as [Hd _].
    destruct (ok_bufs _ Hok _ _ Hi) as [F _|]; [rewrite F in Hd; discriminate|done].
  - rewrite (view_uncached _ _ N). apply Hok.
Qed.

(** A sector that is neither held nor pinned is clean. *)
Lemma R_clean σ A s : R σ A -> s ∉ held_secs A -> s ∉ pins A -> cur A s = dur A s.
Proof.
  intros HR Hh Hp. rewrite <- (R_cur _ _ HR), <- (R_dur _ _ HR). pose proof (R_ok _ _ HR) as Hok.
  destruct (is_cached_dec σ s) as [(i & b & Hi & Hk)|N]; [|by apply view_uncached].
  rewrite (view_cached _ _ _ _ Hok Hi Hk). pose proof (proj1 (has_key_true _ _ _) Hk) as [Hd <-].
  destruct (ok_bufs _ Hok _ _ Hi) as [F _|? ? ? ? Hcl]; [rewrite F in Hd; discriminate|].
  apply Hcl.
  - destruct (busy b) eqn:E; [|done]. destruct Hh. apply elem_held_secs. exists i.
    apply (R_held _ _ HR). by exists b.
  - destruct (dirty b) eqn:E; [|done]. destruct Hp. apply (R_pins _ _ HR). by exists i, b.
Qed.

Lemma R_handle σ A i s : R σ A -> held A !! i = Some s ->
  exists b, bufs σ !! i = Some b /\ busy b = true /\ b_dev b = 1 /\ b_sector b = s /\
            b_data b = cur A s /\ (dirty b = true <-> s ∈ pins A) /\ 0 <= s < csize A.
Proof.
  intros HR Hi. apply (R_held _ _ HR) in Hi as (b & Hi & Hb & Hk). exists b.
  pose proof (proj1 (has_key_true _ _ _) Hk) as [Hd Hs].
  rewrite <- (R_cur _ _ HR), (view_cached _ _ _ _ (R_ok _ _ HR) Hi Hk), <- (R_size _ _ HR).
  destruct (ok_bufs _ (R_ok _ _ HR) _ _ Hi) as [F _|? Hr ? ? ?]; [rewrite F in Hd; discriminate|].
  rewrite Hs in Hr. split_and!; try done; try lia. rewrite (R_pins _ _ HR). split.
  - intros. by exists i, b.
  - intros (j & bj & Hj & ? & Hkj). apply has_key_true in Hkj as [? ?].
    assert (i = j) as <- by (eapply (ok_keys _ (R_ok _ _ HR)); eauto; congruence). congruence.
Qed.

Lemma held_inj σ A i j s : R σ A -> held A !! i = Some s -> held A !! j = Some s -> i = j.
Proof.
  intros HR (bi & ? & _ & [? ?]%has_key_true)%(R_held _ _ HR) (bj & ? & _ & [? ?]%has_key_true)%(R_held _ _ HR).
  eapply (ok_keys _ (R_ok _ _ HR)); eauto. congruence.
Qed.

(** How the observations react to the replacement of one buffer. *)
Lemma setb_inv σ i b0 b j bj : bufs σ !! i = Some b0 -> bufs (setb i b σ) !! j = Some bj ->
  (j = i /\ bj = b) \/ (j <> i /\ bufs σ !! j = Some bj).
Proof.
  intros Hi Hj. destruct (decide (j = i)) as [->|N].
  - rewrite (setb_lookup _ _ _ _ Hi) in Hj. simplify_eq. by left.
  - rewrite setb_lookup_ne in Hj by done. by right.
Qed.

Lemma setb_exists σ i b0 b (P : nat -> buf -> Prop) : bufs σ !! i = Some b0 -> (P i b <-> P i b0) ->
  ((exists j bj, bufs (setb i b σ) !! j = Some bj /\ P j bj) <->
   (exists j bj, bufs σ !! j = Some bj /\ P j bj)).
Proof.
  intros Hi HP. split.
  - intros (j & bj & [(-> & ->)|(N & Hj)]%(setb_inv _ _ _ _ _ _ Hi) & Hp).
    + exists i, b0. split; [done|by apply HP].
    + by exists j, bj.
  - intros (j & bj & Hj & Hp). destruct (decide (j = i)) as [->|N].
    + exists i, b. split; [by eapply setb_lookup|]. apply HP. by simplify_eq.
    + exists j, bj. by rewrite setb_lookup_ne.
Qed.

(** The held map after buffer [i] became [b]: only its own entry can change. *)
Lemma R_held_setb σ A i b0 b (o : option Z) : R σ A -> bufs σ !! i = Some b0 ->
  (forall s, o = Some s <-> busy b = true /\ has_key 1 s b = true) ->
  forall j s, partial_alter (fun _ => o) i (held A) !! j = Some s <->
    exists bj, bufs (setb i b σ) !! j = Some bj /\ busy bj = true /\ has_key 1 s bj = true.
Proof.
  intros HR Hi Ho j s. destruct (decide (j = i)) as [->|N].
  - rewrite lookup_partial_alter_eq, (setb_lookup _ _ _ _ Hi), Ho. split; [by exists b|].
    by intros (bj & [= <-] & ?).
  - rewrite lookup_partial_alter_ne, setb_lookup_ne by done. apply (R_held _ _ HR).
Qed.

Lemma R_handle_none σ A i b : R σ A -> bufs σ !! i = Some b -> busy b = false -> held A !! i = None.
Proof.
  intros HR Hi Hb. destruct (held A !! i) as [s|] eqn:E; [|done].
  apply (R_held _ _ HR) in E as (b' & ? & ? & _). congruence.
Qed.

Theorem ref_bread σ A s : R σ A -> 0 <= s < csize A -> s ∉ held_secs A ->
  s ∈ pins A \/ (0 < room A)%nat ->
  wp (bread 1 s) (fun i σ' => held A !! i = None /\ R σ' (c_bread i s A)) σ.
Proof.
  intros HR Hs Hh Hc. pose proof (R_ok _ _ HR) as Hok. eapply wp_mono.
  - apply bread_spec; [done|by rewrite (R_size _ _ HR)| |].
    + intros i b Hi Hk. destruct (busy b) eqn:E; [|done]. destruct Hh. apply elem_held_secs.
      exists i. apply (R_held _ _ HR). by exists b.
    + destruct Hc as [Hp|Hr].
      * apply (R_pins _ _ HR) in Hp as (i & b & ? & ? & ?). left. by exists i, b.
      * right. rewrite (R_used _ _ HR). unfold room in Hr. lia.
  - intros i σ' (b0 & b & [Hi Hf -> Hd Hse Hb Hv Hdi Hpin Hda _ Hok' Hvw]).
    assert (has_key 1 s b = true) as Hk by (by apply has_key_true).
    split; [by eapply R_handle_none|]. split; cbn [c_bread cur dur held pins wrs csize]; try done.
    + intros s'. rewrite Hvw. apply (R_cur _ _ HR).
    + apply (R_dur _ _ HR).
    + apply (R_held_setb σ A i b0 b (Some s) HR Hi). intros s'. rewrite has_key_true. naive_solver.
    + intros s'. rewrite (R_pins _ _ HR). symmetry.
      apply (setb_exists _ _ _ _ (fun _ b => dirty b = true /\ has_key 1 s' b = true) Hi).
      rewrite Hdi. split; intros [D K]; (split; [done|]); specialize (Hpin D);
        apply has_key_true in Hpin as [? ?], Hk as [? ?], K as [? ?]; apply has_key_true; split; congruence.
    + apply (R_wrs _ _ HR).
    + apply (R_size _ _ HR).
Qed.

Lemma ref_bdata σ A i s : R σ A -> held A !! i = Some s ->
  wp (bdata i) (fun d σ' => d = cur A s /\ σ' = σ) σ.
Proof.
  intros HR Hi. destruct (R_handle _ _ _ _ HR Hi) as (b & Hb & _ & _ & _ & Hd & _).
  unfold bdata. rewrite wp_bind. by eapply wp_getbuf.
Qed.

Theorem ref_brelse σ A i s : R σ A -> held A !! i = Some s -> s ∈ pins A \/ cur A s = dur A s ->
  wp (brelse i) (fun _ σ' => R σ' (c_brelse i A)) σ.
Proof.
  intros HR Hi Hc. pose proof (R_ok _ _ HR) as Hok.
  destruct (R_handle _ _ _ _ HR Hi) as (b & Hb & Hbb & Hd & Hse & Hda & Hdi & _).
  eapply wp_mono; [apply (brelse_spec σ i b Hok Hb Hbb Hd)|].
  { destruct Hc as [Hc|Hc]; [left; by apply Hdi|right]. rewrite Hda, Hse, (R_dur _ _ HR). done. }
  intros [] σ' (-> & Hok' & Hv & _). split; cbn [c_brelse cur dur held pins wrs csize]; try done.
  - intros s'. rewrite Hv. apply (R_cur _ _ HR).
  - apply (R_dur _ _ HR).
  - apply (R_held_setb σ A i b (set_flags (fun f => flag_clr f B_BUSY) b) None HR Hb).
    intros s'. flags. naive_solver.
  - intros s'. rewrite (R_pins _ _ HR). symmetry.
    apply (setb_exists σ i b _ (fun _ b => dirty b = true /\ has_key 1 s' b = true) Hb). by flags.
  - apply (R_wrs _ _ HR).
  - apply (R_size _ _ HR).
Qed.

Theorem ref_bset σ A i s d : R σ A -> held A !! i = Some s -> block_ok d ->
  wp (bset i d) (fun _ σ' => R σ' (c_set s d A)) σ.
Proof.
  intros HR Hi Hdd. pose proof (R_ok _ _ HR) as Hok.
  destruct (R_handle _ _ _ _ HR Hi) as (b & Hb & Hbb & Hd & Hse & Hda & Hdi & _).
  eapply wp_mono; [apply (bset_spec σ i b d Hok Hb Hbb Hd Hdd)|].
  intros [] σ' (-> & Hok' & Hv & _). split; cbn [c_set cur dur held pins wrs csize]; try done.
  - intros s'. rewrite Hv, Hse. case_decide; subst.
    + by rewrite fn_lookup_insert.
    + rewrite fn_lookup_insert_ne by done. apply (R_cur _ _ HR).
  - apply (R_dur _ _ HR).
  - intros j s'. rewrite (R_held _ _ HR). destruct (decide (j = i)) as [->|N].
    + rewrite (setb_lookup _ _ _ _ Hb), Hb. split; intros (bj & [= <-] & ?); eauto.
    + by rewrite setb_lookup_ne.
  - intros s'. rewrite (R_pins _ _ HR). symmetry.
    by apply (setb_exists σ i b _ (fun _ b => dirty b = true /\ has_key 1 s' b = true) Hb).
  - apply (R_wrs _ _ HR).
  - apply (R_size _ _ HR).
Qed.

Theorem ref_bwrite σ A i s : R σ A -> held A !! i = Some s ->
  wp (bwrite i) (fun _ σ' => R σ' (c_write s A)) σ.
Proof.
  intros HR Hi. pose proof (R_ok _ _ HR) as Hok.
  destruct (R_handle _ _ _ _ HR Hi) as (b & Hb & Hbb & Hd & Hse & Hda & Hdi & _).
  destruct (written_flags b Hbb) as (Wb & Wd & _).
  eapply wp_mono; [apply (bwrite_spec σ i b Hok Hb Hbb Hd)|].
  intros [] σ' (-> & Hok' & Hv & _). split; cbn [c_write cur dur held pins wrs csize]; try done.
  - intros s'. rewrite Hv. apply (R_cur _ _ HR).
  - intros s'. rewrite after_write_dsk, Hse. case_decide; subst.
    + by rewrite fn_lookup_insert.
    + rewrite fn_lookup_insert_ne by done. apply (R_dur _ _ HR).
  - intros j s'. change (bufs _) with (bufs (setb i (written b) σ)).
    rewrite (R_held _ _ HR). destruct (decide (j = i)) as [->|N].
    + rewrite (setb_lookup _ _ _ _ Hb), Hb.
      split; intros (bj & [= <-] & ? & ?); eexists; (split; [done|]); done.
    + by rewrite setb_lookup_ne.
  - intros s'. rewrite elem_of_difference, elem_of_singleton, (R_pins _ _ HR). split.
    + intros [(j & bj & Hj & D & K) N]. exists j, bj. apply has_key_true in K as [? ?].
      assert (j <> i) by congruence. split; [|split; [done|by apply has_key_true]].
      change (bufs _) with (bufs (setb i (written b) σ)). by rewrite setb_lookup_ne.
    + intros (j & bj & [(-> & ->)|(N & Hj)]%(after_write_lookup _ _ _ _ _ _ Hb) & D & K); [congruence|].
      split; [by exists j, bj|]. intros ->. apply N. apply has_key_true in K as [? ?].
      eapply (ok_keys _ Hok); eauto. congruence.
  - unfold after_write, disk_write. cbn [writes set_bufs]. by rewrite (R_wrs _ _ HR), Hse, Hda.
  - apply (R_size _ _ HR).
Qed.

(** [b->flags |= B_DIRTY] on a held buffer. *)
Lemma ref_pin σ A i s : R σ A -> held A !! i = Some s ->
  wp (updbuf i (set_flags (fun f => flag_set f B_DIRTY))) (fun _ σ' => R σ' (c_pin s A)) σ.
Proof.
  intros HR Hi. pose proof (R_ok _ _ HR) as Hok.
  destruct (R_handle _ _ _ _ HR Hi) as (b & Hb & Hbb & Hd & Hse & Hda & Hdi & _).
  set (b' := set_flags (fun f => flag_set f B_DIRTY) b).
  assert (busy b' = true /\ dirty b' = true) as [Bb Bd] by (subst b'; by flags).
  assert (bio_ok (setb i b' σ)) as Hok'.
  { eapply bio_ok_set; [done|done| |].
    - destruct (ok_bufs _ Hok _ _ Hb) as [F _|? ? ? ? ?]; [rewrite F in Hd; discriminate|].
      apply buf_cached; subst b'; flags; done.
    - cbn. intros _ j bj N Hj Dj E. apply N. eapply (ok_keys _ Hok); eauto. }
  eapply wp_updbuf; [done|]. fold b'. split; cbn [c_pin cur dur held pins wrs csize]; try done.
  - intros s'. rewrite (view_setb _ _ _ _ _ Hok Hb Hok'), <- (R_cur _ _ HR).
    change (has_key 1 s' b') with (has_key 1 s' b). destruct (has_key 1 s' b) eqn:E; [|done].
    by rewrite (view_cached _ _ _ _ Hok Hb E).
  - apply (R_dur _ _ HR).
  - intros j s'. rewrite (R_held _ _ HR). destruct (decide (j = i)) as [->|N].
    + rewrite (setb_lookup _ _ _ _ Hb), Hb.
      split; intros (bj & [= <-] & ? & ?); eexists; (split; [done|]); done.
    + by rewrite setb_lookup_ne.
  - intros s'. rewrite elem_of_union, elem_of_singleton, (R_pins _ _ HR). split.
    + intros [(j & bj & Hj & D & K)| ->].
      * destruct (decide (j = i)) as [->|N].
        -- exists i, b'. split; [by eapply setb_lookup|]. split; [done|]. by simplify_eq.
        -- exists j, bj. by rewrite setb_lookup_ne.
      * exists i, b'. split; [by eapply setb_lookup|]. split; [done|]. by apply has_key_true.
    + intros (j & bj & [(-> & ->)|(N & Hj)]%(setb_inv _ _ _ _ _ _ Hb) & D & K).
      * right. apply has_key_true in K as [_ <-]. done.
      * left. by exists j, bj.
  - apply (R_wrs _ _ HR).
  - apply (R_size _ _ HR).
Qed.
End refinement.

(** ** Buffer accounting *)

Section room.
Implicit Types A : cache.

Definition busy_set A : gset Z := held_secs A ∪ pins A.

Lemma room_grow A A' (X : gset Z) : busy_set A' ⊆ busy_set A ∪ X -> (room A <= room A' + size X)%nat.
Proof.
  intros H. apply subseteq_size in H. unfold room, busy_set in *.
  pose proof (size_union_alt (held_secs A ∪ pins A) X) as E.
  assert (size (X ∖ (held_secs A ∪ pins A)) <= size X)%nat by (apply subseteq_size; set_solver).
  lia.
Qed.

Lemma room_shrink A A' : busy_set A' ⊆ busy_set A -> (room A <= room A')%nat.
Proof. intros H. apply subseteq_size in H. unfold room, busy_set in *. lia. Qed.

Lemma held_secs_bread i s A : held A !! i = None -> held_secs (c_bread i s A) = held_secs A ∪ {[s]}.
Proof.
  intros Hi. apply set_eq. intros x. rewrite elem_of_union, elem_of_singleton, !elem_held_secs.
  cbn [c_bread held]. split.
  - intros [j Hj]. destruct (decide (j = i)) as [->|N].
    + rewrite lookup_insert_eq in Hj. right. congruence.
    + rewrite lookup_insert_ne in Hj by done. left. eauto.
  - intros [[j Hj]| ->].
    + exists j. rewrite lookup_insert_ne by congruence. done.
    + exists i. apply lookup_insert_eq.
Qed.

Lemma room_bread i s A : held A !! i = None -> (room A <= room (c_bread i s A) + 1)%nat.
Proof.
  intros Hi. rewrite <- (size_singleton (C := gset Z) s). apply room_grow.
  unfold busy_set. rewrite held_secs_bread by done. cbn [c_bread pins]. set_solver.
Qed.
End room.
