(* ===== verification/Log.v ===== *)
(** The write-ahead log of log.c on the buffer cache, with its crash behaviour. *)
From S2P Require Import Prelude Bio Cache.

Definition LOGSIZE : Z := 20.
Definition ROOTDEV : Z := 1.

(** struct superblock *)
Record superblock := Superblock { sb_size : Z; sb_nblocks : Z; sb_ninodes : Z; sb_nlog : Z }.

(** struct log with its struct logheader, on top of the block layer. *)
Record lst := Lst {
  l_bio : bio;
  l_start : Z;
  l_size : Z;
  l_busy : bool;
  l_dev : Z;
  lh_n : Z;
  lh_sector : list Z
}.

Definition set_bio (β : bio) (κ : lst) : lst :=
  Lst β (l_start κ) (l_size κ) (l_busy κ) (l_dev κ) (lh_n κ) (lh_sector κ).
Definition set_n (n : Z) (κ : lst) : lst :=
  Lst (l_bio κ) (l_start κ) (l_size κ) (l_busy κ) (l_dev κ) n (lh_sector κ).
Definition set_sectors (l : list Z) (κ : lst) : lst :=
  Lst (l_bio κ) (l_start κ) (l_size κ) (l_busy κ) (l_dev κ) (lh_n κ) l.
Definition set_busy (b : bool) (κ : lst) : lst :=
  Lst (l_bio κ) (l_start κ) (l_size κ) b (l_dev κ) (lh_n κ) (lh_sector κ).

Definition blk {A} (m : K bio A) : K lst A := zoom l_bio set_bio m.

(** Element [i] of the array [sector[LOGSIZE]] of struct logheader. *)
Definition sector_at (i : Z) : K lst Z :=
  let! κ := get in lift_opt "log.lh.sector index" (lh_sector κ !! Z.to_nat i).
Definition sector_set (i v : Z) : K lst unit :=
  let! κ := get in
  if (Z.to_nat i <? length (lh_sector κ))%nat then put (set_sectors (<[Z.to_nat i := v]> (lh_sector κ)) κ)
  else undef "log.lh.sector index".

(** readsb (fs.c) *)
Definition readsb (dev : Z) : K bio superblock :=
  let! bp := bread dev 1 in
  let! d := bdata bp in
  brelse bp;;;
  ret (Superblock (get32 d 0) (get32 d 4) (get32 d 8) (get32 d 12)).

(** Copy committed blocks from log to their home location *)
Definition install_trans : K lst unit :=
  let! κ := get in
  forK (fun tail =>
    let! lbuf := blk (bread (l_dev κ) (l_start κ + tail + 1)) in
    let! s := sector_at tail in
    let! dbuf := blk (bread (l_dev κ) s) in
    let! d := blk (bdata lbuf) in
    blk (bset dbuf d);;;
    blk (bwrite dbuf);;;
    blk (brelse lbuf);;;
    blk (brelse dbuf)) (zrange 0 (lh_n κ)).

(** Read the log header from disk into the in-memory log header *)
Definition read_head : K lst unit :=
  let! κ := get in
  let! buf := blk (bread (l_dev κ) (l_start κ)) in
  let! d := blk (bdata buf) in
  modify (set_n (s32 (get32 d 0)));;;
  forK (fun i => sector_set i (get32 d (4 + 4 * i))) (zrange 0 (s32 (get32 d 0)));;;
  blk (brelse buf).

(** The loop of write_head over the header block [d]. *)
Definition put_sectors (n : Z) : block -> K lst block :=
  foldK (fun i d => let! s := sector_at i in ret (put32 d (4 + 4 * i) s)) (zrange 0 n).

(** Write in-memory log header to disk. *)
Definition write_head : K lst unit :=
  let! κ := get in
  let! buf := blk (bread (l_dev κ) (l_start κ)) in
  let! d := blk (bdata buf) in
  let! d' := put_sectors (lh_n κ) (put32 d 0 (lh_n κ)) in
  blk (bset buf d');;;
  blk (bwrite buf);;;
  blk (brelse buf).

Definition recover_from_log : K lst unit :=
  read_head;;;
  install_trans;;;
  modify (set_n 0);;;
  write_head.

(** [sizeof(struct logheader)] is 4 + 4*LOGSIZE. *)
Definition initlog : K lst unit :=
  if BSIZE <=? 4 + 4 * LOGSIZE then panic "initlog: too big logheader"
  else let! sb := blk (readsb ROOTDEV) in
  modify (fun κ => Lst (l_bio κ) (s32 (sb_size sb - sb_nlog sb)) (s32 (sb_nlog sb)) (l_busy κ) ROOTDEV
                       (lh_n κ) (lh_sector κ));;;
  recover_from_log.

Definition begin_trans : K lst unit :=
  let! κ := get in
  if l_busy κ then sleeps else modify (set_busy true).

Definition is_log_busy : K lst bool := gets l_busy.

Definition commit_trans : K lst unit :=
  let! κ := get in
  (if 0 <? lh_n κ then
     write_head;;;
     install_trans;;;
     modify (set_n 0);;;
     write_head
   else ret tt);;;
  modify (set_busy false).

(** Index of sector [s] among the first [n] logged sectors, else [n]. *)
Fixpoint find_slot (s : Z) (l : list Z) (n : nat) : nat :=
  match n, l with
  | O, _ => O
  | S n', x :: l' => if x =? s then O else S (find_slot s l' n')
  | S _, [] => O
  end.

Definition log_write (b : nat) : K lst unit :=
  let! κ := get in
  if (LOGSIZE <=? lh_n κ) || (l_size κ - 1 <=? lh_n κ) then panic "too big a transaction"
  else if negb (l_busy κ) then panic "write outside of trans"
  else
  let! bf := blk (getbuf b) in
  let i := Z.of_nat (find_slot (b_sector bf) (lh_sector κ) (Z.to_nat (lh_n κ))) in
  sector_set i (b_sector bf);;;
  let! lbuf := blk (bread (b_dev bf) (l_start κ + i + 1)) in
  blk (bset lbuf (b_data bf));;;
  blk (bwrite lbuf);;;
  blk (brelse lbuf);;;
  (if i =? lh_n κ then modify (fun κ => set_n (lh_n κ + 1) κ) else ret tt);;;
  blk (updbuf b (set_flags (fun f => flag_set f B_DIRTY))).

(** A machine that has just been switched on with disk [d]: empty caches and the
    zeroed [struct log]. *)
Definition boot (d : gmap Z block) (size : Z) : lst :=
  Lst (binit d size) 0 0 false 0 0 (replicate (Z.to_nat LOGSIZE) 0).
