(* ===== verification/LogSpec.v ===== *)
(** Verification of log.c: the effect of each routine on the abstract cache, the
    logical disk the file system works on, and atomicity under crashes. *)
From S2P Require Import Prelude Bio Cache Log.

(** ** Cache steps in continuation form *)

Section steps.
Implicit Types (κ : lst) (A : cache).

Lemma blk_wp {X} (m : K bio X) (Q : X -> lst -> Prop) κ :
  wp m (fun x β => Q x (set_bio β κ)) (l_bio κ) -> wp (blk m) Q κ.
Proof. intros H. unfold blk. by rewrite wp_zoom. Qed.

Lemma blk_bread κ A s (Q : nat -> lst -> Prop) :
  R (l_bio κ) A -> 0 <= s < csize A -> s ∉ held_secs A -> s ∈ pins A \/ (0 < room A)%nat ->
  (forall i β, held A !! i = None -> R β (c_bread i s A) -> Q i (set_bio β κ)) ->
  wp (blk (bread 1 s)) Q κ.
Proof.
  intros HR ? ? ? HQ. apply blk_wp. eapply wp_mono; [by eapply ref_bread|].
  intros i β [? ?]. by apply HQ.
Qed.

Lemma blk_bdata κ A i s (Q : block -> lst -> Prop) :
  R (l_bio κ) A -> held A !! i = Some s -> Q (cur A s) κ -> wp (blk (bdata i)) Q κ.
Proof.
  intros HR ? HQ. apply blk_wp. eapply wp_mono; [by eapply ref_bdata|].
  intros d β [-> ->]. by destruct κ.
Qed.

Lemma blk_bset κ A i s d (Q : unit -> lst -> Prop) :
  R (l_bio κ) A -> held A !! i = Some s -> block_ok d ->
  (forall β, R β (c_set s d A) -> Q tt (set_bio β κ)) -> wp (blk (bset i d)) Q κ.
Proof.
  intros HR ? ? HQ. apply blk_wp. eapply wp_mono; [by eapply ref_bset|]. intros [] β. apply HQ.
Qed.

Lemma blk_bwrite κ A i s (Q : unit -> lst -> Prop) :
  R (l_bio κ) A -> held A !! i = Some s ->
  (forall β, R β (c_write s A) -> Q tt (set_bio β κ)) -> wp (blk (bwrite i)) Q κ.
Proof.
  intros HR ? HQ. apply blk_wp. eapply wp_mono; [by eapply ref_bwrite|]. intros [] β. apply HQ.
Qed.

Lemma blk_brelse κ A i s (Q : unit -> lst -> Prop) :
  R (l_bio κ) A -> held A !! i = Some s -> s ∈ pins A \/ cur A s = dur A s ->
  (forall β, R β (c_brelse i A) -> Q tt (set_bio β κ)) -> wp (blk (brelse i)) Q κ.
Proof.
  intros HR ? ? HQ. apply blk_wp. eapply wp_mono; [by eapply ref_brelse|]. intros [] β. apply HQ.
Qed.

Lemma blk_pin κ A i s (Q : unit -> lst -> Prop) :
  R (l_bio κ) A -> held A !! i = Some s ->
  (forall β, R β (c_pin s A) -> Q tt (set_bio β κ)) ->
  wp (blk (updbuf i (set_flags (fun f => flag_set f B_DIRTY)))) Q κ.
Proof.
  intros HR ? HQ. apply blk_wp. eapply wp_mono; [by eapply ref_pin|]. intros [] β. apply HQ.
Qed.

Lemma wp_sector_at κ i s (Q : Z -> lst -> Prop) :
  lh_sector κ !! Z.to_nat i = Some s -> Q s κ -> wp (sector_at i) Q κ.
Proof. intros Hs HQ. unfold sector_at. rewrite wp_bind. apply wp_get. by rewrite Hs. Qed.

Lemma wp_sector_set κ i v (Q : unit -> lst -> Prop) :
  (Z.to_nat i < length (lh_sector κ))%nat ->
  Q tt (set_sectors (<[Z.to_nat i := v]> (lh_sector κ)) κ) -> wp (sector_set i v) Q κ.
Proof.
  intros Hi HQ. unfold sector_set. rewrite wp_bind. apply wp_get.
  destruct (Nat.ltb_spec (Z.to_nat i) (length (lh_sector κ))); [done|lia].
Qed.
End steps.

(** ** Writing a sector through the cache: [bread], change, [bwrite], [brelse] *)

Definition c_put (s : Z) (d : block) (A : cache) : cache :=
  Cache (<[s := d]> (cur A)) (<[s := d]> (dur A)) (held A) (pins A ∖ {[s]}) (wrs A ++ [(s, d)]) (csize A).

Definition c_puts (l : list (Z * block)) (A : cache) : cache := foldl (fun A p => c_put p.1 p.2 A) A l.

Definition apply_writes (l : list (Z * block)) (f : Z -> block) : Z -> block :=
  foldl (fun f p => <[p.1 := p.2]> f) f l.

Section puts.
Implicit Types (A : cache) (l : list (Z * block)).

Lemma c_puts_spec l A : c_puts l A =
  Cache (apply_writes l (cur A)) (apply_writes l (dur A)) (held A) (pins A ∖ list_to_set l.*1)
        (wrs A ++ l) (csize A).
Proof.
  revert A; induction l as [|[s d] l IH]; intros A.
  - destruct A; simpl. rewrite app_nil_r. f_equal. set_solver.
  - transitivity (c_puts l (c_put s d A)); [done|]. rewrite IH. unfold c_put. simpl.
    rewrite <- app_assoc. f_equal. set_solver.
Qed.

Lemma apply_writes_ne l f s : s ∉ l.*1 -> apply_writes l f s = f s.
Proof.
  revert f; induction l as [|[s' d] l IH]; intros f Hs; [done|].
  cbn [fmap list_fmap fst] in Hs. apply not_elem_of_cons in Hs as [? ?].
  change (apply_writes _ f s) with (apply_writes l (<[s' := d]> f) s).
  rewrite IH by done. by rewrite fn_lookup_insert_ne.
Qed.

Lemma apply_writes_eq l f s d : NoDup l.*1 -> (s, d) ∈ l -> apply_writes l f s = d.
Proof.
  revert f; induction l as [|[s' d'] l IH]; intros f ND Hs; [by apply elem_of_nil in Hs|].
  cbn [fmap list_fmap fst] in ND. apply NoDup_cons in ND as [N ND].
  change (apply_writes _ f s) with (apply_writes l (<[s' := d']> f) s).
  apply elem_of_cons in Hs as [[= -> ->]|Hs]; [|by apply IH].
  rewrite apply_writes_ne by done. by rewrite fn_lookup_insert.
Qed.

Lemma apply_writes_app l1 l2 f : apply_writes (l1 ++ l2) f = apply_writes l2 (apply_writes l1 f).
Proof. apply foldl_app. Qed.

Lemma apply_writes_at l f g s : f s = g s -> apply_writes l f s = apply_writes l g s.
Proof.
  revert f g; induction l as [|[a b] l IH]; intros f g Hfg; [done|].
  apply (IH (<[a := b]> f) (<[a := b]> g)).
  destruct (decide (s = a)) as [->|]; [by rewrite !fn_lookup_insert|by rewrite !fn_lookup_insert_ne].
Qed.

Lemma apply_writes_ext l f g : (forall s, f s = g s) -> forall s, apply_writes l f s = apply_writes l g s.
Proof. intros H s. by apply apply_writes_at. Qed.
End puts.

Section install.
Implicit Types (κ : lst) (A : cache).

Lemma put_canon i s d A : held A !! i = None ->
  c_brelse i (c_write s (c_set s d (c_bread i s A))) = c_put s d A.
Proof.
  intros Hi. unfold c_brelse, c_write, c_set, c_bread, c_put; simpl.
  by rewrite fn_lookup_insert, delete_insert_id.
Qed.

Lemma install_canon lb db l s d A : held A !! lb = None -> held (c_bread lb l A) !! db = None ->
  c_brelse db (c_brelse lb (c_write s (c_set s d (c_bread db s (c_bread lb l A))))) = c_put s d A.
Proof.
  intros Hl Hd. cbn [c_bread held] in Hd. unfold c_brelse, c_write, c_set, c_bread, c_put; simpl.
  rewrite fn_lookup_insert. f_equal.
  assert (lb <> db) by (intros ->; by rewrite lookup_insert_eq in Hd).
  rewrite lookup_insert_ne in Hd by done.
  rewrite (delete_insert_ne _ lb db) by done. rewrite (delete_insert_id _ lb) by done.
  by apply delete_insert_id.
Qed.

(** One round of the loop of [install_trans]. *)
Lemma install_one κ A tail s (Q : unit -> lst -> Prop) :
  let l := l_start κ + tail + 1 in
  R (l_bio κ) A -> l_dev κ = 1 -> lh_sector κ !! Z.to_nat tail = Some s ->
  0 <= l < csize A -> 0 <= s < csize A -> l <> s -> l ∉ busy_set A -> s ∉ held_secs A ->
  (0 < room A)%nat -> s ∈ pins A \/ (1 < room A)%nat ->
  (forall β, R β (c_put s (cur A l) A) -> Q tt (set_bio β κ)) ->
  wp (let! lbuf := blk (bread (l_dev κ) l) in
      let! s := sector_at tail in
      let! dbuf := blk (bread (l_dev κ) s) in
      let! d := blk (bdata lbuf) in
      blk (bset dbuf d);;; blk (bwrite dbuf);;; blk (brelse lbuf);;; blk (brelse dbuf)) Q κ.
Proof.
  intros l HR Hdev Hsec Hl Hs Nls Hlb Hsh Hr1 Hr2 HQ. rewrite Hdev. unfold busy_set in Hlb.
  rewrite wp_bind. eapply blk_bread; [done..|set_solver|by right|]. intros lb β1 Hlb0 HR1.
  rewrite wp_bind. apply wp_sector_at with (s := s); [done|]. rewrite wp_bind.
  pose proof (room_bread lb l A Hlb0) as Hroom.
  pose proof (held_secs_bread lb l A Hlb0) as Hhs.
  eapply (blk_bread (set_bio β1 κ) (c_bread lb l A)); [done|done| |destruct Hr2; [by left|right; lia]|].
  { rewrite Hhs. set_solver. }
  intros db β2 Hdb0 HR2. rewrite wp_bind.
  assert (lb <> db) as Nld by (intros ->; cbn [c_bread held] in Hdb0; by rewrite lookup_insert_eq in Hdb0).
  eapply (blk_bdata (set_bio β2 κ)); [done|cbn [c_bread held]; rewrite lookup_insert_ne by done; apply lookup_insert_eq|].
  rewrite wp_bind. eapply (blk_bset (set_bio β2 κ)); [done|apply lookup_insert_eq|by eapply R_block|].
  intros β3 HR3. rewrite wp_bind. eapply (blk_bwrite (set_bio β3 κ)); [done|apply lookup_insert_eq|].
  intros β4 HR4. rewrite wp_bind. eapply (blk_brelse (set_bio β4 κ)); [done| | |].
  { cbn [c_write c_set c_bread held]. rewrite lookup_insert_ne by done. apply lookup_insert_eq. }
  { right. cbn [c_write c_set c_bread cur dur]. rewrite !fn_lookup_insert_ne by done.
    apply (R_clean (l_bio κ)); [done|set_solver..]. }
  intros β5 HR5. eapply (blk_brelse (set_bio β5 κ)); [done| | |].
  { cbn [c_brelse c_write c_set c_bread held]. rewrite lookup_delete_ne by done. apply lookup_insert_eq. }
  { right. cbn [c_brelse c_write c_set c_bread cur dur]. by rewrite !fn_lookup_insert. }
  intros β6 HR6. rewrite install_canon in HR6 by done. by apply HQ.
Qed.

(** What the log holds: the home sector and the contents of each logged block. *)
Definition logged κ A : list (Z * block) :=
  imap (fun j s => (s, cur A (l_start κ + Z.of_nat j + 1))) (take (Z.to_nat (lh_n κ)) (lh_sector κ)).

(** The log region of the disk. *)
Definition in_log κ (s : Z) : Prop := l_start κ <= s < l_start κ + l_size κ.

Record install_pre κ A : Prop := {
  ip_R : R (l_bio κ) A;
  ip_dev : l_dev κ = 1;
  ip_held : held A = ∅;
  ip_n : 0 <= lh_n κ < l_size κ;
  ip_cap : (Z.to_nat (lh_n κ) <= length (lh_sector κ))%nat;
  ip_start : 0 <= l_start κ /\ l_start κ + l_size κ <= csize A;
  ip_home : forall s, s ∈ take (Z.to_nat (lh_n κ)) (lh_sector κ) -> 0 <= s < csize A /\ ~ in_log κ s;
  ip_nodup : NoDup (take (Z.to_nat (lh_n κ)) (lh_sector κ));
  ip_logpin : forall s, s ∈ pins A -> ~ in_log κ s;
  ip_room : (0 < room A)%nat;
  ip_pinned : (forall s, s ∈ take (Z.to_nat (lh_n κ)) (lh_sector κ) -> s ∈ pins A) \/ (1 < room A)%nat
}.

Lemma logged_fst κ A : (logged κ A).*1 = take (Z.to_nat (lh_n κ)) (lh_sector κ).
Proof.
  unfold logged. apply list_eq. intros i. rewrite list_lookup_fmap, list_lookup_imap.
  by destruct (take _ _ !! i).
Qed.

Lemma held_secs_empty A : held A = ∅ -> held_secs A = ∅.
Proof. unfold held_secs. intros ->. apply map_img_empty_L. Qed.

Lemma lookup_zrange a b i : zrange a b !! i = if decide (a + Z.of_nat i < b) then Some (a + Z.of_nat i) else None.
Proof.
  unfold zrange. case_decide.
  - rewrite lookup_seqZ. split; lia.
  - apply lookup_seqZ_ge. lia.
Qed.

Lemma length_zrange a b : length (zrange a b) = Z.to_nat (b - a).
Proof. apply length_seqZ. Qed.

(** One block: entry [j] of the log, after the entries before it. *)
Lemma install_step κ A j s β (l := l_start κ + Z.of_nat j + 1) : install_pre κ A -> take (Z.to_nat (lh_n κ)) (lh_sector κ) !! j = Some s ->
  R β (c_puts (take j (logged κ A)) A) ->
  wp (let! lbuf := blk (bread (l_dev κ) l) in
      let! s := sector_at (Z.of_nat j) in
      let! dbuf := blk (bread (l_dev κ) s) in
      let! d := blk (bdata lbuf) in
      blk (bset dbuf d);;; blk (bwrite dbuf);;; blk (brelse lbuf);;; blk (brelse dbuf))
    (fun _ κ' => exists β, κ' = set_bio β κ /\ R β (c_puts (take (S j) (logged κ A)) A)) (set_bio β κ).
Proof.
  intros Hp Hs HR. set (ss := take (Z.to_nat (lh_n κ)) (lh_sector κ)) in *. pose proof (ip_n _ _ Hp) as Hn.
  assert (Z.of_nat j < lh_n κ) as Hj by (apply lookup_lt_Some in Hs; unfold ss in Hs; rewrite length_take in Hs; lia).
  assert (logged κ A !! j = Some (s, cur A l)) as HLj by (unfold logged; rewrite list_lookup_imap; fold ss; by rewrite Hs).
  assert (s ∈ ss) as Hin by (by eapply list_elem_of_lookup_2).
  pose proof (ip_home _ _ Hp s Hin) as [Hsr Hsl].
  assert (in_log κ l) as Hl by (unfold in_log, l; lia).
  assert (l ∉ ss) as Hlss by (intros E; by apply (ip_home _ _ Hp) in E as [_ ?]).
  pose proof (c_puts_spec (take j (logged κ A)) A) as EA. rewrite fmap_take, logged_fst in EA. fold ss in EA.
  set (Aj := c_puts (take j (logged κ A)) A) in *.
  assert (s ∉ take j ss) as Hsj.
  { intros (k & Hk & Hkj)%elem_of_take. assert (k = j) by (eapply NoDup_lookup; eauto; apply (ip_nodup _ _ Hp)). lia. }
  assert (held_secs Aj = ∅) as Hh by (apply held_secs_empty; rewrite EA; apply (ip_held _ _ Hp)).
  assert (room A <= room Aj)%nat as Hroom.
  { apply room_shrink. unfold busy_set. rewrite Hh, EA. cbn [pins]. set_solver. }
  pose proof (ip_room _ _ Hp). pose proof (ip_start _ _ Hp) as [? ?].
  apply (install_one (set_bio β κ) Aj (Z.of_nat j) s); cbn [set_bio l_bio l_start l_dev lh_sector]; fold l.
  - done.
  - apply (ip_dev _ _ Hp).
  - rewrite Nat2Z.id. unfold ss in Hs. rewrite lookup_take_lt in Hs by lia. done.
  - rewrite EA. cbn [csize]. unfold in_log in Hl. lia.
  - by rewrite EA.
  - intros E. congruence.
  - unfold busy_set. rewrite Hh, EA. cbn [pins]. intros E. apply (ip_logpin _ _ Hp l); [set_solver|done].
  - rewrite Hh. set_solver.
  - lia.
  - destruct (ip_pinned _ _ Hp) as [Hpin|]; [left|right; lia]. rewrite EA. cbn [pins]. specialize (Hpin s Hin). set_solver.
  - intros β' HR'. exists β'. split; [done|]. rewrite (take_S_r _ _ _ HLj). unfold c_puts. rewrite foldl_app. simpl.
    fold (c_puts (take j (logged κ A)) A). fold Aj. assert (cur Aj l = cur A l) as <-; [|done]. rewrite EA. cbn [cur].
    apply apply_writes_ne. rewrite fmap_take, logged_fst. fold ss. intros E. apply Hlss. by eapply (subseteq_take j).
Qed.

Lemma install_spec κ A (Q : unit -> lst -> Prop) : install_pre κ A ->
  (forall β, R β (c_puts (logged κ A) A) -> Q tt (set_bio β κ)) -> wp install_trans Q κ.
Proof.
  intros Hp HQ. unfold install_trans. rewrite wp_bind. apply wp_get. unfold forK.
  set (ss := take (Z.to_nat (lh_n κ)) (lh_sector κ)). pose proof (ip_n _ _ Hp) as Hn.
  assert (length ss = Z.to_nat (lh_n κ)) as Hlen by (unfold ss; rewrite length_take; pose proof (ip_cap _ _ Hp); lia).
  assert (length (logged κ A) = Z.to_nat (lh_n κ)) as HlenL.
  { rewrite <- Hlen. unfold ss. rewrite <- (logged_fst κ A). symmetry. apply length_fmap. }
  eapply wp_mono; [apply (wp_foldK _ _ (fun j _ κ' => exists β, κ' = set_bio β κ /\ R β (c_puts (take j (logged κ A)) A)))|].
  - exists (l_bio κ). split; [by destruct κ|]. apply (ip_R _ _ Hp).
  - intros j x [] κ' Hx (β & -> & HR). rewrite lookup_zrange in Hx.
    case_decide as Hj; [|done]. injection Hx as <-. rewrite Z.add_0_l in *.
    destruct (lookup_lt_is_Some_2 ss j ltac:(lia)) as [s Hs]. by apply (install_step κ A j s β).
  - intros [] κ' (β & -> & HR). apply HQ. rewrite length_zrange, Z.sub_0_r in HR.
    by rewrite take_ge in HR by lia.
Qed.
End install.

(** ** The header block *)

Fixpoint enc_from (i : Z) (ss : list Z) (d : block) : block :=
  match ss with
  | [] => d
  | s :: ss' => enc_from (i + 1) ss' (put32 d (4 + 4 * i) s)
  end.

Definition enc_head (ss : list Z) (d : block) : block := enc_from 0 ss (put32 d 0 (Z.of_nat (length ss))).

Section header.
Implicit Types (κ : lst) (A : cache) (d : block) (ss : list Z).

Lemma enc_from_snoc i ss s d :
  enc_from i (ss ++ [s]) d = put32 (enc_from i ss d) (4 + 4 * (i + Z.of_nat (length ss))) s.
Proof.
  revert i d; induction ss as [|x ss IH]; intros i d; cbn [enc_from app length].
  - f_equal. lia.
  - rewrite IH. f_equal. lia.
Qed.

Lemma put32_ok d o v : block_ok d -> 0 <= o -> o + 4 <= BSIZE -> block_ok (put32 d o v).
Proof.
  intros [Hl Hb] ? ?. unfold BSIZE in *. split; [|by apply put32_bytes].
  rewrite length_put32; [done|lia|rewrite Hl; unfold BSIZE; lia].
Qed.

Lemma enc_from_ok i ss d : block_ok d -> 0 <= i -> 4 + 4 * (i + Z.of_nat (length ss)) <= BSIZE ->
  block_ok (enc_from i ss d).
Proof.
  revert i d; induction ss as [|x ss IH]; intros i d Hd Hi Hl; cbn [enc_from length] in *; [done|].
  apply IH; [|lia..]. apply put32_ok; [done|lia..].
Qed.

Lemma enc_from_below i ss d o : block_ok d -> 0 <= i -> 4 + 4 * (i + Z.of_nat (length ss)) <= BSIZE ->
  0 <= o -> o + 4 <= 4 + 4 * i -> get32 (enc_from i ss d) o = get32 d o.
Proof.
  revert i d; induction ss as [|x ss IH]; intros i d Hd Hi Hl Ho Hoi; cbn [enc_from length] in *; [done|].
  assert (block_ok (put32 d (4 + 4 * i) x)) by (apply put32_ok; [done|lia..]).
  rewrite IH by (done || lia). destruct Hd as [Hd _]. unfold BSIZE in *.
  apply get32_put32_ne; rewrite ?Hd; unfold BSIZE; lia.
Qed.

Lemma enc_from_at i ss d j s : block_ok d -> 0 <= i -> 4 + 4 * (i + Z.of_nat (length ss)) <= BSIZE ->
  ss !! j = Some s -> get32 (enc_from i ss d) (4 + 4 * (i + Z.of_nat j)) = u32 s.
Proof.
  revert i d j; induction ss as [|x ss IH]; intros i d j Hd Hi Hl Hj; [done|].
  cbn [enc_from length] in *.
  assert (block_ok (put32 d (4 + 4 * i) x)) by (apply put32_ok; [done|lia..]).
  destruct j as [|j]; simplify_eq/=.
  - rewrite enc_from_below by (done || lia). rewrite Z.add_0_r. destruct Hd as [Hd _]. unfold BSIZE in *.
    apply get32_put32_eq; rewrite ?Hd; unfold BSIZE; lia.
  - replace (i + Z.of_nat (S j)) with (i + 1 + Z.of_nat j) by lia. apply IH; [done|lia..|done].
Qed.

Definition fits ss : Prop := 4 + 4 * Z.of_nat (length ss) <= BSIZE.

Lemma enc_head_ok ss d : block_ok d -> fits ss -> block_ok (enc_head ss d).
Proof.
  intros Hd Hf. apply enc_from_ok; [|done..]. unfold fits, BSIZE in Hf.
  apply put32_ok; [done|lia|unfold BSIZE; lia].
Qed.

Lemma enc_head_n ss d : block_ok d -> fits ss -> get32 (enc_head ss d) 0 = Z.of_nat (length ss).
Proof.
  intros Hd Hf. unfold fits, BSIZE in Hf. unfold enc_head. rewrite enc_from_below; try (done || lia).
  - destruct Hd as [Hd _]. rewrite get32_put32_eq by (rewrite ?Hd; unfold BSIZE; lia).
    apply u32_small. lia.
  - apply put32_ok; [done|lia|unfold BSIZE; lia].
Qed.

Lemma enc_head_sector ss d j s : block_ok d -> fits ss -> ss !! j = Some s ->
  get32 (enc_head ss d) (4 + 4 * Z.of_nat j) = u32 s.
Proof.
  intros Hd Hf Hj. unfold fits, BSIZE in Hf. unfold enc_head.
  change (4 * Z.of_nat j) with (4 * (0 + Z.of_nat j)).
  apply enc_from_at; [|done..]. apply put32_ok; [done|lia|unfold BSIZE; lia].
Qed.

Lemma put_sectors_spec κ n d : 0 <= n -> (Z.to_nat n <= length (lh_sector κ))%nat ->
  put_sectors n d κ = Ret (enc_from 0 (take (Z.to_nat n) (lh_sector κ)) d) κ.
Proof.
  intros Hn Hl. set (ss := take (Z.to_nat n) (lh_sector κ)).
  assert (length ss = Z.to_nat n) as Hlen by (unfold ss; rewrite length_take; lia).
  enough (wp (put_sectors n d) (fun d' κ' => d' = enc_from 0 ss d /\ κ' = κ) κ) as E.
  { apply wp_Ret in E as (d' & κ' & E & -> & ->). done. }
  eapply wp_mono; [apply (wp_foldK _ _ (fun j d' κ' => d' = enc_from 0 (take j ss) d /\ κ' = κ)); [done|]|].
  - intros j x d' κ' Hx [-> ->]. rewrite lookup_zrange in Hx. case_decide as Hj; [|done].
    injection Hx as <-. rewrite Z.add_0_l in *.
    destruct (lookup_lt_is_Some_2 ss j ltac:(lia)) as [s Hs]. rewrite wp_bind.
    apply wp_sector_at with (s := s).
    { rewrite Nat2Z.id. unfold ss in Hs. by rewrite lookup_take_lt in Hs by lia. }
    apply wp_ret. split; [|done]. change (1 + j)%nat with (S j).
    rewrite (take_S_r _ _ _ Hs), enc_from_snoc, length_take. do 2 f_equal. lia.
  - intros d' κ' [-> ->]. rewrite length_zrange, Z.sub_0_r. by rewrite take_ge by lia.
Qed.

Lemma write_head_spec κ A (Q : unit -> lst -> Prop) :
  let ss := take (Z.to_nat (lh_n κ)) (lh_sector κ) in
  R (l_bio κ) A -> l_dev κ = 1 -> 0 <= lh_n κ -> (Z.to_nat (lh_n κ) <= length (lh_sector κ))%nat ->
  fits ss -> 0 <= l_start κ < csize A -> l_start κ ∉ held_secs A -> (0 < room A)%nat ->
  (forall β, R β (c_put (l_start κ) (enc_head ss (cur A (l_start κ))) A) -> Q tt (set_bio β κ)) ->
  wp write_head Q κ.
Proof.
  intros ss HR Hdev Hn Hcap Hf Hst Hh Hr HQ. unfold write_head. rewrite wp_bind. apply wp_get. rewrite Hdev.
  rewrite wp_bind. eapply blk_bread; [done..|by right|]. intros i β1 Hi HR1.
  rewrite wp_bind. eapply (blk_bdata (set_bio β1 κ)); [done|apply lookup_insert_eq|].
  rewrite wp_bind. unfold wp at 1. rewrite put_sectors_spec by done.
  cbn [set_bio lh_sector]. fold ss. cbn [c_bread cur].
  assert (Z.of_nat (length ss) = lh_n κ) as El by (unfold ss; rewrite length_take; lia).
  rewrite <- El. change (enc_from 0 ss _) with (enc_head ss (cur A (l_start κ))).
  assert (block_ok (enc_head ss (cur A (l_start κ)))) by (apply enc_head_ok; [by eapply R_block|done]).
  rewrite wp_bind. eapply (blk_bset (set_bio β1 κ)); [done|apply lookup_insert_eq|done|].
  intros β2 HR2. rewrite wp_bind. eapply (blk_bwrite (set_bio β2 κ)); [done|apply lookup_insert_eq|].
  intros β3 HR3. eapply (blk_brelse (set_bio β3 κ)); [done|apply lookup_insert_eq| |].
  { right. cbn [c_write c_set cur dur]. by rewrite !fn_lookup_insert. }
  intros β4 HR4. rewrite put_canon in HR4 by done. by apply HQ.
Qed.
End header.

(** ** Reading *)

Definition sb_of (d : block) : superblock :=
  Superblock (get32 d 0) (get32 d 4) (get32 d 8) (get32 d 12).

Section reading.
Implicit Types (κ : lst) (A : cache).

Lemma read_canon i s A : held A !! i = None -> c_brelse i (c_bread i s A) = A.
Proof. intros Hi. destruct A; unfold c_brelse, c_bread; simpl in *. by rewrite delete_insert_id. Qed.

Lemma clean_or_pinned β A s : R β A -> s ∉ held_secs A -> s ∈ pins A \/ cur A s = dur A s.
Proof.
  intros HR Hs. destruct (decide (s ∈ pins A)); [by left|right]. by eapply R_clean.
Qed.

Lemma readsb_spec β A : R β A -> 1 < csize A -> 1 ∉ held_secs A -> 1 ∈ pins A \/ (0 < room A)%nat ->
  wp (readsb 1) (fun sb β' => sb = sb_of (cur A 1) /\ R β' A) β.
Proof.
  intros HR Hs Hh Hr. unfold readsb. rewrite wp_bind.
  eapply wp_mono; [apply ref_bread; [done|lia|done|done]|]. intros i β1 [Hi HR1].
  rewrite wp_bind. eapply wp_mono; [eapply ref_bdata; [done|apply lookup_insert_eq]|]. intros d β2 [-> ->].
  rewrite wp_bind. eapply wp_mono; [eapply ref_brelse; [done|apply lookup_insert_eq|]|].
  { exact (clean_or_pinned _ _ _ HR Hh). }
  intros [] β3 HR3. rewrite read_canon in HR3 by done. by apply wp_ret.
Qed.

(** The sectors [read_head] finds in header block [d]. *)
Definition dec_head (d : block) : list Z :=
  (fun i => get32 d (4 + 4 * i)) <$> zrange 0 (s32 (get32 d 0)).

Lemma read_sectors_spec κ d n : 0 <= n -> (Z.to_nat n <= length (lh_sector κ))%nat ->
  wp (forK (fun i => sector_set i (get32 d (4 + 4 * i))) (zrange 0 n))
     (fun _ κ' => exists ss, κ' = set_sectors ss κ /\ length ss = length (lh_sector κ) /\
        take (Z.to_nat n) ss = (fun i => get32 d (4 + 4 * i)) <$> zrange 0 n) κ.
Proof.
  intros Hn Hl. unfold forK. set (l := (fun i => get32 d (4 + 4 * i)) <$> zrange 0 n).
  assert (length l = Z.to_nat n) as Hlen by (unfold l; rewrite length_fmap, length_zrange; lia).
  eapply wp_mono; [apply (wp_foldK _ _ (fun j _ κ' => exists ss, κ' = set_sectors ss κ /\
      length ss = length (lh_sector κ) /\ take j ss = take j l))|].
  - exists (lh_sector κ). split; [by destruct κ|done].
  - intros j x [] κ' Hx (ss & -> & Hss & Ht). rewrite lookup_zrange in Hx. case_decide as Hj; [|done].
    injection Hx as <-. rewrite Z.add_0_l in *. apply wp_sector_set; cbn [set_sectors lh_sector]; rewrite Nat2Z.id.
    { lia. }
    eexists; split; [done|]. rewrite length_insert. split; [done|]. change (1 + j)%nat with (S j).
    assert (l !! j = Some (get32 d (4 + 4 * Z.of_nat j))) as Hlj.
    { unfold l. rewrite list_lookup_fmap, lookup_zrange, decide_True by lia. done. }
    rewrite (take_S_r l _ _ Hlj), (take_S_r _ _ (get32 d (4 + 4 * Z.of_nat j))).
    + rewrite take_insert_ge by lia. by rewrite Ht.
    + apply list_lookup_insert_eq. lia.
  - intros [] κ' (ss & -> & Hss & Ht). exists ss. split_and!; [done..|].
    rewrite length_zrange, Z.sub_0_r in Ht. rewrite Ht. apply take_ge. lia.
Qed.

Lemma read_head_spec κ A (Q : unit -> lst -> Prop) :
  let d := cur A (l_start κ) in let n := s32 (get32 d 0) in
  R (l_bio κ) A -> l_dev κ = 1 -> 0 <= n -> (Z.to_nat n <= length (lh_sector κ))%nat ->
  0 <= l_start κ < csize A -> l_start κ ∉ held_secs A -> (0 < room A)%nat ->
  (forall β ss, R β A -> length ss = length (lh_sector κ) -> take (Z.to_nat n) ss = dec_head d ->
     Q tt (set_bio β (set_sectors ss (set_n n κ)))) ->
  wp read_head Q κ.
Proof.
  intros d n HR Hdev Hn Hcap Hst Hh Hr HQ. unfold read_head. rewrite wp_bind. apply wp_get. rewrite Hdev.
  rewrite wp_bind. eapply blk_bread; [done..|by right|]. intros i β1 Hi HR1.
  rewrite wp_bind. eapply (blk_bdata (set_bio β1 κ)); [done|apply lookup_insert_eq|]. cbn [c_bread cur]. fold d. fold n.
  rewrite wp_bind. apply wp_modify. rewrite wp_bind.
  eapply wp_mono; [apply read_sectors_spec; [done|exact Hcap]|]. intros [] κ' (ss & -> & Hss & Ht).
  eapply (blk_brelse (set_sectors ss (set_n n (set_bio β1 κ)))); [done|apply lookup_insert_eq| |].
  { exact (clean_or_pinned _ _ _ HR Hh). }
  intros β2 HR2. rewrite read_canon in HR2 by done. by apply HQ.
Qed.
End reading.

(** ** Recovery *)

(** The writes recovery replays from contents [f] with log at [start]. *)
Definition replay (start : Z) (ss : list Z) (f : Z -> block) : list (Z * block) :=
  imap (fun j s => (s, f (start + Z.of_nat j + 1))) ss.

(** A disk whose log records the sectors [ss] as committed ([ss] is empty when
    nothing is committed). *)
Record log_disk (f : Z -> block) (size start nlog : Z) (ss : list Z) : Prop := {
  ld_ok : forall s, block_ok (f s);
  ld_sb : s32 (sb_size (sb_of (f 1)) - sb_nlog (sb_of (f 1))) = start /\ s32 (sb_nlog (sb_of (f 1))) = nlog;
  ld_geom : 2 <= start /\ start + nlog <= size /\ 1 <= nlog <= LOGSIZE;
  ld_n : get32 (f start) 0 = Z.of_nat (length ss) /\ Z.of_nat (length ss) < nlog;
  ld_head : forall j s, ss !! j = Some s -> get32 (f start) (4 + 4 * Z.of_nat j) = s;
  ld_nodup : NoDup ss;
  ld_home : forall s, s ∈ ss -> 2 <= s < start
}.

Definition disk_of (d : gmap Z block) (s : Z) : block := default zblock (d !! s).

Section recovery.
Implicit Types (κ : lst) (A : cache).

Lemma zblock_ok : block_ok zblock.
Proof.
  split; [apply length_replicate|]. apply Forall_replicate. unfold is_byte. lia.
Qed.

Lemma boot_R d size : (forall s, block_ok (disk_of d s)) ->
  R (binit d size) (Cache (disk_of d) (disk_of d) ∅ ∅ [] size).
Proof.
  intros Hd.
  assert (forall i b, bufs (binit d size) !! i = Some b -> b = Buf 0 (u32 (-1)) 0 zblock) as Hb.
  { intros i b Hi. cbn [binit bufs] in Hi. by apply lookup_replicate in Hi as [? _]. }
  assert (forall s i b, bufs (binit d size) !! i = Some b -> has_key 1 s b = true -> False) as Hk.
  { intros s i b ->%Hb Hk. by apply has_key_true in Hk as [? _]. }
  split; cbn [cur dur held pins wrs csize].
  - split; cbn [binit bufs lru].
    + apply length_replicate.
    + symmetry. apply Permutation_rev.
    + exact Hd.
    + intros i b ->%Hb. by apply buf_unused.
    + intros i j bi bj ->%Hb. done.
  - intros s. apply view_uncached. intros (i & b & Hi & K). by eapply Hk.
  - done.
  - intros i s. rewrite lookup_empty. split; [done|]. intros (b & Hi & _ & K). by destruct (Hk s i b).
  - intros s. split; [set_solver|]. intros (i & b & Hi & _ & K). by destruct (Hk s i b).
  - done.
  - done.
Qed.

Lemma dec_head_log_disk f size start nlog ss : log_disk f size start nlog ss ->
  s32 (get32 (f start) 0) = Z.of_nat (length ss) /\ dec_head (f start) = ss.
Proof.
  intros H. destruct (ld_n _ _ _ _ _ H) as [Hn Hl]. destruct (ld_geom _ _ _ _ _ H) as (? & ? & ?).
  unfold LOGSIZE in *.
  assert (s32 (get32 (f start) 0) = Z.of_nat (length ss)) as E by (rewrite Hn; apply s32_small; lia).
  split; [done|]. unfold dec_head. rewrite E. apply list_eq. intros j.
  rewrite list_lookup_fmap, lookup_zrange. destruct (ss !! j) as [s|] eqn:Es.
  - rewrite decide_True by (apply lookup_lt_Some in Es; lia). simpl.
    f_equal. by eapply ld_head.
  - rewrite decide_False; [done|]. apply lookup_ge_None_1 in Es. lia.
Qed.

Lemma recover_spec κ A f ss (Q : unit -> lst -> Prop) :
  log_disk f (csize A) (l_start κ) (l_size κ) ss ->
  R (l_bio κ) A -> cur A = f -> held A = ∅ -> pins A = ∅ -> l_dev κ = 1 ->
  length (lh_sector κ) = Z.to_nat LOGSIZE ->
  (forall β ss', R β (c_put (l_start κ) (enc_head [] (f (l_start κ))) (c_puts (replay (l_start κ) ss f) A)) ->
     length ss' = Z.to_nat LOGSIZE -> Q tt (set_bio β (set_n 0 (set_sectors ss' κ)))) ->
  wp recover_from_log Q κ.
Proof.
  intros Hld HR Hf Hh Hp Hdev Hcap HQ.
  destruct (dec_head_log_disk _ _ _ _ _ Hld) as [En Es].
  destruct (ld_n _ _ _ _ _ Hld) as [_ Hl]. destruct (ld_geom _ _ _ _ _ Hld) as (Hst & Hsz & Hnl).
  unfold LOGSIZE in *.
  assert (room A = 20%nat) as Hroom by (unfold room; rewrite held_secs_empty, Hp by done; done).
  assert (held_secs A = ∅) as Hhs by (by apply held_secs_empty).
  unfold recover_from_log. rewrite wp_bind. rewrite <- Hf in En, Es.
  eapply (read_head_spec κ A); rewrite ?En; try done; try lia.
  { rewrite Hhs. set_solver. }
  intros β1 ss1 HR1 Hlen Ht. rewrite Es, Nat2Z.id in Ht. rewrite wp_bind.
  set (κ1 := set_bio β1 (set_sectors ss1 (set_n (Z.of_nat (length ss)) κ))).
  assert (take (Z.to_nat (lh_n κ1)) (lh_sector κ1) = ss) as Et by (cbn; by rewrite Nat2Z.id).
  assert (logged κ1 A = replay (l_start κ) ss f) as Elog by (unfold logged; by rewrite Et, Hf).
  assert (install_pre κ1 A) as Hip.
  { split; rewrite ?Et; cbn [κ1 set_bio set_sectors set_n l_bio l_dev lh_n lh_sector l_start l_size]; try done; try lia.
    - intros s Hs%(ld_home _ _ _ _ _ Hld). unfold in_log; cbn. lia.
    - apply Hld.
    - rewrite Hp. set_solver. }
  apply (install_spec κ1 A _ Hip). rewrite Elog. intros β2 HR2.
  rewrite wp_bind. apply wp_modify.
  set (A2 := c_puts (replay (l_start κ) ss f) A).
  pose proof (c_puts_spec (replay (l_start κ) ss f) A) as EA2. fold A2 in EA2.
  assert (held_secs A2 = ∅) as Hhs2 by (apply held_secs_empty; rewrite EA2; done).
  assert (cur A2 (l_start κ) = f (l_start κ)) as Ec.
  { rewrite EA2. cbn [cur]. rewrite apply_writes_ne; [by rewrite Hf|].
    rewrite <- Elog, logged_fst, Et. intros Hin%(ld_home _ _ _ _ _ Hld). lia. }
  eapply (write_head_spec _ A2); cbn [κ1 set_bio set_sectors set_n l_bio l_dev lh_n lh_sector l_start l_size];
    try done; try lia.
  - rewrite EA2. cbn [csize]. lia.
  - rewrite Hhs2. set_solver.
  - eapply Nat.lt_le_trans; [|apply room_shrink]; [rewrite Hroom; lia|].
    unfold busy_set. rewrite Hhs2, EA2. cbn [pins]. set_solver.
  - intros β3 HR3. rewrite take_0, Ec in HR3. apply HQ; [done|]. by rewrite Hlen.
Qed.

(** The abstract cache after recovery. *)
Definition recovered (f : Z -> block) (size start : Z) (ss : list Z) : cache :=
  c_put start (enc_head [] (f start)) (c_puts (replay start ss f) (Cache f f ∅ ∅ [] size)).

(** The machine boots from [d]: the superblock locates the log, committed blocks
    are installed and the log is cleared. *)
Lemma initlog_spec d size start nlog ss : log_disk (disk_of d) size start nlog ss ->
  exists β ss', initlog (boot d size) = Ret tt (Lst β start nlog false 1 0 ss') /\
    length ss' = Z.to_nat LOGSIZE /\ R β (recovered (disk_of d) size start ss).
Proof.
  intros Hld. set (f := disk_of d) in *. set (A := Cache f f ∅ ∅ [] size).
  assert (R (l_bio (boot d size)) A) as HR by (apply boot_R, Hld).
  destruct (ld_geom _ _ _ _ _ Hld) as (Hst & Hsz & Hnl). destruct (ld_sb _ _ _ _ _ Hld) as [Es En].
  assert (held_secs A = ∅) as Hhs by (by apply held_secs_empty).
  assert (room A = 20%nat) as Hroom by (unfold room; rewrite Hhs; done).
  enough (wp initlog (fun _ κ' => exists β ss', κ' = Lst β start nlog false 1 0 ss' /\
    length ss' = Z.to_nat LOGSIZE /\ R β (recovered f size start ss)) (boot d size)) as E.
  { apply wp_Ret in E as ([] & κ' & ? & ? & ? & -> & ? & ?). eauto. }
  unfold initlog. change (BSIZE <=? 4 + 4 * LOGSIZE) with false. cbv iota.
  rewrite wp_bind. apply blk_wp. eapply wp_mono; [apply (readsb_spec _ A); [done|cbn; lia| |right; lia]|].
  { rewrite Hhs. set_solver. }
  intros sb β1 [-> HR1]. rewrite wp_bind. apply wp_modify. cbn [A cur]. rewrite Es, En.
  eapply (recover_spec _ A f ss); cbn [l_start l_size l_dev lh_sector l_bio set_bio boot]; try done.
  intros β2 ss' HR2 Hlen. cbn [l_bio set_bio set_n set_sectors l_start l_size l_dev l_busy lh_n lh_sector]. by exists β2, ss'.
Qed.

Lemma replay_fst start ss f : (replay start ss f).*1 = ss.
Proof.
  apply list_eq. intros j. unfold replay. rewrite list_lookup_fmap, list_lookup_imap. by destruct (ss !! j).
Qed.

Lemma recovered_dur f size start nlog ss s : log_disk f size start nlog ss -> s <> start ->
  dur (recovered f size start ss) s = apply_writes (replay start ss f) f s.
Proof. intros _ Hs. unfold recovered. cbn [c_put dur]. rewrite fn_lookup_insert_ne by done. by rewrite c_puts_spec. Qed.

Lemma recovered_head f size start nlog ss : log_disk f size start nlog ss ->
  get32 (dur (recovered f size start ss) start) 0 = 0.
Proof.
  intros Hld. unfold recovered. cbn [c_put dur]. rewrite fn_lookup_insert.
  apply (enc_head_n []); [apply Hld|]. unfold fits, BSIZE. cbn. lia.
Qed.
End recovery.
