(* ===== verification/Trans.v ===== *)
(** Transactions: the logical disk that [bread]/[log_write]/[brelse] present to
    the file system between [begin_trans] and [commit_trans], and what a crash at
    any moment of a commit leaves behind. *)
From S2P Require Import Prelude Bio Cache Log LogSpec.

Definition slots (κ : lst) : list Z := take (Z.to_nat (lh_n κ)) (lh_sector κ).

(** The invariant of an open transaction. [T] is the set of held sectors changed
    in memory since they were last logged. *)
Record LS (κ : lst) (A : cache) (T : gset Z) : Prop := {
  ls_R : R (l_bio κ) A;
  ls_dev : l_dev κ = 1;
  ls_geom : 2 <= l_start κ /\ l_start κ + l_size κ <= csize A /\ 1 <= l_size κ <= LOGSIZE;
  ls_n : 0 <= lh_n κ < l_size κ;
  ls_cap : length (lh_sector κ) = Z.to_nat LOGSIZE;
  ls_nodup : NoDup (slots κ);
  ls_home : forall s, s ∈ slots κ -> 2 <= s < l_start κ;
  ls_pins : pins A = list_to_set (slots κ);
  ls_log : forall j s, slots κ !! j = Some s -> s ∉ T -> dur A (l_start κ + Z.of_nat j + 1) = cur A s;
  ls_clean : forall s, s ∉ slots κ -> s ∉ T -> cur A s = dur A s;
  ls_head : get32 (dur A (l_start κ)) 0 = 0;
  ls_held : forall s, s ∈ held_secs A -> s < l_start κ;
  ls_T : T ⊆ held_secs A;
  ls_sb : s32 (sb_size (sb_of (dur A 1)) - sb_nlog (sb_of (dur A 1))) = l_start κ /\
          s32 (sb_nlog (sb_of (dur A 1))) = l_size κ
}.

Section trans.
Implicit Types (κ : lst) (A : cache) (T : gset Z).

Lemma length_slots κ A T : LS κ A T -> Z.of_nat (length (slots κ)) = lh_n κ.
Proof.
  intros H. unfold slots. rewrite length_take, (ls_cap _ _ _ H).
  pose proof (ls_n _ _ _ H). pose proof (ls_geom _ _ _ H). unfold LOGSIZE in *. lia.
Qed.

Lemma size_pins κ A T : LS κ A T -> Z.of_nat (size (pins A)) = lh_n κ.
Proof.
  intros H. rewrite (ls_pins _ _ _ H), size_list_to_set by apply H. by eapply length_slots.
Qed.

Lemma LS_fits κ A T : LS κ A T -> fits (slots κ).
Proof.
  intros H. unfold fits, BSIZE. rewrite (length_slots _ _ _ H).
  pose proof (ls_n _ _ _ H). pose proof (ls_geom _ _ _ H). unfold LOGSIZE in *. lia.
Qed.

Lemma LS_room κ A T : LS κ A T -> held A = ∅ -> (0 < room A)%nat.
Proof.
  intros H Hh. unfold room. rewrite held_secs_empty by done.
  rewrite (left_id_L ∅ (∪)). pose proof (size_pins _ _ _ H). pose proof (ls_n _ _ _ H).
  pose proof (ls_geom _ _ _ H). unfold LOGSIZE, NBUF in *. lia.
Qed.

(** ** Commit *)

Definition hdr1 κ A : block := enc_head (slots κ) (cur A (l_start κ)).
Definition homes κ A : list (Z * block) := (fun s => (s, cur A s)) <$> slots κ.

(** The sector writes a commit issues, in order: the header (the commit point),
    the home locations, the cleared header. *)
Definition commit_writes κ A : list (Z * block) :=
  if 0 <? lh_n κ then
    (l_start κ, hdr1 κ A) :: homes κ A ++ [(l_start κ, enc_head [] (hdr1 κ A))]
  else [].

Lemma homes_fst κ A : (homes κ A).*1 = slots κ.
Proof.
  unfold homes. rewrite <- list_fmap_compose. apply list_fmap_id.
Qed.

Lemma apply_homes κ A s : NoDup (slots κ) -> apply_writes (homes κ A) (cur A) s = cur A s.
Proof.
  intros ND. destruct (decide (s ∈ slots κ)) as [Hs|Hs].
  - apply apply_writes_eq; [by rewrite homes_fst|]. apply list_elem_of_fmap. eauto.
  - apply apply_writes_ne. by rewrite homes_fst.
Qed.

Lemma apply_homes_dur κ A T s f : LS κ A T -> T = ∅ -> s < l_start κ -> (forall s, s < l_start κ -> f s = dur A s) ->
  apply_writes (homes κ A) f s = cur A s.
Proof.
  intros H -> Hs Hf. destruct (decide (s ∈ slots κ)) as [Hin|Hin].
  - apply apply_writes_eq; [rewrite homes_fst; apply H|]. apply list_elem_of_fmap. eauto.
  - rewrite apply_writes_ne by (by rewrite homes_fst). rewrite Hf by done.
    symmetry. by apply (ls_clean _ _ _ H).
Qed.

Lemma start_not_slot κ A T : LS κ A T -> l_start κ ∉ slots κ.
Proof. intros H Hs%(ls_home _ _ _ H). lia. Qed.

(** After writing the committed header, the log blocks still hold the contents
    of the transaction. *)
Lemma logged_homes κ A : LS κ A ∅ -> held A = ∅ ->
  logged κ (c_put (l_start κ) (hdr1 κ A) A) = homes κ A.
Proof.
  intros H Hh. unfold logged, homes. fold (slots κ). apply list_eq. intros j.
  rewrite list_lookup_imap, list_lookup_fmap. destruct (slots κ !! j) as [s|] eqn:Es; [|done]. simpl.
  do 2 f_equal. rewrite fn_lookup_insert_ne by lia.
  rewrite (R_clean _ _ _ (ls_R _ _ _ H)).
  - apply (ls_log _ _ _ H); [done|set_solver].
  - rewrite held_secs_empty by done. set_solver.
  - rewrite (ls_pins _ _ _ H), elem_of_list_to_set. intros Hin%(ls_home _ _ _ H). lia.
Qed.

Lemma commit_spec κ A : LS κ A ∅ -> held A = ∅ ->
  wp commit_trans (fun _ κ' => exists β A', κ' = set_busy false (set_bio β (set_n 0 κ)) /\
    R β A' /\ A' = c_puts (commit_writes κ A) A) κ.
Proof.
  intros H Hh. unfold commit_trans. rewrite wp_bind. apply wp_get. rewrite wp_bind.
  pose proof (ls_R _ _ _ H) as HR. pose proof (ls_n _ _ _ H) as Hn. pose proof (ls_geom _ _ _ H) as Hg.
  unfold LOGSIZE in Hg. pose proof (LS_room _ _ _ H Hh) as Hroom.
  assert (held_secs A = ∅) as Hhs by (by apply held_secs_empty).
  assert (Z.to_nat (lh_n κ) <= length (lh_sector κ))%nat as Hcap by (rewrite (ls_cap _ _ _ H); unfold LOGSIZE; lia).
  unfold commit_writes. destruct (Z.ltb_spec 0 (lh_n κ)); last first.
  { apply wp_ret, wp_modify. exists (l_bio κ), A. split_and!; try done.
    replace (set_n 0 κ) with κ; [by destruct κ|]. destruct κ; unfold set_n; simpl in *. f_equal; lia. }
  rewrite wp_bind. eapply (write_head_spec κ A); try done; try lia; fold (slots κ).
  { apply H. }
  { by eapply LS_fits. }
  { rewrite Hhs. set_solver. }
  change (enc_head (slots κ) (cur A (l_start κ))) with (hdr1 κ A).
  intros β1 HR1. set (A1 := c_put _ _ _) in *. rewrite wp_bind.
  assert (room A <= room A1)%nat as Hroom1.
  { apply room_shrink. unfold busy_set, A1, held_secs. cbn [c_put held pins]. set_solver. }
  assert (l_start κ ∉ pins A) as Hsp.
  { rewrite (ls_pins _ _ _ H), elem_of_list_to_set. by eapply start_not_slot. }
  assert (install_pre (set_bio β1 κ) A1) as Hip.
  { split; cbn [set_bio l_bio l_dev lh_n lh_sector l_start l_size A1 c_put held csize pins]; fold (slots κ);
      try done; try lia; try apply H.
    - intros s Hs%(ls_home _ _ _ H). unfold in_log. cbn. lia.
    - intros s Hs. assert (s ∈ pins A) as Hs' by set_solver.
      rewrite (ls_pins _ _ _ H), elem_of_list_to_set in Hs'. apply (ls_home _ _ _ H) in Hs'.
      unfold in_log. cbn. lia.
    - left. intros s Hs. pose proof (ls_home _ _ _ H s Hs). rewrite (ls_pins _ _ _ H). set_solver by lia. }
  apply (install_spec _ _ _ Hip).
  assert (logged (set_bio β1 κ) A1 = homes κ A) as -> by exact (logged_homes _ _ H Hh).
  intros β2 HR2. rewrite wp_bind. apply wp_modify.
  set (A2 := c_puts (homes κ A) A1) in *. pose proof (c_puts_spec (homes κ A) A1) as EA2. fold A2 in EA2.
  assert (cur A2 (l_start κ) = hdr1 κ A) as Ec.
  { rewrite EA2. cbn [cur]. rewrite apply_writes_ne by (rewrite homes_fst; by eapply start_not_slot).
    cbn. by rewrite fn_lookup_insert. }
  assert (held_secs A2 = ∅) as Hhs2 by (apply held_secs_empty; by rewrite EA2).
  eapply (write_head_spec _ A2); cbn [set_bio set_n l_bio l_dev lh_n lh_sector l_start l_size]; try done; try lia.
  - apply H.
  - rewrite EA2. cbn [csize A1 c_put]. lia.
  - rewrite Hhs2. set_solver.
  - eapply Nat.lt_le_trans; [|apply room_shrink]; [exact (Nat.lt_le_trans _ _ _ Hroom Hroom1)|].
    unfold busy_set. rewrite Hhs2, EA2. cbn [pins]. set_solver.
  - rewrite take_0, Ec. intros β3 HR3. apply wp_modify. exists β3. eexists. split; [done|]. split; [exact HR3|].
    unfold c_puts. simpl. by rewrite foldl_app.
Qed.

(** ** Crashes *)

Definition crash_disk (d : gmap Z block) (ws : list (Z * block)) : gmap Z block :=
  foldl (fun d p => <[p.1 := p.2]> d) d ws.

Lemma crash_disk_of d ws s : disk_of (crash_disk d ws) s = apply_writes ws (disk_of d) s.
Proof.
  revert d; induction ws as [|[a b] ws IH]; intros d; [done|].
  transitivity (disk_of (crash_disk (<[a := b]> d) ws) s); [done|]. rewrite IH.
  transitivity (apply_writes ws (<[a := b]> (disk_of d)) s); [|done].
  apply apply_writes_ext. intros x. unfold disk_of. destruct (decide (x = a)) as [->|].
  - by rewrite lookup_insert_eq, fn_lookup_insert.
  - by rewrite lookup_insert_ne, fn_lookup_insert_ne.
Qed.

(** The disk a crash leaves, when the header in it names the sectors [ss]. *)
Lemma crash_log_disk κ A f ss : LS κ A ∅ -> (forall s, block_ok (f s)) -> f 1 = dur A 1 ->
  ss = [] \/ ss = slots κ -> f (l_start κ) = enc_head ss (cur A (l_start κ)) \/
    (ss = [] /\ get32 (f (l_start κ)) 0 = 0) ->
  log_disk f (csize A) (l_start κ) (l_size κ) ss.
Proof.
  intros H Hok H1 Hss Hh. pose proof (length_slots _ _ _ H) as Hlen. pose proof (ls_n _ _ _ H) as Hn.
  assert (fits ss) as Hf by (destruct Hss as [-> | ->]; [by unfold fits, BSIZE; simpl; lia|by eapply LS_fits]).
  pose proof (R_block _ _ (l_start κ) (ls_R _ _ _ H)) as Hb.
  split.
  - done.
  - rewrite H1. apply H.
  - apply H.
  - split; [|destruct Hss as [-> | ->]; simpl; lia].
    destruct Hh as [-> |[-> ->]]; [by apply enc_head_n|done].
  - intros j s Hs. destruct Hh as [-> |[-> _]]; [|done]. rewrite (enc_head_sector _ _ _ _ Hb Hf Hs).
    apply u32_small. destruct Hss as [-> | ->]; [done|].
    assert (2 <= s < l_start κ) by (apply (ls_home _ _ _ H); by eapply list_elem_of_lookup_2).
    pose proof (ls_sb _ _ _ H) as [E _].
    pose proof (s32_range (sb_size (sb_of (dur A 1)) - sb_nlog (sb_of (dur A 1)))). lia.
  - destruct Hss as [-> | ->]; [constructor|apply H].
  - intros s Hs. destruct Hss as [-> | ->]; [by apply elem_of_nil in Hs|by apply H].
Qed.

Lemma hdr1_ok κ A T : LS κ A T -> block_ok (hdr1 κ A).
Proof. intros H. apply enc_head_ok; [eapply R_block; apply H|by eapply LS_fits]. Qed.

Lemma commit_writes_ok κ A s d : LS κ A ∅ -> (s, d) ∈ commit_writes κ A -> block_ok d /\ s <> 1.
Proof.
  intros H. unfold commit_writes. destruct (0 <? lh_n κ); [|by intros ?%elem_of_nil].
  pose proof (hdr1_ok _ _ _ H). pose proof (ls_geom _ _ _ H) as [? _].
  rewrite elem_of_cons, elem_of_app, list_elem_of_singleton. intros [[= -> ->]|[Hin|[= -> ->]]].
  - split; [done|lia].
  - unfold homes in Hin. apply list_elem_of_fmap in Hin as (x & [= -> ->] & Hx).
    apply (ls_home _ _ _ H) in Hx. split; [eapply R_block; apply H|lia].
  - split; [|lia]. apply enc_head_ok; [done|]. unfold fits, BSIZE. simpl. lia.
Qed.

Lemma apply_writes_all ws f (P : Z -> block -> Prop) : (forall s, P s (f s)) ->
  (forall s d, (s, d) ∈ ws -> P s d) -> forall s, P s (apply_writes ws f s).
Proof.
  revert f; induction ws as [|[a b] ws IH]; intros f Hf Hw s; [apply Hf|].
  apply (IH (<[a := b]> f)); [|intros; apply Hw; by right].
  intros x. destruct (decide (x = a)) as [->|].
  - rewrite fn_lookup_insert. apply Hw. by left.
  - by rewrite fn_lookup_insert_ne.
Qed.

(** The three stages of a commit, by the number [k] of sector writes that
    reached the disk: nothing, the committed header and perhaps some home
    locations, everything. *)
Lemma crash_stage κ A k : LS κ A ∅ -> 0 < lh_n κ -> let f := apply_writes (take k (commit_writes κ A)) (dur A) in
  k = 0%nat \/ (k <> 0%nat /\ (
  (f (l_start κ) = hdr1 κ A /\ exists l, l `prefix_of` homes κ A /\
     (forall s, s <> l_start κ -> f s = apply_writes l (dur A) s)) \/
  (f (l_start κ) = enc_head [] (hdr1 κ A) /\ forall s, s <> l_start κ -> f s = apply_writes (homes κ A) (dur A) s))).
Proof.
  intros H Hn f. pose proof (start_not_slot _ _ _ H) as Hst. subst f. unfold commit_writes.
  destruct (Z.ltb_spec 0 (lh_n κ)) as [_|]; [|lia]. destruct k as [|k]; [by left|right; split; [done|]]. cbn [take].
  assert (forall l (f : Z -> block) s, s <> l_start κ ->
    apply_writes ((l_start κ, hdr1 κ A) :: l) f s = apply_writes l f s) as Hskip.
  { intros l f s Hs. transitivity (apply_writes l (<[l_start κ := hdr1 κ A]> f) s); [done|].
    revert f. induction l as [|[a b] l IH] using rev_ind; intros f; [by apply fn_lookup_insert_ne|].
    rewrite !apply_writes_app. simpl. destruct (decide (s = a)) as [->|]; [by rewrite !fn_lookup_insert|].
    rewrite !fn_lookup_insert_ne by done. apply IH. }
  destruct (decide (k <= length (homes κ A))%nat).
  - left. rewrite take_app_le by done. split.
    + change (apply_writes _ (dur A) (l_start κ)) with
        (apply_writes (take k (homes κ A)) (<[l_start κ := hdr1 κ A]> (dur A)) (l_start κ)).
      rewrite apply_writes_ne; [by rewrite fn_lookup_insert|]. rewrite fmap_take, homes_fst.
      intros Hin. apply Hst. by eapply (subseteq_take k).
    + exists (take k (homes κ A)). split; [apply prefix_take|]. intros s Hs. by apply Hskip.
  - right. rewrite take_ge by (rewrite length_app; simpl; lia). split.
    + rewrite app_comm_cons, apply_writes_app. simpl. by rewrite fn_lookup_insert.
    + intros s Hs. rewrite Hskip by done. rewrite apply_writes_app. simpl. by rewrite fn_lookup_insert_ne.
Qed.

Lemma replay_homes κ A f : LS κ A ∅ -> (forall s, l_start κ < s -> f s = dur A s) ->
  replay (l_start κ) (slots κ) f = homes κ A.
Proof.
  intros H Hf. unfold replay, homes. apply list_eq. intros j.
  rewrite list_lookup_imap, list_lookup_fmap. destruct (slots κ !! j) as [s|] eqn:Es; [|done]. simpl.
  do 2 f_equal. rewrite Hf by lia. apply (ls_log _ _ _ H); [done|set_solver].
Qed.

Lemma prefix_writes κ A l f s : LS κ A ∅ -> l `prefix_of` homes κ A -> s <> l_start κ ->
  (forall s, s <> l_start κ -> f s = apply_writes l (dur A) s) ->
  (l_start κ < s -> f s = dur A s) /\ (s < l_start κ -> apply_writes (homes κ A) f s = cur A s).
Proof.
  intros H Hl Hs Hf.
  assert (forall x, x ∈ l.*1 -> x ∈ slots κ) as Hsub.
  { intros x Hx. rewrite <- (homes_fst κ A). destruct Hl as [l' ->]. rewrite fmap_app. set_solver. }
  split; intros Hlt.
  - rewrite Hf by done. apply apply_writes_ne. intros Hin%Hsub%(ls_home _ _ _ H). lia.
  - destruct (decide (s ∈ slots κ)) as [Hin|Hin].
    + apply apply_writes_eq; [rewrite homes_fst; apply H|]. apply list_elem_of_fmap. eauto.
    + rewrite apply_writes_ne by (by rewrite homes_fst). rewrite Hf by done.
      rewrite apply_writes_ne by (intros ?%Hsub; done). symmetry. apply (ls_clean _ _ _ H); set_solver.
Qed.

(** Every block a crash can leave is well formed, and the superblock is intact. *)
Lemma crash_blocks κ A k d : LS κ A ∅ ->
  (forall s, disk_of d s = apply_writes (take k (commit_writes κ A)) (dur A) s) ->
  (forall s, block_ok (disk_of d s)) /\ disk_of d 1 = dur A 1.
Proof.
  intros H Hd. split.
  - intros s. rewrite Hd. apply (apply_writes_all _ _ (fun _ d => block_ok d)).
    + intros x. rewrite <- (R_dur _ _ (ls_R _ _ _ H)). apply (R_ok _ _ (ls_R _ _ _ H)).
    + intros x b (i & Hi & _)%elem_of_take. eapply commit_writes_ok; [done|by eapply list_elem_of_lookup_2].
  - rewrite Hd. apply apply_writes_ne. intros ((x & b) & Ex & (i & Hi & _)%elem_of_take)%list_elem_of_fmap.
    apply list_elem_of_lookup_2 in Hi. by apply commit_writes_ok in Hi as [_ ?].
Qed.

Lemma boot_restores d size start nlog ss (g : Z -> block) : log_disk (disk_of d) size start nlog ss ->
  (forall s, 0 <= s < start -> apply_writes (replay start ss (disk_of d)) (disk_of d) s = g s) ->
  exists κ, initlog (boot d size) = Ret tt κ /\ forall s, 0 <= s < start -> dsk (l_bio κ) s = g s.
Proof.
  intros Hld Hg. destruct (initlog_spec _ _ _ _ _ Hld) as (β & ss' & E & _ & HR).
  eexists. split; [done|]. intros s Hs. cbn [l_bio]. rewrite (R_dur _ _ HR).
  erewrite recovered_dur; [by apply Hg|done|lia].
Qed.

Lemma enc_empty_n d : block_ok d -> get32 (enc_head [] d) 0 = 0.
Proof. intros Hd. apply (enc_head_n []); [done|]. unfold fits, BSIZE. simpl. lia. Qed.

(** The contents recovery restores from a crash after [k] writes of the commit. *)
Lemma crash_recovers κ A k d : LS κ A ∅ ->
  (forall s, disk_of d s = apply_writes (take k (commit_writes κ A)) (dur A) s) ->
  exists κ', initlog (boot d (csize A)) = Ret tt κ' /\
    forall s, 0 <= s < l_start κ -> dsk (l_bio κ') s = if (k =? 0)%nat then dur A s else cur A s.
Proof.
  intros H Hd. destruct (crash_blocks _ _ _ _ H Hd) as [Hok H1].
  assert (forall s, s ∉ slots κ -> cur A s = dur A s) as Hclean.
  { intros s Hs. apply (ls_clean _ _ _ H); [done|set_solver]. }
  destruct (decide (0 < lh_n κ)) as [Hn|Hn]; last first.
  { assert (slots κ = []) as Hnil by (unfold slots; replace (lh_n κ) with 0 by (pose proof (ls_n _ _ _ H); lia); done).
    assert (forall s, disk_of d s = dur A s) as Ef.
    { intros s. rewrite Hd. unfold commit_writes. destruct (Z.ltb_spec 0 (lh_n κ)); [lia|]. by rewrite take_nil. }
    apply (boot_restores d _ _ (l_size κ) []).
    - apply (crash_log_disk _ A); try done; [by left|right]. split; [done|]. rewrite Ef. apply H.
    - intros s Hs. simpl. rewrite Ef. destruct (k =? 0)%nat; [done|].
      symmetry. apply Hclean. rewrite Hnil. set_solver. }
  destruct (crash_stage κ A k H Hn) as [-> |(Hk & [(Hst & l & Hl & Hf)|(Hst & Hf)])].
  - apply (boot_restores d _ _ (l_size κ) []); [|intros s Hs; apply Hd].
    apply (crash_log_disk _ A); try done; [by left|right]. split; [done|]. rewrite Hd. apply H.
  - apply Nat.eqb_neq in Hk. rewrite Hk. rewrite <- Hd in Hst.
    assert (forall s, s <> l_start κ -> disk_of d s = apply_writes l (dur A) s) as Hf' by (intros; rewrite Hd; by apply Hf).
    apply (boot_restores d _ _ (l_size κ) (slots κ)).
    + apply (crash_log_disk _ A); try done; [by right|by left].
    + intros s Hs. rewrite (replay_homes κ A); [|done|].
      * eapply prefix_writes; try done; lia.
      * intros x Hx. eapply prefix_writes; try done; lia.
  - apply Nat.eqb_neq in Hk. rewrite Hk. rewrite <- Hd in Hst. apply (boot_restores d _ _ (l_size κ) []).
    + apply (crash_log_disk _ A); try done; [by left|right]. split; [done|]. rewrite Hst.
      apply enc_empty_n. by eapply hdr1_ok.
    + intros s Hs. simpl. rewrite Hd, Hf by lia. eapply apply_homes_dur; try done. lia.
Qed.

(** ** Logging a block *)

Lemma find_slot_spec s l n : (n <= length l)%nat ->
  let j := find_slot s l n in
  (j < n /\ l !! j = Some s)%nat \/ (j = n /\ s ∉ take n l).
Proof.
  revert l; induction n as [|n IH]; intros [|x l] Hl; simpl in *; try lia.
  - right. split; [done|]. set_solver.
  - right. split; [done|]. set_solver.
  - destruct (Z.eqb_spec x s) as [->|N]; [left; split; [lia|done]|].
    destruct (IH l ltac:(lia)) as [[? ?]|[-> ?]]; [left; split; [lia|done]|right].
    split; [done|]. set_solver.
Qed.

(** The state of the log after recording sector [s] in slot [j]. *)
Definition record_slot (j : nat) (s : Z) κ : lst :=
  let κ1 := set_sectors (<[j := s]> (lh_sector κ)) κ in
  if Z.of_nat j =? lh_n κ then set_n (lh_n κ + 1) κ1 else κ1.

Lemma record_slot_geom j s κ :
  l_start (record_slot j s κ) = l_start κ /\ l_size (record_slot j s κ) = l_size κ /\
  l_dev (record_slot j s κ) = l_dev κ /\ l_busy (record_slot j s κ) = l_busy κ.
Proof. unfold record_slot. by destruct (_ =? _). Qed.

Lemma slots_record κ A T j s : LS κ A T -> lh_n κ < LOGSIZE ->
  (j < Z.to_nat (lh_n κ))%nat /\ slots κ !! j = Some s \/ (j = Z.to_nat (lh_n κ) /\ s ∉ slots κ) ->
  (slots (record_slot j s κ) = slots κ /\ slots κ !! j = Some s /\ lh_n (record_slot j s κ) = lh_n κ) \/
  (slots (record_slot j s κ) = slots κ ++ [s] /\ s ∉ slots κ /\ lh_n (record_slot j s κ) = lh_n κ + 1 /\
   Z.of_nat j = lh_n κ).
Proof.
  intros H Hn. pose proof (ls_n _ _ _ H). pose proof (ls_cap _ _ _ H) as Hcap. unfold LOGSIZE in *.
  unfold record_slot. intros [[Hj Hs]|[-> Hs]].
  - left. destruct (Z.eqb_spec (Z.of_nat j) (lh_n κ)); [lia|]. split; [|done].
    unfold slots in *. cbn. rewrite list_insert_id; [done|]. by rewrite lookup_take_lt in Hs by lia.
  - right. destruct (Z.eqb_spec (Z.of_nat (Z.to_nat (lh_n κ))) (lh_n κ)); [|lia].
    split_and!; try done; try lia. unfold slots. cbn.
    replace (Z.to_nat (lh_n κ + 1)) with (S (Z.to_nat (lh_n κ))) by lia.
    rewrite (take_S_r _ _ s) by (apply list_lookup_insert_eq; lia).
    by rewrite take_insert_ge by lia.
Qed.

(** The copies in the log after sector [s] has been recorded in slot [j]. *)
Lemma record_log κ A T j s (A' := c_pin s (c_put (l_start κ + Z.of_nat j + 1) (cur A s) A)) k x : LS κ A T -> lh_n κ < LOGSIZE -> 2 <= s < l_start κ ->
  (j < Z.to_nat (lh_n κ))%nat /\ slots κ !! j = Some s \/ (j = Z.to_nat (lh_n κ) /\ s ∉ slots κ) ->
  slots (record_slot j s κ) !! k = Some x -> x < l_start κ -> x ∉ T ∖ {[s]} -> dur A' (l_start κ + Z.of_nat k + 1) = cur A' x.
Proof.
  intros H Hn Hsr Hj Hk Hxlt Hx. pose proof (length_slots _ _ _ H) as Hlen. pose proof (ls_n _ _ _ H) as Hn0. pose proof (slots_record κ A T j s H Hn Hj) as Hslots.
  cbn. rewrite (fn_lookup_insert_ne (cur A)) by lia. destruct (decide (k = j)) as [->|Nk].
  - rewrite fn_lookup_insert. f_equal. destruct Hslots as [(Ess & E & _)|(Ess & _ & _ & Ej)].
    + rewrite Ess in Hk. congruence.
    + rewrite Ess, lookup_app_r in Hk by lia. replace (j - length (slots κ))%nat with 0%nat in Hk by lia. by injection Hk.
  - rewrite fn_lookup_insert_ne by lia. apply (ls_log _ _ _ H).
    + destruct Hslots as [(Ess & _)|(Ess & _ & _ & Ej)]; rewrite Ess in Hk; [done|].
      apply lookup_app_Some in Hk as [?|[? Hk]]; [done|]. apply list_lookup_singleton_Some in Hk as [? _]. lia.
    + intros HT. apply Hx. apply elem_of_difference. split; [done|]. rewrite elem_of_singleton. intros ->.
      destruct Hslots as [(Ess & E & _)|(Ess & N & _ & Ej)]; rewrite Ess in Hk.
      * apply Nk. eapply NoDup_lookup; [apply H|done..].
      * apply lookup_app_Some in Hk as [Hk|[? Hk]]; [by apply list_elem_of_lookup_2 in Hk|].
        apply list_lookup_singleton_Some in Hk as [? _]. lia.
Qed.

Lemma LS_record κ A T j s β : LS κ A T -> lh_n κ < l_size κ - 1 -> s ∈ held_secs A -> 2 <= s < l_start κ ->
  (j < Z.to_nat (lh_n κ))%nat /\ slots κ !! j = Some s \/ (j = Z.to_nat (lh_n κ) /\ s ∉ slots κ) ->
  let A' := c_pin s (c_put (l_start κ + Z.of_nat j + 1) (cur A s) A) in
  R β A' -> LS (set_bio β (record_slot j s κ)) A' (T ∖ {[s]}).
Proof.
  intros H Hn Hs Hsr Hj A' HR'. pose proof (ls_n _ _ _ H) as Hn0. pose proof (ls_geom _ _ _ H) as Hg.
  unfold LOGSIZE in Hg. pose proof (length_slots _ _ _ H) as Hlen.
  destruct (record_slot_geom j s κ) as (Est & Esz & Edev & _).
  assert (length (lh_sector (record_slot j s κ)) = Z.to_nat LOGSIZE) as Ecap.
  { rewrite <- (ls_cap _ _ _ H). unfold record_slot. destruct (_ =? _); cbn; apply length_insert. }
  assert (forall x, x < l_start κ -> cur A' x = cur A x /\ dur A' x = dur A x) as Hlow.
  { intros x Hx. cbn. rewrite !fn_lookup_insert_ne by lia. done. }
  pose proof (slots_record κ A T j s H ltac:(unfold LOGSIZE; lia) Hj) as Hslots.
  change (slots (set_bio β (record_slot j s κ))) with (slots (record_slot j s κ)) in *.
  assert (forall x, x ∈ slots (record_slot j s κ) <-> x ∈ slots κ \/ x = s) as Hin.
  { intros x. destruct Hslots as [(-> & E & _)|(-> & _)]; [|set_solver].
    apply list_elem_of_lookup_2 in E. set_solver. }
  split; cbn [set_bio l_bio l_dev l_start l_size lh_n lh_sector];
    change (slots (set_bio β (record_slot j s κ))) with (slots (record_slot j s κ)); rewrite ?Est, ?Esz.
  - done.
  - rewrite Edev. apply H.
  - apply H.
  - destruct Hslots as [(_ & _ & ->)|(_ & _ & -> & _)]; lia.
  - done.
  - destruct Hslots as [(-> & _)|(-> & N & _)]; [apply H|]. apply NoDup_app. split; [apply H|].
    split; [set_solver|]. apply NoDup_singleton.
  - intros x [Hx| ->]%Hin; [by apply H|lia].
  - cbn. rewrite (ls_pins _ _ _ H). apply set_eq. intros x. specialize (Hin x).
    rewrite elem_of_union, elem_of_difference, !elem_of_list_to_set, !elem_of_singleton, Hin. split; [tauto|].
    intros [Hx| ->]; [left|by right]. split; [done|]. apply (ls_home _ _ _ H) in Hx. lia.
  - intros k x Hk Hx. assert (x ∈ slots (record_slot j s κ)) as Hxin by (by eapply list_elem_of_lookup_2).
    assert (x < l_start κ) as Hxlt by (apply Hin in Hxin as [Hxin| ->]; [by apply (ls_home _ _ _ H) in Hxin as []|lia]).
    apply (record_log κ A T j s k x H); [unfold LOGSIZE; lia|done..].
  - intros x Hx HT. assert (x <> s /\ x ∉ slots κ) as [Ns Nx] by (rewrite Hin in Hx; tauto).
    cbn. destruct (decide (x = l_start κ + Z.of_nat j + 1)) as [->|]; [by rewrite !fn_lookup_insert|].
    rewrite !fn_lookup_insert_ne by done. apply (ls_clean _ _ _ H); set_solver.
  - cbn. rewrite fn_lookup_insert_ne by lia. apply H.
  - intros x Hx. by apply (ls_held _ _ _ H).
  - change (held_secs A') with (held_secs A). pose proof (ls_T _ _ _ H). set_solver.
  - destruct (Hlow 1 ltac:(lia)) as [_ ->]. apply H.
Qed.

Lemma log_write_spec κ A T b s (Q : unit -> lst -> Prop) : LS κ A T -> held A !! b = Some s ->
  2 <= s < l_start κ -> l_busy κ = true -> lh_n κ < l_size κ - 1 -> (0 < room A)%nat ->
  (forall j β A', A' = c_pin s (c_put (l_start κ + Z.of_nat j + 1) (cur A s) A) ->
     lh_n (record_slot j s κ) = lh_n κ /\ s ∈ pins A \/ lh_n (record_slot j s κ) = lh_n κ + 1 /\ s ∉ pins A ->
     LS (set_bio β (record_slot j s κ)) A' (T ∖ {[s]}) ->
     Q tt (set_bio β (record_slot j s κ))) ->
  wp (log_write b) Q κ.
Proof.
  intros H Hb Hs Hbusy Hn Hroom HQ. pose proof (ls_n _ _ _ H) as Hn0. pose proof (ls_geom _ _ _ H) as Hg.
  pose proof (ls_cap _ _ _ H) as Hcap. unfold LOGSIZE in Hg, Hcap. pose proof (ls_R _ _ _ H) as HR.
  destruct (R_handle _ _ _ _ HR Hb) as (bf & Hbf & _ & Hdev & Hsec & Hdata & _ & Hrange).
  unfold log_write. rewrite wp_bind. apply wp_get.
  destruct (Z.leb_spec LOGSIZE (lh_n κ)) as [Hx|_]; [unfold LOGSIZE in Hx; lia|].
  destruct (Z.leb_spec (l_size κ - 1) (lh_n κ)) as [Hx|_]; [lia|]. rewrite Hbusy. cbn [orb negb].
  rewrite wp_bind. apply blk_wp. unfold getbuf. rewrite wp_bind. apply wp_get. rewrite Hbf. apply wp_ret.
  rewrite Hsec, Hdev, Hdata.
  replace (set_bio (l_bio κ) κ) with κ by (by destruct κ).
  pose proof (find_slot_spec s (lh_sector κ) (Z.to_nat (lh_n κ)) ltac:(lia)) as Hj.
  set (j := find_slot s (lh_sector κ) (Z.to_nat (lh_n κ))) in *. cbv zeta in Hj.
  assert ((j < Z.to_nat (lh_n κ))%nat /\ slots κ !! j = Some s \/ (j = Z.to_nat (lh_n κ) /\ s ∉ slots κ)) as Hj'.
  { destruct Hj as [[? ?]|[? ?]]; [left|by right]. split; [done|]. unfold slots. by rewrite lookup_take_lt. }
  rewrite wp_bind. apply wp_sector_set; [rewrite Nat2Z.id; lia|]. rewrite Nat2Z.id.
  set (κ1 := set_sectors _ κ). set (l := l_start κ + Z.of_nat j + 1).
  assert (l ∉ held_secs A) as Hlh by (intros Hl%(ls_held _ _ _ H); unfold l in Hl; lia).
  rewrite wp_bind. eapply (blk_bread κ1 A); [done|unfold l; lia|done|by right|].
  intros lb β1 Hlb HR1. pose proof HR1 as HR1'.
  rewrite wp_bind. eapply (blk_bset _ (c_bread lb l A) lb l); [done|apply lookup_insert_eq|eapply R_block, HR|].
  intros β2 HR2. rewrite wp_bind. eapply (blk_bwrite _ (c_set l (cur A s) (c_bread lb l A)) lb l); [done|apply lookup_insert_eq|].
  intros β3 HR3. rewrite wp_bind.
  eapply (blk_brelse _ _ lb l); [done|apply lookup_insert_eq|right; cbn; by rewrite !fn_lookup_insert|].
  rewrite put_canon by done. intros β4 HR4. rewrite wp_bind.
  assert (wp (blk (updbuf b (set_flags (fun f => flag_set f B_DIRTY)))) Q (set_bio β4 (record_slot j s κ))) as Hfin.
  { eapply (blk_pin _ (c_put l (cur A s) A) b s); [done|done|]. intros β5 HR5.
    apply (HQ j β5 _ eq_refl).
    - rewrite (ls_pins _ _ _ H), elem_of_list_to_set.
      destruct (slots_record κ A T j s H ltac:(unfold LOGSIZE; lia) Hj') as [(_ & E & ->)|(_ & ? & -> & _)]; [left|by right].
      split; [done|]. by eapply list_elem_of_lookup_2.
    - apply LS_record; try done. apply elem_held_secs. eauto. }
  revert Hfin. unfold record_slot. fold κ1. destruct (Z.of_nat j =? lh_n κ); intros Hfin; [apply wp_modify|apply wp_ret]; exact Hfin.
Qed.

(** Log errors: [log_write] refuses an overfull or absent transaction. *)
Lemma log_write_too_big κ b : LOGSIZE <= lh_n κ \/ l_size κ - 1 <= lh_n κ ->
  log_write b κ = Panic "too big a transaction".
Proof.
  intros H. unfold log_write, bind, get.
  assert ((LOGSIZE <=? lh_n κ) || (l_size κ - 1 <=? lh_n κ) = true) as ->; [|done].
  apply orb_true_iff. rewrite !Z.leb_le. done.
Qed.

Lemma log_write_outside κ b : lh_n κ < LOGSIZE -> lh_n κ < l_size κ - 1 -> l_busy κ = false ->
  log_write b κ = Panic "write outside of trans".
Proof.
  intros H1 H2 Hb. unfold log_write, bind, get.
  assert ((LOGSIZE <=? lh_n κ) || (l_size κ - 1 <=? lh_n κ) = false) as ->.
  { apply orb_false_iff. rewrite !Z.leb_gt. done. }
  by rewrite Hb.
Qed.

(** After a commit the log is empty and the disk holds what readers saw. *)
Lemma LS_commit κ A β A' : LS κ A ∅ -> held A = ∅ -> R β A' -> A' = c_puts (commit_writes κ A) A ->
  LS (set_busy false (set_bio β (set_n 0 κ))) A' ∅ /\
  (forall s, s < l_start κ -> dur A' s = cur A s /\ cur A' s = cur A s) /\
  wrs A' = wrs A ++ commit_writes κ A /\ held A' = ∅ /\ pins A' = ∅ /\ csize A' = csize A.
Proof.
  intros H Hh HR' E. pose proof (c_puts_spec (commit_writes κ A) A) as Es. rewrite <- E in Es.
  assert (pins A' = ∅) as Hpins.
  { rewrite Es. cbn [pins]. rewrite (ls_pins _ _ _ H). unfold commit_writes.
    destruct (Z.ltb_spec 0 (lh_n κ)).
    - cbn [fmap list_fmap fst]. rewrite fmap_app, homes_fst. set_solver.
    - unfold slots. replace (Z.to_nat (lh_n κ)) with 0%nat by lia. set_solver. }
  assert (held A' = ∅) as Hheld by (by rewrite Es).
  assert (held_secs A' = ∅) as Hhs by (by apply held_secs_empty).
  assert (forall s, cur A' s = dur A' s) as Hcd.
  { intros s. apply (R_clean _ _ _ HR'); [rewrite Hhs|rewrite Hpins]; set_solver. }
  assert (forall s, s < l_start κ -> cur A' s = cur A s) as Hcur.
  { intros s Hs. rewrite Es. cbn [cur]. unfold commit_writes. destruct (0 <? lh_n κ); [|done].
    rewrite app_comm_cons, apply_writes_app. cbn. rewrite fn_lookup_insert_ne by lia.
    transitivity (apply_writes (homes κ A) (<[l_start κ := hdr1 κ A]> (cur A)) s); [done|].
    destruct (decide (s ∈ slots κ)) as [Hin|Hin].
    - apply apply_writes_eq; [rewrite homes_fst; apply H|]. apply list_elem_of_fmap. eauto.
    - rewrite apply_writes_ne by (by rewrite homes_fst). by rewrite fn_lookup_insert_ne by lia. }
  pose proof (ls_geom _ _ _ H) as Hg. pose proof (ls_n _ _ _ H) as Hn.
  split; [|split_and!; try done; [|by rewrite Es|by rewrite Es]].
  - split; cbn; try done; try apply H; try lia.
    + rewrite Es. apply Hg.
    + unfold slots. cbn. constructor.
    + unfold slots. cbn. intros s ?%elem_of_nil. done.
    + rewrite Es. cbn [dur]. unfold commit_writes. destruct (Z.ltb_spec 0 (lh_n κ)); [|apply H].
      rewrite app_comm_cons, apply_writes_app. cbn. rewrite fn_lookup_insert. apply enc_empty_n. by eapply hdr1_ok.
    + rewrite Hhs. set_solver.
    + rewrite <- Hcd, Hcur by lia. rewrite (R_clean _ _ _ (ls_R _ _ _ H)); [apply H| |].
      * rewrite held_secs_empty by done. set_solver.
      * rewrite (ls_pins _ _ _ H), elem_of_list_to_set. intros Hs%(ls_home _ _ _ H). lia.
  - intros s Hs. rewrite <- Hcd. by rewrite Hcur.
Qed.

(** ** The cache operations inside a transaction *)

Lemma LS_bread κ A T i s β : LS κ A T -> held A !! i = None -> s < l_start κ -> R β (c_bread i s A) ->
  LS (set_bio β κ) (c_bread i s A) T.
Proof.
  intros H Hi Hs HR. pose proof (held_secs_bread i s A Hi) as E. split; try apply H; try done.
  - rewrite E. intros x [Hx| ->%elem_of_singleton]%elem_of_union; [by apply (ls_held _ _ _ H)|done].
  - rewrite E. pose proof (ls_T _ _ _ H). set_solver.
Qed.

Lemma LS_bset κ A T i s d β : LS κ A T -> held A !! i = Some s -> R β (c_set s d A) ->
  LS (set_bio β κ) (c_set s d A) (T ∪ {[s]}).
Proof.
  intros H Hi HR. assert (s ∈ held_secs A) as Hin by (apply elem_held_secs; eauto).
  split; try apply H; try done; cbn [c_set cur dur].
  - intros j x Hj Hx. assert (x <> s) by set_solver. rewrite fn_lookup_insert_ne by done.
    apply (ls_log _ _ _ H); [done|set_solver].
  - intros x Hx HT. assert (x <> s) by set_solver. rewrite fn_lookup_insert_ne by done.
    apply (ls_clean _ _ _ H); [done|set_solver].
  - change (held_secs (c_set s d A)) with (held_secs A). pose proof (ls_T _ _ _ H). set_solver.
Qed.

Lemma held_secs_brelse σ A i s : R σ A -> held A !! i = Some s ->
  held_secs (c_brelse i A) = held_secs A ∖ {[s]}.
Proof.
  intros HR Hi. apply set_eq. intros x. rewrite elem_of_difference, elem_of_singleton, !elem_held_secs.
  cbn. split.
  - intros (j & Hj). apply lookup_delete_Some in Hj as [N Hj]. split; [eauto|]. intros ->.
    by apply N; eapply held_inj.
  - intros ((j & Hj) & N). exists j. rewrite lookup_delete_ne; [done|]. intros ->. congruence.
Qed.

Lemma LS_brelse κ A T i s β : LS κ A T -> held A !! i = Some s -> s ∉ T -> R β (c_brelse i A) ->
  LS (set_bio β κ) (c_brelse i A) T.
Proof.
  intros H Hi HT HR. pose proof (held_secs_brelse _ _ _ _ (ls_R _ _ _ H) Hi) as E.
  split; try apply H; try done.
  - rewrite E. intros x [Hx _]%elem_of_difference. by apply (ls_held _ _ _ H).
  - rewrite E. pose proof (ls_T _ _ _ H). set_solver.
Qed.

(** A sector that is not in [T] can be released. *)
Lemma LS_released κ A T s : LS κ A T -> s ∉ T -> s ∈ pins A \/ cur A s = dur A s.
Proof.
  intros H HT. rewrite (ls_pins _ _ _ H), elem_of_list_to_set.
  destruct (decide (s ∈ slots κ)); [by left|right]. by apply (ls_clean _ _ _ H).
Qed.

Lemma ls_bread κ A T s (Q : nat -> lst -> Prop) : LS κ A T -> 0 <= s < l_start κ ->
  s ∉ held_secs A -> s ∈ pins A \/ (0 < room A)%nat ->
  (forall i β, held A !! i = None -> LS (set_bio β κ) (c_bread i s A) T -> Q i (set_bio β κ)) ->
  wp (blk (bread 1 s)) Q κ.
Proof.
  intros H Hs Hh Hr HQ. pose proof (ls_geom _ _ _ H). unfold LOGSIZE in *. eapply (blk_bread κ A); try done.
  - apply H.
  - lia.
  - intros i β Hi HR. apply HQ; [done|]. apply LS_bread; try done. lia.
Qed.

Lemma ls_bdata κ A T i s (Q : block -> lst -> Prop) : LS κ A T -> held A !! i = Some s ->
  Q (cur A s) κ -> wp (blk (bdata i)) Q κ.
Proof. intros H Hi HQ. eapply blk_bdata; [apply H|done|done]. Qed.

Lemma ls_bset κ A T i s d (Q : unit -> lst -> Prop) : LS κ A T -> held A !! i = Some s -> block_ok d ->
  (forall β, LS (set_bio β κ) (c_set s d A) (T ∪ {[s]}) -> Q tt (set_bio β κ)) ->
  wp (blk (bset i d)) Q κ.
Proof.
  intros H Hi Hd HQ. eapply (blk_bset κ A); [apply H|done..|]. intros β HR. apply HQ. by eapply LS_bset.
Qed.

Lemma ls_brelse κ A T i s (Q : unit -> lst -> Prop) : LS κ A T -> held A !! i = Some s -> s ∉ T ->
  (forall β, LS (set_bio β κ) (c_brelse i A) T -> Q tt (set_bio β κ)) ->
  wp (blk (brelse i)) Q κ.
Proof.
  intros H Hi HT HQ. eapply (blk_brelse κ A); [apply H|done|by eapply LS_released|].
  intros β HR. apply HQ. by eapply LS_brelse.
Qed.
End trans.

