(* ===== verification/Txn.v ===== *)
(** Runs of transactions on the log: a machine boots, recovers, executes any
    sequence of transactions, and may lose power between any two sector writes,
    those of recovery included. Recovery always restores the effect of a whole
    number of transactions. *)
From S2P Require Import Prelude Bio Cache Log LogSpec Trans.

(** A transaction as the file system performs it: every block is read, changed
    in memory, logged and released. *)
Definition put_block (p : Z * block) : K lst unit :=
  let! b := blk (bread ROOTDEV p.1) in
  blk (bset b p.2);;;
  log_write b;;;
  blk (brelse b).

Definition txn (ws : list (Z * block)) : K lst unit :=
  begin_trans;;; forK put_block ws;;; commit_trans.

Definition run_txns (txs : list (list (Z * block))) : K lst unit := forK txn txs.

(** A transaction the log can hold: before each write there is a free slot. *)
Definition txn_ok (start nlog : Z) (ws : list (Z * block)) : Prop :=
  (forall s d, (s, d) ∈ ws -> 2 <= s < start /\ block_ok d) /\
  forall i, (i < length ws)%nat -> Z.of_nat (size (list_to_set (C := gset Z) (take i ws.*1))) < nlog - 1.

(** Booting from contents [f] restores [g] below the log. *)
Definition recovers (size start : Z) (f g : Z -> block) : Prop :=
  forall d, (forall s, disk_of d s = f s) ->
  exists κ, initlog (boot d size) = Ret tt κ /\ forall s, 0 <= s < start -> dsk (l_bio κ) s = g s.

Record idle (κ : lst) (A : cache) : Prop := {
  idle_LS : LS κ A ∅;
  idle_held : held A = ∅;
  idle_n : lh_n κ = 0;
  idle_busy : l_busy κ = false
}.

Section runs.
Implicit Types (κ : lst) (A : cache).

Lemma recovers_ext size start f f' g g' : recovers size start f g -> (forall s, f' s = f s) ->
  (forall s, 0 <= s < start -> g s = g' s) -> recovers size start f' g'.
Proof.
  intros H Hf Hg d Hd. destruct (H d) as (κ & E & Hk); [intros s; by rewrite Hd|].
  exists κ. split; [done|]. intros s Hs. rewrite Hk by done. by apply Hg.
Qed.

Lemma recovers_log f size start nlog ss : log_disk f size start nlog ss ->
  recovers size start f (apply_writes (replay start ss f) f).
Proof.
  intros Hld d Hd. assert (log_disk (disk_of d) size start nlog ss) as Hld'.
  { destruct Hld as [? ? ? ? ? ? ?]. split; rewrite ?Hd; try done; intros; rewrite Hd; auto. }
  apply (boot_restores d size start nlog ss); [done|]. intros s Hs.
  assert (replay start ss (disk_of d) = replay start ss f) as ->.
  { apply list_eq. intros j. unfold replay. rewrite !list_lookup_imap. destruct (ss !! j); [|done]. simpl.
    by rewrite Hd. }
  by apply apply_writes_ext.
Qed.

(** With an empty log header the contents are taken as they are. *)
Lemma recovers_clean κ A T f : LS κ A T -> (forall s, block_ok (f s)) -> f 1 = dur A 1 ->
  get32 (f (l_start κ)) 0 = 0 -> recovers (csize A) (l_start κ) f f.
Proof.
  intros H Hok H1 Hh. apply (recovers_log f _ _ (l_size κ) []). split; try done.
  - rewrite H1. apply H.
  - apply H.
  - split; [done|]. pose proof (ls_n _ _ _ H). simpl. lia.
  - constructor.
  - by intros s ?%elem_of_nil.
Qed.

Lemma dur_ok κ A T s : LS κ A T -> block_ok (dur A s).
Proof. intros H. rewrite <- (R_dur _ _ (ls_R _ _ _ H)). apply (R_ok _ _ (ls_R _ _ _ H)). Qed.

(** ** One write of a transaction *)

Lemma put_block_spec κ A s d (Q : unit -> lst -> Prop) : LS κ A ∅ -> held A = ∅ -> l_busy κ = true ->
  2 <= s < l_start κ -> block_ok d -> lh_n κ < l_size κ - 1 ->
  (forall κ' A' l, LS κ' A' ∅ -> held A' = ∅ -> l_busy κ' = true -> l_start κ' = l_start κ ->
     l_size κ' = l_size κ -> csize A' = csize A -> pins A' = pins A ∪ {[s]} ->
     (forall x, x < l_start κ -> cur A' x = <[s := d]> (cur A) x) ->
     l_start κ < l -> dur A' = <[l := d]> (dur A) -> wrs A' = wrs A ++ [(l, d)] -> Q tt κ') ->
  wp (put_block (s, d)) Q κ.
Proof.
  intros H Hh Hbusy Hs Hd Hn HQ. pose proof (ls_geom _ _ _ H) as Hg. unfold LOGSIZE in Hg.
  assert (held_secs A = ∅) as Hhs by (by apply held_secs_empty).
  pose proof (LS_room _ _ _ H Hh) as Hroom. pose proof (size_pins _ _ _ H) as Hsz.
  unfold put_block. cbn [fst snd]. rewrite wp_bind. eapply (ls_bread κ A ∅); [done|lia|rewrite Hhs; set_solver|by right|].
  intros b β1 Hb H1. rewrite wp_bind. eapply (ls_bset _ _ _ b s d); [exact H1|apply lookup_insert_eq|done|].
  intros β2 H2. rewrite wp_bind. set (A2 := c_set _ _ _) in *.
  eapply (log_write_spec _ A2 _ b s); [exact H2|apply lookup_insert_eq|done|done|done| |].
  { enough (room A <= room A2 + 1 /\ 2 <= room A)%nat by lia. split; [by apply room_bread|].
    unfold room. rewrite Hhs, (left_id_L ∅ (∪)). unfold NBUF. lia. }
  intros j β3 A3 EA3 _ H3.
  eapply (ls_brelse _ A3 _ b s); [exact H3|rewrite EA3; apply lookup_insert_eq|set_solver|].
  intros β4 H4. replace ((∅ ∪ {[s]}) ∖ {[s]}) with (∅ : gset Z) in H4 by set_solver.
  destruct (record_slot_geom j s (set_bio β2 (set_bio β1 κ))) as (E1 & E2 & _ & E3).
  cbn [set_bio l_start l_size l_busy] in E1, E2, E3.
  assert (cur A2 s = d) as Ed by (cbn; by rewrite fn_lookup_insert). rewrite Ed in EA3.
  cbn [set_bio l_start] in EA3.
  eapply (HQ _ _ (l_start κ + Z.of_nat j + 1) H4); rewrite ?EA3; cbn; try done; try lia.
  - rewrite Hh. by rewrite delete_insert_id.
  - by rewrite E3.
  - cut (l_start κ + Z.of_nat j + 1 ∉ pins A); [set_solver|].
    rewrite (ls_pins _ _ _ H), elem_of_list_to_set. intros Hx%(ls_home _ _ _ H). lia.
  - intros x Hx. rewrite fn_lookup_insert_ne by lia. done.
Qed.

Definition log_only (start : Z) (p : Z * block) : Prop := start < p.1 /\ block_ok p.2.

(** Writes that touch only log blocks leave the file system and the header. *)
Lemma log_only_below start lw f x : Forall (log_only start) lw -> x <= start -> apply_writes lw f x = f x.
Proof.
  intros Hl Hx. apply apply_writes_ne. intros ([a b] & Ea & Hin)%list_elem_of_fmap.
  rewrite Forall_forall in Hl. apply Hl in Hin as [? _]. simpl in *. lia.
Qed.

Lemma log_only_ok start lw f : Forall (log_only start) lw -> (forall s, block_ok (f s)) ->
  forall s, block_ok (apply_writes lw f s).
Proof.
  intros Hl Hf. apply (apply_writes_all _ _ (fun _ d => block_ok d)); [done|].
  intros a b Hin. rewrite Forall_forall in Hl. by apply Hl in Hin as [_ ?].
Qed.

(** What a step of a run does: the states before and after agree on the
    geometry, [new] are the sector writes issued. *)
Record step (κ : lst) (A : cache) (κ' : lst) (A' : cache) (new : list (Z * block)) : Prop := {
  st_start : l_start κ' = l_start κ;
  st_size : l_size κ' = l_size κ;
  st_csize : csize A' = csize A;
  st_wrs : wrs A' = wrs A ++ new;
  st_dur : forall s, dur A' s = apply_writes new (dur A) s
}.

Lemma step_trans κ1 A1 κ2 A2 κ3 A3 n1 n2 : step κ1 A1 κ2 A2 n1 -> step κ2 A2 κ3 A3 n2 ->
  step κ1 A1 κ3 A3 (n1 ++ n2).
Proof.
  intros [] []. split; try congruence.
  - rewrite app_assoc. congruence.
  - intros s. rewrite st_dur1, apply_writes_app. by apply apply_writes_ext.
Qed.

Lemma step_refl κ A κ' : l_start κ' = l_start κ -> l_size κ' = l_size κ -> step κ A κ' A [].
Proof. intros. split; try done. by rewrite app_nil_r. Qed.

(** The body of a transaction only writes log blocks. *)
Lemma body_spec κ A ws : LS κ A ∅ -> held A = ∅ -> pins A = ∅ -> l_busy κ = true ->
  txn_ok (l_start κ) (l_size κ) ws ->
  wp (forK put_block ws) (fun _ κ' => exists A' lw, LS κ' A' ∅ /\ held A' = ∅ /\ step κ A κ' A' lw /\
    Forall (log_only (l_start κ)) lw /\
    forall x, x < l_start κ -> cur A' x = apply_writes ws (cur A) x) κ.
Proof.
  intros H Hh Hp Hb [Hws Hfit].
  set (I := fun (i : nat) (_ : unit) κ' => exists A' lw, LS κ' A' ∅ /\ held A' = ∅ /\ step κ A κ' A' lw /\
    Forall (log_only (l_start κ)) lw /\ l_busy κ' = true /\ pins A' = list_to_set (take i ws.*1) /\
    forall x, x < l_start κ -> cur A' x = apply_writes (take i ws) (cur A) x).
  eapply wp_mono; [apply (wp_foldK _ ws I)|].
  - exists A, []. split_and!; try done. by apply step_refl.
  - intros i [s d] [] κ1 Hi (A1 & lw & H1 & Hh1 & Hst & Hlw & Hb1 & Hp1 & Hc1).
    destruct (Hws s d ltac:(by eapply list_elem_of_lookup_2)) as [Hs Hd].
    pose proof (st_start _ _ _ _ _ Hst) as Es. pose proof (st_size _ _ _ _ _ Hst) as En.
    apply (put_block_spec κ1 A1); try done; [by rewrite Es| |].
    + rewrite <- (size_pins _ _ _ H1), Hp1, En. apply Hfit. by eapply lookup_lt_Some.
    + intros κ2 A2 l H2 Hh2 Hb2 Es2 En2 Ec2 Hp2 Hc2 Hl Ed2 Ew2.
      exists A2, (lw ++ [(l, d)]). rewrite Es in *. split_and!; try done.
      * eapply step_trans; [exact Hst|]. split; try congruence. intros x. by rewrite Ed2.
      * apply Forall_app. split; [done|]. apply Forall_singleton. done.
      * change (1 + i)%nat with (S i). rewrite Hp2, Hp1.
        rewrite (take_S_r _ _ s) by (by rewrite list_lookup_fmap, Hi). rewrite list_to_set_app_L. set_solver.
      * intros x Hx. change (1 + i)%nat with (S i). rewrite (take_S_r _ _ _ Hi), apply_writes_app, Hc2 by done.
        cbn. destruct (decide (x = s)) as [->|]; [by rewrite !fn_lookup_insert|].
        rewrite !fn_lookup_insert_ne by done. by apply Hc1.
  - intros [] κ' (A' & lw & ? & ? & ? & ? & ? & ? & Hc). exists A', lw. split_and!; try done.
    intros x Hx. rewrite Hc by done. by rewrite take_ge.
Qed.

Lemma idle_clean κ A s : idle κ A -> cur A s = dur A s.
Proof.
  intros [H ? Hn ?]. apply (ls_clean _ _ _ H); [|set_solver]. unfold slots. rewrite Hn. apply not_elem_of_nil.
Qed.

(** A crash among writes of log blocks loses nothing. *)
Lemma recovers_log_only κ A lw k : idle κ A -> Forall (log_only (l_start κ)) lw ->
  recovers (csize A) (l_start κ) (apply_writes (take k lw) (dur A)) (cur A).
Proof.
  intros Hi Hlw. assert (Forall (log_only (l_start κ)) (take k lw)) as Hk by (by apply Forall_take). pose proof (idle_LS _ _ Hi) as H.
  eapply recovers_ext; [apply (recovers_clean κ A ∅ (apply_writes (take k lw) (dur A)) H)|done|].
  - eapply log_only_ok; [done|]. intros s. by eapply dur_ok.
  - eapply log_only_below; [done|]. pose proof (ls_geom _ _ _ H). lia.
  - rewrite (log_only_below (l_start κ)); [apply H|done|lia].
  - intros s Hs. rewrite (log_only_below (l_start κ)); [symmetry; by eapply idle_clean|done|lia].
Qed.

(** The end of a transaction that found the log idle and has written only log
    blocks: the commit succeeds, and a crash anywhere since the beginning
    recovers the contents before or those after. *)
Lemma commit_crash κ A κ1 A1 lw : idle κ A -> LS κ1 A1 ∅ -> held A1 = ∅ -> step κ A κ1 A1 lw ->
  Forall (log_only (l_start κ)) lw ->
  wp commit_trans (fun _ κ' => exists A' new, idle κ' A' /\ step κ A κ' A' new /\
    (forall x, x < l_start κ -> cur A' x = cur A1 x) /\
    forall k, recovers (csize A) (l_start κ) (apply_writes (take k new) (dur A)) (cur A) \/
              recovers (csize A) (l_start κ) (apply_writes (take k new) (dur A)) (cur A')) κ1.
Proof.
  intros Hidle H1 Hh1 Hst Hlw. pose proof (st_start _ _ _ _ _ Hst) as Es.
  eapply wp_mono; [by apply (commit_spec κ1 A1)|]. intros [] κ2 (β & A2 & -> & HR & EA2).
  destruct (LS_commit _ _ _ _ H1 Hh1 HR EA2) as (H2 & Hd2 & Hw2 & Hh2 & Hp2 & Ec2).
  exists A2, (lw ++ commit_writes κ1 A1). split; [by split|]. split; [|split].
  - eapply step_trans; [done|]. split; try done. intros s. by rewrite EA2, c_puts_spec.
  - intros x Hx. apply Hd2. lia.
  - intros k. destruct (decide (k <= length lw)%nat).
    + left. rewrite take_app_le by done. by apply recovers_log_only.
    + rewrite take_app_ge by lia. set (k' := (k - length lw)%nat).
      right. intros d Hd. rewrite <- (st_csize _ _ _ _ _ Hst), <- Es.
      destruct (crash_recovers κ1 A1 k' d H1) as (κr & Er & Hr).
      * intros s. rewrite Hd, apply_writes_app. apply apply_writes_ext. intros x. by rewrite (st_dur _ _ _ _ _ Hst).
      * exists κr. split; [done|]. intros s Hs. rewrite (Hr s Hs).
        destruct (Nat.eqb_spec k' 0); [lia|]. symmetry. apply Hd2. lia.
Qed.

(** Once the commit has returned, the contents after it. *)
Lemma recovers_done κ A κ' A' new : idle κ' A' -> step κ A κ' A' new ->
  recovers (csize A) (l_start κ) (apply_writes new (dur A)) (cur A').
Proof.
  intros Hi Hst. rewrite <- (st_start _ _ _ _ _ Hst), <- (st_csize _ _ _ _ _ Hst). pose proof (idle_LS _ _ Hi) as H.
  eapply recovers_ext; [apply (recovers_clean κ' A' ∅ (dur A') H)|..]; try done.
  - intros s. by eapply dur_ok.
  - apply H.
  - intros s. symmetry. apply Hst.
  - intros s _. symmetry. by eapply idle_clean.
Qed.

Lemma recovers_idle κ A : idle κ A -> recovers (csize A) (l_start κ) (dur A) (cur A).
Proof. intros Hi. apply (recovers_done κ A κ A []); [done|by apply step_refl]. Qed.

Lemma begin_idle κ A (Q : unit -> lst -> Prop) : idle κ A -> (LS (set_busy true κ) A ∅ -> Q tt (set_busy true κ)) ->
  wp begin_trans Q κ.
Proof.
  intros [H Hh Hn Hb] HQ. unfold begin_trans. rewrite wp_bind. apply wp_get. rewrite Hb. apply wp_modify, HQ.
  destruct H; by split.
Qed.

Lemma txn_spec κ A ws : idle κ A -> txn_ok (l_start κ) (l_size κ) ws ->
  wp (txn ws) (fun _ κ' => exists A' new, idle κ' A' /\ step κ A κ' A' new /\
    (forall x, x < l_start κ -> cur A' x = apply_writes ws (cur A) x) /\
    forall k, recovers (csize A) (l_start κ) (apply_writes (take k new) (dur A)) (cur A) \/
              recovers (csize A) (l_start κ) (apply_writes (take k new) (dur A)) (cur A')) κ.
Proof.
  intros Hidle Hok. unfold txn. rewrite wp_bind. eapply begin_idle; [done|]. intros H0.
  rewrite wp_bind. eapply wp_mono; [apply (body_spec (set_busy true κ) A)|]; try done; try apply Hidle.
  { rewrite (ls_pins _ _ _ (idle_LS _ _ Hidle)). unfold slots. by rewrite (idle_n _ _ Hidle). }
  intros [] κ1 (A1 & lw & H1 & Hh1 & Hst & Hlw & Hc1). cbn [set_busy l_start] in Hlw, Hc1.
  assert (step κ A κ1 A1 lw) as Hst' by (by destruct Hst; split).
  eapply wp_mono; [by apply (commit_crash κ A κ1 A1 lw)|]. intros [] κ2 (A2 & new & Hi & Hs & Hc & Hr).
  exists A2, new. split_and!; try done. intros x Hx. rewrite Hc by done. by apply Hc1.
Qed.

Definition recovers_prefix κ A (new : list (Z * block)) (txs : list (list (Z * block))) (k n : nat) : Prop :=
  (n <= length txs)%nat /\
  recovers (csize A) (l_start κ) (apply_writes (take k new) (dur A)) (apply_writes (concat (take n txs)) (cur A)).

Lemma run_spec txs κ A : idle κ A -> Forall (txn_ok (l_start κ) (l_size κ)) txs ->
  wp (run_txns txs) (fun _ κ' => exists A' new, idle κ' A' /\ step κ A κ' A' new /\
    (forall x, x < l_start κ -> cur A' x = apply_writes (concat txs) (cur A) x) /\
    forall k, exists n, recovers_prefix κ A new txs k n) κ.
Proof.
  revert κ A. induction txs as [|ws txs IH]; intros κ A Hidle Hok.
  { apply wp_ret. exists A, []. split_and!; try done; [by apply step_refl|].
    intros k. exists 0%nat. split; [done|]. rewrite take_nil. cbn.
    eapply recovers_ext; [apply (recovers_clean κ A ∅ (dur A)); try apply Hidle| |].
    - intros s. eapply dur_ok, Hidle.
    - done.
    - done.
    - intros s Hs. symmetry. by eapply idle_clean. }
  apply Forall_cons in Hok as [Hok1 Hok]. unfold run_txns, forK. cbn [foldK]. rewrite wp_bind.
  eapply wp_mono; [by eapply txn_spec|]. intros [] κ1 (A1 & n1 & Hidle1 & Hst1 & Hc1 & Hr1).
  pose proof (st_start _ _ _ _ _ Hst1) as Es. pose proof (st_size _ _ _ _ _ Hst1) as En.
  eapply wp_mono; [apply (IH κ1 A1); [done|by rewrite Es, En]|].
  intros [] κ2 (A2 & n2 & Hidle2 & Hst2 & Hc2 & Hr2). rewrite Es in *.
  exists A2, (n1 ++ n2). split; [done|]. split; [by eapply step_trans|]. split.
  - intros x Hx. rewrite Hc2 by done. cbn [concat]. rewrite apply_writes_app.
    by apply apply_writes_at, Hc1.
  - intros k. destruct (decide (k <= length n1)%nat).
    + destruct (Hr1 k) as [Hr|Hr].
      * exists 0%nat. split; [lia|]. by rewrite take_app_le.
      * exists 1%nat. split; [simpl; lia|]. rewrite take_app_le by done. eapply recovers_ext; [exact Hr|done|].
        intros s Hs. rewrite (firstn_cons 0), take_0. cbn [concat]. rewrite app_nil_r. apply Hc1; lia.
    + destruct (Hr2 (k - length n1)%nat) as (m & Hm & Hr). exists (S m). split; [simpl; lia|].
      rewrite take_app_ge by lia. rewrite Es, (st_csize _ _ _ _ _ Hst1) in Hr. eapply recovers_ext; [exact Hr| |].
      * intros s. rewrite apply_writes_app. apply apply_writes_ext. intros x. symmetry. apply Hst1.
      * intros s Hs. cbn [take concat]. rewrite apply_writes_app. apply apply_writes_at, Hc1; lia.
Qed.

(** ** Recovery *)

Lemma idle_init d size start nlog ss : log_disk (disk_of d) size start nlog ss ->
  let A := recovered (disk_of d) size start ss in
  exists κ, initlog (boot d size) = Ret tt κ /\ idle κ A /\ l_start κ = start /\ l_size κ = nlog /\
    csize A = size /\ wrs A = replay start ss (disk_of d) ++ [(start, enc_head [] (disk_of d start))] /\
    (forall s, s < start -> cur A s = apply_writes (replay start ss (disk_of d)) (disk_of d) s) /\
    (forall s, dur A s = apply_writes (wrs A) (disk_of d) s).
Proof.
  intros Hld A. destruct (initlog_spec _ _ _ _ _ Hld) as (β & ss' & E & Hlen & HR). fold A in HR.
  destruct (ld_geom _ _ _ _ _ Hld) as (Hst & Hsz & Hnl).
  assert (A = Cache (<[start := enc_head [] (disk_of d start)]> (apply_writes (replay start ss (disk_of d)) (disk_of d)))
    (<[start := enc_head [] (disk_of d start)]> (apply_writes (replay start ss (disk_of d)) (disk_of d)))
    ∅ ∅ (replay start ss (disk_of d) ++ [(start, enc_head [] (disk_of d start))]) size) as EA.
  { unfold A, recovered. rewrite c_puts_spec. unfold c_put. cbn. f_equal. set_solver. }
  assert (get32 (dur A start) 0 = 0) as Hhead by (by apply (recovered_head _ _ _ nlog)).
  assert (dur A 1 = disk_of d 1) as Hsb.
  { unfold A. erewrite recovered_dur; [|done|lia]. apply apply_writes_ne.
    rewrite replay_fst. intros Hs%(ld_home _ _ _ _ _ Hld). lia. }
  clearbody A. eexists. split; [done|]. split_and!; try done; try (by rewrite EA).
  - split; [|by rewrite EA|done..]. split; unfold slots; cbn [l_bio l_dev l_start l_size lh_n lh_sector]; try done; try lia.
    + by rewrite EA.
    + constructor.
    + by intros s ?%elem_of_nil.
    + by rewrite EA.
    + by rewrite EA.
    + rewrite held_secs_empty by (by rewrite EA). set_solver.
    + rewrite Hsb. apply Hld.
  - intros s Hs. rewrite EA. cbn. by rewrite fn_lookup_insert_ne by lia.
  - intros s. rewrite EA. cbn [dur wrs]. by rewrite apply_writes_app.
Qed.

(** Recovery is idempotent: interrupted anywhere, the next one completes it. *)
Lemma init_crash f size start nlog ss k : log_disk f size start nlog ss ->
  recovers size start (apply_writes (take k (replay start ss f ++ [(start, enc_head [] (f start))])) f)
           (apply_writes (replay start ss f) f).
Proof.
  intros Hld. set (rp := replay start ss f).
  destruct (ld_geom _ _ _ _ _ Hld) as (Hst & Hsz & Hnl).
  assert (forall l s, l `prefix_of` rp -> (s = 1 \/ start <= s) -> apply_writes l f s = f s) as Hout.
  { intros l s [l' El] Hs. apply apply_writes_ne. intros Hin.
    assert (s ∈ ss) as Hin' by (rewrite <- (replay_fst start ss f); fold rp; rewrite El, fmap_app; set_solver).
    apply (ld_home _ _ _ _ _ Hld) in Hin'. lia. }
  assert (forall l, l `prefix_of` rp -> forall s, block_ok (apply_writes l f s)) as Hokp.
  { intros l [l' El]. apply (apply_writes_all _ _ (fun _ d => block_ok d)); [apply Hld|].
    intros s d Hin. assert ((s, d) ∈ rp) as Hin' by (rewrite El; set_solver). unfold rp, replay in Hin'.
    apply elem_of_lookup_imap in Hin' as (j & x & [= -> ->] & _). apply Hld. }
  destruct (decide (k <= length rp)%nat).
  - rewrite take_app_le by done. assert (take k rp `prefix_of` rp) as Hpre by apply prefix_take.
    set (f' := apply_writes (take k rp) f).
    assert (log_disk f' size start nlog ss) as Hld'.
    { split; try apply Hld; unfold f'; rewrite ?Hout by (done || lia); try apply Hld. by apply Hokp. }
    eapply recovers_ext; [by eapply recovers_log|done|]. intros s Hs.
    assert (replay start ss f' = rp) as ->.
    { unfold rp, replay. apply list_eq. intros j. rewrite !list_lookup_imap. destruct (ss !! j); [|done]. simpl.
      unfold f'. rewrite Hout; [done|done|lia]. }
    destruct (decide (s ∈ ss)) as [Hin|Hin].
    + rewrite <- (replay_fst start ss f) in Hin. fold rp in Hin. apply list_elem_of_fmap in Hin as ([a b] & -> & Hin).
      assert (NoDup rp.*1) by (unfold rp; rewrite replay_fst; apply Hld).
      by rewrite !(apply_writes_eq rp _ a b).
    + apply apply_writes_at. apply apply_writes_ne. rewrite fmap_take. intros Hx. apply Hin.
      rewrite <- (replay_fst start ss f). by eapply subseteq_take.
  - rewrite take_ge by (rewrite length_app; simpl; lia).
    set (f' := apply_writes _ f).
    assert (forall s, s <> start -> f' s = apply_writes rp f s) as Hf'.
    { intros s Hs. unfold f'. rewrite apply_writes_app. cbn. by rewrite fn_lookup_insert_ne. }
    assert (f' start = enc_head [] (f start)) as Hh by (unfold f'; rewrite apply_writes_app; cbn; by rewrite fn_lookup_insert).
    assert (block_ok (f start)) as Hbs by apply Hld.
    eapply recovers_ext; [apply (recovers_log f' size start nlog [])|done|].
    + split; try done; try apply Hld.
      * intros s. destruct (decide (s = start)) as [->|]; [|rewrite Hf' by done; by apply Hokp].
        rewrite Hh. apply enc_head_ok; [done|]. unfold fits, BSIZE. simpl. lia.
      * rewrite Hf' by lia. rewrite Hout by (done || lia). apply Hld.
      * rewrite Hh. split; [by apply enc_empty_n|simpl; lia].
      * constructor.
      * by intros s ?%elem_of_nil.
    + intros s Hs. apply Hf'. lia.
Qed.
End runs.

(** ** Theorems *)

(** C1. Crash atomicity and durability of the log. Boot from any disk whose log
    is well formed (recovering whatever transaction it holds), run any list of
    transactions [txs1] and then [txs2], and cut the power after any number [k]
    of the sector writes issued since switching on, the writes of the first
    recovery and of [log_write] and [commit_trans] included. Nothing panics, and
    the next boot restores exactly the contents after a whole number [n] of the
    transactions; if [txs1] had returned before the crash, [n] covers them all. *)
Theorem transactions_atomic_durable d size start nlog ss txs1 txs2 :
  log_disk (disk_of d) size start nlog ss ->
  Forall (txn_ok start nlog) (txs1 ++ txs2) ->
  exists κ1 κ2, (initlog;;; run_txns txs1) (boot d size) = Ret tt κ1 /\ run_txns txs2 κ1 = Ret tt κ2 /\
  forall k, exists n κr,
    initlog (boot (crash_disk d (take k (writes (l_bio κ2)))) size) = Ret tt κr /\
    (n <= length (txs1 ++ txs2))%nat /\
    ((length (writes (l_bio κ1)) <= k)%nat -> (length txs1 <= n)%nat) /\
    forall s, 0 <= s < start ->
      dsk (l_bio κr) s =
      apply_writes (concat (take n (txs1 ++ txs2)))
                   (apply_writes (replay start ss (disk_of d)) (disk_of d)) s.
Proof.
  intros Hld [Hok1 Hok2]%Forall_app.
  destruct (idle_init _ _ _ _ _ Hld) as (κ0 & E0 & Hi0 & <- & <- & Hsz & Hw0 & Hc0 & Hd0).
  set (A0 := recovered _ _ _ _) in *. set (rec := apply_writes (replay _ _ _) _) in *.
  pose proof (run_spec txs1 κ0 A0 Hi0 Hok1) as ([] & κ1 & E1 & A1 & n1 & Hi1 & Hst1 & Hc1 & Hr1)%wp_Ret.
  pose proof (st_start _ _ _ _ _ Hst1) as Es. pose proof (st_size _ _ _ _ _ Hst1) as En.
  rewrite <- Es, <- En in Hok2.
  pose proof (run_spec txs2 κ1 A1 Hi1 Hok2) as ([] & κ2 & E2 & A2 & n2 & Hi2 & Hst2 & Hc2 & Hr2)%wp_Ret.
  exists κ1, κ2. split; [unfold bind; by rewrite E0|]. split; [done|].
  assert (writes (l_bio κ1) = wrs A0 ++ n1) as W1.
  { rewrite (R_wrs _ _ (ls_R _ _ _ (idle_LS _ _ Hi1))). apply Hst1. }
  assert (writes (l_bio κ2) = wrs A0 ++ n1 ++ n2) as W2.
  { rewrite (R_wrs _ _ (ls_R _ _ _ (idle_LS _ _ Hi2))), (st_wrs _ _ _ _ _ Hst2), (st_wrs _ _ _ _ _ Hst1).
    by rewrite app_assoc. }
  intros k. rewrite W1, W2, (length_app (wrs A0)).
  enough (exists n, recovers size (l_start κ0) (apply_writes (take k (wrs A0 ++ n1 ++ n2)) (disk_of d))
            (apply_writes (concat (take n (txs1 ++ txs2))) rec) /\ (n <= length (txs1 ++ txs2))%nat /\
            ((length (wrs A0) + length n1 <= k)%nat -> (length txs1 <= n)%nat)) as (n & Hr & Hn & Hn1).
  { destruct (Hr _ (fun s => crash_disk_of _ _ s)) as (κr & Er & Hκr). exists n, κr. by split_and!. }
  destruct (decide (length (wrs A0) + length n1 <= k)%nat) as [Hk|Hk].
  { destruct (Hr2 (k - length (wrs A0) - length n1)%nat) as (m & Hm & Hr). exists (length txs1 + m)%nat.
    rewrite length_app. split; [|lia]. rewrite (take_app_ge _ (n1 ++ n2)), (take_app_ge n1) by lia.
    rewrite take_app_ge, Nat.add_comm, Nat.add_sub, concat_app by lia.
    rewrite Es, (st_csize _ _ _ _ _ Hst1), Hsz in Hr. eapply recovers_ext; [exact Hr| |].
    - intros s. rewrite !apply_writes_app. apply apply_writes_ext. intros x.
      rewrite (st_dur _ _ _ _ _ Hst1). apply apply_writes_ext. symmetry. apply Hd0.
    - intros s Hs. rewrite apply_writes_app. apply apply_writes_at. rewrite Hc1 by lia.
      apply apply_writes_at, Hc0. lia. }
  destruct (decide (length (wrs A0) <= k)%nat) as [Hk1|Hk1].
  { destruct (Hr1 (k - length (wrs A0))%nat) as (m & Hm & Hr). exists m.
    rewrite length_app. split; [|lia]. rewrite (take_app_ge _ (n1 ++ n2)), (take_app_le n1), take_app_le by lia.
    rewrite Hsz in Hr. eapply recovers_ext; [exact Hr| |].
    - intros s. rewrite !apply_writes_app. apply apply_writes_ext. symmetry. apply Hd0.
    - intros s Hs. apply apply_writes_at, Hc0. lia. }
  exists 0%nat. split; [|lia]. rewrite take_app_le by lia. rewrite Hw0. by apply (init_crash _ _ _ _ _ k Hld).
Qed.

(** A seven-sector disk: the superblock, two data sectors and a log of three. *)
Definition tiny_disk : gmap Z block :=
  {[1 := put32 (put32 zblock 0 7) 12 3]}.

Lemma tiny_disk_ok : log_disk (disk_of tiny_disk) 7 4 3 [].
Proof.
  assert (forall s, s <> 1 -> disk_of tiny_disk s = zblock) as Hz.
  { intros s Hs. unfold disk_of, tiny_disk. by rewrite lookup_singleton_ne. }
  split.
  - intros s. destruct (decide (s = 1)) as [->|]; [|rewrite Hz by done; apply zblock_ok].
    by_evaluation.
  - by vm_compute.
  - unfold LOGSIZE. lia.
  - rewrite Hz by done. split; [by vm_compute|simpl; lia].
  - done.
  - constructor.
  - by intros s ?%elem_of_nil.
Qed.

Lemma tiny_txns_ok : Forall (txn_ok 4 3) ([[(2, replicate 512 7)]] ++ [[(3, replicate 512 8); (2, replicate 512 9)]]).
Proof.
  assert (forall v, is_byte v -> block_ok (replicate 512 v)) as Hok.
  { intros v Hv. split; [apply length_replicate|by apply Forall_replicate]. }
  assert (block_ok (replicate 512 7) /\ block_ok (replicate 512 8) /\ block_ok (replicate 512 9)) as (H7 & H8 & H9)
    by (split_and!; apply Hok; unfold is_byte; lia).
  revert H7 H8 H9. generalize (replicate 512 7) (replicate 512 8) (replicate 512 9). intros d7 d8 d9 H7 H8 H9.
  repeat apply Forall_cons_2; try apply Forall_nil_2.
  - split; [|intros [|?] ?; [by vm_compute|simpl in *; lia]].
    intros s d [[= -> ->]|?%elem_of_nil]%elem_of_cons; [|done]. split; [lia|done].
  - split; [|intros [|[|?]] ?; [by vm_compute..|simpl in *; lia]].
    intros s d [[= -> ->]|[[= -> ->]|?%elem_of_nil]%elem_of_cons]%elem_of_cons; [..|done]; (split; [lia|done]).
Qed.

Lemma transactions_atomic_durable_witness :
  exists κ1 κ2, (initlog;;; run_txns [[(2, replicate 512 7)]]) (boot tiny_disk 7) = Ret tt κ1 /\
    run_txns [[(3, replicate 512 8); (2, replicate 512 9)]] κ1 = Ret tt κ2.
Proof.
  destruct (transactions_atomic_durable tiny_disk 7 4 3 [] [[(2, replicate 512 7)]]
              [[(3, replicate 512 8); (2, replicate 512 9)]] tiny_disk_ok tiny_txns_ok) as (κ1 & κ2 & H1 & H2 & _).
  exists κ1, κ2. exact (conj H1 H2).
Defined.
