(* ===== verification/Str.v ===== *)
(** The memory and string routines of string.c (kernel) and ulib.c (user), with
    the specifications their callers rely on. *)
From S2P Require Import Prelude.

(** ** Data

    Routines that store through a pointer that may overlap their source work on
    a memory from addresses to bytes. A [const char *] that is only read is the
    list of bytes it points at; what follows the list is the terminating NUL. *)
Abbreviation mem := (Z -> Z) (only parsing).

Definition chr (p : list Z) : Z := match p with c :: _ => c | [] => 0 end.

(** The bytes of a string literal. *)
Definition lit (s : string) : list Z := (fun a => Z.of_N (Ascii.N_of_ascii a)) <$> String.list_ascii_of_string s.

(** ** string.c *)

(** [stosb]: [rep stosb] of x86.h *)
Fixpoint stosb (m : mem) (a v : Z) (n : nat) : mem :=
  match n with O => m | S n' => stosb (<[a := u8 v]> m) (a + 1) v n' end.

(** Store the 32-bit word [v] at [a], low byte first. *)
Definition store32 (m : mem) (a v : Z) : mem :=
  <[a + 3 := u8 (v / 16777216)]> (<[a + 2 := u8 (v / 65536)]> (<[a + 1 := u8 (v / 256)]> (<[a := u8 v]> m))).

(** [stosl]: [rep stosl] of x86.h *)
Fixpoint stosl (m : mem) (a v : Z) (n : nat) : mem :=
  match n with O => m | S n' => stosl (store32 m a v) (a + 4) v n' end.

Definition memset (m : mem) (dst c n : Z) : mem :=
  if (dst `mod` 4 =? 0) && (n `mod` 4 =? 0) then
    let c := Z.land c 255 in
    stosl m dst (Z.lor (Z.lor (Z.lor (Z.shiftl c 24) (Z.shiftl c 16)) (Z.shiftl c 8)) c) (Z.to_nat (n / 4))
  else stosb m dst c (Z.to_nat n).

Fixpoint memcmp (s1 s2 : list Z) (n : nat) : Z :=
  match n with
  | O => 0
  | S n' => if negb (chr s1 =? chr s2) then chr s1 - chr s2 else memcmp (tail s1) (tail s2) n'
  end.

(** The two copying loops of [memmove]; the backward one starts past the end. *)
Fixpoint copy_up (m : mem) (d s : Z) (n : nat) : mem :=
  match n with O => m | S n' => copy_up (<[d := m s]> m) (d + 1) (s + 1) n' end.
Fixpoint copy_down (m : mem) (d s : Z) (n : nat) : mem :=
  match n with O => m | S n' => copy_down (<[d - 1 := m (s - 1)]> m) (d - 1) (s - 1) n' end.

Definition memmove (m : mem) (dst src n : Z) : mem :=
  if (src <? dst) && (dst <? src + n) then copy_down m (dst + n) (src + n) (Z.to_nat n)
  else copy_up m dst src (Z.to_nat n).

Fixpoint strncmp (p q : list Z) (n : nat) : Z :=
  match n with
  | O => 0
  | S n' => if negb (chr p =? 0) && (chr p =? chr q) then strncmp (tail p) (tail q) n' else chr p - chr q
  end.

(** The [n] bytes [strncpy] stores at its destination. *)
Fixpoint strncpy (t : list Z) (n : nat) : list Z :=
  match n with
  | O => []
  | S n' => if chr t =? 0 then replicate n 0 else chr t :: strncpy (tail t) n'
  end.

(** The bytes [safestrcpy] stores at its destination. *)
Fixpoint safestrcpy_loop (t : list Z) (n : nat) : list Z :=
  match n with
  | O => [0]
  | S n' => if chr t =? 0 then [0; 0] else chr t :: safestrcpy_loop (tail t) n'
  end.
Definition safestrcpy (t : list Z) (n : Z) : list Z :=
  if n <=? 0 then [] else safestrcpy_loop t (Z.to_nat (n - 1)).

Fixpoint strlen (s : list Z) : Z :=
  match s with
  | [] => 0
  | c :: s' => if c =? 0 then 0 else 1 + strlen s'
  end.

(** ** ulib.c *)

(** [strcpy] has no bound of its own: [fuel] is a bound on the length of [t]. *)
Fixpoint strcpy (m : mem) (s t : Z) (fuel : nat) : option mem :=
  match fuel with
  | O => None
  | S fuel' => let m' := <[s := m t]> m in if m t =? 0 then Some m' else strcpy m' (s + 1) (t + 1) fuel'
  end.

Fixpoint strcmp (p q : list Z) : Z :=
  match p with
  | [] => 0 - chr q
  | c :: p' => if negb (c =? 0) && (c =? chr q) then strcmp p' (tail q) else c - chr q
  end.

(** The suffix of [s] that starts at the first [c]. *)
Fixpoint strchr (s : list Z) (c : Z) : option (list Z) :=
  match s with
  | [] => None
  | x :: s' => if x =? 0 then None else if x =? c then Some s else strchr s' c
  end.

Definition is_digit (c : Z) : bool := (48 <=? c) && (c <=? 57).

Fixpoint atoi_loop (s : list Z) (n : Z) : Z :=
  match s with
  | [] => n
  | c :: s' => if is_digit c then atoi_loop s' (s32 (n * 10 + c - 48)) else n
  end.
Definition atoi (s : list Z) : Z := atoi_loop s 0.

(** [memmove] of ulib.c always copies upwards. *)
Definition umemmove (m : mem) (dst src n : Z) : mem := copy_up m dst src (Z.to_nat n).

(** [gets] on standard input [inp]: the bytes stored, the NUL included, and the
    input left. [room] is [max - 1 - i]. *)
Fixpoint gets_loop (inp : list Z) (room : nat) : list Z * list Z :=
  match room, inp with
  | O, _ => ([0], inp)
  | S _, [] => ([0], [])
  | S room', c :: inp' =>
    if (c =? 10) || (c =? 13) then ([c; 0], inp')
    else let '(l, rest) := gets_loop inp' room' in (c :: l, rest)
  end.
Definition ugets (inp : list Z) (max : Z) : list Z * list Z := gets_loop inp (Z.to_nat (max - 1)).

(** ** Memory *)

Lemma stosb_spec m a v n x :
  stosb m a v n x = if decide (a <= x < a + Z.of_nat n) then u8 v else m x.
Proof.
  revert m a; induction n as [|n IH]; intros m a; cbn [stosb].
  { by rewrite decide_False by lia. }
  rewrite IH. repeat case_decide; try done; try lia.
  - replace x with a by lia. by rewrite fn_lookup_insert.
  - by rewrite fn_lookup_insert_ne by lia.
Qed.

Definition repeat4 (c : Z) : Z := Z.lor (Z.lor (Z.lor (Z.shiftl c 24) (Z.shiftl c 16)) (Z.shiftl c 8)) c.

Lemma repeat4_bytes c : 0 <= c < 256 ->
  u8 (repeat4 c) = c /\ u8 (repeat4 c / 256) = c /\ u8 (repeat4 c / 65536) = c /\ u8 (repeat4 c / 16777216) = c.
Proof.
  intros Hc. assert (Forall (fun c => u8 (repeat4 c) = c /\ u8 (repeat4 c / 256) = c /\
    u8 (repeat4 c / 65536) = c /\ u8 (repeat4 c / 16777216) = c) (zrange 0 256)) as H by by_evaluation.
  rewrite Forall_forall in H. apply H. unfold zrange. apply elem_of_seqZ. lia.
Qed.

Lemma store32_bytes m a c x : 0 <= c < 256 ->
  store32 m a (repeat4 c) x = if decide (a <= x < a + 4) then c else m x.
Proof.
  intros Hc. unfold store32. destruct (repeat4_bytes c Hc) as (-> & -> & -> & ->). case_decide.
  - assert (x = a + 3 \/ x = a + 2 \/ x = a + 1 \/ x = a) as [-> |[-> |[-> | -> ]]] by lia;
      rewrite ?fn_lookup_insert_ne by lia; by rewrite fn_lookup_insert.
  - by rewrite !fn_lookup_insert_ne by lia.
Qed.

Lemma stosl_spec m a c n x : 0 <= c < 256 ->
  stosl m a (repeat4 c) n x =
  if decide (a <= x < a + 4 * Z.of_nat n) then c else m x.
Proof.
  intros Hc. revert m a; induction n as [|n IH]; intros m a; cbn [stosl].
  { by rewrite decide_False by lia. }
  rewrite IH, store32_bytes by done. repeat case_decide; lia || done.
Qed.

Lemma copy_up_spec m d s n x : d <= s \/ s + Z.of_nat n <= d ->
  copy_up m d s n x = if decide (d <= x < d + Z.of_nat n) then m (s + (x - d)) else m x.
Proof.
  revert m d s; induction n as [|n IH]; intros m d s H; cbn [copy_up].
  { by rewrite decide_False by lia. }
  rewrite IH by lia. repeat case_decide; try lia.
  - rewrite fn_lookup_insert_ne by lia. f_equal. lia.
  - replace x with d by lia. rewrite fn_lookup_insert. f_equal. lia.
  - by rewrite fn_lookup_insert_ne by lia.
Qed.

Lemma copy_down_spec m d s n x : s <= d ->
  copy_down m d s n x = if decide (d - Z.of_nat n <= x < d) then m (s - (d - x)) else m x.
Proof.
  revert m d s; induction n as [|n IH]; intros m d s H; cbn [copy_down].
  { by rewrite decide_False by lia. }
  rewrite IH by lia. repeat case_decide; try lia.
  - rewrite fn_lookup_insert_ne by lia. f_equal. lia.
  - replace x with (d - 1) by lia. rewrite fn_lookup_insert. f_equal. lia.
  - by rewrite fn_lookup_insert_ne by lia.
Qed.

(** ** Strings *)

Lemma strncpy_length t n : length (strncpy t n) = n.
Proof.
  revert t; induction n as [|n IH]; intros t; [done|]. cbn [strncpy].
  destruct (chr t =? 0); [apply length_replicate|]. simpl. by rewrite IH.
Qed.

Lemma strncpy_zero n : strncpy [] n = replicate n 0.
Proof. by destruct n. Qed.

(** [strncpy] computes a normal form of names for [strncmp]. *)
Lemma strncmp_strncpy p q n : strncmp p q n = 0 <-> strncpy p n = strncpy q n.
Proof.
  revert p q; induction n as [|n IH]; intros p q; [done|]. cbn [strncmp strncpy].
  destruct (Z.eqb_spec (chr p) 0) as [Ep|Np]; simpl.
  - rewrite Ep. destruct (Z.eqb_spec (chr q) 0) as [Eq|Nq]; [rewrite Eq; done|].
    split; [lia|]. intros [=]. congruence.
  - destruct (Z.eqb_spec (chr p) (chr q)) as [E|N]; simpl.
    + rewrite IH, E. destruct (Z.eqb_spec (chr q) 0); [lia|]. split; [congruence|]. by intros [=].
    + destruct (Z.eqb_spec (chr q) 0); (split; [lia|intros [=]; lia]).
Qed.

Lemma chr_strncpy t n : chr (strncpy t (S n)) = chr t.
Proof. cbn [strncpy]. by destruct (Z.eqb_spec (chr t) 0) as [->|]. Qed.

Lemma tail_strncpy t n : chr t <> 0 -> tail (strncpy t (S n)) = strncpy (tail t) n.
Proof. intros H. cbn [strncpy]. by destruct (Z.eqb_spec (chr t) 0). Qed.

Lemma strncpy_idem t n : strncpy (strncpy t n) n = strncpy t n.
Proof.
  revert t; induction n as [|n IH]; intros t; [done|]. cbn [strncpy]. fold (strncpy t (S n)).
  destruct (Z.eqb_spec (chr t) 0) as [E|N].
  - simpl. done.
  - change (chr (chr t :: strncpy (tail t) n)) with (chr t). cbn [tail].
    destruct (Z.eqb_spec (chr t) 0); [done|]. by rewrite IH.
Qed.

Lemma strlen_no_nul s : Forall (fun c => c <> 0) s -> strlen s = Z.of_nat (length s).
Proof. induction 1 as [|c s Hc Hs IH]; [done|]. cbn [strlen length]. destruct (Z.eqb_spec c 0); [done|]. lia. Qed.

(** The part of [t] before its terminating NUL. *)
Definition cstr (t : list Z) : list Z := take (Z.to_nat (strlen t)) t.

Lemma strlen_nonneg s : 0 <= strlen s.
Proof. induction s as [|c s IH]; cbn [strlen]; [lia|]. destruct (c =? 0); lia. Qed.

Lemma cstr_cons c s : cstr (c :: s) = if c =? 0 then [] else c :: cstr s.
Proof.
  unfold cstr. cbn [strlen]. destruct (Z.eqb_spec c 0); [done|]. pose proof (strlen_nonneg s).
  replace (Z.to_nat (1 + strlen s)) with (S (Z.to_nat (strlen s))) by lia. done.
Qed.

Lemma safestrcpy_loop_spec t n :
  (length (safestrcpy_loop t n) <= S n)%nat /\ cstr (safestrcpy_loop t n) = take n (cstr t) /\
  last (safestrcpy_loop t n) = Some 0.
Proof.
  revert t; induction n as [|n IH]; intros t; cbn [safestrcpy_loop]; [done|].
  destruct t as [|c t]; [simpl; split; [lia|done]|]. cbn [chr tail].
  rewrite cstr_cons. destruct (Z.eqb_spec c 0) as [->|N]; [simpl; split; [lia|done]|].
  destruct (IH t) as (H1 & H2 & H3). rewrite cstr_cons. destruct (Z.eqb_spec c 0); [done|].
  split_and!; [simpl; lia|by rewrite H2|]. destruct (safestrcpy_loop t n); [done|]. exact H3.
Qed.

Lemma memcmp_zero s1 s2 n : (n <= length s1)%nat -> (n <= length s2)%nat ->
  memcmp s1 s2 n = 0 <-> take n s1 = take n s2.
Proof.
  revert s1 s2; induction n as [|n IH]; intros s1 s2 H1 H2; [done|]. cbn [memcmp].
  destruct s1 as [|a s1], s2 as [|b s2]; simpl in H1, H2; try lia. cbn [chr tail].
  destruct (Z.eqb_spec a b) as [->|N]; simpl.
  - rewrite IH by lia. split; [congruence|]. by intros [= ->].
  - split; [lia|]. by intros [= ? ?].
Qed.

Lemma strcmp_zero p q : strcmp p q = 0 <-> cstr p = cstr q.
Proof.
  revert q; induction p as [|c p IH]; intros q; cbn [strcmp].
  - destruct q as [|d q]; [done|]. rewrite cstr_cons. cbn.
    destruct (Z.eqb_spec d 0) as [->|]; [done|]. split; [lia|done].
  - rewrite cstr_cons. destruct q as [|d q]; cbn [chr tail].
    + destruct (Z.eqb_spec c 0) as [->|N]; simpl; [done|].
      destruct (Z.eqb_spec c 0); [done|]. simpl. split; [lia|done].
    + rewrite cstr_cons. destruct (Z.eqb_spec c 0) as [->|N]; simpl.
      * destruct (Z.eqb_spec d 0) as [->|]; [done|]. split; [lia|done].
      * destruct (Z.eqb_spec c d) as [->|Ncd]; simpl.
        -- destruct (Z.eqb_spec d 0); [done|]. rewrite IH. split; [congruence|]. by intros [= ->].
        -- destruct (Z.eqb_spec d 0); (split; [lia|]; intros [=]; lia).
Qed.

(** [strcpy] copies up to and including the NUL when [t] does not overlap the
    bytes being overwritten. *)
Lemma strcpy_spec m s t l fuel : (length l < fuel)%nat -> s <= t \/ t + Z.of_nat (length l) < s ->
  (forall i c, l !! i = Some c -> m (t + Z.of_nat i) = c /\ c <> 0) -> m (t + Z.of_nat (length l)) = 0 ->
  exists m', strcpy m s t fuel = Some m' /\
    forall x, m' x = if decide (s <= x < s + Z.of_nat (length l) + 1) then m (t + (x - s)) else m x.
Proof.
  revert m s t l; induction fuel as [|fuel IH]; intros m s t l Hf Hov Hl Hz; [lia|]. cbn [strcpy].
  destruct l as [|c l].
  - cbn [length] in *. rewrite Z.add_0_r in Hz. rewrite Hz. eexists. split; [done|]. intros x.
    case_decide.
    + replace x with s by lia. rewrite fn_lookup_insert, Z.sub_diag, Z.add_0_r. done.
    + by rewrite fn_lookup_insert_ne by lia.
  - destruct (Hl 0%nat c eq_refl) as [Ec Nc]. rewrite Z.add_0_r in Ec. rewrite Ec.
    destruct (Z.eqb_spec c 0); [done|]. cbn [length] in *.
    destruct (IH (<[s := c]> m) (s + 1) (t + 1) l) as (m' & E & Hm'); try lia.
    + intros i d Hi. specialize (Hl (S i) d Hi). rewrite fn_lookup_insert_ne by (apply lookup_lt_Some in Hi; lia).
      by replace (t + 1 + Z.of_nat i) with (t + Z.of_nat (S i)) by lia.
    + rewrite fn_lookup_insert_ne by lia. by replace (t + 1 + Z.of_nat (length l)) with (t + Z.of_nat (S (length l))) by lia.
    + exists m'. split; [done|]. intros x. rewrite Hm'. repeat case_decide; try lia.
      * rewrite fn_lookup_insert_ne by lia. f_equal. lia.
      * replace x with s by lia. rewrite fn_lookup_insert, Z.sub_diag, Z.add_0_r. done.
      * by rewrite fn_lookup_insert_ne by lia.
Qed.

(** ** Theorems *)

(** The kernel's [memmove] copies the [n] bytes at [src] as they were before
    the call, whatever the overlap, and changes nothing else. *)
Theorem memmove_correct m dst src n x : 0 <= n ->
  memmove m dst src n x = if decide (dst <= x < dst + n) then m (src + (x - dst)) else m x.
Proof.
  intros Hn. unfold memmove. destruct ((src <? dst) && (dst <? src + n)) eqn:E.
  - apply andb_true_iff in E as [?%Z.ltb_lt ?%Z.ltb_lt].
    rewrite copy_down_spec by lia. repeat case_decide; try lia; f_equal; lia.
  - rewrite copy_up_spec by (destruct (Z.ltb_spec src dst), (Z.ltb_spec dst (src + n)); simpl in E; lia || done).
    rewrite Z2Nat.id by done. done.
Qed.

Lemma memmove_correct_witness :
  let m := fun a => a * 3 in
  memmove m 102 100 5 104 = 306 /\ memmove m 98 100 5 100 = 306.
Proof.
  split; [rewrite (memmove_correct _ 102 100 5 104)|rewrite (memmove_correct _ 98 100 5 100)]; done.
Defined.

(** [memset] stores the low byte of [c] in the [n] bytes at [dst] and nowhere
    else; the word-at-a-time path agrees with the byte-at-a-time one. *)
Theorem memset_correct m dst c n x : 0 <= n ->
  memset m dst c n x = if decide (dst <= x < dst + n) then u8 c else m x.
Proof.
  intros Hn. unfold memset. destruct ((dst `mod` 4 =? 0) && (n `mod` 4 =? 0)) eqn:E.
  - apply andb_true_iff in E as [_ E%Z.eqb_eq]. cbv zeta.
    assert (Z.land c 255 = u8 c) as -> by (change 255 with (Z.ones 8); by rewrite Z.land_ones).
    fold (repeat4 (u8 c)). rewrite stosl_spec by apply u8_range.
    rewrite Z2Nat.id by (apply Z.div_pos; lia).
    assert (4 * (n / 4) = n) as -> by (pose proof (Z.div_mod n 4); lia). done.
  - rewrite stosb_spec, Z2Nat.id by done. done.
Qed.

Lemma memset_correct_witness :
  memset (fun _ => 7) 4096 261 8 4100 = 5 /\ memset (fun _ => 7) 4097 261 8 4100 = 5.
Proof.
  split; [rewrite (memset_correct _ 4096 261 8 4100)|rewrite (memset_correct _ 4097 261 8 4100)]; done.
Defined.

(** [memmove] of ulib.c, which always copies upwards, is wrong when the
    destination starts inside the source. *)
Theorem umemmove_overlap : exists m dst src n x, 0 <= n /\ dst <= x < dst + n /\
  umemmove m dst src n x <> m (src + (x - dst)).
Proof. exists (fun a => a), 1, 0, 3, 2. split_and!; try lia. done. Qed.

(** [safestrcpy] writes at most [n] bytes, always NUL-terminates, and the
    string stored is the longest prefix of the source that fits. *)
Theorem safestrcpy_safe t n : 0 < n ->
  Z.of_nat (length (safestrcpy t n)) <= n /\ last (safestrcpy t n) = Some 0 /\
  cstr (safestrcpy t n) = take (Z.to_nat (n - 1)) (cstr t).
Proof.
  intros Hn. unfold safestrcpy. destruct (Z.leb_spec n 0); [lia|].
  destruct (safestrcpy_loop_spec t (Z.to_nat (n - 1))) as (? & ? & ?). split_and!; try done. lia.
Qed.

Lemma safestrcpy_safe_witness : last (safestrcpy [105; 110; 105; 116; 99; 111; 100; 101] 4) = Some 0 /\
  cstr (safestrcpy [105; 110; 105; 116; 99; 111; 100; 101] 4) = [105; 110; 105].
Proof. destruct (safestrcpy_safe [105; 110; 105; 116; 99; 111; 100; 101] 4 ltac:(lia)) as (_ & H & E). split; [exact H|exact E]. Defined.
