(* ===== verification/Fs.v ===== *)
(** The file system of fs.c: block and inode allocation, the inode cache, the
    contents of files with their checksums and ditto replicas, directories and
    path names. The device switch is a parameter. *)
From S2P Require Import Prelude Bio Log Str.

(** ** Data *)

(** param.h, fs.h, stat.h, file.h *)
Definition NINODE : Z := 100.
Definition NDEV : Z := 10.
Definition ROOTINO : Z := 1.
Definition NDIRECT : Z := 10.
Definition NINDIRECT : Z := BSIZE / 4.
Definition MAXFILE : Z := NDIRECT + NINDIRECT.
Definition IPB : Z := BSIZE / 64.
Definition IBLOCK (i : Z) : Z := i / IPB + 2.
Definition BPB : Z := BSIZE * 8.
Definition BBLOCK (b ninodes : Z) : Z := b / BPB + ninodes / IPB + 3.
Definition DIRSIZ : Z := 14.
Definition E_CORRUPTED : Z := -10.
Definition T_DIR : Z := 1.
Definition T_FILE : Z := 2.
Definition T_DEV : Z := 3.
Definition T_DITTO : Z := 4.
Definition I_BUSY : Z := 1.
Definition I_VALID : Z := 2.

(** struct dinode: the fields are at byte offsets 0, 2, 4, 6, 8, 12, 56, 58, 60. *)
Record dinode := Dinode {
  di_type : Z; di_major : Z; di_minor : Z; di_nlink : Z; di_size : Z;
  di_addrs : list Z; di_child1 : Z; di_child2 : Z; di_checksum : Z
}.

Definition words (d : block) (o : Z) (n : nat) : list Z :=
  (fun k => get32 d (o + 4 * Z.of_nat k)) <$> seq 0 n.

Definition get_dinode (d : block) (o : Z) : dinode :=
  Dinode (s16 (get16 d o)) (s16 (get16 d (o + 2))) (s16 (get16 d (o + 4))) (s16 (get16 d (o + 6)))
    (get32 d (o + 8)) (words d (o + 12) 11) (s16 (get16 d (o + 56))) (s16 (get16 d (o + 58))) (get32 d (o + 60)).

Definition put_addrs (d : block) (o : Z) (a : list Z) : block := splice d o (a ≫= le_enc 4).

(** struct inode: the reference and lock state, and the copy of the disk inode. *)
Record inode := Inode { i_dev : Z; i_inum : Z; i_ref : Z; i_flags : Z; i_d : dinode }.

Definition i_type ip := di_type (i_d ip).
Definition i_major ip := di_major (i_d ip).
Definition i_nlink ip := di_nlink (i_d ip).
Definition i_size ip := di_size (i_d ip).
Definition i_addrs ip := di_addrs (i_d ip).
Definition i_child1 ip := di_child1 (i_d ip).
Definition i_child2 ip := di_child2 (i_d ip).
Definition i_checksum ip := di_checksum (i_d ip).

Definition upd_flags (f : Z -> Z) (ip : inode) : inode :=
  Inode (i_dev ip) (i_inum ip) (i_ref ip) (f (i_flags ip)) (i_d ip).
Definition upd_ref (f : Z -> Z) (ip : inode) : inode :=
  Inode (i_dev ip) (i_inum ip) (f (i_ref ip)) (i_flags ip) (i_d ip).
Definition upd_d (f : dinode -> dinode) (ip : inode) : inode :=
  Inode (i_dev ip) (i_inum ip) (i_ref ip) (i_flags ip) (f (i_d ip)).

Definition with_type (t : Z) (d : dinode) : dinode :=
  Dinode t (di_major d) (di_minor d) (di_nlink d) (di_size d) (di_addrs d) (di_child1 d) (di_child2 d) (di_checksum d).
Definition with_nlink (n : Z) (d : dinode) : dinode :=
  Dinode (di_type d) (di_major d) (di_minor d) n (di_size d) (di_addrs d) (di_child1 d) (di_child2 d) (di_checksum d).
Definition with_size (n : Z) (d : dinode) : dinode :=
  Dinode (di_type d) (di_major d) (di_minor d) (di_nlink d) n (di_addrs d) (di_child1 d) (di_child2 d) (di_checksum d).
Definition with_addr (k a : Z) (d : dinode) : dinode :=
  Dinode (di_type d) (di_major d) (di_minor d) (di_nlink d) (di_size d) (<[Z.to_nat k := a]> (di_addrs d))
    (di_child1 d) (di_child2 d) (di_checksum d).
Definition with_checksum (c : Z) (d : dinode) : dinode :=
  Dinode (di_type d) (di_major d) (di_minor d) (di_nlink d) (di_size d) (di_addrs d) (di_child1 d) (di_child2 d) c.

(** The log and block layer, [icache.inode], and the [cwd] of the running process. *)
Record fs := Fs { f_log : lst; f_icache : list inode; f_cwd : option nat }.

Definition set_log (κ : lst) (φ : fs) : fs := Fs κ (f_icache φ) (f_cwd φ).
Definition set_icache (l : list inode) (φ : fs) : fs := Fs (f_log φ) l (f_cwd φ).
Definition set_cwd (c : option nat) (φ : fs) : fs := Fs (f_log φ) (f_icache φ) c.

Definition lg {A} (m : K lst A) : K fs A := zoom f_log set_log m.
Definition bk {A} (m : K bio A) : K fs A := lg (blk m).

(** Change the [data] of a held buffer. *)
Definition bupd (bp : nat) (f : block -> block) : K fs unit :=
  let! d := bk (bdata bp) in bk (bset bp (f d)).

(** A [struct inode *]: an entry of the inode cache, or null. *)
Definition iptr := option nat.

Definition geti (p : iptr) : K fs inode :=
  match p with
  | None => undef "null inode pointer"
  | Some i => let! φ := get in lift_opt "inode pointer" (f_icache φ !! i)
  end.
Definition updi (p : iptr) (f : inode -> inode) : K fs unit :=
  match p with
  | None => undef "null inode pointer"
  | Some i => let! ip := geti p in modify (fun φ => set_icache (<[i := f ip]> (f_icache φ)) φ)
  end.

(** Byte [i] of a block. *)
Definition byte_at (d : block) (i : Z) : Z := default 0 (d !! Z.to_nat i).

(** ** Blocks *)

Definition bzero (dev bno : Z) : K fs unit :=
  let! bp := bk (bread dev bno) in
  bk (bset bp zblock);;;
  lg (log_write bp);;;
  bk (brelse bp).

Definition bit_mask (bi : Z) : Z := Z.shiftl 1 (bi `mod` 8).
Definition bit_free (d : block) (bi : Z) : bool := Z.land (byte_at d (bi / 8)) (bit_mask bi) =? 0.
Definition mark_used (bi : Z) (d : block) : block :=
  <[Z.to_nat (bi / 8) := Z.lor (byte_at d (bi / 8)) (bit_mask bi)]> d.
Definition mark_free (bi : Z) (d : block) : block :=
  <[Z.to_nat (bi / 8) := Z.land (byte_at d (bi / 8)) (Z.lnot (bit_mask bi))]> d.

(** The inner loop of [balloc]: the first free bit of the list [bis]. *)
Fixpoint first_free (d : block) (bis : list Z) : option Z :=
  match bis with
  | [] => None
  | bi :: rest => if bit_free d bi then Some bi else first_free d rest
  end.

Fixpoint balloc_from (dev : Z) (sb : superblock) (bs : list Z) : K fs Z :=
  match bs with
  | [] => panic "balloc: out of blocks"
  | b :: rest =>
    let! bp := bk (bread dev (BBLOCK b (sb_ninodes sb))) in
    let! d := bk (bdata bp) in
    match first_free d (zrange 0 (Z.min BPB (sb_size sb - b))) with
    | Some bi =>
      bupd bp (mark_used bi);;;
      lg (log_write bp);;;
      bk (brelse bp);;;
      bzero dev (b + bi);;;
      ret (b + bi)
    | None => bk (brelse bp);;; balloc_from dev sb rest
    end
  end.

(** The values [0, BPB, 2*BPB, ...] below [size] of the outer loop. *)
Definition bitmap_starts (size : Z) : list Z :=
  (fun k => k * BPB) <$> zrange 0 ((size + BPB - 1) / BPB).

Definition balloc (dev : Z) : K fs Z :=
  let! sb := bk (readsb dev) in
  balloc_from dev sb (bitmap_starts (sb_size sb)).

Definition bfree (dev b : Z) : K fs unit :=
  let! sb := bk (readsb dev) in
  let! bp := bk (bread dev (BBLOCK b (sb_ninodes sb))) in
  let bi := b `mod` BPB in
  let! d := bk (bdata bp) in
  if bit_free d bi then panic "freeing free block"
  else bupd bp (mark_free bi);;;
  lg (log_write bp);;;
  bk (brelse bp).

(** ** The inode cache *)

Definition iget (dev inum : Z) : K fs iptr :=
  let! φ := get in
  match index_of (fun ip => (0 <? i_ref ip) && (i_dev ip =? dev) && (i_inum ip =? inum)) (f_icache φ) with
  | Some i => updi (Some i) (upd_ref (fun r => r + 1));;; ret (Some i)
  | None =>
    match index_of (fun ip => i_ref ip =? 0) (f_icache φ) with
    | Some i => updi (Some i) (fun ip => Inode dev inum 1 0 (i_d ip));;; ret (Some i)
    | None => panic "iget: no inodes"
    end
  end.

Definition idup (p : iptr) : K fs iptr :=
  updi p (upd_ref (fun r => r + 1));;; ret p.

Definition iunlock (p : iptr) : K fs unit :=
  match p with
  | None => panic "iunlock"
  | Some _ =>
    let! ip := geti p in
    if negb (flag (i_flags ip) I_BUSY) || (i_ref ip <? 1) then panic "iunlock"
    else updi p (upd_flags (fun f => flag_clr f I_BUSY))
  end.

Definition dinode_off (inum : Z) : Z := 64 * (inum `mod` IPB).

Fixpoint ialloc_from (dev type : Z) (inums : list Z) : K fs iptr :=
  match inums with
  | [] => panic "ialloc: no inodes"
  | inum :: rest =>
    let! bp := bk (bread dev (IBLOCK inum)) in
    let! d := bk (bdata bp) in
    let o := dinode_off inum in
    if s16 (get16 d o) =? 0 then
      bupd bp (fun d => put16 (splice d o (replicate 64 0)) o type);;;
      lg (log_write bp);;;
      bk (brelse bp);;;
      iget dev inum
    else bk (brelse bp);;; ialloc_from dev type rest
  end.

Definition ialloc (dev type : Z) : K fs iptr :=
  let! sb := bk (readsb dev) in
  ialloc_from dev type (zrange 1 (sb_ninodes sb)).

(** ** Contents *)

Definition bmap (p : iptr) (bn : Z) : K fs Z :=
  let! ip := geti p in
  if bn <? NDIRECT then
    let! addr := lift_opt "ip->addrs index" (i_addrs ip !! Z.to_nat bn) in
    if addr =? 0 then
      let! addr := balloc (i_dev ip) in
      updi p (upd_d (with_addr bn addr));;; ret addr
    else ret addr
  else
  let bn := bn - NDIRECT in
  if bn <? NINDIRECT then
    let! addr := lift_opt "ip->addrs index" (i_addrs ip !! Z.to_nat NDIRECT) in
    let! addr :=
      (if addr =? 0 then
         let! addr := balloc (i_dev ip) in
         updi p (upd_d (with_addr NDIRECT addr));;; ret addr
       else ret addr) in
    let! bp := bk (bread (i_dev ip) addr) in
    let! a := bk (bdata bp) in
    let! addr :=
      (if get32 a (4 * bn) =? 0 then
         let! addr := balloc (i_dev ip) in
         bupd bp (fun a => put32 a (4 * bn) addr);;;
         lg (log_write bp);;; ret addr
       else ret (get32 a (4 * bn))) in
    bk (brelse bp);;;
    ret addr
  else panic "bmap: out of range".

(** [read] and [write] of an entry of [devsw]. *)
Record devsw_t := Devsw {
  dev_read : option (iptr -> Z -> K fs (Z * list Z));
  dev_write : option (iptr -> list Z -> Z -> K fs Z)
}.

Section devices.
Context (devsw : Z -> devsw_t).

(** The loop of [readi]; [acc] is what has been stored at [dst]. *)
Fixpoint readi_loop (fuel : nat) (p : iptr) (off n tot : Z) (acc : list Z) : K fs (list Z) :=
  match fuel with
  | O => nofuel
  | S fuel' =>
    if tot <? n then
      let! ip := geti p in
      let! addr := bmap p (off / BSIZE) in
      let! bp := bk (bread (i_dev ip) addr) in
      let m := Z.min (n - tot) (BSIZE - off `mod` BSIZE) in
      let! d := bk (bdata bp) in
      bk (brelse bp);;;
      readi_loop fuel' p (u32 (off + m)) n (tot + m) (acc ++ slice d (off `mod` BSIZE) m)
    else ret acc
  end.

Definition loop_bound (n : Z) : nat := Z.to_nat (n / BSIZE + 3).

(** The value returned and the bytes stored at [dst]. *)
Definition readi (p : iptr) (off n : Z) : K fs (Z * list Z) :=
  let! ip := geti p in
  if i_type ip =? T_DEV then
    if (i_major ip <? 0) || (NDEV <=? i_major ip) then ret (-1, [])
    else match dev_read (devsw (i_major ip)) with
         | None => ret (-1, [])
         | Some read => read p (s32 n)
         end
  else if (i_size ip <? off) || (u32 (off + n) <? off) then ret (-1, [])
  else
  let n := if i_size ip <? u32 (off + n) then i_size ip - off else n in
  let! l := readi_loop (loop_bound n) p off n 0 [] in
  ret (s32 n, l).

(** The exclusive or of the [n] 32-bit words at the start of [d]. *)
Definition xor_words (d : list Z) (n : nat) : Z := foldr Z.lxor 0 (words d 0 n).

(** [buf] is zeroed and then filled by [readi]. *)
Definition fill (n : nat) (l : list Z) : list Z := take n (l ++ replicate n 0).

Fixpoint ichecksum_loop (fuel : nat) (p : iptr) (off checksum : Z) : K fs Z :=
  match fuel with
  | O => nofuel
  | S fuel' =>
    let! rl := readi p off 2048 in
    let r := u32 rl.1 in
    if 0 <? r then
      ichecksum_loop fuel' p (u32 (off + r)) (Z.lxor checksum (xor_words (fill 2048 rl.2) 512))
    else ret checksum
  end.

Definition ichecksum (p : iptr) : K fs Z :=
  let! ip := geti p in
  if i_type ip =? T_DEV then ret 0
  else ichecksum_loop (Z.to_nat (i_size ip / 2048 + 3)) p 0 0.

(** ** Locking and verifying an inode *)

Definition load_inode (p : iptr) : K fs unit :=
  let! ip := geti p in
  let! bp := bk (bread (i_dev ip) (IBLOCK (i_inum ip))) in
  let! d := bk (bdata bp) in
  updi p (upd_d (fun _ => get_dinode d (dinode_off (i_inum ip))));;;
  bk (brelse bp).

(** zc_success *)
Definition zc_success (p : iptr) : K fs Z :=
  updi p (upd_flags (fun f => flag_set f I_VALID));;;
  let! ip := geti p in
  if i_type ip =? 0 then panic "ilock: no type" else ret 0.

(** zc_verify, with [replicas] the children still to be tried and [ilock] the
    recursive call on a replica. *)
Fixpoint zc_verify (ilock : iptr -> K fs Z) (p : iptr) (replicas : list (inode -> Z)) : K fs Z :=
  let! c := ichecksum p in
  let! ip := geti p in
  if c =? i_checksum ip then zc_success p
  else match replicas with
  | [] => iunlock p;;; ret E_CORRUPTED
  | child :: rest =>
    let rinum := u16 (child ip) in
    if rinum =? 0 then iunlock p;;; ret E_CORRUPTED
    else
    let! rinode := iget (i_dev ip) rinum in
    let! r := ilock rinode in
    if r =? 0 then iunlock rinode;;; iunlock p;;; ret rinum
    else zc_verify ilock p rest
  end.

(** [ilock_ext] calls itself on replicas; every level holds one more inode of the
    cache locked, so [NINODE + 1] levels are enough. *)
Fixpoint ilock_rec (fuel : nat) (p : iptr) (checksum : bool) : K fs Z :=
  match fuel with
  | O => nofuel
  | S fuel' =>
    match p with
    | None => panic "ilock"
    | Some _ =>
      let! ip := geti p in
      if i_ref ip <? 1 then panic "ilock"
      else if flag (i_flags ip) I_BUSY then sleeps
      else
      updi p (upd_flags (fun f => flag_set f I_BUSY));;;
      if flag (i_flags ip) I_VALID then ret 0
      else
      load_inode p;;;
      if negb checksum then zc_success p
      else zc_verify (fun q => ilock_rec fuel' q true) p [i_child1; i_child2]
    end
  end.

Definition ilock_ext (p : iptr) (checksum : bool) : K fs Z := ilock_rec (S (Z.to_nat NINODE)) p checksum.
Definition ilock (p : iptr) : K fs Z := ilock_ext p true.

(** ** Writing inodes back *)

(** The fields [iupdate_ext] copies before and after computing the checksum. *)
Definition put_head (o : Z) (di : dinode) (d : block) : block :=
  let d := put16 d o (di_type di) in
  let d := put16 d (o + 2) (di_major di) in
  let d := put16 d (o + 4) (di_minor di) in
  let d := put16 d (o + 6) (di_nlink di) in
  let d := put32 d (o + 8) (di_size di) in
  let d := put16 d (o + 56) (di_child1 di) in
  put16 d (o + 58) (di_child2 di).
Definition put_tail (o : Z) (di : dinode) (d : block) : block :=
  put_addrs (put32 d (o + 60) (di_checksum di)) (o + 12) (di_addrs di).

Definition cupdate (p c : iptr) : K fs unit :=
  ilock_ext c false;;;
  let! ic := geti c in
  if negb (i_type ic =? T_DITTO) then panic "trying to update a child that is not a ditto block!"
  else
  let o := dinode_off (i_inum ic) in
  let! bp := bk (bread (i_dev ic) (IBLOCK (i_inum ic))) in
  let! ip := geti p in
  updi c (upd_d (fun d => with_checksum (i_checksum ip) (with_size (i_size ip) d)));;;
  let! ic := geti c in
  bupd bp (fun d => put_tail o (i_d ic) (put_head o (with_nlink 1 (i_d ic)) d));;;
  lg (log_write bp);;;
  bk (brelse bp);;;
  iunlock c.

Definition iupdate_ext (p : iptr) (skip : bool) : K fs unit :=
  let! ip := geti p in
  let o := dinode_off (i_inum ip) in
  let! bp := bk (bread (i_dev ip) (IBLOCK (i_inum ip))) in
  bupd bp (put_head o (i_d ip));;;
  let! c := ichecksum p in
  updi p (upd_d (with_checksum c));;;
  let! ip := geti p in
  bupd bp (put_tail o (i_d ip));;;
  lg (log_write bp);;;
  bk (brelse bp);;;
  if skip then ret tt
  else
  let! ip := geti p in
  (if negb (i_child1 ip =? 0) then let! c := iget (i_dev ip) (u32 (i_child1 ip)) in cupdate p c else ret tt);;;
  let! ip := geti p in
  (if negb (i_child2 ip =? 0) then let! c := iget (i_dev ip) (u32 (i_child2 ip)) in cupdate p c else ret tt).

Definition iupdate (p : iptr) : K fs unit := iupdate_ext p false.

Definition free_addr (p : iptr) (i : Z) : K fs unit :=
  let! ip := geti p in
  let! a := lift_opt "ip->addrs index" (i_addrs ip !! Z.to_nat i) in
  if a =? 0 then ret tt
  else bfree (i_dev ip) a;;; updi p (upd_d (with_addr i 0)).

Definition itrunc (p : iptr) : K fs unit :=
  forK (free_addr p) (zrange 0 NDIRECT);;;
  let! ip := geti p in
  let! ind := lift_opt "ip->addrs index" (i_addrs ip !! Z.to_nat NDIRECT) in
  (if ind =? 0 then ret tt
   else
   let! bp := bk (bread (i_dev ip) ind) in
   forK (fun j =>
     let! a := bk (bdata bp) in
     if get32 a (4 * j) =? 0 then ret tt else bfree (i_dev ip) (get32 a (4 * j))) (zrange 0 NINDIRECT);;;
   bk (brelse bp);;;
   bfree (i_dev ip) ind;;;
   updi p (upd_d (with_addr NDIRECT 0)));;;
  updi p (upd_d (with_size 0));;;
  iupdate p.

Definition iput (p : iptr) : K fs unit :=
  let! ip := geti p in
  (if (i_ref ip =? 1) && flag (i_flags ip) I_VALID && (i_nlink ip =? 0) then
     if flag (i_flags ip) I_BUSY then panic "iput busy"
     else
     updi p (upd_flags (fun f => flag_set f I_BUSY));;;
     itrunc p;;;
     updi p (upd_d (with_type 0));;;
     iupdate p;;;
     updi p (upd_flags (fun _ => 0))
   else ret tt);;;
  updi p (upd_ref (fun r => r - 1)).

Definition iunlockput (p : iptr) : K fs unit := iunlock p;;; iput p.

(** struct stat *)
Record stat := Stat {
  st_type : Z; st_dev : Z; st_ino : Z; st_nlink : Z; st_sz : Z; st_child1 : Z; st_child2 : Z; st_checksum : Z
}.

Definition stati (p : iptr) : K fs stat :=
  let! ip := geti p in
  ret (Stat (i_type ip) (s32 (i_dev ip)) (i_inum ip) (i_nlink ip) (i_size ip) (i_child1 ip) (i_child2 ip) (i_checksum ip)).

(** ** Writing *)

(** The loop of [writei_ext]; the result is the final [off]. *)
Fixpoint writei_loop (fuel : nat) (p : iptr) (src : list Z) (off n tot : Z) : K fs Z :=
  match fuel with
  | O => nofuel
  | S fuel' =>
    if tot <? n then
      let! ip := geti p in
      let! addr := bmap p (off / BSIZE) in
      let! bp := bk (bread (i_dev ip) addr) in
      let m := Z.min (n - tot) (BSIZE - off `mod` BSIZE) in
      bupd bp (fun d => splice d (off `mod` BSIZE) (slice src tot m));;;
      lg (log_write bp);;;
      bk (brelse bp);;;
      writei_loop fuel' p src (u32 (off + m)) n (tot + m)
    else ret off
  end.

(** The update of one ditto; [writei] is the recursive call. *)
Definition write_child (writei : iptr -> K fs Z) (dev child : Z) : K fs unit :=
  if child =? 0 then ret tt
  else
  let! ci := iget dev (u32 child) in
  ilock_ext ci false;;;
  writei ci;;;
  iunlock ci.

(** [writei_ext] calls itself on the dittos, each of which it locks: as for
    [ilock_ext], [NINODE + 1] levels are enough. [src] holds at least [n] bytes. *)
Fixpoint writei_rec (fuel : nat) (p : iptr) (src : list Z) (off n : Z) (skip : bool) : K fs Z :=
  match fuel with
  | O => nofuel
  | S fuel' =>
    let! ip := geti p in
    if i_type ip =? T_DEV then
      if (i_major ip <? 0) || (NDEV <=? i_major ip) then ret (-1)
      else match dev_write (devsw (i_major ip)) with
           | None => ret (-1)
           | Some write => write p src (s32 n)
           end
    else if (i_size ip <? off) || (u32 (off + n) <? off) then ret (-1)
    else if MAXFILE * BSIZE <? u32 (off + n) then ret (-1)
    else if Z.of_nat (length src) <? n then undef "src buffer"
    else
    let! off' := writei_loop (loop_bound n) p src off n 0 in
    (if skip then ret tt
     else
     let! ip := geti p in
     write_child (fun ci => writei_rec fuel' ci src off n false) (i_dev ip) (i_child1 ip);;;
     let! ip := geti p in
     write_child (fun ci => writei_rec fuel' ci src off n false) (i_dev ip) (i_child2 ip));;;
    let! ip := geti p in
    if i_type ip =? T_DITTO then ret (s32 n)
    else
    (if (0 <? n) && (i_size ip <? off') then updi p (upd_d (with_size off')) else ret tt);;;
    let! ip := geti p in
    (if negb (i_type ip =? T_DEV) then iupdate_ext p skip else ret tt);;;
    ret (s32 n)
  end.

Definition writei_ext (p : iptr) (src : list Z) (off n : Z) (skip : bool) : K fs Z :=
  writei_rec (S (Z.to_nat NINODE)) p src off n skip.
Definition writei (p : iptr) (src : list Z) (off n : Z) : K fs Z := writei_ext p src off n false.

(** ** Rescue *)

Fixpoint iduplicate_loop (fuel : nat) (src dst : iptr) (off last : Z) : K fs unit :=
  match fuel with
  | O => nofuel
  | S fuel' =>
    let! rl := readi src off 512 in
    let r := u32 rl.1 in
    if (0 <? r) && (off <? last) then
      writei_ext dst (fill 512 rl.2) off r true;;;
      iduplicate_loop fuel' src dst (u32 (off + r)) last
    else ret tt
  end.

Definition iduplicate (src dst : iptr) (off ntotal : Z) : K fs unit :=
  let! s := geti src in
  updi dst (upd_d (fun d => with_size (i_size s) (with_checksum (i_checksum s) d)));;;
  iduplicate_loop (Z.to_nat (ntotal + 2)) src dst off (u32 (ntotal + off)).

Definition RESCUE_MAX : Z := ((LOGSIZE - 1 - 1 - 2) / 4) * 512.

Fixpoint irescue_loop (fuel : nat) (p rinode : iptr) (n i off : Z) : K fs unit :=
  match fuel with
  | O => nofuel
  | S fuel' =>
    if i <? n then
      let n1 := Z.min (n - i) RESCUE_MAX in
      lg begin_trans;;;
      iduplicate rinode p off n1;;;
      lg commit_trans;;;
      irescue_loop fuel' p rinode n (i + n1) (off + n1)
    else ret tt
  end.

Definition irescue (p rinode : iptr) : K fs unit :=
  ilock_ext rinode false;;;
  ilock_ext p false;;;
  let! ip := geti p in
  let n := s32 (i_size ip) in
  irescue_loop (Z.to_nat (n / RESCUE_MAX + 2)) p rinode n 0 0;;;
  iunlock rinode;;;
  iunlock p.

Definition ilock_trans (p : iptr) : K fs Z :=
  let! r := ilock p in
  if r =? 0 then ret 0
  else if r =? E_CORRUPTED then ret E_CORRUPTED
  else
  (if 0 <? r then
     let! ip := geti p in
     let! ic := iget (i_dev ip) r in
     irescue p ic
   else ret tt);;;
  let! r := ilock p in
  if r =? 0 then ret 0
  else panic "ilock_trans attempted to recover but still failed to unlock".

(** ** Directories *)

(** The name in a [struct dirent], and the comparison of names. *)
Definition namecmp (s t : list Z) : Z := strncmp s t (Z.to_nat DIRSIZ).
Definition SIZEOF_DIRENT : Z := 16.
Definition de_inum (de : list Z) : Z := get16 de 0.
Definition de_name (de : list Z) : list Z := drop 2 de.
Definition mk_dirent (inum : Z) (name : list Z) : list Z := le_enc 2 (u16 inum) ++ strncpy name (Z.to_nat DIRSIZ).

Definition read_dirent (p : iptr) (off : Z) : K fs (list Z) :=
  let! rl := readi p off SIZEOF_DIRENT in
  if negb (rl.1 =? SIZEOF_DIRENT) then panic "dirlink read" else ret rl.2.

(** The entry found and its offset, [*poff]. *)
Fixpoint dirlookup_loop (fuel : nat) (p : iptr) (name : list Z) (off : Z) : K fs (option (nat * Z)) :=
  match fuel with
  | O => nofuel
  | S fuel' =>
    let! dp := geti p in
    if off <? i_size dp then
      let! de := read_dirent p off in
      if de_inum de =? 0 then dirlookup_loop fuel' p name (off + SIZEOF_DIRENT)
      else if namecmp name (de_name de) =? 0 then
        let! ip := iget (i_dev dp) (de_inum de) in
        ret ((fun i => (i, off)) <$> ip)
      else dirlookup_loop fuel' p name (off + SIZEOF_DIRENT)
    else ret None
  end.

Definition dir_bound (p : iptr) : K fs nat :=
  let! dp := geti p in ret (Z.to_nat (i_size dp / SIZEOF_DIRENT + 2)).

Definition dirlookup (p : iptr) (name : list Z) : K fs (option (nat * Z)) :=
  let! dp := geti p in
  if negb (i_type dp =? T_DIR) then panic "dirlookup not DIR"
  else let! fuel := dir_bound p in dirlookup_loop fuel p name 0.

(** The offset of the first empty entry, else the size of the directory. *)
Fixpoint empty_dirent (fuel : nat) (p : iptr) (off : Z) : K fs Z :=
  match fuel with
  | O => nofuel
  | S fuel' =>
    let! dp := geti p in
    if off <? i_size dp then
      let! de := read_dirent p off in
      if de_inum de =? 0 then ret off else empty_dirent fuel' p (off + SIZEOF_DIRENT)
    else ret off
  end.

Definition dirlink (p : iptr) (name : list Z) (inum : Z) : K fs Z :=
  let! found := dirlookup p name in
  match found with
  | Some (i, _) => iput (Some i);;; ret (-1)
  | None =>
    let! fuel := dir_bound p in
    let! off := empty_dirent fuel p 0 in
    let! r := writei p (mk_dirent inum name) off SIZEOF_DIRENT in
    if negb (r =? SIZEOF_DIRENT) then panic "dirlink" else ret 0
  end.

(** ** Paths: lists of characters, 47 is '/' *)

Fixpoint skip_slashes (path : list Z) : list Z :=
  match path with
  | c :: rest => if c =? 47 then skip_slashes rest else path
  | [] => []
  end.

(** The characters up to the next slash or the end, and the rest. *)
Fixpoint span_elem (path : list Z) : list Z * list Z :=
  match path with
  | c :: rest => if (c =? 47) || (c =? 0) then ([], path) else let '(e, r) := span_elem rest in (c :: e, r)
  | [] => ([], [])
  end.

(** Store an element in [char name[DIRSIZ]]. *)
Definition copy_name (s name : list Z) : list Z :=
  if DIRSIZ <=? Z.of_nat (length s) then take (Z.to_nat DIRSIZ) s
  else splice name 0 (s ++ [0]).

Definition skipelem (path name : list Z) : option (list Z * list Z) :=
  let path := skip_slashes path in
  if chr path =? 0 then None
  else let '(s, path) := span_elem path in
  Some (skip_slashes path, copy_name s name).

(** The loop of [namex]: the inode reached, and the [name] buffer. *)
Fixpoint namex_loop (fuel : nat) (p : iptr) (path : list Z) (nameiparent : bool) (name : list Z) (trans : bool)
  : K fs (iptr * list Z) :=
  match fuel with
  | O => nofuel
  | S fuel' =>
    match skipelem path name with
    | None =>
      if nameiparent then iput p;;; ret (None, name) else ret (p, name)
    | Some (path, name) =>
      let! r := (if trans then ilock_trans p else ilock p) in
      if negb (r =? 0) then ret (None, name)
      else
      let! ip := geti p in
      if negb (i_type ip =? T_DIR) then iunlockput p;;; ret (None, name)
      else if nameiparent && (chr path =? 0) then iunlock p;;; ret (p, name)
      else
      let! found := dirlookup p name in
      match found with
      | None => iunlockput p;;; ret (None, name)
      | Some (next, _) => iunlockput p;;; namex_loop fuel' (Some next) path nameiparent name trans
      end
    end
  end.

Definition namex (path : list Z) (nameiparent : bool) (name : list Z) (trans : bool) : K fs (iptr * list Z) :=
  let! p := (if chr path =? 47 then iget ROOTDEV ROOTINO
             else let! φ := get in idup (f_cwd φ)) in
  namex_loop (S (length path)) p path nameiparent name trans.

Definition no_name : list Z := replicate (Z.to_nat DIRSIZ) 0.

Definition namei_ext (path : list Z) (trans : bool) : K fs iptr :=
  let! r := namex path false no_name trans in ret r.1.
Definition nameiparent_ext (path : list Z) (trans : bool) : K fs (iptr * list Z) := namex path true no_name trans.
Definition namei (path : list Z) : K fs iptr := namei_ext path false.
Definition nameiparent (path : list Z) : K fs (iptr * list Z) := nameiparent_ext path false.
Definition namei_trans (path : list Z) : K fs iptr := namei_ext path true.
Definition nameiparent_trans (path : list Z) : K fs (iptr * list Z) := nameiparent_ext path true.

Definition DOTDOT : list Z := [46; 46].

(** [levels] bounds the depth of the tree that is climbed. *)
Fixpoint distance_loop (levels : nat) (p : iptr) (counter : Z) : K fs Z :=
  match levels with
  | O => nofuel
  | S levels' =>
    let! found := dirlookup p DOTDOT in
    match found with
    | None => ret counter
    | Some (i, _) =>
      let! dp := geti p in
      iunlockput p;;;
      ilock_trans (Some i);;;
      let! dp' := geti (Some i) in
      if i_inum dp =? i_inum dp' then iunlockput (Some i);;; ret counter
      else distance_loop levels' (Some i) (counter + 1)
    end
  end.

Definition distance_to_root (levels : nat) (path : list Z) : K fs Z :=
  let! r := nameiparent_ext path true in
  ilock_trans r.1;;;
  distance_loop levels r.1 1.
End devices.

(** A file system just switched on: an empty inode cache over the log. *)
Definition no_dinode : dinode := Dinode 0 0 0 0 0 (replicate 11 0) 0 0 0.
Definition iinit (κ : lst) : fs :=
  Fs κ (replicate (Z.to_nat NINODE) (Inode 0 0 0 0 no_dinode)) None.
