(* ===== verification/FsView.v ===== *)
(** The state of the file system as its routines see it inside a transaction:
    the logical disk, the buffers they hold, the sectors already logged and the
    inode cache. Every primitive of fs.c has a rule on this view; the proofs
    about fs.c use nothing below it. *)
From S2P Require Import Prelude Bio Cache Log LogSpec Trans Txn Str Fs.

Record fview := FView {
  w_cur : Z -> block;         (* logical disk, below the log *)
  w_held : gmap nat Z;        (* buffers held, with their sector *)
  w_pins : gset Z;            (* sectors logged in this transaction *)
  w_T : gset Z;               (* held sectors changed but not yet logged *)
  w_ic : list inode;          (* inode cache *)
  w_cwd : option nat
}.

(** What does not change while the file system runs inside a transaction: where
    the log is, and the cache and the disk as the transaction found them. *)
Record geometry := Geometry { g_start : Z; g_nlog : Z; g_busy : bool; g_base : cache }.

(** Since the transaction began only log blocks were written to the disk. *)
Definition traced (g : geometry) (A : cache) : Prop :=
  csize A = csize (g_base g) /\ exists lw, wrs A = wrs (g_base g) ++ lw /\ Forall (log_only (g_start g)) lw /\
  forall s, dur A s = apply_writes lw (dur (g_base g)) s.

Definition w_secs (W : fview) : gset Z := map_img (w_held W).
Definition wroom (W : fview) : nat := Z.to_nat NBUF - size (w_secs W ∪ w_pins W).

Definition v_bread (i : nat) (s : Z) (W : fview) : fview :=
  FView (w_cur W) (<[i := s]> (w_held W)) (w_pins W) (w_T W) (w_ic W) (w_cwd W).
Definition v_brelse (i : nat) (W : fview) : fview :=
  FView (w_cur W) (delete i (w_held W)) (w_pins W) (w_T W) (w_ic W) (w_cwd W).
Definition v_set (s : Z) (d : block) (W : fview) : fview :=
  FView (<[s := d]> (w_cur W)) (w_held W) (w_pins W) (w_T W ∪ {[s]}) (w_ic W) (w_cwd W).
Definition v_log (s : Z) (W : fview) : fview :=
  FView (w_cur W) (w_held W) (w_pins W ∪ {[s]}) (w_T W ∖ {[s]}) (w_ic W) (w_cwd W).
Definition v_ic (f : list inode -> list inode) (W : fview) : fview :=
  FView (w_cur W) (w_held W) (w_pins W) (w_T W) (f (w_ic W)) (w_cwd W).
(** A logged write of a sector that is not held. *)
Definition v_put (s : Z) (d : block) (W : fview) : fview :=
  FView (<[s := d]> (w_cur W)) (w_held W) (w_pins W ∪ {[s]}) (w_T W) (w_ic W) (w_cwd W).

Section view.
Context (g : geometry).
Implicit Types (φ : fs) (W : fview) (A : cache).

Record Rep φ W : Prop := {
  rep_log : exists A, LS (f_log φ) A (w_T W) /\ held A = w_held W /\ pins A = w_pins W /\
              traced g A /\ forall s, s < g_start g -> cur A s = w_cur W s;
  rep_start : l_start (f_log φ) = g_start g;
  rep_nlog : l_size (f_log φ) = g_nlog g;
  rep_busy : l_busy (f_log φ) = g_busy g;
  rep_ic : f_icache φ = w_ic W;
  rep_cwd : f_cwd φ = w_cwd W
}.

Lemma lg_wp {X} (m : K lst X) (Q : X -> fs -> Prop) φ :
  wp m (fun x κ => Q x (set_log κ φ)) (f_log φ) -> wp (lg m) Q φ.
Proof. intros H. unfold lg. by rewrite wp_zoom. Qed.

(** What [Rep] asks of the log part, for a view with the same inode cache. *)
Lemma Rep_log φ W κ A W' : Rep φ W -> LS κ A (w_T W') -> held A = w_held W' -> pins A = w_pins W' -> traced g A ->
  (forall s, s < g_start g -> cur A s = w_cur W' s) -> l_start κ = g_start g -> l_size κ = g_nlog g ->
  l_busy κ = g_busy g -> w_ic W' = w_ic W -> w_cwd W' = w_cwd W -> Rep (set_log κ φ) W'.
Proof.
  intros HR HL Hh Hp Htr Hc Hs Hn Hb Hi Hw. split; try done; [by exists A|..].
  - rewrite Hi. apply HR.
  - rewrite Hw. apply HR.
Qed.

Lemma r_bread φ W s (Q : nat -> fs -> Prop) : Rep φ W -> 0 <= s < g_start g -> s ∉ w_secs W ->
  s ∈ w_pins W \/ (0 < wroom W)%nat ->
  (forall i φ', w_held W !! i = None -> Rep φ' (v_bread i s W) -> Q i φ') ->
  wp (bk (bread 1 s)) Q φ.
Proof.
  intros HR Hs Hh Hr HQ. pose proof HR as [(A & HL & Eh & Ep & Htr & Hc) Est En Eb _ _].
  apply lg_wp. eapply (ls_bread _ A); [done|by rewrite Est|..].
  - unfold held_secs. by rewrite Eh.
  - unfold room, held_secs. by rewrite Eh, Ep.
  - intros i β Hi HL'. apply HQ; [by rewrite <- Eh|].
    eapply Rep_log; try done. cbn. by rewrite Eh.
Qed.

Lemma r_bdata φ W i s (Q : block -> fs -> Prop) : Rep φ W -> w_held W !! i = Some s ->
  Q (w_cur W s) φ -> wp (bk (bdata i)) Q φ.
Proof.
  intros HR Hi HQ. pose proof HR as [(A & HL & Eh & Ep & Htr & Hc) Est En Eb _ _].
  apply lg_wp. rewrite <- Eh in Hi. eapply (ls_bdata _ A); [done|done|].
  replace (set_log (f_log φ) φ) with φ by (by destruct φ).
  rewrite Hc; [done|]. rewrite <- Est. apply (ls_held _ _ _ HL). apply elem_held_secs. eauto.
Qed.

Lemma r_bset φ W i s d (Q : unit -> fs -> Prop) : Rep φ W -> w_held W !! i = Some s -> block_ok d ->
  (forall φ', Rep φ' (v_set s d W) -> Q tt φ') -> wp (bk (bset i d)) Q φ.
Proof.
  intros HR Hi Hd HQ. pose proof HR as [(A & HL & Eh & Ep & Htr & Hc) Est En Eb _ _].
  apply lg_wp. rewrite <- Eh in Hi. eapply (ls_bset _ A); [done|done|done|].
  intros β HL'. apply HQ. eapply Rep_log; try done.
  intros x Hx. cbn. destruct (decide (x = s)) as [->|]; [by rewrite !fn_lookup_insert|].
  rewrite !fn_lookup_insert_ne by done. by apply Hc.
Qed.

Lemma r_bupd φ W i s f (Q : unit -> fs -> Prop) : Rep φ W -> w_held W !! i = Some s -> block_ok (f (w_cur W s)) ->
  (forall φ', Rep φ' (v_set s (f (w_cur W s)) W) -> Q tt φ') -> wp (bupd i f) Q φ.
Proof.
  intros HR Hi Hd HQ. unfold bupd. rewrite wp_bind. eapply r_bdata; [done|done|]. by eapply r_bset.
Qed.

Lemma r_log_write φ W i s (Q : unit -> fs -> Prop) : Rep φ W -> w_held W !! i = Some s -> 2 <= s ->
  g_busy g = true -> Z.of_nat (size (w_pins W)) < g_nlog g - 1 -> (0 < wroom W)%nat ->
  (forall φ', Rep φ' (v_log s W) -> Q tt φ') -> wp (lg (log_write i)) Q φ.
Proof.
  intros HR Hi Hs Hb Hn Hr HQ. pose proof HR as [(A & HL & Eh & Ep & Htr & Hc) Est En Eb _ _].
  apply lg_wp. rewrite <- Eh in Hi.
  assert (s < l_start (f_log φ)) by (apply (ls_held _ _ _ HL), elem_held_secs; eauto).
  assert (lh_n (f_log φ) < l_size (f_log φ) - 1) by (rewrite En, <- (size_pins _ _ _ HL), Ep; done).
  eapply (log_write_spec _ A); [done|done|done|by rewrite Eb|done| |].
  { unfold room, held_secs. by rewrite Eh, Ep. }
  intros j β A' EA' _ HL'. apply HQ. pose proof (ls_geom _ _ _ HL) as [Hg _].
  destruct (record_slot_geom j s (f_log φ)) as (E1 & E2 & _ & E3).
  eapply Rep_log; try done; cbn [set_bio l_start l_size l_busy]; try congruence.
  - by rewrite EA'.
  - rewrite EA'. cbn. rewrite Ep. cut (l_start (f_log φ) + Z.of_nat j + 1 ∉ w_pins W); [set_solver|].
    rewrite <- Ep, (ls_pins _ _ _ HL), elem_of_list_to_set. intros Hx%(ls_home _ _ _ HL). lia.
  - destruct Htr as (Ez & lw & Ew & Hlw & Hd). split; [by rewrite EA'|]. exists (lw ++ [(l_start (f_log φ) + Z.of_nat j + 1, cur A s)]).
    rewrite EA'. cbn. split; [by rewrite Ew, app_assoc|]. split.
    + apply Forall_app. split; [done|]. apply Forall_singleton. split; [cbn; lia|eapply R_block, HL].
    + intros x. rewrite apply_writes_app. exact (apply_writes_at [(_, _)] (dur A) _ x (Hd x)).
  - intros x Hx. rewrite EA'. cbn. rewrite fn_lookup_insert_ne by lia. by apply Hc.
Qed.

Lemma r_brelse φ W i s (Q : unit -> fs -> Prop) : Rep φ W -> w_held W !! i = Some s -> s ∉ w_T W ->
  (forall φ', Rep φ' (v_brelse i W) -> Q tt φ') -> wp (bk (brelse i)) Q φ.
Proof.
  intros HR Hi HT HQ. pose proof HR as [(A & HL & Eh & Ep & Htr & Hc) Est En Eb _ _].
  apply lg_wp. rewrite <- Eh in Hi. eapply (ls_brelse _ A); [done|done|done|].
  intros β HL'. apply HQ. eapply Rep_log; try done. cbn. by rewrite Eh.
Qed.

Lemma r_geti φ W i ip (Q : inode -> fs -> Prop) : Rep φ W -> w_ic W !! i = Some ip ->
  Q ip φ -> wp (geti (Some i)) Q φ.
Proof.
  intros HR Hi HQ. unfold geti. rewrite wp_bind. apply wp_get. rewrite (rep_ic _ _ HR), Hi. done.
Qed.

Lemma r_updi φ W i ip f (Q : unit -> fs -> Prop) : Rep φ W -> w_ic W !! i = Some ip ->
  (forall φ', Rep φ' (v_ic (insert i (f ip)) W) -> Q tt φ') -> wp (updi (Some i) f) Q φ.
Proof.
  intros HR Hi HQ. unfold updi. rewrite wp_bind. eapply r_geti; [done|done|]. apply wp_modify, HQ.
  destruct HR as [? ? ? ? Ei ?]. split; try done. cbn. by rewrite Ei.
Qed.

(** ** Derived rules *)

Lemma rep_cur_ok φ W s : Rep φ W -> s < g_start g -> block_ok (w_cur W s).
Proof.
  intros [(A & HL & _ & _ & _ & Hc) _ _ _ _ _] Hs. rewrite <- Hc by done. eapply R_block, HL.
Qed.

Lemma v_read_canon i s W : w_held W !! i = None -> v_brelse i (v_bread i s W) = W.
Proof. intros Hi. destruct W; unfold v_brelse, v_bread; simpl in *. by rewrite delete_insert_id. Qed.

Lemma v_put_canon i s d W : w_held W !! i = None -> s ∉ w_T W ->
  v_brelse i (v_log s (v_set s d (v_bread i s W))) = v_put s d W.
Proof.
  intros Hi HT. destruct W; unfold v_brelse, v_log, v_set, v_bread, v_put; simpl in *.
  rewrite delete_insert_id by done. f_equal. set_solver.
Qed.

Lemma rep_T φ W : Rep φ W -> w_T W ⊆ w_secs W.
Proof.
  intros [(A & HL & Eh & _) _ _ _ _ _]. unfold w_secs. rewrite <- Eh. apply (ls_T _ _ _ HL).
Qed.

Lemma rep_held_lt φ W s : Rep φ W -> s ∈ w_secs W -> s < g_start g.
Proof.
  intros [(A & HL & Eh & _) Es _ _ _ _] Hs. unfold w_secs in Hs. rewrite <- Eh in Hs. rewrite <- Es.
  by apply (ls_held _ _ _ HL).
Qed.

Lemma w_secs_bread i s W : w_held W !! i = None -> w_secs (v_bread i s W) = w_secs W ∪ {[s]}.
Proof. exact (held_secs_bread i s (Cache (w_cur W) (w_cur W) (w_held W) ∅ [] 0)). Qed.

Lemma wroom_bread i s W : w_held W !! i = None -> (wroom W <= wroom (v_bread i s W) + 1)%nat.
Proof. exact (room_bread i s (Cache (w_cur W) (w_cur W) (w_held W) (w_pins W) [] 0)). Qed.

(** Read a sector that is not held: [bread], look at the data, [brelse]. *)
Lemma r_read {X} φ W s (m : block -> K fs X) (Q : X -> fs -> Prop) : Rep φ W -> 0 <= s < g_start g ->
  s ∉ w_secs W -> s ∈ w_pins W \/ (0 < wroom W)%nat ->
  (forall φ', Rep φ' W -> wp (m (w_cur W s)) Q φ') ->
  wp (let! bp := bk (bread 1 s) in let! d := bk (bdata bp) in bk (brelse bp);;; m d) Q φ.
Proof.
  intros HR Hs Hh Hr HQ. rewrite wp_bind. eapply r_bread; [done..|]. intros i φ1 Hi HR1.
  rewrite wp_bind. eapply r_bdata; [done|apply lookup_insert_eq|].
  rewrite wp_bind. eapply r_brelse; [done|apply lookup_insert_eq| |].
  { cbn. pose proof (rep_T _ _ HR). set_solver. }
  intros φ2 HR2. rewrite v_read_canon in HR2 by done. by apply HQ.
Qed.

Lemma r_readsb φ W (Q : superblock -> fs -> Prop) : Rep φ W -> 1 < g_start g -> 1 ∉ w_secs W ->
  1 ∈ w_pins W \/ (0 < wroom W)%nat ->
  (forall φ', Rep φ' W -> Q (sb_of (w_cur W 1)) φ') -> wp (bk (readsb 1)) Q φ.
Proof.
  intros HR Hs Hh Hr HQ. pose proof HR as [(A & HL & Eh & Ep & Htr & Hc) Est En Eb _ _].
  apply lg_wp, blk_wp. eapply wp_mono; [apply (readsb_spec _ A)|].
  - apply HL.
  - pose proof (ls_geom _ _ _ HL). lia.
  - unfold held_secs. by rewrite Eh.
  - unfold room, held_secs. by rewrite Eh, Ep.
  - intros sb β [-> HR']. rewrite Hc by done. apply HQ. eapply Rep_log; try done.
    destruct HL; split; done.
Qed.

(** The logged update of a sector that is not held. *)
Lemma r_put φ W s f (Q : unit -> fs -> Prop) : Rep φ W -> 2 <= s < g_start g -> s ∉ w_secs W ->
  g_busy g = true -> Z.of_nat (size (w_pins W)) < g_nlog g - 1 -> (1 < wroom W)%nat ->
  block_ok (f (w_cur W s)) -> (forall φ', Rep φ' (v_put s (f (w_cur W s)) W) -> Q tt φ') ->
  wp (let! bp := bk (bread 1 s) in bupd bp f;;; lg (log_write bp);;; bk (brelse bp)) Q φ.
Proof.
  intros HR Hs Hh Hb Hn Hr Hf HQ. rewrite wp_bind. eapply r_bread; [done|lia|done|right; lia|].
  intros i φ1 Hi HR1. rewrite wp_bind. eapply r_bupd; [done|apply lookup_insert_eq|done|].
  intros φ2 HR2. rewrite wp_bind. eapply r_log_write; [done|apply lookup_insert_eq|lia|done|done| |].
  { pose proof (wroom_bread i s W Hi).
    assert (wroom (v_set s (f (w_cur W s)) (v_bread i s W)) = wroom (v_bread i s W)) as E by done.
    cbn in E |- *. lia. }
  intros φ3 HR3. eapply r_brelse; [done|apply lookup_insert_eq|cbn; set_solver|].
  intros φ4 HR4. change (w_cur (v_bread i s W) s) with (w_cur W s) in HR4.
  rewrite v_put_canon in HR4; [by apply HQ|done|]. pose proof (rep_T _ _ HR). set_solver.
Qed.
End view.
