(* ===== verification/Alloc.v ===== *)
(** The block allocator of fs.c: [balloc] returns the first free block, zeroed
    and marked in the bitmap; [bfree] unmarks a block and refuses a free one. *)
From S2P Require Import Prelude Bio Cache Log LogSpec Trans Str Fs FsView.

(** ** Bits of a bitmap block *)

Lemma bit_mask_pow bi : 0 <= bi -> bit_mask bi = 2 ^ (bi `mod` 8).
Proof. intros H. unfold bit_mask. rewrite Z.shiftl_mul_pow2; [lia|apply Z.mod_pos_bound; lia]. Qed.

Lemma bit_free_testbit d bi : 0 <= bi ->
  bit_free d bi = negb (Z.testbit (byte_at d (bi / 8)) (bi `mod` 8)).
Proof.
  intros H. unfold bit_free. rewrite bit_mask_pow by done.
  rewrite <- (flag_testbit _ (bi `mod` 8)) by (apply Z.mod_pos_bound; lia).
  unfold flag. by rewrite negb_involutive.
Qed.

Lemma byte_at_insert d i j v : 0 <= i < Z.of_nat (length d) -> 0 <= j ->
  byte_at (<[Z.to_nat i := v]> d) j = if decide (i = j) then v else byte_at d j.
Proof.
  intros Hi Hj. unfold byte_at. case_decide as E.
  - subst j. by rewrite list_lookup_insert_eq by lia.
  - by rewrite list_lookup_insert_ne by lia.
Qed.

Definition bit_index (bi : Z) : Prop := 0 <= bi < BPB.

Lemma bit_byte bi d : bit_index bi -> block_ok d -> 0 <= bi / 8 < Z.of_nat (length d).
Proof.
  unfold bit_index, BPB, BSIZE. intros H [-> _]. unfold BSIZE.
  split; [apply Z.div_pos; lia|]. apply Z.div_lt_upper_bound; lia.
Qed.

Lemma byte_at_ok d i : block_ok d -> is_byte (byte_at d i).
Proof.
  intros [_ H]. unfold byte_at. destruct (d !! Z.to_nat i) eqn:E; [|unfold is_byte; simpl; lia].
  simpl. rewrite Forall_forall in H. apply H. by eapply list_elem_of_lookup_2.
Qed.

Lemma same_bit i j : bit_index i -> bit_index j -> i / 8 = j / 8 -> i `mod` 8 = j `mod` 8 -> i = j.
Proof. intros _ _ E1 E2. rewrite (Z.div_mod i 8), (Z.div_mod j 8); lia. Qed.

Section bits.
Context (d : block) (Hd : block_ok d).

Lemma mark_used_free bi bj : bit_index bi -> bit_index bj ->
  bit_free (mark_used bi d) bj = if decide (bi = bj) then false else bit_free d bj.
Proof.
  intros Hi Hj. pose proof (bit_byte bi d Hi Hd) as Hb.
  assert (0 <= bi `mod` 8 < 8 /\ 0 <= bj `mod` 8 < 8) as [Hmi Hmj] by (split; apply Z.mod_pos_bound; lia).
  unfold bit_index in *. rewrite !bit_free_testbit by lia. unfold mark_used.
  rewrite byte_at_insert by (done || apply Z.div_pos; lia). case_decide as E.
  - rewrite Z.lor_spec, bit_mask_pow, Z.pow2_bits_eqb by lia.
    case_decide as E'; [subst; rewrite Z.eqb_refl; by rewrite orb_true_r|].
    destruct (Z.eqb_spec (bi `mod` 8) (bj `mod` 8)) as [Em|]; [by destruct E'; apply same_bit|].
    by rewrite orb_false_r, E.
  - case_decide; [subst; done|done].
Qed.

Lemma mark_free_free bi bj : bit_index bi -> bit_index bj ->
  bit_free (mark_free bi d) bj = if decide (bi = bj) then true else bit_free d bj.
Proof.
  intros Hi Hj. pose proof (bit_byte bi d Hi Hd) as Hb.
  assert (0 <= bi `mod` 8 < 8 /\ 0 <= bj `mod` 8 < 8) as [Hmi Hmj] by (split; apply Z.mod_pos_bound; lia).
  unfold bit_index in *. rewrite !bit_free_testbit by lia. unfold mark_free.
  rewrite byte_at_insert by (done || apply Z.div_pos; lia). case_decide as E.
  - rewrite Z.land_spec, Z.lnot_spec, bit_mask_pow, Z.pow2_bits_eqb by lia.
    case_decide as E'; [subst; rewrite Z.eqb_refl; by rewrite andb_false_r|].
    destruct (Z.eqb_spec (bi `mod` 8) (bj `mod` 8)) as [Em|]; [by destruct E'; apply same_bit|].
    simpl. by rewrite andb_true_r, E.
  - case_decide; [subst; done|done].
Qed.

End bits.

Lemma byte_ones a : is_byte a <-> Z.land a (Z.ones 8) = a.
Proof.
  rewrite Z.land_ones by lia. change (2 ^ 8) with 256. unfold is_byte. split.
  - intros. by apply Z.mod_small.
  - intros E. rewrite <- E. apply Z.mod_pos_bound. lia.
Qed.

Lemma byte_lor a m : is_byte a -> is_byte m -> is_byte (Z.lor a m).
Proof. rewrite !byte_ones. intros Ha Hm. by rewrite Z.land_lor_distr_l, Ha, Hm. Qed.

Lemma byte_land a m : is_byte a -> is_byte (Z.land a m).
Proof.
  rewrite !byte_ones. intros Ha. by rewrite <- Z.land_assoc, (Z.land_comm m), Z.land_assoc, Ha.
Qed.

Lemma block_ok_insert d i v : block_ok d -> is_byte v -> block_ok (<[i := v]> d).
Proof. intros [H1 H2] Hv. split; [by rewrite length_insert|by apply Forall_insert]. Qed.

Lemma bit_mask_byte bi : 0 <= bi -> is_byte (bit_mask bi).
Proof.
  intros H. rewrite bit_mask_pow by done. pose proof (Z.mod_pos_bound bi 8).
  split; [apply Z.pow_nonneg; lia|]. change 256 with (2 ^ 8). apply Z.pow_lt_mono_r; lia.
Qed.

Lemma mark_used_ok d bi : block_ok d -> bit_index bi -> block_ok (mark_used bi d).
Proof.
  intros Hd [Hi _]. apply block_ok_insert; [done|]. apply byte_lor; [by apply byte_at_ok|by apply bit_mask_byte].
Qed.

Lemma mark_free_ok d bi : block_ok d -> block_ok (mark_free bi d).
Proof. intros Hd. apply block_ok_insert; [done|]. by apply byte_land, byte_at_ok. Qed.

(** Freeing undoes allocating, to the byte. *)
Lemma mark_free_used d bi : block_ok d -> bit_index bi -> bit_free d bi = true -> mark_free bi (mark_used bi d) = d.
Proof.
  intros Hd Hi Hf. pose proof (bit_byte bi d Hi Hd) as Hb. unfold mark_free.
  assert (byte_at (mark_used bi d) (bi / 8) = Z.lor (byte_at d (bi / 8)) (bit_mask bi)) as ->.
  { unfold mark_used. rewrite byte_at_insert by lia. by rewrite decide_True. }
  unfold mark_used. rewrite list_insert_insert_eq. apply list_insert_id.
  assert (Z.land (Z.lor (byte_at d (bi / 8)) (bit_mask bi)) (Z.lnot (bit_mask bi)) = byte_at d (bi / 8)) as ->.
  { apply Z.bits_inj'. intros n Hn. rewrite Z.land_spec, Z.lor_spec, Z.lnot_spec by done.
    unfold bit_free in Hf. apply Z.eqb_eq in Hf. apply (f_equal (fun z => Z.testbit z n)) in Hf.
    rewrite Z.land_spec, Z.bits_0 in Hf. destruct (Z.testbit (bit_mask bi) n); simpl.
    - rewrite andb_true_r in Hf. by rewrite Hf.
    - by rewrite orb_false_r, andb_true_r. }
  unfold byte_at. destruct (d !! Z.to_nat (bi / 8)) eqn:E; [done|]. apply lookup_ge_None in E. lia.
Qed.

(** ** The scan *)

Lemma zrange_cons a b : a < b -> zrange a b = a :: zrange (a + 1) b.
Proof.
  intros H. unfold zrange. rewrite seqZ_cons by lia. f_equal. f_equal; lia.
Qed.

Lemma zrange_nil a b : b <= a -> zrange a b = [].
Proof. intros H. unfold zrange. rewrite seqZ_nil; [done|lia]. Qed.

Lemma zrange_app a b c : a <= b <= c -> zrange a c = zrange a b ++ zrange b c.
Proof.
  intros H. unfold zrange. replace (c - a) with ((b - a) + (c - b)) by lia. rewrite seqZ_app by lia.
  by replace (a + (b - a)) with b by lia.
Qed.

Lemma first_free_skip d l l' : Forall (fun bi => bit_free d bi = false) l ->
  first_free d (l ++ l') = first_free d l'.
Proof. induction 1 as [|x l Hx _ IH]; [done|]. cbn. by rewrite Hx. Qed.

Lemma first_free_least d k bi : 0 <= bi < k -> bit_free d bi = true ->
  (forall j, 0 <= j < bi -> bit_free d j = false) -> first_free d (zrange 0 k) = Some bi.
Proof.
  intros Hk Hf Hl. rewrite (zrange_app 0 bi k) by lia. rewrite first_free_skip.
  - rewrite zrange_cons by lia. cbn. by rewrite Hf.
  - apply Forall_forall. intros j Hj. unfold zrange in Hj. apply elem_of_seqZ in Hj. apply Hl. lia.
Qed.

Lemma first_free_none d k : (forall j, 0 <= j < k -> bit_free d j = false) -> first_free d (zrange 0 k) = None.
Proof.
  intros Hl. rewrite <- (app_nil_r (zrange 0 k)). rewrite first_free_skip; [done|].
  apply Forall_forall. intros j Hj. unfold zrange in Hj. apply elem_of_seqZ in Hj. apply Hl. lia.
Qed.

(** ** The allocator *)

(** Is block [b] marked free in the bitmap? *)
Definition blk_free (ninodes : Z) (cur : Z -> block) (b : Z) : bool :=
  bit_free (cur (BBLOCK b ninodes)) (b `mod` BPB).

(** The bitmap of the [size] blocks lies between the superblock and the log. *)
Record layout (g : geometry) (sb : superblock) : Prop := {
  lay_start : 2 <= g_start g;
  lay_inodes : 0 <= sb_ninodes sb;
  lay_size : 0 < sb_size sb;
  lay_bitmap : BBLOCK (sb_size sb - 1) (sb_ninodes sb) < g_start g
}.

Definition least_free (sb : superblock) (cur : Z -> block) (b : Z) : Prop :=
  0 <= b < sb_size sb /\ blk_free (sb_ninodes sb) cur b = true /\
  forall b', 0 <= b' < b -> blk_free (sb_ninodes sb) cur b' = false.

(** The view after allocating [b]: the bit is set, the block zeroed. *)
Definition v_alloc (sb : superblock) (b : Z) (W : fview) : fview :=
  let s := BBLOCK b (sb_ninodes sb) in
  v_put b zblock (v_put s (mark_used (b `mod` BPB) (w_cur W s)) W).

Lemma wroom_put s d W : (wroom W <= wroom (v_put s d W) + 1)%nat.
Proof.
  unfold wroom. change (w_secs (v_put s d W)) with (w_secs W). cbn [v_put w_pins].
  assert (size (w_secs W ∪ (w_pins W ∪ {[s]})) <= size (w_secs W ∪ w_pins W) + 1)%nat; [|lia].
  rewrite <- (size_singleton (C := gset Z) s). etrans; [|apply size_union_le]. apply subseteq_size. set_solver.
Qed.

Lemma size_pins_put s d W : (size (w_pins (v_put s d W)) <= size (w_pins W) + 1)%nat.
Proof. cbn. rewrite <- (size_singleton (C := gset Z) s). apply size_union_le. Qed.

Section alloc.
Context (g : geometry) (sb : superblock) (Hlay : layout g sb).
Implicit Types (φ : fs) (W : fview).

Lemma bblock_range b : 0 <= b < sb_size sb -> 2 <= BBLOCK b (sb_ninodes sb) < g_start g.
Proof.
  intros Hb. pose proof (lay_inodes _ _ Hlay) as Hi. pose proof (lay_bitmap _ _ Hlay) as Hm. unfold BBLOCK in *.
  assert (0 <= sb_ninodes sb / IPB) by (apply Z.div_pos; [done|by vm_compute]).
  assert (0 <= b / BPB) by (apply Z.div_pos; [lia|by vm_compute]).
  assert (b / BPB <= (sb_size sb - 1) / BPB) by (apply Z.div_le_mono; [by vm_compute|lia]). lia.
Qed.

Lemma mod_index b : bit_index (b `mod` BPB).
Proof. apply Z.mod_pos_bound. by vm_compute. Qed.

(** Bitmap blocks before the one with the free block are read and released. *)
Lemma balloc_from_skip φ W bs rest (Q : Z -> fs -> Prop) : Rep g φ W -> (0 < wroom W)%nat ->
  Forall (fun b => 2 <= BBLOCK b (sb_ninodes sb) < g_start g /\ BBLOCK b (sb_ninodes sb) ∉ w_secs W /\
    first_free (w_cur W (BBLOCK b (sb_ninodes sb))) (zrange 0 (Z.min BPB (sb_size sb - b))) = None) bs ->
  (forall φ', Rep g φ' W -> wp (balloc_from 1 sb rest) Q φ') ->
  wp (balloc_from 1 sb (bs ++ rest)) Q φ.
Proof.
  intros HR Hr Hbs HQ. revert φ HR. induction Hbs as [|b bs (Hb & Hh & Hf) _ IH]; intros φ HR; [by apply HQ|].
  cbn [balloc_from app]. rewrite wp_bind. eapply r_bread; [done|lia|done|by right|]. intros i φ1 Hi HR1.
  rewrite wp_bind. eapply r_bdata; [done|apply lookup_insert_eq|].
  cbn [v_bread w_cur]. rewrite Hf. rewrite wp_bind. eapply r_brelse; [done|apply lookup_insert_eq| |].
  { pose proof (rep_T _ _ _ HR). cbn. set_solver. }
  intros φ2 HR2. rewrite v_read_canon in HR2 by done. by apply IH.
Qed.

Lemma bzero_spec φ W b (Q : unit -> fs -> Prop) : Rep g φ W -> 2 <= b < g_start g -> b ∉ w_secs W ->
  g_busy g = true -> Z.of_nat (size (w_pins W)) < g_nlog g - 1 -> (1 < wroom W)%nat ->
  (forall φ', Rep g φ' (v_put b zblock W) -> Q tt φ') -> wp (bzero 1 b) Q φ.
Proof.
  intros HR Hb Hh Hbusy Hn Hr HQ. unfold bzero. rewrite wp_bind.
  eapply r_bread; [done|lia|done|right; lia|]. intros i φ1 Hi HR1.
  rewrite wp_bind. eapply r_bset; [done|apply lookup_insert_eq|apply zblock_ok|]. intros φ2 HR2.
  rewrite wp_bind. eapply r_log_write; [done|apply lookup_insert_eq|lia|done|done| |].
  { pose proof (wroom_bread i b W Hi).
    assert (wroom (v_set b zblock (v_bread i b W)) = wroom (v_bread i b W)) as E by done. cbn in E |- *. lia. }
  intros φ3 HR3. eapply r_brelse; [done|apply lookup_insert_eq|cbn; set_solver|].
  intros φ4 HR4. rewrite v_put_canon in HR4; [by apply HQ|done|].
  pose proof (rep_T _ _ _ HR). set_solver.
Qed.

(** What the view must provide for an allocation. *)
Record can_alloc W (b : Z) : Prop := {
  ca_sb : sb_of (w_cur W 1) = sb;
  ca_least : least_free sb (w_cur W) b;
  ca_data : 2 <= b < g_start g;
  ca_b : b ∉ w_secs W;
  ca_1 : 1 ∉ w_secs W;
  ca_map : forall b', 0 <= b' < sb_size sb -> BBLOCK b' (sb_ninodes sb) ∉ w_secs W;
  ca_busy : g_busy g = true;
  ca_slots : Z.of_nat (size (w_pins W)) + 1 < g_nlog g - 1;
  ca_room : (2 < wroom W)%nat
}.

(** The bitmap block that holds the first free bit. *)
Lemma balloc_at φ W b rest (Q : Z -> fs -> Prop) : Rep g φ W -> can_alloc W b ->
  (forall φ', Rep g φ' (v_alloc sb b W) -> Q b φ') ->
  wp (balloc_from 1 sb (b / BPB * BPB :: rest)) Q φ.
Proof.
  intros HR [_ (Hb & Hfree & Hleast) Hdata Hbh _ Hmap Hbusy Hn Hr] HQ.
  assert (BPB > 0) as HB by by vm_compute. pose proof (Z.div_mod b BPB ltac:(lia)) as Ediv.
  pose proof (Z.mod_pos_bound b BPB ltac:(lia)) as Hmod.
  set (b0 := b / BPB * BPB) in *. set (nin := sb_ninodes sb) in *.
  assert (0 <= b / BPB) by (apply Z.div_pos; lia).
  assert (b0 / BPB = b / BPB) as Eb0 by (unfold b0; apply Z.div_mul; lia).
  assert (BBLOCK b0 nin = BBLOCK b nin) as Es by (unfold BBLOCK; by rewrite Eb0).
  assert (first_free (w_cur W (BBLOCK b nin)) (zrange 0 (Z.min BPB (sb_size sb - b0))) = Some (b `mod` BPB)) as Hff.
  { apply first_free_least; [lia|exact Hfree|]. intros j Hj.
    specialize (Hleast (b0 + j) ltac:(lia)). unfold blk_free, BBLOCK in Hleast.
    assert ((b0 + j) / BPB = b / BPB) as E1.
    { unfold b0. rewrite Z.add_comm, Z.div_add by lia. rewrite (Z.div_small j) by lia. lia. }
    assert ((b0 + j) `mod` BPB = j) as E2.
    { unfold b0. rewrite Z.add_comm, Z.mod_add by lia. apply Z.mod_small. lia. }
    rewrite E1, E2 in Hleast. exact Hleast. }
  pose proof (bblock_range b Hb) as Hbr. fold nin in Hbr. specialize (Hmap b Hb). fold nin in Hmap.
  assert (block_ok (mark_used (b `mod` BPB) (w_cur W (BBLOCK b nin)))) as Hok.
  { apply mark_used_ok; [|apply mod_index]. eapply rep_cur_ok; [done|lia]. }
  assert (BBLOCK b nin ∉ w_T W) as HT by (pose proof (rep_T _ _ _ HR); set_solver).
  cbn [balloc_from]. fold nin. rewrite Es. rewrite wp_bind. eapply r_bread; [done|lia|done|right; lia|].
  intros i φ1 Hi HR1. rewrite wp_bind. eapply r_bdata; [done|apply lookup_insert_eq|].
  cbn [v_bread w_cur]. rewrite Hff.
  rewrite wp_bind. eapply r_bupd; [done|apply lookup_insert_eq|exact Hok|]. intros φ2 HR2.
  rewrite wp_bind. eapply r_log_write; [done|apply lookup_insert_eq|lia|done|cbn; lia| |].
  { pose proof (wroom_bread i (BBLOCK b nin) W Hi).
    assert (forall d, wroom (v_set (BBLOCK b nin) d (v_bread i (BBLOCK b nin) W)) =
      wroom (v_bread i (BBLOCK b nin) W)) as -> by done. lia. }
  intros φ3 HR3. rewrite wp_bind. eapply r_brelse; [done|apply lookup_insert_eq|cbn; set_solver|].
  intros φ4 HR4. rewrite v_put_canon in HR4 by done. cbn [v_bread w_cur] in HR4.
  set (W1 := v_put (BBLOCK b nin) _ W) in *.
  pose proof (size_pins_put (BBLOCK b nin) (mark_used (b `mod` BPB) (w_cur W (BBLOCK b nin))) W).
  pose proof (wroom_put (BBLOCK b nin) (mark_used (b `mod` BPB) (w_cur W (BBLOCK b nin))) W). fold W1 in H0, H1.
  replace (b0 + b `mod` BPB) with b by lia.
  rewrite wp_bind. eapply bzero_spec; [done|done|done|done|lia|lia|]. intros φ5 HR5. by apply wp_ret, HQ.
Qed.

Lemma balloc_spec φ W b (Q : Z -> fs -> Prop) : Rep g φ W -> can_alloc W b ->
  (forall φ', Rep g φ' (v_alloc sb b W) -> Q b φ') -> wp (balloc 1) Q φ.
Proof.
  intros HR Hca HQ. pose proof Hca as [Hsb (Hb & Hfree & Hleast) Hdata Hbh H1 Hmap Hbusy Hn Hr].
  assert (BPB > 0) as HB by by vm_compute. pose proof (Z.div_mod b BPB ltac:(lia)) as Ediv.
  pose proof (Z.mod_pos_bound b BPB ltac:(lia)) as Hmod. assert (0 <= b / BPB) by (apply Z.div_pos; lia).
  unfold balloc. rewrite wp_bind. eapply r_readsb; [done|pose proof (lay_start _ _ Hlay); lia|done|right; lia|].
  intros φ1 HR1. rewrite Hsb. unfold bitmap_starts.
  assert (b / BPB < (sb_size sb + BPB - 1) / BPB) as Hq.
  { apply Z.lt_le_trans with ((b + BPB) / BPB).
    - replace (b + BPB) with (b + 1 * BPB) by lia. rewrite Z.div_add by lia. lia.
    - apply Z.div_le_mono; lia. }
  rewrite (zrange_app 0 (b / BPB)), (zrange_cons (b / BPB)), fmap_app by lia. cbn [fmap list_fmap].
  eapply balloc_from_skip; [done|lia| |intros φ2 HR2; by eapply balloc_at].
  apply Forall_forall. intros b' (k & -> & Hk)%list_elem_of_fmap. unfold zrange in Hk. apply elem_of_seqZ in Hk.
  assert (k * BPB < b) by nia. assert (0 <= k * BPB < sb_size sb) as Hkb by nia.
  split; [by apply bblock_range|]. split; [by apply Hmap|].
  apply first_free_none. intros j Hj. assert (k * BPB + j < b) by nia.
  specialize (Hleast (k * BPB + j) ltac:(lia)). unfold blk_free, BBLOCK in Hleast. unfold BBLOCK.
  rewrite Z.div_mul by lia.
  rewrite (Z.add_comm (k * BPB) j), Z.div_add, Z.mod_add, (Z.div_small j), (Z.mod_small j) in Hleast by lia.
  exact Hleast.
Qed.

(** With no free block the kernel panics; nothing is handed out. *)
Lemma balloc_from_full φ W bs : Rep g φ W -> (0 < wroom W)%nat ->
  Forall (fun b => 2 <= BBLOCK b (sb_ninodes sb) < g_start g /\ BBLOCK b (sb_ninodes sb) ∉ w_secs W /\
    first_free (w_cur W (BBLOCK b (sb_ninodes sb))) (zrange 0 (Z.min BPB (sb_size sb - b))) = None) bs ->
  balloc_from 1 sb bs φ = Panic "balloc: out of blocks".
Proof.
  intros HR Hr Hbs. revert φ HR. induction Hbs as [|b bs (Hb & Hh & Hf) _ IH]; intros φ HR; [done|].
  cbn [balloc_from]. apply panics_bind. eapply r_bread; [done|lia|done|by right|]. intros i φ1 Hi HR1.
  apply panics_bind. eapply r_bdata; [done|apply lookup_insert_eq|].
  cbn [v_bread w_cur]. rewrite Hf. apply panics_bind. eapply r_brelse; [done|apply lookup_insert_eq| |].
  { pose proof (rep_T _ _ _ HR). cbn. set_solver. }
  intros φ2 HR2. rewrite v_read_canon in HR2 by done. by apply IH.
Qed.

Lemma balloc_full φ W : Rep g φ W -> sb_of (w_cur W 1) = sb -> 1 ∉ w_secs W ->
  (forall b, 0 <= b < sb_size sb -> BBLOCK b (sb_ninodes sb) ∉ w_secs W) -> (0 < wroom W)%nat ->
  (forall b, 0 <= b < sb_size sb -> blk_free (sb_ninodes sb) (w_cur W) b = false) ->
  balloc 1 φ = Panic "balloc: out of blocks".
Proof.
  intros HR Hsb H1 Hmap Hr Hfull. assert (BPB > 0) as HB by by vm_compute.
  unfold balloc. apply panics_bind. eapply r_readsb; [done|pose proof (lay_start _ _ Hlay); lia|done|right; lia|].
  intros φ1 HR1. rewrite Hsb. eapply balloc_from_full; [done|done|].
  apply Forall_forall. intros b' (k & -> & Hk)%list_elem_of_fmap. unfold zrange in Hk. apply elem_of_seqZ in Hk.
  assert (k * BPB < sb_size sb) as Hkb.
  { assert (k * BPB <= sb_size sb + BPB - 1 - BPB); [|lia].
    assert ((k + 1) * BPB <= sb_size sb + BPB - 1); [|lia]. rewrite Z.mul_comm.
    etrans; [apply Z.mul_le_mono_nonneg_l|apply (Z.mul_div_le (sb_size sb + BPB - 1) BPB)]; lia. }
  split; [apply bblock_range; nia|]. split; [apply Hmap; nia|].
  apply first_free_none. intros j Hj. specialize (Hfull (k * BPB + j) ltac:(nia)). unfold blk_free, BBLOCK in Hfull.
  unfold BBLOCK. rewrite Z.div_mul by lia.
  rewrite (Z.add_comm (k * BPB) j), Z.div_add, Z.mod_add, (Z.div_small j), (Z.mod_small j) in Hfull by lia.
  exact Hfull.
Qed.

Lemma bfree_spec φ W b (Q : unit -> fs -> Prop) : let s := BBLOCK b (sb_ninodes sb) in
  Rep g φ W -> sb_of (w_cur W 1) = sb -> 0 <= b < sb_size sb ->
  1 ∉ w_secs W -> s ∉ w_secs W -> g_busy g = true -> Z.of_nat (size (w_pins W)) < g_nlog g - 1 -> (1 < wroom W)%nat ->
  blk_free (sb_ninodes sb) (w_cur W) b = false ->
  (forall φ', Rep g φ' (v_put s (mark_free (b `mod` BPB) (w_cur W s)) W) -> Q tt φ') ->
  wp (bfree 1 b) Q φ.
Proof.
  intros s HR Hsb Hb H1 Hs Hbusy Hn Hr Hused HQ. unfold bfree.
  rewrite wp_bind. eapply r_readsb; [done|pose proof (lay_start _ _ Hlay); lia|done|right; lia|].
  intros φ1 HR1. rewrite Hsb. pose proof (bblock_range b Hb) as Hbr. fold s in Hbr |- *.
  rewrite wp_bind. eapply r_bread; [done|lia|done|right; lia|]. intros i φ2 Hi HR2. cbv zeta.
  rewrite wp_bind. eapply r_bdata; [done|apply lookup_insert_eq|]. cbn [v_bread w_cur].
  unfold blk_free in Hused. fold s in Hused. rewrite Hused.
  rewrite wp_bind. eapply r_bupd; [done|apply lookup_insert_eq|apply mark_free_ok; eapply rep_cur_ok; [done|lia]|].
  intros φ3 HR3. rewrite wp_bind. eapply r_log_write; [done|apply lookup_insert_eq|lia|done|done| |].
  { pose proof (wroom_bread i s W Hi).
    assert (forall d, wroom (v_set s d (v_bread i s W)) = wroom (v_bread i s W)) as -> by done. lia. }
  intros φ4 HR4. eapply r_brelse; [done|apply lookup_insert_eq|cbn; set_solver|].
  intros φ5 HR5. rewrite v_put_canon in HR5; [by apply HQ|done|]. pose proof (rep_T _ _ _ HR). set_solver.
Qed.

Lemma bfree_twice φ W b : let s := BBLOCK b (sb_ninodes sb) in
  Rep g φ W -> sb_of (w_cur W 1) = sb -> 0 <= b < sb_size sb ->
  1 ∉ w_secs W -> s ∉ w_secs W -> (1 < wroom W)%nat ->
  blk_free (sb_ninodes sb) (w_cur W) b = true -> bfree 1 b φ = Panic "freeing free block".
Proof.
  intros s HR Hsb Hb H1 Hs Hr Hfree. unfold bfree.
  apply panics_bind. eapply r_readsb; [done|pose proof (lay_start _ _ Hlay); lia|done|right; lia|].
  intros φ1 HR1. rewrite Hsb. pose proof (bblock_range b Hb) as Hbr. fold s in Hbr |- *.
  apply panics_bind. eapply r_bread; [done|lia|done|right; lia|]. intros i φ2 Hi HR2. cbv zeta.
  apply panics_bind. eapply r_bdata; [done|apply lookup_insert_eq|]. cbn [v_bread w_cur].
  unfold blk_free in Hfree. fold s in Hfree. by rewrite Hfree.
Qed.

(** ** The bitmap as a set *)

Lemma blk_free_alloc W b b' : (forall s, s < g_start g -> block_ok (w_cur W s)) -> 0 <= b < sb_size sb ->
  0 <= b' < sb_size sb -> b <> BBLOCK b' (sb_ninodes sb) ->
  blk_free (sb_ninodes sb) (w_cur (v_alloc sb b W)) b' =
  if decide (b = b') then false else blk_free (sb_ninodes sb) (w_cur W) b'.
Proof.
  intros Hok Hb Hb' Hn. unfold blk_free, v_alloc. cbn [v_put w_cur].
  rewrite fn_lookup_insert_ne by done. set (s := BBLOCK b (sb_ninodes sb)).
  pose proof (bblock_range b Hb) as Hr. fold s in Hr.
  destruct (decide (BBLOCK b' (sb_ninodes sb) = s)) as [E|N].
  - rewrite E, fn_lookup_insert, mark_used_free by (apply mod_index || apply Hok; lia).
    assert (b / BPB = b' / BPB) as Ed by (unfold s, BBLOCK in E; lia).
    repeat case_decide; try done; [|subst; done].
    destruct H0. rewrite (Z.div_mod b BPB), (Z.div_mod b' BPB) by (by vm_compute). congruence.
  - rewrite fn_lookup_insert_ne by done. rewrite decide_False; [done|]. intros ->. done.
Qed.
End alloc.
