(* ===== verification/Content.v ===== *)
(** The contents of files: [bmap] on mapped blocks, [readi] and the checksum. *)
From S2P Require Import Prelude Bio Cache Log LogSpec Trans Str Fs FsView Alloc.

(** ** Specification *)

(** The address of block [bn] of the file, read from the inode or its indirect block. *)
Definition addr_of (cur : Z -> block) (di : dinode) (bn : Z) : Z :=
  if bn <? NDIRECT then default 0 (di_addrs di !! Z.to_nat bn)
  else get32 (cur (default 0 (di_addrs di !! Z.to_nat NDIRECT))) (4 * (bn - NDIRECT)).

Definition file_byte (cur : Z -> block) (di : dinode) (off : Z) : Z :=
  byte_at (cur (addr_of cur di (off / BSIZE))) (off `mod` BSIZE).

Definition file_bytes (cur : Z -> block) (di : dinode) (off n : Z) : list Z :=
  file_byte cur di <$> zrange off (off + n).

Definition file_content (cur : Z -> block) (di : dinode) : list Z := file_bytes cur di 0 (di_size di).

(** Exclusive or of the little-endian words of [l], the last one padded with zeros. *)
Fixpoint checksum (l : list Z) : Z :=
  match l with
  | a :: b :: c :: d :: l' => Z.lxor (le_dec [a; b; c; d]) (checksum l')
  | _ => le_dec l
  end.

(** Block [bn] of the file is mapped to a block of the file system that can be read. *)
Record block_mapped (g : geometry) (W : fview) (di : dinode) (bn : Z) : Prop := {
  bm_range : 0 <= bn < MAXFILE;
  bm_nonzero : addr_of (w_cur W) di bn <> 0;
  bm_addr : 0 <= addr_of (w_cur W) di bn < g_start g;
  bm_free : addr_of (w_cur W) di bn ∉ w_secs W;
  bm_ind : NDIRECT <= bn -> let a := default 0 (di_addrs di !! Z.to_nat NDIRECT) in
             0 < a < g_start g /\ a ∉ w_secs W
}.

(** A file without holes: every block below its size is mapped. *)
Record readable (g : geometry) (W : fview) (di : dinode) : Prop := {
  rd_addrs : length (di_addrs di) = Z.to_nat (NDIRECT + 1);
  rd_size : 0 <= di_size di <= MAXFILE * BSIZE;
  rd_blocks : forall bn, 0 <= bn -> bn * BSIZE < di_size di -> block_mapped g W di bn
}.

(** ** Slices of blocks *)

Lemma slice_bytes d o m : 0 <= o -> 0 <= m -> o + m <= Z.of_nat (length d) ->
  slice d o m = (fun k => byte_at d k) <$> zrange o (o + m).
Proof.
  intros Ho Hm Hl. apply list_eq. intros j. unfold slice, byte_at.
  rewrite list_lookup_fmap, lookup_zrange. destruct (decide (Z.of_nat j < m)).
  - rewrite decide_True by lia. rewrite lookup_take_lt, lookup_drop by lia. simpl.
    replace (Z.to_nat (o + Z.of_nat j)) with (Z.to_nat o + j)%nat by lia.
    destruct (d !! (Z.to_nat o + j)%nat) eqn:E; [done|]. apply lookup_ge_None in E. lia.
  - rewrite decide_False by lia. apply lookup_take_ge. lia.
Qed.

Lemma length_file_bytes cur di off n : 0 <= n -> length (file_bytes cur di off n) = Z.to_nat n.
Proof. intros. unfold file_bytes. rewrite length_fmap, length_zrange. lia. Qed.

Lemma file_bytes_app cur di off m n : 0 <= m -> 0 <= n ->
  file_bytes cur di off (m + n) = file_bytes cur di off m ++ file_bytes cur di (off + m) n.
Proof.
  intros. unfold file_bytes. rewrite (zrange_app off (off + m)) by lia. rewrite fmap_app. by rewrite Z.add_assoc.
Qed.

(** The bytes of one block. *)
Lemma file_bytes_block cur di off m : 0 <= off -> 0 <= m -> off `mod` BSIZE + m <= BSIZE ->
  block_ok (cur (addr_of cur di (off / BSIZE))) ->
  file_bytes cur di off m = slice (cur (addr_of cur di (off / BSIZE))) (off `mod` BSIZE) m.
Proof.
  intros Ho Hm Hle [Hlen _]. assert (BSIZE = 512) as HB by done. rewrite HB in *.
  pose proof (Z.div_mod off 512 ltac:(lia)). pose proof (Z.mod_pos_bound off 512 ltac:(lia)).
  rewrite slice_bytes by (rewrite ?Hlen; lia). unfold file_bytes.
  apply list_eq. intros j. rewrite !list_lookup_fmap, !lookup_zrange.
  destruct (decide (off + Z.of_nat j < off + m)).
  - rewrite decide_True by lia. simpl. f_equal. unfold file_byte. rewrite HB.
    assert ((off + Z.of_nat j) / 512 = off / 512) as ->.
    { symmetry. apply (Z.div_unique _ _ _ (off `mod` 512 + Z.of_nat j)); lia. }
    assert ((off + Z.of_nat j) `mod` 512 = off `mod` 512 + Z.of_nat j) as ->; [|done].
    symmetry. apply (Z.mod_unique _ _ (off / 512)); lia.
  - by rewrite decide_False by lia.
Qed.

(** ** The checksum function *)

Lemma four_ind (P : list Z -> Prop) : (forall l, (length l < 4)%nat -> P l) ->
  (forall a b c d l, P l -> P (a :: b :: c :: d :: l)) -> forall l, P l.
Proof.
  intros Hs Hstep l. remember (length l) as n eqn:E. revert l E.
  induction n as [n IH] using lt_wf_ind. intros l ->.
  destruct l as [|a [|b [|c [|d l]]]]; try (apply Hs; simpl; lia).
  apply Hstep. eapply IH; [|done]. simpl. lia.
Qed.

Lemma checksum_short l : (length l < 4)%nat -> checksum l = le_dec l.
Proof. destruct l as [|? [|? [|? [|? ?]]]]; simpl; [done..|lia]. Qed.

Lemma checksum_app l1 l2 : (4 | Z.of_nat (length l1)) ->
  checksum (l1 ++ l2) = Z.lxor (checksum l1) (checksum l2).
Proof.
  revert l1. apply (four_ind (fun l1 => (4 | Z.of_nat (length l1)) -> checksum (l1 ++ l2) = _)).
  - intros l Hl [k Hk]. destruct l as [|x l]; [done|]. simpl in *. lia.
  - intros a b c d l IH [k Hk]. cbn [app checksum]. rewrite IH, Z.lxor_assoc; [done|].
    exists (k - 1). simpl in Hk. lia.
Qed.

Lemma le_dec_zeros l n : le_dec (l ++ replicate n 0) = le_dec l.
Proof.
  induction l as [|x l IH]; 
    [|change (x + 256 * le_dec (l ++ replicate n 0) = x + 256 * le_dec l); by rewrite IH].
  rewrite app_nil_l. induction n as [|n IH]; [done|].
  change (0 + 256 * le_dec (replicate n 0) = 0). rewrite IH. done.
Qed.

Lemma words_S d n : words d 0 (S n) = le_dec (take 4 d) :: words (drop 4 d) 0 n.
Proof.
  unfold words. rewrite <- cons_seq. cbn [fmap list_fmap]. f_equal.
  rewrite <- fmap_S_seq, <- list_fmap_compose. apply list_fmap_ext. intros _ k _. cbn.
  unfold get32, slice. rewrite drop_drop. do 3 f_equal. lia.
Qed.

Lemma fill_short n l : (length l <= n)%nat -> fill n l = l ++ replicate (n - length l) 0.
Proof.
  intros H. unfold fill. rewrite take_app_ge by done. f_equal. rewrite take_replicate. f_equal. lia.
Qed.

Lemma xor_words_zeros n m : xor_words (replicate m 0) n = 0.
Proof.
  unfold xor_words. revert m. induction n as [|n IH]; intros m; [done|]. rewrite words_S. cbn [foldr].
  rewrite drop_replicate, IH, take_replicate. change (replicate (4 `min` m) 0) with ([] ++ replicate (4 `min` m) 0).
  by rewrite le_dec_zeros.
Qed.

Lemma xor_words_fill n l : (length l <= 4 * n)%nat -> xor_words (fill (4 * n) l) n = checksum l.
Proof.
  intros Hl. rewrite fill_short by done. revert n Hl.
  induction l as [l Hs|a b c d l IH] using four_ind; intros n Hl.
  - rewrite checksum_short by done. destruct n as [|n]; [destruct l; [done|simpl in Hl; lia]|].
    unfold xor_words. rewrite words_S. cbn [foldr]. fold (xor_words (drop 4 (l ++ replicate (4 * S n - length l) 0)) n).
    rewrite drop_app_ge, drop_replicate, xor_words_zeros, Z.lxor_0_r by lia.
    rewrite take_app_ge, take_replicate by lia. apply le_dec_zeros.
  - destruct n as [|n]; [simpl in Hl; lia|]. unfold xor_words. rewrite words_S. cbn [app take drop foldr checksum].
    f_equal. specialize (IH n ltac:(simpl in Hl; lia)).
    replace (4 * S n - length (a :: b :: c :: d :: l))%nat with (4 * n - length l)%nat by (simpl; lia). exact IH.
Qed.

Lemma lxor_cancel_l a b c : Z.lxor a b = Z.lxor a c -> b = c.
Proof.
  intros E. rewrite <- (Z.lxor_0_l b), <- (Z.lxor_0_l c), <- (Z.lxor_nilpotent a), !Z.lxor_assoc. by rewrite E.
Qed.

Lemma lxor_cancel_r a b c : Z.lxor b a = Z.lxor c a -> b = c.
Proof. rewrite !(Z.lxor_comm _ a). apply lxor_cancel_l. Qed.

Lemma le_dec_inj l1 l2 : Forall is_byte l1 -> Forall is_byte l2 -> length l1 = length l2 ->
  le_dec l1 = le_dec l2 -> l1 = l2.
Proof.
  revert l2. induction l1 as [|x l1 IH]; intros [|y l2] H1 H2 Hl E; try done.
  apply Forall_cons in H1 as [Hx H1], H2 as [Hy H2]. 
  change (x + 256 * le_dec l1 = y + 256 * le_dec l2) in E. unfold is_byte in Hx, Hy.
  assert (x = y) as -> by lia. f_equal. apply IH; try done; [simpl in Hl; lia|lia].
Qed.

Lemma checksum_word l : (length l <= 4)%nat -> checksum l = le_dec l.
Proof.
  destruct l as [|a [|b [|c [|d [|e l]]]]]; simpl; try done; [|lia]. by rewrite Z.lxor_0_r.
Qed.

Lemma slice_content cur di off n : 0 <= off -> 0 <= n -> off + n <= di_size di ->
  slice (file_content cur di) off n = file_bytes cur di off n.
Proof.
  intros Ho Hn Hs. unfold file_content. replace (di_size di) with (off + (n + (di_size di - off - n))) by lia.
  rewrite !file_bytes_app, Z.add_0_l by lia. unfold slice.
  rewrite drop_app_ge by (rewrite length_file_bytes; lia). rewrite length_file_bytes, Nat.sub_diag, drop_0 by lia.
  rewrite take_app_le by (rewrite length_file_bytes; lia). apply take_ge. rewrite length_file_bytes; lia.
Qed.

Section content.
Context (g : geometry) (devsw : Z -> devsw_t).
Implicit Types (φ : fs) (W : fview).

(** ** [bmap] on a mapped block changes nothing *)

Lemma bmap_mapped φ W i ip bn (Q : Z -> fs -> Prop) : Rep g φ W -> w_ic W !! i = Some ip -> i_dev ip = 1 ->
  length (i_addrs ip) = Z.to_nat (NDIRECT + 1) -> block_mapped g W (i_d ip) bn -> (0 < wroom W)%nat ->
  (forall φ', Rep g φ' W -> Q (addr_of (w_cur W) (i_d ip) bn) φ') -> wp (bmap (Some i) bn) Q φ.
Proof.
  intros HR Hip Hdev Hlen [Hbn Hnz Ha Hfr Hind] Hr HQ. unfold bmap. rewrite wp_bind. eapply r_geti; [done|done|].
  unfold addr_of in *. unfold i_addrs in *. destruct (Z.ltb_spec bn NDIRECT) as [Hlt|Hge].
  - destruct (di_addrs (i_d ip) !! Z.to_nat bn) as [a|] eqn:Ea.
    2:{ apply lookup_ge_None in Ea. lia. }
    rewrite wp_bind. apply wp_ret. cbn [default from_option id] in *.
    destruct (Z.eqb_spec a 0); [done|]. by apply wp_ret, HQ.
  - unfold MAXFILE in Hbn. destruct (Z.ltb_spec (bn - NDIRECT) NINDIRECT); [|lia].
    destruct (di_addrs (i_d ip) !! Z.to_nat NDIRECT) as [a|] eqn:Ea.
    2:{ apply lookup_ge_None in Ea. unfold NDIRECT in *. lia. }
    rewrite wp_bind. apply wp_ret. cbn [default from_option id] in *.
    destruct (Hind Hge) as [Har Hah]. rewrite wp_bind. destruct (Z.eqb_spec a 0); [lia|]. apply wp_ret.
    rewrite wp_bind, Hdev. eapply r_bread; [done|lia|done|by right|]. intros bp φ1 Hbp HR1.
    rewrite wp_bind. eapply r_bdata; [done|apply lookup_insert_eq|]. cbn [v_bread w_cur].
    rewrite wp_bind. destruct (Z.eqb_spec (get32 (w_cur W a) (4 * (bn - NDIRECT))) 0); [done|]. apply wp_ret.
    rewrite wp_bind. eapply r_brelse; [done|apply lookup_insert_eq| |].
    { pose proof (rep_T _ _ _ HR). cbn. set_solver. }
    intros φ2 HR2. rewrite v_read_canon in HR2 by done. by apply wp_ret, HQ.
Qed.

(** ** [readi] *)

Lemma readi_loop_spec fuel φ W i ip off n tot acc (Q : list Z -> fs -> Prop) :
  Rep g φ W -> w_ic W !! i = Some ip -> i_dev ip = 1 -> readable g W (i_d ip) -> (0 < wroom W)%nat ->
  0 <= off -> 0 <= tot <= n -> off + (n - tot) <= i_size ip ->
  n - tot <= 0 \/ (off `mod` BSIZE + (n - tot) <= BSIZE * (Z.of_nat fuel - 1)) -> (0 < fuel)%nat ->
  (forall φ', Rep g φ' W -> Q (acc ++ file_bytes (w_cur W) (i_d ip) off (n - tot)) φ') ->
  wp (readi_loop fuel (Some i) off n tot acc) Q φ.
Proof.
  intros HR Hip Hdev Hrd Hr. revert φ off tot acc HR. induction fuel as [|fuel IH];
    intros φ off tot acc HR Hoff Htot Hsz Hfuel Hf0 HQ; [lia|].
  assert (BSIZE = 512) as HB by done. rewrite HB in *. cbn [readi_loop]. rewrite HB.
  pose proof (rd_size _ _ _ Hrd) as Hmax. assert (MAXFILE * BSIZE = 70656) as HM by done. rewrite HM in Hmax. clear HM.
  change (di_size (i_d ip)) with (i_size ip) in Hmax.
  destruct (Z.ltb_spec tot n) as [Hlt|Hge].
  2:{ apply wp_ret. specialize (HQ φ HR). replace (n - tot) with 0 in HQ by lia.
      unfold file_bytes in HQ. rewrite zrange_nil, app_nil_r in HQ by lia. exact HQ. }
  pose proof (Z.mod_pos_bound off 512 ltac:(lia)) as Hmod. pose proof (Z.div_mod off 512 ltac:(lia)) as Hdm.
  set (m := Z.min (n - tot) (512 - off `mod` 512)). assert (0 < m <= n - tot) as Hm by lia.
  assert (0 <= off / 512) by (apply Z.div_pos; lia).
  assert (block_mapped g W (i_d ip) (off / 512)) as Hbm.
  { apply (rd_blocks _ _ _ Hrd); [done|]. unfold i_size in Hsz. rewrite HB. lia. }
  rewrite wp_bind. eapply r_geti; [done|done|]. rewrite wp_bind. eapply bmap_mapped; try done; [apply Hrd|].
  intros φ1 HR1. destruct Hbm as [_ _ Ha Hah _]. set (a := addr_of (w_cur W) (i_d ip) (off / 512)) in *.
  assert (block_ok (w_cur W a)) as Hok by (eapply rep_cur_ok; [exact HR|lia]).
  rewrite Hdev. eapply (r_read g φ1 W a (fun d => readi_loop fuel (Some i) (u32 (off + m)) n (tot + m) (acc ++ slice d (off `mod` 512) m)));
    [done|lia|done|by right|].
  intros φ2 HR2. rewrite u32_small by lia.
  apply IH; try done; try lia.
  - unfold m. destruct (Z.min_spec (n - tot) (512 - off `mod` 512)) as [[? ->]|[? ->]]; [left; lia|right].
    replace (off + (512 - off `mod` 512)) with (0 + (off / 512 + 1) * 512) by lia.
    rewrite Z.mod_add by lia. rewrite Z.mod_0_l by lia. lia.
  - intros φ3 HR3. specialize (HQ φ3 HR3). rewrite <- app_assoc.
    replace (n - tot) with (m + (n - (tot + m))) in HQ by lia. rewrite file_bytes_app in HQ by lia.
    rewrite (file_bytes_block _ _ off m) in HQ; rewrite ?HB; try done; lia.
Qed.

(** The number of bytes [readi] transfers. *)
Definition read_len (size off n : Z) : Z := if size <? off + n then size - off else n.

Lemma readi_spec φ W i ip off n (Q : Z * list Z -> fs -> Prop) :
  Rep g φ W -> w_ic W !! i = Some ip -> i_dev ip = 1 -> i_type ip <> T_DEV -> readable g W (i_d ip) ->
  (0 < wroom W)%nat -> 0 <= off <= i_size ip -> 0 <= n -> off + n < 2 ^ 32 ->
  (forall φ', Rep g φ' W -> let k := read_len (i_size ip) off n in
     Q (k, file_bytes (w_cur W) (i_d ip) off k) φ') ->
  wp (readi devsw (Some i) off n) Q φ.
Proof.
  intros HR Hip Hdev Hty Hrd Hr Hoff Hn Hw HQ. unfold readi. rewrite wp_bind. eapply r_geti; [done|done|].
  destruct (Z.eqb_spec (i_type ip) T_DEV); [done|].
  pose proof (rd_size _ _ _ Hrd) as Hmax. assert (MAXFILE * BSIZE = 70656) as HM by done. rewrite HM in Hmax. clear HM.
  change (di_size (i_d ip)) with (i_size ip) in Hmax.
  rewrite u32_small by lia. destruct (Z.ltb_spec (i_size ip) off); [lia|].
  destruct (Z.ltb_spec (off + n) off); [lia|]. cbn [orb].
  fold (read_len (i_size ip) off n). set (k := read_len (i_size ip) off n).
  assert (0 <= k /\ off + k <= i_size ip) as [Hk0 Hk].
  { unfold k, read_len. destruct (Z.ltb_spec (i_size ip) (off + n)); lia. }
  rewrite wp_bind. eapply readi_loop_spec; try done; try lia.
  - right. unfold loop_bound, BSIZE in *. pose proof (Z.mod_pos_bound off 512 ltac:(lia)).
    pose proof (Z.div_mod k 512 ltac:(lia)). pose proof (Z.mod_pos_bound k 512 ltac:(lia)).
    assert (0 <= k / 512) by (apply Z.div_pos; lia). rewrite Z2Nat.id by lia. lia.
  - unfold loop_bound, BSIZE. assert (0 <= k / 512) by (apply Z.div_pos; lia). lia.
  - intros φ1 HR1. apply wp_ret. rewrite app_nil_l, Z.sub_0_r. rewrite s32_small by lia. by apply HQ.
Qed.

(** Offsets past the end and requests whose end wraps are refused. *)
Lemma readi_refused φ W i ip off n : Rep g φ W -> w_ic W !! i = Some ip -> i_type ip <> T_DEV ->
  i_size ip < off \/ u32 (off + n) < off -> readi devsw (Some i) off n φ = Ret (-1, []) φ.
Proof.
  intros HR Hip Hty Hbad. unfold readi, geti, bind, get, lift_opt. rewrite (rep_ic _ _ _ HR), Hip. cbn. destruct (Z.eqb_spec (i_type ip) T_DEV); [done|].
  assert ((i_size ip <? off) || (u32 (off + n) <? off) = true) as ->; [|done].
  apply orb_true_iff. rewrite !Z.ltb_lt. done.
Qed.

(** ** [ichecksum] *)

Lemma ichecksum_loop_spec fuel φ W i ip off c (Q : Z -> fs -> Prop) :
  Rep g φ W -> w_ic W !! i = Some ip -> i_dev ip = 1 -> i_type ip <> T_DEV -> readable g W (i_d ip) ->
  (0 < wroom W)%nat -> 0 <= off <= i_size ip -> i_size ip - off <= 2048 * (Z.of_nat fuel - 1) ->
  (forall φ', Rep g φ' W ->
     Q (Z.lxor c (checksum (file_bytes (w_cur W) (i_d ip) off (i_size ip - off)))) φ') ->
  wp (ichecksum_loop devsw fuel (Some i) off c) Q φ.
Proof.
  intros HR Hip Hdev Hty Hrd Hr. revert φ off c HR. induction fuel as [|fuel IH];
    intros φ off c HR Hoff Hfuel HQ; [lia|].
  pose proof (rd_size _ _ _ Hrd) as Hmax. assert (MAXFILE * BSIZE = 70656) as HM by done. rewrite HM in Hmax. clear HM.
  change (di_size (i_d ip)) with (i_size ip) in Hmax.
  cbn [ichecksum_loop]. rewrite wp_bind. eapply readi_spec; try done; try lia.
  intros φ1 HR1. cbv zeta. cbn [fst snd]. set (k := read_len (i_size ip) off 2048).
  assert (0 <= k <= 2048 /\ off + k <= i_size ip /\ (k < 2048 -> off + k = i_size ip)) as (Hk & Hk' & Hk'').
  { unfold k, read_len. destruct (Z.ltb_spec (i_size ip) (off + 2048)); lia. }
  rewrite (u32_small k) by lia. specialize (HQ) as HQ'.
  destruct (Z.ltb_spec 0 k).
  - rewrite u32_small by lia. apply IH; try done; try lia. intros φ2 HR2. specialize (HQ φ2 HR2).
    rewrite (xor_words_fill 512) by (rewrite length_file_bytes; lia).
    replace (i_size ip - off) with (k + (i_size ip - (off + k))) in HQ by lia.
    rewrite file_bytes_app in HQ by lia. rewrite Z.lxor_assoc.
    destruct (decide (k = 2048)) as [E|].
    + rewrite checksum_app in HQ; [done|]. rewrite length_file_bytes by lia. rewrite E. by exists 512.
    + replace (i_size ip - (off + k)) with 0 in * by lia. unfold file_bytes in HQ |- *.
      rewrite (zrange_nil (off + k)) in HQ |- * by lia. cbn [fmap list_fmap] in *. rewrite app_nil_r in HQ.
      cbn [checksum le_dec]. by rewrite Z.lxor_0_r.
  - apply wp_ret. specialize (HQ φ1 HR1). replace (i_size ip - off) with 0 in HQ by lia.
    unfold file_bytes in HQ. rewrite zrange_nil in HQ by lia. cbn in HQ. by rewrite Z.lxor_0_r in HQ.
Qed.

Lemma ichecksum_spec φ W i ip (Q : Z -> fs -> Prop) :
  Rep g φ W -> w_ic W !! i = Some ip -> i_dev ip = 1 -> i_type ip <> T_DEV -> readable g W (i_d ip) ->
  (0 < wroom W)%nat ->
  (forall φ', Rep g φ' W -> Q (checksum (file_content (w_cur W) (i_d ip))) φ') ->
  wp (ichecksum devsw (Some i)) Q φ.
Proof.
  intros HR Hip Hdev Hty Hrd Hr HQ. unfold ichecksum. rewrite wp_bind. eapply r_geti; [done|done|].
  destruct (Z.eqb_spec (i_type ip) T_DEV); [done|].
  pose proof (rd_size _ _ _ Hrd) as Hmax. change (di_size (i_d ip)) with (i_size ip) in Hmax.
  eapply ichecksum_loop_spec; try done; try lia.
  - pose proof (Z.div_mod (i_size ip) 2048 ltac:(lia)). pose proof (Z.mod_pos_bound (i_size ip) 2048 ltac:(lia)).
    assert (0 <= i_size ip / 2048) by (apply Z.div_pos; lia). rewrite Z2Nat.id by lia. lia.
  - intros φ1 HR1. rewrite Z.lxor_0_l, Z.sub_0_r. by apply HQ.
Qed.

(** Devices are not checksummed. *)
Lemma ichecksum_dev φ W i ip : Rep g φ W -> w_ic W !! i = Some ip -> i_type ip = T_DEV ->
  ichecksum devsw (Some i) φ = Ret 0 φ.
Proof.
  intros HR Hip Hty. unfold ichecksum, geti, bind, get, lift_opt. rewrite (rep_ic _ _ _ HR), Hip. cbn. by rewrite Hty.
Qed.
End content.
