(* ===== verification/Verify.v ===== *)
(** Locking an inode: [iget], and the verification of the checksum with the
    fallback to the ditto replicas in [ilock_ext]. *)
From S2P Require Import Prelude Bio Cache Log LogSpec Trans Str Fs FsView Alloc Content.

(** ** Searching the inode cache *)

Definition caches (inum : Z) (ip : inode) : bool := (0 <? i_ref ip) && (i_dev ip =? 1) && (i_inum ip =? inum).

(** Inode [inum] has no entry in the cache. *)
Definition uncached (ic : list inode) (inum : Z) : Prop := forall j q, ic !! j = Some q -> caches inum q = false.

(** ** Specification *)

Definition dinode_at (cur : Z -> block) (inum : Z) : dinode := get_dinode (cur (IBLOCK inum)) (dinode_off inum).

Definition intact (cur : Z -> block) (di : dinode) : bool := checksum (file_content cur di) =? di_checksum di.

(** Inode [inum] and its contents can be read. *)
Record sound_inode (g : geometry) (W : fview) (inum : Z) : Prop := {
  si_block : 0 <= IBLOCK inum < g_start g;
  si_free : IBLOCK inum ∉ w_secs W;
  si_type : di_type (dinode_at (w_cur W) inum) <> 0;
  si_nodev : di_type (dinode_at (w_cur W) inum) <> T_DEV;
  si_data : readable g W (dinode_at (w_cur W) inum)
}.

(** The entry before and after: unlocked and not yet read, then loaded. *)
Definition fresh_entry (inum : Z) (ip : inode) : Prop :=
  i_dev ip = 1 /\ i_inum ip = inum /\ 1 <= i_ref ip /\ flag (i_flags ip) I_BUSY = false /\ flag (i_flags ip) I_VALID = false.
Definition loaded (cur : Z -> block) (ip : inode) : inode := upd_d (fun _ => dinode_at cur (i_inum ip)) ip.
Definition locked (cur : Z -> block) (ip : inode) : inode :=
  upd_flags (fun f => flag_set (flag_set f I_BUSY) I_VALID) (loaded cur ip).
Definition rejected (cur : Z -> block) (ip : inode) : inode :=
  upd_flags (fun f => flag_clr (flag_set f I_BUSY) I_BUSY) (loaded cur ip).

(** The lock bits of an inode. *)
Lemma set_busy_valid f : flag (flag_set f I_BUSY) I_VALID = flag f I_VALID.
Proof. change I_BUSY with B_BUSY. change I_VALID with B_VALID. by flags. Qed.
Lemma set_busy_busy f : flag (flag_set f I_BUSY) I_BUSY = true.
Proof. change I_BUSY with B_BUSY. by flags. Qed.
Lemma set_valid_busy f : flag (flag_set f I_VALID) I_BUSY = flag f I_BUSY.
Proof. change I_BUSY with B_BUSY. change I_VALID with B_VALID. by flags. Qed.
Lemma clr_busy_busy f : flag (flag_clr f I_BUSY) I_BUSY = false.
Proof. change I_BUSY with B_BUSY. by flags. Qed.
Lemma clr_busy_valid f : flag (flag_clr f I_BUSY) I_VALID = flag f I_VALID.
Proof. change I_BUSY with B_BUSY. change I_VALID with B_VALID. by flags. Qed.
Lemma set_valid_valid f : flag (flag_set f I_VALID) I_VALID = true.
Proof. change I_VALID with B_VALID. by flags. Qed.

Section verify.
Context (g : geometry) (devsw : Z -> devsw_t).
Implicit Types (φ : fs) (W : fview).

Lemma v_ic_id W : v_ic (fun l => l) W = W.
Proof. by destruct W. Qed.

Lemma v_ic_comp f h W : v_ic f (v_ic h W) = v_ic (fun l => f (h l)) W.
Proof. done. Qed.

Lemma v_ic_insert2 i x y W : v_ic (insert i y) (v_ic (insert i x) W) = v_ic (insert i y) W.
Proof. unfold v_ic. cbn. by rewrite list_insert_insert_eq. Qed.

Lemma lookup_ic_insert i x y W : w_ic W !! i = Some y -> w_ic (v_ic (insert i x) W) !! i = Some x.
Proof. intros H. cbn. apply list_lookup_insert_eq. by eapply lookup_lt_Some. Qed.

(** The disk part of the view does not see the inode cache. *)
Lemma sound_inode_ic f W inum : sound_inode g W inum -> sound_inode g (v_ic f W) inum.
Proof.
  intros [? ? ? ? [? ? Hb]]. split; try done. split; try done.
  intros bn H1 H2. destruct (Hb bn H1 H2). by split.
Qed.

Lemma load_inode_spec φ W i ip (Q : unit -> fs -> Prop) : Rep g φ W -> w_ic W !! i = Some ip -> i_dev ip = 1 ->
  0 <= IBLOCK (i_inum ip) < g_start g -> IBLOCK (i_inum ip) ∉ w_secs W -> (0 < wroom W)%nat ->
  (forall φ', Rep g φ' (v_ic (insert i (loaded (w_cur W) ip)) W) -> Q tt φ') ->
  wp (load_inode (Some i)) Q φ.
Proof.
  intros HR Hip Hdev Hs Hh Hr HQ. unfold load_inode. rewrite wp_bind. eapply r_geti; [done|done|]. rewrite Hdev.
  rewrite wp_bind. eapply r_bread; [done|lia|done|by right|]. intros bp φ1 Hbp HR1.
  rewrite wp_bind. eapply r_bdata; [done|apply lookup_insert_eq|]. cbn [v_bread w_cur].
  rewrite wp_bind. eapply r_updi; [done|exact Hip|]. intros φ2 HR2.
  eapply r_brelse; [done|apply lookup_insert_eq| |].
  { pose proof (rep_T _ _ _ HR). cbn. set_solver. }
  intros φ3 HR3. apply HQ.
  replace (v_brelse bp _) with (v_ic (insert i (loaded (w_cur W) ip)) W) in HR3; [done|].
  unfold v_ic, v_brelse, v_bread. cbn. by rewrite delete_insert_id.
Qed.

Lemma iunlock_spec φ W i ip (Q : unit -> fs -> Prop) : Rep g φ W -> w_ic W !! i = Some ip ->
  flag (i_flags ip) I_BUSY = true -> 1 <= i_ref ip ->
  (forall φ', Rep g φ' (v_ic (insert i (upd_flags (fun f => flag_clr f I_BUSY) ip)) W) -> Q tt φ') ->
  wp (iunlock (Some i)) Q φ.
Proof.
  intros HR Hip Hb Hr HQ. unfold iunlock. rewrite wp_bind. eapply r_geti; [done|done|]. rewrite Hb.
  destruct (Z.ltb_spec (i_ref ip) 1); [lia|]. cbn [negb orb]. by eapply r_updi.
Qed.

Lemma zc_success_spec φ W i ip (Q : Z -> fs -> Prop) : Rep g φ W -> w_ic W !! i = Some ip -> i_type ip <> 0 ->
  (forall φ', Rep g φ' (v_ic (insert i (upd_flags (fun f => flag_set f I_VALID) ip)) W) -> Q 0 φ') ->
  wp (zc_success (Some i)) Q φ.
Proof.
  intros HR Hip Ht HQ. unfold zc_success. rewrite wp_bind. eapply r_updi; [done|done|]. intros φ1 HR1.
  rewrite wp_bind. eapply r_geti; [done|by eapply lookup_ic_insert|].
  change (i_type (upd_flags _ ip)) with (i_type ip). destruct (Z.eqb_spec (i_type ip) 0); [done|]. by apply wp_ret, HQ.
Qed.

(** The common prefix of [ilock_ext]: mark busy and load. *)
Lemma ilock_load fuel φ W i ip inum (Q : Z -> fs -> Prop) : Rep g φ W -> w_ic W !! i = Some ip -> fresh_entry inum ip ->
  sound_inode g W inum -> (0 < wroom W)%nat ->
  (forall φ', Rep g φ' (v_ic (insert i (upd_flags (fun f => flag_set f I_BUSY) (loaded (w_cur W) ip))) W) ->
     wp (zc_verify devsw (fun q => ilock_rec devsw fuel q true) (Some i) [i_child1; i_child2]) Q φ') ->
  wp (ilock_rec devsw (S fuel) (Some i) true) Q φ.
Proof.
  intros HR Hip (Hdev & Hin & Href & Hb & Hv) Hs Hr HQ. cbn [ilock_rec]. rewrite wp_bind.
  eapply r_geti; [done|done|]. destruct (Z.ltb_spec (i_ref ip) 1); [lia|]. rewrite Hb.
  rewrite wp_bind. eapply r_updi; [done|done|]. intros φ1 HR1. rewrite Hv.
  rewrite wp_bind. eapply load_inode_spec; [done|by eapply lookup_ic_insert|done|..].
  - change (i_inum (upd_flags _ ip)) with (i_inum ip). rewrite Hin. apply Hs.
  - change (i_inum (upd_flags _ ip)) with (i_inum ip). rewrite Hin. apply (si_free _ _ _ Hs).
  - done.
  - intros φ2 HR2. cbn [negb]. apply HQ. rewrite v_ic_insert2 in HR2. exact HR2.
Qed.

(** The checksum comparison on a loaded entry. *)
Lemma zc_checksum φ W i ip inum (Q : Z -> fs -> Prop) : Rep g φ W -> w_ic W !! i = Some ip -> i_dev ip = 1 ->
  i_inum ip = inum -> i_d ip = dinode_at (w_cur W) inum -> sound_inode g W inum -> (0 < wroom W)%nat ->
  (forall φ', Rep g φ' W -> Q (checksum (file_content (w_cur W) (i_d ip))) φ') ->
  wp (ichecksum devsw (Some i)) Q φ.
Proof.
  intros HR Hip Hdev Hin Ed Hs Hr HQ. eapply ichecksum_spec; try done.
  - unfold i_type. rewrite Ed. apply Hs.
  - rewrite Ed. apply Hs.
Qed.

(** An inode that passes verification is returned locked and valid. *)
Lemma ilock_intact fuel φ W i ip inum (Q : Z -> fs -> Prop) : Rep g φ W -> w_ic W !! i = Some ip ->
  fresh_entry inum ip -> sound_inode g W inum -> (0 < wroom W)%nat ->
  intact (w_cur W) (dinode_at (w_cur W) inum) = true ->
  (forall φ', Rep g φ' (v_ic (insert i (locked (w_cur W) ip)) W) -> Q 0 φ') ->
  wp (ilock_rec devsw (S fuel) (Some i) true) Q φ.
Proof.
  intros HR Hip Hf Hs Hr Hok HQ. eapply ilock_load; try done. intros φ1 HR1.
  pose proof Hf as (Hdev & Hin & _). unfold zc_verify. cbn [app]. 
  set (ip1 := upd_flags _ (loaded (w_cur W) ip)) in *. set (W1 := v_ic (insert i ip1) W) in *.
  assert (w_ic W1 !! i = Some ip1) as Hip1 by (by eapply lookup_ic_insert).
  assert (i_d ip1 = dinode_at (w_cur W) inum) as Ed by (cbn; by rewrite Hin).
  rewrite wp_bind. eapply (zc_checksum φ1 W1 i ip1 inum); try done; [by apply sound_inode_ic|]. intros φ2 HR2.
  rewrite wp_bind. eapply r_geti; [done|done|]. unfold i_checksum.
  change (w_cur W1) with (w_cur W). rewrite Ed. unfold intact in Hok. rewrite Hok.
  eapply zc_success_spec; [done|done|unfold i_type; rewrite Ed; apply Hs|].
  intros φ3 HR3. apply HQ. unfold W1 in HR3. rewrite v_ic_insert2 in HR3. exact HR3.
Qed.

(** A verification failure with no replica left to try. *)
Lemma zc_reject φ W i ip (Q : Z -> fs -> Prop) : Rep g φ W -> w_ic W !! i = Some ip ->
  flag (i_flags ip) I_BUSY = true -> 1 <= i_ref ip ->
  (forall φ', Rep g φ' (v_ic (insert i (upd_flags (fun f => flag_clr f I_BUSY) ip)) W) -> Q E_CORRUPTED φ') ->
  wp (iunlock (Some i);;; ret E_CORRUPTED) Q φ.
Proof.
  intros HR Hip Hb Hr HQ. rewrite wp_bind. eapply iunlock_spec; done.
Qed.

(** A loaded, locked entry whose contents fail verification. *)
Record suspect W (i : nat) (ip : inode) (inum : Z) : Prop := {
  su_ic : w_ic W !! i = Some ip;
  su_dev : i_dev ip = 1;
  su_inum : i_inum ip = inum;
  su_ref : 1 <= i_ref ip;
  su_busy : flag (i_flags ip) I_BUSY = true;
  su_d : i_d ip = dinode_at (w_cur W) inum;
  su_sound : sound_inode g W inum;
  su_bad : intact (w_cur W) (dinode_at (w_cur W) inum) = false
}.

Lemma zc_mismatch il φ W i ip inum reps (Q : Z -> fs -> Prop) : Rep g φ W -> suspect W i ip inum -> (0 < wroom W)%nat ->
  (forall φ', Rep g φ' W -> wp (match reps with
    | [] => iunlock (Some i);;; ret E_CORRUPTED
    | child :: rest =>
      if u16 (child ip) =? 0 then iunlock (Some i);;; ret E_CORRUPTED
      else let! rinode := iget 1 (u16 (child ip)) in
        let! r := il rinode in
        if r =? 0 then iunlock rinode;;; iunlock (Some i);;; ret (u16 (child ip))
        else zc_verify devsw il (Some i) rest
    end) Q φ') ->
  wp (zc_verify devsw il (Some i) reps) Q φ.
Proof.
  intros HR [Hip Hdev Hin Href Hb Hd Hs Hbad] Hr HQ.
  assert (forall m : Z -> K fs Z, (forall φ', Rep g φ' W -> wp (m (checksum (file_content (w_cur W) (i_d ip)))) Q φ') ->
    wp (bind (ichecksum devsw (Some i)) m) Q φ) as Hc.
  { intros m Hm. rewrite wp_bind. eapply zc_checksum; [exact HR|exact Hip|exact Hdev|exact Hin|exact Hd|exact Hs|exact Hr|exact Hm]. }
  assert ((checksum (file_content (w_cur W) (i_d ip)) =? i_checksum ip) = false) as Hne.
  { unfold i_checksum. rewrite Hd. exact Hbad. }
  destruct reps as [|child rest]; cbn [zc_verify]; apply Hc; intros φ1 HR1; rewrite wp_bind;
    (eapply r_geti; [exact HR1|exact Hip|]); rewrite Hne; [by apply HQ|].
  rewrite Hdev. by apply HQ.
Qed.

(** ** [iget] of an inode that is not cached *)

Lemma iget_fresh φ W inum j q (Q : iptr -> fs -> Prop) : Rep g φ W -> uncached (w_ic W) inum ->
  index_of (fun ip => i_ref ip =? 0) (w_ic W) = Some j -> w_ic W !! j = Some q ->
  (forall φ', Rep g φ' (v_ic (insert j (Inode 1 inum 1 0 (i_d q))) W) -> Q (Some j) φ') ->
  wp (iget 1 inum) Q φ.
Proof.
  intros HR Hun Hj Hq HQ. unfold iget. rewrite wp_bind. apply wp_get. rewrite (rep_ic _ _ _ HR).
  rewrite (proj2 (index_of_None (fun ip => (0 <? i_ref ip) && (i_dev ip =? 1) && (i_inum ip =? inum)) (w_ic W)) Hun), Hj.
  rewrite wp_bind. eapply r_updi; [done|done|]. intros φ1 HR1. by apply wp_ret, HQ.
Qed.

(** A cached inode is shared: only its reference count changes. *)
Lemma iget_cached φ W inum i ip (Q : iptr -> fs -> Prop) : Rep g φ W ->
  index_of (caches inum) (w_ic W) = Some i -> w_ic W !! i = Some ip ->
  (forall φ', Rep g φ' (v_ic (insert i (upd_ref (fun r => r + 1) ip)) W) -> Q (Some i) φ') ->
  wp (iget 1 inum) Q φ.
Proof.
  intros HR Hi Hip HQ. unfold iget. rewrite wp_bind. apply wp_get. rewrite (rep_ic _ _ _ HR).
  unfold caches in Hi. rewrite Hi. rewrite wp_bind. eapply r_updi; [done|done|]. intros φ1 HR1. by apply wp_ret, HQ.
Qed.

(** A ditto has no ditto of its own. *)
Definition leaf (cur : Z -> block) (inum : Z) : Prop := di_child1 (dinode_at cur inum) = 0.

Lemma flags_unlock ip : upd_flags (fun f => flag_clr f I_BUSY) (upd_flags (fun f => flag_set f I_BUSY) ip) =
  upd_flags (fun f => flag_clr (flag_set f I_BUSY) I_BUSY) ip.
Proof. done. Qed.

(** A replica without replicas of its own is accepted or rejected on its contents. *)
Lemma ilock_leaf fuel φ W i ip inum (Q : Z -> fs -> Prop) : Rep g φ W -> w_ic W !! i = Some ip ->
  fresh_entry inum ip -> sound_inode g W inum -> leaf (w_cur W) inum -> (0 < wroom W)%nat ->
  (forall φ' , if intact (w_cur W) (dinode_at (w_cur W) inum)
     then Rep g φ' (v_ic (insert i (locked (w_cur W) ip)) W) -> Q 0 φ'
     else Rep g φ' (v_ic (insert i (rejected (w_cur W) ip)) W) -> Q E_CORRUPTED φ') ->
  wp (ilock_rec devsw (S fuel) (Some i) true) Q φ.
Proof.
  intros HR Hip Hf Hs Hl Hr HQ. destruct (intact _ _) eqn:Hok; [by eapply ilock_intact|].
  eapply ilock_load; try done. intros φ1 HR1. pose proof Hf as (Hdev & Hin & Href & _).
  set (ip1 := upd_flags _ (loaded (w_cur W) ip)) in *. set (W1 := v_ic (insert i ip1) W) in *.
  assert (w_ic W1 !! i = Some ip1) as Hip1 by (by eapply lookup_ic_insert).
  assert (i_d ip1 = dinode_at (w_cur W) inum) as Ed by (cbn; by rewrite Hin).
  eapply zc_mismatch; [exact HR1|split; try done|done|].
  - apply set_busy_busy.
  - by apply sound_inode_ic.
  - intros φ2 HR2. unfold i_child1. rewrite Ed. unfold leaf in Hl. rewrite Hl.
    change (u16 0 =? 0) with true. cbv iota. eapply zc_reject; [done|done|apply set_busy_busy|done|].
    intros φ3 HR3. apply HQ. unfold W1, ip1 in HR3. rewrite v_ic_insert2 in HR3. exact HR3.
Qed.

(** At least two entries of the cache are free. *)
Definition two_free (ic : list inode) : Prop :=
  forall j, exists k q, k <> j /\ ic !! k = Some q /\ i_ref q = 0.

(** A replica that can be consulted. *)
Record replica W (inum : Z) : Prop := {
  re_sound : sound_inode g W inum;
  re_leaf : leaf (w_cur W) inum;
  re_new : uncached (w_ic W) inum
}.

Lemma suspect_other W i ip inum j x : suspect W i ip inum -> j <> i -> suspect (v_ic (insert j x) W) i ip inum.
Proof.
  intros [? ? ? ? ? ? ? ?] Hj. split; try done; [|by apply sound_inode_ic].
  cbn. by rewrite list_lookup_insert_ne.
Qed.

(** Trying one replica: an intact one ends the search, a corrupted one is left
    unlocked and the next is tried. *)
Lemma zc_try fuel φ W i ip inum child rest (Q : Z -> fs -> Prop) : let c := u16 (child ip) in
  Rep g φ W -> suspect W i ip inum -> (0 < wroom W)%nat -> c <> 0 -> replica W c ->
  (exists k q, w_ic W !! k = Some q /\ i_ref q = 0) ->
  (forall j q φ', j <> i -> w_ic W !! j = Some q -> i_ref q = 0 ->
     let q' := Inode 1 c 1 0 (i_d q) in
     if intact (w_cur W) (dinode_at (w_cur W) c) then
       Rep g φ' (v_ic (insert i (upd_flags (fun f => flag_clr f I_BUSY) ip))
                (v_ic (insert j (upd_flags (fun f => flag_clr f I_BUSY) (locked (w_cur W) q'))) W)) -> Q c φ'
     else Rep g φ' (v_ic (insert j (rejected (w_cur W) q')) W) ->
       wp (zc_verify devsw (fun q => ilock_rec devsw (S fuel) q true) (Some i) rest) Q φ') ->
  wp (zc_verify devsw (fun q => ilock_rec devsw (S fuel) q true) (Some i) (child :: rest)) Q φ.
Proof.
  intros c HR Hsu Hr Hc [Hs Hl Hnew] (k & q0 & Hk & Hk0) HQ. eapply zc_mismatch; try done. intros φ1 HR1. fold c.
  destruct (Z.eqb_spec c 0); [done|].
  destruct (index_of (fun ip => i_ref ip =? 0) (w_ic W)) as [j|] eqn:Ej.
  2:{ pose proof (proj1 (index_of_None _ _) Ej k q0 Hk) as E. cbn in E. rewrite Hk0 in E. done. }
  destruct (index_of_Some _ _ _ Ej) as (q & Hq & Hq0%Z.eqb_eq & _).
  pose proof Hsu as [Hip _ _ Href Hb _ _ _].
  assert (j <> i) as Nj by (intros ->; rewrite Hip in Hq; injection Hq as <-; lia).
  specialize (HQ j q) as HQ'. rewrite wp_bind. eapply iget_fresh; try done. intros φ2 HR2.
  set (q' := Inode 1 c 1 0 (i_d q)) in *. set (W1 := v_ic (insert j q') W) in *.
  assert (w_ic W1 !! j = Some q') as Hj1 by (by eapply lookup_ic_insert).
  rewrite wp_bind. eapply (ilock_leaf fuel φ2 W1 j q' c); [done|done|by split|by apply sound_inode_ic|done|done|].
  intros φ3. change (w_cur W1) with (w_cur W). specialize (HQ' ).
  destruct (intact (w_cur W) (dinode_at (w_cur W) c)) eqn:Hok; intros HR3; unfold W1 in HR3; rewrite v_ic_insert2 in HR3.
  - change (0 =? 0) with true. cbv iota. rewrite wp_bind.
    eapply iunlock_spec; [done|by eapply lookup_ic_insert| |done|].
    { cbn [locked upd_flags i_flags]. rewrite set_valid_busy. apply set_busy_busy. }
    intros φ4 HR4. rewrite v_ic_insert2 in HR4. rewrite wp_bind.
    eapply iunlock_spec; [done| |done|done|].
    { cbn. rewrite list_lookup_insert_ne by done. exact Hip. }
    intros φ5 HR5. apply wp_ret. by apply (HQ' φ5 Nj Hq Hq0).
  - change (E_CORRUPTED =? 0) with false. cbv iota. by apply (HQ' φ3 Nj Hq Hq0).
Qed.

(** What [ilock] answers for inode [inum]. *)
Definition ilock_result (cur : Z -> block) (inum : Z) : Z :=
  let di := dinode_at cur inum in
  if intact cur di then 0
  else let c1 := u16 (di_child1 di) in
  if c1 =? 0 then E_CORRUPTED
  else if intact cur (dinode_at cur c1) then c1
  else let c2 := u16 (di_child2 di) in
  if c2 =? 0 then E_CORRUPTED
  else if intact cur (dinode_at cur c2) then c2
  else E_CORRUPTED.

(** The replicas named by inode [inum] can be consulted. *)
Record replicated W (inum : Z) : Prop := {
  rp_1 : u16 (di_child1 (dinode_at (w_cur W) inum)) <> 0 -> replica W (u16 (di_child1 (dinode_at (w_cur W) inum)));
  rp_2 : u16 (di_child2 (dinode_at (w_cur W) inum)) <> 0 -> replica W (u16 (di_child2 (dinode_at (w_cur W) inum)));
  rp_ne : u16 (di_child1 (dinode_at (w_cur W) inum)) <> u16 (di_child2 (dinode_at (w_cur W) inum)) \/
          u16 (di_child1 (dinode_at (w_cur W) inum)) = 0;
  rp_room : u16 (di_child1 (dinode_at (w_cur W) inum)) <> 0 -> two_free (w_ic W)
}.

(** Entries in use, other than [i], are as before. *)
Definition others_kept (i : nat) (ic ic' : list inode) : Prop :=
  forall j q, j <> i -> ic !! j = Some q -> i_ref q <> 0 -> ic' !! j = Some q.

Lemma others_kept_insert i j x ic ic' : others_kept i ic ic' ->
  j = i \/ (forall q, ic !! j = Some q -> i_ref q = 0) -> others_kept i ic (<[j := x]> ic').
Proof.
  intros H Hj k q Hk Hq Hr. rewrite list_lookup_insert_ne; [by apply H|]. intros ->.
  destruct Hj as [->|Hj]; [done|]. by apply Hr, Hj.
Qed.

Lemma uncached_insert ic inum j x : uncached ic inum -> caches inum x = false -> uncached (<[j := x]> ic) inum.
Proof.
  intros H Hx k q Hk. destruct (decide (k = j)) as [->|].
  - apply list_lookup_insert_Some in Hk as [(_ & <- & _)|[? _]]; done.
  - rewrite list_lookup_insert_ne in Hk by done. by eapply H.
Qed.

Lemma replica_insert W inum j x : replica W inum -> caches inum x = false -> replica (v_ic (insert j x) W) inum.
Proof. intros [Hs Hl Hu] Hx. split; [by apply sound_inode_ic|done|by apply uncached_insert]. Qed.

(** The search through the replicas of entry [i], loaded as [ip1]: the cache of
    [W] has changed to that of [W'], where only free entries have been taken. *)
Record searching W W' (i : nat) (ip1 : inode) (inum : Z) : Prop := {
  sg_view : W' = v_ic (fun _ => w_ic W') W;
  sg_len : length (w_ic W') = length (w_ic W);
  sg_suspect : suspect W' i ip1 inum;
  sg_kept : others_kept i (w_ic W) (w_ic W');
  sg_free : forall j q q0, j <> i -> w_ic W' !! j = Some q -> i_ref q = 0 -> w_ic W !! j = Some q0 -> i_ref q0 = 0
}.

(** [Q] accepts the answer [r], with entry [i] unlocked. *)
Definition answers W (i : nat) (ip1 : inode) (Q : Z -> fs -> Prop) (r : Z) : Prop := forall φ' ic',
  Rep g φ' (v_ic (fun _ => ic') W) -> ic' !! i = Some (upd_flags (fun f => flag_clr f I_BUSY) ip1) -> others_kept i (w_ic W) ic' -> Q r φ'.

Lemma searching_insert W W' i ip1 inum j q x : searching W W' i ip1 inum -> j <> i -> w_ic W' !! j = Some q -> i_ref q = 0 -> 1 <= i_ref x ->
  searching W (v_ic (insert j x) W') i ip1 inum.
Proof.
  intros [V L S K F] Hj Hq Hq0 Hx. split.
  - rewrite V. done.
  - cbn. by rewrite length_insert.
  - by apply suspect_other.
  - apply others_kept_insert; [done|right]. intros q0. by apply (F j q q0).
  - intros k q1 q0 Hk Hq1 Hr Hq0'. destruct (decide (k = j)) as [->|Nk]; [by eapply F|].
    cbn in Hq1. rewrite list_lookup_insert_ne in Hq1 by done. by eapply F.
Qed.

Lemma zc_give_up φ W W' i ip1 inum (Q : Z -> fs -> Prop) : Rep g φ W' -> searching W W' i ip1 inum -> answers W i ip1 Q E_CORRUPTED ->
  wp (iunlock (Some i);;; ret E_CORRUPTED) Q φ.
Proof.
  intros HR [V L [S1 _ _ S2 S3 _ _ _] K F] HQ. eapply zc_reject; [done|done|done|done|]. intros φ' HR'. rewrite V in HR'. apply (HQ φ' _ HR').
  - apply list_lookup_insert_eq. by eapply lookup_lt_Some.
  - apply others_kept_insert; [done|by left].
Qed.

(** One replica: it is missing, intact, or rejected and followed by the next. *)
Lemma zc_child fuel φ W W' i ip1 inum child rest (Q : Z -> fs -> Prop) : let c := u16 (child ip1) in
  Rep g φ W' -> searching W W' i ip1 inum -> (0 < wroom W')%nat ->
  (c <> 0 -> replica W' c /\ exists k q, w_ic W' !! k = Some q /\ i_ref q = 0) ->
  (c = 0 -> answers W i ip1 Q E_CORRUPTED) ->
  (c <> 0 -> if intact (w_cur W) (dinode_at (w_cur W) c) then answers W i ip1 Q c
   else forall j q x φ', j <> i -> w_ic W' !! j = Some q -> i_ref q = 0 -> i_inum x = c ->
     Rep g φ' (v_ic (insert j x) W') -> searching W (v_ic (insert j x) W') i ip1 inum ->
     wp (zc_verify devsw (fun q => ilock_rec devsw (S fuel) q true) (Some i) rest) Q φ') ->
  wp (zc_verify devsw (fun q => ilock_rec devsw (S fuel) q true) (Some i) (child :: rest)) Q φ.
Proof.
  intros c HR HS Hr Hrep H0 Hc. pose proof HS as [V L S K F]. destruct (decide (c = 0)) as [Z0|N].
  { eapply zc_mismatch; [done|done|done|]. intros φ1 HR1. fold c. rewrite Z0. change (0 =? 0) with true. cbv iota. eapply zc_give_up; [done|done|by apply H0]. }
  destruct (Hrep N) as [Hre Hfree]. specialize (Hc N). assert (w_cur W' = w_cur W) as Ec by (by rewrite V).
  eapply (zc_try fuel φ W' i ip1 inum child); [done..|]. fold c. rewrite Ec. intros j q φ1 Nj Hq Hq0. cbv zeta.
  destruct (intact (w_cur W) (dinode_at (w_cur W) c)); intros HR1.
  - rewrite V in HR1. apply (Hc φ1 _ HR1).
    + cbn. apply list_lookup_insert_eq. cbn. rewrite length_insert. eapply lookup_lt_Some, (su_ic _ _ _ _ S).
    + cbn. apply others_kept_insert; [|by left]. apply others_kept_insert; [done|right]. intros q0. by apply (F j q q0).
  - refine (Hc j q _ φ1 Nj Hq Hq0 _ HR1 _); [done|]. by eapply searching_insert.
Qed.

(** The entry after [load_inode] starts the search. *)
Lemma searching_start W i ip inum (ip1 := upd_flags (fun f => flag_set f I_BUSY) (loaded (w_cur W) ip)) :
  w_ic W !! i = Some ip -> fresh_entry inum ip -> sound_inode g W inum -> intact (w_cur W) (dinode_at (w_cur W) inum) = false ->
  searching W (v_ic (insert i ip1) W) i ip1 inum.
Proof.
  intros Hip Hf Hs Hbad. pose proof Hf as (Hdev & Hin & Href & _). split.
  - done.
  - cbn. by rewrite length_insert.
  - split; try done; [by eapply lookup_ic_insert|apply set_busy_busy|cbn; by rewrite Hin|by apply sound_inode_ic].
  - apply others_kept_insert; [by intros ? ? ? ? ?|by left].
  - intros j q q0 Hj Hq Hr Hq0. cbn in Hq. rewrite list_lookup_insert_ne in Hq by done. congruence.
Qed.

Lemma ilock_spec fuel φ W i ip inum (Q : Z -> fs -> Prop) : let r := ilock_result (w_cur W) inum in
  Rep g φ W -> w_ic W !! i = Some ip -> fresh_entry inum ip -> sound_inode g W inum -> replicated W inum ->
  (0 < wroom W)%nat ->
  (forall φ' ic', Rep g φ' (v_ic (fun _ => ic') W) ->
     ic' !! i = Some (if r =? 0 then locked (w_cur W) ip else rejected (w_cur W) ip) ->
     others_kept i (w_ic W) ic' -> Q r φ') ->
  wp (ilock_rec devsw (S (S fuel)) (Some i) true) Q φ.
Proof.
  intros r HR Hip Hf Hs [Hr1 Hr2 Hne Hroom] Hr HQ.
  assert (i < length (w_ic W))%nat as Hi by (by eapply lookup_lt_Some).
  unfold r, ilock_result in *. destruct (intact (w_cur W) (dinode_at (w_cur W) inum)) eqn:Hok.
  { eapply ilock_intact; try done. intros φ1 HR1. apply (HQ φ1 (<[i := locked (w_cur W) ip]> (w_ic W))); [done| |].
    - by apply list_lookup_insert_eq.
    - intros j q Hj Hq _. by rewrite list_lookup_insert_ne. }
  pose proof Hf as (_ & Hin & Href & _). pose proof (searching_start W i ip inum Hip Hf Hs Hok) as HS.
  eapply ilock_load; try done. intros φ1 HR1.
  set (ip1 := upd_flags _ (loaded (w_cur W) ip)) in *. set (W1 := v_ic (insert i ip1) W) in *.
  assert (i_child1 ip1 = di_child1 (dinode_at (w_cur W) inum)) as E1 by (unfold i_child1, ip1; cbn; by rewrite Hin).
  assert (i_child2 ip1 = di_child2 (dinode_at (w_cur W) inum)) as E2 by (unfold i_child2, ip1; cbn; by rewrite Hin).
  rewrite <- E1, <- E2 in *. set (c1 := u16 (i_child1 ip1)) in *. set (c2 := u16 (i_child2 ip1)) in *.
  assert (forall c, replica W c -> replica W1 c) as Hrep.
  { intros c Hc. apply replica_insert; [done|]. exact (re_new _ _ Hc i ip Hip). }
  assert (forall k q, w_ic W !! k = Some q -> i_ref q = 0 -> k <> i) as Hki by (intros k q Hk H0 ->; rewrite Hip in Hk; injection Hk as <-; lia).
  eapply (zc_child fuel φ1 W W1 i ip1 inum i_child1); [exact HR1|exact HS|exact Hr|..]; fold c1.
  { intros N1. split; [by apply Hrep, Hr1|]. destruct (Hroom N1 i) as (k & q & Nk & Hk & Hk0). exists k, q. split; [|done]. cbn. by rewrite list_lookup_insert_ne. }
  { intros Z1. rewrite Z1 in HQ. exact HQ. }
  intros N1. rewrite (proj2 (Z.eqb_neq _ _) N1) in HQ. destruct (intact (w_cur W) (dinode_at (w_cur W) c1)).
  { rewrite (proj2 (Z.eqb_neq _ _) N1) in HQ. exact HQ. }
  intros j q x φ2 Nj Hq Hq0 Hx HR2 HS2.
  eapply (zc_child fuel φ2 W (v_ic (insert j x) W1) i ip1 inum i_child2); [exact HR2|exact HS2|exact Hr|..]; fold c2.
  { intros N2. split.
    - apply replica_insert; [by apply Hrep, Hr2|]. unfold caches. rewrite Hx, (proj2 (Z.eqb_neq c1 c2)), andb_false_r; [done|]. by destruct Hne.
    - destruct (Hroom N1 j) as (k & q1 & Nk & Hk & Hk0). exists k, q1. split; [|done]. pose proof (Hki k q1 Hk Hk0). cbn. by rewrite !list_lookup_insert_ne. }
  { intros Z2. rewrite Z2 in HQ. exact HQ. }
  intros N2. rewrite (proj2 (Z.eqb_neq _ _) N2) in HQ. destruct (intact (w_cur W) (dinode_at (w_cur W) c2)).
  { rewrite (proj2 (Z.eqb_neq _ _) N2) in HQ. exact HQ. }
  intros j2 q2 x2 φ3 Nj2 Hq2 Hq20 _ HR3 HS3. eapply zc_mismatch; [exact HR3|apply HS3|exact Hr|]. intros φ4 HR4. by eapply zc_give_up.
Qed.
End verify.
