(* ===== verification/FsImage.v ===== *)
(** From a booted machine to the view of the file system, and a small image on
    which the theorems about fs.c are applied. *)
From S2P Require Import Prelude Bio Cache Log LogSpec Trans Txn Str Fs FsView Alloc Content Verify.

(** The view just after recovery: the logical disk is what recovery restored,
    no buffer is held and nothing is logged. *)
Definition boot_view (d : gmap Z block) (start : Z) (ss : list Z) (ic : list inode) (cwd : option nat) : fview :=
  FView (apply_writes (replay start ss (disk_of d)) (disk_of d)) ∅ ∅ ∅ ic cwd.

(** After [initlog] the file system is represented by [boot_view]; [b] tells
    whether a transaction has been opened with [begin_trans]. *)
Lemma boot_Rep d size start nlog ss ic cwd b : log_disk (disk_of d) size start nlog ss ->
  exists κ, initlog (boot d size) = Ret tt κ /\
    Rep (Geometry start nlog b (recovered (disk_of d) size start ss)) (Fs (set_busy b κ) ic cwd) (boot_view d start ss ic cwd).
Proof.
  intros Hld. destruct (idle_init _ _ _ _ _ Hld) as (κ & E & [HL Hh Hn Hb] & Es & En & _ & _ & Hc & _).
  exists κ. split; [done|]. split; cbn; try done.
  exists (recovered (disk_of d) size start ss). split_and!.
  - destruct HL. by split.
  - exact Hh.
  - rewrite (ls_pins _ _ _ HL). unfold slots. by rewrite Hn.
  - split; [done|]. exists []. by rewrite app_nil_r.
  - exact Hc.
Qed.

Lemma boot_wroom d start ss ic cwd : wroom (boot_view d start ss ic cwd) = 20%nat.
Proof. unfold wroom, w_secs. cbn. by rewrite map_img_empty_L. Qed.

Lemma boot_w_secs d start ss ic cwd : w_secs (boot_view d start ss ic cwd) = ∅.
Proof. apply map_img_empty_L. Qed.

(** ** The image

    Nineteen sectors: superblock 1, inodes 2 and 3, bitmap 4, data from 5, log 13
    to 18. Inode 2 is a file of five bytes with inode 3 as its ditto; sector 6
    holds the file, sector 7 the copy. *)
Definition img_file (c : Z) (type nlink addr child : Z) : dinode :=
  Dinode type 0 0 nlink 5 (addr :: replicate 10 0) child 0 c.

Definition put_dinode (inum : Z) (di : dinode) (d : block) : block :=
  put_tail (dinode_off inum) di (put_head (dinode_off inum) di d).

Definition hello : list Z := [104; 101; 108; 108; 111].

Definition image (data : list Z) : gmap Z block :=
  let c := checksum hello in
  <[1 := put32 (put32 (put32 (put32 zblock 0 19) 4 8) 8 8) 12 6]>
  (<[2 := put_dinode 3 (img_file c T_DITTO 1 7 0) (put_dinode 2 (img_file c T_FILE 1 6 3) zblock)]>
  (<[4 := <[0%nat := 255]> zblock]>
  (<[6 := splice zblock 0 data]>
  (<[7 := splice zblock 0 hello]> ∅)))).

Definition img_sb : superblock := Superblock 19 8 8 6.

Lemma image_ok data : length data = 5%nat -> Forall is_byte data -> forall s, block_ok (disk_of (image data) s).
Proof.
  intros Hl Hb s. unfold disk_of, image. cbv zeta.
  destruct (decide (s = 1)) as [->|]; [rewrite lookup_insert_eq; by_evaluation|rewrite lookup_insert_ne by done].
  destruct (decide (s = 2)) as [->|]; [rewrite lookup_insert_eq; by_evaluation|rewrite lookup_insert_ne by done].
  destruct (decide (s = 4)) as [->|]; [rewrite lookup_insert_eq; by_evaluation|rewrite lookup_insert_ne by done].
  destruct (decide (s = 6)) as [->|]; [rewrite lookup_insert_eq|rewrite lookup_insert_ne by done].
  { cbn [default from_option id]. split; [rewrite length_splice; [done|done|]|apply Forall_splice; [apply zblock_ok|done]].
    rewrite Hl. by vm_compute. }
  destruct (decide (s = 7)) as [->|]; [rewrite lookup_insert_eq; by_evaluation|rewrite lookup_insert_ne by done].
  rewrite lookup_empty. apply zblock_ok.
Qed.

Lemma image_log data : length data = 5%nat -> Forall is_byte data -> log_disk (disk_of (image data)) 19 13 6 [].
Proof.
  intros Hl Hb.
  assert (disk_of (image data) 13 = zblock) as E13.
  { unfold disk_of, image. cbv zeta. rewrite !lookup_insert_ne by done. done. }
  assert (disk_of (image data) 1 = put32 (put32 (put32 (put32 zblock 0 19) 4 8) 8 8) 12 6) as E1.
  { unfold disk_of, image. cbv zeta. by rewrite lookup_insert_eq. }
  split.
  - by apply image_ok.
  - rewrite E1. by vm_compute.
  - unfold LOGSIZE. lia.
  - rewrite E13. split; [by vm_compute|simpl; lia].
  - done.
  - constructor.
  - by intros s ?%elem_of_nil.
Qed.

Definition img_geom (data : list Z) : geometry := Geometry 13 6 true (recovered (disk_of (image data)) 19 13 []).

Lemma img_layout data : layout (img_geom data) img_sb.
Proof. split; by vm_compute. Qed.

(** Inode 2 of the image, as [ilock] loads it. *)
Definition img_inode (flags : Z) : inode :=
  Inode 1 2 1 flags (img_file (checksum hello) T_FILE 1 6 3).

Lemma img_dinode data : dinode_at (disk_of (image data)) 2 = img_file (checksum hello) T_FILE 1 6 3.
Proof.
  unfold dinode_at. change (IBLOCK 2) with 2. unfold disk_of, image. cbv zeta.
  rewrite lookup_insert_ne, lookup_insert_eq by done. by vm_compute.
Qed.

Lemma img_dinode3 data : dinode_at (disk_of (image data)) 3 = img_file (checksum hello) T_DITTO 1 7 0.
Proof.
  unfold dinode_at. change (IBLOCK 3) with 2. unfold disk_of, image. cbv zeta.
  rewrite lookup_insert_ne, lookup_insert_eq by done. by vm_compute.
Qed.

Lemma img_readable g W addr ty nl ch : g_start g = 13 -> w_held W = ∅ -> 0 < addr < 13 ->
  readable g W (img_file (checksum hello) ty nl addr ch).
Proof.
  intros Hg Hh Ha. assert (w_secs W = ∅) as Hs by (unfold w_secs; rewrite Hh; apply map_img_empty_L).
  split; [done|done|]. intros bn H0 H1. cbn in H1. unfold BSIZE in H1. assert (bn = 0) as -> by lia.
  assert (addr_of (w_cur W) (img_file (checksum hello) ty nl addr ch) 0 = addr) as E by done.
  split; rewrite ?Hs, ?E, ?Hg; try (cbn; lia); try set_solver. unfold NDIRECT. lia.
Qed.

Definition jello : list Z := [106; 101; 108; 108; 111].
Definition free_inode : inode := Inode 0 0 0 0 no_dinode.
Definition img_icache : list inode := [img_inode 0; free_inode; free_inode; free_inode].

(** No device is registered. *)
Definition no_devsw : Z -> devsw_t := fun _ => Devsw None None.

(** The same disk with a log of eleven blocks. *)
Definition roomy (d : gmap Z block) : gmap Z block := <[1 := put32 (put32 (put32 (put32 zblock 0 24) 4 8) 8 8) 12 11]> d.

Lemma roomy_disk d s : s <> 1 -> disk_of (roomy d) s = disk_of d s.
Proof. intros Hs. unfold disk_of, roomy. by rewrite lookup_insert_ne. Qed.

Lemma roomy_log d : log_disk (disk_of d) 19 13 6 [] -> log_disk (disk_of (roomy d)) 24 13 11 [].
Proof.
  intros [H1 H2 H3 H4 H5 H6 H7].
  assert (disk_of (roomy d) 1 = put32 (put32 (put32 (put32 zblock 0 24) 4 8) 8 8) 12 11) as E1.
  { unfold disk_of, roomy. by rewrite lookup_insert_eq. }
  split; rewrite ?E1, ?(roomy_disk d 13) by done; try done.
  - intros s. destruct (decide (s = 1)) as [->|]; [rewrite E1; by_evaluation|by rewrite roomy_disk].
Qed.
