(* ===== verification/FsThms.v ===== *)
(** The theorems about the file system of fs.c. *)
From S2P Require Import Prelude Bio Cache Log LogSpec Trans Txn Str Fs FsView Alloc Content Verify FsImage.

(** ** Block allocation *)

(** C6. [balloc] inside a transaction with two free log slots returns the lowest
    free block, zeroes it and marks it used; no other bit of the bitmap and no
    other sector changes. *)
Theorem balloc_correct g sb φ W b : layout g sb -> Rep g φ W -> can_alloc g sb W b ->
  exists φ', balloc 1 φ = Ret b φ' /\ Rep g φ' (v_alloc sb b W) /\
    let cur' := w_cur (v_alloc sb b W) in
    cur' b = zblock /\
    (forall b', 0 <= b' < sb_size sb -> b <> BBLOCK b' (sb_ninodes sb) ->
       blk_free (sb_ninodes sb) cur' b' = if decide (b = b') then false else blk_free (sb_ninodes sb) (w_cur W) b') /\
    (forall s, s <> b -> s <> BBLOCK b (sb_ninodes sb) -> cur' s = w_cur W s).
Proof.
  intros Hlay HR Hca.
  pose proof (balloc_spec g sb Hlay φ W b (fun r φ' => r = b /\ Rep g φ' (v_alloc sb b W)) HR Hca) as H.
  apply wp_Ret in H as (r & φ' & E & -> & HR'); [|auto].
  exists φ'. split; [done|]. split; [done|]. cbv zeta. split_and!.
  - unfold v_alloc. cbn. by rewrite fn_lookup_insert.
  - intros b' Hb' Hn. eapply blk_free_alloc; try done; [|apply Hca]. intros s Hs. by eapply rep_cur_ok.
  - intros s H1 H2. unfold v_alloc. cbn. by rewrite !fn_lookup_insert_ne.
Qed.

(** The first free block of the example image is block 8. *)
Lemma img_least : least_free img_sb (disk_of (image hello)) 8.
Proof.
  split; [by vm_compute|]. split; [by vm_compute|]. intros b' Hb'.
  assert (Forall (fun b => blk_free 8 (disk_of (image hello)) b = false) (zrange 0 8)) as H by by_evaluation.
  rewrite Forall_forall in H. apply H. unfold zrange. apply elem_of_seqZ. lia.
Qed.

Lemma img_can_alloc ic : can_alloc (img_geom hello) img_sb (boot_view (image hello) 13 [] ic None) 8.
Proof.
  split; rewrite ?boot_w_secs, ?boot_wroom.
  - by vm_compute.
  - exact img_least.
  - cbn. lia.
  - apply not_elem_of_empty.
  - apply not_elem_of_empty.
  - intros b' _. apply not_elem_of_empty.
  - done.
  - by vm_compute.
  - lia.
Qed.

Lemma balloc_correct_witness : exists κ φ', initlog (boot (image hello) 19) = Ret tt κ /\
  balloc 1 (Fs (set_busy true κ) [] None) = Ret 8 φ'.
Proof.
  destruct (boot_Rep (image hello) 19 13 6 [] [] None true) as (κ & E & HR); [by apply image_log; [|by_evaluation]|].
  destruct (balloc_correct (img_geom hello) img_sb _ _ 8 (img_layout _) HR (img_can_alloc [])) as (φ' & H & _).
  exists κ, φ'. exact (conj E H).
Defined.

(** C26. Allocating a block and freeing it again, in a transaction with room for two
    more blocks and with buffers free: the bitmap is as before to the byte, the
    block is zeroed, and nothing else changes; freeing it a second time panics. *)
Theorem balloc_bfree_round_trip g sb φ W b : layout g sb -> Rep g φ W -> can_alloc g sb W b ->
  BBLOCK b (sb_ninodes sb) <> b -> b <> 1 -> Z.of_nat (size (w_pins W)) + 2 < g_nlog g - 1 -> (4 < wroom W)%nat ->
  exists φ' W', (let! b := balloc 1 in bfree 1 b) φ = Ret tt φ' /\ Rep g φ' W' /\
    (forall s, s <> b -> w_cur W' s = w_cur W s) /\ w_cur W' b = zblock /\
    bfree 1 b φ' = Panic "freeing free block".
Proof.
  intros Hlay HR Hca Hne Hn1 Hslots Hroom. pose proof Hca as [Hsb Hl Hb Hbh H1 Hmap Hbusy _ _].
  pose proof Hl as (Hbr & Hfree & _). set (s := BBLOCK b (sb_ninodes sb)) in *.
  pose proof (bblock_range g sb Hlay b Hbr) as Hs. fold s in Hs.
  assert (forall W, wroom W <= wroom (v_put b zblock (v_put s (mark_used (b `mod` BPB) (w_cur W s)) W)) + 2)%nat as Hrm.
  { intros W0. pose proof (wroom_put s (mark_used (b `mod` BPB) (w_cur W0 s)) W0).
    pose proof (wroom_put b zblock (v_put s (mark_used (b `mod` BPB) (w_cur W0 s)) W0)). lia. }
  set (W1 := v_alloc sb b W). assert (W1 = v_put b zblock (v_put s (mark_used (b `mod` BPB) (w_cur W s)) W)) as EW1 by done.
  specialize (Hrm W). rewrite <- EW1 in Hrm.
  assert (size (w_pins W1) <= size (w_pins W) + 2)%nat as Hsz.
  { rewrite EW1. etrans; [apply size_pins_put|].
    pose proof (size_pins_put s (mark_used (b `mod` BPB) (w_cur W s)) W). lia. }
  assert (block_ok (w_cur W s)) as Hok by (eapply rep_cur_ok; [done|lia]).
  assert (w_cur W1 s = mark_used (b `mod` BPB) (w_cur W s)) as Ecur.
  { rewrite EW1. cbn. rewrite fn_lookup_insert_ne by done. by rewrite fn_lookup_insert. }
  assert (sb_of (w_cur W1 1) = sb) as Hsb1.
  { rewrite EW1. cbn. rewrite !fn_lookup_insert_ne by lia. done. }
  set (W2 := v_put s (mark_free (b `mod` BPB) (w_cur W1 s)) W1).
  assert (wp (let! b := balloc 1 in bfree 1 b) (fun _ φ' => Rep g φ' W2) φ) as Hwp.
  { rewrite wp_bind. eapply balloc_spec; try done. intros φ1 HR1. fold W1 in HR1.
    eapply (bfree_spec g sb Hlay φ1 W1 b); try done; fold s; try lia.
    - by apply Hmap.
    - unfold blk_free. fold s. rewrite Ecur. rewrite mark_used_free by (done || apply mod_index).
      by rewrite decide_True. }
  assert (w_secs W2 = w_secs W) as Hsec by done. clearbody W1. apply wp_Ret in Hwp as ([] & φ' & E & HR'). exists φ', W2. split; [done|]. split; [done|].
  assert (w_cur W2 s = w_cur W s) as E2.
  { unfold W2. cbn. rewrite fn_lookup_insert, Ecur. apply mark_free_used; [done|apply mod_index|exact Hfree]. }
  split_and!.
  - intros x Hx. destruct (decide (x = s)) as [->|Nx]; [done|].
    unfold W2. cbn. rewrite EW1. cbn. by rewrite !fn_lookup_insert_ne.
  - unfold W2. cbn. rewrite fn_lookup_insert_ne by done. rewrite EW1. cbn. by rewrite fn_lookup_insert.
  - eapply (bfree_twice g sb Hlay φ' W2); try done.
    + unfold W2. cbn. rewrite fn_lookup_insert_ne by lia. exact Hsb1.
    + rewrite Hsec. exact H1.
    + rewrite Hsec. by apply Hmap.
    + pose proof (wroom_put s (mark_free (b `mod` BPB) (w_cur W1 s)) W1). fold W2 in H. lia.
    + unfold blk_free. fold s. rewrite E2. exact Hfree.
Qed.

Lemma balloc_bfree_round_trip_witness : exists κ φ', initlog (boot (image hello) 19) = Ret tt κ /\
  (let! b := balloc 1 in bfree 1 b) (Fs (set_busy true κ) [] None) = Ret tt φ'.
Proof.
  destruct (boot_Rep (image hello) 19 13 6 [] [] None true) as (κ & E & HR); [by apply image_log; [|by_evaluation]|].
  destruct (balloc_bfree_round_trip (img_geom hello) img_sb _ _ 8 (img_layout _) HR (img_can_alloc [])) as (φ' & W' & H & _);
    [done|done|by vm_compute|rewrite boot_wroom; lia|].
  exists κ, φ'. exact (conj E H).
Defined.

(** ** Contents and checksums *)

(** C7. [readi] on a regular file without holes returns the bytes of the file from
    [off], as many as were asked for or as the file has, and changes nothing. *)
Theorem readi_correct g devsw φ W i ip off n :
  Rep g φ W -> w_ic W !! i = Some ip -> i_dev ip = 1 -> i_type ip <> T_DEV -> readable g W (i_d ip) ->
  (0 < wroom W)%nat -> 0 <= off <= i_size ip -> 0 <= n -> off + n < 2 ^ 32 ->
  exists φ', let k := Z.min n (i_size ip - off) in
    readi devsw (Some i) off n φ = Ret (k, file_bytes (w_cur W) (i_d ip) off k) φ' /\ Rep g φ' W.
Proof.
  intros HR Hip Hdev Hty Hrd Hr Hoff Hn Hw.
  assert (wp (readi devsw (Some i) off n) (fun r φ' => r = (Z.min n (i_size ip - off),
    file_bytes (w_cur W) (i_d ip) off (Z.min n (i_size ip - off))) /\ Rep g φ' W) φ) as Hwp.
  { eapply readi_spec; try done. intros φ' HR'. cbv zeta.
    replace (read_len (i_size ip) off n) with (Z.min n (i_size ip - off)); [done|].
    unfold read_len. destruct (Z.ltb_spec (i_size ip) (off + n)); lia. }
  apply wp_Ret in Hwp as (r & φ' & E & -> & HR'). by exists φ'.
Qed.

Lemma readi_correct_witness : exists κ φ', initlog (boot (image hello) 19) = Ret tt κ /\
  readi no_devsw (Some 0%nat) 1 100 (Fs (set_busy true κ) [img_inode 3] None) = Ret (4, [101; 108; 108; 111]) φ'.
Proof.
  destruct (boot_Rep (image hello) 19 13 6 [] [img_inode 3] None true) as (κ & E & HR); [by apply image_log; [|by_evaluation]|].
  destruct (readi_correct (img_geom hello) no_devsw _ _ 0 (img_inode 3) 1 100 HR) as (φ' & H & _);
    [done|done|done|by apply img_readable|rewrite boot_wroom; lia|by vm_compute|by vm_compute|by vm_compute|].
  exists κ, φ'. split; [exact E|]. rewrite H. f_equal.
Defined.

(** ** Verification and replicas *)

(** C4. [ilock] on an inode that is not yet cached in memory: an inode whose
    contents match its checksum is returned locked and valid (0); otherwise the
    dittos are tried in order and the number of the first intact one is returned,
    or [E_CORRUPTED] when there is none; then the inode is left unlocked and not
    valid. No other entry in use changes. *)
Theorem ilock_verifies g devsw φ W i ip inum :
  Rep g φ W -> w_ic W !! i = Some ip -> fresh_entry inum ip -> sound_inode g W inum -> replicated g W inum ->
  (0 < wroom W)%nat ->
  let r := ilock_result (w_cur W) inum in
  exists φ' ic', ilock devsw (Some i) φ = Ret r φ' /\ Rep g φ' (v_ic (fun _ => ic') W) /\
    ic' !! i = Some (if r =? 0 then locked (w_cur W) ip else rejected (w_cur W) ip) /\
    others_kept i (w_ic W) ic'.
Proof.
  intros HR Hip Hf Hs Hrp Hr r.
  assert (wp (ilock devsw (Some i)) (fun x φ' => x = r /\ exists ic', Rep g φ' (v_ic (fun _ => ic') W) /\
    ic' !! i = Some (if r =? 0 then locked (w_cur W) ip else rejected (w_cur W) ip) /\
    others_kept i (w_ic W) ic') φ) as Hwp.
  { unfold ilock, ilock_ext. change (Z.to_nat NINODE) with (S 99). eapply ilock_spec; try done.
    intros φ' ic' H1 H2 H3. split; [done|]. by exists ic'. }
  apply wp_Ret in Hwp as (x & φ' & E & -> & ic' & H1 & H2 & H3). by exists φ', ic'.
Qed.

Lemma img_sound data inum : (inum = 2 \/ inum = 3) ->
  sound_inode (img_geom data) (boot_view (image data) 13 [] img_icache None) inum.
Proof.
  intros Hi. assert (IBLOCK inum = 2) as Eb by (by destruct Hi as [-> | ->]).
  assert (w_cur (boot_view (image data) 13 [] img_icache None) = disk_of (image data)) as Ec by done.
  split; rewrite ?Eb, ?Ec, ?boot_w_secs.
  - cbn. lia.
  - apply not_elem_of_empty.
  - destruct Hi as [-> | ->]; rewrite ?img_dinode, ?img_dinode3; by vm_compute.
  - destruct Hi as [-> | ->]; rewrite ?img_dinode, ?img_dinode3; by vm_compute.
  - destruct Hi as [-> | ->]; rewrite ?img_dinode, ?img_dinode3; by apply img_readable.
Qed.

Lemma img_replicated data : replicated (img_geom data) (boot_view (image data) 13 [] img_icache None) 2.
Proof.
  assert (w_cur (boot_view (image data) 13 [] img_icache None) = disk_of (image data)) as Ec by done.
  split; rewrite ?Ec, ?img_dinode.
  - intros _. change (u16 (di_child1 (img_file (checksum hello) T_FILE 1 6 3))) with 3. split.
    + apply img_sound. by right.
    + unfold leaf. by rewrite Ec, img_dinode3.
    + intros [|[|[|[|j]]]] q Hq; cbn in Hq; try injection Hq as <-; try done.
  - by intros H.
  - by left.
  - intros _ j. destruct (decide (j = 1%nat)) as [->|N]; [by exists 2%nat, free_inode|]. exists 1%nat, free_inode. done.
Qed.

Lemma ilock_verifies_witness : exists κ φ', initlog (boot (image jello) 19) = Ret tt κ /\
  ilock no_devsw (Some 0%nat) (Fs (set_busy true κ) img_icache None) = Ret 3 φ'.
Proof.
  destruct (boot_Rep (image jello) 19 13 6 [] img_icache None true) as (κ & E & HR); [by apply image_log; [|by_evaluation]|].
  destruct (ilock_verifies (img_geom jello) no_devsw _ _ 0 (img_inode 0) 2 HR) as (φ' & ic' & H & _);
    [done|done|apply img_sound; by left|apply img_replicated|rewrite boot_wroom; lia|].
  assert (ilock_result (w_cur (boot_view (image jello) 13 [] img_icache None)) 2 = 3) as Er by (by vm_compute).
  rewrite Er in H. exists κ, φ'. exact (conj E H).
Defined.

(** C5. Corruption confined to one word of a file is always detected when its inode
    is first locked after it was put in the cache (an inode that is valid in the
    cache is not verified again): if the inode stores the checksum of
    [p ++ w ++ q] and the blocks now hold [p ++ w' ++ q], where [w] and [w'] are the
    different contents of one aligned word (or of the partial last word), [ilock]
    does not return the inode as valid. *)
Theorem corruption_detected g devsw φ W i ip inum p w w' q :
  Rep g φ W -> w_ic W !! i = Some ip -> fresh_entry inum ip -> sound_inode g W inum -> replicated g W inum ->
  (0 < wroom W)%nat ->
  di_checksum (dinode_at (w_cur W) inum) = checksum (p ++ w ++ q) ->
  file_content (w_cur W) (dinode_at (w_cur W) inum) = p ++ w' ++ q ->
  (4 | Z.of_nat (length p)) -> length w = length w' -> (length w = 4%nat \/ (length w < 4)%nat /\ q = []) ->
  Forall is_byte w -> Forall is_byte w' -> w <> w' ->
  exists r φ' ip', ilock devsw (Some i) φ = Ret r φ' /\ r <> 0 /\
    f_icache φ' !! i = Some ip' /\ flag (i_flags ip') I_VALID = false.
Proof.
  intros HR Hip Hf Hs Hrp Hr Hck Hcont Hp Hl Hw Hbw Hbw' Hne.
  assert (intact (w_cur W) (dinode_at (w_cur W) inum) = false) as Hbad.
  { unfold intact. apply Z.eqb_neq. rewrite Hcont, Hck. intros E. apply Hne.
    rewrite (checksum_app p (w' ++ q)), (checksum_app p (w ++ q)) in E by done. apply lxor_cancel_l in E.
    assert (checksum w' = checksum w) as E'.
    { destruct Hw as [Hw|[Hw ->]]; [|by rewrite !app_nil_r in E].
      rewrite (checksum_app w' q), (checksum_app w q) in E by (rewrite <- ?Hl, Hw; by exists 1).
      by apply lxor_cancel_r in E. }
    rewrite !checksum_word in E' by (destruct Hw as [?|[? _]]; lia).
    symmetry. by apply le_dec_inj. }
  set (r := ilock_result (w_cur W) inum).
  assert (r <> 0) as Hr0.
  { unfold r, ilock_result. rewrite Hbad.
    repeat match goal with |- context [if ?b then _ else _] => destruct b eqn:? end; try done;
      by match goal with H : (?c =? 0) = false |- ?c <> 0 => apply Z.eqb_neq end. }
  assert (wp (ilock devsw (Some i)) (fun x φ' => x = r /\ exists ip', f_icache φ' !! i = Some ip' /\
     flag (i_flags ip') I_VALID = false) φ) as Hwp.
  { unfold ilock, ilock_ext. change (Z.to_nat NINODE) with (S 99). eapply ilock_spec; try done.
    intros φ' ic' H1 H2 _. fold r in H2 |- *. rewrite (proj2 (Z.eqb_neq r 0) Hr0) in H2. split; [done|].
    rewrite (rep_ic _ _ _ H1). exists (rejected (w_cur W) ip). split; [exact H2|].
    unfold rejected. cbn [upd_flags loaded upd_d i_flags]. rewrite clr_busy_valid, set_busy_valid. apply Hf. }
  apply wp_Ret in Hwp as (x & φ' & E & -> & ip' & H1 & H2). by exists r, φ', ip'.
Qed.

Lemma corruption_detected_witness : exists κ r φ', initlog (boot (image jello) 19) = Ret tt κ /\
  ilock no_devsw (Some 0%nat) (Fs (set_busy true κ) img_icache None) = Ret r φ' /\ r <> 0.
Proof.
  destruct (boot_Rep (image jello) 19 13 6 [] img_icache None true) as (κ & E & HR); [by apply image_log; [|by_evaluation]|].
  destruct (corruption_detected (img_geom jello) no_devsw _ _ 0 (img_inode 0) 2 [] [104; 101; 108; 108] [106; 101; 108; 108] [111] HR)
    as (r & φ' & ip' & H & Hr & _);
    [done|done|apply img_sound; by left|apply img_replicated|rewrite boot_wroom; lia|by vm_compute|by vm_compute|by exists 0
    |done|by left|by_evaluation|by_evaluation|done|].
  exists κ, r, φ'. exact (conj E (conj H Hr)).
Defined.
