(* ===== verification/Dir.v ===== *)
(** Directories: [dirlookup] finds the first entry with a name and takes a reference
    to its inode. *)
From S2P Require Import Prelude Bio Cache Log LogSpec Trans Str Fs FsView Alloc Content Verify.

(** ** Specification of directories *)

(** The entries of a directory with contents [c]. *)
Definition dirents (c : list Z) : list (list Z) := (fun k => slice c (16 * k) 16) <$> zrange 0 (Z.of_nat (length c) / 16).

(** An entry in use with name [key], the name padded to [DIRSIZ] bytes. *)
Definition entry_is (key : list Z) (de : list Z) : bool :=
  negb (de_inum de =? 0) && bool_decide (strncpy (de_name de) (Z.to_nat DIRSIZ) = key).

(** The inode number and the offset of the first entry for [name]. *)
Definition dir_find (name c : list Z) : option (Z * Z) :=
  match index_of (entry_is (strncpy name (Z.to_nat DIRSIZ))) (dirents c) with
  | Some k => Some (de_inum (slice c (16 * Z.of_nat k) 16), 16 * Z.of_nat k)
  | None => None
  end.

Lemma lookup_dirents c k : dirents c !! k = if decide (Z.of_nat k < Z.of_nat (length c) / 16) then Some (slice c (16 * Z.of_nat k) 16) else None.
Proof. unfold dirents. rewrite list_lookup_fmap, lookup_zrange. case_decide; case_decide; try lia; [|done]. cbn. by rewrite Z.add_0_l. Qed.

Lemma index_of_drop {A} (p : A -> bool) l k x : l !! k = Some x ->
  index_of p (drop k l) = if p x then Some 0%nat else S <$> index_of p (drop (S k) l).
Proof. intros H. rewrite (drop_S l x k H). cbn. by destruct (p x), (index_of p (drop (S k) l)). Qed.

(** A directory that can be read: whole entries, all of its blocks there. *)
Record dir_ok (g : geometry) (W : fview) (ip : inode) : Prop := {
  dk_dev : i_dev ip = 1;
  dk_type : i_type ip = T_DIR;
  dk_size : (16 | i_size ip);
  dk_data : readable g W (i_d ip)
}.

Section dirs.
Context (g : geometry) (devsw : Z -> devsw_t).
Implicit Types (φ : fs) (W : fview).

Lemma read_dirent_spec φ W i ip off (Q : list Z -> fs -> Prop) : Rep g φ W -> w_ic W !! i = Some ip -> dir_ok g W ip ->
  (0 < wroom W)%nat -> 0 <= off -> off + 16 <= i_size ip ->
  (forall φ', Rep g φ' W -> Q (slice (file_content (w_cur W) (i_d ip)) off 16) φ') ->
  wp (read_dirent devsw (Some i) off) Q φ.
Proof.
  intros HR Hip [Hdev Hty Hsz Hrd] Hr Ho Hle HQ. unfold read_dirent. rewrite wp_bind.
  pose proof (rd_size _ _ _ Hrd) as Hmax. change (MAXFILE * BSIZE) with 70656 in Hmax. change (di_size (i_d ip)) with (i_size ip) in Hmax.
  eapply (readi_spec g devsw φ W i ip off SIZEOF_DIRENT); try done; [by rewrite Hty|lia|unfold SIZEOF_DIRENT; lia|].
  intros φ' HR'. unfold read_len. change SIZEOF_DIRENT with 16. destruct (Z.ltb_spec (i_size ip) (off + 16)); [lia|].
  cbn [fst snd negb]. apply wp_ret. rewrite <- slice_content by (unfold i_size in *; lia). by apply HQ.
Qed.

Definition found W (r : option (Z * Z)) (Q : option (nat * Z) -> fs -> Prop) φ : Prop :=
  match r with
  | None => Q None φ
  | Some (inum, off) => wp (iget 1 inum) (fun p => Q ((fun i => (i, off)) <$> p)) φ
  end.

Lemma dirlookup_loop_spec fuel φ W i ip name k (Q : option (nat * Z) -> fs -> Prop)
    (c := file_content (w_cur W) (i_d ip)) (key := strncpy name (Z.to_nat DIRSIZ)) :
  Rep g φ W -> w_ic W !! i = Some ip -> dir_ok g W ip -> (0 < wroom W)%nat ->
  16 * Z.of_nat k <= i_size ip -> i_size ip < 16 * (Z.of_nat k + Z.of_nat fuel) ->
  (forall φ', Rep g φ' W -> found W ((fun j => (de_inum (slice c (16 * Z.of_nat (k + j)) 16), 16 * Z.of_nat (k + j)))
                                       <$> index_of (entry_is key) (drop k (dirents c))) Q φ') ->
  wp (dirlookup_loop devsw fuel (Some i) name (16 * Z.of_nat k)) Q φ.
Proof.
  intros HR Hip Hd Hr. revert φ k HR. induction fuel as [|fuel IH]; intros φ k HR Hk Hf HQ; [lia|].
  pose proof Hd as [Hdev Hty [q Hq] Hrd]. pose proof (rd_size _ _ _ Hrd) as Hmax. change (di_size (i_d ip)) with (i_size ip) in Hmax.
  assert (Z.of_nat (length c) = i_size ip) as Hlen.
  { unfold c, file_content. rewrite length_file_bytes by apply Hmax. apply Z2Nat.id, Hmax. }
  assert (Z.of_nat (length c) / 16 = q) as Hq'. { rewrite Hlen, Hq. apply Z.div_mul. lia. }
  cbn [dirlookup_loop]. rewrite wp_bind. eapply r_geti; [done|done|]. destruct (Z.ltb_spec (16 * Z.of_nat k) (i_size ip)).
  - assert (dirents c !! k = Some (slice c (16 * Z.of_nat k) 16)) as Hde. { rewrite lookup_dirents, decide_True by lia. done. }
    rewrite wp_bind. eapply read_dirent_spec; try done; [lia|lia|]. intros φ1 HR1. fold c. set (de := slice c (16 * Z.of_nat k) 16) in *.
    assert (forall φ', Rep g φ' W -> entry_is key de = false -> wp (dirlookup_loop devsw fuel (Some i) name (16 * Z.of_nat k + SIZEOF_DIRENT)) Q φ') as Hnext.
    { intros φ' HR' Ene. replace (16 * Z.of_nat k + SIZEOF_DIRENT) with (16 * Z.of_nat (S k)) by (unfold SIZEOF_DIRENT; lia).
      apply IH; [done|lia|lia|]. intros φ'' HR''. specialize (HQ φ'' HR''). rewrite (index_of_drop _ _ _ _ Hde), Ene in HQ.
      destruct (index_of (entry_is key) (drop (S k) (dirents c))) as [j|]; [|done].
      cbn [fmap option_fmap option_map] in *. replace (k + S j)%nat with (S k + j)%nat in HQ by lia. exact HQ. }
    unfold entry_is in Hnext. destruct (Z.eqb_spec (de_inum de) 0) as [E0|E0]; [by apply Hnext|]. cbn [negb andb] in Hnext.
    unfold namecmp. destruct (Z.eqb_spec (strncmp name (de_name de) (Z.to_nat DIRSIZ)) 0) as [En|En].
    + apply strncmp_strncpy in En. specialize (HQ φ1 HR1). rewrite (index_of_drop _ _ _ _ Hde) in HQ. unfold entry_is in HQ.
      destruct (Z.eqb_spec (de_inum de) 0); [done|]. rewrite bool_decide_true in HQ by (unfold key; by rewrite En). cbn in HQ.
      rewrite Nat.add_0_r in HQ. rewrite wp_bind, Hdev. eapply wp_mono; [exact HQ|]. intros p φ2 HQ2. by apply wp_ret.
    + apply Hnext; [done|]. apply bool_decide_eq_false. intros E. apply En, strncmp_strncpy. by rewrite E.
  - apply wp_ret. specialize (HQ φ HR). rewrite drop_ge in HQ; [exact HQ|]. apply lookup_ge_None. rewrite lookup_dirents, decide_False by lia. done.
Qed.

Lemma dirlookup_spec φ W i ip name (Q : option (nat * Z) -> fs -> Prop) : Rep g φ W -> w_ic W !! i = Some ip -> dir_ok g W ip -> (0 < wroom W)%nat ->
  (forall φ', Rep g φ' W -> found W (dir_find name (file_content (w_cur W) (i_d ip))) Q φ') -> wp (dirlookup devsw (Some i) name) Q φ.
Proof.
  intros HR Hip Hd Hr HQ. pose proof Hd as [Hdev Hty Hsz Hrd]. pose proof (rd_size _ _ _ Hrd) as Hmax. change (di_size (i_d ip)) with (i_size ip) in Hmax.
  unfold dirlookup. rewrite wp_bind. eapply r_geti; [done|done|]. rewrite Hty. change (negb (T_DIR =? T_DIR)) with false. cbv iota.
  rewrite wp_bind. unfold dir_bound. rewrite wp_bind. eapply r_geti; [done|done|]. apply wp_ret.
  apply (dirlookup_loop_spec _ φ W i ip name 0); [done|done|done|done|lia| |].
  - unfold SIZEOF_DIRENT. pose proof (Z.div_mod (i_size ip) 16 ltac:(lia)). pose proof (Z.mod_pos_bound (i_size ip) 16 ltac:(lia)).
    pose proof (Z.div_pos (i_size ip) 16). lia.
  - intros φ' HR'. specialize (HQ φ' HR'). unfold dir_find in HQ. rewrite drop_0.
    by destruct (index_of (entry_is (strncpy name (Z.to_nat DIRSIZ))) (dirents (file_content (w_cur W) (i_d ip)))).
Qed.
End dirs.
