(* ===== verification/Path.v ===== *)
(** Path names: [namei] resolves a path through the directories of a healthy file
    system and leaves exactly one reference, on the inode it returns. *)
From S2P Require Import Prelude Bio Cache Log LogSpec Trans Str Fs FsView Alloc Content Verify Dir.

(** ** Specification of paths *)

Definition flush (e : list Z) : list (list Z) := match e with [] => [] | _ => [e] end.

(** The elements of a path: what is between slashes, up to the terminating zero. *)
Fixpoint elems (p e : list Z) : list (list Z) :=
  match p with
  | [] => flush e
  | c :: r => if c =? 0 then flush e else if c =? 47 then flush e ++ elems r [] else elems r (e ++ [c])
  end.
Definition elements (p : list Z) : list (list Z) := elems p [].

(** The inode reached from directory [inum] along the elements. *)
Fixpoint walk (cur : Z -> block) (inum : Z) (es : list (list Z)) : option Z :=
  match es with
  | [] => Some inum
  | e :: es' =>
    let di := dinode_at cur inum in
    if di_type di =? T_DIR then
      match dir_find e (file_content cur di) with
      | Some (x, _) => walk cur x es'
      | None => None
      end
    else None
  end.

(** Every inode the walk reads is sound, intact and linked. *)
Record good_inode (g : geometry) (W : fview) (inum : Z) : Prop := {
  gi_sound : sound_inode g W inum;
  gi_intact : intact (w_cur W) (dinode_at (w_cur W) inum) = true;
  gi_nlink : di_nlink (dinode_at (w_cur W) inum) <> 0;
  gi_size : di_type (dinode_at (w_cur W) inum) = T_DIR -> (16 | di_size (dinode_at (w_cur W) inum))
}.

Fixpoint healthy (g : geometry) (W : fview) (inum : Z) (es : list (list Z)) : Prop :=
  match es with
  | [] => True
  | e :: es' => good_inode g W inum /\
      forall x off, dir_find e (file_content (w_cur W) (dinode_at (w_cur W) inum)) = Some (x, off) -> healthy g W x es'
  end.

(** ** Parsing *)

Lemma elements_skip p : elements (skip_slashes p) = elements p.
Proof.
  unfold elements. induction p as [|c p IH]; [done|]. cbn [skip_slashes]. destruct (Z.eqb_spec c 47) as [->|]; [|done].
  rewrite IH. done.
Qed.

Lemma span_elements p e s r : span_elem p = (s, r) -> elems p e = flush (e ++ s) ++ elements r.
Proof.
  revert e s r. induction p as [|c p IH]; intros e s r E; cbn in E |- *.
  { injection E as <- <-. by rewrite !app_nil_r. }
  destruct (Z.eqb_spec c 47) as [->|]; [cbn in E|]; [injection E as <- <-; by rewrite app_nil_r|]. cbn [orb] in E.
  destruct (Z.eqb_spec c 0) as [->|]; [injection E as <- <-; by rewrite !app_nil_r|].
  destruct (span_elem p) as [e' r']. injection E as <- <-. rewrite (IH (e ++ [c]) e' r' eq_refl). by rewrite <- app_assoc.
Qed.

Lemma span_spec p s r : span_elem p = (s, r) -> p = s ++ r /\ Forall (fun c => c <> 0) s.
Proof.
  revert s r. induction p as [|c p IH]; intros s r E; cbn in E; [injection E as <- <-; by split|].
  destruct (Z.eqb_spec c 47); [injection E as <- <-; by split|]. destruct (Z.eqb_spec c 0); [injection E as <- <-; by split|]. cbn [orb] in E.
  destruct (span_elem p) as [e' r']. injection E as <- <-. destruct (IH e' r' eq_refl) as [-> H]. split; [done|by constructor].
Qed.

Lemma skip_slashes_length p : (length (skip_slashes p) <= length p)%nat.
Proof. induction p as [|c p IH]; [done|]. cbn. case_match; cbn; lia. Qed.

Lemma skip_slashes_chr p : chr (skip_slashes p) <> 47.
Proof. induction p as [|c p IH]; [done|]. cbn. destruct (Z.eqb_spec c 47); [done|]. done. Qed.

(** [skipelem] takes the first element off the path. *)
Lemma skipelem_spec path name :
  match elements path with
  | [] => skipelem path name = None
  | e :: es => exists path', skipelem path name = Some (path', copy_name e name) /\ elements path' = es /\
                 (length path' < length path)%nat /\ Forall (fun c => c <> 0) e
  end.
Proof.
  rewrite <- (elements_skip path). unfold skipelem. pose proof (skip_slashes_length path) as Hl. pose proof (skip_slashes_chr path) as Hc.
  set (p := skip_slashes path) in *. destruct p as [|c p']; [done|]. cbn [chr] in *. destruct (Z.eqb_spec c 0) as [->|Hc0]; [done|].
  destruct (span_elem (c :: p')) as [s r] eqn:E. pose proof (span_elements _ [] _ _ E) as Ee. fold (elements (c :: p')) in Ee. rewrite app_nil_l in Ee.
  destruct (span_spec _ _ _ E) as [Ep Hs].
  destruct s as [|c' s]. { cbn in E. destruct (Z.eqb_spec c 47); [done|]. destruct (Z.eqb_spec c 0); [done|]. cbn [orb] in E. by destruct (span_elem p'). }
  rewrite Ee. cbn [flush app]. exists (skip_slashes r). split; [done|]. split; [apply elements_skip|]. split; [|done].
  pose proof (skip_slashes_length r). assert (length (c :: p') = length (c' :: s) + length r)%nat by (rewrite Ep, length_app; done). cbn in *. lia.
Qed.

(** ** The name buffer *)

Lemma strncpy_nul s t n : Forall (fun c => c <> 0) s -> (length s < n)%nat -> strncpy (s ++ 0 :: t) n = strncpy s n.
Proof.
  intros Hs. revert n. induction Hs as [|c s Hc Hs IH]; intros [|n] Hn; cbn in Hn; try lia; [done|]. cbn [app strncpy chr tail].
  destruct (Z.eqb_spec c 0); [done|]. f_equal. apply IH. lia.
Qed.

Lemma strncpy_take s n : strncpy (take n s) n = strncpy s n.
Proof.
  revert s. induction n as [|n IH]; intros [|c s]; try done. cbn [take strncpy chr tail]. case_match; [done|]. f_equal. apply IH.
Qed.

Lemma copy_name_spec e name : Forall (fun c => c <> 0) e -> length name = Z.to_nat DIRSIZ ->
  strncpy (copy_name e name) (Z.to_nat DIRSIZ) = strncpy e (Z.to_nat DIRSIZ) /\ length (copy_name e name) = Z.to_nat DIRSIZ.
Proof.
  intros He Hl. unfold copy_name, DIRSIZ in *. destruct (Z.leb_spec 14 (Z.of_nat (length e))).
  - split; [apply strncpy_take|]. rewrite length_take. lia.
  - split.
    + unfold splice. cbn [take Z.to_nat app]. rewrite <- app_assoc. cbn [app]. apply strncpy_nul; [done|lia].
    + rewrite length_splice; rewrite ?length_app; cbn; lia.
Qed.

Lemma dir_find_name e e' c : strncpy e (Z.to_nat DIRSIZ) = strncpy e' (Z.to_nat DIRSIZ) -> dir_find e c = dir_find e' c.
Proof. intros E. unfold dir_find. by rewrite E. Qed.

(** ** Counting in the inode cache *)

Definition total {A} (f : A -> Z) (l : list A) : Z := foldr (fun q n => f q + n) 0 l.

Lemma sum_insert {A} (f : A -> Z) l i q q' : l !! i = Some q -> total f (<[i := q']> l) = total f l - f q + f q'.
Proof.
  revert i. induction l as [|x l IH]; intros [|i] Hi; try done.
  - injection Hi as ->. cbn. lia.
  - change (f x + total f (<[i := q']> l) = f x + total f l - f q + f q'). rewrite IH by done. lia.
Qed.

(** References to inode [x], and free entries. *)
Definition ref_to (x : Z) (q : inode) : Z := if caches x q then i_ref q else 0.
Definition refs (ic : list inode) (x : Z) : Z := total (ref_to x) ic.
Definition is_free (q : inode) : Z := if i_ref q =? 0 then 1 else 0.
Definition nfree (ic : list inode) : Z := total is_free ic.

Lemma nfree_found ic : 0 < nfree ic -> exists i q, index_of (fun ip => i_ref ip =? 0) ic = Some i /\ ic !! i = Some q /\ i_ref q = 0.
Proof.
  unfold nfree. induction ic as [|x ic IH]; cbn; [lia|]. fold (total is_free ic). unfold is_free at 1. destruct (Z.eqb_spec (i_ref x) 0) as [E|E].
  - intros _. by exists 0%nat, x.
  - intros H. destruct IH as (i & q & Hi & Hq & Hr); [lia|]. rewrite Hi. by exists (S i), q.
Qed.

(** Entries in use are on the disk, hold the inode of the disk, whose contents match
    its checksum, if they are valid, and are not locked, except entry [L]. *)
Definition settled (cur : Z -> block) (ic : list inode) (L : option nat) : Prop :=
  forall i q, ic !! i = Some q -> 0 <= i_ref q /\ (0 < i_ref q -> i_dev q = 1 /\
    (flag (i_flags q) I_VALID = true -> i_d q = dinode_at cur (i_inum q) /\ intact cur (dinode_at cur (i_inum q)) = true) /\ flag (i_flags q) I_BUSY = bool_decide (L = Some i)).

(** What [iget] does to the cache. *)
Inductive got (inum : Z) (ic : list inode) : nat -> list inode -> Prop :=
| got_cached i q : ic !! i = Some q -> caches inum q = true -> got inum ic i (<[i := upd_ref (fun r => r + 1) q]> ic)
| got_fresh i q : ic !! i = Some q -> i_ref q = 0 -> got inum ic i (<[i := Inode 1 inum 1 0 (i_d q)]> ic).

Lemma caches_spec inum q : caches inum q = true <-> 0 < i_ref q /\ i_dev q = 1 /\ i_inum q = inum.
Proof. unfold caches. rewrite !andb_true_iff, Z.ltb_lt, !Z.eqb_eq. tauto. Qed.

Lemma ref_to_used x q : i_dev q = 1 -> 0 < i_ref q -> ref_to x q = if decide (x = i_inum q) then i_ref q else 0.
Proof.
  intros Hd Hr. unfold ref_to. case_decide as E.
  - by rewrite (proj2 (caches_spec x q)).
  - destruct (caches x q) eqn:Ec; [|done]. apply caches_spec in Ec as (_ & _ & Ec). congruence.
Qed.
Lemma ref_to_free x q : i_ref q = 0 -> ref_to x q = 0.
Proof. intros H. unfold ref_to. by destruct (caches x q). Qed.

Section got.
Context (cur : Z -> block) (inum : Z) (ic : list inode) (L : option nat) (i : nat) (ic' : list inode).
Hypotheses (Hs : settled cur ic L) (HL : forall l, L = Some l -> exists q, ic !! l = Some q /\ 0 < i_ref q) (Hg : got inum ic i ic').

Lemma got_settled : settled cur ic' L.
Proof.
  intros j q' Hj. destruct Hg as [k q Hq Hc|k q Hq Hr]; destruct (decide (j = k)) as [->|Hne];
    rewrite ?list_lookup_insert_ne in Hj by done; try (by apply Hs); rewrite list_lookup_insert_eq in Hj by (by eapply lookup_lt_Some);
    injection Hj as <-; cbn.
  - destruct (Hs k q Hq) as [H1 H2]. apply caches_spec in Hc as [Hc _]. destruct (H2 Hc) as (? & ? & ?). split; [lia|done].
  - split; [lia|]. intros _. split_and!; [done|done|]. symmetry. apply bool_decide_eq_false. intros El.
    destruct (HL k El) as (q0 & Hq0 & Hr0). rewrite Hq in Hq0. injection Hq0 as <-. lia.
Qed.

Lemma got_refs x : refs ic' x = refs ic x + if decide (x = inum) then 1 else 0.
Proof.
  unfold refs. destruct Hg as [k q Hq Hc|k q Hq Hr]; rewrite (sum_insert _ _ _ _ _ Hq).
  - apply caches_spec in Hc as (H1 & H2 & H3). rewrite !ref_to_used by (cbn; done || lia). cbn. rewrite H3. case_decide; lia.
  - rewrite (ref_to_free x q Hr), ref_to_used by (cbn; done || lia). cbn. case_decide; lia.
Qed.

Lemma got_entry : exists q, ic' !! i = Some q /\ caches inum q = true /\
  ((1 < i_ref q /\ nfree ic' = nfree ic) \/ (i_ref q = 1 /\ nfree ic' = nfree ic - 1)).
Proof.
  destruct Hg as [k q Hq Hc|k q Hq Hr]; (eexists; split; [rewrite list_lookup_insert_eq by (by eapply lookup_lt_Some); done|]);
    unfold nfree; rewrite (sum_insert _ _ _ _ _ Hq).
  - apply caches_spec in Hc as (H1 & H2 & H3). split; [apply caches_spec; cbn; lia|]. left. split; [cbn; lia|].
    unfold is_free. cbn. rewrite !(proj2 (Z.eqb_neq _ _)) by lia. lia.
  - split; [apply caches_spec; cbn; lia|]. right. split; [done|]. unfold is_free. cbn. rewrite Hr. cbn. lia.
Qed.

(** An entry in use keeps what it holds. *)
Lemma got_other j q : ic !! j = Some q -> 0 < i_ref q -> exists q', ic' !! j = Some q' /\ i_inum q' = i_inum q /\ i_dev q' = i_dev q /\
  i_flags q' = i_flags q /\ i_d q' = i_d q /\ i_ref q' = i_ref q + if decide (j = i) then 1 else 0.
Proof.
  intros Hj Hr. destruct Hg as [k p Hq Hc|k p Hq Hp]; destruct (decide (j = k)) as [->|Hne];
    try (rewrite list_lookup_insert_ne by done; exists q; split_and!; done || lia).
  - rewrite Hq in Hj. injection Hj as ->. eexists. split; [rewrite list_lookup_insert_eq by (by eapply lookup_lt_Some); done|]. done.
  - rewrite Hq in Hj. injection Hj as ->. lia.
Qed.
End got.

(** ** The operations on the cache *)

Section walking.
Context (g : geometry) (devsw : Z -> devsw_t) (W : fview).
Hypothesis (Hr : (0 < wroom W)%nat).
Implicit Types (φ : fs) (ic : list inode).

(** The file system with another inode cache. *)
Definition at_ic ic : fview := v_ic (fun _ => ic) W.

Lemma iget_spec φ ic inum (Q : iptr -> fs -> Prop) : Rep g φ (at_ic ic) -> 0 < nfree ic ->
  (forall φ' i ic', got inum ic i ic' -> Rep g φ' (at_ic ic') -> Q (Some i) φ') -> wp (iget 1 inum) Q φ.
Proof.
  intros HR Hn HQ. destruct (index_of (caches inum) ic) as [i|] eqn:E.
  - destruct (index_of_Some _ _ _ E) as (q & Hq & Hc & _). eapply (iget_cached g φ (at_ic ic)); [done|done|done|].
    intros φ' HR'. eapply HQ; [by apply got_cached|exact HR'].
  - destruct (nfree_found ic Hn) as (i & q & Hi & Hq & Hz). eapply (iget_fresh g φ (at_ic ic)); [done| |done|done|].
    + intros j p Hp. by eapply (proj1 (index_of_None _ _) E).
    + intros φ' HR'. eapply HQ; [by apply got_fresh|exact HR'].
Qed.

(** A locked entry, holding the inode that is on the disk. *)
Record locks (q q' : inode) : Prop := {
  lk_ref : i_ref q' = i_ref q;
  lk_dev : i_dev q' = i_dev q;
  lk_inum : i_inum q' = i_inum q;
  lk_d : i_d q' = dinode_at (w_cur W) (i_inum q);
  lk_intact : intact (w_cur W) (dinode_at (w_cur W) (i_inum q)) = true;
  lk_busy : flag (i_flags q') I_BUSY = true
}.

Lemma sound_at ic inum : sound_inode g W inum -> sound_inode g (at_ic ic) inum.
Proof. intros H. by apply sound_inode_ic. Qed.

Lemma ilock_settled φ ic i q (Q : Z -> fs -> Prop) : Rep g φ (at_ic ic) -> settled (w_cur W) ic None -> ic !! i = Some q -> 0 < i_ref q ->
  good_inode g W (i_inum q) -> (forall φ' q', locks q q' -> Rep g φ' (at_ic (<[i := q']> ic)) -> Q 0 φ') -> wp (ilock devsw (Some i)) Q φ.
Proof.
  intros HR Hs Hq Hp [Hso Hin _ _] HQ. destruct (Hs i q Hq) as [_ H]. destruct (H Hp) as (Hd & Hv & Hb). rewrite bool_decide_false in Hb by done.
  unfold ilock, ilock_ext. destruct (flag (i_flags q) I_VALID) eqn:Ev.
  - cbn [ilock_rec]. rewrite wp_bind. eapply (r_geti g φ (at_ic ic)); [done|done|]. destruct (Z.ltb_spec (i_ref q) 1); [lia|].
    rewrite Hb. rewrite wp_bind. eapply (r_updi g φ (at_ic ic)); [done|done|]. intros φ1 HR1. rewrite Ev. apply wp_ret. eapply HQ; [|exact HR1].
    split; cbn; try done; [by apply Hv|apply set_busy_busy].
  - eapply (ilock_intact g devsw _ φ (at_ic ic) i q (i_inum q)); [done|done| |by apply sound_at|done|done|].
    + split_and!; done || lia.
    + intros φ1 HR1. eapply HQ; [|exact HR1]. split; cbn; try done. rewrite set_valid_busy. apply set_busy_busy.
Qed.

Definition freed (q : inode) : inode := upd_ref (fun r => r - 1) (upd_flags (fun f => flag_clr f I_BUSY) q).

Lemma iunlockput_spec φ ic i q (Q : unit -> fs -> Prop) : Rep g φ (at_ic ic) -> ic !! i = Some q -> 0 < i_ref q ->
  flag (i_flags q) I_BUSY = true -> i_nlink q <> 0 -> (forall φ', Rep g φ' (at_ic (<[i := freed q]> ic)) -> Q tt φ') ->
  wp (iunlockput devsw (Some i)) Q φ.
Proof.
  intros HR Hq Hp Hb Hn HQ. unfold iunlockput. rewrite wp_bind. eapply (iunlock_spec g φ (at_ic ic)); [done|done|done|lia|]. intros φ1 HR1.
  set (q1 := upd_flags _ q) in *. change (v_ic (insert i q1) (at_ic ic)) with (at_ic (<[i := q1]> ic)) in HR1.
  assert (<[i := q1]> ic !! i = Some q1) as Hq1 by (rewrite list_lookup_insert_eq; [done|by eapply lookup_lt_Some]).
  unfold iput. rewrite wp_bind. eapply (r_geti g φ1 (at_ic _)); [done|done|]. rewrite wp_bind.
  change (i_nlink q1) with (i_nlink q). rewrite (proj2 (Z.eqb_neq _ _) Hn), andb_false_r. apply wp_ret.
  eapply (r_updi g φ1 (at_ic _)); [done|done|]. intros φ2 HR2. apply HQ.
  change (v_ic (insert i (upd_ref (fun r => r - 1) q1)) (at_ic (<[i := q1]> ic))) with (at_ic (<[i := freed q]> (<[i := q1]> ic))) in HR2.
  by rewrite list_insert_insert_eq in HR2.
Qed.

Lemma good_dir inum ic q : good_inode g W inum -> i_inum q = inum -> i_dev q = 1 -> i_d q = dinode_at (w_cur W) inum ->
  i_type q = T_DIR -> dir_ok g (at_ic ic) q.
Proof.
  intros [Hso _ _ Hsz] Hi Hd E Hty. split; [done|done|..].
  - unfold i_size. rewrite E. apply Hsz. unfold i_type in Hty. by rewrite E in Hty.
  - rewrite E. apply (si_data _ _ _ (sound_at ic _ Hso)).
Qed.

(** Locking changes no count, and [iunlockput] gives one reference back. *)
Lemma locks_counts ic i q q1 : settled (w_cur W) ic None -> ic !! i = Some q -> 0 < i_ref q -> locks q q1 ->
  settled (w_cur W) (<[i := q1]> ic) (Some i) /\ (forall x, refs (<[i := q1]> ic) x = refs ic x) /\ nfree (<[i := q1]> ic) = nfree ic.
Proof.
  intros Hs Hq Hp [L1 L2 L3 L4 L6 L5]. destruct (Hs i q Hq) as [_ H]. destruct (H Hp) as (Hd & _ & _). split_and!.
  - intros j p Hj. destruct (decide (j = i)) as [->|Hne].
    + rewrite list_lookup_insert_eq in Hj by (by eapply lookup_lt_Some). injection Hj as <-. rewrite L1. split; [lia|]. intros _.
      split_and!; [by rewrite L2|by rewrite L3|]. rewrite L5. symmetry. by apply bool_decide_eq_true.
    + rewrite list_lookup_insert_ne in Hj by done. destruct (Hs j p Hj) as [H1 H2]. split; [done|]. intros Hpp. destruct (H2 Hpp) as (? & ? & Hb).
      split_and!; [done|done|]. rewrite Hb, !bool_decide_false; [done|congruence|done].
  - intros x. unfold refs. rewrite (sum_insert _ _ _ _ _ Hq), !ref_to_used by (done || lia || congruence). rewrite L1, L3. lia.
  - unfold nfree. rewrite (sum_insert _ _ _ _ _ Hq). unfold is_free. rewrite L1. lia.
Qed.

Lemma freed_counts ic i q : settled (w_cur W) ic (Some i) -> ic !! i = Some q -> 0 < i_ref q ->
  settled (w_cur W) (<[i := freed q]> ic) None /\
  (forall x, refs (<[i := freed q]> ic) x = refs ic x - if decide (x = i_inum q) then 1 else 0) /\
  nfree (<[i := freed q]> ic) = nfree ic + if decide (i_ref q = 1) then 1 else 0.
Proof.
  intros Hs Hq Hp. destruct (Hs i q Hq) as [_ H]. destruct (H Hp) as (Hd & Hv & Hb). split_and!.
  - intros j p Hj. destruct (decide (j = i)) as [->|Hne].
    + rewrite list_lookup_insert_eq in Hj by (by eapply lookup_lt_Some). injection Hj as <-. cbn. split; [lia|]. intros _.
      split_and!; [done| |by rewrite clr_busy_busy]. rewrite clr_busy_valid. done.
    + rewrite list_lookup_insert_ne in Hj by done. destruct (Hs j p Hj) as [H1 H2]. split; [done|]. intros Hpp. destruct (H2 Hpp) as (? & ? & Hb2).
      split_and!; [done|done|]. rewrite Hb2, !bool_decide_false; [done|done|congruence].
  - intros x. unfold refs. rewrite (sum_insert _ _ _ _ _ Hq), (ref_to_used x q) by done. destruct (decide (i_ref q = 1)).
    + rewrite (ref_to_free x (freed q)) by (cbn; lia). destruct (decide (x = i_inum q)); lia.
    + rewrite ref_to_used by (cbn; lia || done). cbn. destruct (decide (x = i_inum q)); lia.
  - unfold nfree. rewrite (sum_insert _ _ _ _ _ Hq). assert (is_free q = 0) as -> by (unfold is_free; by rewrite (proj2 (Z.eqb_neq (i_ref q) 0)) by lia).
    assert (is_free (freed q) = if decide (i_ref q = 1) then 1 else 0) as ->; [|lia]. unfold is_free, freed. cbn.
    destruct (Z.eqb_spec (i_ref q - 1) 0); destruct (decide (i_ref q = 1)); done || lia.
Qed.

(** What [namei] promises for target [t], counting from cache [ic0]. *)
Definition resolved (ic0 : list inode) (t : option Z) (p : iptr) (φ' : fs) : Prop :=
  exists ic', Rep g φ' (at_ic ic') /\ settled (w_cur W) ic' None /\
    match t with
    | None => p = None /\ forall x, refs ic' x = refs ic0 x
    | Some t => exists j q, p = Some j /\ ic' !! j = Some q /\ caches t q = true /\
                  forall x, refs ic' x = refs ic0 x + if decide (x = t) then 1 else 0
    end.

(** The state at the head of the loop of [namex]: entry [i] is held. *)
Record walking (ic0 ic : list inode) (i : nat) (inum : Z) : Prop := {
  wk_settled : settled (w_cur W) ic None;
  wk_entry : exists q, ic !! i = Some q /\ caches inum q = true /\ (2 <= nfree ic \/ i_ref q = 1 /\ 1 <= nfree ic);
  wk_refs : forall x, refs ic x = refs ic0 x + if decide (x = inum) then 1 else 0
}.

(** The locked directory is given up, for good or for the next inode. *)
Lemma walk_back φ ic0 ic i q q1 (Q : unit -> fs -> Prop) : Rep g φ (at_ic (<[i := q1]> ic)) -> settled (w_cur W) ic None ->
  ic !! i = Some q -> 0 < i_ref q -> locks q q1 -> di_nlink (dinode_at (w_cur W) (i_inum q)) <> 0 ->
  (forall x, refs ic x = refs ic0 x + if decide (x = i_inum q) then 1 else 0) ->
  (forall φ', (exists ic', Rep g φ' (at_ic ic') /\ settled (w_cur W) ic' None /\ forall x, refs ic' x = refs ic0 x) -> Q tt φ') ->
  wp (iunlockput devsw (Some i)) Q φ.
Proof.
  intros HR Hs Hq Hp HL Hn Hrf HQ. destruct (locks_counts ic i q q1 Hs Hq Hp HL) as (Hs1 & Hr1 & _).
  assert (<[i := q1]> ic !! i = Some q1) as Hq1 by (rewrite list_lookup_insert_eq; [done|by eapply lookup_lt_Some]).
  pose proof HL as [L1 L2 L3 L4 L6 L5]. eapply iunlockput_spec; [exact HR|exact Hq1|lia|done|unfold i_nlink; by rewrite L4|].
  intros φ' HR'. apply HQ. destruct (freed_counts _ i q1 Hs1 Hq1 ltac:(lia)) as (Hs2 & Hr2 & _).
  eexists. split; [exact HR'|]. split; [exact Hs2|]. intros x. rewrite Hr2, Hr1, Hrf, L3. case_decide; lia.
Qed.

Lemma walk_on φ ic0 ic i q q1 x j ic2 (Q : unit -> fs -> Prop) : Rep g φ (at_ic ic2) -> settled (w_cur W) ic None ->
  ic !! i = Some q -> 0 < i_ref q -> locks q q1 -> di_nlink (dinode_at (w_cur W) (i_inum q)) <> 0 -> got x (<[i := q1]> ic) j ic2 ->
  (2 <= nfree ic \/ i_ref q = 1 /\ 1 <= nfree ic) -> (forall y, refs ic y = refs ic0 y + if decide (y = i_inum q) then 1 else 0) ->
  (forall φ' ic', Rep g φ' (at_ic ic') -> walking ic0 ic' j x -> Q tt φ') ->
  wp (iunlockput devsw (Some i)) Q φ.
Proof.
  intros HR Hs Hq Hp HL Hn Hg Hroom Hrf HQ. destruct (locks_counts ic i q q1 Hs Hq Hp HL) as (Hs1 & Hr1 & Hn1).
  assert (<[i := q1]> ic !! i = Some q1) as Hq1 by (rewrite list_lookup_insert_eq; [done|by eapply lookup_lt_Some]).
  pose proof HL as [L1 L2 L3 L4 L6 L5]. assert (0 < i_ref q1) as Hp1 by lia.
  pose proof (got_settled _ _ _ _ _ _ Hs1 ltac:(intros l [= <-]; eauto) Hg) as Hs2.
  destruct (got_other _ _ _ _ Hg i q1 Hq1 Hp1) as (q2 & Hq2 & G1 & G2 & G3 & G4 & G5).
  destruct (got_entry _ _ _ _ Hg) as (p & Hpj & Hpc & Hpr). pose proof (got_refs _ _ _ _ Hg) as Hr2.
  assert (0 < i_ref q2) as Hp2 by (rewrite G5; case_decide; lia).
  eapply iunlockput_spec; [exact HR|exact Hq2|done|by rewrite G3|unfold i_nlink; by rewrite G4, L4|].
  intros φ' HR'. eapply HQ; [exact HR'|]. destruct (freed_counts _ i q2 Hs2 Hq2 Hp2) as (Hs3 & Hr3 & Hn3). split; [exact Hs3| |].
  - rewrite Hn3. destruct (decide (j = i)) as [->|Hne].
    + rewrite Hq2 in Hpj. injection Hpj as ->. rewrite decide_True in G5 by done. apply caches_spec in Hpc as (H1 & H2 & H3).
      exists (freed p). rewrite list_lookup_insert_eq by (by eapply lookup_lt_Some). split; [done|].
      split; [apply caches_spec; cbn; split_and!; done || lia|]. cbn. rewrite (decide_False (P := i_ref p = 1)) by lia. lia.
    + exists p. rewrite list_lookup_insert_ne by done. split; [done|]. split; [done|]. rewrite decide_False in G5 by done. case_decide; lia.
  - intros y. rewrite Hr3, Hr2, Hr1, Hrf, G1, L3. repeat case_decide; lia.
Qed.
End walking.

(** ** The walk *)

Section namei.
Context (g : geometry) (devsw : Z -> devsw_t) (W : fview).
Hypothesis (Hr : (0 < wroom W)%nat).
Implicit Types (φ : fs) (ic : list inode).

Lemma namex_loop_spec fuel φ ic0 ic i inum path name (Q : iptr * list Z -> fs -> Prop) : Rep g φ (at_ic W ic) ->
  walking W ic0 ic i inum -> healthy g W inum (elements path) -> length name = Z.to_nat DIRSIZ -> (length path < fuel)%nat ->
  (forall p name' φ', resolved g W ic0 (walk (w_cur W) inum (elements path)) p φ' -> Q (p, name') φ') ->
  wp (namex_loop devsw fuel (Some i) path false name false) Q φ.
Proof.
  revert φ ic i inum path name. induction fuel as [|fuel IH]; intros φ ic i inum path name HR HW Hh Hn Hf HQ; [lia|].
  pose proof (skipelem_spec path name) as Hsk. cbn [namex_loop]. destruct (elements path) as [|e es] eqn:Ees.
  { rewrite Hsk. apply wp_ret, HQ. destruct HW as [H1 (q & H2 & H3 & _) H4]. exists ic. split_and!; [done|done|]. by exists i, q. }
  destruct Hsk as (path' & -> & Ep & Hl & He). destruct (copy_name_spec e name He Hn) as [En Hn']. destruct Hh as [Hgi Hh].
  pose proof HW as [Hs (q & Hq & Hc & Hroom) Hrf]. apply caches_spec in Hc as (Hp & Hd & Hi). rewrite <- Hi in Hgi, Hrf.
  rewrite wp_bind. eapply ilock_settled; [exact Hr|exact HR|exact Hs|exact Hq|exact Hp|exact Hgi|]. intros φ1 q1 HL HR1.
  change (negb (0 =? 0)) with false. cbv iota. pose proof HL as [L1 L2 L3 L4 L6 L5].
  assert (<[i := q1]> ic !! i = Some q1) as Hq1 by (rewrite list_lookup_insert_eq; [done|by eapply lookup_lt_Some]).
  assert (forall φ', (exists ic', Rep g φ' (at_ic W ic') /\ settled (w_cur W) ic' None /\ forall x, refs ic' x = refs ic0 x) ->
    walk (w_cur W) inum (e :: es) = None -> wp (ret (None, copy_name e name)) Q φ') as Hfail.
  { intros φ' (ic' & A1 & A2 & A3) Ew. apply wp_ret, HQ. rewrite Ew. exists ic'. done. }
  rewrite wp_bind. eapply (r_geti g φ1 (at_ic W _)); [done|exact Hq1|].
  assert (i_type q1 = di_type (dinode_at (w_cur W) inum)) as Ety by (unfold i_type; by rewrite L4, Hi).
  cbn [walk] in HQ, Hfail. rewrite <- Ety in HQ, Hfail. destruct (Z.eqb_spec (i_type q1) T_DIR) as [Ed|Ed]; cbn [negb andb].
  2:{ rewrite wp_bind. eapply walk_back; [exact Hr|exact HR1|exact Hs|exact Hq|exact Hp|exact HL|apply Hgi|exact Hrf|]. intros φ' Hx. by apply Hfail. }
  rewrite wp_bind. eapply (dirlookup_spec g devsw φ1 (at_ic W _)); [exact HR1|exact Hq1| |exact Hr|].
  { eapply good_dir; [exact Hgi|done|congruence|done|done]. }
  intros φ2 HR2. change (w_cur (at_ic W (<[i := q1]> ic))) with (w_cur W).
  rewrite (dir_find_name _ _ (file_content (w_cur W) (i_d q1)) En), L4, Hi. rewrite Hi in *.
  destruct (dir_find e (file_content (w_cur W) (dinode_at (w_cur W) inum))) as [[x off]|] eqn:Edf; cbn [found].
  - destruct (locks_counts W Hr ic i q q1 Hs Hq Hp HL) as (_ & _ & Hn1). eapply (iget_spec g W φ2 (<[i := q1]> ic)); [exact HR2|lia|].
    intros φ3 j ic2 Hg HR3. cbn [fmap option_fmap option_map]. rewrite wp_bind.
    eapply (walk_on g devsw W Hr φ3 ic0 ic i q q1 x j ic2); [exact HR3|exact Hs|exact Hq|exact Hp|exact HL|rewrite Hi; apply Hgi|exact Hg|exact Hroom|rewrite Hi; exact Hrf|].
    intros φ4 ic3 HR4 HW4. eapply IH; [exact HR4|exact HW4|rewrite Ep; by eapply Hh|exact Hn'|lia|]. rewrite Ep. exact HQ.
  - rewrite wp_bind. eapply walk_back; [exact Hr|exact HR2|exact Hs|exact Hq|exact Hp|exact HL|rewrite Hi; apply Hgi|rewrite Hi; exact Hrf|].
    intros φ' Hx. by apply Hfail.
Qed.

(** Where a path starts: the root, or the current directory. *)
Definition start_inum (path : list Z) : option Z :=
  if chr path =? 47 then Some ROOTINO
  else match w_cwd W with
       | Some i => match w_ic W !! i with Some q => if 0 <? i_ref q then Some (i_inum q) else None | None => None end
       | None => None
       end.

Lemma namei_spec φ path inum : Rep g φ W -> settled (w_cur W) (w_ic W) None -> 2 <= nfree (w_ic W) ->
  start_inum path = Some inum -> healthy g W inum (elements path) ->
  exists p φ', namei devsw path φ = Ret p φ' /\ resolved g W (w_ic W) (walk (w_cur W) inum (elements path)) p φ'.
Proof.
  intros HR Hs Hn Hst Hh. assert (at_ic W (w_ic W) = W) as EW by (apply v_ic_id). rewrite <- EW in HR.
  assert (forall φ1 i ic1, got inum (w_ic W) i ic1 -> Rep g φ1 (at_ic W ic1) ->
    wp (let! r := namex_loop devsw (S (length path)) (Some i) path false no_name false in ret r.1)
       (resolved g W (w_ic W) (walk (w_cur W) inum (elements path))) φ1) as Hloop.
  { intros φ1 i ic1 Hg HR1. rewrite wp_bind. eapply namex_loop_spec; [exact HR1| |exact Hh|done|lia|].
    - split; [eapply got_settled; [exact Hs| |exact Hg]; done| |apply (got_refs _ _ _ _ Hg)].
      destruct (got_entry _ _ _ _ Hg) as (q & H1 & H2 & H3). exists q. split_and!; [done|done|lia].
    - intros p name' φ' Hx. by apply wp_ret. }
  assert (wp (namei devsw path) (resolved g W (w_ic W) (walk (w_cur W) inum (elements path))) φ) as Hwp.
  { unfold namei, namei_ext, namex. rewrite !wp_bind. unfold start_inum in Hst. destruct (chr path =? 47).
    - injection Hst as <-. eapply (iget_spec g W φ (w_ic W)); [exact HR|lia|]. intros φ1 i ic1 Hg HR1. by rewrite <- wp_bind; eapply Hloop.
    - destruct (w_cwd W) as [i|] eqn:Ecwd; [|done]. destruct (w_ic W !! i) as [q|] eqn:Eq; [|done]. destruct (Z.ltb_spec 0 (i_ref q)); [|done].
      injection Hst as Hst. destruct (Hs i q Eq) as [_ Hq]. destruct (Hq ltac:(done)) as (Hd & _ & _).
      rewrite wp_bind. apply wp_get. rewrite (rep_cwd _ _ _ HR). cbn [at_ic v_ic w_cwd]. rewrite Ecwd. unfold idup. rewrite wp_bind.
      eapply (r_updi g φ (at_ic W (w_ic W))); [exact HR|exact Eq|]. intros φ1 HR1. apply wp_ret. rewrite <- wp_bind.
      eapply Hloop; [|exact HR1]. apply got_cached; [done|]. apply caches_spec. done. }
  apply wp_Ret in Hwp as (p & φ' & E & H). by exists p, φ'.
Qed.
End namei.
