(* ===== verification/Write.v ===== *)
(** Writing files: the encoding of disk inodes, [iupdate] with its checksum, and
    [writei] on blocks that are allocated. *)
From S2P Require Import Prelude Bio Cache Log LogSpec Trans Str Fs FsView Alloc Content Verify.

(** ** Disk inodes *)

(** The fields fit their width on disk. *)
Record dinode_ok (di : dinode) : Prop := {
  do_type : -32768 <= di_type di < 32768;
  do_major : -32768 <= di_major di < 32768;
  do_minor : -32768 <= di_minor di < 32768;
  do_nlink : -32768 <= di_nlink di < 32768;
  do_size : 0 <= di_size di < 4294967296;
  do_addrs : length (di_addrs di) = 11%nat /\ Forall (fun a => 0 <= a < 4294967296) (di_addrs di);
  do_child1 : -32768 <= di_child1 di < 32768;
  do_child2 : -32768 <= di_child2 di < 32768;
  do_checksum : 0 <= di_checksum di < 4294967296
}.

(** What [iupdate_ext] stores for an inode. *)
Definition put_inode (o : Z) (di : dinode) (d : block) : block := put_tail o di (put_head o di d).

Definition head_bytes (di : dinode) : list Z :=
  le_enc 2 (di_type di) ++ le_enc 2 (di_major di) ++ le_enc 2 (di_minor di) ++ le_enc 2 (di_nlink di) ++ le_enc 4 (di_size di).
Definition tail_bytes (di : dinode) : list Z := le_enc 2 (di_child1 di) ++ le_enc 2 (di_child2 di) ++ le_enc 4 (di_checksum di).
Definition addr_bytes (di : dinode) : list Z := di_addrs di ≫= le_enc 4.


Lemma put_inode_eq o di d : dinode_ok di -> 0 <= o -> o + 64 <= Z.of_nat (length d) ->
  put_inode o di d = splice (splice (splice d o (head_bytes di)) (o + 56) (tail_bytes di)) (o + 12) (addr_bytes di).
Proof.
  intros _ Ho Hl. unfold put_inode, put_tail, put_head, put_addrs, put32, put16. f_equal.
  rewrite (splice_app d _ _ o (o + 2)), (splice_app d _ _ o (o + 4)), (splice_app d _ _ o (o + 6)), (splice_app d _ _ o (o + 8))
    by (rewrite ?length_app, ?length_le_enc; lia).
  rewrite (splice_app _ _ _ (o + 56) (o + 58)), (splice_app _ _ _ (o + 56) (o + 60))
    by (rewrite ?length_splice; rewrite ?length_app, ?length_le_enc; lia).
  by rewrite <- !app_assoc.
Qed.

Lemma length_head di : length (head_bytes di) = 12%nat.
Proof. done. Qed.
Lemma length_tail di : length (tail_bytes di) = 8%nat.
Proof. done. Qed.
Lemma length_bind_enc l : length (l ≫= le_enc 4) = (4 * length l)%nat.
Proof. induction l as [|a l IH]; [done|]. cbn [mbind list_bind]. rewrite length_app, length_le_enc. fold (mbind (M := list) (le_enc 4) l). rewrite IH. cbn. lia. Qed.

Lemma length_addrs di : dinode_ok di -> length (addr_bytes di) = 44%nat.
Proof. intros H. unfold addr_bytes. rewrite length_bind_enc. destruct (do_addrs _ H) as [-> _]. done. Qed.

Lemma slice_bind l k a : l !! k = Some a -> slice (l ≫= le_enc 4) (4 * Z.of_nat k) 4 = le_enc 4 a.
Proof.
  revert k. induction l as [|b l IH]; intros [|k] H; [done|done| |]; cbn [mbind list_bind].
  - injection H as ->. unfold slice. change (Z.to_nat (4 * Z.of_nat 0)) with 0%nat. rewrite drop_0.
    apply take_app_length'. done.
  - rewrite <- (IH k H). unfold slice. f_equal. replace (Z.to_nat (4 * Z.of_nat (S k))) with (4 + Z.to_nat (4 * Z.of_nat k))%nat by lia.
    rewrite <- drop_drop. done.
Qed.

Lemma dinode_eta di : di = Dinode (di_type di) (di_major di) (di_minor di) (di_nlink di) (di_size di) (di_addrs di)
  (di_child1 di) (di_child2 di) (di_checksum di).
Proof. by destruct di. Qed.

Lemma dec16 v : -32768 <= v < 32768 -> s16 (le_dec (le_enc 2 v)) = v.
Proof.
  intros Hv. rewrite le_dec_enc. change (256 ^ Z.of_nat 2) with 65536. unfold s16. with_strategy transparent [u16] unfold u16.
  rewrite Z.mod_mod by lia. destruct (Z.ltb_spec (v `mod` 65536) 32768) as [H|H].
  - destruct (decide (0 <= v)); [by rewrite Z.mod_small in * by lia|].
    rewrite <- (Z.mod_add v 1) in H by lia. rewrite Z.mod_small in H by lia. lia.
  - destruct (decide (0 <= v)); [rewrite Z.mod_small in H by lia; lia|].
    rewrite <- (Z.mod_add v 1) by lia. rewrite Z.mod_small by lia. lia.
Qed.

Lemma dec32 v : 0 <= v < 4294967296 -> le_dec (le_enc 4 v) = v.
Proof. intros Hv. rewrite le_dec_enc. by apply Z.mod_small. Qed.

Section encoding.
Context (o : Z) (di : dinode) (d : block) (Hok : dinode_ok di) (Ho : 0 <= o) (Hl : o + 64 <= Z.of_nat (length d)).

Let len1 : length (splice d o (head_bytes di)) = length d.
Proof. apply length_splice; rewrite ?length_head; lia. Qed.
Let len2 : length (splice (splice d o (head_bytes di)) (o + 56) (tail_bytes di)) = length d.
Proof. rewrite length_splice; rewrite ?len1, ?length_tail; lia. Qed.
Local Ltac lens := rewrite ?len2, ?len1, ?length_head, ?length_tail, ?(length_addrs di Hok); lia.

Lemma length_put_inode : length (put_inode o di d) = length d.
Proof. rewrite put_inode_eq by done. rewrite length_splice by lens. apply len2. Qed.

(** The three parts of the inode. *)
Lemma slice_head k n : 0 <= k -> k + n <= 12 -> slice (put_inode o di d) (o + k) n = slice (head_bytes di) k n.
Proof.
  intros Hk Hn. rewrite put_inode_eq by done. rewrite slice_splice_disj by lens. rewrite slice_splice_disj by lens.
  rewrite slice_splice_in by lens. f_equal. lia.
Qed.
Lemma slice_tail k n : 0 <= k -> k + n <= 8 -> slice (put_inode o di d) (o + 56 + k) n = slice (tail_bytes di) k n.
Proof.
  intros Hk Hn. rewrite put_inode_eq by done. rewrite slice_splice_disj by lens.
  rewrite slice_splice_in by lens. f_equal. lia.
Qed.
Lemma slice_addrs k n : 0 <= k -> k + n <= 44 -> slice (put_inode o di d) (o + 12 + k) n = slice (addr_bytes di) k n.
Proof. intros Hk Hn. rewrite put_inode_eq by done. rewrite slice_splice_in by lens. f_equal. lia. Qed.

(** Inodes elsewhere in the block are not touched. *)
Lemma slice_other o' n : 0 <= o' -> o' + n <= o \/ o + 64 <= o' -> slice (put_inode o di d) o' n = slice d o' n.
Proof.
  intros Ho' Hd. rewrite put_inode_eq by done. by rewrite !slice_splice_disj by lens.
Qed.

Lemma words_addrs : words (put_inode o di d) (o + 12) 11 = di_addrs di.
Proof.
  destruct (do_addrs _ Hok) as [Hlen Hr]. unfold words. apply list_eq. intros k. rewrite list_lookup_fmap.
  destruct (decide (k < 11)%nat) as [Hk|Hk].
  - destruct (lookup_lt_is_Some_2 (di_addrs di) k) as [a Ha]; [lia|]. rewrite lookup_seq_lt, Ha by done. cbn. f_equal.
    unfold get32. rewrite slice_addrs by lia. unfold addr_bytes. rewrite (slice_bind _ k a Ha). apply dec32.
    by apply (proj1 (Forall_lookup _ _) Hr k).
  - rewrite !lookup_ge_None_2; [done|lia|rewrite length_seq; lia].
Qed.

(** The inode read back is the one written. *)
Lemma get_put_inode : get_dinode (put_inode o di d) o = di.
Proof.
  unfold get_dinode, get16, get32. rewrite words_addrs.
  rewrite <- (Z.add_0_r o) at 2. rewrite !slice_head by lia.
  rewrite <- (Z.add_0_r (o + 56)). replace (o + 58) with (o + 56 + 2) by lia. replace (o + 60) with (o + 56 + 4) by lia.
  rewrite !slice_tail by lia. rewrite (dinode_eta di) at 10.
  f_equal; [exact (dec16 _ (do_type _ Hok))|exact (dec16 _ (do_major _ Hok))|exact (dec16 _ (do_minor _ Hok))|
    exact (dec16 _ (do_nlink _ Hok))|exact (dec32 _ (do_size _ Hok))|exact (dec16 _ (do_child1 _ Hok))|
    exact (dec16 _ (do_child2 _ Hok))|exact (dec32 _ (do_checksum _ Hok))].
Qed.
End encoding.

(** Another inode of the same block. *)
Lemma get_other_inode o o' di d : dinode_ok di -> 0 <= o -> o + 64 <= Z.of_nat (length d) -> 0 <= o' ->
  o' + 64 <= o \/ o + 64 <= o' -> get_dinode (put_inode o di d) o' = get_dinode d o'.
Proof.
  intros Hok Ho Hl Ho' Hd. unfold get_dinode, get16, get32, words. f_equal; try (do 2 f_equal; apply slice_other; done || lia).
  - f_equal. apply slice_other; done || lia.
  - apply list_fmap_ext. intros k x Hx. apply lookup_seq in Hx as [-> Hx]. unfold get32. f_equal. apply slice_other; done || lia.
  - f_equal. apply slice_other; done || lia.
Qed.

(** ** The type of the inodes on disk *)

Lemma slice_cat {A} (d : list A) o m n : 0 <= o -> 0 <= m -> 0 <= n -> slice d o m ++ slice d (o + m) n = slice d o (m + n).
Proof.
  intros Ho Hm Hn. unfold slice. rewrite !Z2Nat.inj_add by done. rewrite <- drop_drop. apply take_take_drop.
Qed.

Lemma s16_range z : -32768 <= s16 z < 32768.
Proof.
  unfold s16. change (u16 z) with (z `mod` 65536). pose proof (Z.mod_pos_bound z 65536 ltac:(lia)).
  destruct (Z.ltb_spec (z `mod` 65536) 32768); lia.
Qed.

Lemma le_enc_mod n v : le_enc n (v `mod` 256 ^ Z.of_nat n) = le_enc n v.
Proof. rewrite <- le_dec_enc. rewrite <- (length_le_enc n v) at 1. apply le_enc_dec, le_enc_bytes. Qed.

Section decoding.
Context (d : block) (Hd : Forall is_byte d).

Lemma enc16 o : 0 <= o -> o + 2 <= Z.of_nat (length d) -> le_enc 2 (s16 (get16 d o)) = slice d o 2.
Proof.
  intros Ho Hl. unfold get16. pose proof (Forall_slice _ d o 2 Hd) as Hs. pose proof (length_slice d o 2 ltac:(lia) ltac:(lia) ltac:(lia)) as Hn.
  pose proof (le_dec_bound _ Hs) as Hb. rewrite Hn in Hb. change (256 ^ Z.of_nat (Z.to_nat 2)) with 65536 in Hb.
  rewrite <- (le_enc_dec _ Hs) at 2. rewrite Hn. change (Z.to_nat 2) with 2%nat. set (v := le_dec (slice d o 2)) in *.
  unfold s16. change (u16 v) with (v `mod` 65536). rewrite Z.mod_small by done. destruct (v <? 32768); [done|].
  rewrite <- (le_enc_mod 2 (v - 65536)). change (256 ^ Z.of_nat 2) with 65536. f_equal.
  rewrite <- (Z_mod_plus_full _ 1), Z.mod_small by lia. lia.
Qed.

Lemma enc32 o : 0 <= o -> o + 4 <= Z.of_nat (length d) -> le_enc 4 (get32 d o) = slice d o 4.
Proof.
  intros Ho Hl. unfold get32. rewrite <- (le_enc_dec _ (Forall_slice _ d o 4 Hd)) at 2. by rewrite length_slice by lia.
Qed.

Lemma enc_words n : forall o, 0 <= o -> o + 4 * Z.of_nat n <= Z.of_nat (length d) -> words d o n ≫= le_enc 4 = slice d o (4 * Z.of_nat n).
Proof.
  induction n as [|n IH]; intros o Ho Hl; [done|]. unfold words. rewrite <- cons_seq. cbn [fmap list_fmap mbind list_bind].
  rewrite Z.mul_0_r, Z.add_0_r, enc32 by lia. replace (4 * Z.of_nat (S n)) with (4 + 4 * Z.of_nat n) by lia.
  rewrite <- slice_cat by lia. f_equal. rewrite <- IH by lia. unfold words. rewrite <- fmap_S_seq, <- list_fmap_compose.
  f_equal. apply list_fmap_ext. intros _ k _. cbn. f_equal. lia.
Qed.

(** Whatever the bytes are, the inode read from them has fields of its C types. *)
Lemma get_dinode_ok o : dinode_ok (get_dinode d o).
Proof.
  assert (forall x, 0 <= get32 d x < 4294967296) as H32.
  { intros x. pose proof (le_dec_bound (slice d x 4) (Forall_slice _ _ _ _ Hd)) as Hb. split; [apply Hb|].
    eapply Z.lt_le_trans; [apply Hb|]. change 4294967296 with (256 ^ Z.of_nat 4). apply Z.pow_le_mono_r; [done|].
    unfold slice. rewrite length_take. lia. }
  split; cbn; try apply s16_range; try apply H32. split; [done|].
  repeat (apply Forall_cons_2; [apply H32|]). apply Forall_nil_2.
Qed.

(** Storing an inode where it was read from changes no byte. *)
Lemma put_get_inode o : 0 <= o -> o + 64 <= Z.of_nat (length d) -> put_inode o (get_dinode d o) d = d.
Proof.
  intros Ho Hl. rewrite put_inode_eq by (done || apply get_dinode_ok).
  assert (head_bytes (get_dinode d o) = slice d o 12) as ->.
  { unfold head_bytes. cbn. rewrite !enc16, enc32 by lia. replace (o + 8) with (o + 6 + 2) by lia. replace (o + 6) with (o + 4 + 2) by lia.
    replace (o + 4) with (o + 2 + 2) by lia. by rewrite !slice_cat by lia. }
  assert (tail_bytes (get_dinode d o) = slice d (o + 56) 8) as ->.
  { unfold tail_bytes. cbn. rewrite !enc16, enc32 by lia. replace (o + 60) with (o + 58 + 2) by lia. replace (o + 58) with (o + 56 + 2) by lia.
    by rewrite !slice_cat by lia. }
  assert (addr_bytes (get_dinode d o) = slice d (o + 12) 44) as -> by (by apply (enc_words 11); lia).
  by rewrite !splice_id by lia.
Qed.
End decoding.

(** ** Files whose blocks up to [lim] are allocated *)

Definition in_lim (lim bn : Z) : Prop := 0 <= bn /\ bn * BSIZE < lim.

(** The blocks are distinct, are not the superblock or the inode's own block, and
    none of them is the indirect block. *)
Record writable (g : geometry) (W : fview) (di : dinode) (ib lim : Z) : Prop := {
  wr_addrs : length (di_addrs di) = Z.to_nat (NDIRECT + 1);
  wr_size : 0 <= di_size di <= lim;
  wr_lim : lim <= MAXFILE * BSIZE;
  wr_mapped : forall bn, in_lim lim bn -> block_mapped g W di bn /\ 2 <= addr_of (w_cur W) di bn /\ addr_of (w_cur W) di bn <> ib;
  wr_inj : forall bn bn', in_lim lim bn -> in_lim lim bn' -> addr_of (w_cur W) di bn = addr_of (w_cur W) di bn' -> bn = bn';
  wr_ind : forall bn, in_lim lim bn -> NDIRECT * BSIZE < lim ->
    addr_of (w_cur W) di bn <> default 0 (di_addrs di !! Z.to_nat NDIRECT) /\ default 0 (di_addrs di !! Z.to_nat NDIRECT) <> ib
}.

(** The disk agrees with [cur] on the indirect block. *)
Lemma addr_of_same cur cur' di lim bn : in_lim lim bn ->
  (NDIRECT * BSIZE < lim -> cur' (default 0 (di_addrs di !! Z.to_nat NDIRECT)) = cur (default 0 (di_addrs di !! Z.to_nat NDIRECT))) ->
  addr_of cur' di bn = addr_of cur di bn.
Proof.
  intros [H0 H1] E. unfold addr_of. destruct (Z.ltb_spec bn NDIRECT); [done|]. rewrite E; [done|]. unfold BSIZE in *. lia.
Qed.

(** A change of the disk that leaves the indirect block alone, and keeps the
    buffers held, keeps the file writable. *)
Lemma writable_same g W W' di ib lim : writable g W di ib lim -> w_held W' = w_held W ->
  (NDIRECT * BSIZE < lim -> w_cur W' (default 0 (di_addrs di !! Z.to_nat NDIRECT)) = w_cur W (default 0 (di_addrs di !! Z.to_nat NDIRECT))) ->
  writable g W' di ib lim.
Proof.
  intros [H1 H2 H3 H4 H5 H6] Hh Hi.
  assert (forall bn, in_lim lim bn -> addr_of (w_cur W') di bn = addr_of (w_cur W) di bn) as E.
  { intros bn Hbn. by eapply addr_of_same. }
  split; try done.
  - intros bn Hbn. rewrite E by done. destruct (H4 bn Hbn) as ([A B C D F] & G & I). split; [|done].
    split; try done; rewrite ?E by done; try done; unfold w_secs in *; rewrite Hh; done.
  - intros bn bn' Hb Hb'. rewrite !E by done. auto.
  - intros bn Hb Hl. rewrite E by done. auto.
Qed.

Lemma writable_readable g W di ib lim : writable g W di ib lim -> readable g W di.
Proof.
  intros [H1 H2 H3 H4 _ _]. split; [done|lia|]. intros bn Hb Hs. apply H4. split; [done|]. lia.
Qed.

(** [cur'] is [cur] with [l] written at offset [off] of the file. *)
Record written (cur cur' : Z -> block) (di : dinode) (lim off : Z) (l : list Z) : Prop := {
  wt_frame : forall s, (forall bn, in_lim lim bn -> s <> addr_of cur di bn) -> cur' s = cur s;
  wt_addr : forall bn, in_lim lim bn -> addr_of cur' di bn = addr_of cur di bn;
  wt_bytes : forall o, 0 <= o < lim -> file_byte cur' di o =
    if decide (off <= o < off + Z.of_nat (length l)) then default 0 (l !! Z.to_nat (o - off)) else file_byte cur di o
}.

Lemma written_nil cur di lim off : written cur cur di lim off [].
Proof. split; [done..|]. intros o Ho. rewrite decide_False by (cbn; lia). done. Qed.

Lemma written_app cur cur1 cur2 di lim off l1 l2 : written cur cur1 di lim off l1 ->
  written cur1 cur2 di lim (off + Z.of_nat (length l1)) l2 -> written cur cur2 di lim off (l1 ++ l2).
Proof.
  intros [F1 A1 B1] [F2 A2 B2]. split.
  - intros s Hs. rewrite F2; [by apply F1|]. intros bn Hbn. rewrite A1 by done. by apply Hs.
  - intros bn Hbn. by rewrite A2, A1.
  - intros o Ho. rewrite B2, B1 by done. rewrite length_app. repeat case_decide; try lia; try done.
    + rewrite lookup_app_r by lia. do 2 f_equal. lia.
    + by rewrite lookup_app_l by lia.
Qed.

Section write.
Context (g : geometry) (devsw : Z -> devsw_t).
Implicit Types (φ : fs) (W : fview).

(** One block. *)
Lemma written_block W di ib lim off l : writable g W di ib lim -> 0 <= off -> off `mod` BSIZE + Z.of_nat (length l) <= BSIZE ->
  off + Z.of_nat (length l) <= lim -> (0 < length l)%nat ->
  let a := addr_of (w_cur W) di (off / BSIZE) in
  block_ok (w_cur W a) ->
  written (w_cur W) (<[a := splice (w_cur W a) (off `mod` BSIZE) l]> (w_cur W)) di lim off l.
Proof.
  intros Hw Ho Hm Hl Hn a [Hlen _]. assert (BSIZE = 512) as HB by done. unfold in_lim in *.
  pose proof (Z.div_mod off BSIZE ltac:(lia)) as Hdm. pose proof (Z.mod_pos_bound off BSIZE ltac:(lia)) as Hmod.
  assert (0 <= off / BSIZE) by (apply Z.div_pos; lia).
  assert (in_lim lim (off / BSIZE)) as Hin by (split; lia).
  assert (forall bn, in_lim lim bn -> addr_of (<[a := splice (w_cur W a) (off `mod` BSIZE) l]> (w_cur W)) di bn = addr_of (w_cur W) di bn) as Ha.
  { intros bn Hbn. eapply addr_of_same; [done|]. intros Hind. apply fn_lookup_insert_ne. apply (wr_ind _ _ _ _ _ Hw); done. }
  split; [|done|].
  - intros s Hs. apply fn_lookup_insert_ne. intros <-. by apply (Hs (off / BSIZE)).
  - intros o Hor. unfold file_byte. assert (in_lim lim (o / BSIZE)) as Hio.
    { split; [apply Z.div_pos; lia|]. pose proof (Z.mul_div_le o BSIZE ltac:(lia)). lia. }
    rewrite Ha by done. pose proof (Z.div_mod o BSIZE ltac:(lia)) as Hdo. pose proof (Z.mod_pos_bound o BSIZE ltac:(lia)) as Hmo.
    destruct (decide (o / BSIZE = off / BSIZE)) as [E|N].
    + rewrite E. fold a. rewrite fn_lookup_insert. unfold byte_at. rewrite lookup_splice by (rewrite ?Hlen; lia).
      rewrite E in Hdo. repeat case_decide; try lia; try done. do 2 f_equal. lia.
    + rewrite fn_lookup_insert_ne.
      * rewrite decide_False; [done|]. intros Hr. apply N. symmetry. apply (Z.div_unique _ _ _ (o - BSIZE * (off / BSIZE))); [|lia].
        left. lia.
      * intros E. apply N. symmetry. by apply (wr_inj _ _ _ _ _ Hw).
Qed.
(** The logged update of a block, and what follows. *)
Lemma r_put_then {X} φ W s f (m : K fs X) (Q : X -> fs -> Prop) : Rep g φ W -> 2 <= s < g_start g -> s ∉ w_secs W ->
  g_busy g = true -> Z.of_nat (size (w_pins W)) < g_nlog g - 1 -> (1 < wroom W)%nat ->
  block_ok (f (w_cur W s)) -> (forall φ', Rep g φ' (v_put s (f (w_cur W s)) W) -> wp m Q φ') ->
  wp (let! bp := bk (bread 1 s) in bupd bp f;;; lg (log_write bp);;; bk (brelse bp);;; m) Q φ.
Proof.
  intros HR Hs Hh Hb Hn Hr Hf HQ.
  assert (wp ((let! bp := bk (bread 1 s) in bupd bp f;;; lg (log_write bp);;; bk (brelse bp));;; m) Q φ) as H.
  { rewrite wp_bind. by eapply r_put. }
  unfold wp, bind in H |- *. destruct (bk (bread 1 s) φ) as [bp φ1| | | |]; try done.
  destruct (bupd bp f φ1) as [? φ2| | | |]; try done. by destruct (lg (log_write bp) φ2).
Qed.

(** The number of blocks that [n] bytes at [off] touch. *)
Definition touched (off n : Z) : Z := if n <=? 0 then 0 else (off `mod` BSIZE + n + 511) / BSIZE.

Lemma touched_step off n : 0 <= off -> 0 < n ->
  let m := Z.min n (BSIZE - off `mod` BSIZE) in touched off n = 1 + touched (off + m) (n - m).
Proof.
  intros Ho Hn m. unfold touched, m. assert (BSIZE = 512) as -> by done. rewrite (proj2 (Z.leb_gt n 0)) by lia.
  pose proof (Z.mod_pos_bound off 512 ltac:(lia)). pose proof (Z.div_mod off 512 ltac:(lia)).
  destruct (Z.leb_spec (n - Z.min n (512 - off `mod` 512)) 0).
  - symmetry. apply (Z.div_unique _ _ _ (off `mod` 512 + n + 511 - 512)); lia.
  - rewrite Z.min_r by lia. replace (off + (512 - off `mod` 512)) with (0 + (off / 512 + 1) * 512) by lia.
    rewrite Z.mod_add, Z.mod_0_l by lia.
    replace (off `mod` 512 + n + 511) with (0 + (n - (512 - off `mod` 512)) + 511 + 1 * 512) by lia. rewrite Z.div_add by lia. lia.
Qed.

Lemma touched_nonneg off n : 0 <= touched off n.
Proof.
  unfold touched. destruct (Z.leb_spec n 0); [done|]. apply Z.div_pos; [|done].
  pose proof (Z.mod_pos_bound off BSIZE ltac:(done)). lia.
Qed.

(** What writing leaves: same cache and buffers, at most [k] more logged sectors. *)
Record after_write W W' (k : Z) : Prop := {
  aw_ic : w_ic W' = w_ic W;
  aw_held : w_held W' = w_held W;
  aw_T : w_T W' = w_T W;
  aw_pins : Z.of_nat (size (w_pins W')) <= Z.of_nat (size (w_pins W)) + k;
  aw_room : Z.of_nat (wroom W) <= Z.of_nat (wroom W') + k
}.

Lemma after_write_put W s d : after_write W (v_put s d W) 1.
Proof. pose proof (wroom_put s d W). pose proof (size_pins_put s d W). split; try done; lia. Qed.

Lemma after_write_trans W W1 W2 k1 k2 : after_write W W1 k1 -> after_write W1 W2 k2 -> after_write W W2 (k1 + k2).
Proof. intros [] []. split; try congruence; lia. Qed.
Lemma splice_ok (d : block) o l : block_ok d -> Forall is_byte l -> 0 <= o -> o + Z.of_nat (length l) <= BSIZE -> block_ok (splice d o l).
Proof.
  intros [H1 H2] Hl Ho Hn. split; [rewrite length_splice; [done|lia|rewrite H1; unfold BSIZE in *; lia]|].
  unfold splice. apply Forall_app. split; [by apply Forall_take|]. apply Forall_app. split; [done|by apply Forall_drop].
Qed.

Lemma slice_cut {A} (l : list A) t m k : 0 <= t -> 0 <= m <= k -> slice l t k = slice l t m ++ slice l (t + m) (k - m).
Proof.
  intros Ht Hm. unfold slice. rewrite Z2Nat.inj_add by lia. rewrite <- drop_drop.
  replace (Z.to_nat k) with (Z.to_nat m + Z.to_nat (k - m))%nat by lia. by rewrite take_take_drop.
Qed.

Lemma writei_loop_spec fuel φ W i ip ib lim src off n tot (Q : Z -> fs -> Prop) :
  Rep g φ W -> w_ic W !! i = Some ip -> i_dev ip = 1 -> writable g W (i_d ip) ib lim -> g_busy g = true ->
  0 <= off -> 0 <= tot <= n -> off + (n - tot) <= lim -> n <= Z.of_nat (length src) -> Forall is_byte src ->
  Z.of_nat (size (w_pins W)) + touched off (n - tot) < g_nlog g -> touched off (n - tot) < Z.of_nat (wroom W) ->
  touched off (n - tot) < Z.of_nat fuel ->
  (forall φ' W', Rep g φ' W' -> after_write W W' (touched off (n - tot)) ->
     written (w_cur W) (w_cur W') (i_d ip) lim off (slice src tot (n - tot)) -> Q (off + (n - tot)) φ') ->
  wp (writei_loop fuel (Some i) src off n tot) Q φ.
Proof.
  revert φ W off tot. induction fuel as [|fuel IH]; intros φ W off tot HR Hip Hdev Hw Hb Ho Ht Hl Hs Hby Hp Hr Hf HQ.
  { pose proof (touched_nonneg off (n - tot)). lia. }
  cbn [writei_loop]. destruct (Z.ltb_spec tot n) as [Hlt|Hge].
  2:{ replace (n - tot) with 0 in HQ by lia. rewrite Z.add_0_r in HQ. apply wp_ret. eapply HQ; [done| |apply written_nil].
      change (touched off 0) with 0. split; try done; lia. }
  pose proof (Z.mod_pos_bound off BSIZE ltac:(done)) as Hmod. pose proof (Z.div_mod off BSIZE ltac:(done)) as Hdm.
  pose proof (touched_step off (n - tot) Ho ltac:(lia)) as Hts. cbv zeta in Hts.
  set (m := Z.min (n - tot) (BSIZE - off `mod` BSIZE)) in *. assert (0 < m <= n - tot) by (unfold m; lia).
  pose proof (touched_nonneg (off + m) (n - tot - m)) as Htn. rewrite Hts in Hp, Hr, Hf.
  assert (in_lim lim (off / BSIZE)) as Hin by (split; [apply Z.div_pos; done|lia]).
  destruct (wr_mapped _ _ _ _ _ Hw _ Hin) as (Hm & Ha2 & _).
  assert (length (slice src tot m) = Z.to_nat m) as Hlm by (apply length_slice; lia).
  rewrite wp_bind. eapply r_geti; [done|done|]. rewrite wp_bind.
  eapply (bmap_mapped g devsw); [done|done|done|apply (wr_addrs _ _ _ _ _ Hw)|done|lia|]. intros φ1 HR1. rewrite Hdev.
  set (a := addr_of (w_cur W) (i_d ip) (off / BSIZE)) in *.
  assert (a < g_start g) as Has by apply (bm_addr _ _ _ _ Hm).
  pose proof (rep_cur_ok _ _ _ a HR Has) as Hok.
  eapply (r_put_then _ _ a (fun d => splice d (off `mod` BSIZE) (slice src tot m))); [done|lia|apply (bm_free _ _ _ _ Hm)|done|lia|lia| |].
  { apply splice_ok; [done| |lia|unfold m in *; lia]. unfold slice. by apply Forall_take, Forall_drop. }
  intros φ2 HR2. assert (lim <= 70656) by apply (wr_lim _ _ _ _ _ Hw). rewrite u32_small by lia.
  set (W2 := v_put a (splice (w_cur W a) (off `mod` BSIZE) (slice src tot m)) W) in *.
  pose proof (after_write_put W a (splice (w_cur W a) (off `mod` BSIZE) (slice src tot m))) as Haw. fold W2 in Haw.
  destruct (written_block W (i_d ip) ib lim off (slice src tot m)) as [F A B]; [done|lia|lia|lia|lia|done|].
  replace (n - tot - m) with (n - (tot + m)) in * by lia.
  eapply (IH _ W2); try done; try lia.
  - eapply writable_same; [done|done|]. intros Hi. apply fn_lookup_insert_ne. by apply (wr_ind _ _ _ _ _ Hw).
  - destruct Haw. lia.
  - destruct Haw. lia.
  - intros φ3 W3 HR3 Haw3 Hwr. replace (off + m + (n - (tot + m))) with (off + (n - tot)) by lia. apply (HQ _ W3); [done| |].
    + rewrite Hts. by eapply after_write_trans.
    + rewrite (slice_cut src tot m) by lia. replace (n - tot - m) with (n - (tot + m)) by lia.
      eapply written_app; [split; [exact F|exact A|exact B]|]. by rewrite Hlm, Z2Nat.id by lia.
Qed.
(** ** Writing the inode back *)

Lemma put_head_ok o di d : block_ok d -> 0 <= o -> o + 64 <= BSIZE -> block_ok (put_head o di d).
Proof.
  intros Hd Ho Hl. unfold put_head, put16, put32.
  repeat (apply splice_ok; [|apply le_enc_bytes|lia|rewrite length_le_enc; lia]). done.
Qed.

Lemma put_tail_ok o di d : block_ok d -> length (di_addrs di) = 11%nat -> 0 <= o -> o + 64 <= BSIZE -> block_ok (put_tail o di d).
Proof.
  intros Hd Hl Ho Hb. unfold put_tail, put_addrs. apply splice_ok; [|clear|lia|].
  - unfold put32. apply splice_ok; [done|apply le_enc_bytes|lia|rewrite length_le_enc; lia].
  - induction (di_addrs di) as [|x l IH]; [constructor|]. apply Forall_app. split; [apply le_enc_bytes|exact IH].
  - rewrite length_bind_enc, Hl. lia.
Qed.

Lemma dinode_off_range inum : 0 <= dinode_off inum /\ dinode_off inum + 64 <= BSIZE.
Proof.
  unfold dinode_off. assert (IPB = 8) as -> by done. assert (BSIZE = 512) as -> by done.
  pose proof (Z.mod_pos_bound inum 8 ltac:(lia)). lia.
Qed.

(** A change of block [ib] does not change the file. *)
Lemma file_byte_ib W di ib lim d o : writable g W di ib lim -> 0 <= o < lim ->
  file_byte (<[ib := d]> (w_cur W)) di o = file_byte (w_cur W) di o.
Proof.
  intros Hw Ho. assert (in_lim lim (o / BSIZE)) as Hin.
  { split; [apply Z.div_pos; [lia|done]|]. pose proof (Z.mul_div_le o BSIZE ltac:(done)). lia. }
  unfold file_byte. rewrite (addr_of_same (w_cur W) _ di lim _ Hin).
  - rewrite fn_lookup_insert_ne; [done|]. apply not_eq_sym, (wr_mapped _ _ _ _ _ Hw _ Hin).
  - intros Hi. apply fn_lookup_insert_ne. apply not_eq_sym, (wr_ind _ _ _ _ _ Hw _ Hin Hi).
Qed.

Lemma file_content_same cur cur' di lim : di_size di <= lim ->
  (forall o, 0 <= o < lim -> file_byte cur' di o = file_byte cur di o) -> file_content cur' di = file_content cur di.
Proof.
  intros Hs H. unfold file_content, file_bytes. apply list_fmap_ext. intros k x Hx. apply H.
  rewrite lookup_zrange in Hx. case_decide; [|done]. injection Hx as <-. lia.
Qed.

(** The file can be read while the inode's block is held and being changed. *)
Lemma readable_held W W' di ib lim d j : writable g W di ib lim -> w_held W !! j = None ->
  w_held W' = <[j := ib]> (w_held W) -> w_cur W' = <[ib := d]> (w_cur W) -> readable g W' di.
Proof.
  intros Hw Hj Hh Hc. assert (w_secs W' = w_secs W ∪ {[ib]}) as Hs.
  { rewrite <- (w_secs_bread j ib W Hj). unfold w_secs. by rewrite Hh. }
  pose proof (wr_size _ _ _ _ _ Hw). pose proof (wr_lim _ _ _ _ _ Hw).
  split; [apply Hw|lia|]. intros bn Hb Hl.
  assert (in_lim lim bn) as Hin by (split; lia). destruct (wr_mapped _ _ _ _ _ Hw _ Hin) as ([A B C D F] & G & I).
  assert (addr_of (w_cur W') di bn = addr_of (w_cur W) di bn) as E.
  { rewrite Hc. eapply addr_of_same; [done|]. intros Hi. apply fn_lookup_insert_ne. apply not_eq_sym, (wr_ind _ _ _ _ _ Hw _ Hin Hi). }
  split; rewrite ?E, ?Hs; try done; [set_solver|]. intros Hn.
  assert (NDIRECT * BSIZE < lim) as Hi by (assert (BSIZE = 512) as HB by done; rewrite HB in *; lia).
  destruct (F Hn) as [F1 F2]. pose proof (wr_ind _ _ _ _ _ Hw _ Hin Hi) as [_ F3]. split; [done|set_solver].
Qed.
Lemma Rep_ext φ W W' : Rep g φ W -> (forall s, s < g_start g -> w_cur W' s = w_cur W s) -> w_held W' = w_held W -> w_pins W' = w_pins W ->
  w_T W' = w_T W -> w_ic W' = w_ic W -> w_cwd W' = w_cwd W -> Rep g φ W'.
Proof.
  intros [(A & H1 & H2 & H3 & H4 & H5) E1 E2 E3 E4 E5] Hc Hh Hp HT Hi Hw. split; try congruence.
  exists A. rewrite HT, Hh, Hp. split_and!; [done..|]. intros s Hs. by rewrite Hc, H5.
Qed.

(** The inode with its checksum brought up to date. *)
Definition summed (cur : Z -> block) (di : dinode) : dinode := with_checksum (checksum (file_content cur di)) di.
Definition v_iupdate (i : nat) (ip : inode) (W : fview) : fview :=
  let di := summed (w_cur W) (i_d ip) in
  v_put (IBLOCK (i_inum ip)) (put_inode (dinode_off (i_inum ip)) di (w_cur W (IBLOCK (i_inum ip))))
    (v_ic (insert i (upd_d (fun _ => di) ip)) W).

Lemma iupdate_spec φ W i ip lim skip (Q : unit -> fs -> Prop) : Rep g φ W -> w_ic W !! i = Some ip -> i_dev ip = 1 ->
  i_type ip <> T_DEV -> writable g W (i_d ip) (IBLOCK (i_inum ip)) lim ->
  2 <= IBLOCK (i_inum ip) < g_start g -> IBLOCK (i_inum ip) ∉ w_secs W -> g_busy g = true ->
  Z.of_nat (size (w_pins W)) < g_nlog g - 1 -> (1 < wroom W)%nat -> length (di_addrs (i_d ip)) = 11%nat ->
  skip = true \/ i_child1 ip = 0 /\ i_child2 ip = 0 ->
  (forall φ', Rep g φ' (v_iupdate i ip W) -> Q tt φ') ->
  wp (iupdate_ext devsw (Some i) skip) Q φ.
Proof.
  intros HR Hip Hdev Hty Hw Hib Hfree Hb Hp Hr Hla Hsk HQ. unfold iupdate_ext.
  set (ib := IBLOCK (i_inum ip)) in *. destruct (dinode_off_range (i_inum ip)) as [Ho Ho'].
  rewrite wp_bind. eapply r_geti; [done|done|]. rewrite wp_bind, Hdev. fold ib.
  eapply r_bread; [done|lia|done|right; lia|]. intros j φ1 Hj HR1.
  rewrite wp_bind. eapply r_bupd; [done|apply lookup_insert_eq|apply put_head_ok; [by apply (rep_cur_ok _ _ _ ib HR); lia|done|done]|].
  intros φ2 HR2. set (W2 := v_set _ _ _) in HR2. pose proof (wroom_bread j ib W Hj) as Hrb.
  assert (wroom W2 = wroom (v_bread j ib W)) as Hr2 by done.
  rewrite wp_bind. eapply ichecksum_spec; [done|done|done|done|by eapply (readable_held W)|lia|]. intros φ3 HR3.
  replace (file_content (w_cur W2) (i_d ip)) with (file_content (w_cur W) (i_d ip)).
  2:{ symmetry. apply (file_content_same _ _ _ lim); [apply Hw|]. intros o Hol. exact (file_byte_ib W (i_d ip) ib lim _ o Hw Hol). }
  rewrite wp_bind. eapply r_updi; [done|done|]. intros φ4 HR4. fold (summed (w_cur W) (i_d ip)) in HR4.
  assert ((insert i (upd_d (with_checksum (checksum (file_content (w_cur W) (i_d ip)))) ip) (w_ic W2)) !! i
    = Some (upd_d (fun _ => summed (w_cur W) (i_d ip)) ip)) as Hip'.
  { apply list_lookup_insert_eq. by apply lookup_lt_Some in Hip. }
  rewrite wp_bind. eapply r_geti; [done|done|].
  rewrite wp_bind. eapply r_bupd; [done|apply lookup_insert_eq|..].
  { apply put_tail_ok; [|done|done|done]. cbn. rewrite fn_lookup_insert. apply put_head_ok; [|done|done].
    apply (rep_cur_ok _ _ _ ib HR). lia. }
  intros φ5 HR5. rewrite wp_bind. eapply r_log_write; [done|apply lookup_insert_eq|lia|done|done|change (0 < wroom W2)%nat; lia|].
  intros φ6 HR6. rewrite wp_bind. eapply r_brelse; [done|apply lookup_insert_eq|cbn; set_solver|]. intros φ7 HR7.
  assert (Rep g φ7 (v_iupdate i ip W)) as HR8.
  { eapply Rep_ext; [exact HR7|..]; try done; cbn.
    - intros s _. destruct (decide (s = ib)) as [->|]; [by rewrite !fn_lookup_insert|]. by rewrite !fn_lookup_insert_ne.
    - by rewrite delete_insert_id.
    - pose proof (rep_T _ _ _ HR). set_solver. }
  destruct skip; [by apply wp_ret, HQ|]. destruct Hsk as [?|[C1 C2]]; [done|].
  rewrite wp_bind. eapply r_geti; [done|done|]. change (i_child1 (upd_d _ ip)) with (i_child1 ip). rewrite C1, wp_bind. apply wp_ret.
  rewrite wp_bind. eapply r_geti; [done|done|]. change (i_child2 (upd_d _ ip)) with (i_child2 ip). rewrite C2. by apply wp_ret, HQ.
Qed.
(** ** Contents *)

Lemma lookup_content cur di k : file_content cur di !! k = if decide (Z.of_nat k < di_size di) then Some (file_byte cur di (Z.of_nat k)) else None.
Proof. unfold file_content, file_bytes. rewrite list_lookup_fmap, lookup_zrange. repeat case_decide; done || lia. Qed.

Lemma length_content cur di : 0 <= di_size di -> length (file_content cur di) = Z.to_nat (di_size di).
Proof. apply length_file_bytes. Qed.

(** The write as an operation on the content: it replaces bytes and extends the file. *)
Lemma content_written cur cur' di lim off l : written cur cur' di lim off l -> 0 <= off <= di_size di -> di_size di <= lim ->
  off + Z.of_nat (length l) <= lim ->
  file_content cur' (with_size (Z.max (di_size di) (off + Z.of_nat (length l))) di) = splice (file_content cur di) off l.
Proof.
  intros Hw Ho Hs Hl. apply list_eq. intros k. rewrite lookup_splice by (rewrite length_content; lia).
  rewrite !lookup_content. cbn [with_size di_size].
  change (file_byte cur' (with_size ?z di)) with (file_byte cur' di).
  case_decide as H1.
  - rewrite (wt_bytes _ _ _ _ _ _ Hw) by lia. repeat case_decide; try lia; try done.
    replace (Z.to_nat (Z.of_nat k - off)) with (k - Z.to_nat off)%nat by lia.
    destruct (lookup_lt_is_Some_2 l (k - Z.to_nat off)) as [x ->]; [lia|done].
  - repeat case_decide; try lia; done.
Qed.

Lemma bytes_xor a b : 0 <= a < 4294967296 -> 0 <= b < 4294967296 -> 0 <= Z.lxor a b < 4294967296.
Proof.
  change 4294967296 with (2 ^ 32). intros Ha Hb. assert (0 <= Z.lxor a b) by (apply Z.lxor_nonneg; lia). split; [done|].
  destruct (decide (Z.lxor a b = 0)) as [->|]; [done|]. apply Z.log2_lt_pow2; [lia|].
  eapply Z.le_lt_trans; [apply Z.log2_lxor; lia|].
  apply Z.max_lub_lt; (eapply Z.le_lt_trans; [apply (Z.log2_le_mono _ (2 ^ 32 - 1)); lia|done]).
Qed.

Lemma checksum_range l : Forall is_byte l -> 0 <= checksum l < 4294967296.
Proof.
  induction l as [l IH] using (induction_ltof1 _ (@length Z)). unfold ltof in IH. intros H.
  destruct (decide (length l < 4)%nat) as [Hs|Hs].
  - rewrite checksum_short by done. pose proof (le_dec_bound l H). pose proof (Z.pow_le_mono_r 256 (Z.of_nat (length l)) 4). lia.
  - destruct l as [|a [|b [|c [|d l]]]]; cbn in Hs; try lia. cbn [checksum].
    repeat (apply Forall_cons in H as [? H]). apply bytes_xor; [apply (le_dec_bound [a; b; c; d])|apply IH; [cbn; lia|done]].
    rewrite !Forall_cons. split_and!; [done..|by apply Forall_nil].
Qed.

Lemma file_bytes_ok φ W di ib lim : Rep g φ W -> writable g W di ib lim -> Forall is_byte (file_content (w_cur W) di).
Proof.
  intros HR Hw. apply Forall_lookup. intros k x Hx. rewrite lookup_content in Hx. case_decide; [|done]. injection Hx as <-.
  unfold file_byte. apply byte_at_ok, (rep_cur_ok _ _ _ _ HR).
  pose proof (Z.mul_div_le (Z.of_nat k) BSIZE ltac:(done)). pose proof (wr_size _ _ _ _ _ Hw).
  destruct (wr_mapped _ _ _ _ _ Hw (Z.of_nat k / BSIZE)) as [Hm _]; [|apply (bm_addr _ _ _ _ Hm)].
  split; [apply Z.div_pos; [lia|done]|]. lia.
Qed.

(** Only the length of the file changes. *)
Lemma writable_size W di ib lim sz : writable g W di ib lim -> 0 <= sz <= lim -> writable g W (with_size sz di) ib lim.
Proof. intros [H1 H2 H3 H4 H5 H6] Hs. split; try done. intros bn Hb. by destruct (H4 bn Hb) as ([] & ? & ?). Qed.
Lemma summed_ok φ W di ib lim : Rep g φ W -> writable g W di ib lim -> dinode_ok di -> dinode_ok (summed (w_cur W) di).
Proof. intros HR Hw []. split; try done. by eapply checksum_range, file_bytes_ok. Qed.

(** After [iupdate], the inode on disk is the one in the cache and its checksum fits. *)
Lemma iupdate_effect φ W i ip lim : Rep g φ W -> writable g W (i_d ip) (IBLOCK (i_inum ip)) lim -> dinode_ok (i_d ip) ->
  IBLOCK (i_inum ip) < g_start g ->
  let cur' := w_cur (v_iupdate i ip W) in let di := summed (w_cur W) (i_d ip) in
  dinode_at cur' (i_inum ip) = di /\ file_content cur' di = file_content (w_cur W) (i_d ip) /\ intact cur' di = true.
Proof.
  intros HR Hw Hok Hib cur' di. destruct (dinode_off_range (i_inum ip)) as [Ho Ho'].
  destruct (rep_cur_ok _ _ _ (IBLOCK (i_inum ip)) HR Hib) as [Hl _].
  assert (file_content cur' di = file_content (w_cur W) (i_d ip)) as E.
  { change (file_content cur' di) with (file_content cur' (i_d ip)). apply (file_content_same _ _ _ lim); [apply Hw|].
    intros o Hol. exact (file_byte_ib W (i_d ip) _ lim _ o Hw Hol). }
  split; [|split; [done|]].
  - unfold dinode_at, cur'. cbn. rewrite fn_lookup_insert. apply get_put_inode; [by eapply summed_ok|done|].
    rewrite Hl. unfold BSIZE in *. lia.
  - unfold intact. rewrite E. apply Z.eqb_refl.
Qed.

(** The other inodes of the block. *)
Lemma iupdate_other φ W i ip lim inum : Rep g φ W -> writable g W (i_d ip) (IBLOCK (i_inum ip)) lim -> dinode_ok (i_d ip) ->
  IBLOCK (i_inum ip) < g_start g -> inum <> i_inum ip -> dinode_at (w_cur (v_iupdate i ip W)) inum = dinode_at (w_cur W) inum.
Proof.
  intros HR Hw Hok Hib Hne. destruct (dinode_off_range (i_inum ip)) as [Ho Ho']. destruct (dinode_off_range inum) as [Hi Hi'].
  destruct (rep_cur_ok _ _ _ (IBLOCK (i_inum ip)) HR Hib) as [Hl _].
  unfold dinode_at. cbn. destruct (decide (IBLOCK inum = IBLOCK (i_inum ip))) as [E|].
  - rewrite E, fn_lookup_insert. apply get_other_inode; [by eapply summed_ok|done|rewrite Hl; unfold BSIZE in *; lia|done|].
    unfold IBLOCK, dinode_off in *. assert (IPB = 8) as HI by done. rewrite HI in *.
    pose proof (Z.div_mod inum 8 ltac:(lia)). pose proof (Z.div_mod (i_inum ip) 8 ltac:(lia)). lia.
  - by rewrite fn_lookup_insert_ne.
Qed.
(** ** [writei] *)

(** Entry [i] of the cache is a file of the disk that can be written up to [lim]. *)
Record can_write W i ip lim : Prop := {
  cw_entry : w_ic W !! i = Some ip;
  cw_dev : i_dev ip = 1;
  cw_type : i_type ip <> T_DEV /\ i_type ip <> T_DITTO;
  cw_data : writable g W (i_d ip) (IBLOCK (i_inum ip)) lim;
  cw_inode : dinode_ok (i_d ip);
  cw_iblock : 2 <= IBLOCK (i_inum ip) < g_start g /\ IBLOCK (i_inum ip) ∉ w_secs W
}.

(** What [writei] leaves: the content with [l] at [off], a checksum that fits it,
    the same inode in the cache and on disk, and every other inode and block. *)
Record wrote W W' i ip lim off l : Prop := {
  wd_content : file_content (w_cur W') (dinode_at (w_cur W') (i_inum ip)) = splice (file_content (w_cur W) (i_d ip)) off l;
  wd_meta : exists c sz, dinode_at (w_cur W') (i_inum ip) = with_checksum c (with_size sz (i_d ip));
  wd_intact : intact (w_cur W') (dinode_at (w_cur W') (i_inum ip)) = true;
  wd_cache : w_ic W' = <[i := upd_d (fun _ => dinode_at (w_cur W') (i_inum ip)) ip]> (w_ic W);
  wd_inodes : forall inum, inum <> i_inum ip -> (forall bn, in_lim lim bn -> IBLOCK inum <> addr_of (w_cur W) (i_d ip) bn) ->
    dinode_at (w_cur W') inum = dinode_at (w_cur W) inum;
  wd_frame : forall s, s <> IBLOCK (i_inum ip) -> (forall bn, in_lim lim bn -> s <> addr_of (w_cur W) (i_d ip) bn) ->
    w_cur W' s = w_cur W s;
  wd_held : w_held W' = w_held W /\ w_T W' = w_T W;
  wd_log : let k := touched off (Z.of_nat (length l)) + 1 in
    Z.of_nat (size (w_pins W')) <= Z.of_nat (size (w_pins W)) + k /\ Z.of_nat (wroom W) <= Z.of_nat (wroom W') + k;
  wd_again : can_write W' i (upd_d (fun _ => dinode_at (w_cur W') (i_inum ip)) ip) lim
}.

Lemma iupdate_log W i ip : (size (w_pins (v_iupdate i ip W)) <= size (w_pins W) + 1 /\ wroom W <= wroom (v_iupdate i ip W) + 1)%nat.
Proof. split; [apply (size_pins_put _ _ (v_ic _ W))|apply (wroom_put _ _ (v_ic _ W))]. Qed.

(** The end of [writei_ext]: the new length, then [iupdate]. *)
Lemma wrote_intro φ1 W W1 i ip lim off l : Rep g φ1 W1 -> can_write W i ip lim -> after_write W W1 (touched off (Z.of_nat (length l))) ->
  written (w_cur W) (w_cur W1) (i_d ip) lim off l -> 0 <= off <= i_size ip -> off + Z.of_nat (length l) <= lim ->
  let ip1 := upd_d (with_size (Z.max (i_size ip) (off + Z.of_nat (length l)))) ip in
  let W2 := v_ic (insert i ip1) W1 in
  writable g W2 (i_d ip1) (IBLOCK (i_inum ip)) lim /\ wrote W (v_iupdate i ip1 W2) i ip lim off l.
Proof.
  intros HR [Hip Hdev Hty Hw Hok Hib] [Hic Hh HT Hp Hr] Hwr Ho Hl ip1 W2.
  pose proof (wr_size _ _ _ _ _ Hw) as Hsz. pose proof (wr_lim _ _ _ _ _ Hw) as Hlim. change (di_size (i_d ip)) with (i_size ip) in Hsz.
  assert (MAXFILE * BSIZE = 70656) as HM by done.
  assert (writable g W2 (i_d ip1) (IBLOCK (i_inum ip)) lim) as Hw2.
  { apply writable_size; [|lia]. eapply writable_same; [done|done|]. intros Hi. apply (wt_frame _ _ _ _ _ _ Hwr).
    intros bn Hb. apply not_eq_sym, (wr_ind _ _ _ _ _ Hw bn Hb Hi). }
  split; [done|].
  assert (Rep g (set_icache (w_ic W2) φ1) W2) as HR2.
  { destruct HR as [? ? ? ? E ?]. by split. }
  assert (dinode_ok (i_d ip1)) as Hok1 by (destruct Hok; split; try done; cbn; lia).
  destruct (iupdate_effect _ W2 i ip1 lim HR2) as (E1 & E2 & E3); [done|done|apply Hib|].
  change (i_inum ip1) with (i_inum ip) in *. split.
  - rewrite E1, E2. exact (content_written (w_cur W) (w_cur W1) (i_d ip) lim off l Hwr Ho (proj2 Hsz) Hl).
  - rewrite E1. by do 2 eexists.
  - by rewrite E1.
  - rewrite E1. cbn. by rewrite list_insert_insert_eq, Hic.
  - intros inum Hn Hb. rewrite (iupdate_other _ W2 i ip1 lim inum HR2); [|done|done|apply Hib|done].
    unfold dinode_at. f_equal. by apply (wt_frame _ _ _ _ _ _ Hwr).
  - intros s Hn Hb. cbn. rewrite fn_lookup_insert_ne by done. by apply (wt_frame _ _ _ _ _ _ Hwr).
  - by cbn.
  - destruct (iupdate_log W2 i ip1) as [P1 P2]. change (wroom W2) with (wroom W1) in P2. change (w_pins W2) with (w_pins W1) in P1.
    cbv zeta. lia.
  - rewrite E1. split; [|done|done| |by eapply summed_ok|by unfold w_secs in *; cbn; rewrite Hh].
    + cbn. rewrite list_insert_insert_eq. apply list_lookup_insert_eq. apply lookup_lt_Some in Hip. by rewrite Hic.
    + destruct (writable_same g W2 (v_iupdate i ip1 W2) (i_d ip1) (IBLOCK (i_inum ip)) lim Hw2) as [? ? ? D ? ?]; [done| |].
      * intros Hi. apply fn_lookup_insert_ne, not_eq_sym, (wr_ind _ _ _ _ _ Hw2 0); [split; [done|]; change (NDIRECT * BSIZE) with 5120 in Hi; change (0 * BSIZE) with 0; lia|done].
      * split; try done. intros bn Hb. by destruct (D bn Hb) as ([] & ? & ?).
Qed.
(** The conditional update of the length, as one update. *)
Lemma new_size φ W i ip off n (Q : unit -> fs -> Prop) : Rep g φ W -> w_ic W !! i = Some ip -> 0 <= n -> off <= i_size ip ->
  (forall φ', Rep g φ' (v_ic (insert i (upd_d (with_size (Z.max (i_size ip) (off + n))) ip)) W) -> Q tt φ') ->
  wp (if (0 <? n) && (i_size ip <? off + n) then updi (Some i) (upd_d (with_size (off + n))) else ret tt) Q φ.
Proof.
  intros HR Hip Hn Ho HQ. destruct (Z.ltb_spec (i_size ip) (off + n)).
  - rewrite Z.max_r in HQ by lia. rewrite (proj2 (Z.ltb_lt 0 n)) by lia. by eapply r_updi.
  - rewrite Z.max_l in HQ by lia. rewrite andb_false_r. apply wp_ret, HQ. apply (Rep_ext _ W); try done.
    cbn. apply list_insert_id. rewrite Hip. f_equal. destruct ip as [d u r f di]. by destruct di.
Qed.

Lemma no_children φ W i ip skip wr (Q : unit -> fs -> Prop) : Rep g φ W -> w_ic W !! i = Some ip ->
  skip = true \/ i_child1 ip = 0 /\ i_child2 ip = 0 -> Q tt φ ->
  wp (if skip then ret tt
      else let! ip := geti (Some i) in write_child devsw wr (i_dev ip) (i_child1 ip);;;
           let! ip := geti (Some i) in write_child devsw wr (i_dev ip) (i_child2 ip)) Q φ.
Proof.
  intros HR Hip Hsk HQ. destruct skip; [by apply wp_ret|]. destruct Hsk as [?|[C1 C2]]; [done|].
  rewrite wp_bind. eapply r_geti; [done|done|]. rewrite C1, wp_bind. apply wp_ret.
  rewrite wp_bind. eapply r_geti; [done|done|]. rewrite C2. by apply wp_ret.
Qed.

Lemma touched_fuel off n : 0 <= n -> touched off n < Z.of_nat (loop_bound n).
Proof.
  intros Hn. unfold touched, loop_bound. destruct (Z.leb_spec n 0).
  - assert (0 <= n / BSIZE) by (apply Z.div_pos; done). lia.
  - assert (BSIZE = 512) as -> by done. pose proof (Z.mod_pos_bound off 512 ltac:(lia)).
    assert ((off `mod` 512 + n + 511) / 512 <= (n + 2 * 512) / 512) by (apply Z.div_le_mono; lia).
    rewrite Z.div_add in * by lia. assert (0 <= n / 512) by (apply Z.div_pos; lia). lia.
Qed.

(** The whole of [writei_ext] on a file whose blocks are allocated; its dittos, if
    it has any, are left to the caller. *)
Lemma writei_spec φ W i ip lim src off n skip :
  Rep g φ W -> can_write W i ip lim -> skip = true \/ i_child1 ip = 0 /\ i_child2 ip = 0 -> g_busy g = true ->
  0 <= off <= i_size ip -> 0 <= n -> off + n <= lim -> n <= Z.of_nat (length src) -> Forall is_byte src ->
  Z.of_nat (size (w_pins W)) + touched off n + 1 < g_nlog g -> touched off n + 1 < Z.of_nat (wroom W) ->
  wp (writei_ext devsw (Some i) src off n skip) (fun r φ' => r = n /\ exists W', Rep g φ' W' /\
    wrote W W' i ip lim off (take (Z.to_nat n) src)) φ.
Proof.
  intros HR Hcw Hsk Hb Ho Hn Hl Hs Hby Hp Hr. pose proof Hcw as [Hip Hdev [Ht1 Ht2] Hw Hok [Hib Hfr]].
  assert (off + n <= 70656) as Hmax by (pose proof (wr_lim _ _ _ _ _ Hw) as X; change (MAXFILE * BSIZE) with 70656 in X; lia).
  assert (Z.of_nat (length (take (Z.to_nat n) src)) = n) as Hlen by (rewrite length_take; lia).
  pose proof (touched_fuel off n Hn). unfold writei_ext. generalize (Z.to_nat NINODE) as fuel. intros fuel. cbn [writei_rec].
  rewrite wp_bind. eapply r_geti; [done|done|]. rewrite (proj2 (Z.eqb_neq (i_type ip) T_DEV)) by done.
  rewrite !u32_small by lia. change (MAXFILE * BSIZE) with 70656.
  rewrite (proj2 (Z.ltb_ge (i_size ip) off)), (proj2 (Z.ltb_ge (off + n) off)), (proj2 (Z.ltb_ge 70656 _)), (proj2 (Z.ltb_ge (Z.of_nat _) n)) by lia.
  cbn [orb]. rewrite wp_bind. eapply writei_loop_spec; try done; try lia; try (rewrite Z.sub_0_r; lia). rewrite Z.sub_0_r.
  intros φ1 W1 HR1 Haw Hwr. rewrite <- Hlen in Haw at 1.
  replace (slice src 0 n) with (take (Z.to_nat n) src) in Hwr by done.
  destruct (wrote_intro φ1 W W1 i ip lim off _ HR1 Hcw Haw Hwr Ho ltac:(lia)) as [Hw2 Hdone]. rewrite Hlen in *.
  assert (w_ic W1 !! i = Some ip) as Hip1 by (rewrite (aw_ic _ _ _ Haw); done).
  rewrite wp_bind. eapply no_children; [done|done|done|].
  rewrite wp_bind. eapply r_geti; [done|done|]. rewrite (proj2 (Z.eqb_neq (i_type ip) T_DITTO)) by done.
  rewrite wp_bind. eapply new_size; [done|done|done|lia|]. intros φ2 HR2.
  set (ip1 := upd_d _ ip) in *. assert (w_ic (v_ic (insert i ip1) W1) !! i = Some ip1) as Hip2.
  { apply list_lookup_insert_eq. by apply lookup_lt_Some in Hip1. }
  rewrite wp_bind. eapply r_geti; [done|done|]. change (i_type ip1) with (i_type ip).
  rewrite (proj2 (Z.eqb_neq (i_type ip) T_DEV)) by done. cbn [negb]. rewrite wp_bind.
  destruct Haw as [_ Hh _ Hp1 Hr1].
  eapply iupdate_spec; [done|done|done|done|done|done| |done| | | |done|].
  - unfold w_secs in *. cbn. by rewrite Hh.
  - cbn. lia.
  - change (1 < wroom W1)%nat. lia.
  - apply (do_addrs _ Hok).
  - intros φ3 HR3. apply wp_ret. rewrite s32_small by lia. eauto.
Qed.
End write.
