(* ===== verification/FsTxn.v ===== *)
(** Transactions of the file system: code of fs.c between [begin_trans] and
    [commit_trans], and what a crash leaves of a file being written. *)
From S2P Require Import Prelude Bio Cache Log LogSpec Trans Txn Str Fs FsView Alloc Content Verify FsImage Write.

(** What the file system is when no transaction is open. *)
Definition quiet_view (A : cache) (φ : fs) : fview := FView (cur A) ∅ ∅ ∅ (f_icache φ) (f_cwd φ).
Definition quiet_geom (A : cache) (φ : fs) : geometry := Geometry (l_start (f_log φ)) (l_size (f_log φ)) true A.

Section transaction.
Context (φ : fs) (A : cache) (Hidle : idle (f_log φ) A).
Let g := quiet_geom A φ.
Let W := quiet_view A φ.

Lemma begin_Rep : LS (set_busy true (f_log φ)) A ∅ -> Rep g (set_log (set_busy true (f_log φ)) φ) W.
Proof.
  intros H. split; try done. exists A. split; [done|]. split; [apply Hidle|]. split_and!; try done.
  - rewrite (ls_pins _ _ _ H). unfold slots. cbn. by rewrite (idle_n _ _ Hidle).
  - split; [done|]. exists []. by rewrite app_nil_r.
Qed.

End transaction.

(** A part of [n] bytes that is processed [chunk] bytes at a time. *)
Definition whole_chunks (chunk n m : Z) : Prop := 0 <= m <= n /\ (m = n \/ (chunk | m)).

(** A machine that boots from [d] and performs the writes [new] from an idle log to
    an idle log. *)
Section boot.
Context (d : gmap Z block) (size start nlog : Z) (ss : list Z) (κ0 κ' : lst) (A' : cache) (new : list (Z * block)) (A0 := recovered (disk_of d) size start ss).
Hypotheses (Hld : log_disk (disk_of d) size start nlog ss) (E0 : initlog (boot d size) = Ret tt κ0).
Hypotheses (Hi : idle κ' A') (Hst : step κ0 A0 κ' A' new).

Lemma boot_writes : writes (l_bio κ') = wrs A0 ++ new.
Proof. rewrite (R_wrs _ _ (ls_R _ _ _ (idle_LS _ _ Hi))). apply Hst. Qed.

Lemma boot_dur l s : apply_writes (wrs A0 ++ l) (disk_of d) s = apply_writes l (dur A0) s.
Proof.
  destruct (idle_init _ _ _ _ _ Hld) as (κ & _ & _ & _ & _ & _ & _ & _ & Hd0). fold A0 in Hd0.
  rewrite apply_writes_app. apply apply_writes_ext. intros x. symmetry. apply Hd0.
Qed.

(** A crash after [j] of the writes [new]. *)
Lemma boot_crash_at j c : recovers (csize A0) start (apply_writes (take j new) (dur A0)) c ->
  exists κr, initlog (boot (crash_disk d (take (length (wrs A0) + j) (writes (l_bio κ')))) size) = Ret tt κr /\
    (forall s, 0 <= s < start -> dsk (l_bio κr) s = c s).
Proof.
  intros Hr. destruct (idle_init _ _ _ _ _ Hld) as (κ & _ & _ & _ & _ & Hsz & _). fold A0 in Hsz. rewrite Hsz in Hr. apply Hr.
  intros s. rewrite crash_disk_of, boot_writes, take_app_add. apply boot_dur.
Qed.

(** If what recovery restored satisfies [P], and so does what a crash in [new]
    recovers, then so does what a crash anywhere recovers. *)
Lemma boot_crash_any (P : (Z -> block) -> Prop) : P (apply_writes (replay start ss (disk_of d)) (disk_of d)) ->
  (forall j, exists c, recovers (csize A0) start (apply_writes (take j new) (dur A0)) c /\ P c) ->
  forall k, exists κr c, initlog (boot (crash_disk d (take k (writes (l_bio κ')))) size) = Ret tt κr /\
    (forall s, 0 <= s < start -> dsk (l_bio κr) s = c s) /\ P c.
Proof.
  intros HP Hr k. destruct (idle_init _ _ _ _ _ Hld) as (κ & _ & _ & _ & _ & _ & Hw0 & _). fold A0 in Hw0.
  set (rec := apply_writes (replay _ _ _) _) in *. destruct (decide (length (wrs A0) <= k)%nat) as [Hk|Hk].
  - destruct (Hr (k - length (wrs A0))%nat) as (c & H & Hc). destruct (boot_crash_at _ c H) as (κr & Er & Hs). exists κr, c.
    replace (length (wrs A0) + (k - length (wrs A0)))%nat with k in Er by lia. done.
  - rewrite boot_writes, take_app_le by lia. destruct (init_crash _ _ _ _ _ k Hld (crash_disk d (take k (wrs A0)))) as (κr & Er & Hs).
    + intros s. rewrite crash_disk_of. by rewrite Hw0.
    + by exists κr, rec.
Qed.

(** Once all the writes are done it is [cur A']. *)
Lemma boot_crash (P : (Z -> block) -> Prop) : P (apply_writes (replay start ss (disk_of d)) (disk_of d)) ->
  (forall j, exists c, recovers (csize A0) start (apply_writes (take j new) (dur A0)) c /\ P c) ->
  forall k, exists κr c, initlog (boot (crash_disk d (take k (writes (l_bio κ')))) size) = Ret tt κr /\
    (forall s, 0 <= s < start -> dsk (l_bio κr) s = c s) /\ (P c /\ (k < length (writes (l_bio κ')))%nat \/ c = cur A').
Proof.
  intros HP Hr k. destruct (decide (k < length (writes (l_bio κ')))%nat) as [Hk|Hk].
  { destruct (boot_crash_any P HP Hr k) as (κr & c & Er & Hs & Hc). exists κr, c. split_and!; [done|done|by left]. }
  destruct (idle_init _ _ _ _ _ Hld) as (κ & E & _ & Es & _). assert (κ = κ0) as -> by congruence.
  rewrite boot_writes, length_app in Hk. destruct (boot_crash_at (k - length (wrs A0)) (cur A')) as (κr & Er & Hs).
  { rewrite take_ge by lia. rewrite <- Es. exact (recovers_done _ _ _ _ _ Hi Hst). }
  exists κr, (cur A'). replace (length (wrs A0) + (k - length (wrs A0)))%nat with k in Er by lia. split_and!; [done|done|by right].
Qed.
End boot.

(** Contents that agree below the log hold the same files. *)
Lemma content_agree g W di cur' : readable g W di -> (forall s, 0 <= s < g_start g -> cur' s = w_cur W s) ->
  file_content cur' di = file_content (w_cur W) di.
Proof.
  intros Hr Hc. apply (file_content_same _ _ _ (di_size di)); [done|]. intros o Ho. unfold file_byte.
  destruct (rd_blocks _ _ _ Hr (o / BSIZE)) as [? ? Ha _ Hi].
  { apply Z.div_pos; [lia|done]. }
  { pose proof (Z.mul_div_le o BSIZE ltac:(done)). lia. }
  assert (addr_of cur' di (o / BSIZE) = addr_of (w_cur W) di (o / BSIZE)) as ->; [|by rewrite Hc].
  unfold addr_of. destruct (Z.ltb_spec (o / BSIZE) NDIRECT); [done|]. rewrite Hc; [done|]. destruct (Hi ltac:(done)). lia.
Qed.

Lemma inode_agree g W ip cur' : 0 <= IBLOCK (i_inum ip) < g_start g -> (forall s, 0 <= s < g_start g -> cur' s = w_cur W s) ->
  dinode_at cur' (i_inum ip) = dinode_at (w_cur W) (i_inum ip).
Proof. intros Hi Hc. unfold dinode_at. by rewrite Hc. Qed.

(** ** Cached inodes *)

Lemma relock f : flag f I_BUSY = false -> flag_clr (flag_set f I_BUSY) I_BUSY = f.
Proof.
  change I_BUSY with (2 ^ 0). rewrite flag_testbit by lia. intros H. unfold flag_clr, flag_set. apply Z.bits_inj'. intros k Hk.
  rewrite Z.land_spec, Z.lor_spec, Z.lnot_spec, Z.pow2_bits_eqb by lia.
  destruct (Z.eqb_spec 0 k) as [<-|]; [by rewrite H|]. by rewrite orb_false_r, andb_true_r.
Qed.

Section cached.
Context (devsw : Z -> devsw_t).

(** [ilock] and [iunlock] on an entry that is valid. *)
Lemma ilock_ready φ i ip check (Q : Z -> fs -> Prop) : f_icache φ !! i = Some ip ->
  flag (i_flags ip) I_VALID = true -> flag (i_flags ip) I_BUSY = false -> 1 <= i_ref ip ->
  Q 0 (set_icache (<[i := upd_flags (fun f => flag_set f I_BUSY) ip]> (f_icache φ)) φ) ->
  wp (ilock_ext devsw (Some i) check) Q φ.
Proof.
  intros Hip Hv Hb Hr HQ. unfold ilock_ext. generalize (Z.to_nat NINODE) as fuel. intros fuel. cbn [ilock_rec].
  unfold updi, geti. rewrite !wp_bind. apply wp_get. rewrite Hip. apply wp_ret.
  rewrite (proj2 (Z.ltb_ge (i_ref ip) 1)) by done. rewrite Hb, !wp_bind. apply wp_get. rewrite Hip. apply wp_ret, wp_modify.
  rewrite Hv. by apply wp_ret.
Qed.

Lemma iunlock_locked φ i ip (Q : unit -> fs -> Prop) : f_icache φ !! i = Some ip -> flag (i_flags ip) I_BUSY = true -> 1 <= i_ref ip ->
  Q tt (set_icache (<[i := upd_flags (fun f => flag_clr f I_BUSY) ip]> (f_icache φ)) φ) -> wp (iunlock (Some i)) Q φ.
Proof.
  intros Hip Hb Hr HQ. unfold iunlock, updi, geti. rewrite !wp_bind. apply wp_get. rewrite Hip. apply wp_ret.
  rewrite Hb, (proj2 (Z.ltb_ge (i_ref ip) 1)) by done. cbn [negb orb]. rewrite !wp_bind. apply wp_get. rewrite Hip. by apply wp_ret, wp_modify.
Qed.

Lemma ilock_cached g φ W i ip check (Q : Z -> fs -> Prop) : Rep g φ W -> w_ic W !! i = Some ip ->
  flag (i_flags ip) I_VALID = true -> flag (i_flags ip) I_BUSY = false -> 1 <= i_ref ip ->
  (forall φ', Rep g φ' (v_ic (insert i (upd_flags (fun f => flag_set f I_BUSY) ip)) W) -> Q 0 φ') ->
  wp (ilock_ext devsw (Some i) check) Q φ.
Proof.
  intros HR Hip Hv Hb Hr HQ. pose proof (rep_ic _ _ _ HR) as E. eapply ilock_ready; [by rewrite E|done..|]. apply HQ.
  destruct HR. split; try done. cbn. by rewrite E.
Qed.

(** The flags of the entry do not matter to [writei]. *)
Lemma can_write_flags g W i ip f lim : can_write g W i ip lim ->
  can_write g (v_ic (insert i (upd_flags f ip)) W) i (upd_flags f ip) lim.
Proof.
  intros [H1 H2 H3 H4 H5 H6]. split; try done.
  - apply list_lookup_insert_eq. by apply lookup_lt_Some in H1.
  - by eapply writable_same.
Qed.

(** Views with the same blocks below the log and no buffer held. *)
Lemma can_write_agree g g' W W' i ip ip' lim : can_write g W i ip lim -> g_start g' = g_start g -> w_held W' = w_held W ->
  (forall s, s < g_start g -> w_cur W' s = w_cur W s) -> w_ic W' !! i = Some ip' -> i_dev ip' = i_dev ip ->
  i_inum ip' = i_inum ip -> i_d ip' = i_d ip -> can_write g' W' i ip' lim.
Proof.
  intros [H1 H2 H3 H4 H5 H6] Hg Hh Hc Hi Ed En E.
  split; rewrite ?E, ?En, ?Ed, ?Hg; unfold i_type in *; rewrite ?E; try done.
  - destruct (writable_same g W W' (i_d ip) (IBLOCK (i_inum ip)) lim H4 Hh) as [A B C D F G].
    { intros Hl. apply Hc. destruct (wr_mapped _ _ _ _ _ H4 NDIRECT) as [Hm _]; [split; [done|done]|].
      apply (bm_ind _ _ _ _ Hm). done. }
    split; try done. intros bn Hb. destruct (D bn Hb) as ([? ? ? ? ?] & ? & ?). split; [|done]. split; rewrite ?Hg; done.
  - unfold w_secs in *. by rewrite Hh.
Qed.
End cached.

(** ** Theorems *)

(** C8. [writei] on one file, without writing to dittos (the file has none, or
    [skip] asks for the inode alone), whose blocks up to [lim] are allocated, at
    an offset inside the file and with an end up to [lim], in a transaction with
    room for the blocks touched and the inode: it returns the number of bytes; the
    file then holds the bytes at [off] and is longer if they end past its end; the
    inode in the cache is the one on disk and its checksum fits the content; no
    other inode and no other block changes, and the file can be written again. *)
Theorem writei_correct g devsw φ W i ip lim src off n skip :
  Rep g φ W -> can_write g W i ip lim -> skip = true \/ i_child1 ip = 0 /\ i_child2 ip = 0 -> g_busy g = true ->
  0 <= off <= i_size ip -> 0 <= n -> off + n <= lim -> n <= Z.of_nat (length src) -> Forall is_byte src ->
  Z.of_nat (size (w_pins W)) + touched off n + 1 < g_nlog g -> touched off n + 1 < Z.of_nat (wroom W) ->
  exists φ' W', writei_ext devsw (Some i) src off n skip φ = Ret n φ' /\ Rep g φ' W' /\
    wrote g W W' i ip lim off (take (Z.to_nat n) src).
Proof.
  intros HR Hcw Hsk Hb Ho Hn Hl Hs Hby Hp Hr.
  pose proof (writei_spec g devsw φ W i ip lim src off n skip HR Hcw Hsk Hb Ho Hn Hl Hs Hby Hp Hr) as (r & φ' & E & -> & W' & H)%wp_Ret.
  by exists φ', W'.
Qed.

(** ** A small disk

    The image with a file that has no ditto. *)
Definition plain_file : dinode := img_file (checksum hello) T_FILE 1 6 0.
Definition plain_image : gmap Z block := <[2 := put_dinode 2 plain_file zblock]> (image hello).
Definition plain_inode : inode := Inode 1 2 1 (Z.lor I_BUSY I_VALID) plain_file.

Lemma plain_disk s : s <> 2 -> disk_of plain_image s = disk_of (image hello) s.
Proof. intros Hs. unfold disk_of, plain_image. by rewrite lookup_insert_ne. Qed.

Lemma plain_log : log_disk (disk_of plain_image) 19 13 6 [].
Proof.
  assert (log_disk (disk_of (image hello)) 19 13 6 []) as [H1 H2 H3 H4 H5 H6 H7] by (by apply image_log; [|by_evaluation]).
  split; rewrite ?(plain_disk 1), ?(plain_disk 13) by done; try done.
  intros s. destruct (decide (s = 2)) as [->|]; [|by rewrite plain_disk].
  unfold disk_of, plain_image. rewrite lookup_insert_eq. by_evaluation.
Qed.

Lemma img_writable g W ty nl ch : g_start g = 13 -> w_held W = ∅ ->
  writable g W (img_file (checksum hello) ty nl 6 ch) 2 512.
Proof.
  intros Hg Hh. assert (forall bn, in_lim 512 bn -> bn = 0) as H0.
  { intros bn [? H]. unfold BSIZE in H. lia. }
  assert (w_secs W = ∅) as Hs by (unfold w_secs; rewrite Hh; apply map_img_empty_L).
  split; try done.
  - intros bn ->%H0. split; [|done]. by split; rewrite ?Hg, ?Hs.
  - intros bn bn' ->%H0 ->%H0. done.
Qed.

Lemma plain_can_write g W : g_start g = 13 -> w_held W = ∅ -> w_ic W = [plain_inode] -> can_write g W 0 plain_inode 512.
Proof.
  intros Hg Hh Hi. split; try done.
  - by rewrite Hi.
  - by apply img_writable.
  - split; try done. split; [done|]. repeat constructor; done.
  - unfold w_secs. rewrite Hg, Hh, map_img_empty_L. split; [done|set_solver].
Qed.

Lemma writei_correct_witness : exists κ φ', initlog (boot plain_image 19) = Ret tt κ /\
  writei_ext no_devsw (Some 0%nat) [112; 105; 110; 103] 3 4 false (Fs (set_busy true κ) [plain_inode] None) = Ret 4 φ'.
Proof.
  destruct (boot_Rep plain_image 19 13 6 [] [plain_inode] None true plain_log) as (κ & E & HR).
  destruct (writei_correct _ no_devsw _ _ 0 plain_inode 512 [112; 105; 110; 103] 3 4 false HR) as (φ' & W' & H & _);
    [by apply plain_can_write|by right|done|done|done|done|done|by_evaluation|by vm_compute|rewrite boot_wroom; by vm_compute|].
  exists κ, φ'. exact (conj E H).
Defined.

(** ** Inodes on disk and in memory *)

(** C9. Inodes are well typed: whatever a block of inodes holds, what [ilock] loads
    from it has fields within their C types, and storing it back as [iupdate]
    does changes no byte. An inode with such fields is stored as a block of bytes
    from which exactly it is loaded again, and every other inode of the block
    reads as before. *)
Theorem inodes_typed (d : block) (inum : Z) : block_ok d -> let o := dinode_off inum in
  dinode_ok (get_dinode d o) /\ put_tail o (get_dinode d o) (put_head o (get_dinode d o) d) = d /\
  forall di, dinode_ok di -> let d' := put_tail o di (put_head o di d) in
    block_ok d' /\ get_dinode d' o = di /\ forall j, dinode_off j <> o -> get_dinode d' (dinode_off j) = get_dinode d (dinode_off j).
Proof.
  intros Hd o. pose proof Hd as [Hl Hb]. change (Z.to_nat BSIZE) with 512%nat in Hl.
  assert (forall j, 0 <= dinode_off j <= 448 /\ (64 | dinode_off j)) as Hr.
  { intros j. unfold dinode_off, IPB. change (BSIZE / 64) with 8. pose proof (Z.mod_pos_bound j 8). split; [lia|]. exists (j `mod` 8). lia. }
  pose proof (Hr inum) as [Ho Hal]. fold o in Ho, Hal.
  split_and!; [by apply get_dinode_ok|by apply put_get_inode; [done|lia|lia]|].
  intros di Hdi. cbv zeta. fold (put_inode o di d). split_and!.
  - apply put_tail_ok; [apply put_head_ok; [done|lia|unfold BSIZE; lia]|apply Hdi|lia|unfold BSIZE; lia].
  - apply get_put_inode; [done|lia|lia].
  - intros j Hj. pose proof (Hr j) as [Hoj Halj]. apply get_other_inode; [done|lia|lia|lia|].
    destruct Hal as [a ->], Halj as [b Eb]. rewrite Eb in *. lia.
Qed.

Lemma inodes_typed_witness : block_ok (disk_of plain_image 2) /\ dinode_ok (get_dinode (disk_of plain_image 2) (dinode_off 2)).
Proof. assert (block_ok (disk_of plain_image 2)) as H by (apply (ld_ok _ _ _ _ _ plain_log)). split; [exact H|]. apply (inodes_typed _ 2 H). Defined.
