(* ===== verification/Mkfs.v ===== *)
(** mkfs.c: the host program that writes the initial file system image.

    The state is the image file (its sectors and its length, in sectors) and the
    three global counters. [exit(1)] and a failed [assert] end the program: they
    are [Panic]. The files named on the command line are given with their
    contents, [None] for one that cannot be opened. *)
From S2P Require Import Prelude Bio Cache Log LogSpec Trans Str Fs FsView Alloc Content Verify Write.

Definition nblocks : Z := 1999.
Definition nlog : Z := LOGSIZE.
Definition ninodes : Z := 200.
Definition fssize : Z := 2048.

Record mst := Mst { m_img : gmap Z block; m_len : Z; m_freeblock : Z; m_usedblocks : Z; m_freeinode : Z }.

Definition mkfs_start : mst := Mst ∅ 0 0 0 1.

(** The value whose bytes in memory are stored one by one, on a little-endian host. *)
Definition xshort (x : Z) : Z := le_dec [u8 x; u8 (Z.shiftr x 8)].
Definition xint (x : Z) : Z := le_dec [u8 x; u8 (Z.shiftr x 8); u8 (Z.shiftr x 16); u8 (Z.shiftr x 24)].

Definition assert (c : bool) : K mst unit := if c then ret tt else panic "assert".

(** Writing past the end of the image extends it; reading past its end fails. *)
Definition wsect (sec : Z) (buf : block) : K mst unit :=
  modify (fun s => Mst (<[sec := buf]> (m_img s)) (Z.max (m_len s) (sec + 1)) (m_freeblock s) (m_usedblocks s) (m_freeinode s)).
Definition rsect (sec : Z) : K mst block :=
  let! s := get in if sec <? m_len s then ret (disk_of (m_img s) sec) else panic "read".

Definition i2b (inum : Z) : Z := inum / IPB + 2.

Definition winode (inum : Z) (din : dinode) : K mst unit :=
  let! buf := rsect (i2b inum) in
  wsect (i2b inum) (put_inode (dinode_off inum) din buf).
Definition rinode (inum : Z) : K mst dinode :=
  let! buf := rsect (i2b inum) in
  ret (get_dinode buf (dinode_off inum)).

(** [freeblock++] together with [usedblocks++], and [freeinode++]. *)
Definition new_block : K mst Z :=
  let! s := get in
  put (Mst (m_img s) (m_len s) (u32 (m_freeblock s + 1)) (u32 (m_usedblocks s + 1)) (m_freeinode s));;;
  ret (m_freeblock s).
Definition new_inum : K mst Z :=
  let! s := get in
  put (Mst (m_img s) (m_len s) (m_freeblock s) (m_usedblocks s) (u32 (m_freeinode s + 1)));;;
  ret (m_freeinode s).

Definition ialloc (type : Z) : K mst Z :=
  let! inum := new_inum in
  let din := with_size (xint 0) (with_nlink (s16 (xshort 1)) (with_type (s16 (xshort type)) no_dinode)) in
  winode inum din;;;
  ret inum.

(** The bitmap: bits [0 .. used-1]. *)
Definition set_bit (i : Z) (buf : block) : block :=
  <[Z.to_nat (i / 8) := u8 (Z.lor (byte_at buf (i / 8)) (Z.shiftl 1 (i `mod` 8)))]> buf.
Definition balloc (used : Z) : K mst unit :=
  assert (used <? 512 * 8);;;
  wsect (ninodes / IPB + 3) (foldl (fun buf i => set_bit i buf) zblock (zrange 0 used)).

(** The entry of the indirect block for block [fbn], filled in when it is empty. *)
Definition indirect_entry (ind fbn : Z) : K mst Z :=
  let! indirect := rsect ind in
  let! indirect := (if get32 indirect (4 * (fbn - NDIRECT)) =? 0
                    then let! b := new_block in
                         let indirect := put32 indirect (4 * (fbn - NDIRECT)) (xint b) in
                         wsect ind indirect;;;
                         ret indirect
                    else ret indirect) in
  ret (xint (get32 indirect (4 * (fbn - NDIRECT)))).

(** The block of the file that holds block [fbn], allocated when there is none. *)
Definition map_block (din : dinode) (fbn : Z) : K mst (Z * dinode) :=
  let slot := if fbn <? NDIRECT then fbn else NDIRECT in
  let! din := (if xint (default 0 (di_addrs din !! Z.to_nat slot)) =? 0
               then let! b := new_block in ret (with_addr slot (xint b) din) else ret din) in
  let a := xint (default 0 (di_addrs din !! Z.to_nat slot)) in
  if fbn <? NDIRECT then ret (a, din)
  else let! x := indirect_entry a fbn in ret (x, din).

Fixpoint append_loop (fuel : nat) (din : dinode) (off : Z) (p : list Z) : K mst (dinode * Z) :=
  if 0 <? Z.of_nat (length p) then
    match fuel with
    | O => nofuel
    | S fuel' =>
      let fbn := off / 512 in
      assert (fbn <? MAXFILE);;;
      let! xd := map_block din fbn in
      let n1 := Z.min (Z.of_nat (length p)) (u32 ((fbn + 1) * 512 - off)) in
      let! buf := rsect xd.1 in
      wsect xd.1 (splice buf (off - fbn * 512) (take (Z.to_nat n1) p));;;
      append_loop fuel' xd.2 (u32 (off + n1)) (drop (Z.to_nat n1) p)
    end
  else ret (din, off).

(** [p] is the buffer [xp], as long as [n]. *)
Definition iappend (inum : Z) (p : list Z) : K mst unit :=
  let! din := rinode inum in
  let! do := append_loop (loop_bound (Z.of_nat (length p))) din (xint (di_size din)) p in
  winode inum (with_size (xint do.2) do.1).

Definition rblock (din : dinode) (bn : Z) : K mst block :=
  if bn <? NDIRECT then rsect (xint (default 0 (di_addrs din !! Z.to_nat bn)))
  else
    let bn := bn - NDIRECT in
    if bn <? NINDIRECT then
      let! indirect := rsect (xint (default 0 (di_addrs din !! Z.to_nat NDIRECT))) in
      rsect (xint (get32 indirect (4 * bn)))
    else undef "rblock: dst is not set".

Fixpoint read_loop (fuel : nat) (din : dinode) (off n tot : Z) (dst : list Z) : K mst (list Z) :=
  if tot <? n then
    match fuel with
    | O => nofuel
    | S fuel' =>
      let! data := rblock din (off / BSIZE) in
      let m := Z.min (n - tot) (BSIZE - off `mod` BSIZE) in
      read_loop fuel' din (u32 (off + m)) n (tot + m) (dst ++ slice data (off `mod` BSIZE) m)
    end
  else ret dst.

(** The result and the bytes stored at [dst]. *)
Definition readi (din : dinode) (off n : Z) : K mst (Z * list Z) :=
  if xint (di_type din) =? T_DEV then ret (-1, [])
  else if (xint (di_size din) <? off) || (u32 (off + n) <? off) then ret (-1, [])
  else
    let n := if xint (di_size din) <? u32 (off + n) then u32 (xint (di_size din) - off) else n in
    let! dst := read_loop (loop_bound n) din off n 0 [] in
    ret (s32 n, dst).

Fixpoint sum_loop (fuel : nat) (din : dinode) (off checksum : Z) : K mst Z :=
  match fuel with
  | O => nofuel
  | S fuel' =>
    let! rl := readi din off 2048 in
    let r := u32 rl.1 in
    if 0 <? r then sum_loop fuel' din (u32 (off + r)) (Z.lxor checksum (xor_words (fill 2048 rl.2) 512))
    else ret checksum
  end.
Definition ichecksum (din : dinode) : K mst Z := sum_loop (loop_bound (di_size din)) din 0 0.

Fixpoint copy_loop (fuel : nat) (src : dinode) (dst off : Z) : K mst unit :=
  match fuel with
  | O => nofuel
  | S fuel' =>
    let! rl := readi src off 512 in
    let r := u32 rl.1 in
    if 0 <? r then
      iappend dst (take (Z.to_nat r) (fill 512 rl.2));;;
      copy_loop fuel' src dst (u32 (off + r))
    else ret tt
  end.
Definition copy_dinode_content (src : dinode) (dst : Z) : K mst unit :=
  copy_loop (loop_bound (di_size src)) src dst 0.

(** [while((cc = read(fd, buf, sizeof(buf))) > 0)] of a file with contents [data]. *)
Fixpoint copy_file (fuel : nat) (inum : Z) (data : list Z) : K mst unit :=
  match fuel with
  | O => nofuel
  | S fuel' =>
    let buf := take 512 data in
    if 0 <? Z.of_nat (length buf) then
      iappend inum buf;;;
      copy_file fuel' inum (drop 512 data)
    else ret tt
  end.

(** One turn of the loop over [argv]. *)
Definition add_file (rootino : Z) (arg : list Z * option (list Z)) : K mst unit :=
  assert (match strchr arg.1 47 with None => true | Some _ => false end);;;
  match arg.2 with
  | None => panic "open"
  | Some data =>
    let name := if chr arg.1 =? 95 then tail arg.1 else arg.1 in
    let! inum := ialloc T_FILE in
    iappend rootino (mk_dirent (xshort inum) name);;;
    copy_file (loop_bound (Z.of_nat (length data))) inum data;;;
    let! din2 := rinode inum in
    let! _ := readi din2 0 BSIZE in
    let! checksum2 := ichecksum din2 in
    winode inum (with_checksum (xint checksum2) din2)
  end.

Definition with_children (c1 c2 : Z) (d : dinode) : dinode :=
  Dinode (di_type d) (di_major d) (di_minor d) (di_nlink d) (di_size d) (di_addrs d) c1 c2 (di_checksum d).

(** The super block, and the [size] of the image in zeroed sectors. *)
Definition format : K mst unit :=
  let bitblocks := fssize / (512 * 8) + 1 in
  let used := ninodes / IPB + 3 + bitblocks in
  modify (fun s => Mst (m_img s) (m_len s) used used (m_freeinode s));;;
  assert (nblocks + used + nlog =? fssize);;;
  forK (fun i => wsect i zblock) (zrange 0 (nblocks + used + nlog));;;
  let sb := le_enc 4 (xint fssize) ++ le_enc 4 (xint nblocks) ++ le_enc 4 (xint ninodes) ++ le_enc 4 (xint nlog) in
  wsect 1 (splice zblock 0 sb).

(** The size of the root directory is rounded up, and its checksum set. *)
Definition fix_root (rootino : Z) : K mst unit :=
  let! din := rinode rootino in
  let off := u32 ((xint (di_size din) / BSIZE + 1) * BSIZE) in
  let din := with_size (xint off) din in
  let! checksum := ichecksum din in
  winode rootino (with_checksum (xint checksum) din).

Definition fill_ditto (din : dinode) (inum : Z) : K mst unit :=
  copy_dinode_content din inum;;;
  let! ditto := rinode inum in
  winode inum (with_size (di_size din) (with_checksum (di_checksum din) ditto)).

Definition add_dittos (rootino : Z) : K mst unit :=
  let! din := rinode rootino in
  let! ditto_inum1 := ialloc T_DITTO in
  let! ditto_inum2 := ialloc T_DITTO in
  fill_ditto din ditto_inum1;;;
  fill_ditto din ditto_inum2;;;
  let! din := rinode rootino in
  winode rootino (with_children (s16 (xshort ditto_inum1)) (s16 (xshort ditto_inum2)) din).

Definition main (files : list (list Z * option (list Z))) : K mst unit :=
  format;;;
  let! rootino := ialloc T_DIR in
  assert (rootino =? ROOTINO);;;
  iappend rootino (mk_dirent (xshort rootino) (lit "."));;;
  iappend rootino (mk_dirent (xshort rootino) (lit ".."));;;
  forK (add_file rootino) files;;;
  fix_root rootino;;;
  add_dittos rootino;;;
  let! s := get in
  balloc (s32 (m_usedblocks s)).
