(* ===== verification/MkfsInv.v ===== *)
(** The image mkfs.c builds: which file owns which block, and how allocating and
    writing a block keeps the files apart. *)
From S2P Require Import Prelude Bio Cache Log LogSpec Trans Str Fs FsView Alloc Content Verify Write Mkfs.

(** ** Byte order and sectors *)

Lemma u8_mod z : u8 z = z `mod` 256.
Proof. done. Qed.

Lemma xint_id x : 0 <= x < 4294967296 -> xint x = x.
Proof.
  intros Hx. unfold xint. rewrite !Z.shiftr_div_pow2 by lia. unfold le_dec. rewrite !u8_mod.
  change (2 ^ 8) with 256. change (2 ^ 16) with 65536. change (2 ^ 24) with 16777216.
  pose proof (Z.div_mod x 256). pose proof (Z.div_mod (x / 256) 256). pose proof (Z.div_mod (x / 65536) 256).
  assert (x / 65536 = x / 256 / 256) by (rewrite Z.div_div; done || lia).
  assert (x / 16777216 = x / 65536 / 256) by (rewrite Z.div_div; done || lia).
  rewrite (Z.mod_small (x / 16777216)); [lia|]. split; [apply Z.div_pos; lia|]. apply Z.div_lt_upper_bound; lia.
Qed.

Lemma xshort_id x : 0 <= x < 65536 -> xshort x = x.
Proof.
  intros Hx. unfold xshort. rewrite !Z.shiftr_div_pow2 by lia. unfold le_dec. rewrite !u8_mod. change (2 ^ 8) with 256.
  pose proof (Z.div_mod x 256). rewrite (Z.mod_small (x / 256)); [lia|].
  split; [apply Z.div_pos; lia|]. apply Z.div_lt_upper_bound; lia.
Qed.

Lemma get32_zblock o : get32 zblock o = 0.
Proof.
  unfold get32, slice, zblock. rewrite drop_replicate, take_replicate.
  exact (le_dec_zeros [] _).
Qed.

Lemma disk_insert d x v y : disk_of (<[x := v]> d) y = if decide (y = x) then v else disk_of d y.
Proof. unfold disk_of. case_decide as E; [subst; by rewrite lookup_insert_eq|by rewrite lookup_insert_ne]. Qed.

(** ** The blocks of a file *)

(** [own] names the inode and the position in it that a block has been given to;
    position [MAXFILE] is the indirect block. *)
Notation owners := (gmap Z (Z * Z)).

Definition ind (di : dinode) : Z := default 0 (di_addrs di !! Z.to_nat NDIRECT).

(** The first [nb] blocks of the file are allocated, and the others are not;
    [ib] tells whether the indirect block is. *)
Record maps (cur : Z -> block) (own : owners) (inum : Z) (di : dinode) (nb : Z) (ib : bool) : Prop := {
  mp_addrs : length (di_addrs di) = 11%nat;
  mp_nb : 0 <= nb <= MAXFILE;
  mp_in : forall bn, 0 <= bn < nb -> own !! addr_of cur di bn = Some (inum, bn);
  mp_out : forall bn, nb <= bn < MAXFILE -> addr_of cur di bn = 0;
  mp_ind : if ib then own !! ind di = Some (inum, MAXFILE) else ind di = 0 /\ nb <= NDIRECT
}.

Ltac consts := change NDIRECT with 10 in *; change NINDIRECT with 128 in *; change MAXFILE with 138 in *;
  change BSIZE with 512 in *; change (Z.to_nat 10) with 10%nat in *.

Section blocks.
Context (cur cur' : Z -> block) (own : owners) (inum : Z) (di : dinode) (nb : Z) (ib : bool).
Hypothesis Hm : maps cur own inum di nb ib.

(** Addresses depend on the inode and on its indirect block. *)
Lemma addr_same bn : cur' (ind di) = cur (ind di) -> addr_of cur' di bn = addr_of cur di bn.
Proof. intros E. unfold addr_of. case_match; [done|]. unfold ind in E. by rewrite E. Qed.

Lemma maps_frame own' : own ⊆ own' -> cur' (ind di) = cur (ind di) -> maps cur' own' inum di nb ib.
Proof.
  intros Hs E. destruct Hm as [H1 H2 H3 H4 H5]. split; [done|done|..].
  - intros bn Hbn. rewrite addr_same by done. eapply lookup_weaken; [by apply H3|done].
  - intros bn Hbn. rewrite addr_same by done. by apply H4.
  - destruct ib; [by eapply lookup_weaken|done].
Qed.

(** A block given to the next position of the file, in the inode. *)
Lemma maps_direct b : nb < NDIRECT -> own !! b = None -> maps cur (<[b := (inum, nb)]> own) inum (with_addr nb b di) (nb + 1) ib /\
  forall bn, 0 <= bn < nb -> addr_of cur (with_addr nb b di) bn = addr_of cur di bn.
Proof.
  intros Hnb Hb. destruct Hm as [H1 H2 H3 H4 H5]. consts.
  assert (forall bn, 0 <= bn -> bn <> nb -> addr_of cur (with_addr nb b di) bn = addr_of cur di bn) as Ha.
  { intros bn Hbn Hne. unfold addr_of. consts. cbn [with_addr di_addrs].
    destruct (Z.ltb_spec bn 10); rewrite list_lookup_insert_ne by lia; done. }
  assert (forall x k, own !! x = Some k -> <[b := (inum, nb)]> own !! x = Some k) as Hw.
  { intros x k Hx. rewrite lookup_insert_ne; [done|]. by intros ->; rewrite Hb in Hx. }
  split; [split|].
  - cbn. by rewrite length_insert.
  - consts. lia.
  - intros bn Hbn. destruct (decide (bn = nb)) as [->|].
    + unfold addr_of. consts. cbn [with_addr di_addrs]. destruct (Z.ltb_spec nb 10); [|lia].
      rewrite list_lookup_insert_eq by lia. cbn. by rewrite lookup_insert_eq.
    + rewrite Ha by lia. apply Hw, H3. lia.
  - intros bn Hbn. consts. rewrite Ha by lia. apply H4. lia.
  - assert (ind (with_addr nb b di) = ind di) as ->.
    { unfold ind. cbn [with_addr di_addrs]. consts. by rewrite list_lookup_insert_ne by lia. }
    destruct ib; [by apply Hw|]. consts. lia.
  - intros bn Hbn. apply Ha; lia.
Qed.

(** The indirect block is allocated. *)
Lemma maps_ind b : nb = NDIRECT -> ib = false -> own !! b = None -> cur b = zblock ->
  maps cur (<[b := (inum, MAXFILE)]> own) inum (with_addr NDIRECT b di) nb true /\
  forall bn, 0 <= bn < nb -> addr_of cur (with_addr NDIRECT b di) bn = addr_of cur di bn.
Proof.
  intros Hnb Hib Hb Hz. destruct Hm as [H1 H2 H3 H4 H5]. rewrite Hib in H5. consts.
  assert (forall bn, 0 <= bn < nb -> addr_of cur (with_addr 10 b di) bn = addr_of cur di bn) as Ha.
  { intros bn Hbn. unfold addr_of. consts. cbn [with_addr di_addrs].
    destruct (Z.ltb_spec bn 10); [|lia]. by rewrite list_lookup_insert_ne by lia. }
  assert (ind (with_addr 10 b di) = b) as Ei.
  { unfold ind. cbn [with_addr di_addrs]. consts. by rewrite list_lookup_insert_eq by lia. }
  split; [split|done].
  - cbn. by rewrite length_insert.
  - consts. lia.
  - intros bn Hbn. rewrite Ha by lia. rewrite lookup_insert_ne; [by apply H3|].
    intros E. pose proof (H3 bn Hbn) as Hx. rewrite <- E, Hb in Hx. done.
  - intros bn Hbn. consts. unfold addr_of. consts. destruct (Z.ltb_spec bn 10); [lia|].
    change (get32 (cur (ind (with_addr 10 b di))) (4 * (bn - 10)) = 0). by rewrite Ei, Hz, get32_zblock.
  - rewrite Ei. by rewrite lookup_insert_eq.
Qed.

(** A block given to the next position of the file, in the indirect block. *)
Lemma maps_indirect b : NDIRECT <= nb < MAXFILE -> ib = true -> own !! b = None -> block_ok (cur (ind di)) -> 0 <= b < 4294967296 ->
  cur' (ind di) = put32 (cur (ind di)) (4 * (nb - NDIRECT)) b ->
  maps cur' (<[b := (inum, nb)]> own) inum di (nb + 1) true /\
  forall bn, 0 <= bn < nb -> addr_of cur' di bn = addr_of cur di bn.
Proof.
  intros Hnb Hib Hb [Hl _] Hbr E. destruct Hm as [H1 H2 H3 H4 H5]. rewrite Hib in H5. consts.
  assert (forall bn, 0 <= bn < 138 -> bn <> nb -> addr_of cur' di bn = addr_of cur di bn) as Ha.
  { intros bn Hbn Hne. unfold addr_of. consts. destruct (Z.ltb_spec bn 10); [done|].
    change (get32 (cur' (ind di)) (4 * (bn - 10)) = get32 (cur (ind di)) (4 * (bn - 10))).
    rewrite E. apply get32_put32_ne; rewrite ?Hl; lia. }
  assert (addr_of cur' di nb = b) as Eb.
  { unfold addr_of. consts. destruct (Z.ltb_spec nb 10); [lia|]. change (get32 (cur' (ind di)) (4 * (nb - 10)) = b).
    rewrite E, get32_put32_eq by (rewrite ?Hl; lia). by apply u32_small. }
  assert (forall x k, own !! x = Some k -> <[b := (inum, nb)]> own !! x = Some k) as Hw.
  { intros x k Hx. rewrite lookup_insert_ne; [done|]. by intros ->; rewrite Hb in Hx. }
  split; [split|].
  - done.
  - consts. lia.
  - intros bn Hbn. destruct (decide (bn = nb)) as [->|]; [by rewrite Eb, lookup_insert_eq|].
    rewrite Ha by lia. apply Hw, H3. lia.
  - intros bn Hbn. consts. rewrite Ha by lia. apply H4. lia.
  - by apply Hw.
  - intros bn Hbn. apply Ha; lia.
Qed.
End blocks.

(** ** The image *)

Definition cur (s : mst) : Z -> block := disk_of (m_img s).

(** Blocks from [freeblock] on are still zero, blocks with an owner are below it. *)
Record img_ok (s : mst) (own : owners) : Prop := {
  io_len : m_len s = fssize;
  io_block : forall x, block_ok (cur s x);
  io_boot : cur s 0 = zblock;
  io_free : 29 <= m_freeblock s <= fssize;
  io_fresh : forall x, m_freeblock s <= x -> cur s x = zblock;
  io_used : m_usedblocks s = m_freeblock s;
  io_own : forall x k, own !! x = Some k -> 29 <= x < m_freeblock s;
  io_inum : 1 <= m_freeinode s <= ninodes
}.

(** What an operation on the blocks of [inum] leaves alone. *)
Record kept (inum : Z) (s s' : mst) (own own' : owners) : Prop := {
  kp_own : own ⊆ own';
  kp_cur : forall y, (forall k, own' !! y <> Some (inum, k)) -> cur s' y = cur s y;
  kp_inum : m_freeinode s' = m_freeinode s
}.

Lemma kept_refl inum s own : kept inum s s own own.
Proof. split; done. Qed.

Lemma kept_trans inum s1 s2 s3 o1 o2 o3 : kept inum s1 s2 o1 o2 -> kept inum s2 s3 o2 o3 -> kept inum s1 s3 o1 o3.
Proof.
  intros [H1 H2 H3] [K1 K2 K3]. split; [by etrans| |congruence].
  intros y Hy. rewrite K2 by done. apply H2. intros k Hk. by eapply Hy, lookup_weaken.
Qed.

(** The blocks, the indirect one included, that [nb] blocks of a file take. *)
Definition charge (nb : Z) : Z := nb + (if NDIRECT <? nb then 1 else 0).
Definition blocks (n : Z) : Z := (n + 511) / 512.

Lemma charge_S nb : charge (nb + 1) = charge nb + (if decide (nb = NDIRECT) then 2 else 1).
Proof. unfold charge. destruct (Z.ltb_spec NDIRECT (nb + 1)), (Z.ltb_spec NDIRECT nb); case_decide; lia. Qed.

Definition set_addrs (a : list Z) (d : dinode) : dinode :=
  Dinode (di_type d) (di_major d) (di_minor d) (di_nlink d) (di_size d) a (di_child1 d) (di_child2 d) (di_checksum d).
Definition same_inode (di di' : dinode) : Prop := di' = set_addrs (di_addrs di') di.

Lemma same_inode_refl di : same_inode di di.
Proof. by destruct di. Qed.
Lemma same_inode_trans d1 d2 d3 : same_inode d1 d2 -> same_inode d2 d3 -> same_inode d1 d3.
Proof. unfold same_inode. intros -> ->. done. Qed.
Lemma same_inode_addr di k a : same_inode di (with_addr k a di).
Proof. done. Qed.

Lemma rsect_ok s own x : img_ok s own -> x < fssize -> rsect x s = Ret (cur s x) s.
Proof.
  intros H Hx. unfold rsect, bind, get. rewrite (io_len _ _ H). destruct (Z.ltb_spec x fssize); [done|lia].
Qed.

(** A write to a sector that is not the boot sector and has been allocated. *)
Lemma wsect_ok s own x d : img_ok s own -> 0 < x < m_freeblock s -> block_ok d ->
  exists s', wsect x d s = Ret tt s' /\ img_ok s' own /\ (forall y, cur s' y = if decide (y = x) then d else cur s y) /\
    m_freeblock s' = m_freeblock s /\ m_freeinode s' = m_freeinode s.
Proof.
  intros H Hx Hd. eexists. split; [reflexivity|]. destruct H as [H1 H2 H3 H4 H5 H6 H7 H8].
  assert (forall y, disk_of (<[x := d]> (m_img s)) y = if decide (y = x) then d else cur s y) as E by (intros; apply disk_insert).
  split; [|done]. split; cbn; try done.
  - rewrite H1. lia.
  - intros y. unfold cur. cbn. rewrite E. case_decide; [done|apply H2].
  - unfold cur. cbn. rewrite E, decide_False by lia. done.
  - intros y Hy. unfold cur. cbn. rewrite E, decide_False by lia. by apply H5.
Qed.

Lemma new_block_ok s own k : img_ok s own -> m_freeblock s < fssize -> let b := m_freeblock s in
  exists s', new_block s = Ret b s' /\ img_ok s' (<[b := k]> own) /\ cur s' = cur s /\ m_freeblock s' = b + 1 /\
    m_freeinode s' = m_freeinode s /\ cur s b = zblock /\ own !! b = None /\ 29 <= b < fssize.
Proof.
  intros H Hb b. pose proof H as [H1 H2 H3 H4 H5 H6 H7 H8]. unfold fssize in *.
  eexists. split; [reflexivity|]. cbn. rewrite H6, u32_small by (fold b in H4; unfold b; lia). fold b.
  assert (own !! b = None) as Hn.
  { destruct (own !! b) eqn:E; [|done]. apply H7 in E. unfold b in E. lia. }
  split_and!; try done; try (unfold b; lia); [|by apply H5].
  split; cbn; try done; try (unfold fssize, b; lia).
  - intros x Hx. apply H5. unfold b in Hx. lia.
  - intros x k' Hx. destruct (decide (x = b)) as [->|]; [unfold b; lia|].
    rewrite lookup_insert_ne in Hx by done. apply H7 in Hx. unfold b. lia.
Qed.

Lemma addr_range s own inum di nb ib bn : img_ok s own -> maps (cur s) own inum di nb ib -> 0 <= bn < MAXFILE ->
  0 <= addr_of (cur s) di bn < fssize.
Proof.
  intros H Hm Hbn. pose proof (io_free _ _ H). destruct (decide (bn < nb)).
  - pose proof (io_own _ _ H _ _ (mp_in _ _ _ _ _ _ Hm bn ltac:(lia))). lia.
  - rewrite (mp_out _ _ _ _ _ _ Hm) by lia. unfold fssize. lia.
Qed.

Lemma ind_range s own inum di nb ib : img_ok s own -> maps (cur s) own inum di nb ib -> 0 <= ind di < fssize.
Proof.
  intros H Hm. pose proof (io_free _ _ H). pose proof (mp_ind _ _ _ _ _ _ Hm) as Hi. destruct ib.
  - apply (io_own _ _ H) in Hi. lia.
  - destruct Hi as [-> _]. unfold fssize. lia.
Qed.

Lemma bytes_stable c c' di di' nb :
  (forall bn, 0 <= bn < nb -> addr_of c' di' bn = addr_of c di bn /\ c' (addr_of c di bn) = c (addr_of c di bn)) ->
  forall off, 0 <= off < nb * 512 -> file_byte c' di' off = file_byte c di off.
Proof.
  intros H off Hoff. unfold file_byte. consts.
  destruct (H (off / 512)) as [-> ->]; [|done]. split; [apply Z.div_pos; lia|apply Z.div_lt_upper_bound; lia].
Qed.

(** ** Finding or allocating a block of a file *)

Record mapped (inum : Z) (di : dinode) (fbn nb : Z) (s : mst) (own : owners) (x : Z) (di' : dinode) (s' : mst) (own' : owners) : Prop := {
  md_ok : img_ok s' own';
  md_maps : maps (cur s') own' inum di' (fbn + 1) (NDIRECT <? fbn + 1);
  md_x : x = addr_of (cur s') di' fbn;
  md_new : nb = fbn -> cur s' x = zblock;
  md_kept : kept inum s s' own own';
  md_same : same_inode di di';
  md_free : m_freeblock s' = m_freeblock s + charge (fbn + 1) - charge nb;
  md_bytes : forall off, 0 <= off < nb * 512 -> file_byte (cur s') di' off = file_byte (cur s) di off
}.

Section map_block.
Context (s : mst) (own : owners) (inum : Z) (di : dinode) (nb : Z) (ib : bool).
Hypotheses (Hok : img_ok s own) (Hm : maps (cur s) own inum di nb ib).

Let Hfree := io_free _ _ Hok.

Lemma owned_range x k : own !! x = Some k -> 29 <= x < 2048.
Proof. intros H%(io_own _ _ Hok). unfold fssize in *. lia. Qed.

(** The indirect block has an entry for the block. *)
Lemma entry_old fbn : NDIRECT <= fbn < nb -> indirect_entry (ind di) fbn s = Ret (addr_of (cur s) di fbn) s.
Proof.
  intros Hf. pose proof (owned_range _ _ (mp_in _ _ _ _ _ _ Hm fbn ltac:(consts; lia))) as Ha.
  unfold indirect_entry. rewrite (bind_eq _ _ _ _ _ (rsect_ok _ _ (ind di) Hok ltac:(eapply ind_range; done))).
  unfold addr_of in *. destruct (Z.ltb_spec fbn NDIRECT); [lia|]. fold (ind di) in *.
  destruct (Z.eqb_spec (get32 (cur s (ind di)) (4 * (fbn - NDIRECT))) 0); [lia|].
  unfold bind, ret. by rewrite xint_id by lia.
Qed.

(** The entry is made. *)
Lemma entry_new : NDIRECT <= nb < MAXFILE -> ib = true -> m_freeblock s < fssize ->
  let own' := <[m_freeblock s := (inum, nb)]> own in
  exists s', indirect_entry (ind di) nb s = Ret (m_freeblock s) s' /\ img_ok s' own' /\
    maps (cur s') own' inum di (nb + 1) true /\ addr_of (cur s') di nb = m_freeblock s /\ cur s' (m_freeblock s) = zblock /\ kept inum s s' own own' /\
    m_freeblock s' = m_freeblock s + 1 /\
    forall bn, 0 <= bn < nb -> addr_of (cur s') di bn = addr_of (cur s) di bn /\ cur s' (addr_of (cur s) di bn) = cur s (addr_of (cur s) di bn).
Proof.
  intros Hnb Hib Hf own'. destruct (new_block_ok s own (inum, nb) Hok Hf) as (s1 & E1 & Hok1 & Ec & Ef & Ei & Hz & Hn & Hb).
  pose proof (mp_ind _ _ _ _ _ _ Hm) as Hi. rewrite Hib in Hi. pose proof (owned_range _ _ Hi) as Hir.
  pose proof (io_own _ _ Hok _ _ Hi) as Hil.
  set (b := m_freeblock s) in *. set (d := put32 (cur s (ind di)) (4 * (nb - NDIRECT)) b). unfold fssize in *.
  destruct (io_block _ _ Hok (ind di)) as [Hl Hbytes]. consts.
  assert (block_ok d) as Hd.
  { split; [unfold d; rewrite length_put32; rewrite ?Hl; consts; lia|unfold d; apply put32_bytes; done]. }
  destruct (wsect_ok s1 _ (ind di) d Hok1 ltac:(lia) Hd) as (s' & E2 & Hok2 & Hc & Ef2 & Ei2).
  assert (get32 d (4 * (nb - 10)) = b) as Eg.
  { unfold d. rewrite get32_put32_eq by (rewrite ?Hl; lia). apply u32_small; lia. }
  assert (cur s' (ind di) = d) as Ed by (rewrite Hc; by rewrite decide_True).
  assert (forall bn, 0 <= bn < nb -> cur s' (addr_of (cur s) di bn) = cur s (addr_of (cur s) di bn)) as Hsame.
  { intros bn Hbn. rewrite Hc, decide_False, Ec; [done|]. intros E. pose proof (mp_in _ _ _ _ _ _ Hm bn Hbn) as Hx.
    rewrite E, Hi in Hx. injection Hx as <-. consts. lia. }
  destruct (maps_indirect _ (cur s') _ _ _ _ _ Hm b) as [Hm' Ha]; try done; [lia|].
  assert (addr_of (cur s') di nb = b) as Eb.
  { unfold addr_of. consts. destruct (Z.ltb_spec nb 10); [lia|]. change (get32 (cur s' (ind di)) (4 * (nb - 10)) = b). by rewrite Ed. }
  exists s'. cbv zeta. split_and!; try done.
  - unfold indirect_entry. rewrite (bind_eq _ _ _ _ _ (rsect_ok _ _ (ind di) Hok ltac:(unfold fssize; lia))).
    pose proof (mp_out _ _ _ _ _ _ Hm nb ltac:(consts; lia)) as H0. unfold addr_of in H0. consts.
    destruct (Z.ltb_spec nb 10); [lia|]. change (get32 (cur s (ind di)) (4 * (nb - 10)) = 0) in H0. rewrite H0.
    unfold bind at 1. change (0 =? 0) with true. cbv iota. unfold bind at 1. rewrite E1, (xint_id b) by lia. cbv zeta.
    fold d. rewrite (bind_eq _ _ _ _ _ E2). unfold ret. rewrite Eg. by rewrite xint_id by lia.
  - rewrite Hc, decide_False, Ec; [done|lia].
  - split; [by apply insert_subseteq| |congruence]. intros y Hy. rewrite Hc, decide_False, Ec; [done|].
    intros ->. apply (Hy MAXFILE). unfold own'. rewrite lookup_insert_ne by lia. done.
  - lia.
  - intros bn Hbn. split; [by apply Ha|by apply Hsame].
Qed.

(** The next block, named by the inode. *)
Lemma slot_new : nb < NDIRECT \/ nb = NDIRECT /\ ib = false -> m_freeblock s < fssize ->
  let b := m_freeblock s in let own' := <[b := (inum, if nb <? NDIRECT then nb else MAXFILE)]> own in
  exists s', new_block s = Ret b s' /\ img_ok s' own' /\ cur s' = cur s /\ 29 <= b < 2048 /\
    maps (cur s') own' inum (with_addr nb b di) (if nb <? NDIRECT then nb + 1 else nb) (if nb <? NDIRECT then ib else true) /\
    default 0 (di_addrs (with_addr nb b di) !! Z.to_nat nb) = b /\ kept inum s s' own own' /\ m_freeblock s' = b + 1 /\
    forall bn, 0 <= bn < nb -> addr_of (cur s') (with_addr nb b di) bn = addr_of (cur s) di bn.
Proof.
  intros Hnb Hf b own'. destruct (new_block_ok s own (inum, if nb <? NDIRECT then nb else MAXFILE) Hok Hf)
    as (s1 & E1 & Hok1 & Ec & Ef & Ei & Hz & Hn & Hb). change (m_freeblock s) with b in E1, Hok1, Ef, Hz, Hn, Hb. unfold fssize in *.
  exists s1. rewrite Ec. pose proof (mp_nb _ _ _ _ _ _ Hm). split_and!; try done; try lia.
  - destruct Hnb as [Hnb|[Hnb Hib]]; unfold own'; destruct (Z.ltb_spec nb NDIRECT); try lia.
    + by apply maps_direct.
    + rewrite Hnb at 1. apply (proj1 (maps_ind _ _ _ _ _ _ Hm b Hnb Hib Hn Hz)).
  - cbn [with_addr di_addrs]. rewrite list_lookup_insert_eq; [done|]. rewrite (mp_addrs _ _ _ _ _ _ Hm). consts. lia.
  - split; [by apply insert_subseteq|intros; by rewrite Ec|done].
  - destruct Hnb as [Hnb|[Hnb Hib]]; [by apply (maps_direct _ _ _ _ _ _ Hm)|].
    replace (with_addr nb b di) with (with_addr NDIRECT b di) by (by rewrite Hnb). apply (proj2 (maps_ind _ _ _ _ _ _ Hm b Hnb Hib Hn Hz)).
Qed.
End map_block.

(** The first part of [map_block]: an address already in the inode, and a new one. *)
Definition slot (fbn : Z) : Z := if fbn <? NDIRECT then fbn else NDIRECT.

Lemma map_block_have s di fbn (a := default 0 (di_addrs di !! Z.to_nat (slot fbn))) : 0 < a < 2048 ->
  map_block di fbn s = (if fbn <? NDIRECT then Ret (a, di) s else bind (indirect_entry a fbn) (fun x => ret (x, di)) s).
Proof.
  intros Ha. unfold map_block. cbv zeta. fold (slot fbn). fold a. rewrite (xint_id a) by lia.
  destruct (Z.eqb_spec a 0); [lia|]. unfold bind at 1. cbn [ret]. fold a. rewrite (xint_id a) by lia. by destruct (fbn <? NDIRECT).
Qed.

Lemma map_block_new s s1 di fbn b : default 0 (di_addrs di !! Z.to_nat (slot fbn)) = 0 -> new_block s = Ret b s1 -> 0 < b < 2048 ->
  default 0 (di_addrs (with_addr (slot fbn) b di) !! Z.to_nat (slot fbn)) = b ->
  map_block di fbn s = (if fbn <? NDIRECT then Ret (b, with_addr (slot fbn) b di) s1
                        else bind (indirect_entry b fbn) (fun x => ret (x, with_addr (slot fbn) b di)) s1).
Proof.
  intros H0 E Hb Eb. unfold map_block. cbv zeta. fold (slot fbn). rewrite H0. change (xint 0 =? 0) with true. cbv iota.
  unfold bind at 1. unfold bind at 1. rewrite E. cbn [ret]. rewrite (xint_id b), Eb, (xint_id b) by lia. by destruct (fbn <? NDIRECT).
Qed.

Section map_block_spec.
Context (s : mst) (own : owners) (inum : Z) (di : dinode) (nb : Z).
Hypotheses (Hok : img_ok s own) (Hm : maps (cur s) own inum di nb (NDIRECT <? nb)).

Let maps_own := mp_in _ _ _ _ _ _ Hm.

Lemma map_block_old fbn : nb = fbn + 1 -> 0 <= fbn ->
  map_block di fbn s = Ret (addr_of (cur s) di fbn, di) s.
Proof.
  intros E Hf. pose proof (owned_range _ _ Hok _ _ (maps_own fbn ltac:(lia))) as Ha.
  pose proof (mp_ind _ _ _ _ _ _ Hm) as Hi. destruct (Z.ltb_spec fbn NDIRECT).
  - unfold addr_of in *. destruct (Z.ltb_spec fbn NDIRECT) as [|]; [|lia].
    assert (slot fbn = fbn) as Es by (unfold slot; destruct (Z.ltb_spec fbn NDIRECT); lia).
    rewrite map_block_have; rewrite Es; [|lia]. destruct (Z.ltb_spec fbn NDIRECT); [done|lia].
  - replace (NDIRECT <? nb) with true in Hi by (symmetry; apply Z.ltb_lt; lia). pose proof (owned_range _ _ Hok _ _ Hi).
    assert (slot fbn = NDIRECT) as Es by (unfold slot; destruct (Z.ltb_spec fbn NDIRECT); lia).
    rewrite map_block_have; rewrite Es; fold (ind di); [|lia]. destruct (Z.ltb_spec fbn NDIRECT); [lia|].
    by rewrite (bind_eq _ _ _ _ _ (entry_old _ _ _ _ _ _ Hok Hm fbn ltac:(lia))).
Qed.

(** The indirect block is there, the entry is not. *)
Lemma map_block_entry : NDIRECT < nb < MAXFILE -> m_freeblock s < fssize ->
  exists s' own', map_block di nb s = Ret (m_freeblock s, di) s' /\ mapped inum di nb nb s own (m_freeblock s) di s' own'.
Proof.
  intros Hnb Hf. pose proof Hm as Hm'. replace (NDIRECT <? nb) with true in Hm' by (symmetry; apply Z.ltb_lt; lia).
  pose proof (owned_range _ _ Hok _ _ (mp_ind _ _ _ _ _ _ Hm')).
  destruct (entry_new _ _ _ _ _ _ Hok Hm' ltac:(lia) eq_refl Hf) as (s' & E & Hok' & Hm2 & Ea & Hz & Hk & Ef & Hb).
  eexists s', _. split.
  - assert (slot nb = NDIRECT) as Es by (unfold slot; destruct (Z.ltb_spec nb NDIRECT); lia).
    rewrite map_block_have; rewrite Es; fold (ind di); [|lia]. destruct (Z.ltb_spec nb NDIRECT); [lia|].
    by rewrite (bind_eq _ _ _ _ _ E).
  - split; try done.
    + replace (NDIRECT <? nb + 1) with true by (symmetry; apply Z.ltb_lt; lia). done.
    + apply same_inode_refl.
    + rewrite Ef, charge_S. case_decide; lia.
    + by apply bytes_stable.
Qed.

(** The next block is named by the inode. *)
Lemma map_block_direct : nb < NDIRECT -> m_freeblock s < fssize ->
  exists di' s' own', map_block di nb s = Ret (m_freeblock s, di') s' /\ mapped inum di nb nb s own (m_freeblock s) di' s' own'.
Proof.
  intros Hnb Hf. pose proof (mp_nb _ _ _ _ _ _ Hm) as H0.
  destruct (slot_new _ _ _ _ _ _ Hok Hm ltac:(by left) Hf) as (s' & E & Hok' & Ec & Hb & Hm' & Eb & Hk & Ef & Hs).
  assert (slot nb = nb) as Es by (unfold slot; destruct (Z.ltb_spec nb NDIRECT); lia).
  pose proof (mp_out _ _ _ _ _ _ Hm nb ltac:(consts; lia)) as Hz.
  destruct (Z.ltb_spec nb NDIRECT); [|lia]. replace (NDIRECT <? nb) with false in Hm' by (symmetry; apply Z.ltb_ge; lia).
  eexists _, s', _. split.
  - unfold addr_of in Hz. destruct (Z.ltb_spec nb NDIRECT); [|lia].
    rewrite (map_block_new _ _ _ _ _ ltac:(by rewrite Es) E ltac:(lia)) by (by rewrite Es).
    destruct (Z.ltb_spec nb NDIRECT); [|lia]. done.
  - rewrite Es. split; try done.
    + replace (NDIRECT <? nb + 1) with false by (symmetry; apply Z.ltb_ge; lia). done.
    + unfold addr_of. destruct (Z.ltb_spec nb NDIRECT); [done|lia].
    + intros _. rewrite Ec. apply (io_fresh _ _ Hok). lia.
    + rewrite Ef, charge_S. case_decide; lia.
    + apply bytes_stable. intros bn Hbn. split; [by apply Hs|by rewrite Ec].
Qed.

(** The first block past the direct ones: the indirect block is allocated too. *)
Lemma map_block_first : nb = NDIRECT -> m_freeblock s + 1 < fssize ->
  exists x di' s' own', map_block di nb s = Ret (x, di') s' /\ mapped inum di nb nb s own x di' s' own'.
Proof.
  intros Hnb Hf. assert (maps (cur s) own inum di nb false) as Hm0.
  { replace false with (NDIRECT <? nb) by (apply Z.ltb_ge; lia). exact Hm. }
  destruct (slot_new _ _ _ _ _ _ Hok Hm0 (or_intror (conj Hnb eq_refl)) ltac:(lia)) as (s1 & E & Hok1 & Ec & Hb & Hm1 & Eb & Hk & Ef & Hs).
  assert (slot nb = nb) as Es by (unfold slot; destruct (Z.ltb_spec nb NDIRECT); lia).
  replace (nb <? NDIRECT) with false in Hok1, Hm1, Hk by (symmetry; apply Z.ltb_ge; lia).
  assert (ind (with_addr nb (m_freeblock s) di) = m_freeblock s) as Ei by (unfold ind; by rewrite Hnb in Eb |- *).
  destruct (entry_new _ _ _ _ _ _ Hok1 Hm1 ltac:(consts; lia) eq_refl ltac:(lia)) as (s' & E2 & Hok2 & Hm2 & Ea & Hz2 & Hk2 & Ef2 & Hb2).
  eexists _, _, s', _. split.
  - destruct (mp_ind _ _ _ _ _ _ Hm0) as [Hz _].
    rewrite (map_block_new _ _ _ _ _ ltac:(rewrite Es, Hnb; exact Hz) E ltac:(lia)) by (by rewrite Es).
    replace (nb <? NDIRECT) with false by (symmetry; apply Z.ltb_ge; lia). rewrite Ei in E2. by rewrite (bind_eq _ _ _ _ _ E2).
  - rewrite ?Es. split; try done.
    + replace (NDIRECT <? nb + 1) with true by (symmetry; apply Z.ltb_lt; lia). done.
    + by eapply kept_trans.
    + rewrite Ef2, Ef, charge_S. case_decide; lia.
    + apply bytes_stable. intros bn Hbn. destruct (Hb2 bn Hbn) as [H1 H2]. rewrite <- (Hs bn Hbn). split; [done|]. by rewrite H2, Ec.
Qed.

Lemma map_block_spec fbn : 0 <= fbn < MAXFILE -> nb = fbn \/ nb = fbn + 1 -> m_freeblock s + charge (fbn + 1) - charge nb <= fssize ->
  exists x di' s' own', map_block di fbn s = Ret (x, di') s' /\ mapped inum di fbn nb s own x di' s' own'.
Proof.
  intros Hf [E|E] Hroom.
  - subst fbn. rewrite charge_S in Hroom. destruct (decide (nb < NDIRECT)) as [Hl|Hl]; [|destruct (decide (nb = NDIRECT)) as [He|He]].
    + destruct (map_block_direct Hl) as (di' & s' & own' & H1 & H2); [case_decide; lia|]. by eexists _, _, _, _.
    + apply map_block_first; lia.
    + destruct map_block_entry as (s' & own' & H1 & H2); [lia|lia|]. by eexists _, _, _, _.
  - exists (addr_of (cur s) di fbn), di, s, own. split; [apply map_block_old; lia|].
    split; rewrite <- ?E; try done; [lia|apply same_inode_refl|lia].
Qed.
End map_block_spec.

(** Bytes past the allocated blocks read as zero, and so do those of a new block. *)
Lemma zero_byte o : byte_at zblock o = 0.
Proof.
  unfold byte_at, zblock. destruct (replicate (Z.to_nat BSIZE) 0 !! Z.to_nat o) as [a|] eqn:E; [|done]. by apply lookup_replicate in E as [-> _].
Qed.

Lemma mapped_zero inum di fbn nb s own x di' s' own' : mapped inum di fbn nb s own x di' s' own' -> nb = fbn \/ nb = fbn + 1 -> 0 <= nb ->
  forall o, nb * 512 <= o < MAXFILE * BSIZE -> file_byte (cur s') di' o = 0.
Proof.
  intros [H1 H2 Hx Hnew _ _ _ _] Hnb H0 o Ho. unfold file_byte. change (MAXFILE * BSIZE) with 70656 in Ho. consts.
  assert (nb <= o / 512 < 138) by (split; [apply Z.div_le_lower_bound; lia|apply Z.div_lt_upper_bound; lia]).
  destruct (decide (o / 512 < fbn + 1)).
  - replace (o / 512) with fbn by lia. rewrite <- Hx, Hnew by lia. apply zero_byte.
  - rewrite (mp_out _ _ _ _ _ _ H2) by (consts; lia). rewrite (io_boot _ _ H1). apply zero_byte.
Qed.
