(* ===== verification/MkfsIO.v ===== *)
(** [iappend], [readi] and [ichecksum] of mkfs.c: appending to a file extends its
    contents and leaves every other file alone. *)
From S2P Require Import Prelude Bio Cache Log LogSpec Trans Str Fs FsView Alloc Content Verify Write Mkfs MkfsInv.

(** ** Arithmetic of blocks *)

Lemma blocks_div off : 0 <= off -> blocks off = off / 512 \/ blocks off = off / 512 + 1.
Proof.
  intros H. unfold blocks. destruct (decide (off `mod` 512 = 0)) as [E|E];
    pose proof (Z.div_mod off 512 ltac:(lia)); pose proof (Z.mod_pos_bound off 512 ltac:(lia)).
  - left. symmetry. apply (Z.div_unique _ _ _ 511); lia.
  - right. symmetry. apply (Z.div_unique _ _ _ (off `mod` 512 - 1)); lia.
Qed.

Lemma blocks_bound off : 0 <= off -> off <= blocks off * 512 < off + 512.
Proof.
  intros H. unfold blocks. pose proof (Z.div_mod (off + 511) 512 ltac:(lia)). pose proof (Z.mod_pos_bound (off + 511) 512 ltac:(lia)). lia.
Qed.

Lemma blocks_mono a b : a <= b -> blocks a <= blocks b.
Proof. intros H. unfold blocks. apply Z.div_le_mono; lia. Qed.

Lemma charge_mono a b : a <= b -> charge a <= charge b.
Proof. intros H. unfold charge. destruct (Z.ltb_spec NDIRECT a), (Z.ltb_spec NDIRECT b); lia. Qed.

Lemma blocks_fill off n : 0 <= off -> 0 < n <= (off / 512 + 1) * 512 - off -> blocks (off + n) = off / 512 + 1.
Proof.
  intros H Hn. pose proof (Z.div_mod off 512 ltac:(lia)). pose proof (Z.mod_pos_bound off 512 ltac:(lia)).
  unfold blocks. symmetry. apply (Z.div_unique _ _ _ (off + n + 511 - (off / 512 + 1) * 512)); lia.
Qed.

(** ** Appending *)

Lemma file_bytes_ext c c' di di' off n : 0 <= n -> (forall o, off <= o < off + n -> file_byte c' di' o = file_byte c di o) ->
  file_bytes c' di' off n = file_bytes c di off n.
Proof.
  intros Hn H. unfold file_bytes. apply list_fmap_ext. intros k o Hk. rewrite lookup_zrange in Hk. case_decide; [|done].
  injection Hk as <-. apply H. lia.
Qed.

(** A file being extended: its first [off] bytes are [c]. *)
Record opened (s : mst) (own : owners) (inum : Z) (di : dinode) (off : Z) (c : list Z) : Prop := {
  op_ok : img_ok s own;
  op_off : 0 <= off;
  op_maps : maps (cur s) own inum di (blocks off) (NDIRECT <? blocks off);
  op_bytes : file_bytes (cur s) di 0 off = c;
  op_zero : forall o, off <= o < MAXFILE * BSIZE -> file_byte (cur s) di o = 0
}.

Lemma byte_at_splice d o l k : 0 <= o <= Z.of_nat (length d) -> 0 <= k -> k < o \/ o + Z.of_nat (length l) <= k ->
  byte_at (splice d o l) k = byte_at d k.
Proof. intros Ho Hk Hd. unfold byte_at. rewrite lookup_splice by lia. by rewrite decide_False by lia. Qed.

(** One block's worth: [l] is stored at the end of the file. *)
Lemma write_block s own inum di off c x di1 s1 own1 l (fbn := off / 512) :
  opened s own inum di off c -> mapped inum di fbn (blocks off) s own x di1 s1 own1 -> Forall is_byte l ->
  0 < Z.of_nat (length l) <= (fbn + 1) * 512 - off ->
  exists s2, wsect x (splice (cur s1 x) (off - fbn * 512) l) s1 = Ret tt s2 /\
    opened s2 own1 inum di1 (off + Z.of_nat (length l)) (c ++ l) /\ kept inum s s2 own own1 /\ m_freeblock s2 = m_freeblock s1.
Proof.
  intros [Hok Hoff Hm Hc Hzero] Hmd Hl Hn. pose proof Hmd as [Hok1 Hm1 Hx _ Hk Hsame Hfree Hbytes]. fold fbn in Hm1, Hx.
  assert (own1 !! x = Some (inum, fbn)) as Hox.
  { rewrite Hx. apply (mp_in _ _ _ _ _ _ Hm1). unfold fbn in *. pose proof (Z.div_pos off 512). lia. }
  pose proof (Z.div_mod off 512 ltac:(lia)) as Hdm. pose proof (Z.mod_pos_bound off 512 ltac:(lia)) as Hmb.
  fold fbn in Hdm. pose proof (io_own _ _ Hok1 _ _ Hox) as Hxr. destruct (io_block _ _ Hok1 x) as [Hlen Hby].
  change (Z.to_nat BSIZE) with 512%nat in Hlen.
  destruct (wsect_ok s1 own1 x (splice (cur s1 x) (off - fbn * 512) l) Hok1 ltac:(lia)) as (s2 & E & Hok2 & Hc2 & Hf2 & Hi2).
  { apply splice_ok; [done|done|lia|]. change BSIZE with 512. lia. }
  assert (cur s2 (ind di1) = cur s1 (ind di1)) as Hind.
  { rewrite Hc2. case_decide as Ei; [|done]. pose proof (mp_ind _ _ _ _ _ _ Hm1) as Hi.
    destruct (NDIRECT <? fbn + 1) eqn:Eb; [|lia]. rewrite Ei, Hox in Hi. injection Hi as Hi.
    pose proof (mp_nb _ _ _ _ _ _ Hm1). consts. lia. }
  assert (blocks (off + Z.of_nat (length l)) = fbn + 1) as Eb by (apply blocks_fill; lia).
  assert (forall o, 0 <= o < MAXFILE * BSIZE -> o < off \/ off + Z.of_nat (length l) <= o -> file_byte (cur s2) di1 o = file_byte (cur s1) di1 o) as Hout.
  { intros o Ho Hd. unfold file_byte. rewrite (addr_same _ (cur s2)) by done. rewrite Hc2. case_decide as Ei; [|done]. rewrite Ei.
    change (MAXFILE * BSIZE) with 70656 in Ho. consts.
    assert (0 <= o / 512 < 138) by (split; [apply Z.div_pos; lia|apply Z.div_lt_upper_bound; lia]).
    assert (o / 512 = fbn) as Eo.
    { destruct (decide (o / 512 < fbn + 1)).
      - pose proof (mp_in _ _ _ _ _ _ Hm1 (o / 512) ltac:(lia)) as Ho'. rewrite Ei, Hox in Ho'. by injection Ho'.
      - rewrite (mp_out _ _ _ _ _ _ Hm1) in Ei by (consts; lia). lia. }
    pose proof (Z.div_mod o 512 ltac:(lia)). pose proof (Z.mod_pos_bound o 512).
    apply byte_at_splice; rewrite ?Hlen; lia. }
  pose proof (blocks_bound off Hoff). pose proof (blocks_div off Hoff) as Hbd. fold fbn in Hbd. pose proof (mp_nb _ _ _ _ _ _ Hm1) as Hnb.
  change (MAXFILE * BSIZE) with 70656 in *. consts.
  exists s2. split; [done|]. split; [split|].
  - done.
  - lia.
  - rewrite Eb. by eapply maps_frame.
  - rewrite file_bytes_app, Z.add_0_l by lia. f_equal.
    + rewrite <- Hc. apply file_bytes_ext; [lia|]. intros o Ho. rewrite <- (Hbytes o) by lia. apply Hout; lia.
    + rewrite file_bytes_block by (change BSIZE with 512; lia || apply (io_block _ _ Hok2)). change BSIZE with 512. fold fbn.
      rewrite (addr_same _ (cur s2)), <- Hx, Hc2, decide_True by done.
      replace (off `mod` 512) with (off - fbn * 512) by lia. apply slice_splice_eq; rewrite ?Hlen; lia.
  - change (MAXFILE * BSIZE) with 70656. intros o Ho. rewrite Hout by lia. destruct (decide (o < blocks off * 512)).
    + rewrite Hbytes by lia. apply Hzero. lia.
    + eapply mapped_zero; [exact Hmd|lia|lia|]. change (MAXFILE * BSIZE) with 70656. lia.
  - split; [|done]. eapply kept_trans; [exact Hk|]. split; [done| |congruence]. intros y Hy. rewrite Hc2, decide_False; [done|].
    intros ->. by eapply Hy.
Qed.

Definition room_for (s : mst) (off n : Z) : Prop := m_freeblock s + charge (blocks (off + n)) - charge (blocks off) <= fssize.

Lemma append_loop_spec fuel s own inum di off c p :
  opened s own inum di off c -> Forall is_byte p -> off + Z.of_nat (length p) <= MAXFILE * BSIZE ->
  room_for s off (Z.of_nat (length p)) -> p = [] \/ off `mod` 512 + Z.of_nat (length p) <= 512 * Z.of_nat fuel ->
  let off' := off + Z.of_nat (length p) in
  exists di' s' own', append_loop fuel di off p s = Ret (di', off') s' /\ opened s' own' inum di' off' (c ++ p) /\
    kept inum s s' own own' /\ same_inode di di' /\ m_freeblock s' = m_freeblock s + charge (blocks off') - charge (blocks off).
Proof.
  revert s own di off c p. induction fuel as [|fuel IH]; intros s own di off c p Ho Hp Hmax Hroom Hfuel off';
    change (MAXFILE * BSIZE) with 70656 in Hmax.
  all: destruct p as [|y p]; [exists di, s, own; unfold off'; simpl length; rewrite Z.add_0_r, app_nil_r;
    split; [reflexivity|split; [done|split; [apply kept_refl|split; [apply same_inode_refl|lia]]]]|].
  all: destruct Hfuel as [|Hfuel]; [done|]; pose proof (op_off _ _ _ _ _ _ Ho) as Hoff;
    pose proof (Z.mod_pos_bound off 512 ltac:(lia)) as Hmb; pose proof (Z.div_mod off 512 ltac:(lia)) as Hdm.
  { simpl length in Hfuel. lia. }
  remember (y :: p) as l eqn:El. assert (0 < Z.of_nat (length l)) as Hl by (rewrite El; simpl; lia). clear El y p.
  set (n1 := Z.min (Z.of_nat (length l)) ((off / 512 + 1) * 512 - off)).
  assert (0 < n1 <= Z.of_nat (length l)) as Hn1 by lia.
  assert (0 <= off / 512 < 138) as Hfbn by (split; [apply Z.div_pos; lia|apply Z.div_lt_upper_bound; lia]).
  assert (blocks (off + n1) = off / 512 + 1) as Eb by (apply blocks_fill; lia).
  assert (charge (blocks (off + n1)) <= charge (blocks (off + Z.of_nat (length l)))) by (apply charge_mono, blocks_mono; lia).
  unfold room_for in Hroom.
  destruct (map_block_spec s own inum di (blocks off) (op_ok _ _ _ _ _ _ Ho) (op_maps _ _ _ _ _ _ Ho) (off / 512))
    as (x & di1 & s1 & own1 & E1 & Hmd); [done|pose proof (blocks_div off Hoff); lia|rewrite <- Eb; lia|].
  destruct (write_block _ _ _ _ _ _ _ _ _ _ (take (Z.to_nat n1) l) Ho Hmd) as (s2 & E2 & Ho2 & Hk2 & Hf2);
    [by apply Forall_take|rewrite length_take; lia|].
  rewrite length_take, Nat.min_l, Z2Nat.id in Ho2 by lia.
  pose proof (md_free _ _ _ _ _ _ _ _ _ _ Hmd) as Hf1. rewrite <- Eb in Hf1.
  destruct (IH s2 own1 di1 (off + n1) _ (drop (Z.to_nat n1) l) Ho2) as (di' & s' & own' & E3 & Ho3 & Hk3 & Hs3 & Hf3);
    rewrite ?length_drop, ?Nat2Z.inj_sub, ?Z2Nat.id by lia.
  { by apply Forall_drop. }
  { change (MAXFILE * BSIZE) with 70656. lia. }
  { unfold room_for. replace (off + n1 + (Z.of_nat (length l) - n1)) with (off + Z.of_nat (length l)) by lia. lia. }
  { destruct (decide (n1 = Z.of_nat (length l))); [left; apply nil_length_inv; rewrite length_drop; lia|right].
    replace (off + n1) with (0 + (off / 512 + 1) * 512) by lia. rewrite Z.mod_add by lia. rewrite Z.mod_0_l by lia. lia. }
  replace (off + n1 + Z.of_nat (length (drop (Z.to_nat n1) l))) with off' in * by (unfold off'; rewrite length_drop; lia).
  rewrite <- app_assoc, take_drop in Ho3.
  exists di', s', own'. split_and!; [|done|by eapply kept_trans|eapply same_inode_trans, Hs3; apply Hmd|lia].
  cbn [append_loop]. destruct (Z.ltb_spec 0 (Z.of_nat (length l))); [|lia]. cbv zeta.
  unfold assert. consts. destruct (Z.ltb_spec (off / 512) 138); [|lia]. rewrite (bind_eq _ _ _ _ _ eq_refl).
  rewrite (bind_eq _ _ _ _ _ E1). cbn [fst snd]. rewrite u32_small by lia. fold n1.
  assert (x < fssize) as Hx.
  { rewrite (md_x _ _ _ _ _ _ _ _ _ _ Hmd). eapply addr_range; [apply Hmd|apply Hmd|done]. }
  rewrite (bind_eq _ _ _ _ _ (rsect_ok _ _ x (md_ok _ _ _ _ _ _ _ _ _ _ Hmd) Hx)).
  rewrite (bind_eq _ _ _ _ _ E2). by rewrite u32_small by lia.
Qed.

(** ** Inodes *)

Lemma IBLOCK_range inum : 0 <= inum <= ninodes -> 2 <= IBLOCK inum < 28.
Proof.
  intros H. unfold IBLOCK, ninodes in *. change IPB with 8.
  assert (0 <= inum / 8 < 26) by (split; [apply Z.div_pos; lia|apply Z.div_lt_upper_bound; lia]). lia.
Qed.

Lemma same_slot i j : 0 <= i -> 0 <= j -> IBLOCK i = IBLOCK j -> i <> j ->
  dinode_off i + 64 <= dinode_off j \/ dinode_off j + 64 <= dinode_off i.
Proof.
  intros Hi Hj E Hne. unfold IBLOCK, dinode_off in *. change IPB with 8 in *.
  pose proof (Z.div_mod i 8 ltac:(lia)). pose proof (Z.div_mod j 8 ltac:(lia)). lia.
Qed.

Lemma rinode_ok s own inum : img_ok s own -> 0 <= inum <= ninodes -> rinode inum s = Ret (dinode_at (cur s) inum) s.
Proof.
  intros H Hi. pose proof (IBLOCK_range inum Hi) as Hb. unfold rinode.
  by rewrite (bind_eq _ _ _ _ _ (rsect_ok _ _ (IBLOCK inum) H ltac:(unfold fssize; lia))).
Qed.

Lemma winode_ok s own inum di : img_ok s own -> 0 <= inum <= ninodes -> dinode_ok di ->
  exists s', winode inum di s = Ret tt s' /\ img_ok s' own /\ dinode_at (cur s') inum = di /\
    (forall j, 0 <= j -> j <> inum -> dinode_at (cur s') j = dinode_at (cur s) j) /\
    (forall y, y < 2 \/ 28 <= y -> cur s' y = cur s y) /\ m_freeblock s' = m_freeblock s /\ m_freeinode s' = m_freeinode s.
Proof.
  intros H Hi Hd. pose proof (IBLOCK_range inum Hi) as Hb. pose proof (dinode_off_range inum) as Ho. pose proof (io_free _ _ H) as Hf.
  pose proof (io_block _ _ H (IBLOCK inum)) as Hbk. pose proof Hbk as [Hl _]. change (Z.to_nat BSIZE) with 512%nat in Hl. change BSIZE with 512 in Ho.
  destruct (wsect_ok s own (IBLOCK inum) (put_inode (dinode_off inum) di (cur s (IBLOCK inum))) H ltac:(lia)) as (s' & E & H' & Hc & Ef & Ei).
  { unfold put_inode. apply put_tail_ok; [|apply Hd|lia|change BSIZE with 512; lia]. apply put_head_ok; [done|lia|change BSIZE with 512; lia]. }
  exists s'. split_and!; try done.
  - unfold winode. change (i2b inum) with (IBLOCK inum).
    by rewrite (bind_eq _ _ _ _ _ (rsect_ok _ _ (IBLOCK inum) H ltac:(unfold fssize; lia))).
  - unfold dinode_at. rewrite Hc, decide_True by done. apply get_put_inode; [done|lia|rewrite Hl; lia].
  - intros j Hj Hne. unfold dinode_at. rewrite Hc. case_decide as E'; [|done]. rewrite <- E'. apply get_other_inode; [done|lia|rewrite E', Hl; lia| |].
    + apply dinode_off_range.
    + apply same_slot; done || lia.
  - intros y Hy. rewrite Hc, decide_False by lia. done.
Qed.

(** ** Files *)

(** What an operation on inode [inum] leaves alone. *)
Record touches (inum : Z) (s s' : mst) (own own' : owners) : Prop := {
  tc_own : own ⊆ own';
  tc_cur : forall y j k, own !! y = Some (j, k) -> j <> inum -> cur s' y = cur s y;
  tc_ino : forall j, 0 <= j < m_freeinode s -> j <> inum -> dinode_at (cur s') j = dinode_at (cur s) j;
  tc_sb : cur s' 1 = cur s 1;
  tc_inum : m_freeinode s <= m_freeinode s'
}.

Lemma touches_trans inum s1 s2 s3 o1 o2 o3 : touches inum s1 s2 o1 o2 -> touches inum s2 s3 o2 o3 -> touches inum s1 s3 o1 o3.
Proof.
  intros [A1 A2 A3 A4 A5] [B1 B2 B3 B4 B5]. split; [by etrans|..|congruence|lia].
  - intros y j k Hy Hj. rewrite (B2 y j k), (A2 y j k); try done. by eapply lookup_weaken.
  - intros j Hj Hne. rewrite B3, A3; try done. lia.
Qed.

Lemma kept_touches inum s s' own own' : img_ok s' own' -> m_freeinode s <= ninodes -> kept inum s s' own own' -> touches inum s s' own own'.
Proof.
  intros H' Hn [H1 H2 H3]. assert (forall y, y < 28 -> cur s' y = cur s y) as Hlow.
  { intros y Hy. apply H2. intros k Hk. apply (io_own _ _ H') in Hk. lia. }
  split; [done|..|apply Hlow; lia|lia].
  - intros y j k Hy Hj. apply H2. intros k' Hk. rewrite (lookup_weaken _ _ _ _ Hy H1) in Hk. congruence.
  - intros j Hj _. unfold dinode_at. rewrite Hlow; [done|]. pose proof (IBLOCK_range j). lia.
Qed.

(** Inode [inum] is [di]; its contents are [c], in [nb] blocks. *)
Record file_at (s : mst) (own : owners) (inum nb : Z) (di : dinode) (c : list Z) : Prop := {
  fa_inum : 1 <= inum < m_freeinode s;
  fa_inode : dinode_at (cur s) inum = di;
  fa_ok : dinode_ok di;
  fa_size : di_size di <= MAXFILE * BSIZE;
  fa_maps : maps (cur s) own inum di nb (NDIRECT <? nb);
  fa_content : file_content (cur s) di = c;
  fa_zero : forall o, di_size di <= o < MAXFILE * BSIZE -> file_byte (cur s) di o = 0
}.

(** Operations on other inodes keep a file. *)
Lemma touched_bytes inum s s' own own' j di nb ib : img_ok s own -> img_ok s' own' -> touches inum s s' own own' -> j <> inum ->
  maps (cur s) own j di nb ib ->
  maps (cur s') own' j di nb ib /\ forall off, 0 <= off < MAXFILE * BSIZE -> file_byte (cur s') di off = file_byte (cur s) di off.
Proof.
  intros H H' [T1 T2 T3 T4 T5] Hj Hm.
  assert (cur s' (ind di) = cur s (ind di)) as Hind.
  { pose proof (mp_ind _ _ _ _ _ _ Hm) as Hi. destruct ib; [by eapply T2|]. destruct Hi as [-> _]. by rewrite (io_boot _ _ H), (io_boot _ _ H'). }
  split; [by eapply maps_frame|]. intros off Hoff. unfold file_byte. rewrite (addr_same _ (cur s')) by done. f_equal. consts.
  assert (0 <= off / 512 < 138) by (split; [apply Z.div_pos; lia|apply Z.div_lt_upper_bound; lia]).
  destruct (decide (off / 512 < nb)).
  - eapply T2, Hj. apply (mp_in _ _ _ _ _ _ Hm). lia.
  - rewrite (mp_out _ _ _ _ _ _ Hm) by (consts; lia). by rewrite (io_boot _ _ H), (io_boot _ _ H').
Qed.

Lemma file_frame inum s s' own own' j nb di c : img_ok s own -> img_ok s' own' -> touches inum s s' own own' -> j <> inum ->
  file_at s own j nb di c -> file_at s' own' j nb di c.
Proof.
  intros H H' HT Hj [F1 F2 F3 F4 F5 F6 F7]. destruct (touched_bytes _ _ _ _ _ _ _ _ _ H H' HT Hj F5) as [Hm Hb].
  split; try done.
  - pose proof (tc_inum _ _ _ _ _ HT). lia.
  - rewrite <- F2. apply HT; [lia|done].
  - rewrite <- F6. unfold file_content. apply file_bytes_ext; [apply F3|]. intros o Ho. apply Hb. lia.
  - intros o Ho. pose proof (do_size _ F3). rewrite Hb by lia. by apply F7.
Qed.

Lemma length_content_at s own inum nb di c : file_at s own inum nb di c -> di_size di = Z.of_nat (length c).
Proof. intros [_ _ F3 _ _ F6 _]. pose proof (do_size _ F3). rewrite <- F6, length_content; lia. Qed.

Lemma addrs_range s own inum di nb ib : img_ok s own -> maps (cur s) own inum di nb ib ->
  Forall (fun a => 0 <= a < 4294967296) (di_addrs di).
Proof.
  intros H Hm. apply Forall_lookup. intros k a Hk. pose proof (lookup_lt_Some _ _ _ Hk) as Hlt. rewrite (mp_addrs _ _ _ _ _ _ Hm) in Hlt.
  destruct (decide (k = 10)%nat) as [->|].
  - pose proof (ind_range _ _ _ _ _ _ H Hm) as Hi. unfold ind in Hi. consts. rewrite Hk in Hi. cbn in Hi. unfold fssize in Hi. lia.
  - pose proof (addr_range _ _ _ _ _ _ (Z.of_nat k) H Hm ltac:(consts; lia)) as Ha. unfold addr_of in Ha. consts.
    destruct (Z.ltb_spec (Z.of_nat k) 10); [|lia]. rewrite Nat2Z.id, Hk in Ha. cbn in Ha. unfold fssize in Ha. lia.
Qed.

(** The other fields of the inode. *)
Definition same_but_size (di di' : dinode) : Prop := di' = with_size (di_size di') (set_addrs (di_addrs di') di).

Lemma dinode_ok_grown di di' n : dinode_ok di -> same_inode di di' -> 0 <= n < 4294967296 ->
  length (di_addrs di') = 11%nat -> Forall (fun a => 0 <= a < 4294967296) (di_addrs di') -> dinode_ok (with_size n di').
Proof. intros [] E Hn Hl Hf. rewrite E. by split. Qed.

(** The inode is stored: its contents are those of the blocks it names. *)
Lemma winode_file s own inum nb di : img_ok s own -> 1 <= inum < m_freeinode s -> dinode_ok di -> di_size di <= MAXFILE * BSIZE ->
  maps (cur s) own inum di nb (NDIRECT <? nb) -> (forall o, di_size di <= o < MAXFILE * BSIZE -> file_byte (cur s) di o = 0) ->
  exists s', winode inum di s = Ret tt s' /\ img_ok s' own /\ file_at s' own inum nb di (file_content (cur s) di) /\
    touches inum s s' own own /\ m_freeblock s' = m_freeblock s /\ m_freeinode s' = m_freeinode s.
Proof.
  intros H Hi Hok Hsz Hm Hz. assert (0 <= inum <= ninodes) as Hr by (pose proof (io_inum _ _ H); lia).
  destruct (winode_ok s own inum di H Hr Hok) as (s' & E & H' & Hat & Hother & Hcur & Hf & Hn).
  assert (forall y k, own !! y = Some k -> cur s' y = cur s y) as Ho.
  { intros y k Hy. apply Hcur. apply (io_own _ _ H) in Hy. lia. }
  assert (cur s' (ind di) = cur s (ind di)) as Hind.
  { pose proof (mp_ind _ _ _ _ _ _ Hm) as Hx. destruct (NDIRECT <? nb); [by eapply Ho|]. destruct Hx as [-> _]. apply Hcur. lia. }
  assert (forall o, 0 <= o < MAXFILE * BSIZE -> file_byte (cur s') di o = file_byte (cur s) di o) as Hby.
  { intros o Hoff. unfold file_byte. rewrite (addr_same _ (cur s')) by done. f_equal. change (MAXFILE * BSIZE) with 70656 in *. consts.
    assert (0 <= o / 512 < 138) by (split; [apply Z.div_pos; lia|apply Z.div_lt_upper_bound; lia]).
    destruct (decide (o / 512 < nb)).
    + eapply Ho, (mp_in _ _ _ _ _ _ Hm). lia.
    + rewrite (mp_out _ _ _ _ _ _ Hm) by (consts; lia). apply Hcur. lia. }
  pose proof (do_size _ Hok). exists s'. split_and!; try done.
  - split; [lia|done|done|done|by eapply maps_frame|..].
    + unfold file_content. apply file_bytes_ext; [lia|]. intros o Hoff. apply Hby. lia.
    + intros o Hoff. rewrite Hby by lia. by apply Hz.
  - split; try done; [by intros y j k Hy _; eapply Ho|intros j Hj Hne; apply Hother; lia|apply Hcur; lia|lia].
Qed.

(** [iappend] adds [p] to the end of the file. *)
Lemma iappend_spec s own inum di c p : img_ok s own -> file_at s own inum (blocks (di_size di)) di c ->
  Forall is_byte p -> di_size di + Z.of_nat (length p) <= MAXFILE * BSIZE -> room_for s (di_size di) (Z.of_nat (length p)) ->
  let n := di_size di + Z.of_nat (length p) in
  exists di' s' own', iappend inum p s = Ret tt s' /\ img_ok s' own' /\ file_at s' own' inum (blocks n) di' (c ++ p) /\
    di_size di' = n /\ same_but_size di di' /\ touches inum s s' own own' /\ m_freeinode s' = m_freeinode s /\
    m_freeblock s' = m_freeblock s + charge (blocks n) - charge (blocks (di_size di)).
Proof.
  intros H HF Hp Hmax Hroom n. pose proof HF as [F1 F2 F3 F4 F5 F6 F7]. pose proof (do_size _ F3) as Hsz.
  assert (0 <= inum <= ninodes) as Hi by (pose proof (io_inum _ _ H); lia).
  destruct (append_loop_spec (loop_bound (Z.of_nat (length p))) s own inum di (di_size di) c p)
    as (di1 & s1 & own1 & E1 & [Ho1 Ho2 Ho3 Ho4 Ho5] & Hk & Hs & Hf1); try done.
  { split; [done|lia|done|exact F6|exact F7]. }
  { right. unfold loop_bound. change BSIZE with 512. pose proof (Z.mod_pos_bound (di_size di) 512 ltac:(lia)).
    pose proof (Z.div_mod (Z.of_nat (length p)) 512 ltac:(lia)). pose proof (Z.mod_pos_bound (Z.of_nat (length p)) 512 ltac:(lia)).
    pose proof (Z.div_pos (Z.of_nat (length p)) 512). lia. }
  fold n in E1, Ho2, Ho3, Ho4, Hf1. change (MAXFILE * BSIZE) with 70656 in *. pose proof (kp_inum _ _ _ _ _ Hk) as Hki.
  destruct (winode_file s1 own1 inum (blocks n) (with_size n di1)) as (s' & E2 & H' & HF' & HT & Hf2 & Hi2); try done.
  { lia. }
  { eapply dinode_ok_grown; [exact F3|done|lia|apply Ho3|by eapply addrs_range]. }
  { by destruct Ho3. }
  exists (with_size n di1), s', own1. split_and!; try done; try lia.
  - unfold iappend. rewrite (bind_eq _ _ _ _ _ (rinode_ok _ _ _ H Hi)). rewrite F2, (xint_id (di_size di)) by lia.
    rewrite (bind_eq _ _ _ _ _ E1). cbn [fst snd]. by rewrite xint_id by lia.
  - rewrite <- Ho4. exact HF'.
  - unfold same_but_size. cbn. unfold same_inode in Hs. rewrite Hs at 1. done.
  - eapply touches_trans, HT. apply kept_touches; [exact Ho1|apply H|exact Hk].
Qed.

Definition fresh_inode (type : Z) : dinode := Dinode type 0 0 1 0 (replicate 11 0) 0 0 0.

Lemma fresh_maps s own inum type : img_ok s own -> maps (cur s) own inum (fresh_inode type) 0 (NDIRECT <? 0).
Proof.
  intros H. split; cbn; [done|consts; lia|lia| |consts; done].
  intros bn Hbn. unfold addr_of. consts. cbn [fresh_inode di_addrs]. destruct (Z.ltb_spec bn 10).
  - destruct (replicate 11 0 !! Z.to_nat bn) as [a|] eqn:E; [|done]. by apply lookup_replicate in E as [-> _].
  - change (default 0 (replicate 11 0 !! 10%nat)) with 0. rewrite (io_boot _ _ H). apply get32_zblock.
Qed.

Lemma fresh_zero s own type : img_ok s own -> forall o, 0 <= o < MAXFILE * BSIZE -> file_byte (cur s) (fresh_inode type) o = 0.
Proof.
  intros H o Ho. unfold file_byte. change (MAXFILE * BSIZE) with 70656 in Ho. consts.
  rewrite (mp_out _ _ _ _ _ _ (fresh_maps s own 0 type H)), (io_boot _ _ H); [apply zero_byte|]. consts.
  split; [apply Z.div_pos; lia|apply Z.div_lt_upper_bound; lia].
Qed.

Lemma ialloc_spec s own type : img_ok s own -> m_freeinode s < ninodes -> 0 < type < 5 ->
  let inum := m_freeinode s in
  exists s', ialloc type s = Ret inum s' /\ img_ok s' own /\ file_at s' own inum 0 (fresh_inode type) [] /\
    touches inum s s' own own /\ m_freeblock s' = m_freeblock s /\ m_freeinode s' = inum + 1.
Proof.
  intros H Hn Ht inum. pose proof (io_inum _ _ H) as Hi. fold inum in Hn, Hi. unfold ninodes in Hn.
  set (s1 := Mst (m_img s) (m_len s) (m_freeblock s) (m_usedblocks s) (inum + 1)).
  assert (img_ok s1 own) as H1.
  { destruct H. split; try done. cbn. unfold ninodes. lia. }
  destruct (winode_file s1 own inum 0 (fresh_inode type) H1) as (s' & E & H' & HF & HT & Ef & Ei).
  { cbn. lia. } { split; cbn; try lia. split; [done|]. repeat constructor; lia. } { by vm_compute. } { by apply fresh_maps. } { by eapply fresh_zero. }
  exists s'. split_and!; try done.
  - unfold ialloc, new_inum. unfold bind at 1. unfold bind at 1. cbn [get]. unfold bind at 1. cbn [put ret]. fold inum.
    rewrite u32_small by lia. fold s1.
    replace (with_size _ _) with (fresh_inode type).
    2:{ assert (type = 1 \/ type = 2 \/ type = 3 \/ type = 4) as [-> | [-> | [-> | ->]]] by lia; by vm_compute. }
    by rewrite (bind_eq _ _ _ _ _ E).
  - destruct HT as [T1 T2 T3 T4 T5]. split; try done.
    + intros j Hj Hne. apply (T3 j); [cbn; fold inum in Hj; lia|done].
    + rewrite Ei. cbn. lia.
Qed.

(** ** Reading back *)

Section reading.
Context (s : mst) (own : owners) (inum : Z) (di : dinode) (nb : Z) (ib : bool).
Hypotheses (H : img_ok s own) (Hm : maps (cur s) own inum di nb ib) (Hok : dinode_ok di)
  (Hty : 0 < di_type di < 5) (Hdev : di_type di <> T_DEV) (Hsz : di_size di <= MAXFILE * BSIZE).

Lemma rblock_ok bn : 0 <= bn < MAXFILE -> rblock di bn s = Ret (cur s (addr_of (cur s) di bn)) s.
Proof.
  intros Hbn. pose proof (addr_range _ _ _ _ _ _ bn H Hm Hbn) as Ha. pose proof (ind_range _ _ _ _ _ _ H Hm) as Hi. unfold fssize in *.
  unfold rblock. unfold addr_of in *. fold (ind di) in *. consts. destruct (Z.ltb_spec bn 10).
  - rewrite xint_id by lia. apply (rsect_ok _ _ _ H). unfold fssize. lia.
  - change (default 0 (di_addrs di !! 10%nat)) with (ind di) in *.
    destruct (Z.ltb_spec (bn - 10) 128); [|lia]. rewrite (xint_id (ind di)) by lia.
    rewrite (bind_eq _ _ _ _ _ (rsect_ok _ _ (ind di) H ltac:(unfold fssize; lia))).
    rewrite xint_id by lia. apply (rsect_ok _ _ _ H). unfold fssize. lia.
Qed.

Lemma read_loop_spec fuel off n tot dst : 0 <= off -> 0 <= tot <= n -> off + (n - tot) <= MAXFILE * BSIZE ->
  tot = n \/ off `mod` 512 + (n - tot) <= 512 * Z.of_nat fuel ->
  read_loop fuel di off n tot dst s = Ret (dst ++ file_bytes (cur s) di off (n - tot)) s.
Proof.
  change (MAXFILE * BSIZE) with 70656.
  revert off tot dst. induction fuel as [|fuel IH]; intros off tot dst Hoff Htot Hmax Hf;
    pose proof (Z.mod_pos_bound off 512 ltac:(lia)) as Hmod; pose proof (Z.div_mod off 512 ltac:(lia)) as Hdm;
    destruct (decide (tot = n)) as [->|Hne]; try (destruct Hf; lia).
  1, 2: cbn [read_loop]; rewrite Z.ltb_irrefl; unfold file_bytes; rewrite zrange_nil, app_nil_r by lia; done.
  cbn [read_loop]. destruct (Z.ltb_spec tot n); [|lia]. consts.
  assert (0 <= off / 512 < 138) by (split; [apply Z.div_pos; lia|apply Z.div_lt_upper_bound; lia]).
  rewrite (bind_eq _ _ _ _ _ (rblock_ok (off / 512) ltac:(consts; lia))). cbv zeta.
  set (m := Z.min (n - tot) (512 - off `mod` 512)). rewrite u32_small by lia. destruct Hf as [|Hf]; [lia|].
  rewrite IH; [|lia..|].
  - rewrite <- app_assoc. do 2 f_equal. replace (n - tot) with (m + (n - (tot + m))) by lia. rewrite file_bytes_app by lia.
    f_equal. symmetry. apply file_bytes_block; change BSIZE with 512; try lia. apply (io_block _ _ H).
  - unfold m. destruct (Z.min_spec (n - tot) (512 - off `mod` 512)) as [[? ->]|[? ->]]; [left; lia|right].
    replace (off + (512 - off `mod` 512)) with (0 + (off / 512 + 1) * 512) by lia.
    rewrite Z.mod_add by lia. rewrite Z.mod_0_l by lia. lia.
Qed.

Lemma mkfs_readi_spec off n : 0 <= off <= di_size di -> 0 <= n < 65536 ->
  let k := Z.min n (di_size di - off) in readi di off n s = Ret (k, file_bytes (cur s) di off k) s.
Proof.
  intros Hoff Hn k. change (MAXFILE * BSIZE) with 70656 in Hsz. unfold readi. rewrite !xint_id by lia.
  destruct (Z.eqb_spec (di_type di) T_DEV); [done|]. rewrite (u32_small (off + n)) by lia.
  destruct (Z.ltb_spec (di_size di) off); [lia|]. destruct (Z.ltb_spec (off + n) off); [lia|]. cbn [orb]. cbv zeta.
  assert ((if di_size di <? off + n then u32 (di_size di - off) else n) = k) as ->.
  { unfold k. destruct (Z.ltb_spec (di_size di) (off + n)); [rewrite u32_small by lia|]; lia. }
  assert (0 <= k) by lia.
  assert (read_loop (loop_bound k) di off k 0 [] s = Ret ([] ++ file_bytes (cur s) di off (k - 0)) s) as E.
  { apply read_loop_spec; try lia; [change (MAXFILE * BSIZE) with 70656; lia|]. right. unfold loop_bound. change BSIZE with 512.
    pose proof (Z.mod_pos_bound off 512 ltac:(lia)). pose proof (Z.div_mod k 512 ltac:(lia)). pose proof (Z.mod_pos_bound k 512 ltac:(lia)).
    pose proof (Z.div_pos k 512). lia. }
  rewrite (bind_eq _ _ _ _ _ E). rewrite app_nil_l, Z.sub_0_r. unfold ret. by rewrite s32_small by lia.
Qed.

Lemma sum_loop_spec fuel off c : 0 <= off <= di_size di -> di_size di - off <= 2048 * (Z.of_nat fuel - 1) ->
  sum_loop fuel di off c s = Ret (Z.lxor c (checksum (file_bytes (cur s) di off (di_size di - off)))) s.
Proof.
  revert off c. induction fuel as [|fuel IH]; intros off c Hoff Hf; [lia|]. change (MAXFILE * BSIZE) with 70656 in Hsz.
  cbn [sum_loop]. rewrite (bind_eq _ _ _ _ _ (mkfs_readi_spec off 2048 Hoff ltac:(lia))). cbn [fst snd].
  set (k := Z.min 2048 (di_size di - off)). rewrite (u32_small k) by lia. destruct (Z.ltb_spec 0 k).
  - rewrite u32_small, IH by lia. rewrite (xor_words_fill 512) by (rewrite length_file_bytes; lia). rewrite Z.lxor_assoc.
    do 2 f_equal. replace (di_size di - off) with (k + (di_size di - (off + k))) by lia. rewrite file_bytes_app by lia.
    destruct (decide (k = 2048)) as [E|].
    + rewrite checksum_app; [done|]. rewrite length_file_bytes by lia. rewrite E. by exists 512.
    + replace (di_size di - (off + k)) with 0 by lia. unfold file_bytes. rewrite (zrange_nil (off + k)) by lia.
      cbn [fmap list_fmap]. rewrite app_nil_r. cbn [checksum le_dec]. by rewrite Z.lxor_0_r.
  - replace (di_size di - off) with 0 by lia. unfold file_bytes. rewrite zrange_nil by lia. cbn. by rewrite Z.lxor_0_r.
Qed.

Lemma mkfs_ichecksum_spec : ichecksum di s = Ret (checksum (file_content (cur s) di)) s.
Proof.
  pose proof (do_size _ Hok). unfold ichecksum. rewrite sum_loop_spec; [by rewrite Z.lxor_0_l, Z.sub_0_r|lia|].
  unfold loop_bound. change BSIZE with 512. pose proof (Z.div_mod (di_size di) 512 ltac:(lia)).
  pose proof (Z.mod_pos_bound (di_size di) 512 ltac:(lia)). pose proof (Z.div_pos (di_size di) 512). lia.
Qed.
End reading.
