(* ===== verification/MkfsBuild.v ===== *)
(** What each part of mkfs.c adds to the image: the empty image, the files of the
    command line, the rounded root directory and its dittos. *)
From S2P Require Import Prelude Bio Cache Log LogSpec Trans Str Fs FsView Alloc Content Verify Write Mkfs MkfsInv MkfsIO.

(** ** Growing a file *)

(** [p] has been added to inode [inum], and nothing else has changed. *)
Record grown (inum : Z) (s : mst) (own : owners) (di : dinode) (c p : list Z) (di' : dinode) (s' : mst) (own' : owners) : Prop := {
  gr_ok : img_ok s' own';
  gr_size : di_size di' = di_size di + Z.of_nat (length p);
  gr_file : file_at s' own' inum (blocks (di_size di')) di' (c ++ p);
  gr_same : same_but_size di di';
  gr_touch : touches inum s s' own own';
  gr_inum : m_freeinode s' = m_freeinode s;
  gr_free : m_freeblock s' = m_freeblock s + charge (blocks (di_size di')) - charge (blocks (di_size di))
}.

Lemma touches_refl inum s own : touches inum s s own own.
Proof. split; done. Qed.

Lemma same_but_size_trans d1 d2 d3 : same_but_size d1 d2 -> same_but_size d2 d3 -> same_but_size d1 d3.
Proof. unfold same_but_size. intros -> ->. done. Qed.

Lemma grown_refl inum s own di c : img_ok s own -> file_at s own inum (blocks (di_size di)) di c -> grown inum s own di c [] di s own.
Proof. intros H HF. split; try done; [cbn; lia|by rewrite app_nil_r|by destruct di|lia]. Qed.

Lemma grown_trans inum s1 s2 s3 o1 o2 o3 d1 d2 d3 c p q :
  grown inum s1 o1 d1 c p d2 s2 o2 -> grown inum s2 o2 d2 (c ++ p) q d3 s3 o3 -> grown inum s1 o1 d1 c (p ++ q) d3 s3 o3.
Proof.
  intros [A1 A2 A3 A4 A5 A6 A7] [B1 B2 B3 B4 B5 B6 B7]. split; try done.
  - rewrite length_app. lia.
  - by rewrite app_assoc.
  - by eapply same_but_size_trans.
  - by eapply touches_trans.
  - congruence.
  - lia.
Qed.

(** Room for [n] more bytes: in the file, and in the image. *)
Record fits (s : mst) (di : dinode) (n : Z) : Prop := {
  fi_size : di_size di + n <= MAXFILE * BSIZE;
  fi_room : room_for s (di_size di) n
}.

Lemma fits_le s di m n : m <= n -> fits s di n -> fits s di m.
Proof.
  intros H [F1 F2]. split; [lia|]. unfold room_for in *.
  assert (charge (blocks (di_size di + m)) <= charge (blocks (di_size di + n))); [|lia]. apply charge_mono, blocks_mono. lia.
Qed.

Lemma fits_grown inum s own di c p di' s' own' n : grown inum s own di c p di' s' own' ->
  fits s di (Z.of_nat (length p) + n) -> fits s' di' n.
Proof.
  intros [_ G2 _ _ _ _ G7] [F1 F2]. split; [lia|]. unfold room_for in *. rewrite G2 in *.
  rewrite <- Z.add_assoc. lia.
Qed.

Lemma iappend_grown s own inum di c p : img_ok s own -> file_at s own inum (blocks (di_size di)) di c -> Forall is_byte p ->
  fits s di (Z.of_nat (length p)) -> exists di' s' own', iappend inum p s = Ret tt s' /\ grown inum s own di c p di' s' own'.
Proof.
  intros H HF Hp [F1 F2]. destruct (iappend_spec s own inum di c p H HF Hp F1 F2) as (di' & s' & own' & E & H' & HF' & Es & Hs & HT & Ei & Ef).
  exists di', s', own'. split; [done|]. rewrite <- Es in HF', Ef. by split.
Qed.

(** The loop that copies a file of the host. *)
Lemma copy_file_spec fuel s own inum di c data : img_ok s own -> file_at s own inum (blocks (di_size di)) di c -> Forall is_byte data ->
  fits s di (Z.of_nat (length data)) -> Z.of_nat (length data) <= 512 * (Z.of_nat fuel - 1) ->
  exists di' s' own', copy_file fuel inum data s = Ret tt s' /\ grown inum s own di c data di' s' own'.
Proof.
  revert s own di c data. induction fuel as [|fuel IH]; intros s own di c data H HF Hd Hfit Hfuel; [lia|].
  cbn [copy_file]. destruct (decide (data = [])) as [->|Hne].
  { exists di, s, own. split; [done|by apply grown_refl]. }
  assert (length data <> 0%nat) as Hn0 by (by intros Hn%nil_length_inv).
  assert (0 < Z.of_nat (length (take 512 data))) as Hpos by (rewrite length_take; lia).
  assert (Z.of_nat (length data) = Z.of_nat (length (take 512 data)) + Z.of_nat (length (drop 512 data))) as El.
  { rewrite length_take, length_drop. lia. }
  destruct (Z.ltb_spec 0 (Z.of_nat (length (take 512 data)))); [|lia].
  destruct (iappend_grown s own inum di c (take 512 data)) as (di1 & s1 & own1 & E1 & G1); try done.
  { by apply Forall_take. } { eapply fits_le; [|done]. lia. }
  destruct (IH s1 own1 di1 (c ++ take 512 data) (drop 512 data)) as (di' & s' & own' & E2 & G2); try apply G1.
  { by apply Forall_drop. } { eapply fits_grown; [done|]. by rewrite <- El. } { rewrite length_drop. lia. }
  exists di', s', own'. rewrite (bind_eq _ _ _ _ _ E1). split; [done|]. rewrite <- (take_drop 512 data). by eapply grown_trans.
Qed.

(** The loop that copies an inode's contents to another inode. *)
Lemma copy_loop_spec fuel s own j src nb ib inum di c off : img_ok s own -> maps (cur s) own j src nb ib ->
  0 < di_type src < 5 -> di_type src <> T_DEV -> di_size src <= MAXFILE * BSIZE -> j <> inum ->
  file_at s own inum (blocks (di_size di)) di c -> 0 <= off <= di_size src -> fits s di (di_size src - off) ->
  Forall is_byte (file_bytes (cur s) src off (di_size src - off)) -> di_size src - off <= 512 * (Z.of_nat fuel - 1) ->
  exists di' s' own', copy_loop fuel src inum off s = Ret tt s' /\
    grown inum s own di c (file_bytes (cur s) src off (di_size src - off)) di' s' own'.
Proof.
  intros H Hm Hty Hdev Hsz Hj. revert s own di c off H Hm.
  induction fuel as [|fuel IH]; intros s own di c off H Hm HF Hoff Hfit Hb Hfuel; [lia|].
  cbn [copy_loop]. rewrite (bind_eq _ _ _ _ _ (mkfs_readi_spec s own j src nb ib H Hm Hty Hdev Hsz off 512 Hoff ltac:(lia))).
  cbn [fst snd]. set (k := Z.min 512 (di_size src - off)). change (MAXFILE * BSIZE) with 70656 in Hsz. rewrite (u32_small k) by lia.
  destruct (Z.ltb_spec 0 k).
  2:{ exists di, s, own. split; [done|]. replace (di_size src - off) with 0 by lia. unfold file_bytes. rewrite zrange_nil by lia. by apply grown_refl. }
  set (l := file_bytes (cur s) src off k). assert (Z.of_nat (length l) = k) as El by (unfold l; rewrite length_file_bytes; lia).
  assert (take (Z.to_nat k) (fill 512 l) = l) as ->.
  { rewrite fill_short by lia. rewrite take_app_le by lia. apply take_ge. lia. }
  assert (file_bytes (cur s) src off (di_size src - off) = l ++ file_bytes (cur s) src (off + k) (di_size src - (off + k))) as Es.
  { unfold l. rewrite <- file_bytes_app by lia. f_equal. lia. }
  rewrite Es in Hb |- *. apply Forall_app in Hb as [Hb1 Hb2].
  destruct (iappend_grown s own inum di c l H HF Hb1) as (di1 & s1 & own1 & E1 & G1).
  { eapply fits_le; [|done]. lia. }
  destruct (touched_bytes _ _ _ _ _ _ _ _ _ H (gr_ok _ _ _ _ _ _ _ _ _ G1) (gr_touch _ _ _ _ _ _ _ _ _ G1) Hj Hm) as [Hm1 Hsame].
  assert (file_bytes (cur s1) src (off + k) (di_size src - (off + k)) = file_bytes (cur s) src (off + k) (di_size src - (off + k))) as Es1.
  { apply file_bytes_ext; [lia|]. intros o Ho. apply Hsame. change (MAXFILE * BSIZE) with 70656. lia. }
  destruct (IH s1 own1 di1 (c ++ l) (off + k)) as (di' & s' & own' & E2 & G2); try apply G1; try done; try lia.
  { eapply fits_grown; [done|]. rewrite El. by replace (k + (di_size src - (off + k))) with (di_size src - off) by lia. }
  { by rewrite Es1. }
  exists di', s', own'. rewrite (bind_eq _ _ _ _ _ E1), u32_small by lia. split; [done|]. rewrite Es1 in G2. by eapply grown_trans.
Qed.

(** ** The files of the command line *)

(** The name in the directory: a leading underscore is dropped. *)
Definition entry_name (name : list Z) : list Z := if chr name =? 95 then tail name else name.

(** The entries of the root directory, [k] the inode of the first file. *)
Fixpoint entries (k : Z) (files : list (list Z * list Z)) : list Z :=
  match files with
  | [] => []
  | f :: files' => mk_dirent k (entry_name f.1) ++ entries (k + 1) files'
  end.
Definition root_entries (files : list (list Z * list Z)) : list Z :=
  mk_dirent 1 (lit ".") ++ mk_dirent 1 (lit "..") ++ entries 2 files.

(** The blocks the files take. *)
Definition file_cost (files : list (list Z * list Z)) : Z :=
  foldr (fun f n => charge (blocks (Z.of_nat (length f.2))) + n) 0 files.
Definition root_cost (files : list (list Z * list Z)) : Z := charge (blocks (Z.of_nat (length (root_entries files)))).

(** A name that is accepted, and contents that fit a file. *)
Record arg_ok (f : list Z * list Z) : Prop := {
  ar_name : strchr f.1 47 = None;
  ar_name_bytes : Forall is_byte f.1;
  ar_bytes : Forall is_byte f.2;
  ar_size : Z.of_nat (length f.2) <= MAXFILE * BSIZE
}.

Lemma strncpy_bytes l n : Forall is_byte l -> Forall is_byte (strncpy l n).
Proof.
  revert l. induction n as [|n IH]; intros l Hl; [constructor|]. cbn [strncpy].
  destruct l as [|x l]; [by apply Forall_replicate; unfold is_byte; lia|].
  inversion Hl; subst. cbn. repeat case_match; constructor; try done; try (by apply IH); unfold is_byte; try lia.
  all: by apply Forall_replicate; unfold is_byte; lia.
Qed.

Lemma mk_dirent_length k name : length (mk_dirent k name) = 16%nat.
Proof. unfold mk_dirent. by rewrite length_app, length_le_enc, strncpy_length. Qed.

Lemma mk_dirent_bytes k name : Forall is_byte name -> Forall is_byte (mk_dirent k name).
Proof. intros. apply Forall_app. split; [apply le_enc_bytes|by apply strncpy_bytes]. Qed.

Lemma entry_name_bytes name : Forall is_byte name -> Forall is_byte (entry_name name).
Proof. intros H. unfold entry_name. case_match; [|done]. destruct H; [constructor|done]. Qed.

Lemma entries_length k files : length (entries k files) = (16 * length files)%nat.
Proof. revert k. induction files as [|f files IH]; intros k; [done|]. cbn. rewrite length_app, mk_dirent_length, IH. lia. Qed.

Lemma entries_app k l1 l2 : entries k (l1 ++ l2) = entries k l1 ++ entries (k + Z.of_nat (length l1)) l2.
Proof.
  revert k. induction l1 as [|f l1 IH]; intros k; [by rewrite Z.add_0_r|]. cbn [app entries]. rewrite IH, <- app_assoc.
  do 3 f_equal. simpl length. lia.
Qed.

Lemma root_entries_length files : Z.of_nat (length (root_entries files)) = 32 + 16 * Z.of_nat (length files).
Proof. unfold root_entries. rewrite !length_app, !mk_dirent_length, entries_length. lia. Qed.

Lemma root_entries_snoc files f :
  root_entries (files ++ [f]) = root_entries files ++ mk_dirent (2 + Z.of_nat (length files)) (entry_name f.1).
Proof. unfold root_entries. rewrite entries_app. cbn [entries]. by rewrite app_nil_r, !app_assoc. Qed.

Lemma file_cost_snoc files f : file_cost (files ++ [f]) = file_cost files + charge (blocks (Z.of_nat (length f.2))).
Proof. unfold file_cost. induction files as [|g files IH]; cbn; [lia|]. cbn in IH. lia. Qed.

Lemma charge_nonneg n : 0 <= n -> 0 <= charge (blocks n).
Proof. intros. unfold charge. pose proof (blocks_bound n). case_match; lia. Qed.

Lemma file_cost_nonneg files : 0 <= file_cost files.
Proof. induction files as [|f files IH]; cbn; [lia|]. pose proof (charge_nonneg (Z.of_nat (length f.2)) ltac:(lia)). unfold file_cost in IH. lia. Qed.

(** The file is stored, with the checksum of its contents. *)
Record stored (s : mst) (own : owners) (inum type : Z) (c : list Z) : Prop := {
  st_file : file_at s own inum (blocks (Z.of_nat (length c))) (dinode_at (cur s) inum) c;
  st_type : di_type (dinode_at (cur s) inum) = type;
  st_nlink : di_nlink (dinode_at (cur s) inum) = 1;
  st_child : di_child1 (dinode_at (cur s) inum) = 0 /\ di_child2 (dinode_at (cur s) inum) = 0;
  st_sum : di_checksum (dinode_at (cur s) inum) = checksum c
}.

Lemma stored_frame inum s s' own own' j type c : img_ok s own -> img_ok s' own' -> touches inum s s' own own' -> j <> inum ->
  stored s own j type c -> stored s' own' j type c.
Proof.
  intros H H' HT Hj [S1 S2 S3 S4 S5]. pose proof (file_frame _ _ _ _ _ _ _ _ _ H H' HT Hj S1) as HF.
  pose proof (fa_inode _ _ _ _ _ _ HF) as E. split; rewrite ?E; done.
Qed.

(** After some files have been added. *)
Record built (s : mst) (own : owners) (root : dinode) (files : list (list Z * list Z)) : Prop := {
  bt_ok : img_ok s own;
  bt_inum : m_freeinode s = 2 + Z.of_nat (length files);
  bt_root : file_at s own 1 (blocks (di_size root)) root (root_entries files);
  bt_rooti : same_but_size (fresh_inode T_DIR) root;
  bt_files : forall k f, files !! k = Some f -> stored s own (2 + Z.of_nat k) T_FILE f.2;
  bt_free : m_freeblock s = 29 + root_cost files + file_cost files
}.

(** ** One file *)

(** An inode is stored again with other fields, its size and blocks being the same. *)
Lemma update_inode s own inum nb di di' c : img_ok s own -> file_at s own inum nb di c -> dinode_ok di' ->
  di_addrs di' = di_addrs di -> di_size di' = di_size di ->
  exists s', winode inum di' s = Ret tt s' /\ img_ok s' own /\ file_at s' own inum nb di' c /\
    touches inum s s' own own /\ m_freeblock s' = m_freeblock s /\ m_freeinode s' = m_freeinode s.
Proof.
  intros H [F1 F2 F3 F4 F5 F6 F7] Hok Ea Es.
  assert (forall bn, addr_of (cur s) di' bn = addr_of (cur s) di bn) as Eaddr by (intros bn; unfold addr_of; by rewrite Ea).
  assert (file_content (cur s) di' = c) as <-.
  { rewrite <- F6. unfold file_content. rewrite Es. apply file_bytes_ext; [apply F3|]. intros o _. unfold file_byte. by rewrite Eaddr. }
  apply winode_file; try done; [by rewrite Es|..].
  2:{ rewrite Es. intros o Ho. rewrite <- (F7 o Ho). unfold file_byte. by rewrite Eaddr. }
  destruct F5 as [M1 M2 M3 M4 M5].
  split; [by rewrite Ea|done|..].
  - intros bn Hbn. rewrite Eaddr. by apply M3.
  - intros bn Hbn. rewrite Eaddr. by apply M4.
  - unfold ind. by rewrite Ea.
Qed.

Lemma with_checksum_ok di c : dinode_ok di -> Forall is_byte c -> dinode_ok (with_checksum (checksum c) di).
Proof. intros [] Hc. split; try done. cbn. by apply checksum_range. Qed.

Section add_file.
Context (s : mst) (own : owners) (root : dinode) (files : list (list Z * list Z)) (f : list Z * list Z).
Hypotheses (HB : built s own root files) (Hf : arg_ok f) (Hn : m_freeinode s < ninodes)
  (Hroom : 29 + root_cost (files ++ [f]) + file_cost (files ++ [f]) <= fssize).
Let inum : Z := 2 + Z.of_nat (length files).

Lemma root_size : di_size root = 32 + 16 * Z.of_nat (length files).
Proof. rewrite (length_content_at _ _ _ _ _ _ (bt_root _ _ _ _ HB)). apply root_entries_length. Qed.

Lemma root_cost_eq l : root_cost l = charge (blocks (32 + 16 * Z.of_nat (length l))).
Proof. unfold root_cost. by rewrite root_entries_length. Qed.

(** The inode of the file is allocated and its entry added to the root. *)
Lemma add_entry : exists s2 own2 root2, (let! i := ialloc T_FILE in iappend 1 (mk_dirent (xshort i) (entry_name f.1));;; ret i) s = Ret inum s2 /\
    img_ok s2 own2 /\ m_freeinode s2 = inum + 1 /\ m_freeblock s2 = 29 + root_cost (files ++ [f]) + file_cost files /\
    file_at s2 own2 1 (blocks (di_size root2)) root2 (root_entries (files ++ [f])) /\ same_but_size (fresh_inode T_DIR) root2 /\
    file_at s2 own2 inum 0 (fresh_inode T_FILE) [] /\
    (forall k g, files !! k = Some g -> stored s2 own2 (2 + Z.of_nat k) T_FILE g.2) /\ cur s2 1 = cur s 1.
Proof.
  destruct HB as [B1 B2 B3 B4 B5 B6]. pose proof root_size as Ers. unfold ninodes in Hn.
  destruct (ialloc_spec s own T_FILE B1 Hn ltac:(done)) as (s1 & E1 & H1 & HF1 & HT1 & Ef1 & Ei1). rewrite B2 in E1, HF1, HT1, Ei1. fold inum in E1, HF1, HT1, Ei1.
  assert (1 < inum < 200) as Hi by (unfold inum; lia).
  pose proof (file_frame _ _ _ _ _ 1 _ _ _ B1 H1 HT1 ltac:(lia) B3) as HR1.
  pose proof (root_cost_eq files) as Ec1. pose proof (root_cost_eq (files ++ [f])) as Ec2. rewrite length_app in Ec2. cbn in Ec2.
  pose proof (file_cost_snoc files f) as Ec3. pose proof (charge_nonneg (Z.of_nat (length f.2)) ltac:(lia)).
  destruct (iappend_grown s1 own 1 root (root_entries files) (mk_dirent inum (entry_name f.1)) H1 HR1) as (root2 & s2 & own2 & E2 & G).
  { apply mk_dirent_bytes, entry_name_bytes, Hf. }
  { rewrite mk_dirent_length. split; [change (MAXFILE * BSIZE) with 70656; lia|]. unfold room_for. rewrite Ef1, B6, Ers.
    replace (32 + 16 * Z.of_nat (length files) + Z.of_nat 16) with (32 + 16 * Z.of_nat (length files + 1)) by lia. lia. }
  pose proof G as [H2 Gs Gf Gm Gt Gi Gr]. rewrite mk_dirent_length in Gs.
  exists s2, own2, root2. split_and!; try done.
  - rewrite (bind_eq _ _ _ _ _ E1), xshort_id by lia. by rewrite (bind_eq _ _ _ _ _ E2).
  - lia.
  - rewrite Gr, Gs, Ef1, B6, Ers, Ec1, Ec2.
    replace (32 + 16 * Z.of_nat (length files) + Z.of_nat 16) with (32 + 16 * Z.of_nat (length files + 1)) by lia. lia.
  - rewrite root_entries_snoc. exact Gf.
  - by eapply same_but_size_trans.
  - eapply file_frame; [exact H1|done|exact Gt|lia|done].
  - intros k g Hk. pose proof (lookup_lt_Some _ _ _ Hk). eapply stored_frame; [exact H1|done|exact Gt|lia|].
    eapply stored_frame; [exact B1|done|exact HT1|lia|]. by apply B5.
  - rewrite (tc_sb _ _ _ _ _ Gt). apply HT1.
Qed.

Lemma add_file_spec : exists s' own' root', add_file 1 (f.1, Some f.2) s = Ret tt s' /\ built s' own' root' (files ++ [f]) /\
  cur s' 1 = cur s 1.
Proof.
  pose proof Hf as [Hname _ Hbytes Hsize]. destruct add_entry as (s2 & own2 & root2 & E2 & H2 & Ei2 & Ef2 & HR & Hri & HF & Hst & Hsb).
  assert (blocks (di_size (fresh_inode T_FILE)) = 0) as Eb0 by done. rewrite <- Eb0 in HF.
  destruct (copy_file_spec (loop_bound (Z.of_nat (length f.2))) s2 own2 inum (fresh_inode T_FILE) [] f.2 H2 HF Hbytes) as (di3 & s3 & own3 & E3 & G).
  { split; [done|]. unfold room_for. change (charge (blocks (di_size (fresh_inode T_FILE)))) with 0. cbn [fresh_inode di_size].
    pose proof (file_cost_snoc files f). rewrite Z.add_0_l. lia. }
  { unfold loop_bound. change BSIZE with 512. pose proof (Z.div_mod (Z.of_nat (length f.2)) 512 ltac:(lia)).
    pose proof (Z.mod_pos_bound (Z.of_nat (length f.2)) 512 ltac:(lia)). pose proof (Z.div_pos (Z.of_nat (length f.2)) 512). lia. }
  pose proof G as [H3 Gs Gf Gm Gt Gi Gr]. cbn [fresh_inode di_size] in Gs. rewrite app_nil_l in Gf. rewrite Z.add_0_l in Gs.
  pose proof Gf as [F1 F2 F3 F4 F5 F6 _].
  assert (di_type di3 = T_FILE) as Ety by (by rewrite Gm).
  destruct (update_inode s3 own3 inum _ di3 (with_checksum (checksum f.2) di3) f.2 H3 Gf) as (s4 & E4 & H4 & HF4 & HT4 & Ef4 & Ei4);
    [by apply with_checksum_ok|done|done|].
  exists s4, own3, root2. split_and!.
  - unfold add_file, assert. cbn [fst snd]. rewrite Hname. cbv zeta. fold (entry_name f.1).
    unfold bind in E2. unfold bind. cbn [ret]. destruct (ialloc T_FILE s) as [i s1'|? | | |]; try done.
    destruct (iappend 1 _ s1') as [[] s2'|? | | |]; try done. injection E2 as -> ->. rewrite E3.
    rewrite (rinode_ok _ _ inum H3 ltac:(pose proof (io_inum _ _ H3); lia)), F2.
    rewrite (mkfs_readi_spec s3 own3 inum di3 _ _ H3 F5 ltac:(by rewrite Ety) ltac:(by rewrite Ety) F4 0 BSIZE ltac:(pose proof (do_size _ F3); lia) ltac:(done)).
    rewrite (mkfs_ichecksum_spec s3 own3 inum di3 _ _ H3 F5 F3 ltac:(by rewrite Ety) ltac:(by rewrite Ety) F4), F6.
    rewrite xint_id by (by apply checksum_range). exact E4.
  - assert (1 <> inum /\ inum <> 1) as [N1 N2] by (unfold inum; lia).
    split.
    + done.
    + rewrite Ei4, Gi, Ei2, length_app. cbn. unfold inum. lia.
    + eapply file_frame; [exact H3|done|exact HT4|done|]. eapply file_frame; [exact H2|done|exact Gt|done|done].
    + done.
    + intros k g Hk. apply lookup_app_Some in Hk as [Hk|[Hk1 Hk]].
      * pose proof (lookup_lt_Some _ _ _ Hk). eapply stored_frame; [exact H3|done|exact HT4|unfold inum; lia|].
        eapply stored_frame; [exact H2|done|exact Gt|unfold inum; lia|]. by apply Hst.
      * destruct (k - length files)%nat eqn:Ek; [|done]. injection Hk as <-.
        replace (2 + Z.of_nat k) with inum by (unfold inum; lia). pose proof (fa_inode _ _ _ _ _ _ HF4) as Ed.
        split; rewrite Ed; rewrite <- ?Gs; try done; rewrite Gm; done.
    + rewrite Ef4, Gr, Ef2, Gs, file_cost_snoc. change (charge (blocks (di_size (fresh_inode T_FILE)))) with 0. lia.
  - rewrite (tc_sb _ _ _ _ _ HT4), (tc_sb _ _ _ _ _ Gt). exact Hsb.
Qed.
End add_file.

(** ** The empty image *)

Lemma zero_sectors l s : (forall y, cur s y = zblock) -> exists s', forK (fun i => wsect i zblock) l s = Ret tt s' /\
  (forall y, cur s' y = zblock) /\ m_len s' = foldl (fun n i => Z.max n (i + 1)) (m_len s) l /\
  m_freeblock s' = m_freeblock s /\ m_usedblocks s' = m_usedblocks s /\ m_freeinode s' = m_freeinode s.
Proof.
  unfold forK. revert s. induction l as [|i l IH]; intros s Hz; [by exists s|]. cbn [foldK].
  set (s1 := Mst (<[i := zblock]> (m_img s)) (Z.max (m_len s) (i + 1)) (m_freeblock s) (m_usedblocks s) (m_freeinode s)).
  destruct (IH s1) as (s' & E & H1 & H2 & H3 & H4 & H5).
  { intros y. unfold cur, s1. cbn. rewrite disk_insert. case_decide; [done|apply Hz]. }
  exists s'. split_and!; try done.
Qed.

Definition image_sb : superblock := Superblock fssize nblocks ninodes nlog.

Definition sb_block : block :=
  splice zblock 0 (le_enc 4 (xint fssize) ++ le_enc 4 (xint nblocks) ++ le_enc 4 (xint ninodes) ++ le_enc 4 (xint nlog)).

Lemma sb_block_ok : block_ok sb_block /\ sb_of sb_block = image_sb.
Proof. split; [split; [by vm_compute|by_evaluation]|by vm_compute]. Qed.

Lemma image_length : foldl (fun n i => Z.max n (i + 1)) 0 (zrange 0 2048) = 2048.
Proof. by vm_compute. Qed.

Lemma format_spec : exists s, format mkfs_start = Ret tt s /\ img_ok s ∅ /\ m_freeblock s = 29 /\ m_freeinode s = 1 /\ sb_of (cur s 1) = image_sb.
Proof.
  destruct (zero_sectors (zrange 0 2048) (Mst ∅ 0 29 29 1)) as (s1 & E1 & H1 & H2 & H3 & H4 & H5); [by intros|].
  cbn [m_len m_freeblock m_usedblocks m_freeinode] in H2, H3, H4, H5. rewrite image_length in H2.
  destruct sb_block_ok as [Hsb Esb].
  assert (format mkfs_start = Ret tt (Mst (<[1 := sb_block]> (m_img s1)) (Z.max (m_len s1) 2) (m_freeblock s1) (m_usedblocks s1) (m_freeinode s1))) as E.
  { unfold format. cbv zeta. unfold bind at 1. cbn [modify mkfs_start m_img m_len m_freeinode]. unfold assert.
    change (ninodes / IPB + 3 + (fssize / (512 * 8) + 1)) with 29. change (nblocks + 29 + nlog) with 2048. change (2048 =? fssize) with true.
    cbv iota. unfold bind at 1. cbn [ret]. rewrite (bind_eq _ _ _ _ _ E1). reflexivity. }
  clear E1. eexists. split; [exact E|]. clear E.
  assert (forall y, disk_of (<[1 := sb_block]> (m_img s1)) y = if decide (y = 1) then sb_block else zblock) as Hc.
  { intros y. rewrite disk_insert. destruct (decide (y = 1)); [reflexivity|apply H1]. }
  revert Hsb Esb Hc. generalize sb_block. intros sb Hsb Esb Hc. unfold cur. cbn.
  split_and!; [|lia|lia|rewrite Hc; exact Esb]. split; cbn; unfold fssize, ninodes, cur in *; cbn.
  - lia.
  - intros x. rewrite Hc. destruct (decide (x = 1)); [exact Hsb|apply zblock_ok].
  - by rewrite Hc.
  - lia.
  - intros x Hx. by rewrite Hc, decide_False by lia.
  - lia.
  - intros x k Hx. by rewrite lookup_empty in Hx.
  - lia.
Qed.

(** The root directory with its first two entries. *)
Lemma root_spec : exists s own root, (format;;; let! r := ialloc T_DIR in assert (r =? ROOTINO);;;
    iappend r (mk_dirent (xshort r) (lit "."));;; iappend r (mk_dirent (xshort r) (lit ".."))) mkfs_start = Ret tt s /\
  built s own root [] /\ sb_of (cur s 1) = image_sb.
Proof.
  destruct format_spec as (s0 & E0 & H0 & Ef0 & Ei0 & Esb).
  destruct (ialloc_spec s0 ∅ T_DIR H0 ltac:(by rewrite Ei0) ltac:(done)) as (s1 & E1 & H1 & HF1 & HT1 & Ef1 & Ei1). rewrite Ei0 in *.
  assert (blocks (di_size (fresh_inode T_DIR)) = 0) as Eb0 by done. rewrite <- Eb0 in HF1.
  destruct (iappend_grown s1 ∅ 1 (fresh_inode T_DIR) [] (mk_dirent 1 (lit ".")) H1 HF1) as (d2 & s2 & own2 & E2 & G2).
  { by_evaluation. } { split; [by vm_compute|]. unfold room_for. rewrite Ef1, Ef0. by vm_compute. }
  pose proof G2 as [H2 Gs2 Gf2 Gm2 Gt2 Gi2 Gr2]. change (di_size (fresh_inode T_DIR) + Z.of_nat (length (mk_dirent 1 (lit ".")))) with 16 in Gs2.
  destruct (iappend_grown s2 own2 1 d2 _ (mk_dirent 1 (lit "..")) H2 Gf2) as (root & s3 & own3 & E3 & G3).
  { by_evaluation. } { rewrite mk_dirent_length. split; rewrite ?Gs2; [by vm_compute|]. unfold room_for. rewrite Gr2, Gs2, Ef1, Ef0. by vm_compute. }
  pose proof G3 as [H3 Gs3 Gf3 Gm3 Gt3 Gi3 Gr3]. rewrite mk_dirent_length, Gs2 in Gs3.
  exists s3, own3, root. split_and!.
  - rewrite (bind_eq _ _ _ _ _ E0), (bind_eq _ _ _ _ _ E1). unfold assert. change (1 =? ROOTINO) with true. cbv iota.
    unfold bind at 1. cbn [ret]. change (xshort 1) with 1. by rewrite (bind_eq _ _ _ _ _ E2).
  - split; try done.
    + cbn. lia.
    + by eapply same_but_size_trans.
    + rewrite Gr3, Gr2, Gs3, Gs2, Ef1, Ef0. by vm_compute.
  - by rewrite (tc_sb _ _ _ _ _ Gt3), (tc_sb _ _ _ _ _ Gt2), (tc_sb _ _ _ _ _ HT1).
Qed.

(** All the files. *)
Definition args (files : list (list Z * list Z)) : list (list Z * option (list Z)) := (fun f => (f.1, Some f.2)) <$> files.

Definition cost (files : list (list Z * list Z)) : Z := 29 + root_cost files + file_cost files.

Lemma file_cost_app l1 l2 : file_cost (l1 ++ l2) = file_cost l1 + file_cost l2.
Proof. unfold file_cost. induction l1 as [|f l1 IH]; cbn; [lia|]. lia. Qed.

Lemma cost_app l1 l2 : cost l1 <= cost (l1 ++ l2).
Proof.
  unfold cost. rewrite file_cost_app, !root_cost_eq, length_app. pose proof (file_cost_nonneg l2).
  assert (charge (blocks (32 + 16 * Z.of_nat (length l1))) <= charge (blocks (32 + 16 * Z.of_nat (length l1 + length l2)))); [|lia].
  apply charge_mono, blocks_mono. lia.
Qed.

Lemma add_files_spec l s own root files : built s own root files -> Forall arg_ok l ->
  2 + Z.of_nat (length (files ++ l)) <= ninodes -> cost (files ++ l) <= fssize ->
  exists s' own' root', forK (add_file 1) (args l) s = Ret tt s' /\ built s' own' root' (files ++ l) /\ cur s' 1 = cur s 1.
Proof.
  unfold forK, args. revert s own root files. induction l as [|f l IH]; intros s own root files HB Hl Hn Hc.
  { exists s, own, root. by rewrite app_nil_r. }
  apply Forall_cons in Hl as [Hf Hl]. rewrite length_app in Hn. simpl length in Hn.
  replace (files ++ f :: l) with ((files ++ [f]) ++ l) in * by (by rewrite <- app_assoc).
  pose proof (cost_app (files ++ [f]) l). unfold cost in *.
  destruct (add_file_spec s own root files f HB Hf) as (s1 & own1 & root1 & E1 & HB1 & Hs1).
  { rewrite (bt_inum _ _ _ _ HB). lia. } { lia. }
  destruct (IH s1 own1 root1 (files ++ [f]) HB1 Hl) as (s' & own' & root' & E2 & HB2 & Hs2).
  { rewrite !length_app. simpl length. lia. } { done. }
  exists s', own', root'. cbn [fmap list_fmap foldK]. rewrite (bind_eq _ _ _ _ _ E1). split_and!; [done|done|congruence].
Qed.

(** ** The root directory *)

(** The size of the root directory after rounding, and its contents. *)
Definition round_up (n : Z) : Z := (n / BSIZE + 1) * BSIZE.
Definition root_bytes (files : list (list Z * list Z)) : list Z :=
  let l := root_entries files in l ++ replicate (Z.to_nat (round_up (Z.of_nat (length l))) - length l) 0.

Lemma round_up_bound n : 0 <= n -> n < round_up n <= n + 512.
Proof.
  intros. unfold round_up. change BSIZE with 512. pose proof (Z.div_mod n 512 ltac:(lia)). pose proof (Z.mod_pos_bound n 512 ltac:(lia)). lia.
Qed.

Lemma root_bytes_length files : Z.of_nat (length (root_bytes files)) = round_up (Z.of_nat (length (root_entries files))).
Proof.
  unfold root_bytes. rewrite length_app, length_replicate. pose proof (round_up_bound (Z.of_nat (length (root_entries files))) ltac:(lia)). lia.
Qed.

Lemma root_entries_bytes files : Forall arg_ok files -> Forall is_byte (root_entries files).
Proof.
  intros H. unfold root_entries. apply Forall_app. split; [by_evaluation|]. apply Forall_app. split; [by_evaluation|].
  generalize 2. induction H as [|f l Hf Hl IH]; intros k; [constructor|]. cbn [entries]. apply Forall_app.
  split; [apply mk_dirent_bytes, entry_name_bytes, Hf|apply IH].
Qed.

Lemma root_bytes_ok files : Forall arg_ok files -> Forall is_byte (root_bytes files).
Proof. intros H. apply Forall_app. split; [by apply root_entries_bytes|]. apply Forall_replicate. unfold is_byte. lia. Qed.

(** The bytes after the end of a file are zero. *)
Lemma content_grow s own inum nb di c n : file_at s own inum nb di c -> di_size di <= n <= MAXFILE * BSIZE ->
  file_content (cur s) (with_size n di) = c ++ replicate (Z.to_nat n - length c) 0.
Proof.
  intros HF Hn. pose proof (length_content_at _ _ _ _ _ _ HF) as El. destruct HF as [_ _ F3 _ _ F6 F7]. pose proof (do_size _ F3).
  unfold file_content. cbn [with_size di_size]. change (file_bytes (cur s) (with_size n di) 0 n) with (file_bytes (cur s) di 0 n).
  replace n with (di_size di + (n - di_size di)) at 1 by lia. rewrite file_bytes_app, Z.add_0_l by lia. fold (file_content (cur s) di). rewrite F6.
  f_equal. apply list_eq. intros k. unfold file_bytes. rewrite list_lookup_fmap, lookup_zrange. case_decide as Hk.
  - cbn. rewrite F7 by lia. symmetry. apply lookup_replicate. split; [done|lia].
  - cbn. symmetry. apply lookup_replicate_None. lia.
Qed.

Definition rooted (files : list (list Z * list Z)) (root : dinode) : dinode :=
  with_checksum (checksum (root_bytes files)) (with_size (round_up (Z.of_nat (length (root_entries files)))) root).

Lemma fix_root_spec s own root files : built s own root files -> Forall arg_ok files ->
  exists s', fix_root 1 s = Ret tt s' /\ img_ok s' own /\ file_at s' own 1 (blocks (di_size root)) (rooted files root) (root_bytes files) /\
    touches 1 s s' own own /\ m_freeblock s' = m_freeblock s /\ m_freeinode s' = m_freeinode s.
Proof.
  intros [B1 B2 B3 B4 B5 B6] Hargs. pose proof (io_inum _ _ B1) as Hn. unfold ninodes in Hn.
  pose proof (length_content_at _ _ _ _ _ _ B3) as Es. set (R := round_up (Z.of_nat (length (root_entries files)))).
  pose proof (root_entries_length files) as El. pose proof (round_up_bound (Z.of_nat (length (root_entries files))) ltac:(lia)) as HR. fold R in HR.
  assert (file_content (cur s) (with_size R root) = root_bytes files) as Ec.
  { rewrite (content_grow _ _ _ _ _ _ R B3); [done|]. change (MAXFILE * BSIZE) with 70656. lia. }
  pose proof B3 as [F1 F2 F3 F4 F5 F6 F7].
  assert (di_type root = T_DIR) as Ety by (by rewrite B4).
  assert (dinode_ok (with_size R root)) as Hok by (destruct F3; split; try done; cbn; lia).
  assert (maps (cur s) own 1 (with_size R root) (blocks (di_size root)) (NDIRECT <? blocks (di_size root))) as Hm by (by destruct F5).
  assert (ichecksum (with_size R root) s = Ret (checksum (root_bytes files)) s) as Eck.
  { rewrite <- Ec. eapply mkfs_ichecksum_spec; try done; cbn; rewrite ?Ety; try done. change (MAXFILE * BSIZE) with 70656. lia. }
  destruct (winode_file s own 1 (blocks (di_size root)) (rooted files root) B1) as (s' & E & H' & HF & HT & Ef & Ei).
  { lia. } { apply with_checksum_ok; [done|by apply root_bytes_ok]. } { cbn. fold R. change (MAXFILE * BSIZE) with 70656. lia. }
  { by destruct Hm. } { cbn. fold R. intros o Ho. apply (F7 o). lia. }
  exists s'. split_and!; try done.
  - unfold fix_root. rewrite (bind_eq _ _ _ _ _ (rinode_ok _ _ 1 B1 ltac:(done))), F2. rewrite (xint_id (di_size root)) by lia. rewrite Es.
    change ((Z.of_nat (length (root_entries files)) / BSIZE + 1) * BSIZE) with R. rewrite u32_small, xint_id by lia.
    rewrite (bind_eq _ _ _ _ _ Eck). rewrite xint_id by (apply checksum_range; by apply root_bytes_ok). exact E.
  - assert (file_content (cur s) (rooted files root) = root_bytes files) as Ec' by exact Ec. by rewrite Ec' in HF.
Qed.

(** ** The dittos *)

Lemma fill_ditto_spec s own src nb c d : img_ok s own -> file_at s own 1 nb src c -> di_type src = T_DIR -> di_checksum src = checksum c ->
  Forall is_byte c -> file_at s own d 0 (fresh_inode T_DITTO) [] -> 1 <> d ->
  m_freeblock s + charge (blocks (Z.of_nat (length c))) <= fssize ->
  exists s' own', fill_ditto src d s = Ret tt s' /\ img_ok s' own' /\ stored s' own' d T_DITTO c /\ touches d s s' own own' /\
    m_freeblock s' = m_freeblock s + charge (blocks (Z.of_nat (length c))) /\ m_freeinode s' = m_freeinode s.
Proof.
  intros H HF Hty Hck Hc HD Hd Hroom. pose proof (length_content_at _ _ _ _ _ _ HF) as El. pose proof HF as [F1 F2 F3 F4 F5 F6 F7].
  assert (blocks (di_size (fresh_inode T_DITTO)) = 0) as Eb0 by done. rewrite <- Eb0 in HD. pose proof (do_size _ F3) as Hs.
  assert (file_bytes (cur s) src 0 (di_size src - 0) = c) as Ec by (by rewrite Z.sub_0_r).
  destruct (copy_loop_spec (loop_bound (di_size src)) s own 1 src nb _ d (fresh_inode T_DITTO) [] 0 H F5) as (d1 & s1 & own1 & E1 & G); try done.
  { by rewrite Hty. } { by rewrite Hty. } { lia. }
  { split; [cbn; lia|]. unfold room_for. change (di_size (fresh_inode T_DITTO)) with 0. change (charge (blocks 0)) with 0. rewrite !Z.sub_0_r, Z.add_0_l, El. lia. }
  { by rewrite Ec. }
  { unfold loop_bound. change BSIZE with 512. pose proof (Z.div_mod (di_size src) 512 ltac:(lia)). pose proof (Z.mod_pos_bound (di_size src) 512 ltac:(lia)).
    pose proof (Z.div_pos (di_size src) 512). lia. }
  rewrite Ec in G. destruct G as [H1 Gs Gf Gm Gt Gi Gr]. cbn [fresh_inode di_size] in Gs. rewrite Z.add_0_l in Gs. rewrite app_nil_l in Gf.
  set (d2 := with_size (di_size src) (with_checksum (di_checksum src) d1)).
  destruct (update_inode s1 own1 d _ d1 d2 c H1 Gf) as (s2 & E2 & H2 & HF2 & HT2 & Ef2 & Ei2).
  { unfold d2. rewrite Hck, El, <- Gs. pose proof (with_checksum_ok d1 c (fa_ok _ _ _ _ _ _ Gf) Hc) as []. by split. }
  { done. } { cbn. lia. }
  exists s2, own1. split_and!; try done.
  - unfold fill_ditto, copy_dinode_content. rewrite (bind_eq _ _ _ _ _ E1).
    rewrite (bind_eq _ _ _ _ _ (rinode_ok _ _ d H1 ltac:(pose proof (io_inum _ _ H1); pose proof (fa_inum _ _ _ _ _ _ Gf); lia))).
    rewrite (fa_inode _ _ _ _ _ _ Gf). exact E2.
  - rewrite Gs in HF2. pose proof (fa_inode _ _ _ _ _ _ HF2) as Ed. split; rewrite Ed; try done; unfold d2; cbn; rewrite Gm; done.
  - by eapply touches_trans.
  - rewrite Ef2, Gr, Gs. change (charge (blocks (di_size (fresh_inode T_DITTO)))) with 0. lia.
  - congruence.
Qed.

(** The image before the bitmap is written. *)
Record img_built (s : mst) (own : owners) (files : list (list Z * list Z)) : Prop := {
  im_ok : img_ok s own;
  im_root : file_at s own 1 (blocks (Z.of_nat (length (root_entries files)))) (dinode_at (cur s) 1) (root_bytes files);
  im_type : di_type (dinode_at (cur s) 1) = T_DIR /\ di_nlink (dinode_at (cur s) 1) = 1;
  im_sum : di_checksum (dinode_at (cur s) 1) = checksum (root_bytes files);
  im_child1 : di_child1 (dinode_at (cur s) 1) = 2 + Z.of_nat (length files);
  im_child2 : di_child2 (dinode_at (cur s) 1) = 3 + Z.of_nat (length files);
  im_dittos : stored s own (2 + Z.of_nat (length files)) T_DITTO (root_bytes files) /\
              stored s own (3 + Z.of_nat (length files)) T_DITTO (root_bytes files);
  im_files : forall k f, files !! k = Some f -> stored s own (2 + Z.of_nat k) T_FILE f.2;
  im_free : m_freeblock s = cost files + 2 * charge (blocks (Z.of_nat (length (root_bytes files))))
}.

Lemma with_children_ok c1 c2 di : dinode_ok di -> -32768 <= c1 < 32768 -> -32768 <= c2 < 32768 -> dinode_ok (with_children c1 c2 di).
Proof. intros [] H1 H2. by split. Qed.

Lemma s16_small z : 0 <= z < 32768 -> s16 z = z.
Proof.
  intros H. unfold s16. change (u16 z) with (z `mod` 65536). rewrite Z.mod_small by lia. destruct (Z.ltb_spec z 32768); lia.
Qed.

(** Both inodes are allocated, the first is filled, then the second. *)
Lemma two_dittos s own root nb c n F : img_ok s own -> m_freeinode s = 2 + n -> 0 <= n -> n + 4 <= ninodes ->
  file_at s own 1 nb root c -> di_type root = T_DIR -> di_checksum root = checksum c -> Forall is_byte c ->
  m_freeblock s = F -> F + 2 * charge (blocks (Z.of_nat (length c))) <= fssize ->
  exists s' own', (let! d1 := ialloc T_DITTO in let! d2 := ialloc T_DITTO in
      fill_ditto root d1;;; fill_ditto root d2;;; ret (d1, d2)) s = Ret (2 + n, 3 + n) s' /\ img_ok s' own' /\
    stored s' own' (2 + n) T_DITTO c /\ stored s' own' (3 + n) T_DITTO c /\ cur s' 1 = cur s 1 /\
    m_freeinode s' = 4 + n /\ m_freeblock s' = F + 2 * charge (blocks (Z.of_nat (length c))) /\
    (forall j nb di l, 1 <= j < 2 + n -> file_at s own j nb di l -> file_at s' own' j nb di l).
Proof.
  intros H Hinum Hn0 Hn HR Hty Hck Hc Hfree Hroom. unfold ninodes in Hn.
  pose proof (charge_nonneg (Z.of_nat (length c)) ltac:(lia)) as Hch.
  destruct (ialloc_spec s own T_DITTO H ltac:(unfold ninodes; lia) ltac:(done)) as (s1 & E1 & H1 & HF1 & HT1 & Ef1 & Ei1). rewrite Hinum in E1, HF1, HT1, Ei1.
  destruct (ialloc_spec s1 own T_DITTO H1 ltac:(unfold ninodes; lia) ltac:(done)) as (s2 & E2 & H2 & HF2 & HT2 & Ef2 & Ei2).
  replace (m_freeinode s1) with (3 + n) in E2, HF2, HT2, Ei2 by lia.
  assert (forall j nb di l, 1 <= j < 2 + n -> file_at s own j nb di l -> file_at s2 own j nb di l) as Fr2.
  { intros j nb' di l Hj HF. eapply file_frame; [exact H1|exact H2|exact HT2|lia|]. eapply file_frame; [exact H|exact H1|exact HT1|lia|exact HF]. }
  pose proof (Fr2 1 _ _ _ ltac:(lia) HR) as HR2.
  assert (file_at s2 own (2 + n) 0 (fresh_inode T_DITTO) []) as HD by (eapply file_frame; [exact H1|exact H2|exact HT2|lia|exact HF1]).
  destruct (fill_ditto_spec s2 own root nb c (2 + n) H2 HR2 Hty Hck Hc HD ltac:(lia) ltac:(lia)) as (s3 & own3 & E3 & H3 & S3 & HT3 & Ef3 & Ei3).
  assert (forall j nb di l, 1 <= j -> j <> 2 + n -> file_at s2 own j nb di l -> file_at s3 own3 j nb di l) as Fr3.
  { intros j nb' di l Hj Hne HF. eapply file_frame; [exact H2|exact H3|exact HT3|exact Hne|exact HF]. }
  pose proof (Fr3 1 _ _ _ ltac:(lia) ltac:(lia) HR2) as HR3. pose proof (Fr3 (3 + n) _ _ _ ltac:(lia) ltac:(lia) HF2) as HD3.
  destruct (fill_ditto_spec s3 own3 root nb c (3 + n) H3 HR3 Hty Hck Hc HD3 ltac:(lia) ltac:(lia)) as (s4 & own4 & E4 & H4 & S4 & HT4 & Ef4 & Ei4).
  exists s4, own4. split_and!; [| |eapply stored_frame; [exact H3|exact H4|exact HT4|lia|exact S3]| |..|lia|lia|].
  - rewrite (bind_eq _ _ _ _ _ E1), (bind_eq _ _ _ _ _ E2), (bind_eq _ _ _ _ _ E3), (bind_eq _ _ _ _ _ E4). reflexivity.
  - exact H4.
  - exact S4.
  - rewrite (tc_sb _ _ _ _ _ HT4), (tc_sb _ _ _ _ _ HT3), (tc_sb _ _ _ _ _ HT2). apply HT1.
  - intros j nb' di l Hj HF. eapply file_frame; [exact H3|exact H4|exact HT4|lia|]. apply Fr3; [lia|lia|]. by apply Fr2.
Qed.

Lemma add_dittos_spec s own root files : let n := Z.of_nat (length files) in let c := root_bytes files in
  img_ok s own -> Forall arg_ok files -> m_freeinode s = 2 + n -> n + 4 <= ninodes ->
  file_at s own 1 (blocks (Z.of_nat (length (root_entries files)))) root c ->
  di_type root = T_DIR -> di_nlink root = 1 -> di_checksum root = checksum c ->
  (forall k f, files !! k = Some f -> stored s own (2 + Z.of_nat k) T_FILE f.2) ->
  m_freeblock s = cost files -> cost files + 2 * charge (blocks (Z.of_nat (length c))) <= fssize ->
  exists s' own', add_dittos 1 s = Ret tt s' /\ img_built s' own' files /\ cur s' 1 = cur s 1.
Proof.
  intros n c H Hargs Hinum Hn HR Hty Hnl Hck HS Hfree Hroom. assert (0 <= n) as Hn0 by (unfold n; lia).
  destruct (two_dittos s own root _ c n (cost files) H Hinum Hn0 Hn HR Hty Hck (root_bytes_ok files Hargs) Hfree Hroom)
    as (s1 & own1 & E1 & H1 & S1 & S2 & Hsb & Ei & Ef & Fr). unfold ninodes in Hn.
  pose proof (Fr 1 _ _ _ ltac:(lia) HR) as HR1. pose proof (fa_ok _ _ _ _ _ _ HR) as Hok.
  destruct (update_inode s1 own1 1 _ root (with_children (2 + n) (3 + n) root) c H1 HR1) as (s2 & E2 & H2 & HF2 & HT2 & Ef2 & Ei2);
    [apply with_children_ok; [exact Hok|lia|lia]|reflexivity|reflexivity|].
  pose proof (fa_inode _ _ _ _ _ _ HF2) as Ed.
  exists s2, own1. split_and!.
  - unfold add_dittos. rewrite (bind_eq _ _ _ _ _ (rinode_ok _ _ 1 H ltac:(done))), (fa_inode _ _ _ _ _ _ HR).
    unfold bind in E1 |- *. destruct (ialloc T_DITTO s) as [d1 t1|? | | |]; try discriminate E1.
    destruct (ialloc T_DITTO t1) as [d2 t2|? | | |]; try discriminate E1.
    destruct (fill_ditto root d1 t2) as [[] t3|? | | |]; try discriminate E1. destruct (fill_ditto root d2 t3) as [[] t4|? | | |]; try discriminate E1.
    injection E1 as -> -> ->. rewrite (rinode_ok _ _ 1 H1 ltac:(done)), (fa_inode _ _ _ _ _ _ HR1).
    rewrite !xshort_id, !s16_small by lia. exact E2.
  - split; rewrite ?Ed; [exact H2|exact HF2|exact (conj Hty Hnl)|exact Hck|reflexivity|reflexivity| |..].
    + split; eapply stored_frame; [exact H1|exact H2|exact HT2|lia|exact S1|exact H1|exact H2|exact HT2|lia|exact S2].
    + intros k f Hk. pose proof (lookup_lt_Some _ _ _ Hk). eapply stored_frame; [exact H1|exact H2|exact HT2|lia|].
      destruct (HS k f Hk) as [T1 T2 T3 T4 T5]. pose proof (Fr (2 + Z.of_nat k) _ _ _ ltac:(unfold n; lia) T1) as HFk.
      pose proof (fa_inode _ _ _ _ _ _ HFk) as Edk. split; rewrite ?Edk; assumption.
    + rewrite Ef2. exact Ef.
  - rewrite (tc_sb _ _ _ _ _ HT2). exact Hsb.
Qed.
