(* ===== verification/MkfsThms.v ===== *)
(** The image mkfs.c leaves: the kernel finds an empty log, the files with their
    contents and checksums, and a root directory with two dittos. *)
From S2P Require Import Prelude Bio Cache Log LogSpec Trans Str Fs FsView Alloc Content Verify Dir Write FsImage Mkfs MkfsInv MkfsIO MkfsBuild.

(** ** The bitmap *)

Lemma set_bit_mark i d : block_ok d -> bit_index i -> set_bit i d = mark_used i d.
Proof.
  intros Hd Hi. unfold set_bit, mark_used. f_equal. fold (bit_mask i). apply u8_small.
  pose proof (bit_byte i d Hi Hd). pose proof (mark_used_ok d i Hd Hi) as [_ Hb]. unfold mark_used in Hb.
  apply (proj1 (Forall_lookup _ _) Hb (Z.to_nat (i / 8))). apply list_lookup_insert_eq. lia.
Qed.

Lemma bitmap_spec n : (n <= 4096)%nat -> let d := foldl (fun buf i => set_bit i buf) zblock (zrange 0 (Z.of_nat n)) in
  block_ok d /\ forall b, bit_index b -> bit_free d b = (Z.of_nat n <=? b).
Proof.
  induction n as [|n IH]; intros Hn d.
  - split; [apply zblock_ok|]. intros b Hb. unfold d. cbn. rewrite bit_free_testbit by apply Hb. rewrite zero_byte, Z.testbit_0_l.
    symmetry. apply Z.leb_le, Hb.
  - destruct IH as [Hok Hfree]; [lia|]. unfold d. rewrite (zrange_app 0 (Z.of_nat n)) by lia. rewrite foldl_app.
    set (d0 := foldl (fun buf i => set_bit i buf) zblock (zrange 0 (Z.of_nat n))) in *. rewrite (zrange_cons (Z.of_nat n)) by lia. rewrite zrange_nil by lia. cbn [foldl].
    assert (bit_index (Z.of_nat n)) as Hi by (unfold bit_index; change BPB with 4096; lia). rewrite set_bit_mark by done.
    split; [by apply mark_used_ok|]. intros b Hb. rewrite mark_used_free by done. case_decide as E.
    + symmetry. apply Z.leb_gt. lia.
    + rewrite Hfree by done. destruct (Z.leb_spec (Z.of_nat n) b), (Z.leb_spec (Z.of_nat (S n)) b); lia || done.
Qed.

(** ** The whole program *)

(** The blocks used once the dittos are there. *)
Definition image_cost (files : list (list Z * list Z)) : Z :=
  cost files + 2 * charge (blocks (Z.of_nat (length (root_bytes files)))).

Lemma mkfs_balloc_spec s own : img_ok s own -> let u := m_freeblock s in
  exists s', balloc (s32 (m_usedblocks s)) s = Ret tt s' /\ img_ok s' own /\ touches 0 s s' own own /\ m_freeblock s' = u /\
    cur s' 1 = cur s 1 /\ forall b, 0 <= b < fssize -> blk_free ninodes (cur s') b = (u <=? b).
Proof.
  intros H u. pose proof (io_free _ _ H) as Hfr. fold u in Hfr. unfold fssize in Hfr.
  destruct (bitmap_spec (Z.to_nat u)) as [Hbok Hbit]; [lia|]. rewrite Z2Nat.id in Hbok, Hbit by lia.
  assert (balloc (s32 (m_usedblocks s)) s = wsect 28 (foldl (fun buf i => set_bit i buf) zblock (zrange 0 u)) s) as E.
  { rewrite (io_used _ _ H), s32_small by (fold u; lia). fold u. unfold balloc. change (ninodes / IPB + 3) with 28. unfold assert.
    replace (u <? 512 * 8) with true by (symmetry; apply Z.ltb_lt; lia). unfold bind. reflexivity. }
  rewrite E. clear E. revert Hbok Hbit. generalize (foldl (fun buf i => set_bit i buf) zblock (zrange 0 u)). intros bm Hbok Hbit.
  destruct (wsect_ok s own 28 bm H ltac:(fold u; lia) Hbok) as (s' & E & H' & Hc & Ef & Ei).
  assert (cur s' 1 = cur s 1) as Hsb by (rewrite Hc; by rewrite decide_False).
  exists s'. split_and!; [exact E|exact H'| |exact Ef|exact Hsb|].
  - split; [done|..|exact Hsb|lia].
    + intros y j k Hy _. rewrite Hc, decide_False; [done|]. apply (io_own _ _ H) in Hy. lia.
    + intros j Hj _. unfold dinode_at. rewrite Hc, decide_False; [done|]. pose proof (IBLOCK_range j). pose proof (io_inum _ _ H). lia.
  - intros b Hb. unfold blk_free. unfold fssize in Hb. assert (BBLOCK b ninodes = 28) as ->.
    { unfold BBLOCK. change BPB with 4096. change (ninodes / IPB) with 25. rewrite Z.div_small by lia. reflexivity. }
    rewrite Hc, decide_True by done. change BPB with 4096. rewrite Z.mod_small by lia. apply Hbit. unfold bit_index. change BPB with 4096. lia.
Qed.

Lemma image_frame s s' own files : img_built s own files -> img_ok s' own -> touches 0 s s' own own -> m_freeblock s' = m_freeblock s -> img_built s' own files.
Proof.
  intros [I1 I2 I3 I4 I5 I6 I7 I8 I9] H' HT Ef. pose proof (file_frame 0 s s' own own 1 _ _ _ I1 H' HT ltac:(lia) I2) as F2.
  pose proof (fa_inode _ _ _ _ _ _ F2) as Ed. split; rewrite ?Ed; try assumption.
  - destruct I7. split; eapply stored_frame; [exact I1|exact H'|exact HT|lia|assumption|exact I1|exact H'|exact HT|lia|assumption].
  - intros k f Hk. eapply stored_frame; [exact I1|exact H'|exact HT|lia|]. by apply I8.
  - by rewrite Ef.
Qed.

(** [main] up to the files, put together from its parts. *)
Lemma main_parts l s1 s2 s3 s4 : (format;;; let! r := ialloc T_DIR in assert (r =? ROOTINO);;;
    iappend r (mk_dirent (xshort r) (lit "."));;; iappend r (mk_dirent (xshort r) (lit ".."))) mkfs_start = Ret tt s1 ->
  forK (add_file 1) l s1 = Ret tt s2 -> fix_root 1 s2 = Ret tt s3 -> add_dittos 1 s3 = Ret tt s4 ->
  main l mkfs_start = balloc (s32 (m_usedblocks s4)) s4.
Proof.
  intros E1 E2 E3 E4. apply bind_Ret in E1 as ([] & t1 & F1 & E1). apply bind_Ret in E1 as (r & t2 & F2 & E1).
  apply bind_Ret in E1 as ([] & t3 & F3 & E1). apply bind_Ret in E1 as ([] & t4 & F4 & E1).
  assert (r = 1) as -> by (unfold assert in F3; destruct (Z.eqb_spec r ROOTINO); [assumption|discriminate F3]).
  unfold main. rewrite (bind_eq _ _ _ _ _ F1), (bind_eq _ _ _ _ _ F2), (bind_eq _ _ _ _ _ F3), (bind_eq _ _ _ _ _ F4).
  rewrite (bind_eq _ _ _ _ _ E1), (bind_eq _ _ _ _ _ E2), (bind_eq _ _ _ _ _ E3), (bind_eq _ _ _ _ _ E4). reflexivity.
Qed.

Lemma main_spec files : Forall arg_ok files -> Z.of_nat (length files) + 4 <= ninodes -> image_cost files <= fssize ->
  exists s own, main (args files) mkfs_start = Ret tt s /\ img_built s own files /\ sb_of (cur s 1) = image_sb /\
    forall b, 0 <= b < fssize -> blk_free ninodes (cur s) b = (image_cost files <=? b).
Proof.
  intros Hargs Hn Hcost. pose proof (charge_nonneg (Z.of_nat (length (root_bytes files))) ltac:(lia)) as Hch.
  unfold image_cost in *. destruct root_spec as (s1 & own1 & root1 & E1 & B1 & Hsb1).
  destruct (add_files_spec files s1 own1 root1 [] B1 Hargs) as (s2 & own2 & root & E2 & HB & Hsb2); [cbn; unfold ninodes in *; lia|cbn [app]; lia|].
  cbn [app] in HB. destruct (fix_root_spec s2 own2 root files HB Hargs) as (s3 & E3 & H3 & HF3 & HT3 & Ef3 & Ei3).
  pose proof HB as [B2 Bi Br Bri Bf Bfr]. pose proof (length_content_at _ _ _ _ _ _ Br) as El. rewrite El in HF3.
  destruct (add_dittos_spec s3 own2 (rooted files root) files H3 Hargs) as (s4 & own4 & E4 & HI & Hsb4);
    [lia|exact Hn|exact HF3|cbn; by rewrite Bri|cbn; by rewrite Bri|reflexivity| |rewrite Ef3; exact Bfr|exact Hcost|].
  { intros k f Hk. eapply stored_frame; [exact B2|exact H3|exact HT3|lia|]. by apply Bf. }
  destruct (mkfs_balloc_spec s4 own4 (im_ok _ _ _ HI)) as (s5 & E5 & H5 & HT5 & Ef5 & Hsb5 & Hbm).
  exists s5, own4. split_and!.
  - rewrite (main_parts _ _ _ _ _ E1 E2 E3 E4). exact E5.
  - by eapply image_frame.
  - rewrite Hsb5, Hsb4, (tc_sb _ _ _ _ _ HT3), Hsb2. exact Hsb1.
  - rewrite <- (im_free _ _ _ HI). exact Hbm.
Qed.

(** ** What is on the disk *)

(** A file of the image: its inode and contents; each of its blocks is given to it
    alone. *)
Record disk_file (d : Z -> block) (own : owners) (inum type : Z) (c : list Z) : Prop := {
  df_type : di_type (dinode_at d inum) = type;
  df_nlink : di_nlink (dinode_at d inum) = 1;
  df_size : di_size (dinode_at d inum) = Z.of_nat (length c);
  df_max : Z.of_nat (length c) <= MAXFILE * BSIZE;
  df_addrs : length (di_addrs (dinode_at d inum)) = 11%nat;
  df_content : file_content d (dinode_at d inum) = c;
  df_blocks : forall bn, 0 <= bn -> bn * BSIZE < Z.of_nat (length c) -> own !! addr_of d (dinode_at d inum) bn = Some (inum, bn);
  df_ind : NDIRECT * BSIZE < Z.of_nat (length c) -> own !! ind (dinode_at d inum) = Some (inum, MAXFILE)
}.

(** The tree mkfs builds, the contents of every inode but [bad] matching their
    checksum. *)
Record image_tree (d : Z -> block) (own : owners) (files : list (list Z * list Z)) (bad : Z) : Prop := {
  mi_sb : sb_of (d 1) = Superblock 2048 1999 200 20;
  mi_log : log_disk d 2048 2028 20 [];
  mi_bitmap : forall b, 0 <= b < 2048 -> blk_free 200 d b = (image_cost files <=? b);
  mi_own : forall b k, own !! b = Some k -> 29 <= b < image_cost files;
  mi_root : disk_file d own 1 T_DIR (root_bytes files);
  mi_children : di_child1 (dinode_at d 1) = 2 + Z.of_nat (length files) /\ di_child2 (dinode_at d 1) = 3 + Z.of_nat (length files);
  mi_ditto1 : disk_file d own (2 + Z.of_nat (length files)) T_DITTO (root_bytes files);
  mi_ditto2 : disk_file d own (3 + Z.of_nat (length files)) T_DITTO (root_bytes files);
  mi_files : forall k f, files !! k = Some f -> disk_file d own (2 + Z.of_nat k) T_FILE f.2;
  mi_single : forall k f, files !! k = Some f -> let di := dinode_at d (2 + Z.of_nat k) in
                di_child1 di = 0 /\ di_child2 di = 0;
  mi_intact : forall j, 1 <= j < 4 + Z.of_nat (length files) -> j <> bad -> intact d (dinode_at d j) = true
}.
Definition mkfs_image (d : Z -> block) (own : owners) (files : list (list Z * list Z)) : Prop := image_tree d own files 0.

(** Files that fit: the inodes, and the blocks below the log. *)
Record files_fit (files : list (list Z * list Z)) : Prop := {
  ff_args : Forall arg_ok files;
  ff_inodes : Z.of_nat (length files) + 4 <= 200;
  ff_blocks : image_cost files <= 2028
}.

Lemma file_at_disk s own inum nb di c : file_at s own inum nb di c -> blocks (Z.of_nat (length c)) <= nb -> di_nlink di = 1 ->
  disk_file (cur s) own inum (di_type di) c.
Proof.
  intros HF Hnb Hnl. pose proof (length_content_at _ _ _ _ _ _ HF) as El. destruct HF as [F1 F2 F3 F4 F5 F6 F7].
  pose proof (blocks_bound (Z.of_nat (length c)) ltac:(lia)) as Hb. split; rewrite ?F2; try done.
  - by rewrite <- El.
  - apply F5.
  - intros bn Hbn Hlt. apply (mp_in _ _ _ _ _ _ F5). change BSIZE with 512 in Hlt. lia.
  - intros Hlt. pose proof (mp_ind _ _ _ _ _ _ F5) as Hi. unfold NDIRECT, BSIZE in *. destruct (Z.ltb_spec 10 nb); [done|lia].
Qed.

Lemma stored_disk s own inum type c : stored s own inum type c -> disk_file (cur s) own inum type c.
Proof. intros [S1 <- S3 _ S5]. eapply file_at_disk; [exact S1|done|done]. Qed.

Lemma file_at_intact s own inum nb di c : file_at s own inum nb di c -> di_checksum di = checksum c -> intact (cur s) (dinode_at (cur s) inum) = true.
Proof. intros HF E. unfold intact. rewrite (fa_inode _ _ _ _ _ _ HF), (fa_content _ _ _ _ _ _ HF), E. apply Z.eqb_refl. Qed.

Lemma stored_intact s own inum type c : stored s own inum type c -> intact (cur s) (dinode_at (cur s) inum) = true.
Proof. intros [S1 _ _ _ S5]. by eapply file_at_intact. Qed.

(** The last block of the root is there unless its entries fill whole blocks. *)
Lemma root_no_hole files : (Z.of_nat (length files) + 2) `mod` 32 <> 0 ->
  blocks (Z.of_nat (length (root_bytes files))) <= blocks (Z.of_nat (length (root_entries files))).
Proof.
  intros H. rewrite root_bytes_length, root_entries_length. set (n := Z.of_nat (length files)) in *. unfold round_up. change BSIZE with 512.
  assert (32 + 16 * n = 16 * (n + 2)) as -> by lia. pose proof (Z.div_mod (n + 2) 32 ltac:(lia)). pose proof (Z.mod_pos_bound (n + 2) 32 ltac:(lia)).
  assert (16 * (n + 2) / 512 = (n + 2) / 32) as ->. { symmetry. apply (Z.div_unique _ _ _ (16 * ((n + 2) `mod` 32))); lia. }
  unfold blocks. assert ((((n + 2) / 32 + 1) * 512 + 511) / 512 = (n + 2) / 32 + 1) as ->. { symmetry. apply (Z.div_unique _ _ _ 511); lia. }
  apply Z.div_le_lower_bound; lia.
Qed.

Lemma image_log_disk s own files : img_built s own files -> image_cost files <= 2028 -> sb_of (cur s 1) = image_sb -> log_disk (cur s) 2048 2028 20 [].
Proof.
  intros HI Hc Hsb. pose proof (im_ok _ _ _ HI) as H. pose proof (im_free _ _ _ HI) as Ef. change (cost files + _) with (image_cost files) in Ef.
  split; rewrite ?Hsb.
  - apply (io_block _ _ H).
  - by vm_compute.
  - unfold LOGSIZE. lia.
  - rewrite (io_fresh _ _ H), get32_zblock by lia. done.
  - intros j x Hj. by rewrite lookup_nil in Hj.
  - constructor.
  - intros x Hx. by apply elem_of_nil in Hx.
Qed.

Lemma mkfs_tree files : files_fit files -> (Z.of_nat (length files) + 2) `mod` 32 <> 0 ->
  exists s own, main (args files) mkfs_start = Ret tt s /\ m_len s = fssize /\ mkfs_image (disk_of (m_img s)) own files.
Proof.
  intros [F1 F2 F3] Hh. destruct (main_spec files F1 F2) as (s & own & E & HI & Hsb & Hbm); [unfold fssize; lia|].
  exists s, own. change (disk_of (m_img s)) with (cur s). pose proof HI as [I1 I2 [I3 I3'] I4 I5 I6 [I7 I7'] I8 I9].
  split; [exact E|]. split; [apply I1|]. split.
  - exact Hsb.
  - by eapply image_log_disk.
  - exact Hbm.
  - intros b k Hb. apply (io_own _ _ I1) in Hb. rewrite I9 in Hb. exact Hb.
  - rewrite <- I3. eapply file_at_disk; [exact I2|by apply root_no_hole|done].
  - exact (conj I5 I6).
  - apply stored_disk, I7.
  - apply stored_disk, I7'.
  - intros k f Hk. apply stored_disk, I8, Hk.
  - intros k f Hk. apply (I8 k f Hk).
  - intros j Hj _. destruct (decide (j = 1)) as [->|]; [by eapply file_at_intact|].
    destruct (decide (j = 2 + Z.of_nat (length files))) as [->|]; [by eapply stored_intact|].
    destruct (decide (j = 3 + Z.of_nat (length files))) as [->|]; [by eapply stored_intact|].
    destruct (lookup_lt_is_Some_2 files (Z.to_nat (j - 2))) as [f Hf]; [lia|]. pose proof (stored_intact _ _ _ _ _ (I8 _ _ Hf)) as H.
    by replace (2 + Z.of_nat (Z.to_nat (j - 2))) with j in H by lia.
Qed.

Lemma mkfs_spec files : files_fit files -> (Z.of_nat (length files) + 2) `mod` 32 <> 0 ->
  exists s own, main (args files) mkfs_start = Ret tt s /\ mkfs_image (disk_of (m_img s)) own files.
Proof. intros Hf Hh. destruct (mkfs_tree files Hf Hh) as (s & own & E & _ & H). exists s, own. exact (conj E H). Qed.

(** ** Names *)

Definition key (name : list Z) : list Z := strncpy name (Z.to_nat DIRSIZ).

(** The entries of the root directory, one by one. *)
Fixpoint dents (k : Z) (files : list (list Z * list Z)) : list (list Z) :=
  match files with
  | [] => []
  | f :: files' => mk_dirent k (entry_name f.1) :: dents (k + 1) files'
  end.
Definition root_dents (files : list (list Z * list Z)) : list (list Z) :=
  mk_dirent 1 (lit ".") :: mk_dirent 1 (lit "..") :: dents 2 files.

Lemma root_entries_concat files : root_entries files = concat (root_dents files).
Proof.
  unfold root_entries, root_dents. cbn [concat]. do 2 f_equal. generalize 2. induction files as [|f files IH]; intros k; [done|]. cbn. by rewrite IH.
Qed.

Lemma slice_concat (l : list (list Z)) t m x : (forall y, y ∈ l -> length y = 16%nat) -> l !! m = Some x ->
  slice (concat l ++ t) (16 * Z.of_nat m) 16 = x.
Proof.
  revert m. induction l as [|y l IH]; intros m Hl Hm; [done|]. assert (length y = 16%nat) as Hy by (apply Hl; left).
  destruct m as [|m]; cbn in Hm.
  - injection Hm as ->. unfold slice. change (Z.to_nat (16 * Z.of_nat 0)) with 0%nat. rewrite drop_0. cbn [concat]. rewrite <- app_assoc, take_app_le by lia. apply take_ge. lia.
  - rewrite <- (IH m); [|intros z Hz; apply Hl; by right|done]. unfold slice. cbn [concat]. rewrite <- app_assoc, drop_app_ge by lia. do 2 f_equal. lia.
Qed.

Lemma root_dents_length files y : y ∈ root_dents files -> length y = 16%nat.
Proof.
  unfold root_dents. rewrite !elem_of_cons. intros [->|[->|Hy]]; [apply mk_dirent_length..|]. revert Hy. generalize 2.
  induction files as [|f files IH]; intros k Hy; cbn in Hy; [by apply elem_of_nil in Hy|]. apply elem_of_cons in Hy as [->|Hy]; [apply mk_dirent_length|by eapply IH].
Qed.

Lemma dents_lookup k files j f : files !! j = Some f -> dents k files !! j = Some (mk_dirent (k + Z.of_nat j) (entry_name f.1)).
Proof.
  revert k j. induction files as [|g files IH]; intros k [|j] Hj; try done.
  - injection Hj as ->. cbn. by rewrite Z.add_0_r.
  - change (dents (k + 1) files !! j = Some (mk_dirent (k + Z.of_nat (S j)) (entry_name f.1))).
    rewrite (IH (k + 1) j Hj). do 2 f_equal. lia.
Qed.

Lemma de_inum_mk k name : 0 <= k < 65536 -> de_inum (mk_dirent k name) = k.
Proof.
  intros Hk. unfold de_inum, mk_dirent, get16, slice. rewrite drop_0, take_app_le by (rewrite length_le_enc; done).
  rewrite take_ge by (rewrite length_le_enc; done). change (u16 k) with (k `mod` 65536). rewrite Z.mod_small by done. rewrite le_dec_enc. by apply Z.mod_small.
Qed.

Lemma de_name_mk k name : strncpy (de_name (mk_dirent k name)) (Z.to_nat DIRSIZ) = key name.
Proof. unfold de_name, mk_dirent. rewrite drop_app_ge by (rewrite length_le_enc; done). rewrite length_le_enc. apply strncpy_idem. Qed.

(** The names, as the directory stores them, all differ. *)
Definition names_differ (files : list (list Z * list Z)) : Prop :=
  NoDup (key (lit ".") :: key (lit "..") :: ((fun f => key (entry_name f.1)) <$> files)).

Lemma dirents_root files m x : root_dents files !! m = Some x -> dirents (root_bytes files) !! m = Some x.
Proof.
  intros Hm. rewrite lookup_dirents. pose proof (lookup_lt_Some _ _ _ Hm) as Hlt.
  assert (length (root_entries files) = 16 * length (root_dents files))%nat as El.
  { rewrite root_entries_concat. pose proof (root_dents_length files) as Hl. revert Hl. generalize (root_dents files).
    induction l as [|y l IH]; intros Hl; [done|]. cbn. rewrite length_app, IH, (Hl y); [lia|left|]. intros z Hz. apply Hl. by right. }
  rewrite decide_True.
  - f_equal. unfold root_bytes. rewrite root_entries_concat. eapply slice_concat; [apply root_dents_length|done].
  - rewrite root_bytes_length. pose proof (round_up_bound (Z.of_nat (length (root_entries files))) ltac:(lia)) as HR.
    apply Z.lt_le_trans with (Z.of_nat (length (root_dents files))); [lia|]. apply Z.div_le_lower_bound; lia.
Qed.

Lemma root_names files m x : root_dents files !! m = Some x ->
  exists n k, x = mk_dirent k n /\ (key (lit ".") :: key (lit "..") :: ((fun f => key (entry_name f.1)) <$> files)) !! m = Some (key n).
Proof.
  unfold root_dents. destruct m as [|[|m]].
  - intros [= <-]. by eexists _, _.
  - intros [= <-]. by eexists _, _.
  - intros Hm. change (dents 2 files !! m = Some x) in Hm. destruct (files !! m) as [f|] eqn:Ef.
    + rewrite (dents_lookup _ _ _ _ Ef) in Hm. injection Hm as <-. eexists _, _. split; [done|].
      change (((fun f => key (entry_name f.1)) <$> files) !! m = Some (key (entry_name f.1))). by rewrite list_lookup_fmap, Ef.
    + exfalso. apply lookup_ge_None in Ef. apply lookup_lt_Some in Hm. assert (forall k l, length (dents k l) = length l) as El.
      { intros k l. revert k. induction l as [|g l IH]; intros k; [done|]. cbn. by rewrite IH. } rewrite El in Hm. lia.
Qed.

(** Looking a file up by its name gives its inode. *)
Lemma root_find files k f : names_differ files -> files !! k = Some f -> 2 + Z.of_nat k < 65536 ->
  dir_find (entry_name f.1) (root_bytes files) = Some (2 + Z.of_nat k, 32 + 16 * Z.of_nat k).
Proof.
  intros Hnd Hk Hlt. assert (root_dents files !! S (S k) = Some (mk_dirent (2 + Z.of_nat k) (entry_name f.1))) as Hx by (by apply dents_lookup).
  pose proof (dirents_root _ _ _ Hx) as Hd. unfold dir_find. rewrite (index_of_first _ _ (S (S k)) _ Hd).
  - rewrite lookup_dirents in Hd. case_decide; [|done]. injection Hd as Hd. rewrite Hd, de_inum_mk by lia. do 2 f_equal. lia.
  - unfold entry_is. rewrite de_inum_mk, de_name_mk by lia. rewrite (proj2 (Z.eqb_neq _ _)) by lia. by apply bool_decide_eq_true.
  - intros j y Hj Hy. unfold entry_is. apply andb_false_iff. right. apply bool_decide_eq_false. intros E.
    destruct (lookup_lt_is_Some_2 (root_dents files) j) as [x Hxj]; [apply lookup_lt_Some in Hx; lia|].
    rewrite (dirents_root _ _ _ Hxj) in Hy. injection Hy as <-. destruct (root_names _ _ _ Hxj) as (n & i & -> & Hn). rewrite de_name_mk in E.
    assert ((key (lit ".") :: key (lit "..") :: ((fun f => key (entry_name f.1)) <$> files)) !! S (S k) = Some (key (entry_name f.1))) as Hk'.
    { change (((fun f => key (entry_name f.1)) <$> files) !! k = Some (key (entry_name f.1))). by rewrite list_lookup_fmap, Hk. }
    rewrite E in Hn. pose proof (NoDup_lookup _ _ _ _ Hnd Hn Hk'). lia.
Qed.

(** C10. What mkfs builds from files that fit (at most 196, none longer than a file
    can be, all their blocks inside the image), with names without a slash that
    differ from each other and from [.] and [..] in the 14 bytes that an entry
    stores, and such that the entries of the root, with [.] and [..], do not fill
    its blocks exactly (32 to a block): the superblock, an empty log, a bitmap that marks exactly the blocks in
    use, each file with its contents and their checksum, and the root directory,
    padded with zeros, with two dittos that hold the same bytes. No block belongs
    to two files, and each file is found in the directory under its name. (When
    the entries fill the blocks see [mkfs_thirty_files_panic].) *)
Theorem mkfs_correct files : files_fit files -> (Z.of_nat (length files) + 2) `mod` 32 <> 0 -> names_differ files ->
  exists s own (d := disk_of (m_img s)), main (args files) mkfs_start = Ret tt s /\ mkfs_image d own files /\
    forall k f, files !! k = Some f -> dir_find (entry_name f.1) (file_content d (dinode_at d 1)) = Some (2 + Z.of_nat k, 32 + 16 * Z.of_nat k).
Proof.
  intros Hfit Hh Hnd. destruct (mkfs_spec files Hfit Hh) as (s & own & E & HI). exists s, own. split; [exact E|]. split; [exact HI|].
  intros k f Hk. rewrite (df_content _ _ _ _ _ (mi_root _ _ _ _ HI)). apply root_find; [done|done|].
  pose proof (lookup_lt_Some _ _ _ Hk). pose proof (ff_inodes _ Hfit). lia.
Qed.

(** Two small files. *)
Definition demo : list (list Z * list Z) := [(lit "README", [104; 105; 10]); (lit "_cat", [1; 2; 3; 4; 5])].

Lemma demo_fit : files_fit demo.
Proof. split; [|by vm_compute|by vm_compute]. repeat constructor; cbn [fst snd]; try (by vm_compute); by_evaluation. Qed.

Lemma mkfs_correct_witness : exists s own (d := disk_of (m_img s)), main (args demo) mkfs_start = Ret tt s /\ mkfs_image d own demo /\
  dir_find (lit "cat") (file_content d (dinode_at d 1)) = Some (3, 48).
Proof.
  destruct (mkfs_correct demo demo_fit ltac:(done) ltac:(by_evaluation)) as (s & own & E & HI & Hn).
  exists s, own. exact (conj E (conj HI (Hn 1%nat _ eq_refl))).
Defined.
