(* ===== verification/Boot.v ===== *)
(** From mkfs.c to the running kernel: on the image mkfs leaves, the kernel boots,
    resolves the names of the files and reads their contents. *)
From S2P Require Import Prelude Bio Cache Log LogSpec Trans Txn Str Fs FsView Alloc Content Verify FsImage Dir Path Write.
From S2P Require Import Mkfs MkfsInv MkfsIO MkfsBuild MkfsThms.

(** ** The booted file system *)

Definition boot_geom (d : gmap Z block) : geometry := Geometry 2028 20 false (recovered (disk_of d) 2048 2028 []).

Lemma boot_idle d ic cwd : log_disk (disk_of d) 2048 2028 20 [] ->
  exists κ, initlog (boot d 2048) = Ret tt κ /\ Rep (boot_geom d) (Fs κ ic cwd) (boot_view d 2028 [] ic cwd).
Proof.
  intros Hld. destruct (idle_init _ _ _ _ _ Hld) as (κ & E & [_ _ _ Hb] & _).
  destruct (boot_Rep d 2048 2028 20 [] ic cwd false Hld) as (κ' & E' & HR). rewrite E in E'. injection E' as <-.
  exists κ. split; [done|]. assert (set_busy false κ = κ) as Eb by (destruct κ; cbn in *; by rewrite Hb). rewrite Eb in HR. exact HR.
Qed.

Section booted.
Context (d : gmap Z block) (own : owners) (files : list (list Z * list Z)) (bad : Z) (ic : list inode) (cwd : option nat).
Hypotheses (HI : image_tree (disk_of d) own files bad) (Hfit : files_fit files).
Let W := boot_view d 2028 [] ic cwd.

Lemma disk_readable inum type c : disk_file (disk_of d) own inum type c -> readable (boot_geom d) W (dinode_at (disk_of d) inum).
Proof.
  intros [D1 D2 D3 D4 D5 D6 D8 D9]. pose proof (ff_blocks _ Hfit) as Hc.
  assert (forall a k, own !! a = Some k -> 29 <= a < 2028) as Ho. { intros a k Ha. apply (mi_own _ _ _ _ HI) in Ha. lia. }
  split.
  - exact D5.
  - rewrite D3. split; [lia|exact D4].
  - intros bn Hbn Hlt. rewrite D3 in Hlt. pose proof (Ho _ _ (D8 bn Hbn Hlt)) as Ha. change (MAXFILE * BSIZE) with 70656 in D4. split.
    + unfold MAXFILE, NDIRECT, NINDIRECT, BSIZE in *. change (10 + 512 / 4) with 138. lia.
    + change (w_cur W) with (disk_of d). lia.
    + change (w_cur W) with (disk_of d). cbn. lia.
    + unfold W. rewrite boot_w_secs. apply not_elem_of_empty.
    + intros Hnd a. assert (own !! a = Some (inum, MAXFILE)) as Hi.
      { apply D9. unfold NDIRECT, BSIZE in *. lia. }
      apply Ho in Hi. split; [cbn; lia|]. unfold W. rewrite boot_w_secs. apply not_elem_of_empty.
Qed.

Lemma disk_sound inum type c : disk_file (disk_of d) own inum type c -> 0 <= inum <= 200 -> type <> 0 -> type <> T_DEV ->
  sound_inode (boot_geom d) W inum.
Proof.
  intros HD Hi H0 H1. pose proof (IBLOCK_range inum Hi) as Hb. pose proof HD as [D1 _ _ _ _ _ _ _].
  split; [cbn; lia|unfold W; rewrite boot_w_secs; apply not_elem_of_empty|..]; change (w_cur W) with (disk_of d); rewrite ?D1;
    [exact H0|exact H1|by eapply disk_readable].
Qed.

Lemma disk_good inum type c : disk_file (disk_of d) own inum type c -> 0 <= inum <= 200 -> type <> 0 -> type <> T_DEV ->
  (type = T_DIR -> (16 | Z.of_nat (length c))) -> intact (disk_of d) (dinode_at (disk_of d) inum) = true -> good_inode (boot_geom d) W inum.
Proof.
  intros HD Hi H0 H1 Hs D7. pose proof HD as [D1 D2 D3 D4 D5 D6 D8 D9]. split; change (w_cur W) with (disk_of d).
  - by eapply disk_sound.
  - exact D7.
  - rewrite D2. lia.
  - rewrite D1, D3. exact Hs.
Qed.

Lemma root_good : bad <> 1 -> good_inode (boot_geom d) W 1.
Proof.
  intros Hb. eapply disk_good; [apply (mi_root _ _ _ _ HI)|lia|done|done| |apply (mi_intact _ _ _ _ HI); [lia|done]]. intros _. rewrite root_bytes_length. unfold round_up. change BSIZE with 512.
  exists ((Z.of_nat (length (root_entries files)) / 512 + 1) * 32). lia.
Qed.
End booted.

(** A path with one element. *)
Lemma elements_one e : e <> [] -> Forall (fun c => c <> 0 /\ c <> 47) e -> elements (47 :: e) = [e].
Proof.
  intros Hne He. unfold elements. cbn. assert (forall p a, Forall (fun c => c <> 0 /\ c <> 47) p -> elems p a = flush (a ++ p)) as H.
  { intros p. induction p as [|c p IH]; intros a Hp; [by rewrite app_nil_r|]. apply Forall_cons in Hp as [[H1 H2] Hp]. cbn.
    rewrite (proj2 (Z.eqb_neq _ _) H1), (proj2 (Z.eqb_neq _ _) H2), IH by done. by rewrite <- app_assoc. }
  rewrite H by done. by destruct e.
Qed.

(** The empty inode cache of [iinit]. *)
Definition icache0 : list inode := replicate (Z.to_nat NINODE) (Inode 0 0 0 0 no_dinode).

Lemma icache0_settled cur : settled cur icache0 None.
Proof. intros i q Hq. apply lookup_replicate in Hq as [-> _]. cbn. split; lia. Qed.

(** A file found by name is locked and read. *)
Lemma open_read g devsw W ic φ j q inum c n type own d : (0 < wroom W)%nat -> Rep g φ (at_ic W ic) -> settled (w_cur W) ic None -> ic !! j = Some q ->
  caches inum q = true -> good_inode g W inum -> w_cur W = disk_of d -> disk_file (disk_of d) own inum type c -> type <> T_DEV -> 0 <= n < 65536 ->
  exists φ1 φ2, ilock devsw (Some j) φ = Ret 0 φ1 /\ Fs.readi devsw (Some j) 0 n φ1 = Ret (Z.min n (Z.of_nat (length c)), take (Z.to_nat n) c) φ2.
Proof.
  intros Hr HR Hs Hq Hc Hg Ew HD Hty Hn. apply caches_spec in Hc as (Hp & Hd & Hi). rewrite <- Hi in Hg, HD.
  assert (wp (ilock devsw (Some j)) (fun r φ1 => r = 0 /\ exists q1, locks W q q1 /\ Rep g φ1 (at_ic W (<[j := q1]> ic))) φ) as H1.
  { eapply ilock_settled; [exact Hr|exact HR|exact Hs|exact Hq|exact Hp|exact Hg|]. intros φ' q' HL HR'. eauto. }
  apply wp_Ret in H1 as (r & φ1 & E1 & -> & q1 & [L1 L2 L3 L4 L6 L5] & HR1). rewrite Ew in L4. pose proof HD as [D1 D2 D3 D4 D5 D6 D8 D9].
  assert (<[j := q1]> ic !! j = Some q1) as Hq1 by (rewrite list_lookup_insert_eq; [done|by eapply lookup_lt_Some]).
  assert (i_size q1 = Z.of_nat (length c)) as Es by (unfold i_size; by rewrite L4).
  assert (wp (Fs.readi devsw (Some j) 0 n) (fun r φ2 => r = (Z.min n (Z.of_nat (length c)), take (Z.to_nat n) c)) φ1) as H2.
  { eapply (readi_spec g devsw φ1 (at_ic W _)); [exact HR1|exact Hq1|congruence| | |exact Hr|rewrite Es; lia|lia|lia|].
    - unfold i_type. rewrite L4, D1. exact Hty.
    - rewrite L4. pose proof (si_data _ _ _ (sound_at g W (<[j := q1]> ic) _ (gi_sound _ _ _ Hg))) as Hrd.
      change (w_cur (at_ic W (<[j := q1]> ic))) with (w_cur W) in Hrd. by rewrite Ew in Hrd.
    - intros φ' HR'. change (w_cur (at_ic W (<[j := q1]> ic))) with (w_cur W). rewrite Es, L4, Ew.
      assert (read_len (Z.of_nat (length c)) 0 n = Z.min n (Z.of_nat (length c))) as -> by (unfold read_len; destruct (Z.ltb_spec (Z.of_nat (length c)) (0 + n)); lia).
      f_equal. rewrite <- slice_content by (rewrite ?D3; lia). rewrite D6. unfold slice. rewrite drop_0.
      destruct (Z.min_spec n (Z.of_nat (length c))) as [[? ->]|[? ->]]; [done|]. rewrite !take_ge by lia. done. }
  apply wp_Ret in H2 as (r & φ2 & E2 & ->). by exists φ1, φ2.
Qed.

(** ** Opening a file by its name *)

Record named (files : list (list Z * list Z)) (k : nat) (f : list Z * list Z) : Prop := {
  nm_file : files !! k = Some f;
  nm_differ : names_differ files;
  nm_some : entry_name f.1 <> [];
  nm_chars : Forall (fun c => c <> 0 /\ c <> 47) (entry_name f.1)
}.

Section names.
Context (d : gmap Z block) (own : owners) (files : list (list Z * list Z)) (bad : Z) (k : nat) (f : list Z * list Z).
Hypotheses (HI : image_tree (disk_of d) own files bad) (Hfit : files_fit files) (Hk : named files k f) (Hbad : bad <> 1).
Let W := boot_view d 2028 [] icache0 None.
Let e := entry_name f.1.

Lemma file_number : 0 <= 2 + Z.of_nat k <= 200.
Proof. pose proof (lookup_lt_Some _ _ _ (nm_file _ _ _ Hk)). pose proof (ff_inodes _ Hfit). lia. Qed.

Lemma found_in_root : dir_find e (file_content (disk_of d) (dinode_at (disk_of d) 1)) = Some (2 + Z.of_nat k, 32 + 16 * Z.of_nat k).
Proof.
  rewrite (df_content _ _ _ _ _ (mi_root _ _ _ _ HI)). apply root_find; [apply Hk|apply Hk|]. pose proof file_number. lia.
Qed.

Lemma walk_root : walk (disk_of d) 1 (elements (47 :: e)) = Some (2 + Z.of_nat k).
Proof.
  rewrite elements_one by apply Hk. cbn [walk]. rewrite (df_type _ _ _ _ _ (mi_root _ _ _ _ HI)), found_in_root. done.
Qed.

Lemma healthy_root : healthy (boot_geom d) W 1 (elements (47 :: e)).
Proof. rewrite elements_one by apply Hk. split; [by eapply (root_good _ _ _ bad)|done]. Qed.

Lemma file_good : bad <> 2 + Z.of_nat k -> good_inode (boot_geom d) W (2 + Z.of_nat k).
Proof.
  intros Hb. pose proof (nm_file _ _ _ Hk) as Hf. pose proof (lookup_lt_Some _ _ _ Hf).
  eapply (disk_good d own files bad); [done|done|by apply (mi_files _ _ _ _ HI)|apply file_number|done|done|done|].
  apply (mi_intact _ _ _ _ HI); [lia|done].
Qed.
End names.

(** C11. mkfs and the kernel agree: on the image made of [files] that fit and have
    different names, whose entries do not fill the blocks of the root directory
    exactly, the kernel boots; and for each file whose name is not empty and has no
    slash [namei] finds the file, [ilock] accepts its checksum, and [readi] returns
    its contents, as many bytes as asked for or as there are. *)
Theorem mkfs_files_readable devsw files k f n : files_fit files -> (Z.of_nat (length files) + 2) `mod` 32 <> 0 ->
  named files k f -> 0 <= n < 65536 ->
  exists s κ j φ φ1 φ2, main (args files) mkfs_start = Ret tt s /\ initlog (boot (m_img s) 2048) = Ret tt κ /\
    namei devsw (47 :: entry_name f.1) (iinit κ) = Ret (Some j) φ /\ ilock devsw (Some j) φ = Ret 0 φ1 /\
    Fs.readi devsw (Some j) 0 n φ1 = Ret (Z.min n (Z.of_nat (length f.2)), take (Z.to_nat n) f.2) φ2.
Proof.
  intros Hfit Hh Hk Hn. destruct (mkfs_spec files Hfit Hh) as (s & own & E & HI). set (d := m_img s) in *.
  destruct (boot_idle d icache0 None (mi_log _ _ _ _ HI)) as (κ & Eb & HR).
  assert (0 < wroom (boot_view d 2028 [] icache0 None))%nat as Hw by (rewrite boot_wroom; lia).
  destruct (namei_spec (boot_geom d) devsw _ Hw _ (47 :: entry_name f.1) 1 HR) as (p & φ & En & Hres).
  { apply icache0_settled. } { by vm_compute. } { done. } { by eapply (healthy_root d own files 0). }
  change (w_cur (boot_view d 2028 [] icache0 None)) with (disk_of d) in Hres. rewrite (walk_root d own files 0 k f HI Hfit Hk) in Hres.
  destruct Hres as (ic & HR1 & Hs & j & q & -> & Hq & Hc & _).
  destruct (open_read (boot_geom d) devsw _ ic φ j q (2 + Z.of_nat k) f.2 n T_FILE own d Hw HR1 Hs Hq Hc) as (φ1 & φ2 & E1 & E2).
  { eapply (file_good d own files 0 k f HI Hfit Hk). lia. } { done. } { apply (mi_files _ _ _ _ HI), (nm_file _ _ _ Hk). } { done. } { done. }
  exists s, κ, j, φ, φ1, φ2. exact (conj E (conj Eb (conj En (conj E1 E2)))).
Qed.

Lemma demo_named : named demo 1 (lit "_cat", [1; 2; 3; 4; 5]).
Proof. split; [done|by_evaluation|done|by_evaluation]. Qed.

Lemma mkfs_files_readable_witness : exists s κ j φ φ1 φ2, main (args demo) mkfs_start = Ret tt s /\ initlog (boot (m_img s) 2048) = Ret tt κ /\
    namei no_devsw (47 :: lit "cat") (iinit κ) = Ret (Some j) φ /\ ilock no_devsw (Some j) φ = Ret 0 φ1 /\
    Fs.readi no_devsw (Some j) 0 4 φ1 = Ret (4, [1; 2; 3; 4]) φ2.
Proof. apply (mkfs_files_readable no_devsw demo 1 _ 4 demo_fit ltac:(done) demo_named). lia. Defined.

(** ** Path names *)

(** C13. [namei] when every directory on the path is intact, on an inode cache that
    agrees with the disk, with nothing locked and two entries free: it returns the
    inode that walking the directories by name reaches, or nothing, and the only
    change to the reference counts is one more reference to the inode returned.
    (A corrupted directory leaks a reference, see [namei_corrupted_leaks].) *)
Theorem namei_correct g devsw φ W path inum : Rep g φ W -> (0 < wroom W)%nat -> settled (w_cur W) (w_ic W) None ->
  2 <= nfree (w_ic W) -> start_inum W path = Some inum -> healthy g W inum (elements path) ->
  exists p φ' ic', namei devsw path φ = Ret p φ' /\ Rep g φ' (at_ic W ic') /\ settled (w_cur W) ic' None /\
    match walk (w_cur W) inum (elements path) with
    | None => p = None /\ forall x, refs ic' x = refs (w_ic W) x
    | Some t => exists j q, p = Some j /\ ic' !! j = Some q /\ caches t q = true /\
                  forall x, refs ic' x = refs (w_ic W) x + if decide (x = t) then 1 else 0
    end.
Proof.
  intros HR Hr Hs Hn Hst Hh. destruct (namei_spec g devsw W Hr φ path inum HR Hs Hn Hst Hh) as (p & φ' & E & ic' & H1 & H2 & H3).
  exists p, φ', ic'. exact (conj E (conj H1 (conj H2 H3))).
Qed.

Lemma namei_correct_witness : exists s κ j φ, main (args demo) mkfs_start = Ret tt s /\ initlog (boot (m_img s) 2048) = Ret tt κ /\
  namei no_devsw (47 :: lit "cat") (iinit κ) = Ret (Some j) φ.
Proof.
  destruct (mkfs_spec demo demo_fit ltac:(done)) as (s & own & E & HI). set (d := m_img s) in *.
  destruct (boot_idle d icache0 None (mi_log _ _ _ _ HI)) as (κ & Eb & HR).
  destruct (namei_correct (boot_geom d) no_devsw _ _ (47 :: lit "cat") 1 HR) as (p & φ & ic & En & _ & _ & Hres).
  { rewrite boot_wroom. lia. } { apply icache0_settled. } { by vm_compute. } { done. } { exact (healthy_root d own demo 0 1 _ HI demo_fit demo_named ltac:(done)). }
  change (w_cur (boot_view d 2028 [] icache0 None)) with (disk_of d) in Hres.
  assert (walk (disk_of d) 1 (elements (47 :: lit "cat")) = Some 3) as Ew by exact (walk_root d own demo 0 1 _ HI demo_fit demo_named).
  rewrite Ew in Hres. destruct Hres as (j & q & -> & _).
  exists s, κ, j, φ. exact (conj E (conj Eb En)).
Defined.

(** ** Thirty files *)

(** [n] empty files with names of one letter. *)
Definition empty_files (n : nat) : list (list Z * list Z) := (fun k => ([97 + Z.of_nat k], [])) <$> seq 0 n.

(** Boot on the image mkfs leaves, and look up a path. *)
Definition boot_lookup (o : outcome mst unit) (path : list Z) : outcome fs iptr :=
  match o with
  | Ret _ s => match initlog (boot (m_img s) 2048) with
               | Ret _ κ => namei no_devsw path (iinit κ)
               | _ => NoFuel
               end
  | _ => NoFuel
  end.

(** mkfs rounds the size of the root directory up to the next block even when its
    entries fill the blocks exactly. An image of 30 empty files, whose root has 32
    entries: the last block of the root is a hole, verifying the directory
    allocates it, outside a transaction, and looking up "/b" makes the kernel
    panic. *)
Example mkfs_thirty_files_panic : boot_lookup (main (args (empty_files 30)) mkfs_start) (lit "/b") = Panic "write outside of trans".
Proof. vm_compute. reflexivity. Qed.

(** ** A corrupted directory *)

(** [namex] returns without [iput] when [ilock] rejects a directory: looking up
    a path through a corrupted root leaves a reference to it in the inode cache
    that nothing will give back. *)
Theorem namei_corrupted_leaks g devsw φ W path j q : Rep g φ W -> (0 < wroom W)%nat -> uncached (w_ic W) ROOTINO ->
  index_of (fun ip => i_ref ip =? 0) (w_ic W) = Some j -> w_ic W !! j = Some q -> sound_inode g W ROOTINO ->
  replicated g (v_ic (insert j (Inode 1 ROOTINO 1 0 (i_d q))) W) ROOTINO ->
  ilock_result (w_cur W) ROOTINO <> 0 -> chr path = 47 -> elements path <> [] ->
  exists φ' ic' q', namei devsw path φ = Ret None φ' /\ Rep g φ' (at_ic W ic') /\ ic' !! j = Some q' /\ caches ROOTINO q' = true.
Proof.
  intros HR Hr Hu Hj Hq Hs Hrp Hbad Hc He. set (q1 := Inode 1 ROOTINO 1 0 (i_d q)) in *.
  assert (wp (namei devsw path) (fun p φ' => p = None /\ exists ic' q', Rep g φ' (at_ic W ic') /\ ic' !! j = Some q' /\ caches ROOTINO q' = true) φ) as H.
  { unfold namei, namei_ext, namex. rewrite !wp_bind, Hc. change (47 =? 47) with true. cbv iota.
    eapply (iget_fresh g φ W ROOTINO); [exact HR|exact Hu|exact Hj|exact Hq|]. intros φ1 HR1. fold q1 in HR1.
    cbn [namex_loop]. pose proof (skipelem_spec path no_name) as Hsk. destruct (elements path) as [|e es]; [done|].
    destruct Hsk as (path' & -> & _). rewrite wp_bind. unfold ilock, ilock_ext. change (Z.to_nat NINODE) with (S 99).
    eapply (ilock_spec g devsw 99 φ1 _ j q1 ROOTINO); [exact HR1|by eapply lookup_ic_insert|by split_and!|by apply sound_inode_ic|exact Hrp|exact Hr|].
    intros φ2 ic2 HR2 Hj2 _. change (w_cur (v_ic (insert j q1) W)) with (w_cur W) in Hj2.
    rewrite (proj2 (Z.eqb_neq _ _) Hbad) in Hj2. change (w_cur (v_ic (insert j q1) W)) with (w_cur W).
    rewrite (proj2 (Z.eqb_neq _ _) Hbad). cbn [negb]. apply wp_ret. cbn [fst]. apply wp_ret. split; [done|].
    exists ic2, (rejected (w_cur W) q1). split_and!; [exact HR2|exact Hj2|done]. }
  apply wp_Ret in H as (p & φ' & E & -> & ic' & q' & H1 & H2 & H3). exists φ', ic', q'. exact (conj E (conj H1 (conj H2 H3))).
Qed.

(** A disk whose root directory does not match its checksum and has no ditto. *)
Definition bad_root : gmap Z block := <[2 := put_dinode 1 (img_file (checksum hello) T_DIR 1 6 0) zblock]> (image jello).
Definition bad_icache : list inode := [free_inode; free_inode; free_inode; free_inode].

Lemma bad_disk x : x <> 2 -> disk_of bad_root x = disk_of (image jello) x.
Proof. intros Hx. unfold bad_root. rewrite disk_insert. by rewrite decide_False. Qed.

Lemma bad_log : log_disk (disk_of bad_root) 19 13 6 [].
Proof.
  destruct (image_log jello) as [H1 H2 H3 H4 H5 H6 H7]; [done|by_evaluation|].
  split; rewrite ?bad_disk by done; try done. intros x. destruct (decide (x = 2)) as [->|]; [|by rewrite bad_disk].
  unfold bad_root. rewrite disk_insert, decide_True by done. by_evaluation.
Qed.

Lemma bad_inode : dinode_at (disk_of bad_root) 1 = img_file (checksum hello) T_DIR 1 6 0.
Proof. unfold dinode_at. change (IBLOCK 1) with 2. unfold bad_root. rewrite disk_insert, decide_True by done. by vm_compute. Qed.

Lemma bad_sound ic : sound_inode (Geometry 13 6 false (recovered (disk_of bad_root) 19 13 [])) (boot_view bad_root 13 [] ic None) 1.
Proof.
  assert (w_cur (boot_view bad_root 13 [] ic None) = disk_of bad_root) as Ec by done.
  split; rewrite ?Ec, ?bad_inode, ?boot_w_secs; [by vm_compute|apply not_elem_of_empty|done|done|by apply img_readable].
Qed.

Lemma bad_result : ilock_result (w_cur (boot_view bad_root 13 [] bad_icache None)) ROOTINO = E_CORRUPTED.
Proof. by vm_compute. Qed.

Lemma namei_corrupted_leaks_witness : exists κ φ' q', initlog (boot bad_root 19) = Ret tt κ /\
  namei no_devsw (lit "/x") (Fs (set_busy false κ) bad_icache None) = Ret None φ' /\ f_icache φ' !! 0%nat = Some q' /\ caches 1 q' = true.
Proof.
  destruct (boot_Rep bad_root 19 13 6 [] bad_icache None false bad_log) as (κ & E & HR).
  destruct (namei_corrupted_leaks _ no_devsw _ _ (lit "/x") 0 free_inode HR) as (φ' & ic' & q' & H1 & H2 & H3 & H4).
  - rewrite boot_wroom. lia.
  - intros [|[|[|[|j]]]] q Hq; cbn in Hq; try injection Hq as <-; done.
  - done.
  - done.
  - apply bad_sound.
  - change (v_ic (insert 0%nat (Inode 1 ROOTINO 1 0 (i_d free_inode))) (boot_view bad_root 13 [] bad_icache None))
      with (boot_view bad_root 13 [] [Inode 1 ROOTINO 1 0 no_dinode; free_inode; free_inode; free_inode] None).
    assert (forall ic, w_cur (boot_view bad_root 13 [] ic None) = disk_of bad_root) as Ec by done.
    split; rewrite ?Ec, ?bad_inode; [done|done|by right|].
    intros _ j. destruct (decide (j = 1%nat)) as [->|N]; [by exists 2%nat, free_inode|]. by exists 1%nat, free_inode.
  - rewrite bad_result. done.
  - done.
  - done.
  - exists κ, φ', q'. rewrite (rep_ic _ _ _ H2). exact (conj E (conj H1 (conj H3 H4))).
Defined.
