(* ===== verification/Cfs.v ===== *)
(** cfs.c: the host program that corrupts a file of an image by flipping bits at
    random. It repeats the sector and inode routines of mkfs.c, which are used
    here. [rand] is the stream of numbers the C library returns. *)
From S2P Require Import Prelude Bio Cache Log LogSpec Trans Str Fs FsView Alloc Content Verify Write Mkfs MkfsInv MkfsIO MkfsBuild.

(** The image, and how many random numbers have been drawn. *)
Record cst := Cst { c_fs : mst; c_rand : nat }.

Definition imgm {A} (m : K mst A) : K cst A := zoom c_fs (fun s c => Cst s (c_rand c)) m.

Section rand.
Context (rand : nat -> Z).

(** [rand() % p == 0] *)
Definition hit (p : Z) (r : nat) : bool := Z.rem (rand r) p =? 0.

Definition flip (p : Z) : K cst bool :=
  let! c := get in
  if p =? 0 then undef "division by zero"
  else put (Cst (c_fs c) (S (c_rand c)));;; ret (hit p (c_rand c)).

(** The eight bits of a byte: the byte and the number of bits flipped. *)
Definition flip_byte (pct b : Z) : K cst (Z * Z) :=
  foldK (fun s bc => let! f := flip pct in
                     ret (if (f : bool) then (u8 (Z.lxor bc.1 (Z.shiftl 1 s)), bc.2 + 1) else bc)) (zrange 0 8) (b, 0).

Definition flip_bits (pct : Z) (c : block) (n : Z) : K cst (block * Z) :=
  foldK (fun i bc => let! r := flip_byte pct (byte_at bc.1 i) in
                     ret (<[Z.to_nat i := r.1]> bc.1, bc.2 + r.2)) (zrange 0 n) (c, 0).

Fixpoint corrupt_loop (fuel : nat) (din : dinode) (off n pct counter : Z) : K cst Z :=
  if 0 <? n then
    match fuel with
    | O => nofuel
    | S fuel' =>
      let fbn := off / 512 in
      imgm (assert (fbn <? MAXFILE));;;
      let! x := (if fbn <? NDIRECT then ret (xint (default 0 (di_addrs din !! Z.to_nat fbn)))
                 else let! indirect := imgm (rsect (xint (default 0 (di_addrs din !! Z.to_nat NDIRECT)))) in
                      ret (xint (get32 indirect (4 * (fbn - NDIRECT))))) in
      let n1 := Z.min n (u32 ((fbn + 1) * 512 - off)) in
      let! buf := imgm (rsect x) in
      let! r := flip_bits pct buf n1 in
      imgm (wsect x r.1);;;
      corrupt_loop fuel' din (u32 (off + n1)) (n - n1) pct (counter + r.2)
    end
  else ret counter.

Definition icorrupt (inum n pct : Z) : K cst Z :=
  let! din := imgm (rinode inum) in
  let! counter := corrupt_loop (loop_bound n) din 0 n pct 0 in
  imgm (winode inum din);;;
  ret counter.

(** The C library's [atoi]: blanks, a sign, digits. *)
Fixpoint digits (s : list Z) (n : Z) : Z :=
  match s with
  | [] => n
  | c :: s' => if is_digit c then digits s' (10 * n + (c - 48)) else n
  end.
Definition is_space (c : Z) : bool := (c =? 32) || (9 <=? c) && (c <=? 13).
Fixpoint host_atoi (s : list Z) : Z :=
  match s with
  | [] => 0
  | c :: s' => if is_space c then host_atoi s'
               else if c =? 45 then - digits s' 0
               else if c =? 43 then digits s' 0
               else digits s 0
  end.

(** [main], on an image that can be opened; [None] is the exit without enough
    arguments. *)
Definition cfs_main (argv : list (list Z)) : K cst (option Z) :=
  if Z.of_nat (length argv) <? 3 then ret None
  else
    let inum := u32 (host_atoi (default [] (argv !! 2%nat))) in
    match argv !! 3%nat with
    | None => undef "atoi of a null pointer"
    | Some a =>
      let pct := s32 (host_atoi a) in
      let! din := imgm (rinode inum) in
      let! counter := icorrupt inum (s32 (xint (di_size din))) pct in
      ret (Some counter)
    end.

(** ** Specification *)

(** The bits flipped in a byte when [r] numbers have been drawn, and the number of
    flips of [n] draws. *)
Fixpoint mask_from (p : Z) (r : nat) (s : Z) (k : nat) : Z :=
  match k with
  | O => 0
  | S k' => Z.lxor (if hit p r then 2 ^ s else 0) (mask_from p (S r) (s + 1) k')
  end.
Definition mask (p : Z) (r : nat) : Z := mask_from p r 0 8.
Fixpoint hits (p : Z) (r n : nat) : Z :=
  match n with O => 0 | S n' => (if hit p r then 1 else 0) + hits p (S r) n' end.

(** The bits flipped in [n] bytes, and the bytes of [l] with bits flipped. *)
Definition masks (p : Z) (r : nat) (n : nat) : list Z := (fun k => mask p (r + 8 * k)) <$> seq 0 n.
Definition flipped (p : Z) (r : nat) (l : list Z) : list Z := zip_with Z.lxor l (masks p r (length l)).

(** ** Flipping bits *)

Lemma lxor_byte a b : is_byte a -> is_byte b -> is_byte (Z.lxor a b).
Proof.
  intros Ha Hb. assert (forall z, is_byte z <-> z `mod` 2 ^ 8 = z) as Hm.
  { intros z. change (2 ^ 8) with 256. unfold is_byte. split; [apply Z.mod_small|intros <-; apply Z.mod_pos_bound; lia]. }
  apply Hm in Ha, Hb. apply Hm. rewrite <- Z.land_ones in * by done. apply Z.bits_inj. intros k.
  rewrite <- Ha, <- Hb, !Z.land_spec, !Z.lxor_spec, !Z.land_spec. by repeat destruct (Z.testbit _ k).
Qed.

Section flips.
Context (p : Z) (Hp : p <> 0).

Lemma mask_from_byte k : forall r s, 0 <= s -> s + Z.of_nat k <= 8 -> is_byte (mask_from p r s k).
Proof.
  induction k as [|k IH]; intros r s Hs Hk; [done|]. cbn [mask_from]. apply lxor_byte; [|apply IH; lia].
  destruct (hit p r); [|done]. unfold is_byte. split; [lia|]. change 256 with (2 ^ 8). apply Z.pow_lt_mono_r; lia.
Qed.

Lemma mask_byte r : is_byte (mask p r).
Proof. by apply mask_from_byte. Qed.

Lemma flip_ok c : flip p c = Ret (hit p (c_rand c)) (Cst (c_fs c) (S (c_rand c))).
Proof. unfold flip, bind, get. destruct (Z.eqb_spec p 0); done. Qed.

Lemma flip_steps k : forall s r b n fs, 0 <= s -> s + Z.of_nat k <= 8 -> is_byte b ->
  foldK (fun s bc => let! f := flip p in
                     ret (if (f : bool) then (u8 (Z.lxor bc.1 (Z.shiftl 1 s)), bc.2 + 1) else bc)) (zrange s (s + Z.of_nat k)) (b, n) (Cst fs r)
  = Ret (Z.lxor b (mask_from p r s k), n + hits p r k) (Cst fs (r + k)).
Proof.
  induction k as [|k IH]; intros s r b n fs Hs Hk Hb.
  { rewrite zrange_nil by lia. cbn. by rewrite Z.lxor_0_r, Z.add_0_r, Nat.add_0_r. }
  rewrite zrange_cons by lia. cbn [foldK]. unfold bind at 1. unfold bind at 1. rewrite flip_ok. cbn [c_rand c_fs fst snd]. unfold ret at 1.
  replace (s + Z.of_nat (S k)) with (s + 1 + Z.of_nat k) by lia. cbn [mask_from hits].
  assert (is_byte (2 ^ s)) as H2 by (unfold is_byte; split; [lia|]; change 256 with (2 ^ 8); apply Z.pow_lt_mono_r; lia).
  destruct (hit p r).
  - rewrite Z.shiftl_1_l, u8_small by (by apply lxor_byte). rewrite IH by (lia || by apply lxor_byte).
    rewrite Z.lxor_assoc. replace (r + S k)%nat with (S r + k)%nat by lia. do 2 f_equal; lia.
  - rewrite IH by (done || lia). rewrite Z.lxor_0_l. replace (r + S k)%nat with (S r + k)%nat by lia. do 2 f_equal; lia.
Qed.

Lemma flip_byte_ok b c : is_byte b -> flip_byte p b c = Ret (Z.lxor b (mask p (c_rand c)), hits p (c_rand c) 8) (Cst (c_fs c) (c_rand c + 8)).
Proof. intros Hb. unfold flip_byte. destruct c as [fs r]. exact (flip_steps 8 0 r b 0 fs ltac:(lia) ltac:(lia) Hb). Qed.

Lemma hits_add r m n : hits p r (m + n) = hits p r m + hits p (r + m) n.
Proof.
  revert r. induction m as [|m IH]; intros r; [by rewrite Nat.add_0_r|]. cbn [hits Nat.add]. rewrite IH, Nat.add_succ_comm. lia.
Qed.

Lemma masks_S r n : masks p r (S n) = mask p r :: masks p (r + 8) n.
Proof.
  unfold masks. rewrite <- cons_seq. cbn [fmap list_fmap]. f_equal; [f_equal; lia|].
  rewrite <- fmap_S_seq, <- list_fmap_compose. apply list_fmap_ext. intros _ k _. unfold compose. f_equal. lia.
Qed.

Lemma masks_app r m n : masks p r (m + n) = masks p r m ++ masks p (r + 8 * m) n.
Proof.
  revert r. induction m as [|m IH]; intros r; [by rewrite Nat.add_0_r|]. cbn [Nat.add]. rewrite !masks_S, IH. cbn [app]. f_equal. f_equal. f_equal. lia.
Qed.

Lemma length_masks r n : length (masks p r n) = n.
Proof. unfold masks. by rewrite length_fmap, length_seq. Qed.

Lemma length_flipped r l : length (flipped p r l) = length l.
Proof. unfold flipped. rewrite length_zip_with, length_masks. lia. Qed.

Lemma flipped_app r l1 l2 : flipped p r (l1 ++ l2) = flipped p r l1 ++ flipped p (r + 8 * length l1) l2.
Proof. unfold flipped. rewrite length_app, masks_app. apply zip_with_app. by rewrite length_masks. Qed.

Lemma flipped_bytes r l : Forall is_byte l -> Forall is_byte (flipped p r l).
Proof.
  intros H. apply Forall_lookup. intros k x Hx. apply lookup_zip_with_Some in Hx as (a & b & -> & Ha & Hb).
  apply list_lookup_fmap_Some in Hb as (j & -> & _). apply lxor_byte; [by eapply Forall_lookup in H|apply mask_byte].
Qed.

Lemma flip_bits_steps k : forall i c n s, Forall is_byte c -> (i + k <= length c)%nat ->
  foldK (fun i bc => let! r := flip_byte p (byte_at bc.1 i) in
                     ret (<[Z.to_nat i := r.1]> bc.1, bc.2 + r.2)) (zrange (Z.of_nat i) (Z.of_nat (i + k))) (c, n) s
  = Ret (take i c ++ flipped p (c_rand s) (take k (drop i c)) ++ drop (i + k) c, n + hits p (c_rand s) (8 * k)) (Cst (c_fs s) (c_rand s + 8 * k)).
Proof.
  induction k as [|k IH]; intros i c n s Hc Hk.
  { rewrite zrange_nil by lia. destruct s as [fs r]. cbn [foldK c_rand c_fs]. change (flipped p r (take 0 (drop i c))) with (@nil Z). change (hits p r (8 * 0)) with 0.
    rewrite Nat.add_0_r, Z.add_0_r, app_nil_l, take_drop. by rewrite Nat.add_0_r. }
  rewrite zrange_cons by lia. cbn [foldK]. unfold bind at 1. unfold bind at 1. unfold byte_at. cbn [fst snd]. rewrite Nat2Z.id.
  destruct (lookup_lt_is_Some_2 c i) as [b Hb]; [lia|]. rewrite Hb. cbn [default from_option id].
  rewrite flip_byte_ok by (by eapply Forall_lookup in Hc). unfold ret at 1. cbn [fst snd].
  replace (Z.of_nat i + 1) with (Z.of_nat (S i)) by lia. replace (i + S k)%nat with (S i + k)%nat by lia.
  set (b' := Z.lxor b (mask p (c_rand s))). rewrite IH.
  - cbn [c_rand c_fs]. replace (8 * S k)%nat with (8 + 8 * k)%nat by lia. rewrite hits_add. f_equal; [|f_equal; lia].
    f_equal; [|lia]. rewrite (take_S_r _ _ b') by (apply list_lookup_insert_eq; lia). rewrite take_insert_ge, !drop_insert_lt by lia.
    rewrite (drop_S _ _ _ Hb). cbn [take]. change (flipped p (c_rand s) (b :: take k (drop (S i) c))) with
      (zip_with Z.lxor (b :: take k (drop (S i) c)) (masks p (c_rand s) (S (length (take k (drop (S i) c)))))).
    rewrite masks_S. cbn [zip_with]. fold b'. rewrite <- app_assoc. done.
  - apply Forall_insert; [done|]. apply lxor_byte; [by eapply Forall_lookup in Hc|apply mask_byte].
  - rewrite length_insert. lia.
Qed.

Lemma flip_bits_ok c n s : Forall is_byte c -> 0 <= n <= Z.of_nat (length c) ->
  flip_bits p c n s = Ret (flipped p (c_rand s) (take (Z.to_nat n) c) ++ drop (Z.to_nat n) c, hits p (c_rand s) (8 * Z.to_nat n))
                          (Cst (c_fs s) (c_rand s + 8 * Z.to_nat n)).
Proof.
  intros Hc Hn. pose proof (flip_bits_steps (Z.to_nat n) 0 c 0 s Hc ltac:(lia)) as H. rewrite drop_0 in H. cbn [Nat.add app take] in H.
  unfold flip_bits. rewrite Z2Nat.id in H by lia. exact H.
Qed.
End flips.
End rand.
