(* ===== verification/CfsThms.v ===== *)
(** What cfs.c does to an image, and when the kernel notices. *)
From S2P Require Import Prelude Bio Cache Log LogSpec Trans Str Fs FsView Alloc Content Verify FsImage Dir Path Write.
From S2P Require Import Mkfs MkfsInv MkfsIO MkfsBuild MkfsThms Boot Cfs.

(** ** Checksums are linear *)

Lemma add_lxor x y : is_byte x -> x + 256 * y = Z.lxor x (Z.shiftl y 8).
Proof.
  intros Hx. rewrite Z.shiftl_mul_pow2 by done. change (2 ^ 8) with 256. rewrite (Z.mul_comm y). apply Z.add_nocarry_lxor.
  change 256 with (2 ^ 8) at 1. rewrite Z.mul_comm, <- Z.shiftl_mul_pow2 by done. apply Z.bits_inj'. intros k Hk.
  rewrite Z.land_spec, Z.bits_0, Z.shiftl_spec by done. destruct (decide (k < 8)); [rewrite (Z.testbit_neg_r y) by lia; apply andb_false_r|].
  unfold is_byte in Hx. destruct (decide (x = 0)) as [->|]; [by rewrite Z.bits_0|]. rewrite Z.bits_above_log2; [done|lia|].
  assert (Z.log2 x < 8) by (apply Z.log2_lt_pow2; [lia|change (2 ^ 8) with 256; lia]). lia.
Qed.

Lemma le_dec_xor l : forall m, Forall is_byte l -> Forall is_byte m -> length l = length m ->
  le_dec (zip_with Z.lxor l m) = Z.lxor (le_dec l) (le_dec m).
Proof.
  induction l as [|x l IH]; intros [|y m] Hl Hm E; try done. apply Forall_cons in Hl as [Hx Hl], Hm as [Hy Hm].
  change (Z.lxor x y + 256 * le_dec (zip_with Z.lxor l m) = Z.lxor (x + 256 * le_dec l) (y + 256 * le_dec m)).
  rewrite IH, !add_lxor by (done || by apply lxor_byte || (cbn in E; lia)). rewrite Z.shiftl_lxor.
  rewrite <- !Z.lxor_assoc. f_equal. rewrite !Z.lxor_assoc. f_equal. apply Z.lxor_comm.
Qed.

Lemma checksum_xor l : forall m, Forall is_byte l -> Forall is_byte m -> length l = length m ->
  checksum (zip_with Z.lxor l m) = Z.lxor (checksum l) (checksum m).
Proof.
  induction l as [l Hs|a b c d l IH] using four_ind; intros m Hl Hm E.
  - rewrite !checksum_short by (rewrite ?length_zip_with; lia). by apply le_dec_xor.
  - destruct m as [|a' [|b' [|c' [|d' m]]]]; try (cbn in E; lia). cbn [zip_with checksum].
    change [Z.lxor a a'; Z.lxor b b'; Z.lxor c c'; Z.lxor d d'] with (zip_with Z.lxor [a; b; c; d] [a'; b'; c'; d']).
    change (a :: b :: c :: d :: l) with ([a; b; c; d] ++ l) in Hl. change (a' :: b' :: c' :: d' :: m) with ([a'; b'; c'; d'] ++ m) in Hm.
    apply Forall_app in Hl as [Hl1 Hl], Hm as [Hm1 Hm]. rewrite le_dec_xor, IH by (done || (cbn in E; lia)).
    rewrite <- !Z.lxor_assoc. f_equal. rewrite !Z.lxor_assoc. f_equal. apply Z.lxor_comm.
Qed.

(** ** Corrupting a file *)

Lemma imgm_ok {A} (m : K mst A) k a s : m (c_fs k) = Ret a s -> imgm m k = Ret a (Cst s (c_rand k)).
Proof. intros E. unfold imgm, zoom. by rewrite E. Qed.

Section corrupt.
Context (rand : nat -> Z) (p : Z) (Hp : p <> 0) (d : Z -> block) (own : owners) (inum type : Z) (c : list Z) (r0 : nat).
Hypotheses (Hblk : forall x, block_ok (d x)) (HF : disk_file d own inum type c) (Hown : forall b k, own !! b = Some k -> 29 <= b < 2048)
  (Hin : 0 <= inum <= 200).
Let di := dinode_at d inum.
Let len := Z.of_nat (length c).

(** Block [bn] of the file holds some of its bytes. *)
Let holds (bn : Z) : Prop := 0 <= bn /\ bn * 512 < len.

Lemma block_owned bn : holds bn -> own !! addr_of d di bn = Some (inum, bn) /\ 29 <= addr_of d di bn < 2048.
Proof. intros [H1 H2]. pose proof (df_blocks _ _ _ _ _ HF bn H1 H2) as H. split; [exact H|by eapply Hown]. Qed.

Lemma blocks_differ bn bn' : holds bn -> holds bn' -> addr_of d di bn = addr_of d di bn' -> bn = bn'.
Proof. intros H H' E. apply block_owned in H as [H _], H' as [H' _]. rewrite E, H' in H. by injection H. Qed.

Lemma ind_apart bn : holds bn -> NDIRECT * 512 < len -> ind di <> addr_of d di bn.
Proof.
  intros H Hl E. pose proof (df_ind _ _ _ _ _ HF Hl) as Hi. fold di in Hi. rewrite E in Hi. pose proof (df_max _ _ _ _ _ HF).
  apply block_owned in H as H'. destruct H' as [H' _]. rewrite Hi in H'. injection H' as <-. destruct H as [_ H]. consts. unfold len in *. lia.
Qed.

(** Only blocks that hold some of the first [off] bytes have changed. *)
Definition keeps_rest (s : mst) (off : Z) : Prop :=
  forall y, (forall bn, 0 <= bn -> bn * 512 < off -> y <> addr_of d di bn) -> cur s y = d y.

Lemma addr_kept s off bn : keeps_rest s off -> off <= len -> holds bn -> addr_of (cur s) di bn = addr_of d di bn.
Proof.
  intros HK Hoff H. unfold addr_of. destruct (Z.ltb_spec bn NDIRECT); [done|]. f_equal. fold (ind di).
  apply HK. intros bn' H1 H2. apply ind_apart; [split; [done|lia]|]. destruct H. consts. lia.
Qed.

(** The first [off] bytes have been dealt with. *)
Record flipping (s : mst) (off : Z) : Prop := {
  fl_len : m_len s = fssize;
  fl_block : forall x, block_ok (cur s x);
  fl_keep : keeps_rest s off;
  fl_bytes : file_bytes (cur s) di 0 off = flipped rand p r0 (take (Z.to_nat off) c)
}.

(** One block. *)
Section step.
Context (s : mst) (off : Z).
Hypothesis (HS : flipping s off) (Hoff : 0 <= off < len) (Hal : off `mod` 512 = 0).
Let x := addr_of d di (off / 512).
Let n1 := Z.min (len - off) 512.
Let buf' := flipped rand p (r0 + 8 * Z.to_nat off) (take (Z.to_nat n1) (d x)) ++ drop (Z.to_nat n1) (d x).

Let at_off : off = off / 512 * 512.
Proof. pose proof (Z.div_mod off 512). lia. Qed.
Let here : holds (off / 512).
Proof. split; [apply Z.div_pos; lia|lia]. Qed.

Lemma current_block : cur s x = d x.
Proof.
  apply (fl_keep _ _ HS). intros bn H1 H2 E. apply blocks_differ in E; [|done|split; lia]. lia.
Qed.

Lemma find_block : (if off / 512 <? NDIRECT then ret (xint (default 0 (di_addrs di !! Z.to_nat (off / 512))))
    else let! indirect := imgm (rsect (xint (default 0 (di_addrs di !! Z.to_nat NDIRECT)))) in
         ret (xint (get32 indirect (4 * (off / 512 - NDIRECT))))) (Cst s (r0 + 8 * Z.to_nat off)) = Ret x (Cst s (r0 + 8 * Z.to_nat off)).
Proof.
  pose proof (block_owned _ here) as [_ Hr]. fold x in Hr. pose proof (addr_kept s off _ (fl_keep _ _ HS) ltac:(lia) here) as Hk.
  unfold x in *. unfold addr_of in *. fold (ind di) in *. destruct (Z.ltb_spec (off / 512) NDIRECT) as [H|H].
  - unfold ret. by rewrite xint_id by lia.
  - assert (29 <= ind di < 2048) as Hi. { eapply Hown, (df_ind _ _ _ _ _ HF). consts. fold len. lia. }
    rewrite xint_id by lia. unfold imgm, zoom, rsect, bind, get. cbn [c_fs c_rand]. rewrite (fl_len _ _ HS).
    destruct (Z.ltb_spec (ind di) fssize); [|unfold fssize in *; lia]. cbv iota. unfold ret. fold (cur s). rewrite Hk. by rewrite xint_id by lia.
Qed.

Lemma block_content : take (Z.to_nat n1) (d x) = take (Z.to_nat n1) (drop (Z.to_nat off) c).
Proof.
  assert (slice c off n1 = slice (d x) 0 n1) as H; [|unfold slice in H; by rewrite drop_0 in H].
  rewrite <- (df_content _ _ _ _ _ HF). pose proof (df_size _ _ _ _ _ HF) as Hs. fold di len in Hs |- *.
  rewrite slice_content by lia. rewrite file_bytes_block; consts; rewrite ?Hal; [done|lia..|apply Hblk].
Qed.

Lemma flipped_block_ok : block_ok buf'.
Proof.
  destruct (Hblk x) as [Hl Hb]. split.
  - unfold buf'. rewrite length_app, length_flipped, length_take, length_drop. lia.
  - unfold buf'. apply Forall_app_2; [apply flipped_bytes, Forall_take, Hb|apply Forall_drop, Hb].
Qed.

Lemma write_flipped : exists s', wsect x buf' s = Ret tt s' /\ flipping s' (off + n1).
Proof.
  pose proof (block_owned _ here) as [_ Hr]. fold x in Hr. eexists. split; [reflexivity|].
  set (s' := Mst _ _ _ _ _). assert (forall y, cur s' y = if decide (y = x) then buf' else cur s y) as Hc by (intros; apply disk_insert).
  assert (keeps_rest s' (off + n1)) as HK.
  { intros y Hy. rewrite Hc, decide_False by (apply Hy; lia). apply (fl_keep _ _ HS). intros bn H1 H2. apply Hy; lia. }
  split.
  - cbn. rewrite (fl_len _ _ HS). unfold fssize. lia.
  - intros y. rewrite Hc. case_decide; [apply flipped_block_ok|apply HS].
  - exact HK.
  - rewrite file_bytes_app, Z.add_0_l by lia. rewrite Z2Nat.inj_add, <- take_take_drop, flipped_app by lia. f_equal.
    + rewrite <- (fl_bytes _ _ HS). apply file_bytes_ext; [lia|]. intros o Ho. unfold file_byte. consts.
      assert (holds (o / 512)) as Hh. { split; [apply Z.div_pos; lia|]. pose proof (Z.mul_div_le o 512). lia. }
      rewrite (addr_kept s' _ _ HK), (addr_kept s off _ (fl_keep _ _ HS)) by (done || lia). f_equal. rewrite Hc, decide_False; [done|].
      intros E. apply blocks_differ in E; [|done|done]. pose proof (Z.mod_pos_bound o 512). pose proof (Z.div_mod o 512). lia.
    + rewrite length_take, Nat.min_l by lia. rewrite file_bytes_block; consts; rewrite ?Hal; [|lia..|rewrite Hc; case_decide; [apply flipped_block_ok|apply HS]].
      rewrite (addr_kept s' _ _ HK) by (done || lia). fold x. rewrite Hc, decide_True by done. unfold slice. rewrite drop_0. unfold buf'.
      rewrite take_app_length' by (rewrite length_flipped, length_take; destruct (Hblk x) as [-> _]; consts; lia). by rewrite block_content.
Qed.
End step.

Let drawn (off : Z) : nat := (r0 + 8 * Z.to_nat off)%nat.

Lemma corrupt_loop_ok fuel : forall s off k, flipping s off -> 0 <= off <= len -> off `mod` 512 = 0 \/ off = len ->
  len - off <= 512 * Z.of_nat fuel ->
  exists s', corrupt_loop rand fuel di off (len - off) p k (Cst s (drawn off)) = Ret (k + hits rand p (drawn off) (8 * Z.to_nat (len - off))) (Cst s' (drawn len)) /\
    flipping s' len.
Proof.
  pose proof (df_max _ _ _ _ _ HF) as Hmax. fold len in Hmax. change (MAXFILE * BSIZE) with 70656 in Hmax.
  induction fuel as [|fuel IH]; intros s off k HS Hoff Hal Hf; destruct (decide (off = len)) as [->|Hne]; try lia.
  1, 2: exists s; split; [|done]; cbn [corrupt_loop]; rewrite Z.sub_diag; change (0 <? 0) with false; cbn; by rewrite Z.add_0_r.
  destruct Hal as [Hal|]; [|done]. cbn [corrupt_loop]. destruct (Z.ltb_spec 0 (len - off)); [|lia]. cbv zeta.
  assert (off = off / 512 * 512) as Ho by (pose proof (Z.div_mod off 512); lia).
  assert ((off / 512 <? MAXFILE) = true) as -> by (apply Z.ltb_lt; consts; lia). change (imgm (assert true)) with (imgm (ret ())).
  rewrite (bind_eq _ _ _ _ _ (imgm_ok _ _ _ _ (eq_refl : ret () (c_fs (Cst s (drawn off))) = Ret () s))). cbn [c_rand].
  pose proof (find_block s off HS ltac:(lia) Hal) as Ex. change (r0 + 8 * Z.to_nat off)%nat with (drawn off) in Ex.
  rewrite (bind_eq _ _ _ _ _ Ex). clear Ex.
  set (x := addr_of d di (off / 512)). rewrite (u32_small (_ - off)) by lia.
  replace ((off / 512 + 1) * 512 - off) with 512 by lia. set (n1 := Z.min (len - off) 512).
  assert (imgm (rsect x) (Cst s (drawn off)) = Ret (d x) (Cst s (drawn off))) as Er.
  { unfold imgm, zoom, rsect, bind, get. cbn [c_fs c_rand]. rewrite (fl_len _ _ HS).
    destruct (block_owned (off / 512)) as [_ Hr]; [split; lia|]. fold x in Hr. destruct (Z.ltb_spec x fssize); [|unfold fssize in *; lia].
    unfold ret. fold (cur s). unfold x. by rewrite (current_block s off HS ltac:(lia) Hal). }
  rewrite (bind_eq _ _ _ _ _ Er). destruct (Hblk x) as [Hl Hb]. change (Z.to_nat BSIZE) with 512%nat in Hl.
  rewrite (bind_eq _ _ _ _ _ (flip_bits_ok rand p Hp (d x) n1 _ Hb ltac:(lia))). cbn [c_fs c_rand fst snd].
  destruct (write_flipped s off HS ltac:(lia) Hal) as (s1 & Ew & HS1). fold x n1 in Ew, HS1. change (r0 + 8 * Z.to_nat off)%nat with (drawn off) in Ew.
  rewrite (bind_eq _ _ _ _ _ (imgm_ok _ (Cst s (drawn off + 8 * Z.to_nat n1)) _ _ Ew)). cbn [c_rand].
  rewrite u32_small by lia. replace (len - off - n1) with (len - (off + n1)) by lia.
  replace (drawn off + 8 * Z.to_nat n1)%nat with (drawn (off + n1)) by (unfold drawn; lia).
  destruct (IH s1 (off + n1) (k + hits rand p (drawn off) (8 * Z.to_nat n1)) HS1) as (s' & E' & HS'); [lia| |lia|].
  { unfold n1. destruct (Z.min_spec (len - off) 512) as [[? ->]|[? ->]]; [right; lia|left].
    rewrite Ho. replace (off / 512 * 512 + 512) with (0 + (off / 512 + 1) * 512) by lia. by rewrite Z.mod_add. }
  exists s'. split; [|done]. rewrite E'. f_equal. rewrite <- Z.add_assoc. f_equal.
  replace (8 * Z.to_nat (len - off))%nat with (8 * Z.to_nat n1 + 8 * Z.to_nat (len - (off + n1)))%nat by lia.
  rewrite hits_add. do 2 f_equal. unfold drawn. lia.
Qed.

(** What is left of the image: [counter] bits are flipped. *)
Record corrupted (s' : mst) : Prop := {
  co_len : m_len s' = fssize;
  co_block : forall x, block_ok (cur s' x);
  co_keep : forall y, (forall bn, 0 <= bn -> bn * 512 < len -> y <> addr_of d di bn) -> cur s' y = d y;
  co_content : file_content (cur s') di = flipped rand p r0 c
}.

Lemma icorrupt_ok s : m_len s = fssize -> (forall y, cur s y = d y) ->
  exists s', icorrupt rand inum len p (Cst s r0) = Ret (hits rand p r0 (8 * length c)) (Cst s' (r0 + 8 * length c)) /\ corrupted s'.
Proof.
  intros Hl Hd. pose proof (IBLOCK_range inum Hin) as Hi. pose proof (dinode_off_range inum) as Ho. change BSIZE with 512 in Ho.
  assert (rsect (IBLOCK inum) s = Ret (d (IBLOCK inum)) s) as Er.
  { unfold rsect, bind, get. rewrite Hl. destruct (Z.ltb_spec (IBLOCK inum) fssize); [|unfold fssize in *; lia]. unfold ret. fold (cur s). by rewrite Hd. }
  unfold icorrupt. assert (rinode inum (c_fs (Cst s r0)) = Ret di s) as Ei.
  { unfold rinode. change (i2b inum) with (IBLOCK inum). by rewrite (bind_eq _ _ _ _ _ Er). }
  rewrite (bind_eq _ _ _ _ _ (imgm_ok _ _ _ _ Ei)). cbn [c_rand].
  destruct (corrupt_loop_ok (loop_bound len) s 0 0) as (s1 & E1 & HS).
  { split; [done|intros x; rewrite Hd; apply Hblk|intros y _; apply Hd|]. done. }
  { unfold len. lia. } { by left. }
  { unfold loop_bound. change BSIZE with 512. pose proof (Z.div_mod len 512). pose proof (Z.mod_pos_bound len 512).
    pose proof (Z.div_pos len 512). unfold len in *. lia. }
  rewrite Z.sub_0_r in E1. unfold drawn in E1. change (Z.to_nat 0) with 0%nat in E1. rewrite Nat.mul_0_r, Nat.add_0_r in E1.
  rewrite Z.add_0_l in E1. unfold len in E1. rewrite Nat2Z.id in E1. fold len in E1. rewrite (bind_eq _ _ _ _ _ E1).
  assert (cur s1 (IBLOCK inum) = d (IBLOCK inum)) as Eb.
  { apply (fl_keep _ _ HS). intros bn H1 H2. pose proof (block_owned bn (conj H1 H2)). lia. }
  destruct (Hblk (IBLOCK inum)) as [Hlen Hby]. change (Z.to_nat BSIZE) with 512%nat in Hlen.
  set (s' := Mst (<[IBLOCK inum := d (IBLOCK inum)]> (m_img s1)) (Z.max (m_len s1) (IBLOCK inum + 1)) (m_freeblock s1) (m_usedblocks s1) (m_freeinode s1)).
  assert (forall y, cur s' y = cur s1 y) as Ec. { intros y. etrans; [apply disk_insert|]. case_decide; [subst y; by rewrite Eb|done]. }
  assert (winode inum di s1 = Ret tt s') as Ew.
  { unfold winode. change (i2b inum) with (IBLOCK inum). unfold rsect at 1, bind at 1 2, get. rewrite (fl_len _ _ HS).
    destruct (Z.ltb_spec (IBLOCK inum) fssize); [|unfold fssize in *; lia]. unfold ret at 1. fold (cur s1). rewrite Eb.
    unfold di, dinode_at. rewrite put_get_inode by (done || lia). done. }
  rewrite (bind_eq _ _ _ _ _ (imgm_ok _ (Cst s1 _) _ _ Ew)). exists s'. split; [done|]. split.
  - cbn. rewrite (fl_len _ _ HS). unfold fssize. lia.
  - intros x. rewrite Ec. apply HS.
  - intros y Hy. rewrite Ec. by apply (fl_keep _ _ HS).
  - unfold file_content. rewrite (df_size _ _ _ _ _ HF : di_size di = _). fold len.
    rewrite (file_bytes_ext (cur s1) (cur s') di di); [|unfold len; lia|].
    + rewrite (fl_bytes _ _ HS). unfold len. by rewrite Nat2Z.id, firstn_all.
    + intros o _. unfold file_byte, addr_of. by rewrite !Ec.
Qed.
End corrupt.

(** ** The tree after cfs *)

(** The file list with other contents, of the same length, in one place. *)
Section relisted.
Context (files : list (list Z * list Z)) (k : nat) (f : list Z * list Z) (c' : list Z).
Hypotheses (Hk : files !! k = Some f) (Hlen : length c' = length f.2).
Let files' := <[k := (f.1, c')]> files.

Lemma entries_relisted i : entries i files' = entries i files.
Proof.
  unfold files'. clear files' Hlen. revert i k Hk. induction files as [|g l IH]; intros i [|j] Hj; try done.
  - by injection Hj as ->.
  - cbn. by rewrite IH.
Qed.

Lemma root_bytes_relisted : root_bytes files' = root_bytes files.
Proof. unfold root_bytes, root_entries. by rewrite entries_relisted. Qed.

Lemma image_cost_relisted : image_cost files' = image_cost files.
Proof.
  unfold image_cost, cost, root_cost, root_entries. rewrite root_bytes_relisted, entries_relisted.
  assert (file_cost files' = file_cost files) as ->; [|done].
  unfold files'. clear files'. revert k Hk. induction files as [|g l IH]; intros [|j] Hj; try done.
  - injection Hj as ->. cbn. by rewrite Hlen.
  - cbn. f_equal. by apply IH.
Qed.

Lemma fit_relisted : files_fit files -> Forall is_byte c' -> files_fit files'.
Proof.
  intros [F1 F2 F3] Hc. assert (arg_ok f) as [A1 A2 A3 A4] by (by eapply Forall_lookup in F1).
  split; [|unfold files'; by rewrite length_insert|by rewrite image_cost_relisted].
  apply Forall_insert; [done|]. split; cbn; try done. by rewrite Hlen.
Qed.

Lemma named_relisted : named files k f -> named files' k (f.1, c').
Proof.
  intros [N1 N2 N3 N4]. split; [by apply list_lookup_insert_eq; eapply lookup_lt_Some| |done|done].
  unfold names_differ in *. assert ((fun f => key (entry_name f.1)) <$> files' = (fun f => key (entry_name f.1)) <$> files) as ->; [|done].
  unfold files'. rewrite list_fmap_insert. apply list_insert_id. by rewrite list_lookup_fmap, Hk.
Qed.
End relisted.

(** A file whose own blocks have not changed. *)
Lemma disk_file_frame d d' own j bad type c : (forall y, (forall bn, own !! y <> Some (bad, bn)) -> d' y = d y) ->
  (forall b k, own !! b = Some k -> 29 <= b) -> 0 <= j <= 200 -> j <> bad -> disk_file d own j type c ->
  disk_file d' own j type c /\ dinode_at d' j = dinode_at d j /\ (intact d (dinode_at d j) = true -> intact d' (dinode_at d' j) = true).
Proof.
  intros Hd Hown Hj Hne HD. assert (dinode_at d' j = dinode_at d j) as Ei.
  { unfold dinode_at. rewrite Hd; [done|]. intros bn H%Hown. pose proof (IBLOCK_range j Hj). lia. }
  pose proof HD as [D1 D2 D3 D4 D5 D6 D8 D9]. set (di := dinode_at d j) in *.
  assert (forall bn, 0 <= bn -> bn * BSIZE < Z.of_nat (length c) -> addr_of d' di bn = addr_of d di bn) as Ha.
  { intros bn H1 H2. unfold addr_of. destruct (Z.ltb_spec bn NDIRECT); [done|]. f_equal. fold (ind di). apply Hd. intros bn'.
    rewrite D9 by (consts; lia). congruence. }
  assert (file_content d' di = file_content d di) as Ec.
  { apply file_bytes_ext; [lia|]. intros o Ho. rewrite D3 in Ho. unfold file_byte.
    assert (0 <= o / BSIZE /\ o / BSIZE * BSIZE < Z.of_nat (length c)) as [H1 H2].
    { consts. split; [apply Z.div_pos; lia|]. pose proof (Z.mul_div_le o 512). lia. }
    rewrite Ha by done. f_equal. apply Hd. intros bn'. rewrite D8 by done. congruence. }
  split_and!; [|done|].
  - split; rewrite ?Ei; try done; [by rewrite Ec|]. intros bn H1 H2. rewrite Ha by done. by apply D8.
  - unfold intact. by rewrite Ei, Ec.
Qed.

Section tree.
Context (rand : nat -> Z) (p : Z) (r0 : nat) (d : Z -> block) (own : owners) (files : list (list Z * list Z)) (k : nat) (f : list Z * list Z) (s' : mst).
Hypotheses (HI : mkfs_image d own files) (Hfit : files_fit files) (Hk : files !! k = Some f)
  (HC : corrupted rand p d (2 + Z.of_nat k) f.2 r0 s').
Let inum := 2 + Z.of_nat k.
Let c' := flipped rand p r0 f.2.
Let files' := <[k := (f.1, c')]> files.
Let HF : disk_file d own inum T_FILE f.2 := mi_files _ _ _ _ HI k f Hk.

Let own_range b x : own !! b = Some x -> 29 <= b < 2028.
Proof. intros H. apply (mi_own _ _ _ _ HI) in H. pose proof (ff_blocks _ Hfit). lia. Qed.
Let length_c' : length c' = length f.2.
Proof. apply length_flipped. Qed.
Let inodes : 2 <= inum < 2 + Z.of_nat (length files) /\ Z.of_nat (length files) + 4 <= 200.
Proof. pose proof (lookup_lt_Some _ _ _ Hk). pose proof (ff_inodes _ Hfit). unfold inum. lia. Qed.

Lemma tree_keep y : (forall bn, own !! y <> Some (inum, bn)) -> cur s' y = d y.
Proof. intros Hy. apply (co_keep _ _ _ _ _ _ _ HC). intros bn H1 H2 ->. by apply (Hy bn), (df_blocks _ _ _ _ _ HF). Qed.

Lemma tree_inode : dinode_at (cur s') inum = dinode_at d inum.
Proof.
  unfold dinode_at. rewrite tree_keep; [done|]. intros bn H%own_range. pose proof (IBLOCK_range inum ltac:(unfold ninodes; lia)). lia.
Qed.

Lemma corrupted_file : disk_file (cur s') own inum T_FILE c'.
Proof.
  pose proof HF as [D1 D2 D3 D4 D5 D6 D8 D9].
  split; rewrite ?tree_inode, ?length_c'; try done; [apply HC|].
  intros bn H1 H2. rewrite <- (D8 bn H1 H2). f_equal. unfold addr_of. destruct (Z.ltb_spec bn NDIRECT); [done|]. f_equal.
  fold (ind (dinode_at d inum)). apply (co_keep _ _ _ _ _ _ _ HC). intros bn' H3 H4 E. fold inum in E.
  pose proof (D8 bn' H3 H4) as Hx. rewrite <- E, D9 in Hx by (consts; lia). injection Hx as <-. consts. lia.
Qed.

Lemma corrupted_tree : image_tree (cur s') own files' inum.
Proof.
  assert (forall j t x, 0 <= j <= 200 -> j <> inum -> disk_file d own j t x -> disk_file (cur s') own j t x /\ dinode_at (cur s') j = dinode_at d j /\
    (intact d (dinode_at d j) = true -> intact (cur s') (dinode_at (cur s') j) = true)) as Hfr.
  { intros j t x Hj Hne HD. eapply disk_file_frame; [apply tree_keep| |done|done|done]. intros b y H%own_range. lia. }
  assert (forall y, y < 29 \/ 2028 <= y -> cur s' y = d y) as Hlow by (intros y Hy; apply tree_keep; intros bn H%own_range; lia).
  assert (length files' = length files) as El by apply length_insert.
  split; rewrite ?El; unfold files'; rewrite ?(root_bytes_relisted _ _ _ _ Hk), ?(image_cost_relisted _ _ _ _ Hk length_c').
  - rewrite Hlow by lia. apply HI.
  - pose proof (mi_log _ _ _ _ HI) as [L1 L2 L3 L4 L5 L6 L7]. split; rewrite ?Hlow by lia; try done. apply HC.
  - intros b Hb. rewrite <- (mi_bitmap _ _ _ _ HI b Hb). unfold blk_free. rewrite Hlow; [done|]. left. unfold BBLOCK, IPB, BPB, BSIZE.
    change (200 / (512 / 64)) with 25. rewrite Z.div_small by lia. lia.
  - apply HI.
  - apply Hfr; [lia|lia|apply HI].
  - destruct (Hfr 1 T_DIR _ ltac:(lia) ltac:(lia) (mi_root _ _ _ _ HI)) as (_ & -> & _). apply HI.
  - apply Hfr; [lia|lia|apply HI].
  - apply Hfr; [lia|lia|apply HI].
  - intros j g Hj. destruct (decide (j = k)) as [->|Hne].
    + rewrite list_lookup_insert_eq in Hj by (by eapply lookup_lt_Some). injection Hj as <-. apply corrupted_file.
    + rewrite list_lookup_insert_ne in Hj by done. pose proof (lookup_lt_Some _ _ _ Hj).
      apply Hfr; [lia|unfold inum; lia|by apply (mi_files _ _ _ _ HI)].
  - intros j g Hj. destruct (decide (j = k)) as [->|Hne].
    + cbv zeta. fold inum. rewrite tree_inode. apply (mi_single _ _ _ _ HI k f Hk).
    + rewrite list_lookup_insert_ne in Hj by done. pose proof (lookup_lt_Some _ _ _ Hj). cbv zeta.
      destruct (Hfr (2 + Z.of_nat j) T_FILE g.2 ltac:(lia) ltac:(unfold inum; lia) (mi_files _ _ _ _ HI j g Hj)) as (_ & -> & _).
      by apply (mi_single _ _ _ _ HI j g).
  - intros j Hj Hne. assert (exists t x, disk_file d own j t x) as (t & x & HD).
    { destruct (decide (j = 1)) as [->|]; [eexists _, _; apply HI|].
      destruct (decide (j = 2 + Z.of_nat (length files))) as [->|]; [eexists _, _; apply HI|].
      destruct (decide (j = 3 + Z.of_nat (length files))) as [->|]; [eexists _, _; apply HI|].
      destruct (lookup_lt_is_Some_2 files (Z.to_nat (j - 2))) as [g Hg]; [lia|]. eexists _, _. replace j with (2 + Z.of_nat (Z.to_nat (j - 2))) by lia.
      by apply (mi_files _ _ _ _ HI). }
    apply (Hfr j t x); [lia|done|done|]. apply (mi_intact _ _ _ _ HI); [done|lia].
Qed.

(** The checksum of the corrupted file fits when the flipped bits cancel out. *)
Lemma corrupted_intact : intact (cur s') (dinode_at (cur s') inum) = (checksum (masks rand p r0 (length f.2)) =? 0).
Proof.
  unfold intact. rewrite (df_content _ _ _ _ _ corrupted_file), tree_inode.
  pose proof (mi_intact _ _ _ _ HI inum ltac:(lia) ltac:(lia)) as H. unfold intact in H. rewrite (df_content _ _ _ _ _ HF) in H.
  apply Z.eqb_eq in H. rewrite <- H. unfold c', flipped.
  assert (Forall is_byte f.2) as Hb. { pose proof (ff_args _ Hfit) as Ha. by eapply Forall_lookup in Ha as []. }
  rewrite checksum_xor; [|done|apply Forall_fmap, Forall_true; intros; apply mask_byte|by rewrite length_masks].
  apply Bool.eq_iff_eq_true. rewrite !Z.eqb_eq. split; [|intros ->; apply Z.lxor_0_r].
  intros E. apply (lxor_cancel_l (checksum f.2)). by rewrite E, Z.lxor_0_r.
Qed.
End tree.

(** Locking an inode without dittos through a settled cache. *)
Lemma ilock_single g devsw φ W ic j q inum : Rep g φ (at_ic W ic) -> (0 < wroom W)%nat -> settled (w_cur W) ic None -> ic !! j = Some q ->
  caches inum q = true -> sound_inode g W inum -> di_child1 (dinode_at (w_cur W) inum) = 0 /\ di_child2 (dinode_at (w_cur W) inum) = 0 ->
  exists φ', ilock devsw (Some j) φ = Ret (if intact (w_cur W) (dinode_at (w_cur W) inum) then 0 else E_CORRUPTED) φ'.
Proof.
  intros HR Hr Hs Hq Hc Hso [Hc1 Hc2]. apply caches_spec in Hc as (Hp & Hd & Hi). destruct (Hs j q Hq) as [_ H]. destruct (H Hp) as (_ & Hv & Hb).
  rewrite bool_decide_false in Hb by done.
  assert (wp (ilock devsw (Some j)) (fun r _ => r = if intact (w_cur W) (dinode_at (w_cur W) inum) then 0 else E_CORRUPTED) φ) as Hwp.
  2:{ apply wp_Ret in Hwp as (r & φ' & E & ->). by exists φ'. }
  unfold ilock, ilock_ext. change (Z.to_nat NINODE) with (S 99). destruct (flag (i_flags q) I_VALID) eqn:Ev.
  - destruct (Hv eq_refl) as [_ Hok]. rewrite Hi in Hok. rewrite Hok. cbn [ilock_rec]. rewrite wp_bind. eapply (r_geti g φ (at_ic W ic)); [done|done|].
    destruct (Z.ltb_spec (i_ref q) 1); [lia|]. rewrite Hb. rewrite wp_bind. eapply (r_updi g φ (at_ic W ic)); [done|done|].
    intros φ1 HR1. rewrite Ev. by apply wp_ret.
  - eapply (ilock_spec g devsw 99 φ (at_ic W ic) j q inum); [exact HR|exact Hq|split_and!; done || lia|by apply sound_at| |exact Hr|].
    + split; change (w_cur (at_ic W ic)) with (w_cur W); rewrite ?Hc1, ?Hc2; try done. by right.
    + intros φ' ic' _ _ _. unfold ilock_result. change (w_cur (at_ic W ic)) with (w_cur W). by rewrite Hc1.
Qed.

(** The bits cfs flips in inode [inum], and how many. *)
Definition cfs_args (argv : list (list Z)) (inum p : Z) : Prop :=
  exists a b, argv !! 2%nat = Some a /\ argv !! 3%nat = Some b /\ host_atoi a = inum /\ s32 (host_atoi b) = p.

Lemma cfs_main_ok rand p d own inum type c r0 s argv : p <> 0 -> (forall x, block_ok (d x)) -> disk_file d own inum type c ->
  (forall b k, own !! b = Some k -> 29 <= b < 2048) -> 0 <= inum <= 200 -> m_len s = fssize -> (forall y, cur s y = d y) -> cfs_args argv inum p ->
  exists s', cfs_main rand argv (Cst s r0) = Ret (Some (hits rand p r0 (8 * length c))) (Cst s' (r0 + 8 * length c)) /\ corrupted rand p d inum c r0 s'.
Proof.
  intros Hp Hb HF Ho Hi Hl Hd (a & b & Ha & Eb & Ea & Ep).
  destruct (icorrupt_ok rand p Hp d own inum type c r0 Hb HF Ho Hi s Hl Hd) as (s' & E & HC). exists s'. split; [|exact HC].
  unfold cfs_main. pose proof (lookup_lt_Some _ _ _ Eb). destruct (Z.ltb_spec (Z.of_nat (length argv)) 3); [lia|].
  rewrite Ha, Eb. cbn [default from_option id]. rewrite Ea, Ep, u32_small by lia. cbv zeta.
  assert (rinode inum (c_fs (Cst s r0)) = Ret (dinode_at d inum) s) as Ei.
  { unfold rinode, rsect. cbn [c_fs]. change (i2b inum) with (IBLOCK inum). unfold bind, get. rewrite Hl. pose proof (IBLOCK_range inum Hi).
    destruct (Z.ltb_spec (IBLOCK inum) fssize); [|unfold fssize in *; lia]. unfold ret. fold (cur s). by rewrite Hd. }
  rewrite (bind_eq _ _ _ _ _ (imgm_ok _ _ _ _ Ei)). cbn [c_rand]. rewrite (df_size _ _ _ _ _ HF).
  pose proof (df_max _ _ _ _ _ HF) as Hm. change (MAXFILE * BSIZE) with 70656 in Hm. rewrite xint_id, s32_small by lia.
  by rewrite (bind_eq _ _ _ _ _ E).
Qed.

(** C12. A file of an image that mkfs made as in C11 is corrupted by cfs with one bit
    in [p], [p] not 0, where the stream of random numbers is arbitrary: cfs
    reports the number of bits it flipped, and the kernel that boots on the image
    finds the file under its name. Locking it gives [E_CORRUPTED], unless the
    flipped bits cancel out in the checksum: then the file, with the flipped
    bits, is taken for intact. *)
Theorem cfs_detected rand devsw files k f argv p r : files_fit files -> (Z.of_nat (length files) + 2) `mod` 32 <> 0 -> named files k f ->
  cfs_args argv (2 + Z.of_nat k) p -> p <> 0 -> let n := length f.2 in
  exists s s' κ j φ φ', main (args files) mkfs_start = Ret tt s /\
    cfs_main rand argv (Cst s r) = Ret (Some (hits rand p r (8 * n))) (Cst s' (r + 8 * n)) /\
    file_content (cur s') (dinode_at (cur s') (2 + Z.of_nat k)) = flipped rand p r f.2 /\
    initlog (boot (m_img s') 2048) = Ret tt κ /\ namei devsw (47 :: entry_name f.1) (iinit κ) = Ret (Some j) φ /\
    ilock devsw (Some j) φ = Ret (if checksum (masks rand p r n) =? 0 then 0 else E_CORRUPTED) φ'.
Proof.
  intros Hfit Hh Hk Harg Hp n. destruct (mkfs_tree files Hfit Hh) as (s & own & E & El & HI). pose proof (nm_file _ _ _ Hk) as Hf.
  pose proof (file_number files k f Hfit Hk) as Hin. pose proof (ff_blocks _ Hfit) as Hcost.
  destruct (cfs_main_ok rand p (cur s) own (2 + Z.of_nat k) T_FILE f.2 r s argv Hp (ld_ok _ _ _ _ _ (mi_log _ _ _ _ HI)) (mi_files _ _ _ _ HI k f Hf))
    as (s' & Ec & HC); [intros b x Hb; apply (mi_own _ _ _ _ HI) in Hb; lia|exact Hin|exact El|reflexivity|exact Harg|].
  pose proof (corrupted_tree rand p r (cur s) own files k f s' HI Hfit Hf HC) as HT. set (c' := flipped rand p r f.2) in *.
  pose proof (fit_relisted files k f c' Hf (length_flipped _ _ _ _)) as Hfit'. pose proof (named_relisted files k f c' Hf Hk) as Hk'.
  specialize (Hfit' Hfit ltac:(apply flipped_bytes; pose proof (ff_args _ Hfit) as Ha; by eapply Forall_lookup in Ha as [])).
  set (files' := <[k := (f.1, c')]> files) in *. set (d := m_img s'). change (cur s') with (disk_of d) in *.
  destruct (boot_idle d icache0 None (mi_log _ _ _ _ HT)) as (κ & Eb & HR). set (W := boot_view d 2028 [] icache0 None) in *.
  assert (0 < wroom W)%nat as Hw by (unfold W; rewrite boot_wroom; lia).
  destruct (namei_spec (boot_geom d) devsw W Hw _ (47 :: entry_name f.1) 1 HR) as (q & φ & En & Hres).
  { apply icache0_settled. } { by vm_compute. } { done. } { eapply (healthy_root d own files' _ k _ HT Hfit' Hk'). lia. }
  pose proof (walk_root d own files' _ k _ HT Hfit' Hk') as Hwalk. cbn [fst] in Hwalk. change (w_cur W) with (disk_of d) in Hres. rewrite Hwalk in Hres.
  destruct Hres as (ic & HR1 & Hs & j & e & -> & He & Hce & _).
  pose proof (mi_files _ _ _ _ HT k _ (nm_file _ _ _ Hk')) as HF'.
  destruct (ilock_single (boot_geom d) devsw φ W ic j e (2 + Z.of_nat k) HR1 Hw Hs He Hce) as (φ' & Ei).
  { eapply (disk_sound d own files' _ icache0 None HT Hfit' _ T_FILE); [exact HF'|exact Hin|done|done]. }
  { apply (mi_single _ _ _ _ HT k _ (nm_file _ _ _ Hk')). }
  exists s, s', κ, j, φ, φ'. change (w_cur W) with (cur s') in Ei.
  rewrite (corrupted_intact rand p r (cur s) own files k f s' HI Hfit Hf HC) in Ei.
  exact (conj E (conj Ec (conj (df_content _ _ _ _ _ HF') (conj Eb (conj En Ei))))).
Qed.

Lemma cfs_detected_witness : exists s s' κ j φ φ', main (args demo) mkfs_start = Ret tt s /\
  cfs_main Z.of_nat [lit "cfs"; lit "fs.img"; lit "3"; lit "3"] (Cst s 0) = Ret (Some 14) (Cst s' 40) /\
  file_content (cur s') (dinode_at (cur s') 3) = [72; 144; 39; 77; 151] /\ initlog (boot (m_img s') 2048) = Ret tt κ /\
  namei no_devsw (47 :: lit "cat") (iinit κ) = Ret (Some j) φ /\ ilock no_devsw (Some j) φ = Ret E_CORRUPTED φ'.
Proof.
  apply (cfs_detected Z.of_nat no_devsw demo 1 _ [lit "cfs"; lit "fs.img"; lit "3"; lit "3"] 3 0 demo_fit ltac:(done) demo_named); [|done].
  exists (lit "3"), (lit "3"). done.
Defined.

(** Flipping every bit of a file of [8 n] bytes is never noticed. *)
Lemma all_flipped_undetected rand r n : checksum (masks rand 1 r (8 * n)) = 0.
Proof.
  revert r. induction n as [|n IH]; intros r; [done|]. replace (8 * S n)%nat with (8 + 8 * n)%nat by lia. rewrite masks_app.
  assert (forall r, mask rand 1 r = 255) as Hm by (intros q; unfold mask, mask_from, hit; by rewrite !Z.rem_1_r).
  assert (masks rand 1 r 8 = replicate 8 255) as -> by (change (replicate 8 255) with ((fun _ => 255) <$> seq 0 8); apply list_fmap_ext; intros; apply Hm).
  rewrite checksum_app by (by exists 2). by rewrite IH.
Qed.
