(* ===== verification/Rescue.v ===== *)
(** Rescue: [ilock_trans] copies an intact ditto over a file that fails its
    checksum, and what a crash during the copy leaves. *)
From S2P Require Import Prelude Bio Cache Log LogSpec Trans Txn Str Fs FsView Alloc Content Verify FsImage Write FsTxn.

(** ** Two files on the same disk *)

(** The blocks of [di] below its size, and its indirect block if it has more than
    [NDIRECT], are neither [ib] nor blocks of the file [dst] below [lim]. *)
Record apart (cur : Z -> block) (dst : dinode) (ib lim : Z) (di : dinode) : Prop := {
  ap_data : forall bn, in_lim (di_size di) bn -> addr_of cur di bn <> ib /\
    forall bn', in_lim lim bn' -> addr_of cur di bn <> addr_of cur dst bn';
  ap_ind : NDIRECT * BSIZE < di_size di -> let a := default 0 (di_addrs di !! Z.to_nat NDIRECT) in a <> ib /\
    forall bn', in_lim lim bn' -> a <> addr_of cur dst bn'
}.

(** The contents [l1] up to [k], then [l2]. *)
Definition patched (l1 l2 : list Z) (k : Z) : list Z := take (Z.to_nat k) l1 ++ drop (Z.to_nat k) l2.

Lemma patched_step l1 l2 k m : length l1 = length l2 -> 0 <= k -> 0 <= m -> k + m <= Z.of_nat (length l1) ->
  splice (patched l1 l2 k) k (slice l1 k m) = patched l1 l2 (k + m).
Proof.
  intros Hl Hk Hm Hb. unfold patched, splice, slice. rewrite Z2Nat.inj_add by lia.
  rewrite length_take, length_drop, Nat.min_l by lia. rewrite take_app_le by (rewrite length_take; lia). rewrite take_take, Nat.min_id.
  rewrite drop_app_ge by (rewrite length_take; lia). rewrite length_take, Nat.min_l, drop_drop by lia.
  rewrite app_assoc, take_take_drop. f_equal. f_equal. lia.
Qed.

Lemma patched_0 l1 l2 : patched l1 l2 0 = l2.
Proof. done. Qed.
Lemma patched_all l1 l2 k : length l1 = length l2 -> k = Z.of_nat (length l1) -> patched l1 l2 k = l1.
Proof. intros Hl ->. unfold patched. rewrite Nat2Z.id, firstn_all, drop_ge by lia. apply app_nil_r. Qed.

Lemma fill_take n l : (length l <= n)%nat -> take (length l) (fill n l) = l.
Proof. intros H. unfold fill. rewrite take_take, Nat.min_l by done. apply take_app_length. Qed.

Lemma length_fill n l : length (fill n l) = n.
Proof. unfold fill. rewrite length_take, length_app, length_replicate. lia. Qed.

Lemma fill_bytes n l : Forall is_byte l -> Forall is_byte (fill n l).
Proof. intros H. unfold fill. apply Forall_take, Forall_app. split; [done|]. apply Forall_replicate. done. Qed.

Section rescue.
Context (devsw : Z -> devsw_t).
Implicit Types (g : geometry) (φ : fs) (W : fview).

(** Writing does not move the blocks. *)
Lemma wrote_addr g W W' i ip lim off l bn : can_write g W i ip lim -> wrote g W W' i ip lim off l -> in_lim lim bn ->
  addr_of (w_cur W') (dinode_at (w_cur W') (i_inum ip)) bn = addr_of (w_cur W) (i_d ip) bn.
Proof.
  intros Hcw Hwr Hb. pose proof (cw_data _ _ _ _ _ Hcw) as Hw. destruct (wd_meta _ _ _ _ _ _ _ _ Hwr) as (c & sz & Em).
  rewrite Em. change (addr_of (w_cur W') (with_checksum c (with_size sz (i_d ip))) bn) with (addr_of (w_cur W') (i_d ip) bn).
  eapply addr_of_same; [done|]. intros Hl. destruct (wr_ind _ _ _ _ _ Hw _ Hb Hl) as [_ Hne].
  apply (wd_frame _ _ _ _ _ _ _ _ Hwr); [done|]. intros bn' Hb'. apply not_eq_sym, (wr_ind _ _ _ _ _ Hw _ Hb' Hl).
Qed.

(** Writing to [ip] leaves a file that is apart from it. *)
Lemma apart_kept g W W' i ip lim off l di : can_write g W i ip lim -> wrote g W W' i ip lim off l ->
  readable g W di -> apart (w_cur W) (i_d ip) (IBLOCK (i_inum ip)) lim di ->
  readable g W' di /\ file_content (w_cur W') di = file_content (w_cur W) di /\
  apart (w_cur W') (dinode_at (w_cur W') (i_inum ip)) (IBLOCK (i_inum ip)) lim di.
Proof.
  intros Hcw Hwr Hrd [Hd Hi]. pose proof (cw_data _ _ _ _ _ Hcw) as Hw. pose proof (wd_frame _ _ _ _ _ _ _ _ Hwr) as Hf.
  destruct (wd_held _ _ _ _ _ _ _ _ Hwr) as [Hh _].
  pose proof (fun bn => wrote_addr g W W' i ip lim off l bn Hcw Hwr) as Edst.
  assert (forall bn, in_lim (di_size di) bn -> addr_of (w_cur W') di bn = addr_of (w_cur W) di bn) as Esrc.
  { intros bn Hb. eapply addr_of_same; [done|]. intros Hl. by apply Hf; apply Hi. }
  split; [|split].
  - destruct Hrd as [R1 R2 R3]. split; try done. intros bn H0 H1. destruct (R3 bn H0 H1) as [? ? ? ? ?].
    split; rewrite ?Esrc by done; unfold w_secs in *; rewrite ?Hh; done.
  - apply (file_content_same _ _ _ (di_size di)); [done|]. intros o Ho. unfold file_byte.
    assert (in_lim (di_size di) (o / BSIZE)) as Hb.
    { split; [apply Z.div_pos; [lia|done]|]. pose proof (Z.mul_div_le o BSIZE ltac:(done)). lia. }
    rewrite Esrc by done. by rewrite Hf by apply (Hd _ Hb).
  - split.
    + intros bn Hb. rewrite Esrc by done. split; [by apply Hd|]. intros bn' Hb'. rewrite Edst by done. by apply Hd.
    + intros Hl a. split; [by apply Hi|]. intros bn' Hb'. rewrite Edst by done. by apply Hi.
Qed.

Lemma readable_bytes g φ W di : Rep g φ W -> readable g W di -> Forall is_byte (file_content (w_cur W) di).
Proof.
  intros HR Hrd. apply Forall_lookup. intros k x Hx. rewrite lookup_content in Hx. case_decide; [|done]. injection Hx as <-.
  unfold file_byte. apply byte_at_ok, (rep_cur_ok _ _ _ _ HR). pose proof (Z.mul_div_le (Z.of_nat k) BSIZE ltac:(done)).
  apply (bm_addr _ _ _ _ (rd_blocks _ _ _ Hrd (Z.of_nat k / BSIZE) ltac:(apply Z.div_pos; [lia|done]) ltac:(lia))).
Qed.

(** Entry [i] is a file being restored from entry [j], which has content [cs]. *)
Record rescuing g W (i : nat) (ip : inode) (j : nat) (iq : inode) (lim : Z) (cs : list Z) : Prop := {
  rs_dst : can_write g W i ip lim;
  rs_src : w_ic W !! j = Some iq /\ i <> j /\ i_dev iq = 1 /\ i_type iq <> T_DEV;
  rs_data : readable g W (i_d iq);
  rs_apart : apart (w_cur W) (i_d ip) (IBLOCK (i_inum ip)) lim (i_d iq);
  rs_content : file_content (w_cur W) (i_d iq) = cs;
  rs_size : i_size ip = i_size iq;
  rs_disk : dinode_at (w_cur W) (i_inum iq) = i_d iq /\ i_inum iq <> i_inum ip /\ 0 <= IBLOCK (i_inum iq) < g_start g;
  rs_iblock : forall bn, in_lim lim bn -> IBLOCK (i_inum iq) <> addr_of (w_cur W) (i_d ip) bn
}.

(** The inode on disk is the one in the cache and its checksum fits. *)
Definition settled (cur : Z -> block) (ip : inode) : Prop :=
  dinode_at cur (i_inum ip) = i_d ip /\ intact cur (i_d ip) = true.

(** The two entries differ at most in the disk inode. *)
Definition same_entry (ip ip' : inode) : Prop := exists di, ip' = upd_d (fun _ => di) ip.

Lemma rescuing_wrote g W W' i ip j iq lim cs off l : rescuing g W i ip j iq lim cs -> wrote g W W' i ip lim off l ->
  0 <= off -> off + Z.of_nat (length l) <= i_size ip ->
  let ip' := upd_d (fun _ => dinode_at (w_cur W') (i_inum ip)) ip in
  rescuing g W' i ip' j iq lim cs /\ settled (w_cur W') ip' /\
  file_content (w_cur W') (i_d ip') = splice (file_content (w_cur W) (i_d ip)) off l.
Proof.
  intros [Hcw (Hj & Hne & Hdev & Hty) Hrd Hap Hco Hsz (Hdd & Hni & Hib) Hbl] Hwr Ho Hl ip'.
  destruct (apart_kept g W W' i ip lim off l (i_d iq) Hcw Hwr Hrd Hap) as (R & C & P).
  pose proof (wd_again _ _ _ _ _ _ _ _ Hwr) as Hag. pose proof (wd_content _ _ _ _ _ _ _ _ Hwr) as Hc.
  split; [|split; [split; [done|apply Hwr]|done]]. split; try done.
  - rewrite (wd_cache _ _ _ _ _ _ _ _ Hwr). by rewrite list_lookup_insert_ne.
  - by rewrite C.
  - pose proof (wr_size _ _ _ _ _ (cw_data _ _ _ _ _ Hag)) as [H0 _]. pose proof (wr_size _ _ _ _ _ (cw_data _ _ _ _ _ Hcw)) as [H1 _].
    assert (length (file_content (w_cur W') (i_d ip')) = length (file_content (w_cur W) (i_d ip))) as E.
    { cbn [ip' upd_d i_d]. rewrite Hc. apply length_splice; [done|]. rewrite length_content by done. unfold i_size in Hl. lia. }
    rewrite !length_content in E by done. rewrite <- Hsz. unfold i_size. cbn [ip' upd_d i_d] in E, H0 |- *. lia.
  - split_and!; try done; try lia. by rewrite (wd_inodes _ _ _ _ _ _ _ _ Hwr).
  - intros bn Hb. cbn [ip' upd_d i_d]. rewrite (wrote_addr g W W' i ip lim off l bn Hcw Hwr Hb). by apply Hbl.
Qed.

(** One pass of [iduplicate]'s loop: a whole block or what is left of the file. *)
Lemma pass_arith off last sz (k := Z.min 512 (sz - off)) : 0 <= off < last -> last <= sz -> (512 | off) -> (512 | last) \/ last = sz ->
  0 < k <= 512 /\ off + k <= last /\ ((512 | off + k) \/ off + k = last) /\
  (last - off + 511) / 512 = 1 + (last - (off + k) + 511) / 512 /\ touched off k = 1.
Proof.
  intros Ho Hl [a Ha] Hend. assert (0 < k <= 512) as Hk by (unfold k; lia).
  assert (k = 512 /\ off + 512 <= last \/ k < 512 /\ off + k = last) as Hc.
  { unfold k. destruct Hend as [[b Hb]|Hb]; lia. }
  split; [done|]. split; [lia|]. split; [|split].
  - destruct Hc as [[-> _]|[_ ?]]; [left|by right]. exists (a + 1). lia.
  - destruct Hc as [[-> ?]|[? E]].
    + replace (last - off + 511) with (last - (off + 512) + 511 + 1 * 512) by lia. rewrite Z.div_add by lia. lia.
    + rewrite <- E. replace (off + k - (off + k) + 511) with 511 by lia. replace (off + k - off + 511) with (k - 1 + 1 * 512) by lia.
      rewrite Z.div_add, Z.div_small by lia. done.
  - unfold touched. rewrite (proj2 (Z.leb_gt k 0)) by lia. assert (BSIZE = 512) as -> by done. rewrite Ha, Z.mod_mul by lia.
    replace (0 + k + 511) with (k - 1 + 1 * 512) by lia. by rewrite Z.div_add, Z.div_small by lia.
Qed.

(** The write of that pass. *)
Lemma copy_block g φ W i ip j iq lim cs cp off k (Q : Z -> fs -> Prop) :
  Rep g φ W -> rescuing g W i ip j iq lim cs -> g_busy g = true -> file_content (w_cur W) (i_d ip) = patched cs cp off ->
  length cp = length cs -> 0 <= off -> 0 < k <= 512 -> off + k <= i_size iq -> touched off k = 1 ->
  Z.of_nat (size (w_pins W)) + 2 < g_nlog g -> 2 < Z.of_nat (wroom W) ->
  (forall φ' W' ip', Rep g φ' W' -> rescuing g W' i ip' j iq lim cs -> file_content (w_cur W') (i_d ip') = patched cs cp (off + k) ->
     settled (w_cur W') ip' -> same_entry ip ip' -> w_held W' = w_held W -> w_T W' = w_T W ->
     w_ic W' = <[i := ip']> (w_ic W) -> Z.of_nat (size (w_pins W')) <= Z.of_nat (size (w_pins W)) + 2 ->
     Z.of_nat (wroom W) <= Z.of_nat (wroom W') + 2 -> Q k φ') ->
  wp (writei_ext devsw (Some i) (fill 512 (file_bytes (w_cur W) (i_d iq) off k)) off k true) Q φ.
Proof.
  intros HR Hrs Hb Hco Hcp Ho Hk Hl Et Hp Hr HQ. pose proof Hrs as [Hcw _ Hrd _ Hcs Hsz _ _].
  pose proof (wr_size _ _ _ _ _ (cw_data _ _ _ _ _ Hcw)) as Hlim. change (di_size (i_d ip)) with (i_size ip) in Hlim.
  set (bs := file_bytes (w_cur W) (i_d iq) off k).
  assert (slice cs off k = bs) as Ebs by (rewrite <- Hcs; apply slice_content; unfold i_size in *; lia).
  assert (length bs = Z.to_nat k) as Hlb by (apply length_file_bytes; lia).
  assert (take (Z.to_nat k) (fill 512 bs) = bs) as Etk by (rewrite <- Hlb; apply fill_take; lia).
  assert (Forall is_byte bs) as Hby.
  { rewrite <- Ebs, <- Hcs. unfold slice. by apply Forall_take, Forall_drop, (readable_bytes g φ W). }
  assert (Z.of_nat (length cs) = i_size iq) as Hlc by (rewrite <- Hcs, length_content; unfold i_size in *; lia).
  eapply wp_mono; [apply (writei_spec g devsw φ W i ip lim (fill 512 bs) off k true HR Hcw)|];
    rewrite ?Et, ?length_fill; try done; try lia; try (by left); [by apply fill_bytes|].
  intros r φ' (-> & W' & HR' & Hwr). rewrite Etk in Hwr.
  destruct (rescuing_wrote g W W' i ip j iq lim cs off bs Hrs Hwr Ho ltac:(lia)) as (Hrs' & Hset & Hc').
  destruct (wd_held _ _ _ _ _ _ _ _ Hwr). destruct (wd_log _ _ _ _ _ _ _ _ Hwr) as [P1 P2].
  replace (Z.of_nat (length bs)) with k in P1, P2 by lia. rewrite Et in P1, P2.
  eapply (HQ φ' W'); try done.
  - rewrite Hc', Hco, <- Ebs. apply patched_step; done || lia.
  - by eexists.
  - apply (wd_cache _ _ _ _ _ _ _ _ Hwr).
Qed.

Lemma iduplicate_loop_spec g fuel φ W i ip j iq lim cs cp off last (Q : unit -> fs -> Prop) :
  let cnt := (last - off + 511) / 512 in
  Rep g φ W -> rescuing g W i ip j iq lim cs -> g_busy g = true -> file_content (w_cur W) (i_d ip) = patched cs cp off ->
  length cp = length cs -> 0 <= off <= last -> last <= i_size iq ->
  (512 | off) \/ off = last -> (512 | last) \/ last = i_size iq ->
  Z.of_nat (size (w_pins W)) + 2 * cnt < g_nlog g -> 2 * cnt < Z.of_nat (wroom W) -> cnt < Z.of_nat fuel ->
  off < last \/ settled (w_cur W) ip ->
  (forall φ' W' ip', Rep g φ' W' -> rescuing g W' i ip' j iq lim cs -> file_content (w_cur W') (i_d ip') = patched cs cp last ->
     settled (w_cur W') ip' -> same_entry ip ip' -> w_held W' = w_held W -> w_T W' = w_T W ->
     w_ic W' = <[i := ip']> (w_ic W) -> Q tt φ') ->
  wp (iduplicate_loop devsw fuel (Some j) (Some i) off last) Q φ.
Proof.
  revert φ W ip off. induction fuel as [|fuel IH]; intros φ W ip off cnt HR Hrs Hb Hco Hcp Hoff Hlast Hal Hend Hp Hr Hf Hset HQ.
  { assert (0 <= cnt) by (apply Z.div_pos; lia). lia. }
  pose proof Hrs as [Hcw (Hj & Hne & Hdev & Hty) Hrd Hap Hcs Hsz _ _]. pose proof (rd_size _ _ _ Hrd) as Hmax.
  change (di_size (i_d iq)) with (i_size iq) in Hmax. change (MAXFILE * BSIZE) with 70656 in Hmax.
  assert (0 <= cnt) as Hcnt by (apply Z.div_pos; lia).
  cbn [iduplicate_loop]. rewrite wp_bind. eapply (readi_spec g); try done; try lia. intros φ1 HR1.
  set (k := read_len (i_size iq) off 512). assert (k = Z.min 512 (i_size iq - off)) as Hk.
  { unfold k, read_len. destruct (Z.ltb_spec (i_size iq) (off + 512)); lia. }
  cbn [fst snd]. rewrite u32_small by lia. destruct (Z.ltb_spec off last) as [Hlt|Hge]; last first.
  { rewrite andb_false_r. apply wp_ret. assert (off = last) as -> by lia. destruct Hset as [?|Hset]; [lia|].
    apply (HQ _ W ip); try done; [by exists (i_d ip); destruct ip|]. symmetry. apply list_insert_id. apply Hcw. }
  destruct Hal as [Hal|?]; [|lia]. destruct (pass_arith off last (i_size iq) ltac:(lia) Hlast Hal Hend) as (Hk0 & Hkl & Hal' & Ecnt & Et).
  rewrite <- Hk in *. rewrite (proj2 (Z.ltb_lt 0 k)) by lia. cbn [andb].
  set (cnt' := (last - (off + k) + 511) / 512) in *. assert (0 <= cnt') by (apply Z.div_pos; lia). fold cnt in Ecnt.
  rewrite wp_bind. eapply (copy_block g φ1 W i ip j iq lim cs cp off k); try done; try lia. intros φ2 W2 ip2 HR2 Hrs2 Hco2 Hset2 Hse2 Hh2 HT2 Hic2 Hp2 Hr2.
  rewrite u32_small by lia. eapply (IH φ2 W2 ip2 (off + k)); try done; try lia; [by right|].
  intros φ3 W3 ip3 HR3 Hrs3 Hco3 Hset3 [d3 E3] Hh3 HT3 Hic3. destruct Hse2 as [d2 E2].
  eapply (HQ φ3 W3 ip3); try done; try congruence.
  - exists d3. rewrite E3, E2. done.
  - rewrite Hic3, Hic2. apply list_insert_insert_eq.
Qed.

(** [iduplicate] first copies the length and the checksum to the cached inode. *)
Lemma rescuing_sum g W i ip j iq lim cs : rescuing g W i ip j iq lim cs -> 0 <= i_checksum iq < 4294967296 ->
  let ip' := upd_d (fun d => with_size (i_size iq) (with_checksum (i_checksum iq) d)) ip in
  rescuing g (v_ic (insert i ip') W) i ip' j iq lim cs /\
  file_content (w_cur W) (i_d ip') = file_content (w_cur W) (i_d ip) /\ same_entry ip ip'.
Proof.
  intros [[C1 C2 C3 C4 C5 C6] (Hj & Hne & Hdev & Hty) Hrd [A1 A2] Hcs Hsz Hdd Hbl] Hck ip'.
  assert (di_size (i_d ip) = i_size iq) as Es by done.
  split; [|split; [unfold file_content; cbn [ip' upd_d i_d with_size di_size]; by rewrite Es|by eexists]]. split; try done.
  - split; try done.
    + apply list_lookup_insert_eq. by apply lookup_lt_Some in C1.
    + pose proof (wr_size _ _ _ _ _ C4) as Hw. rewrite Es in Hw. destruct C4 as [? ? ? D ? ?]. split; try done.
      intros bn Hb. by destruct (D bn Hb) as ([] & ? & ?).
    + destruct C5 as [? ? ? ? Hds ? ? ? ?]. rewrite Es in Hds. split; done.
  - split_and!; try done. cbn. by rewrite list_lookup_insert_ne.
  - destruct Hrd as [? ? B]. split; try done. intros bn H0 H1. by destruct (B bn H0 H1).
Qed.

Lemma iduplicate_spec g φ W i ip j iq lim cs cp off n (Q : unit -> fs -> Prop) :
  Rep g φ W -> rescuing g W i ip j iq lim cs -> 0 <= i_checksum iq < 4294967296 -> g_busy g = true ->
  file_content (w_cur W) (i_d ip) = patched cs cp off -> length cp = length cs -> 0 <= off -> 0 < n <= 2048 -> off + n <= i_size iq ->
  (512 | off) -> (512 | n) \/ off + n = i_size iq -> 
  Z.of_nat (size (w_pins W)) + 8 < g_nlog g -> 8 < Z.of_nat (wroom W) ->
  (forall φ' W' ip', Rep g φ' W' -> rescuing g W' i ip' j iq lim cs -> file_content (w_cur W') (i_d ip') = patched cs cp (off + n) ->
     settled (w_cur W') ip' -> same_entry ip ip' -> w_held W' = w_held W -> w_T W' = w_T W ->
     w_ic W' = <[i := ip']> (w_ic W) -> Q tt φ') ->
  wp (iduplicate devsw (Some j) (Some i) off n) Q φ.
Proof.
  intros HR Hrs Hck Hb Hco Hcp Ho Hn Hl Hal Hend Hp Hr HQ. pose proof (rd_size _ _ _ (rs_data _ _ _ _ _ _ _ _ Hrs)) as Hmax.
  change (di_size (i_d iq)) with (i_size iq) in Hmax. change (MAXFILE * BSIZE) with 70656 in Hmax.
  destruct (rescuing_sum g W i ip j iq lim cs Hrs Hck) as (Hrs' & Hco' & [d1 E1]).
  unfold iduplicate. rewrite wp_bind. eapply r_geti; [done|apply Hrs|]. rewrite wp_bind. eapply r_updi; [done|apply Hrs|]. intros φ1 HR1.
  set (ip1 := upd_d _ ip) in *. set (W1 := v_ic (insert i ip1) W) in *. rewrite u32_small by lia.
  assert (0 <= (n + off - off + 511) / 512 <= Z.min 4 n) as Hc.
  { split; [apply Z.div_pos; lia|]. apply Z.lt_succ_r, Z.div_lt_upper_bound; lia. }
  eapply (iduplicate_loop_spec g _ φ1 W1 i ip1 j iq lim cs cp off (n + off)); try done.
  - by etrans; [exact Hco'|].
  - lia.
  - lia.
  - by left.
  - destruct Hend as [[a Ha]|Ha]; [left|right; lia]. destruct Hal as [b Hb']. exists (a + b). lia.
  - change (w_pins W1) with (w_pins W). lia.
  - change (wroom W1) with (wroom W). lia.
  - lia.
  - left. lia.
  - intros φ' W' ip' HR' Hr' Hc' Hs' [d2 E2] Hh' HT' Hic'. rewrite (Z.add_comm n) in Hc'. eapply HQ; try done.
    + exists d2. by rewrite E2, E1.
    + rewrite Hic'. apply list_insert_insert_eq.
Qed.

(** ** Between transactions *)

Lemma readable_agree g g' W W' di : readable g W di -> g_start g' = g_start g -> w_held W' = w_held W ->
  (forall s, s < g_start g -> w_cur W' s = w_cur W s) -> readable g' W' di /\
  forall bn, in_lim (di_size di) bn -> addr_of (w_cur W') di bn = addr_of (w_cur W) di bn.
Proof.
  intros [R1 R2 R3] Hg Hh Hc.
  assert (forall bn, in_lim (di_size di) bn -> addr_of (w_cur W') di bn = addr_of (w_cur W) di bn) as E.
  { intros bn Hb. unfold addr_of. destruct (Z.ltb_spec bn NDIRECT); [done|]. rewrite Hc; [done|].
    destruct Hb as [H0 H1]. apply (bm_ind _ _ _ _ (R3 bn H0 H1)). done. }
  split; [|done]. split; try done. intros bn H0 H1. destruct (R3 bn H0 H1) as [? ? ? ? ?].
  split; rewrite ?E, ?Hg by done; unfold w_secs in *; rewrite ?Hh; done.
Qed.

Lemma rescuing_agree g g' W W' i ip j iq lim cs : rescuing g W i ip j iq lim cs -> g_start g' = g_start g -> w_held W' = w_held W ->
  (forall s, s < g_start g -> w_cur W' s = w_cur W s) -> w_ic W' = w_ic W -> rescuing g' W' i ip j iq lim cs.
Proof.
  intros [Hcw Hsrc Hrd [A1 A2] Hcs Hsz (Hdd & Hni & Hib) Hbl] Hg Hh Hc Hic. destruct (readable_agree g g' W W' _ Hrd Hg Hh Hc) as [Hrd' Es].
  pose proof (cw_data _ _ _ _ _ Hcw) as Hw.
  assert (forall bn, in_lim lim bn -> addr_of (w_cur W') (i_d ip) bn = addr_of (w_cur W) (i_d ip) bn) as Ed.
  { intros bn Hb. eapply addr_of_same; [done|]. intros Hl. apply Hc. destruct (wr_mapped _ _ _ _ _ Hw NDIRECT) as [Hm _]; [split; done|].
    apply (bm_ind _ _ _ _ Hm). done. }
  split; try done.
  - eapply (can_write_agree g g'); try done. rewrite Hic. apply Hcw.
  - by rewrite Hic.
  - split.
    + intros bn Hb. rewrite Es by done. split; [by apply A1|]. intros bn' Hb'. rewrite Ed by done. by apply A1.
    + intros Hl a. split; [by apply A2|]. intros bn' Hb'. rewrite Ed by done. by apply A2.
  - rewrite (content_agree g W); [done|done|]. intros s [_ Hs]. by apply Hc.
  - unfold dinode_at in *. rewrite Hc, Hg by lia. done.
  - intros bn Hb. rewrite Ed by done. by apply Hbl.
Qed.

(** A view with nothing held and nothing logged comes from an idle log. *)
Lemma Rep_idle g φ W : Rep g φ W -> g_busy g = false -> w_held W = ∅ -> w_pins W = ∅ -> w_T W = ∅ ->
  exists A, idle (f_log φ) A /\ (forall s, s < g_start g -> cur A s = w_cur W s) /\ traced g A.
Proof.
  intros [(A & HL & Eh & Ep & Ht & Hc) Es En Eb _ _] Hb Hh Hp HT. rewrite HT in HL. exists A. split; [|done]. split; try congruence.
  rewrite <- (size_pins _ _ _ HL), Ep, Hp. done.
Qed.

(** The state of a rescue while no transaction is open: [k] bytes are restored. *)
Record resting φ A (i : nat) (ip : inode) (j : nat) (iq : inode) (lim : Z) (cs cp : list Z) (k : Z) : Prop := {
  rt_idle : idle (f_log φ) A;
  rt_files : rescuing (quiet_geom A φ) (quiet_view A φ) i ip j iq lim cs;
  rt_content : file_content (cur A) (i_d ip) = patched cs cp k
}.

(** The end of a transaction, in general. *)
Lemma commit_quiet φ A φ1 W1 : let g := quiet_geom A φ in
  idle (f_log φ) A -> Rep g φ1 W1 -> w_held W1 = ∅ -> w_T W1 = ∅ ->
  wp (lg commit_trans) (fun _ φ' => exists A' new, idle (f_log φ') A' /\ step (f_log φ) A (f_log φ') A' new /\
    f_icache φ' = w_ic W1 /\ (forall s, s < l_start (f_log φ) -> cur A' s = w_cur W1 s) /\
    forall k, recovers (csize A) (l_start (f_log φ)) (apply_writes (take k new) (dur A)) (cur A) \/
              recovers (csize A) (l_start (f_log φ)) (apply_writes (take k new) (dur A)) (cur A')) φ1.
Proof.
  intros g Hi [(A1 & HL1 & Eh & Ep & (Ez & lw & Ew & Hlw & Hdu) & Hc) Es Esz Eb Ei Ec] Hh HT. rewrite HT in HL1. rewrite Hh in Eh.
  apply lg_wp. assert (step (f_log φ) A (f_log φ1) A1 lw) as Hst by (by split).
  eapply wp_mono; [by apply (commit_crash (f_log φ) A (f_log φ1) A1 lw)|]. intros [] κ' (A' & new & Hi' & Hs' & Hc' & Hr).
  exists A', new. split_and!; try done. intros s Hs. cbn in Hc. rewrite Hc' by done. by apply Hc.
Qed.

(** ** Crashes during the copy *)

(** Whatever the log area holds, the first [m] bytes of inode [inum] are those of [cs]
    and the rest those of [cp]; its checksum fits if [m] is not 0; and its ditto [c]
    is [dc], with content [cs]. *)
Definition rescued start inum c dc cs cp (m : Z) (cur : Z -> block) : Prop :=
  forall cur', (forall s, 0 <= s < start -> cur' s = cur s) ->
  file_content cur' (dinode_at cur' inum) = patched cs cp m /\ intact cur' (dinode_at cur' inum) = (0 <? m) /\
  dinode_at cur' c = dc /\ file_content cur' dc = cs.

(** Of [n] bytes, of which [k] are restored at first, a crash among the writes [new]
    leaves a whole number of chunks restored, and any such number can be left. *)
Definition crash_restores κ A (new : list (Z * block)) (P : Z -> (Z -> block) -> Prop) (n k : Z) : Prop :=
  (forall j, exists m cc, k <= m /\ whole_chunks RESCUE_MAX n m /\
     recovers (csize A) (l_start κ) (apply_writes (take j new) (dur A)) cc /\ P m cc) /\
  (forall m, k <= m -> whole_chunks RESCUE_MAX n m -> exists j cc,
     recovers (csize A) (l_start κ) (apply_writes (take j new) (dur A)) cc /\ P m cc).

Lemma crash_restores_nil κ A P n : idle κ A -> 0 <= n -> P n (cur A) -> crash_restores κ A [] P n n.
Proof.
  intros Hi Hn HP. assert (recovers (csize A) (l_start κ) (apply_writes [] (dur A)) (cur A)) as Hr by (by apply recovers_idle). split.
  - intros j. exists n, (cur A). rewrite take_nil. split_and!; try done. split; [lia|by left].
  - intros m Hm [Hm' _]. assert (m = n) as -> by lia. by exists 0%nat, (cur A).
Qed.

Lemma recovers_after κ A κ1 A1 n1 n2 j cc : step κ A κ1 A1 n1 ->
  recovers (csize A1) (l_start κ1) (apply_writes (take j n2) (dur A1)) cc ->
  recovers (csize A) (l_start κ) (apply_writes (take (length n1 + j) (n1 ++ n2)) (dur A)) cc.
Proof.
  intros Hst Hr. rewrite (st_start _ _ _ _ _ Hst), (st_csize _ _ _ _ _ Hst) in Hr. rewrite take_app_add. eapply recovers_ext; [exact Hr| |done].
  intros s. rewrite apply_writes_app. apply apply_writes_ext. intros y. symmetry. apply Hst.
Qed.

(** One transaction, from [k] bytes to [k1], and the rest. *)
Lemma crash_restores_app κ A κ1 A1 n1 n2 P n k k1 : idle κ A -> step κ A κ1 A1 n1 -> whole_chunks RESCUE_MAX n k -> whole_chunks RESCUE_MAX n k1 ->
  k <= k1 -> (forall m, k <= m -> whole_chunks RESCUE_MAX n m -> m = k \/ k1 <= m) -> P k (cur A) -> P k1 (cur A1) ->
  (forall j, recovers (csize A) (l_start κ) (apply_writes (take j n1) (dur A)) (cur A) \/
             recovers (csize A) (l_start κ) (apply_writes (take j n1) (dur A)) (cur A1)) ->
  crash_restores κ1 A1 n2 P n k1 -> crash_restores κ A (n1 ++ n2) P n k.
Proof.
  intros Hi Hst Hk Hk1 Hle Hgap HP HP1 Hr [Ha Hb]. split.
  - intros j. destruct (decide (j <= length n1)%nat).
    + rewrite take_app_le by done. destruct (Hr j); [by exists k, (cur A)|by exists k1, (cur A1)].
    + destruct (Ha (j - length n1)%nat) as (m & cc & Hm & Hw & Hrec & HPm). exists m, cc. split_and!; try done; [lia|].
      replace j with (length n1 + (j - length n1))%nat by lia. by eapply recovers_after.
  - intros m Hm Hw. destruct (Hgap m Hm Hw) as [->|Hm1].
    + exists 0%nat, (cur A). split; [by apply recovers_idle|done].
    + destruct (Hb m Hm1 Hw) as (j & cc & Hrec & HPm). exists (length n1 + j)%nat, cc. split; [by eapply recovers_after|done].
Qed.

(** The inode on disk is the one in the cache, and its checksum fits unless nothing
    has been copied. *)
Definition stored (cur : Z -> block) (ip : inode) (k : Z) : Prop :=
  dinode_at cur (i_inum ip) = i_d ip /\ intact cur (i_d ip) = (0 <? k).

Lemma resting_rescued φ A i ip j iq lim cs cp k : resting φ A i ip j iq lim cs cp k -> stored (cur A) ip k ->
  rescued (l_start (f_log φ)) (i_inum ip) (i_inum iq) (i_d iq) cs cp k (cur A).
Proof.
  intros [_ Hrs Hco] [Hd Hint] cur' Hc. pose proof (cw_iblock _ _ _ _ _ (rs_dst _ _ _ _ _ _ _ _ Hrs)) as [Hib _].
  pose proof (writable_readable _ _ _ _ _ (cw_data _ _ _ _ _ (rs_dst _ _ _ _ _ _ _ _ Hrs))) as Hrd.
  destruct (rs_disk _ _ _ _ _ _ _ _ Hrs) as (D1 & _ & D2).
  rewrite (inode_agree (quiet_geom A φ) (quiet_view A φ) ip cur' ltac:(lia) Hc), (inode_agree (quiet_geom A φ) (quiet_view A φ) iq cur' D2 Hc). cbn [quiet_view w_cur] in *.
  unfold intact in *. rewrite Hd, D1, (content_agree (quiet_geom A φ) (quiet_view A φ) _ cur' Hrd Hc), (content_agree (quiet_geom A φ) (quiet_view A φ) _ cur' (rs_data _ _ _ _ _ _ _ _ Hrs) Hc). cbn [quiet_view w_cur].
  split_and!; try done. apply Hrs.
Qed.

Lemma chunk_gap n k a (n1 := Z.min (n - k) RESCUE_MAX) : k = a * RESCUE_MAX -> 0 <= k < n ->
  whole_chunks RESCUE_MAX n k /\ whole_chunks RESCUE_MAX n (k + n1) /\ forall m, k <= m -> whole_chunks RESCUE_MAX n m -> m = k \/ k + n1 <= m.
Proof.
  intros Hk Hlt. assert (RESCUE_MAX = 2048) as HM by done. split; [split; [lia|right; by exists a]|]. split.
  - split; [unfold n1; lia|]. destruct (decide (n - k <= RESCUE_MAX)); [left; unfold n1; lia|right; exists (a + 1); unfold n1; lia].
  - intros m Hm [_ [->|[b Hb]]]; unfold n1; lia.
Qed.

(** After the commit of a transaction that has copied up to [k]. *)
Lemma resting_committed φ A φ1 W1 φ2 A2 i ip1 j iq lim cs cp k : idle (f_log φ2) A2 -> l_start (f_log φ2) = l_start (f_log φ) ->
  rescuing (quiet_geom A φ) W1 i ip1 j iq lim cs -> Rep (quiet_geom A φ) φ1 W1 -> w_held W1 = ∅ -> f_icache φ2 = w_ic W1 ->
  (forall s, s < l_start (f_log φ) -> cur A2 s = w_cur W1 s) -> file_content (w_cur W1) (i_d ip1) = patched cs cp k -> settled (w_cur W1) ip1 ->
  resting φ2 A2 i ip1 j iq lim cs cp k /\ settled (cur A2) ip1.
Proof.
  intros Hi2 Es2 Hrs1 HR1 Hh1 Eic2 Hc2 Hco1 [Hd1 Hint1].
  assert (rescuing (quiet_geom A2 φ2) (quiet_view A2 φ2) i ip1 j iq lim cs) as Hrs2.
  { eapply rescuing_agree; [exact Hrs1|exact Es2|by rewrite Hh1|exact Hc2|exact Eic2]. }
  pose proof (cw_iblock _ _ _ _ _ (rs_dst _ _ _ _ _ _ _ _ Hrs1)) as [Hib _].
  pose proof (writable_readable _ _ _ _ _ (cw_data _ _ _ _ _ (rs_dst _ _ _ _ _ _ _ _ Hrs1))) as Hrd.
  assert (forall s, 0 <= s < g_start (quiet_geom A φ) -> cur A2 s = w_cur W1 s) as Hc2' by (intros s [_ Hs]; by apply Hc2).
  unfold settled, intact in *. rewrite (inode_agree (quiet_geom A φ) W1 ip1 (cur A2) ltac:(lia) Hc2'), (content_agree (quiet_geom A φ) W1 _ _ Hrd Hc2').
  split; [|done]. split; try done. by rewrite (content_agree (quiet_geom A φ) W1 _ _ Hrd Hc2').
Qed.

Lemma irescue_loop_spec fuel φ A i ip j iq lim cs cp k (Q : unit -> fs -> Prop) : let n := i_size iq in
  resting φ A i ip j iq lim cs cp k -> length cp = length cs -> 0 <= i_checksum iq < 4294967296 -> 8 < l_size (f_log φ) ->
  0 <= k <= n -> 0 < n -> (RESCUE_MAX | k) \/ k = n -> n - k <= RESCUE_MAX * (Z.of_nat fuel - 1) -> stored (cur A) ip k ->
  (forall φ' A' ip' new, resting φ' A' i ip' j iq lim cs cp n -> settled (cur A') ip' -> same_entry ip ip' ->
     f_icache φ' = <[i := ip']> (f_icache φ) -> step (f_log φ) A (f_log φ') A' new ->
     crash_restores (f_log φ) A new (rescued (l_start (f_log φ)) (i_inum ip) (i_inum iq) (i_d iq) cs cp) n k -> Q tt φ') ->
  wp (irescue_loop devsw fuel (Some i) (Some j) n k k) Q φ.
Proof.
  intros n. assert (RESCUE_MAX = 2048) as HM by done. revert φ A ip k.
  induction fuel as [|fuel IH]; intros φ A ip k Hrt Hcp Hck Hlog Hk Hpos Hal Hf Hst HQ; [lia|].
  pose proof (resting_rescued _ _ _ _ _ _ _ _ _ _ Hrt Hst) as Hat. pose proof Hrt as [Hi Hrs Hco].
  cbn [irescue_loop]. destruct (Z.ltb_spec k n) as [Hlt|Hge]; last first.
  { apply wp_ret. assert (k = n) as -> by lia. eapply (HQ φ A ip []); try done.
    - destruct Hst as [? Hint]. split; [done|]. rewrite Hint. apply Z.ltb_lt. lia.
    - by exists (i_d ip); destruct ip.
    - symmetry. apply list_insert_id. apply (cw_entry _ _ _ _ _ (rs_dst _ _ _ _ _ _ _ _ Hrs)).
    - by apply step_refl.
    - apply crash_restores_nil; [done|lia|done]. }
  destruct Hal as [[a Ha]|?]; [|lia]. destruct (chunk_gap n k a Ha ltac:(lia)) as (Hwk & Hwk1 & Hgap). set (n1 := Z.min (n - k) RESCUE_MAX) in *.
  assert (0 < n1 <= 2048 /\ k + n1 <= n /\ (n1 = 2048 \/ k + n1 = n)) as Hn1 by (unfold n1; lia). clearbody n1. pose proof (ls_geom _ _ _ (idle_LS _ _ Hi)) as Hgeo.
  rewrite wp_bind. apply lg_wp. eapply begin_idle; [done|]. intros HL. pose proof (begin_Rep φ A Hi HL) as HR.
  rewrite wp_bind. eapply (iduplicate_spec _ _ _ i ip j iq lim cs cp k n1 _ HR Hrs); try done; try lia.
  - exists (a * 4). lia.
  - fold n. destruct Hn1 as (_ & _ & [->|?]); [left; by exists 4|by right].
  - intros φ1 W1 ip1 HR1 Hrs1 Hco1 Hset1 Hse1 Hh1 HT1 Hic1. rewrite wp_bind.
    eapply wp_mono; [by apply (commit_quiet φ A φ1 W1)|]. intros [] φ2 (A2 & new & Hi2 & Hst2 & Eic2 & Hc2 & Hr2).
    pose proof (st_start _ _ _ _ _ Hst2) as Es2. pose proof (st_size _ _ _ _ _ Hst2) as En2.
    destruct (resting_committed φ A φ1 W1 φ2 A2 i ip1 j iq lim cs cp (k + n1)) as [Hrt2 [Hd2 Hint2]]; try done.
    assert (stored (cur A2) ip1 (k + n1)) as Hsto2 by (split; [done|]; rewrite Hint2; symmetry; apply Z.ltb_lt; lia).
    pose proof (resting_rescued _ _ _ _ _ _ _ _ _ _ Hrt2 Hsto2) as Hat2. destruct Hse1 as [d1 E1].
    assert (i_inum ip1 = i_inum ip) as Ein by (by rewrite E1). rewrite Es2, Ein in Hat2.
    eapply (IH φ2 A2 ip1 (k + n1)); try done; try lia.
    + destruct Hn1 as (_ & _ & [->|?]); [left; exists (a + 1); lia|by right].
    + intros φ3 A3 ip3 new3 Hr3 Hs3 [d3 E3] Hic3 Hst3 Hcr3. rewrite Es2, Ein in Hcr3. eapply (HQ φ3 A3 ip3 (new ++ new3)); try done.
      * exists d3. by rewrite E3, E1.
      * rewrite Hic3, Eic2, Hic1. apply list_insert_insert_eq.
      * by eapply step_trans.
      * eapply (crash_restores_app _ A _ A2 _ _ _ _ k (k + n1)); try done. lia.
Qed.

(** ** Finding the ditto *)

(** The entry of the ditto after [ilock] has verified it. *)
Definition verified (cur : Z -> block) (c : Z) (q : inode) : inode :=
  upd_flags (fun f => flag_clr f I_BUSY) (locked cur (Inode 1 c 1 0 (i_d q))).

Lemma ilock_replica g fuel φ W i ip inum c (Q : Z -> fs -> Prop) : Rep g φ W -> w_ic W !! i = Some ip -> fresh_entry inum ip ->
  sound_inode g W inum -> intact (w_cur W) (dinode_at (w_cur W) inum) = false ->
  u16 (di_child1 (dinode_at (w_cur W) inum)) = c -> c <> 0 -> replica g W c -> intact (w_cur W) (dinode_at (w_cur W) c) = true ->
  (exists k q, w_ic W !! k = Some q /\ i_ref q = 0) -> (0 < wroom W)%nat ->
  (forall φ' j q, j <> i -> w_ic W !! j = Some q -> i_ref q = 0 ->
     Rep g φ' (v_ic (insert i (rejected (w_cur W) ip)) (v_ic (insert j (verified (w_cur W) c q)) W)) -> Q c φ') ->
  wp (ilock_rec devsw (S (S fuel)) (Some i) true) Q φ.
Proof.
  intros HR Hip Hf Hs Hbad Hch Hc Hrep Hok (k & q0 & Hk & Hk0) Hr HQ. pose proof Hf as (Hdev & Hin & Href & Hb & Hv).
  assert (k <> i) as Nk by (intros ->; rewrite Hip in Hk; injection Hk as <-; lia).
  eapply ilock_load; try done. intros φ1 HR1.
  set (ip1 := upd_flags _ (loaded (w_cur W) ip)) in *. set (W1 := v_ic (insert i ip1) W) in *.
  assert (i_d ip1 = dinode_at (w_cur W) inum) as Ed by (cbn; by rewrite Hin).
  assert (u16 (i_child1 ip1) = c) as Ec by (unfold i_child1; by rewrite Ed).
  eapply (zc_try g devsw fuel φ1 W1 i ip1 inum i_child1); rewrite ?Ec; try done.
  - split; try done; [by eapply lookup_ic_insert|apply set_busy_busy|by apply sound_inode_ic].
  - apply replica_insert; [done|]. exact (re_new _ _ _ Hrep i ip Hip).
  - exists k, q0. split; [|done]. cbn. by rewrite list_lookup_insert_ne.
  - intros j q φ2 Nj Hq Hq0 q'. change (w_cur W1) with (w_cur W). rewrite Hok. intros HR2.
    cbn in Hq. rewrite list_lookup_insert_ne in Hq by done. apply (HQ φ2 j q); try done.
    unfold W1 in HR2. unfold v_ic in HR2 |- *. cbn in HR2 |- *.
    rewrite (list_insert_insert_ne (w_ic W) j i) in HR2 by done. by rewrite list_insert_insert_eq in HR2.
Qed.

(** [irescue] locks the two inodes, the file without verification. *)
Lemma ilock_unchecked g φ W i ip (Q : Z -> fs -> Prop) : Rep g φ W -> w_ic W !! i = Some ip -> fresh_entry (i_inum ip) ip ->
  sound_inode g W (i_inum ip) -> (0 < wroom W)%nat ->
  (forall φ', Rep g φ' (v_ic (insert i (locked (w_cur W) ip)) W) -> Q 0 φ') ->
  wp (ilock_ext devsw (Some i) false) Q φ.
Proof.
  intros HR Hip (Hdev & _ & Href & Hb & Hv) Hs Hr HQ. unfold ilock_ext. generalize (Z.to_nat NINODE) as fuel. intros fuel. cbn [ilock_rec].
  rewrite wp_bind. eapply r_geti; [done|done|]. rewrite (proj2 (Z.ltb_ge (i_ref ip) 1)) by done. rewrite Hb, wp_bind.
  eapply r_updi; [done|done|]. intros φ1 HR1. rewrite Hv, wp_bind.
  eapply (load_inode_spec g); [done|by eapply lookup_ic_insert|done|apply Hs|apply (si_free _ _ _ Hs)|done|]. intros φ2 HR2.
  rewrite v_ic_insert2 in HR2. cbn [negb]. eapply (zc_success_spec g); [done|by eapply lookup_ic_insert|apply (si_type _ _ _ Hs)|].
  intros φ3 HR3. rewrite v_ic_insert2 in HR3. by apply HQ.
Qed.

(** Enough of a disk for [ilock_trans] to restore inode [inum] from its first ditto [c]. *)
Record repairable g W (inum c lim : Z) : Prop := {
  rb_bad : intact (w_cur W) (dinode_at (w_cur W) inum) = false;
  rb_child : u16 (di_child1 (dinode_at (w_cur W) inum)) = c /\ c <> 0 /\ c <> inum;
  rb_good : intact (w_cur W) (dinode_at (w_cur W) c) = true;
  rb_file : writable g W (dinode_at (w_cur W) inum) (IBLOCK inum) lim /\ dinode_ok (dinode_at (w_cur W) inum);
  rb_type : di_type (dinode_at (w_cur W) inum) <> 0 /\ di_type (dinode_at (w_cur W) inum) <> T_DEV /\
            di_type (dinode_at (w_cur W) inum) <> T_DITTO;
  rb_block : 2 <= IBLOCK inum < g_start g /\ IBLOCK inum ∉ w_secs W;
  rb_ditto : replica g W c;
  rb_apart : apart (w_cur W) (dinode_at (w_cur W) inum) (IBLOCK inum) lim (dinode_at (w_cur W) c);
  rb_size : di_size (dinode_at (w_cur W) inum) = di_size (dinode_at (w_cur W) c) /\ 0 < di_size (dinode_at (w_cur W) inum);
  rb_cblock : forall bn, in_lim lim bn -> IBLOCK c <> addr_of (w_cur W) (dinode_at (w_cur W) inum) bn
}.

Lemma repairable_sound g W inum c lim : repairable g W inum c lim -> sound_inode g W inum.
Proof.
  intros [_ _ _ [Hw _] (T1 & T2 & _) [B1 B2] _ _ _ _]. split; try done; [lia|]. by eapply writable_readable.
Qed.

(** The entry [ip] holds inode [inum] as it is on disk, and is locked. *)
Definition holds (cur : Z -> block) (inum : Z) (ip : inode) : Prop :=
  i_dev ip = 1 /\ i_inum ip = inum /\ i_d ip = dinode_at cur inum /\ 1 <= i_ref ip /\
  flag (i_flags ip) I_BUSY = true /\ flag (i_flags ip) I_VALID = true.

(** From the failed verification to the moment [irescue] has both inodes locked. *)
Lemma rescue_locks g φ W i ip inum c lim j q (m : iptr -> K fs unit) (Q : unit -> fs -> Prop) :
  repairable g W inum c lim -> w_ic W !! i = Some ip -> fresh_entry inum ip -> j <> i -> w_ic W !! j = Some q ->
  (0 < wroom W)%nat -> Rep g φ (v_ic (insert i (rejected (w_cur W) ip)) (v_ic (insert j (verified (w_cur W) c q)) W)) ->
  (forall φ' W' ip' iq, Rep g φ' W' -> w_cur W' = w_cur W -> w_held W' = w_held W -> w_pins W' = w_pins W -> w_T W' = w_T W ->
     w_ic W' !! i = Some ip' -> w_ic W' !! j = Some iq ->
     holds (w_cur W) inum ip' -> holds (w_cur W) c iq -> wp (m (Some j)) Q φ') ->
  wp (let! ip := geti (Some i) in
      let! ic := iget (i_dev ip) c in
      ilock_ext devsw ic false;;; ilock_ext devsw (Some i) false;;; m ic) Q φ.
Proof.
  intros Hrb Hip Hf Nj Hq Hr HR1 HQ. pose proof (repairable_sound _ _ _ _ _ Hrb) as Hs.
  destruct Hrb as [_ (_ & _ & Hci) _ _ _ _ Hrep _ _ _]. pose proof Hf as (Hdev & Hin & Href & Hb & Hv).
  set (ip1 := rejected (w_cur W) ip) in *. set (iq1 := verified (w_cur W) c q) in *. set (W1 := v_ic _ (v_ic _ W)) in HR1.
  assert (w_ic W1 !! i = Some ip1) as Hip1.
  { cbn. apply list_lookup_insert_eq. rewrite length_insert. by apply lookup_lt_Some in Hip. }
  assert (w_ic W1 !! j = Some iq1) as Hiq1.
  { cbn. rewrite list_lookup_insert_ne by done. apply list_lookup_insert_eq. by apply lookup_lt_Some in Hq. }
  rewrite wp_bind. eapply r_geti; [done|done|]. change (i_dev ip1) with (i_dev ip). rewrite Hdev, wp_bind.
  eapply (iget_cached g); [done|eapply (index_of_unique _ _ j iq1); [done|cbn; by rewrite Z.eqb_refl|]|done|].
  { intros k y Hk Hy. destruct (decide (k = j)); [done|]. destruct (decide (k = i)) as [->|].
    - rewrite Hip1 in Hk. injection Hk as <-. unfold caches in Hy. change (i_inum ip1) with (i_inum ip) in Hy. rewrite Hin in Hy.
      rewrite (proj2 (Z.eqb_neq inum c)), andb_false_r in Hy by done. done.
    - cbn in Hk. rewrite !list_lookup_insert_ne in Hk by done. pose proof (re_new _ _ _ Hrep k y Hk). congruence. }
  intros φ2 HR2. set (iq2 := upd_ref _ iq1) in HR2.
  assert (flag (i_flags iq2) I_VALID = true /\ flag (i_flags iq2) I_BUSY = false) as [Hv2 Hb2] by done.
  rewrite wp_bind. eapply (ilock_cached devsw g); [done|by eapply lookup_ic_insert|done|done|done|]. intros φ3 HR3.
  rewrite v_ic_insert2 in HR3. set (iq3 := upd_flags _ iq2) in HR3. set (W3 := v_ic (insert j iq3) W1) in HR3.
  rewrite wp_bind. eapply (ilock_unchecked g φ3 W3 i ip1); [done| | | |done|].
  { cbn. rewrite !list_lookup_insert_ne by done. exact Hip1. }
  { split_and!; try done; [apply clr_busy_busy|]. cbn. rewrite clr_busy_valid, set_busy_valid. done. }
  { change (i_inum ip1) with (i_inum ip). rewrite Hin. by do 3 apply sound_inode_ic. }
  intros φ4 HR4. change (w_cur W3) with (w_cur W) in HR4. set (ip4 := locked (w_cur W) ip1) in HR4.
  apply (HQ φ4 _ ip4 iq3 HR4); try done.
  - cbn. apply list_lookup_insert_eq. rewrite !length_insert. by apply lookup_lt_Some in Hip.
  - cbn. rewrite list_lookup_insert_ne by done. apply list_lookup_insert_eq. rewrite !length_insert. by apply lookup_lt_Some in Hq.
  - split_and!; try done; cbn; [by rewrite Hin|rewrite set_valid_busy; apply set_busy_busy|apply set_valid_valid].
Qed.

(** Both inodes locked: the hypotheses of the copying loop. *)
Lemma repairable_rescuing g W W' i ip j iq inum c lim : repairable g W inum c lim -> i <> j ->
  w_cur W' = w_cur W -> w_held W' = w_held W -> w_ic W' !! i = Some ip -> w_ic W' !! j = Some iq ->
  holds (w_cur W) inum ip -> holds (w_cur W) c iq ->
  rescuing g W' i ip j iq lim (file_content (w_cur W) (dinode_at (w_cur W) c)).
Proof.
  intros [_ (_ & _ & Hci) _ [Hw Hok] (T1 & T2 & T3) [B1 B2] [Hs _ _] Hap [Hsz _] Hcb] Hne Hc Hh Hi Hj (I1 & I2 & I3 & _) (J1 & J2 & J3 & _).
  assert (w_secs W' = w_secs W) as Hse by (unfold w_secs; by rewrite Hh).
  split; rewrite ?I2, ?I3, ?J2, ?J3, ?Hc; try done.
  - split; unfold i_type; rewrite ?I2, ?I3, ?Hse; try done. eapply writable_same; [exact Hw|done|]. by rewrite Hc.
  - split_and!; try done. unfold i_type. rewrite J3. apply Hs.
  - destruct (readable_agree g g W W' _ (si_data _ _ _ Hs)) as [? _]; try done. by rewrite Hc.
  - unfold i_size. by rewrite I3, J3.
  - split_and!; try done; apply Hs.
Qed.

(** The copy, and the inodes unlocked again. *)
Lemma rescue_copy φ A i ip j iq lim cs cp (Q : unit -> fs -> Prop) : idle (f_log φ) A ->
  rescuing (quiet_geom A φ) (quiet_view A φ) i ip j iq lim cs -> file_content (cur A) (i_d ip) = cp -> length cp = length cs ->
  0 <= i_checksum iq < 4294967296 -> 8 < l_size (f_log φ) -> 0 < i_size iq ->
  flag (i_flags ip) I_BUSY = true -> 1 <= i_ref ip -> flag (i_flags iq) I_BUSY = true -> 1 <= i_ref iq -> stored (cur A) ip 0 ->
  (forall φ' A' ip' new, resting φ' A' i ip' j iq lim cs cp (i_size iq) -> settled (cur A') ip' -> same_entry ip ip' ->
     step (f_log φ) A (f_log φ') A' new ->
     crash_restores (f_log φ) A new (rescued (l_start (f_log φ)) (i_inum ip) (i_inum iq) (i_d iq) cs cp) (i_size iq) 0 ->
     forall φ2, f_log φ2 = f_log φ' -> f_icache φ2 !! i = Some (upd_flags (fun f => flag_clr f I_BUSY) ip') -> Q tt φ2) ->
  wp (let! ip := geti (Some i) in
      let n := s32 (i_size ip) in
      irescue_loop devsw (Z.to_nat (n / RESCUE_MAX + 2)) (Some i) (Some j) n 0 0;;;
      iunlock (Some j);;; iunlock (Some i)) Q φ.
Proof.
  intros Hi Hrs Hcp Hlen Hck Hlog Hpos Hb Href Hbq Hrefq Hsto HQ. pose proof (rd_size _ _ _ (rs_data _ _ _ _ _ _ _ _ Hrs)) as Hmax.
  change (di_size (i_d iq)) with (i_size iq) in Hmax. change (MAXFILE * BSIZE) with 70656 in Hmax.
  pose proof (cw_entry _ _ _ _ _ (rs_dst _ _ _ _ _ _ _ _ Hrs)) as Hip. cbn in Hip.
  destruct (rs_src _ _ _ _ _ _ _ _ Hrs) as (Hiq & Hne & _). cbn in Hiq.
  rewrite wp_bind. unfold geti. rewrite wp_bind. apply wp_get. rewrite Hip. apply wp_ret. cbv zeta.
  rewrite (rs_size _ _ _ _ _ _ _ _ Hrs), s32_small by lia. rewrite wp_bind.
  eapply (irescue_loop_spec _ φ A i ip j iq lim cs cp 0); try done; try lia.
  - left. apply Z.divide_0_r.
  - change RESCUE_MAX with 2048. pose proof (Z.mod_pos_bound (i_size iq) 2048 ltac:(lia)). pose proof (Z.div_mod (i_size iq) 2048 ltac:(lia)).
    assert (0 <= i_size iq / 2048) by (apply Z.div_pos; lia). lia.
  - intros φ1 A1 ip1 new Hrt Hset Hse Hic Hst Hcr. rewrite wp_bind. destruct Hse as [d1 E1].
    eapply iunlock_locked; [rewrite Hic, list_lookup_insert_ne by done; exact Hiq|done|done|].
    assert (f_icache φ1 !! i = Some ip1) as Hip1 by (rewrite Hic; apply list_lookup_insert_eq; by apply lookup_lt_Some in Hip).
    eapply (iunlock_locked _ i ip1).
    + cbn. by rewrite list_lookup_insert_ne.
    + by rewrite E1.
    + by rewrite E1.
    + eapply HQ; [done|done|by exists d1|done|done|done|]. cbn. apply list_lookup_insert_eq. rewrite length_insert. by apply lookup_lt_Some in Hip1.
Qed.

(** Before the copy starts. *)
Lemma repairable_rescued g W inum c lim cur0 (dc := dinode_at (w_cur W) c) : repairable g W inum c lim ->
  (forall s, s < g_start g -> cur0 s = w_cur W s) -> dinode_at cur0 inum = dinode_at (w_cur W) inum /\
  rescued (g_start g) inum c dc (file_content (w_cur W) dc) (file_content (w_cur W) (dinode_at (w_cur W) inum)) 0 cur0.
Proof.
  intros Hrb Hc0. pose proof (repairable_sound _ _ _ _ _ Hrb) as [B1 _ _ _ Hrd]. destruct (rb_ditto _ _ _ _ _ Hrb) as [[B2 _ _ _ Hrc] _ _].
  assert (forall cur', (forall s, 0 <= s < g_start g -> cur' s = w_cur W s) -> dinode_at cur' inum = dinode_at (w_cur W) inum /\
    dinode_at cur' c = dc) as Hd by (intros cur' Hc; unfold dc, dinode_at; by rewrite (Hc (IBLOCK inum)), (Hc (IBLOCK c)) by done).
  split; [apply Hd; intros s [_ Hs]; by apply Hc0|]. intros cur' Hc.
  assert (forall s, 0 <= s < g_start g -> cur' s = w_cur W s) as Hc' by (intros s Hs; rewrite Hc by done; apply Hc0; lia).
  destruct (Hd cur' Hc') as [-> ->]. unfold intact. rewrite (content_agree _ _ _ _ Hrd Hc'), patched_0.
  split_and!; [done|apply Hrb|done|exact (content_agree _ _ _ _ Hrc Hc')].
Qed.

(** The reads before the first transaction write nothing but log blocks. *)
Lemma crash_restores_reads κ0 g φ W A κ' A' new P n : idle κ0 (g_base g) -> l_start κ0 = g_start g -> l_size κ0 = g_nlog g ->
  Rep g φ W -> traced g A -> step (f_log φ) A κ' A' new -> 0 <= n -> P 0 (cur (g_base g)) -> P 0 (cur A) ->
  crash_restores (f_log φ) A new P n 0 ->
  exists new', step κ0 (g_base g) κ' A' new' /\ crash_restores κ0 (g_base g) new' P n 0.
Proof.
  intros Hi Es En HR (Ez & lw & Ew & Hlw & Hdu) Hst Hn HP0 HP Hcr.
  assert (step κ0 (g_base g) (f_log φ) A lw) as Hs0 by (split; try done; [rewrite Es; apply HR|rewrite En; apply HR]).
  exists (lw ++ new). split; [by eapply step_trans|]. assert (whole_chunks RESCUE_MAX n 0) as Hw by (split; [lia|right; apply Z.divide_0_r]).
  eapply (crash_restores_app _ _ _ A _ _ _ _ 0 0); try done; [by right|]. intros j. left. apply recovers_log_only; [done|by rewrite Es].
Qed.

Lemma ilock_trans_repairs κ0 g φ W i ip inum c lim (dc := dinode_at (w_cur W) c) (cs := file_content (w_cur W) dc) :
  idle κ0 (g_base g) -> l_start κ0 = g_start g -> l_size κ0 = g_nlog g -> (forall s, s < g_start g -> cur (g_base g) s = w_cur W s) -> Rep g φ W -> g_busy g = false -> w_held W = ∅ -> w_pins W = ∅ -> w_T W = ∅ ->
  repairable g W inum c lim -> w_ic W !! i = Some ip -> fresh_entry inum ip ->
  (exists k q, w_ic W !! k = Some q /\ i_ref q = 0) -> 8 < g_nlog g ->
  wp (ilock_trans devsw (Some i)) (fun r φ' => r = 0 /\ exists A' ip' new, idle (f_log φ') A' /\ f_icache φ' !! i = Some ip' /\
    holds (cur A') inum ip' /\ intact (cur A') (i_d ip') = true /\ file_content (cur A') (i_d ip') = cs /\
    dinode_at (cur A') c = dc /\ file_content (cur A') dc = cs /\ step κ0 (g_base g) (f_log φ') A' new /\
    crash_restores κ0 (g_base g) new
      (rescued (g_start g) inum c dc cs (file_content (w_cur W) (dinode_at (w_cur W) inum))) (di_size dc) 0) φ.
Proof.
  intros Hi0 Es0 En0 Hc0 HR Hb Hh Hp HT Hrb Hip Hf Hfree Hlog. pose proof Hrb as [Hbad (Hch & Hc & Hci) Hgood _ _ _ Hrep _ [Hsz Hpos] _].
  pose proof (repairable_sound _ _ _ _ _ Hrb) as Hs.
  assert (wroom W = 20%nat) as Hr by (unfold wroom, w_secs; by rewrite Hh, Hp, map_img_empty_L).
  assert (0 <= c) as Hcpos.
  { rewrite <- Hch. with_strategy transparent [u16] unfold u16. by apply Z.mod_pos_bound. }
  unfold ilock_trans. rewrite wp_bind. unfold ilock, ilock_ext at 1. change (S (Z.to_nat NINODE)) with (S (S 99)).
  eapply (ilock_replica g 99 φ W i ip inum c); try done; [by rewrite Hr; lia|]. intros φ1 j q Nj Hq Hq0 HR1.
  rewrite (proj2 (Z.eqb_neq c 0)), (proj2 (Z.eqb_neq c E_CORRUPTED)), (proj2 (Z.ltb_lt 0 c)) by (unfold E_CORRUPTED; lia).
  rewrite wp_bind. unfold irescue. eapply (rescue_locks g φ1 W i ip inum c lim j q); try done; [by rewrite Hr; lia|].
  intros φ2 W2 ip2 iq2 HR2 Hc2 Hh2 Hp2 HT2 Hip2 Hiq2 Hho Hhc.
  destruct (Rep_idle g φ2 W2 HR2) as (A2 & Hi2 & Hcur2 & Htr2); [done|congruence..|].
  assert (forall s, s < g_start g -> cur A2 s = w_cur W s) as Hcw by (intros s Hlt; rewrite Hcur2 by done; by rewrite Hc2).
  destruct (repairable_rescued g W inum c lim (cur A2) Hrb Hcw) as [Ed2 HP2]. destruct (repairable_rescued g W inum c lim _ Hrb Hc0) as [_ HP0].
  pose proof (repairable_rescuing g W W2 i ip2 j iq2 inum c lim Hrb ltac:(done) Hc2 Hh2 Hip2 Hiq2 Hho Hhc) as Hrs2.
  assert (rescuing (quiet_geom A2 φ2) (quiet_view A2 φ2) i ip2 j iq2 lim (file_content (w_cur W) (dinode_at (w_cur W) c))) as Hrsq.
  { eapply (rescuing_agree g _ W2); [exact Hrs2|exact (rep_start _ _ _ HR2)|by rewrite Hh2, Hh|exact Hcur2|exact (rep_ic _ _ _ HR2)]. }
  destruct Hho as (I1 & I2 & I3 & I4 & I5 & I6). destruct Hhc as (J1 & J2 & J3 & J4 & J5 & J6).
  assert (file_content (cur A2) (i_d ip2) = file_content (w_cur W) (dinode_at (w_cur W) inum)) as Ecp.
  { pose proof (proj1 (HP2 (cur A2) ltac:(done))) as E. rewrite Ed2, patched_0 in E. by rewrite I3. }
  eapply (rescue_copy φ2 A2 i ip2 j iq2 lim _ _ _ Hi2 Hrsq Ecp); try done.
  - rewrite !length_content by lia. by rewrite Hsz.
  - unfold i_checksum. rewrite J3, <- (proj1 (Z.eqb_eq _ _) Hgood). apply checksum_range. by eapply (readable_bytes g φ W), Hrep.
  - by rewrite (rep_nlog _ _ _ HR2).
  - unfold i_size. rewrite J3. lia.
  - unfold stored. rewrite I2, I3, <- Ed2. split; [done|]. by apply (HP2 (cur A2)).
  - intros φ3 A3 ip3 new [Hi3 Hrs3 Hco3] [Hd3 Hint3] [d3 E3] Hst3 Hcr3 φ4 Ef4 Hic4. set (ip4 := upd_flags _ ip3) in Hic4.
    assert (flag (i_flags ip4) I_VALID = true /\ flag (i_flags ip4) I_BUSY = false) as [Hv4 Hb4].
    { cbn. rewrite clr_busy_valid, clr_busy_busy, E3. done. }
    rewrite wp_bind. eapply (ilock_ready devsw φ4 i ip4); [done|done|done|cbn; by rewrite E3|]. apply wp_ret. split; [done|].
    rewrite (rep_start _ _ _ HR2), I2, J2 in Hcr3. unfold i_size in Hcr3. rewrite J3 in Hcr3.
    destruct (crash_restores_reads κ0 g φ2 W2 A2 _ A3 new _ (di_size dc) Hi0 Es0 En0 HR2 Htr2 Hst3 ltac:(unfold dc; lia) HP0 HP2 Hcr3) as (new' & Hst' & Hcr').
    exists A3, (upd_flags (fun f => flag_set f I_BUSY) ip4), new'. pose proof (rs_disk _ _ _ _ _ _ _ _ Hrs3) as (D1 & _). rewrite J2, J3 in D1.
    pose proof (rs_content _ _ _ _ _ _ _ _ Hrs3) as D2. rewrite J3 in D2. split_and!; try done.
    + by rewrite <- Ef4 in Hi3.
    + cbn. apply list_lookup_insert_eq. by apply lookup_lt_Some in Hic4.
    + subst ip4. unfold holds. cbn [upd_flags i_dev i_inum i_d i_ref i_flags]. rewrite <- Hd3, set_busy_busy, set_busy_valid, clr_busy_valid, E3.
      cbn. by rewrite I2.
    + cbn. rewrite Hco3. unfold i_size in *. rewrite J3. subst cs dc. apply patched_all; rewrite !length_content by lia; lia.
    + cbn. by rewrite Ef4.
Qed.
End rescue.

(** A machine that boots and calls [ilock_trans]. *)
Lemma boot_repairs devsw d size start nlog ss ic cwd i ip inum c lim (W := boot_view d start ss ic cwd)
  (A0 := recovered (disk_of d) size start ss) (dc := dinode_at (w_cur W) c) (cs := file_content (w_cur W) dc) :
  log_disk (disk_of d) size start nlog ss -> 8 < nlog -> repairable (Geometry start nlog false A0) W inum c lim ->
  ic !! i = Some ip -> fresh_entry inum ip -> (exists k q, ic !! k = Some q /\ i_ref q = 0) ->
  exists κ φ' A' ip' new, initlog (boot d size) = Ret tt κ /\ l_start κ = start /\ ilock_trans devsw (Some i) (Fs κ ic cwd) = Ret 0 φ' /\
    idle (f_log φ') A' /\ f_icache φ' !! i = Some ip' /\
    holds (cur A') inum ip' /\ intact (cur A') (i_d ip') = true /\ file_content (cur A') (i_d ip') = cs /\
    dinode_at (cur A') c = dc /\ file_content (cur A') dc = cs /\ step κ A0 (f_log φ') A' new /\
    crash_restores κ A0 new (rescued start inum c dc cs (file_content (w_cur W) (dinode_at (w_cur W) inum))) (di_size dc) 0.
Proof.
  intros Hld Hlog Hrb Hip Hf Hfree. destruct (idle_init _ _ _ _ _ Hld) as (κ & E & Hi & Es & En & _ & _ & Hc0 & _).
  destruct (boot_Rep d size start nlog ss ic cwd false Hld) as (κ0 & E0 & HR). rewrite E in E0. injection E0 as <-.
  replace (set_busy false κ) with κ in HR by (pose proof (idle_busy _ _ Hi); destruct κ; cbn in *; by subst).
  pose proof (ilock_trans_repairs devsw κ (Geometry start nlog false A0) _ W i ip inum c lim Hi Es En Hc0 HR
    eq_refl eq_refl eq_refl eq_refl Hrb Hip Hf Hfree Hlog) as (r & φ' & E' & -> & A' & ip' & new & H)%wp_Ret.
  exists κ, φ', A', ip', new. split; [done|]. split; [done|]. split; [exact E'|exact H].
Qed.

(** ** Theorems *)

(** C3. Rescue. A machine boots and [ilock_trans] is called on an inode whose
    contents fail their checksum and whose first ditto is intact. The call returns
    0 with the inode locked and valid; the file then has the contents of the ditto,
    on disk and in the cache, with a checksum that fits, and the ditto is as before. *)
Theorem rescue_restores devsw d size start nlog ss ic cwd i ip inum c lim (W := boot_view d start ss ic cwd) :
  log_disk (disk_of d) size start nlog ss -> 8 < nlog ->
  repairable (Geometry start nlog false (recovered (disk_of d) size start ss)) W inum c lim ->
  ic !! i = Some ip -> fresh_entry inum ip -> (exists k q, ic !! k = Some q /\ i_ref q = 0) ->
  exists κ φ' ip', initlog (boot d size) = Ret tt κ /\ ilock_trans devsw (Some i) (Fs κ ic cwd) = Ret 0 φ' /\
    f_icache φ' !! i = Some ip' /\ let cur' := dsk (l_bio (f_log φ')) in
    holds cur' inum ip' /\ intact cur' (i_d ip') = true /\
    file_content cur' (i_d ip') = file_content (w_cur W) (dinode_at (w_cur W) c) /\
    dinode_at cur' c = dinode_at (w_cur W) c /\
    file_content cur' (dinode_at cur' c) = file_content (w_cur W) (dinode_at (w_cur W) c).
Proof.
  intros Hld Hlog Hrb Hip Hf Hfree.
  destruct (boot_repairs devsw d size start nlog ss ic cwd i ip inum c lim Hld Hlog Hrb Hip Hf Hfree)
    as (κ & φ' & A' & ip' & new & E & _ & E' & Hi' & Hip' & Hho & Hint & Hco & Hdc & Hcc & _). fold W in Hco, Hdc, Hcc.
  exists κ, φ', ip'. assert (forall s, dsk (l_bio (f_log φ')) s = cur A' s) as Hd.
  { intros s. rewrite (R_dur _ _ (ls_R _ _ _ (idle_LS _ _ Hi'))). symmetry. by eapply idle_clean. }
  assert (forall n, dinode_at (dsk (l_bio (f_log φ'))) n = dinode_at (cur A') n) as Hdi by (intros n; unfold dinode_at; by rewrite Hd).
  assert (forall di, file_content (dsk (l_bio (f_log φ'))) di = file_content (cur A') di) as Hfc.
  { intros di. apply (file_content_same _ _ _ (di_size di)); [done|]. intros o _. unfold file_byte, addr_of. by rewrite !Hd. }
  unfold holds, intact in *. rewrite !Hdi, !Hfc, Hdc. by split_and!; try apply Hho.
Qed.

(** The disk with a corrupted file and its ditto. *)
Definition rotten : gmap Z block := roomy (image jello).

Lemma rotten_dinodes : dinode_at (disk_of rotten) 2 = img_file (checksum hello) T_FILE 1 6 3 /\
  dinode_at (disk_of rotten) 3 = img_file (checksum hello) T_DITTO 1 7 0.
Proof.
  unfold dinode_at. change (IBLOCK 2) with 2. change (IBLOCK 3) with 2. unfold rotten. rewrite roomy_disk by done. by vm_compute.
Qed.

Lemma img_repairable g W : g_start g = 13 -> w_held W = ∅ -> w_ic W = img_icache ->
  dinode_at (w_cur W) 2 = img_file (checksum hello) T_FILE 1 6 3 -> dinode_at (w_cur W) 3 = img_file (checksum hello) T_DITTO 1 7 0 ->
  intact (w_cur W) (dinode_at (w_cur W) 2) = false -> intact (w_cur W) (dinode_at (w_cur W) 3) = true ->
  repairable g W 2 3 512.
Proof.
  intros Hg Hh Hic E2 E3 Hb Hok. assert (w_secs W = ∅) as Hs by (unfold w_secs; rewrite Hh; apply map_img_empty_L).
  assert (forall bn, in_lim 512 bn -> bn = 0) as H0 by (intros bn [? H]; unfold BSIZE in H; lia).
  split; rewrite ?Hg, ?Hs; [done| |done|..]; rewrite ?E2, ?E3.
  - by vm_compute.
  - split; [by apply img_writable|]. split; try done. split; [done|]. repeat constructor; done.
  - done.
  - split; [done|apply not_elem_of_empty].
  - split; unfold leaf; rewrite ?E3; [|done|].
    + split; rewrite ?E3, ?Hs, ?Hg; [done|apply not_elem_of_empty|done|done|by apply img_readable].
    + rewrite Hic. intros [|[|[|[|]]]] q Hq; cbn in Hq; try done; by injection Hq as <-.
  - split; [|done]. intros bn Hbn. assert (bn = 0) as -> by (apply H0; split; [apply Hbn|]; destruct Hbn as [_ Hbn]; cbn in Hbn; lia).
    split; [done|]. intros bn' ->%H0. done.
  - done.
  - intros bn ->%H0. done.
Qed.

Lemma rescue_restores_witness : exists κ φ', initlog (boot rotten 24) = Ret tt κ /\
  ilock_trans no_devsw (Some 0%nat) (Fs κ img_icache None) = Ret 0 φ' /\
  file_content (dsk (l_bio (f_log φ'))) (dinode_at (dsk (l_bio (f_log φ'))) 2) = hello.
Proof.
  destruct (rescue_restores no_devsw rotten 24 13 11 [] img_icache None 0 (img_inode 0) 2 3 512) as (κ & φ' & ip' & E & H & _ & (_ & _ & Hd & _) & _ & Hc & _);
    [apply roomy_log, image_log; [done|by_evaluation]|done|apply img_repairable; [done|done|done|apply rotten_dinodes|apply rotten_dinodes|by vm_compute|by vm_compute]|done|done|by exists 1%nat, free_inode|].
  exists κ, φ'. split; [exact E|]. split; [exact H|]. rewrite <- Hd, Hc. by vm_compute.
Defined.

(** ** A crash in the middle of a rescue

    A file of 2052 bytes in sectors 6 to 10, its ditto in sectors 14 to 18; the
    last sector of the file has one wrong byte. *)
Definition sevens : list Z := replicate 2052 7.
Definition big_file (ty addr child : Z) : dinode :=
  Dinode ty 0 0 1 2052 ((Z.add addr <$> [0; 1; 2; 3; 4]) ++ replicate 6 0) child 0 (checksum sevens).
Definition torn : gmap Z block :=
  <[1 := put32 (put32 (put32 (put32 zblock 0 50) 4 22) 8 8) 12 20]>
  (<[2 := put_dinode 3 (big_file T_DITTO 14 0) (put_dinode 2 (big_file T_FILE 6 3) zblock)]>
  (<[10 := <[0%nat := 8]> (replicate 512 7)]> (list_to_map ((fun s => (s, replicate 512 7)) <$> zrange 6 19)))).
Definition torn_icache : list inode := [Inode 1 2 1 0 no_dinode; free_inode; free_inode].

(** C25. A crash during a rescue. The machine boots, and [ilock_trans] restores a
    file as in C3. Wherever the power is cut, the next boot succeeds, the ditto is as
    before, and the file has some number [m] of bytes of the ditto followed by the
    rest of the corrupted contents: a whole number of the 2048-byte chunks that are
    copied per transaction. Every such [m] comes from some point of failure. Each
    transaction also stores a new checksum: for [m] = 0 the corruption is still
    detected, but for any other [m] the mixed contents pass for intact, and for a
    file of more than 2048 bytes the next boot will not restore the rest. *)
Theorem rescue_crash_hides devsw d size start nlog ss ic cwd i ip inum c lim (W := boot_view d start ss ic cwd)
  (n := di_size (dinode_at (w_cur W) c)) (cs := file_content (w_cur W) (dinode_at (w_cur W) c))
  (cp := file_content (w_cur W) (dinode_at (w_cur W) inum)) :
  log_disk (disk_of d) size start nlog ss -> 8 < nlog ->
  repairable (Geometry start nlog false (recovered (disk_of d) size start ss)) W inum c lim ->
  ic !! i = Some ip -> fresh_entry inum ip -> (exists k q, ic !! k = Some q /\ i_ref q = 0) ->
  exists κ φ', initlog (boot d size) = Ret tt κ /\ ilock_trans devsw (Some i) (Fs κ ic cwd) = Ret 0 φ' /\
    let left k m := exists κr, initlog (boot (crash_disk d (take k (writes (l_bio (f_log φ'))))) size) = Ret tt κr /\
      let cur := dsk (l_bio κr) in
      file_content cur (dinode_at cur inum) = patched cs cp m /\ intact cur (dinode_at cur inum) = (0 <? m) /\
      dinode_at cur c = dinode_at (w_cur W) c /\ file_content cur (dinode_at cur c) = cs in
    (forall k, exists m, whole_chunks RESCUE_MAX n m /\ left k m) /\
    (forall m, whole_chunks RESCUE_MAX n m -> exists k, left k m).
Proof.
  intros Hld Hlog Hrb Hip Hf Hfree.
  destruct (boot_repairs devsw d size start nlog ss ic cwd i ip inum c lim Hld Hlog Hrb Hip Hf Hfree)
    as (κ & φ' & A' & ip' & new & E & Es & E' & Hi' & _ & Hho & Hint & Hco & Hdc & Hcc & Hst & Ha & Hb). fold W in Hco, Hdc, Hcc, Ha, Hb.
  exists κ, φ'. split; [done|]. split; [done|]. fold n cs cp in Ha, Hb. rewrite Es in Ha, Hb.
  destruct (repairable_rescued _ W inum c lim _ Hrb (fun s _ => eq_refl)) as [_ HP0]. cbn [g_start] in HP0. fold cs cp in HP0.
  set (P := rescued start inum c (dinode_at (w_cur W) c) cs cp) in *.
  assert (forall κr m cc, (forall s, 0 <= s < start -> dsk (l_bio κr) s = cc s) -> P m cc -> let cur := dsk (l_bio κr) in
    file_content cur (dinode_at cur inum) = patched cs cp m /\ intact cur (dinode_at cur inum) = (0 <? m) /\
      dinode_at cur c = dinode_at (w_cur W) c /\ file_content cur (dinode_at cur c) = cs) as Hend.
  { intros κr m cc Hcc2 HP. destruct (HP (dsk (l_bio κr)) Hcc2) as (H1 & H2 & H3 & H4). cbn. rewrite H3. done. }
  split.
  - intros k. destruct (boot_crash_any d size start nlog ss κ _ A' new Hld Hi' Hst (fun cc => exists m, whole_chunks RESCUE_MAX n m /\ P m cc))
      with (k := k) as (κr & cc & Er & Hcc2 & m & Hm & HP).
    + exists 0. split; [|exact HP0]. destruct (rb_size _ _ _ _ _ Hrb) as [? ?]. split; [unfold n; lia|right; apply Z.divide_0_r].
    + intros j. destruct (Ha j) as (m & cc & _ & Hm & Hr & HP). exists cc. split; [exact Hr|by exists m].
    + exists m. split; [done|]. exists κr. split; [done|by eapply Hend].
  - intros m Hm. destruct (Hb m (proj1 (proj1 Hm)) Hm) as (j & cc & Hr & HP).
    destruct (boot_crash_at d size start nlog ss κ _ A' new Hld Hi' Hst j cc Hr) as (κr & Er & Hcc2).
    eexists _, κr. split; [exact Er|by eapply Hend].
Qed.

Lemma torn_log : log_disk (disk_of torn) 50 30 20 [].
Proof.
  assert (map_Forall (fun _ b => block_ok b) torn) as Hok by by_evaluation. split.
  - intros s. unfold disk_of. destruct (torn !! s) as [b|] eqn:E; [exact (Hok s b E)|apply zblock_ok].
  - by vm_compute.
  - by vm_compute.
  - by vm_compute.
  - done.
  - constructor.
  - by intros s ?%elem_of_nil.
Qed.

(** The blocks of the two files. *)
Lemma big_addr cur ty addr child bn : in_lim 2560 bn -> addr_of cur (big_file ty addr child) bn = addr + bn.
Proof.
  intros [Hb Hl]. change BSIZE with 512 in Hl. assert (bn = 0 \/ bn = 1 \/ bn = 2 \/ bn = 3 \/ bn = 4) as [->|[->|[->|[->| ->]]]] by lia; done.
Qed.

Lemma in_lim_big bn : in_lim 2052 bn -> in_lim 2560 bn.
Proof. intros [? Hl]. change BSIZE with 512 in Hl. split; [done|]. change BSIZE with 512. lia. Qed.

Lemma big_mapped g W ty addr child bn : g_start g = 30 -> w_held W = ∅ -> 2 <= addr <= 20 -> in_lim 2560 bn -> block_mapped g W (big_file ty addr child) bn.
Proof.
  intros Hg Hh Ha Hbn. assert (w_secs W = ∅) as Hs by (unfold w_secs; rewrite Hh; apply map_img_empty_L). pose proof (big_addr (w_cur W) ty addr child bn Hbn) as E.
  destruct Hbn as [Hb Hl]. change BSIZE with 512 in Hl. change MAXFILE with 138. change NDIRECT with 10.
  split; rewrite ?E, ?Hs, ?Hg; [change MAXFILE with 138; lia|lia|lia|apply not_elem_of_empty|change NDIRECT with 10; lia].
Qed.

Lemma big_readable g W ty addr child : g_start g = 30 -> w_held W = ∅ -> 2 <= addr <= 20 -> readable g W (big_file ty addr child).
Proof. intros Hg Hh Ha. split; [done|done|]. intros bn Hb Hl. apply big_mapped; [done..|]. by apply in_lim_big. Qed.

Lemma big_repairable g W : g_start g = 30 -> w_held W = ∅ -> w_ic W = torn_icache ->
  dinode_at (w_cur W) 2 = big_file T_FILE 6 3 -> dinode_at (w_cur W) 3 = big_file T_DITTO 14 0 ->
  intact (w_cur W) (dinode_at (w_cur W) 2) = false -> intact (w_cur W) (dinode_at (w_cur W) 3) = true ->
  repairable g W 2 3 2560.
Proof.
  intros Hg Hh Hic E2 E3 Hb Hok. assert (w_secs W = ∅) as Hs by (unfold w_secs; rewrite Hh; apply map_img_empty_L).
  split; rewrite ?Hg, ?Hs; [exact Hb| |exact Hok|..]; clear Hb Hok; rewrite ?E2, ?E3.
  - by vm_compute.
  - split.
    + split; [by vm_compute|by vm_compute|by vm_compute|..].
      * intros bn Hbn. split; [by apply big_mapped|]. rewrite big_addr by exact Hbn. destruct Hbn. change (IBLOCK 2) with 2. lia.
      * intros bn bn' H1 H2. rewrite (big_addr _ _ _ _ _ H1), (big_addr _ _ _ _ _ H2). lia.
      * intros bn _ H. discriminate H.
    + split; [by vm_compute..|split; [by vm_compute|by_evaluation]|by vm_compute|by vm_compute|by vm_compute].
  - by vm_compute.
  - split; [by vm_compute|apply not_elem_of_empty].
  - split; unfold leaf; rewrite ?E3; [|by vm_compute|].
    + split; rewrite ?E3, ?Hs, ?Hg; [by vm_compute|apply not_elem_of_empty|by vm_compute|by vm_compute|by apply big_readable].
    + rewrite Hic. intros [|[|[|[|]]]] q Hq; cbn in Hq; try done; by injection Hq as <-.
  - split; [|intros H; discriminate H]. intros bn Hbn%in_lim_big. rewrite (big_addr _ _ _ _ _ Hbn). change (IBLOCK 2) with 2. split; [destruct Hbn; lia|].
    intros bn' Hbn'. rewrite (big_addr _ _ _ _ _ Hbn'). destruct Hbn as [Hb _], Hbn' as [Hb' Hl]. change BSIZE with 512 in Hl. lia.
  - by vm_compute.
  - intros bn Hbn. rewrite (big_addr _ _ _ _ _ Hbn). destruct Hbn. change (IBLOCK 3) with 2. lia.
Qed.

Definition torn_view : fview := boot_view torn 30 [] torn_icache None.

Lemma torn_repairable : repairable (Geometry 30 20 false (recovered (disk_of torn) 50 30 [])) torn_view 2 3 2560.
Proof. apply big_repairable; [done|done|done|by vm_compute..]. Qed.

Lemma torn_chunks : whole_chunks RESCUE_MAX (di_size (dinode_at (w_cur torn_view) 3)) 2048.
Proof. split; [by vm_compute|right; by exists 1]. Qed.

Lemma torn_contents : patched (file_content (w_cur torn_view) (dinode_at (w_cur torn_view) 3)) (file_content (w_cur torn_view) (dinode_at (w_cur torn_view) 2)) 2048 =
    replicate 2048 7 ++ [8; 7; 7; 7] /\
  file_content (w_cur torn_view) (dinode_at (w_cur torn_view) 3) = sevens.
Proof. split; by vm_compute. Qed.

(** After the first transaction 2048 bytes are restored: the wrong byte after them is
    still there, and the checksum fits it. *)
Lemma rescue_crash_hides_witness : exists κ φ' k κr, initlog (boot torn 50) = Ret tt κ /\
  ilock_trans no_devsw (Some 0%nat) (Fs κ torn_icache None) = Ret 0 φ' /\
  initlog (boot (crash_disk torn (take k (writes (l_bio (f_log φ'))))) 50) = Ret tt κr /\
  intact (dsk (l_bio κr)) (dinode_at (dsk (l_bio κr)) 2) = true /\
  file_content (dsk (l_bio κr)) (dinode_at (dsk (l_bio κr)) 2) = replicate 2048 7 ++ [8; 7; 7; 7] /\
  file_content (dsk (l_bio κr)) (dinode_at (dsk (l_bio κr)) 3) = sevens.
Proof.
  destruct (rescue_crash_hides no_devsw torn 50 30 20 [] torn_icache None 0 (Inode 1 2 1 0 no_dinode) 2 3 2560 torn_log)
    as (κ & φ' & E & E' & _ & H); [done|exact torn_repairable|reflexivity|done|by exists 1%nat, free_inode|].
  destruct (H 2048 torn_chunks) as (k & κr & Er & Hc & Hi & _ & Hd).
  exists κ, φ', k, κr. split; [exact E|]. split; [exact E'|]. split; [exact Er|]. split; [exact Hi|].
  split; [exact (eq_trans Hc (proj1 torn_contents))|exact (eq_trans Hd (proj2 torn_contents))].
Defined.
