(* ===== verification/Kalloc.v ===== *)
(** The physical page allocator of kalloc.c: the free list threaded through the
    free pages themselves, and the promise it makes to its clients. *)
From S2P Require Import Prelude.

(** ** Data *)

(** memlayout.h, mmu.h *)
Definition PGSIZE : Z := 4096.
Definition EXTMEM : Z := 1048576.
Definition PHYSTOP : Z := 234881024.
Definition KERNBASE : Z := 2147483648.
Definition V2P (a : Z) : Z := u32 (a - KERNBASE).
Definition P2V (a : Z) : Z := u32 (a + KERNBASE).
Definition PGROUNDUP (sz : Z) : Z := Z.land (u32 (sz + PGSIZE - 1)) (Z.lnot (PGSIZE - 1)).
Definition PGROUNDDOWN (a : Z) : Z := Z.land a (Z.lnot (PGSIZE - 1)).

(** Kernel memory, by page address, and [kmem.freelist] (0 is null). The [next]
    field of a [struct run] is the first word of the page. *)
Record kmem := Kmem { k_mem : Z -> list Z; k_freelist : Z }.

Definition set_mem (m : Z -> list Z) (σ : kmem) : kmem := Kmem m (k_freelist σ).
Definition set_freelist (r : Z) (σ : kmem) : kmem := Kmem (k_mem σ) r.

Definition run_next (σ : kmem) (r : Z) : Z := get32 (k_mem σ r) 0.

Section kalloc.
(** [end], the first address after the kernel. *)
Context (kend : Z).

(** ** Operations *)

Definition kfree (v : Z) : K kmem unit :=
  if negb (v `mod` PGSIZE =? 0) || (v <? kend) || (PHYSTOP <=? V2P v) then panic "kfree"
  else
  modify (fun σ => set_mem (<[v := replicate (Z.to_nat PGSIZE) 1]> (k_mem σ)) σ);;;
  modify (fun σ => set_mem (<[v := put32 (k_mem σ v) 0 (k_freelist σ)]> (k_mem σ)) σ);;;
  modify (set_freelist v).

Definition kalloc : K kmem Z :=
  let! σ := get in
  let r := k_freelist σ in
  (if r =? 0 then ret tt else modify (set_freelist (run_next σ r)));;;
  ret r.

(** The loop of [freerange]: [n] bounds the pages left. *)
Fixpoint freerange_loop (n : nat) (p vend : Z) : K kmem unit :=
  match n with
  | O => ret tt
  | S n' => if p + PGSIZE <=? vend then kfree p;;; freerange_loop n' (p + PGSIZE) vend else ret tt
  end.

Definition freerange (vstart vend : Z) : K kmem unit :=
  let p := PGROUNDUP vstart in
  freerange_loop (Z.to_nat ((vend - p) / PGSIZE)) p vend.

Definition kinit1 (vstart vend : Z) : K kmem unit := freerange vstart vend.
Definition kinit2 (vstart vend : Z) : K kmem unit := freerange vstart vend.

(** ** Invariant *)

(** A page the allocator manages. *)
Definition is_page (v : Z) : Prop := v `mod` PGSIZE = 0 /\ kend <= v < KERNBASE + PHYSTOP /\ KERNBASE <= v.

(** The pages on the free list, in order. *)
Fixpoint chain (m : Z -> list Z) (r : Z) (l : list Z) : Prop :=
  match l with
  | [] => r = 0
  | v :: l' => r = v /\ is_page v /\ length (m v) = Z.to_nat PGSIZE /\ chain m (get32 (m v) 0) l'
  end.

Definition kmem_ok (σ : kmem) (l : list Z) : Prop := chain (k_mem σ) (k_freelist σ) l /\ NoDup l.

Lemma is_page_pos v : is_page v -> 0 < v < 2 ^ 32.
Proof. unfold is_page, KERNBASE, PHYSTOP. lia. Qed.

Lemma V2P_page v : is_page v -> V2P v = v - KERNBASE.
Proof. intros H. unfold V2P. apply u32_small. unfold is_page, KERNBASE, PHYSTOP in *. lia. Qed.

Lemma chain_other m v d r l : v ∉ l -> chain (<[v := d]> m) r l <-> chain m r l.
Proof.
  revert r; induction l as [|w l IH]; intros r Hv; [done|]. apply not_elem_of_cons in Hv as [N Hv]. cbn.
  rewrite fn_lookup_insert_ne by done. by rewrite IH.
Qed.

Lemma chain_head m r l : chain m r l -> r = default 0 (head l).
Proof. destruct l; [done|]. by intros [-> _]. Qed.

Lemma kfree_spec σ l v (Q : unit -> kmem -> Prop) : kmem_ok σ l -> is_page v -> v ∉ l ->
  (forall σ', kmem_ok σ' (v :: l) -> (forall w, w <> v -> k_mem σ' w = k_mem σ w) -> Q tt σ') ->
  wp (kfree v) Q σ.
Proof.
  intros [Hc Hnd] Hv Hin HQ. unfold kfree. pose proof (V2P_page v Hv) as Ev. pose proof Hv as (Hal & Hr & Hk).
  rewrite Hal, Ev. destruct (Z.ltb_spec v kend); [lia|]. destruct (Z.leb_spec PHYSTOP (v - KERNBASE)); [lia|].
  change (negb (0 =? 0)) with false. cbn [orb].
  rewrite wp_bind. apply wp_modify. rewrite wp_bind. apply wp_modify. apply wp_modify. apply HQ.
  - assert (0 <= k_freelist σ < 2 ^ 32) as Hf.
    { rewrite (chain_head _ _ _ Hc). destruct l as [|w l']; cbn; [lia|]. destruct Hc as (_ & Hw & _).
      apply is_page_pos in Hw. lia. }
    split; [|by constructor]. cbn. split; [done|]. split; [done|]. rewrite !fn_lookup_insert. split.
    + rewrite length_put32; rewrite ?length_replicate; unfold PGSIZE; lia.
    + rewrite get32_put32_eq by (rewrite ?length_replicate; unfold PGSIZE; lia). rewrite u32_small by lia.
      by rewrite !chain_other.
  - intros w Hw. cbn. by rewrite !fn_lookup_insert_ne.
Qed.

Lemma kalloc_spec σ l (Q : Z -> kmem -> Prop) : kmem_ok σ l ->
  match l with
  | [] => Q 0 σ
  | v :: l' => forall σ', kmem_ok σ' l' -> k_mem σ' = k_mem σ -> Q v σ'
  end -> wp kalloc Q σ.
Proof.
  intros [Hc Hnd] HQ. unfold kalloc. rewrite wp_bind. apply wp_get. rewrite wp_bind. destruct l as [|v l].
  - cbn in Hc. rewrite Hc. cbn. by apply wp_ret, wp_ret.
  - destruct Hc as (-> & Hv & Hlen & Hc). pose proof (is_page_pos v Hv). destruct (Z.eqb_spec v 0); [lia|].
    apply wp_modify, wp_ret. apply HQ; [|done]. split; [exact Hc|]. by apply NoDup_cons in Hnd as [_ ?].
Qed.

(** ** Initialisation *)

Lemma PGROUNDUP_spec a : 0 <= a -> a + PGSIZE < 2 ^ 32 ->
  PGROUNDUP a `mod` PGSIZE = 0 /\ a <= PGROUNDUP a < a + PGSIZE.
Proof.
  intros H0 H1. unfold PGROUNDUP. rewrite u32_small by (unfold PGSIZE in *; lia).
  change (PGSIZE - 1) with (Z.ones 12). rewrite <- Z.ldiff_land, Z.ldiff_ones_r by lia.
  rewrite Z.shiftr_div_pow2, Z.shiftl_mul_pow2 by lia. unfold PGSIZE. change (2 ^ 12) with 4096.
  rewrite Z.mod_mul by lia. split; [done|].
  pose proof (Z.div_mod (a + 4096 - 1) 4096 ltac:(lia)). pose proof (Z.mod_pos_bound (a + 4096 - 1) 4096 ltac:(lia)). lia.
Qed.

(** The pages from [p], last one first, as [freerange] leaves them on the list. *)
Fixpoint pages_down (n : nat) (p : Z) (l : list Z) : list Z :=
  match n with O => l | S n' => pages_down n' (p + PGSIZE) (p :: l) end.

Lemma freerange_loop_spec n σ l p vend : kmem_ok σ l -> p `mod` PGSIZE = 0 -> kend <= p -> KERNBASE <= p ->
  vend <= KERNBASE + PHYSTOP -> p + Z.of_nat n * PGSIZE <= vend -> Forall (fun v => v < p) l ->
  wp (freerange_loop n p vend) (fun _ σ' => kmem_ok σ' (pages_down n p l)) σ.
Proof.
  revert σ l p; induction n as [|n IH]; intros σ l p Hok Hal Hk1 Hk2 Hv Hn Hl; [done|].
  cbn [freerange_loop]. destruct (Z.leb_spec (p + PGSIZE) vend); [|unfold PGSIZE in *; lia].
  assert (is_page p) as Hp by (split_and!; try done; unfold PGSIZE in *; lia).
  rewrite wp_bind. eapply kfree_spec; [done|done| |].
  - intros Hin. rewrite Forall_forall in Hl. apply Hl in Hin. lia.
  - intros σ' Hok' _. apply IH; try done; try (unfold PGSIZE in *; lia).
    + rewrite <- Z.add_mod_idemp_l, Hal by (by vm_compute). by vm_compute.
    + constructor; [unfold PGSIZE; lia|]. eapply Forall_impl; [done|]. cbn. unfold PGSIZE. lia.
Qed.

Lemma pages_down_length n p l : length (pages_down n p l) = (n + length l)%nat.
Proof. revert p l; induction n as [|n IH]; intros; [done|]. cbn. rewrite IH. simpl. lia. Qed.

(** ** Runs of allocations and deallocations *)

(** [X] is the set of pages handed out. A client may write the pages it owns and
    give them back; nothing else touches memory. *)
Inductive kstep : kmem * gset Z -> kmem * gset Z -> Prop :=
| ks_alloc σ σ' X v : kalloc σ = Ret v σ' -> v <> 0 -> kstep (σ, X) (σ', X ∪ {[v]})
| ks_full σ σ' X : kalloc σ = Ret 0 σ' -> kstep (σ, X) (σ', X)
| ks_free σ σ' X v : v ∈ X -> kfree v σ = Ret tt σ' -> kstep (σ, X) (σ', X ∖ {[v]})
| ks_write σ X v d : v ∈ X -> kstep (σ, X) (set_mem (<[v := d]> (k_mem σ)) σ, X).

Definition kinv (n : nat) (s : kmem * gset Z) : Prop :=
  exists l, kmem_ok s.1 l /\ (forall v, v ∈ s.2 -> is_page v /\ v ∉ l) /\ (size s.2 + length l = n)%nat.

Lemma kalloc_inv σ l r σ' : kmem_ok σ l -> kalloc σ = Ret r σ' ->
  (r = 0 /\ l = [] /\ kmem_ok σ' []) \/ exists l', l = r :: l' /\ kmem_ok σ' l'.
Proof.
  intros Hok E. pose proof (kalloc_spec σ l (fun r τ => (r = 0 /\ l = [] /\ kmem_ok τ []) \/ exists l', l = r :: l' /\ kmem_ok τ l') Hok) as H.
  unfold wp in H. rewrite E in H. apply H. destruct l; [by left|]. intros; right; eauto.
Qed.

Lemma kfree_inv σ l v σ' : kmem_ok σ l -> is_page v -> v ∉ l -> kfree v σ = Ret tt σ' -> kmem_ok σ' (v :: l).
Proof.
  intros Hok Hv Hl E. pose proof (kfree_spec σ l v (fun _ τ => kmem_ok τ (v :: l)) Hok Hv Hl) as H.
  unfold wp in H. rewrite E in H. by apply H.
Qed.

Lemma kstep_inv n s s' : kinv n s -> kstep s s' -> kinv n s'.
Proof.
  intros (l & Hok & HX & Hn) Hst. destruct Hst as [σ σ' X v E Hv|σ σ' X E|σ σ' X v Hin E|σ X v d Hin]; cbn in Hok, HX, Hn.
  - destruct (kalloc_inv _ _ _ _ Hok E) as [[? _]|(l' & -> & Hok')]; [done|].
    pose proof Hok as [(_ & Hp & _) Hnd]. apply NoDup_cons in Hnd as [Hv' Hnd]. exists l'. cbn. split; [done|]. split.
    + intros w [Hw| ->%elem_of_singleton]%elem_of_union; [|done]. apply HX in Hw as [? ?]. split; [done|]. set_solver.
    + assert (v ∉ X) by (intros H; apply HX in H as [_ ?]; set_solver).
      rewrite size_union by set_solver. rewrite size_singleton. simpl in Hn. lia.
  - destruct (kalloc_inv _ _ _ _ Hok E) as [(_ & -> & Hok')|(l' & -> & Hok')]; [by exists []|].
    destruct Hok as [(_ & Hp & _) _]. apply is_page_pos in Hp. lia.
  - destruct (HX v Hin) as [Hp Hl]. pose proof (kfree_inv _ _ _ _ Hok Hp Hl E). exists (v :: l). cbn. split; [done|]. split.
    + intros w [Hw N]%elem_of_difference. apply HX in Hw as [? ?]. split; [done|]. set_solver.
    + rewrite size_difference by set_solver. rewrite size_singleton.
      assert (size X <> 0)%nat by (intros ?%size_empty_inv; set_solver). lia.
  - exists l. cbn. split; [|done]. destruct Hok as [Hc Hnd]. split; [|done]. cbn. rewrite chain_other; [done|]. by apply HX.
Qed.
End kalloc.

(** ** Theorems *)

(** C21. Page ownership. Starting from the pages [freerange] puts on the list, let
    clients allocate pages, write pages they own and free them, in any order.
    A page returned by [kalloc] is never one that is still allocated, it lies in
    the managed range, and pages are neither lost nor created: [kalloc] fails
    only when all of them are allocated. *)
Theorem kalloc_exclusive kend vstart vend m n :
  kend <= vstart -> KERNBASE <= vstart <= vend -> vend <= KERNBASE + PHYSTOP ->
  n = Z.to_nat ((vend - PGROUNDUP vstart) / PGSIZE) ->
  exists σ0, freerange kend vstart vend (Kmem m 0) = Ret tt σ0 /\
  forall σ X, rtc (kstep kend) (σ0, ∅) (σ, X) ->
  exists v σ', kalloc σ = Ret v σ' /\
    if decide (size X = n) then v = 0 else v ∉ X /\ is_page kend v.
Proof.
  intros H1 H2 H3 ->. set (n := Z.to_nat _). set (p := PGROUNDUP vstart) in *.
  destruct (PGROUNDUP_spec vstart) as [Hal Hp]; [unfold KERNBASE, PHYSTOP, PGSIZE in *; lia..|]. fold p in Hal, Hp.
  assert (wp (freerange kend vstart vend) (fun _ σ' => kmem_ok kend σ' (pages_down n p [])) (Kmem m 0)) as Hwp.
  { unfold freerange. fold p. fold n. destruct n as [|n'] eqn:En; [split; [done|constructor]|]. rewrite <- En.
    apply freerange_loop_spec; try done; try lia; [split; [done|constructor]|].
    unfold n, PGSIZE in *. pose proof (Z.mul_div_le (vend - p) 4096). lia. }
  apply wp_Ret in Hwp as ([] & σ0 & E & Hok). exists σ0. split; [done|]. intros σ X Hrun.
  assert (kinv kend n (σ, X)) as (l & Hok' & HX & Hn).
  { assert (kinv kend n (σ0, ∅)) as H0.
    { exists (pages_down n p []). split; [done|]. split; [set_solver|]. cbn [snd]. rewrite pages_down_length, size_empty. simpl. lia. }
    clear -Hrun H0. remember (σ0, ∅) as s0. remember (σ, X) as s1. clear Heqs0 Heqs1 σ0 σ X.
    induction Hrun as [|s s' s'' Hst _ IH]; [done|]. apply IH. by eapply kstep_inv. }
  cbn in Hok', HX, Hn. destruct l as [|v l].
  - exists 0, σ. split; [|rewrite decide_True; [done|simpl in Hn; lia]].
    destruct Hok' as [Hc _]. cbn in Hc. unfold kalloc, bind, get. by rewrite Hc.
  - pose proof Hok' as [(Hr & Hv & _) _]. pose proof (is_page_pos _ _ Hv).
    exists v, (set_freelist (run_next σ v) σ). split.
    + unfold kalloc, bind, get, modify. rewrite Hr. destruct (Z.eqb_spec v 0); [lia|done].
    + rewrite decide_False by (simpl in Hn; lia). split; [|done]. intros Hin. apply HX in Hin as [_ ?]. set_solver.
Qed.

Lemma kalloc_exclusive_witness : exists σ0,
  freerange 2148532224 2148532225 2148548608 (Kmem (fun _ => []) 0) = Ret tt σ0.
Proof.
  destruct (kalloc_exclusive 2148532224 2148532225 2148548608 (fun _ => []) 3) as (σ0 & E & _);
    [by vm_compute|split; by vm_compute|by vm_compute|by vm_compute|].
  exists σ0. exact E.
Defined.
