(* ===== verification/Mp.v ===== *)
(** mp.c: finding the processors. The firmware's tables are searched for in
    physical memory and scanned entry by entry. *)
From S2P Require Import Prelude Str Kalloc.

Definition NCPU : Z := 8.
Definition MPPROC : Z := 0.
Definition MPBUS : Z := 1.
Definition MPIOAPIC : Z := 2.
Definition MPIOINTR : Z := 3.
Definition MPLINTR : Z := 4.
Definition MPBOOT : Z := 2.

(** The variables of mp.c: the field [id] of the processors, the number of them,
    the boot processor and what is known of the interrupt controllers; and the
    bytes written to ports so far. *)
Record mpst := Mp {
  mp_ids : list Z; mp_ncpu : Z; mp_ismp : bool; mp_bcpu : Z; mp_ioapicid : Z; mp_lapic : Z; mp_ports : list (Z * Z)
}.
Definition mp_boot : mpst := Mp (replicate (Z.to_nat NCPU) 0) 0 false 0 0 0 [].

Section mp.
(** Physical memory, and what port 0x23 reads. *)
Context (mem : Z -> Z) (imcr : Z).

(** A byte at a kernel address; all of physical memory is mapped at [KERNBASE]. *)
Definition ld (va : Z) : K mpst Z :=
  let pa := u32 (va - KERNBASE) in if pa <? PHYSTOP then ret (mem pa) else undef "page fault".
Definition ld16 (va : Z) : K mpst Z := let! a := ld va in let! b := ld (va + 1) in ret (le_dec [a; b]).
Definition ld32 (va : Z) : K mpst Z :=
  let! a := ld va in let! b := ld (va + 1) in let! c := ld (va + 2) in let! d := ld (va + 3) in ret (le_dec [a; b; c; d]).

(** [memcmp(p, s, n) == 0] *)
Fixpoint same_bytes (va : Z) (s : list Z) : K mpst bool :=
  match s with
  | [] => ret true
  | c :: s' => let! b := ld va in if b =? c then same_bytes (va + 1) s' else ret false
  end.

Definition sum (addr len : Z) : K mpst Z :=
  let! t := foldK (fun i t => let! b := ld (addr + i) in ret (t + b)) (zrange 0 len) 0 in
  ret (u8 t).

Fixpoint search_loop (fuel : nat) (p e : Z) : K mpst Z :=
  if p <? e then
    match fuel with
    | O => nofuel
    | S fuel' =>
      let! s := same_bytes p (lit "_MP_") in
      let! z := (if (s : bool) then sum p 16 else ret 1) in
      if z =? 0 then ret p else search_loop fuel' (p + 16) e
    end
  else ret 0.
Definition mpsearch1 (a len : Z) : K mpst Z :=
  let addr := P2V a in search_loop (Z.to_nat (len / 16 + 1)) addr (addr + len).

Definition mpsearch : K mpst Z :=
  let bda := P2V 1024 in
  let! b15 := ld (bda + 15) in
  let! b14 := ld (bda + 14) in
  let p := Z.shiftl (Z.lor (Z.shiftl b15 8) b14) 4 in
  let! mp := (if negb (p =? 0) then mpsearch1 p 1024
              else let! b20 := ld (bda + 20) in
                   let! b19 := ld (bda + 19) in
                   mpsearch1 (u32 (Z.lor (Z.shiftl b20 8) b19 * 1024 - 1024)) 1024) in
  if negb (mp =? 0) then ret mp else mpsearch1 983040 65536.

(** The configuration table and the floating pointer. *)
Definition mpconfig : K mpst (Z * Z) :=
  let! mp := mpsearch in
  if mp =? 0 then ret (0, 0)
  else
    let! physaddr := ld32 (mp + 4) in
    if physaddr =? 0 then ret (0, 0)
    else
      let conf := P2V physaddr in
      let! s := same_bytes conf (lit "PCMP") in
      if negb s then ret (0, 0)
      else
        let! version := ld (conf + 6) in
        if negb (version =? 1) && negb (version =? 4) then ret (0, 0)
        else
          let! length := ld16 (conf + 4) in
          let! z := sum conf length in
          if negb (z =? 0) then ret (0, 0) else ret (conf, mp).

(** A processor entry: [cpus] has room for [NCPU] of them. *)
Definition add_cpu (apicid flags : Z) : K mpst unit :=
  let! s := get in
  let n := mp_ncpu s in
  if n <? NCPU then
    put (Mp (<[Z.to_nat n := n]> (mp_ids s)) (n + 1) (mp_ismp s && (n =? apicid))
      (if Z.land flags MPBOOT =? 0 then mp_bcpu s else n) (mp_ioapicid s) (mp_lapic s) (mp_ports s))
  else undef "cpus[ncpu] beyond the array".

Fixpoint scan_loop (fuel : nat) (p e : Z) : K mpst unit :=
  if p <? e then
    match fuel with
    | O => nofuel
    | S fuel' =>
      let! type := ld p in
      if type =? MPPROC then
        let! apicid := ld (p + 1) in
        let! flags := ld (p + 3) in
        add_cpu apicid flags;;;
        scan_loop fuel' (p + 20) e
      else if type =? MPIOAPIC then
        let! apicno := ld (p + 1) in
        modify (fun s => Mp (mp_ids s) (mp_ncpu s) (mp_ismp s) (mp_bcpu s) apicno (mp_lapic s) (mp_ports s));;;
        scan_loop fuel' (p + 8) e
      else if (type =? MPBUS) || (type =? MPIOINTR) || (type =? MPLINTR) then scan_loop fuel' (p + 8) e
      else
        modify (fun s => Mp (mp_ids s) (mp_ncpu s) false (mp_bcpu s) (mp_ioapicid s) (mp_lapic s) (mp_ports s));;;
        scan_loop fuel' p e
    end
  else ret tt.

Definition outb (port data : Z) : K mpst unit :=
  modify (fun s => Mp (mp_ids s) (mp_ncpu s) (mp_ismp s) (mp_bcpu s) (mp_ioapicid s) (mp_lapic s) (mp_ports s ++ [(port, u8 data)])).

(** After the loop: one processor, or the IMCR is set. *)
Definition mp_finish (mp : Z) : K mpst unit :=
  let! s := get in
  if negb (mp_ismp s) then put (Mp (mp_ids s) 1 false (mp_bcpu s) 0 0 (mp_ports s))
  else
    let! imcrp := ld (mp + 12) in
    if negb (imcrp =? 0) then outb 34 112;;; outb 35 (Z.lor imcr 1) else ret tt.

Definition mpinit (fuel : nat) : K mpst unit :=
  modify (fun s => Mp (mp_ids s) (mp_ncpu s) (mp_ismp s) 0 (mp_ioapicid s) (mp_lapic s) (mp_ports s));;;
  let! cm := mpconfig in
  if cm.1 =? 0 then ret tt
  else
    let! lapic := ld32 (cm.1 + 36) in
    modify (fun s => Mp (mp_ids s) (mp_ncpu s) true (mp_bcpu s) (mp_ioapicid s) lapic (mp_ports s));;;
    let! length := ld16 (cm.1 + 4) in
    scan_loop fuel (cm.1 + 44) (cm.1 + length);;;
    mp_finish cm.2.

(** ** Specification *)

Definition bytes (pa n : Z) : list Z := mem <$> zrange pa (pa + n).
Definition total (l : list Z) : Z := foldr Z.add 0 l.

(** A floating pointer structure at [pa]. *)
Definition is_mp (pa : Z) : bool := bool_decide (bytes pa 4 = lit "_MP_") && (u8 (total (bytes pa 16)) =? 0).

(** The places where it may be, in the order of the search. *)
Fixpoint slots (pa : Z) (n : nat) : list Z :=
  match n with O => [] | S n' => pa :: slots (pa + 16) n' end.
Definition ebda : Z := 16 * le_dec [mem 1038; mem 1039].
Definition basemem : Z := 1024 * le_dec [mem 1043; mem 1044].
Definition zone : list Z := slots (if ebda =? 0 then basemem - 1024 else ebda) 64 ++ slots 983040 4096.

(** The entries of the table. *)
Inductive entry :=
| Eproc (apicid version flags : Z) (rest : list Z)
| Eioapic (apicno : Z) (rest : list Z)
| Eother (type : Z) (rest : list Z).

Definition enc (x : entry) : list Z :=
  match x with
  | Eproc a v f rest => MPPROC :: a :: v :: f :: rest
  | Eioapic a rest => MPIOAPIC :: a :: rest
  | Eother t rest => t :: rest
  end.
Definition entry_ok (x : entry) : Prop :=
  match x with
  | Eproc _ _ _ rest => length rest = 16%nat
  | Eioapic _ rest => length rest = 6%nat
  | Eother t rest => length rest = 7%nat /\ (t = MPBUS \/ t = MPIOINTR \/ t = MPLINTR)
  end.

(** A configuration table at [t]: the entries [es], and then [tail]. *)
Record table (t : Z) (es : list entry) (tail : list Z) (len lapic : Z) : Prop := {
  tb_range : 0 < t /\ t + len <= PHYSTOP;
  tb_sig : bytes t 4 = lit "PCMP";
  tb_version : mem (t + 6) = 1 \/ mem (t + 6) = 4;
  tb_len : le_dec (bytes (t + 4) 2) = len;
  tb_sum : u8 (total (bytes t len)) = 0;
  tb_lapic : le_dec (bytes (t + 36) 4) = lapic;
  tb_min : 44 <= len;
  tb_entries : bytes (t + 44) (len - 44) = concat (enc <$> es) ++ tail;
  tb_ok : Forall entry_ok es
}.

Definition procs (es : list entry) : list (Z * Z) :=
  omap (fun x => match x with Eproc a _ f _ => Some (a, f) | _ => None end) es.
Definition ioapics (es : list entry) : list Z :=
  omap (fun x => match x with Eioapic a _ => Some a | _ => None end) es.

(** ** Reading memory *)

Context (Hmem : forall a, is_byte (mem a)).

Lemma ld_ok pa s : 0 <= pa < PHYSTOP -> ld (KERNBASE + pa) s = Ret (mem pa) s.
Proof.
  intros H. unfold ld. unfold KERNBASE, PHYSTOP in *. rewrite u32_small by lia.
  replace (2147483648 + pa - 2147483648) with pa by lia. destruct (Z.ltb_spec pa 234881024); [done|lia].
Qed.

Lemma bytes_cons pa n : 0 < n -> bytes pa n = mem pa :: bytes (pa + 1) (n - 1).
Proof.
  intros H. unfold bytes, zrange. rewrite seqZ_cons by lia. rewrite fmap_cons. f_equal.
  replace (Z.pred (pa + n - pa)) with (pa + 1 + (n - 1) - (pa + 1)) by lia. done.
Qed.

Lemma bytes_nil pa : bytes pa 0 = [].
Proof. unfold bytes, zrange. by rewrite seqZ_nil by lia. Qed.

Lemma ld16_ok pa s : 0 <= pa -> pa + 2 <= PHYSTOP -> ld16 (KERNBASE + pa) s = Ret (le_dec (bytes pa 2)) s.
Proof.
  intros H1 H2. unfold ld16. rewrite <- Z.add_assoc.
  rewrite (bind_eq _ _ _ _ _ (ld_ok pa s ltac:(lia))), (bind_eq _ _ _ _ _ (ld_ok (pa + 1) s ltac:(lia))).
  by rewrite !bytes_cons, bytes_nil by lia.
Qed.

Lemma ld32_ok pa s : 0 <= pa -> pa + 4 <= PHYSTOP -> ld32 (KERNBASE + pa) s = Ret (le_dec (bytes pa 4)) s.
Proof.
  intros H1 H2. unfold ld32. rewrite <- !Z.add_assoc.
  rewrite (bind_eq _ _ _ _ _ (ld_ok pa s ltac:(lia))), (bind_eq _ _ _ _ _ (ld_ok (pa + 1) s ltac:(lia))),
    (bind_eq _ _ _ _ _ (ld_ok (pa + 2) s ltac:(lia))), (bind_eq _ _ _ _ _ (ld_ok (pa + 3) s ltac:(lia))).
  rewrite !bytes_cons, bytes_nil by lia. by replace (pa + 1 + 1 + 1) with (pa + 3) by lia; replace (pa + 1 + 1) with (pa + 2) by lia.
Qed.

Lemma same_bytes_ok l : forall pa s, 0 <= pa -> pa + Z.of_nat (length l) <= PHYSTOP ->
  same_bytes (KERNBASE + pa) l s = Ret (bool_decide (bytes pa (Z.of_nat (length l)) = l)) s.
Proof.
  induction l as [|c l IH]; intros pa s H1 H2; [cbn; by rewrite bytes_nil|]. cbn [same_bytes length] in *.
  rewrite (bind_eq _ _ _ _ _ (ld_ok pa s ltac:(lia))), bytes_cons by lia. rewrite <- Z.add_assoc.
  replace (Z.of_nat (S (length l)) - 1) with (Z.of_nat (length l)) by lia. destruct (Z.eqb_spec (mem pa) c) as [->|Hne].
  - rewrite IH by lia. f_equal. apply bool_decide_ext. split; [by intros ->|by intros [=]].
  - unfold ret. f_equal. symmetry. apply bool_decide_eq_false. by intros [=].
Qed.

Lemma sum_ok pa n s : 0 <= pa -> 0 <= n -> pa + n <= PHYSTOP -> sum (KERNBASE + pa) n s = Ret (u8 (total (bytes pa n))) s.
Proof.
  intros H1 Hn H2. unfold sum.
  assert (forall m k t, (k + m <= Z.to_nat n)%nat ->
    foldK (fun i t => let! b := ld (KERNBASE + pa + i) in ret (t + b)) (zrange (Z.of_nat k) (Z.of_nat (k + m))) t s
    = Ret (t + total (bytes (pa + Z.of_nat k) (Z.of_nat m))) s) as H.
  { induction m as [|m IH]; intros k t Hk.
    - unfold zrange. rewrite seqZ_nil by lia. cbn. by rewrite bytes_nil, Z.add_0_r.
    - unfold zrange. rewrite seqZ_cons by lia. cbn [foldK]. rewrite <- (Z.add_assoc KERNBASE). unfold bind at 1.
      rewrite (bind_eq _ _ _ _ _ (ld_ok (pa + Z.of_nat k) s ltac:(lia))). unfold ret at 1. specialize (IH (S k) (t + mem (pa + Z.of_nat k)) ltac:(lia)).
      unfold zrange in IH. replace (Z.succ (Z.of_nat k)) with (Z.of_nat (S k)) by lia.
      replace (Z.pred (Z.of_nat (k + S m) - Z.of_nat k)) with (Z.of_nat (S k + m) - Z.of_nat (S k)) by lia.
      rewrite IH, (bytes_cons _ (Z.of_nat (S m))) by lia. cbn [total foldr]. f_equal.
      replace (pa + Z.of_nat k + 1) with (pa + Z.of_nat (S k)) by lia. replace (Z.of_nat (S m) - 1) with (Z.of_nat m) by lia. unfold total. lia. }
  specialize (H (Z.to_nat n) 0%nat 0 ltac:(lia)). cbn [Nat.add] in H. rewrite Z2Nat.id, Z.add_0_r in H by lia.
  by rewrite (bind_eq _ _ _ _ _ H).
Qed.

(** ** The search *)

Lemma search_loop_ok n : forall fuel pa s, (n <= fuel)%nat -> 0 <= pa -> pa + 16 * Z.of_nat n <= PHYSTOP ->
  search_loop fuel (KERNBASE + pa) (KERNBASE + pa + 16 * Z.of_nat n) s =
  Ret (match List.find is_mp (slots pa n) with Some a => KERNBASE + a | None => 0 end) s.
Proof.
  induction n as [|n IH]; intros fuel pa s Hf H1 H2.
  { destruct fuel; cbn [search_loop]; by rewrite (proj2 (Z.ltb_ge _ _)) by lia. }
  destruct fuel as [|fuel]; [lia|]. cbn [search_loop slots List.find]. rewrite (proj2 (Z.ltb_lt _ _)) by lia.
  rewrite (bind_eq _ _ _ _ _ (same_bytes_ok (lit "_MP_") pa s H1 ltac:(change (Z.of_nat (length (lit "_MP_"))) with 4; lia))).
  change (Z.of_nat (length (lit "_MP_"))) with 4. unfold is_mp at 1.
  replace (KERNBASE + pa + 16) with (KERNBASE + (pa + 16)) by lia.
  replace (KERNBASE + pa + 16 * Z.of_nat (S n)) with (KERNBASE + (pa + 16) + 16 * Z.of_nat n) by lia.
  destruct (bool_decide (bytes pa 4 = lit "_MP_")); cbn [andb].
  - rewrite (bind_eq _ _ _ _ _ (sum_ok pa 16 s H1 ltac:(lia) ltac:(lia))). destruct (u8 (total (bytes pa 16)) =? 0); [done|]. apply IH; lia.
  - apply IH; lia.
Qed.

Lemma mpsearch1_ok a n s : 0 <= a -> a + 16 * Z.of_nat n <= PHYSTOP ->
  mpsearch1 a (16 * Z.of_nat n) s = Ret (match List.find is_mp (slots a n) with Some a => KERNBASE + a | None => 0 end) s.
Proof.
  intros H1 H2. unfold mpsearch1, P2V. rewrite (Z.add_comm a). rewrite u32_small by (unfold KERNBASE, PHYSTOP in *; lia).
  apply search_loop_ok; [|done|done]. rewrite Z.mul_comm, Z.div_mul by done. lia.
Qed.

Lemma lor_bytes a b : is_byte b -> 0 <= a -> Z.lor (Z.shiftl a 8) b = le_dec [b; a].
Proof.
  intros Hb Ha. assert (Z.land (Z.shiftl a 8) b = 0) as H0.
  { apply Z.bits_inj'. intros k Hk. rewrite Z.land_spec, Z.bits_0, Z.shiftl_spec by done.
    destruct (decide (k < 8)); [by rewrite (Z.testbit_neg_r a) by lia|]. unfold is_byte in Hb. destruct (decide (b = 0)) as [->|]; [by rewrite Z.bits_0, andb_false_r|].
    rewrite (Z.bits_above_log2 b), andb_false_r; [done|lia|]. assert (Z.log2 b < 8) by (apply Z.log2_lt_pow2; [lia|change (2 ^ 8) with 256; lia]). lia. }
  pose proof (Z.add_lor_land (Z.shiftl a 8) b) as H. rewrite H0, Z.shiftl_mul_pow2 in * by done. change (2 ^ 8) with 256 in *. change (le_dec [b; a]) with (b + 256 * (a + 256 * 0)). lia.
Qed.

Lemma find_first_app (f : Z -> bool) l1 l2 : List.find f (l1 ++ l2) = match List.find f l1 with Some a => Some a | None => List.find f l2 end.
Proof. induction l1 as [|a l1 IH]; [done|]. cbn. by destruct (f a). Qed.

Lemma mpsearch_ok s : ebda <> 0 \/ 1024 <= basemem ->
  mpsearch s = Ret (match List.find is_mp zone with Some a => KERNBASE + a | None => 0 end) s.
Proof.
  intros Hz. unfold mpsearch. change (P2V 1024) with (KERNBASE + 1024). rewrite <- !Z.add_assoc.
  change (1024 + 15) with 1039. change (1024 + 14) with 1038. change (1024 + 20) with 1044. change (1024 + 19) with 1043.
  assert (forall a, 0 <= mem a < 256) as Hb by exact Hmem.
  rewrite (bind_eq _ _ _ _ _ (ld_ok 1039 s ltac:(unfold PHYSTOP; lia))), (bind_eq _ _ _ _ _ (ld_ok 1038 s ltac:(unfold PHYSTOP; lia))).
  rewrite lor_bytes, Z.shiftl_mul_pow2, (Z.mul_comm _ (2 ^ 4)) by (done || apply Hb). change (2 ^ 4 * le_dec [mem 1038; mem 1039]) with ebda. cbv zeta.
  assert (0 <= ebda <= 1048560) as He by (unfold ebda; change (le_dec [mem 1038; mem 1039]) with (mem 1038 + 256 * (mem 1039 + 256 * 0)); pose proof (Hb 1038); pose proof (Hb 1039); lia).
  assert (0 <= basemem <= 67107840) as Hm by (unfold basemem; change (le_dec [mem 1043; mem 1044]) with (mem 1043 + 256 * (mem 1044 + 256 * 0)); pose proof (Hb 1043); pose proof (Hb 1044); lia).
  set (a := if ebda =? 0 then basemem - 1024 else ebda).
  assert ((if negb (ebda =? 0) then mpsearch1 ebda 1024
           else let! b20 := ld (KERNBASE + 1044) in let! b19 := ld (KERNBASE + 1043) in
                mpsearch1 (u32 (Z.lor (Z.shiftl b20 8) b19 * 1024 - 1024)) 1024) s
    = Ret (match List.find is_mp (slots a 64) with Some a => KERNBASE + a | None => 0 end) s) as E1.
  { unfold a. destruct (Z.eqb_spec ebda 0) as [E|E]; cbn [negb]; [|apply (mpsearch1_ok ebda 64); unfold PHYSTOP; lia].
    rewrite (bind_eq _ _ _ _ _ (ld_ok 1044 s ltac:(unfold PHYSTOP; lia))), (bind_eq _ _ _ _ _ (ld_ok 1043 s ltac:(unfold PHYSTOP; lia))).
    rewrite lor_bytes by (done || apply Hb). rewrite (Z.mul_comm (le_dec _)). fold basemem. rewrite u32_small by lia.
    apply (mpsearch1_ok (basemem - 1024) 64); unfold PHYSTOP; lia. }
  rewrite (bind_eq _ _ _ _ _ E1). unfold zone. fold a. rewrite find_first_app.
  destruct (List.find is_mp (slots a 64)) as [x|] eqn:Ef.
  - assert (KERNBASE + x <> 0) as Hx; [|by rewrite (proj2 (Z.eqb_neq _ _) Hx)].
    assert (forall n b, 0 <= b -> forall y, In y (slots b n) -> 0 <= y) as Hs.
    { induction n as [|n IH]; intros b Hb0 y [] ; [lia|]. eapply (IH (b + 16)); [lia|done]. }
    apply find_some in Ef as [Hin _]. apply Hs in Hin; [unfold KERNBASE; lia|]. unfold a. destruct (Z.eqb_spec ebda 0); lia.
  - apply (mpsearch1_ok 983040 4096); unfold PHYSTOP; lia.
Qed.

Lemma slots_range n : forall b y, In y (slots b n) -> b <= y < b + 16 * Z.of_nat n.
Proof. induction n as [|n IH]; intros b y []; [lia|]. apply IH in H. lia. Qed.

Lemma found_range a : List.find is_mp zone = Some a -> ebda <> 0 \/ 1024 <= basemem -> 0 <= a /\ a + 16 <= PHYSTOP.
Proof.
  intros Hf Hz. apply find_some in Hf as [Hin _]. unfold zone in Hin. apply in_app_or in Hin. unfold PHYSTOP.
  assert (forall a, 0 <= mem a < 256) as Hb by exact Hmem.
  assert (0 <= ebda <= 1048560) as He.
  { unfold ebda. change (le_dec [mem 1038; mem 1039]) with (mem 1038 + 256 * (mem 1039 + 256 * 0)). pose proof (Hb 1038). pose proof (Hb 1039). lia. }
  assert (0 <= basemem <= 67107840) as Hm.
  { unfold basemem. change (le_dec [mem 1043; mem 1044]) with (mem 1043 + 256 * (mem 1044 + 256 * 0)). pose proof (Hb 1043). pose proof (Hb 1044). lia. }
  destruct Hin as [Hin|Hin]; apply slots_range in Hin; [destruct (Z.eqb_spec ebda 0); lia|lia].
Qed.

(** ** The table *)

Lemma mpconfig_ok a t es tail len lapic s : ebda <> 0 \/ 1024 <= basemem -> List.find is_mp zone = Some a -> le_dec (bytes (a + 4) 4) = t ->
  table t es tail len lapic -> mpconfig s = Ret (KERNBASE + t, KERNBASE + a) s.
Proof.
  intros Hz Hf Ht [[T1 T2] T3 T4 T5 T6 T7 T8 T9 T10]. pose proof (found_range a Hf Hz) as [Ha1 Ha2]. unfold mpconfig.
  rewrite (bind_eq _ _ _ _ _ (mpsearch_ok s Hz)), Hf. rewrite (proj2 (Z.eqb_neq _ _)) by (unfold KERNBASE; lia).
  rewrite <- Z.add_assoc, (bind_eq _ _ _ _ _ (ld32_ok (a + 4) s ltac:(lia) ltac:(lia))), Ht. rewrite (proj2 (Z.eqb_neq _ _)) by lia. cbv zeta.
  unfold P2V. rewrite (Z.add_comm t), u32_small by (unfold KERNBASE, PHYSTOP in *; lia).
  rewrite (bind_eq _ _ _ _ _ (same_bytes_ok (lit "PCMP") t s ltac:(lia) ltac:(change (Z.of_nat (length (lit "PCMP"))) with 4; lia))).
  change (Z.of_nat (length (lit "PCMP"))) with 4. rewrite T3, bool_decide_true by done. cbn [negb].
  rewrite <- !Z.add_assoc, (bind_eq _ _ _ _ _ (ld_ok (t + 6) s ltac:(lia))).
  assert (negb (mem (t + 6) =? 1) && negb (mem (t + 6) =? 4) = false) as -> by (by destruct T4 as [-> | ->]).
  rewrite (bind_eq _ _ _ _ _ (ld16_ok (t + 4) s ltac:(lia) ltac:(lia))), T5.
  rewrite (bind_eq _ _ _ _ _ (sum_ok t len s ltac:(lia) ltac:(lia) ltac:(lia))), T6. done.
Qed.

(** What an entry changes. *)
Definition visit (s : mpst) (x : entry) : mpst :=
  match x with
  | Eproc a _ f _ => let n := mp_ncpu s in
      Mp (<[Z.to_nat n := n]> (mp_ids s)) (n + 1) (mp_ismp s && (n =? a)) (if Z.land f MPBOOT =? 0 then mp_bcpu s else n)
        (mp_ioapicid s) (mp_lapic s) (mp_ports s)
  | Eioapic a _ => Mp (mp_ids s) (mp_ncpu s) (mp_ismp s) (mp_bcpu s) a (mp_lapic s) (mp_ports s)
  | Eother _ _ => s
  end.

Lemma bytes_app a n m l1 l2 : 0 <= m -> Z.of_nat (length l1) = n -> bytes a (n + m) = l1 ++ l2 -> bytes a n = l1 /\ bytes (a + n) m = l2.
Proof.
  intros Hm Hn E. unfold bytes, zrange in *. replace (a + (n + m) - a) with (n + m) in E by lia. rewrite seqZ_app, fmap_app in E by lia.
  apply app_inj_1 in E as [E1 E2]; [|rewrite length_fmap, length_seqZ; lia].
  replace (a + n - a) with n by lia. replace (a + n + m - (a + n)) with m by lia. done.
Qed.

Lemma enc_length x : entry_ok x -> (8 <= length (enc x))%nat.
Proof. destruct x; cbn; lia. Qed.

Lemma bytes_at l : forall a k x, bytes a (Z.of_nat (length l)) = l -> l !! k = Some x -> mem (a + Z.of_nat k) = x.
Proof.
  induction l as [|y l IH]; intros a [|k] x E Hk; try done; cbn [length] in E; rewrite bytes_cons in E by lia; injection E as E1 E2.
  - injection Hk as <-. by rewrite Z.add_0_r.
  - replace (Z.of_nat (S (length l)) - 1) with (Z.of_nat (length l)) in E2 by lia. rewrite <- (IH (a + 1) k x E2 Hk). f_equal. lia.
Qed.

(** The loop gets to the end of the entries, if it is allowed as many iterations. *)
Lemma scan_ok e es : forall fuel a s, let len := Z.of_nat (length (concat (enc <$> es))) in
  Forall entry_ok es -> bytes a len = concat (enc <$> es) -> 0 <= a -> a + len <= PHYSTOP -> KERNBASE + (a + len) <= e ->
  0 <= mp_ncpu s -> mp_ncpu s + Z.of_nat (length (procs es)) <= NCPU ->
  scan_loop fuel (KERNBASE + a) e s =
  if decide (fuel < length es)%nat then NoFuel else scan_loop (fuel - length es) (KERNBASE + (a + len)) e (foldl visit s es).
Proof.
  induction es as [|x es IH]; intros fuel a s len Hok Eb Ha Hl He Hn Hc.
  { unfold len. cbn. by rewrite decide_False, Z.add_0_r, Nat.sub_0_r by lia. }
  apply Forall_cons in Hok as [Hx Hok].
  set (k := Z.of_nat (length (enc x))). set (m := Z.of_nat (length (concat (enc <$> es)))) in *.
  assert (len = k + m) as El. { unfold len, k, m. rewrite fmap_cons. cbn [concat]. rewrite length_app. lia. }
  clearbody len. rewrite fmap_cons in Eb. cbn [concat] in Eb. subst len.
  apply bytes_app in Eb as [E1 E2]; [|unfold m; lia|done]. pose proof (enc_length x Hx) as H8.
  destruct fuel as [|fuel]; cbn [scan_loop foldl length]; rewrite (proj2 (Z.ltb_lt _ _)) by lia; [by rewrite decide_True by lia|].
  assert (forall j y, enc x !! j = Some y -> forall s, ld (KERNBASE + (a + Z.of_nat j)) s = Ret y s) as Hld.
  { intros j y Hj s'. rewrite <- (bytes_at _ a j y E1 Hj). apply ld_ok. apply lookup_lt_Some in Hj. lia. }
  set (R := if decide (S fuel < S (length es))%nat then NoFuel else scan_loop (S fuel - S (length es)) (KERNBASE + (a + (k + m))) e (foldl visit (visit s x) es)).
  assert (forall s', s' = visit s x -> 0 <= mp_ncpu s' -> mp_ncpu s' + Z.of_nat (length (procs es)) <= NCPU ->
    scan_loop fuel (KERNBASE + (a + k)) e s' = R) as Hrec.
  { intros s' -> H1 H2. rewrite (IH fuel (a + k) (visit s x)) by (done || lia). fold m. unfold R. rewrite (Z.add_assoc a k m).
    destruct (decide (fuel < length es)%nat); [by rewrite decide_True by lia|by rewrite decide_False by lia]. }
  clearbody R. rewrite <- !(Z.add_assoc KERNBASE a) in *. clear IH E1 E2.
  replace (KERNBASE + a) with (KERNBASE + (a + Z.of_nat 0)) at 1 by lia. destruct x as [ap v f rest|ap rest|t rest]; cbn [entry_ok] in Hx.
  - rewrite (bind_eq _ _ _ _ _ (Hld 0%nat _ eq_refl s)). change (MPPROC =? MPPROC) with true. cbv iota.
    rewrite (bind_eq _ _ _ _ _ (Hld 1%nat _ eq_refl s)), (bind_eq _ _ _ _ _ (Hld 3%nat _ eq_refl s)).
    unfold add_cpu, bind at 1, bind at 1, get. change (procs (Eproc ap v f rest :: es)) with ((ap, f) :: procs es) in Hc. cbn [length] in Hc.
    destruct (Z.ltb_spec (mp_ncpu s) NCPU); [|lia]. cbn [put]. assert (k = 20) as <- by (unfold k; cbn; lia). apply Hrec; cbn; done || lia.
  - change (procs (Eioapic ap rest :: es)) with (procs es) in Hc.
    rewrite (bind_eq _ _ _ _ _ (Hld 0%nat _ eq_refl s)). change (MPIOAPIC =? MPPROC) with false. change (MPIOAPIC =? MPIOAPIC) with true. cbv iota.
    rewrite (bind_eq _ _ _ _ _ (Hld 1%nat _ eq_refl s)). unfold modify, bind at 1. assert (k = 8) as <- by (unfold k; cbn; lia). apply Hrec; done.
  - change (procs (Eother t rest :: es)) with (procs es) in Hc. destruct Hx as [Hx Ht]. rewrite (bind_eq _ _ _ _ _ (Hld 0%nat _ eq_refl s)).
    assert (k = 8) as <- by (unfold k; cbn; lia). destruct Ht as [-> | [-> | ->]]; by apply Hrec.
Qed.

(** ** The result of the scan *)

(** Only processor [i] of the list has the boot flag. *)
Definition boots (l : list (Z * Z)) (i : nat) : Prop := forall k a f, l !! k = Some (a, f) -> (Z.land f MPBOOT <> 0 <-> k = i).

Record visited (s s' : mpst) (es : list entry) : Prop := {
  vi_ncpu : mp_ncpu s' = mp_ncpu s + Z.of_nat (length (procs es));
  vi_ismp : mp_ismp s' = mp_ismp s && bool_decide ((procs es).*1 = zrange (mp_ncpu s) (mp_ncpu s + Z.of_nat (length (procs es))));
  vi_ids : forall k, 0 <= k < Z.of_nat (length (mp_ids s)) ->
             mp_ids s' !! Z.to_nat k = if (mp_ncpu s <=? k) && (k <? mp_ncpu s') then Some k else mp_ids s !! Z.to_nat k;
  vi_bcpu : forall i, boots (procs es) i -> (i < length (procs es))%nat -> mp_bcpu s' = mp_ncpu s + Z.of_nat i;
  vi_nobcpu : (forall k a f, procs es !! k = Some (a, f) -> Z.land f MPBOOT = 0) -> mp_bcpu s' = mp_bcpu s;
  vi_ioapic : mp_ioapicid s' = default (mp_ioapicid s) (last (ioapics es));
  vi_same : mp_lapic s' = mp_lapic s /\ mp_ports s' = mp_ports s /\ length (mp_ids s') = length (mp_ids s)
}.

Lemma visited_proc a v f rest es s s' : 0 <= mp_ncpu s -> visited (visit s (Eproc a v f rest)) s' es -> visited s s' (Eproc a v f rest :: es).
Proof.
  intros Hn [V1 V2 V3 V4 V5 V6 V7]. cbn [visit mp_ncpu mp_ismp mp_ids mp_bcpu mp_ioapicid mp_lapic mp_ports] in *.
  assert (procs (Eproc a v f rest :: es) = (a, f) :: procs es) as Ep by done. split; rewrite ?Ep; cbn [length].
  - lia.
  - rewrite V2, <- andb_assoc. f_equal. unfold zrange. rewrite (seqZ_cons (mp_ncpu s)) by lia. cbn [fmap list_fmap fst].
    replace (Z.pred (mp_ncpu s + Z.of_nat (S (length (procs es))) - mp_ncpu s)) with (mp_ncpu s + 1 + Z.of_nat (length (procs es)) - (mp_ncpu s + 1)) by lia.
    change (Z.succ (mp_ncpu s)) with (mp_ncpu s + 1). destruct (Z.eqb_spec (mp_ncpu s) a) as [<-|Hne]; cbn [andb].
    + apply bool_decide_ext. split; [by intros ->|by intros [=]].
    + symmetry. apply bool_decide_eq_false. by intros [=].
  - intros k Hk. rewrite length_insert in V3. rewrite V3 by done. destruct (decide (k = mp_ncpu s)) as [->|Hne].
    + rewrite (proj2 (Z.leb_gt (mp_ncpu s + 1) (mp_ncpu s))), Z.leb_refl, (proj2 (Z.ltb_lt (mp_ncpu s) (mp_ncpu s'))) by lia. cbn.
      apply list_lookup_insert_eq. lia.
    + rewrite list_lookup_insert_ne by lia. destruct (Z.leb_spec (mp_ncpu s + 1) k), (Z.leb_spec (mp_ncpu s) k); try lia; done.
  - intros [|i] Hb Hi.
    + rewrite V5; [pose proof (Hb 0%nat a f eq_refl) as H; destruct (Z.eqb_spec (Z.land f MPBOOT) 0); [tauto|lia]|].
      intros k a' f' Hk. pose proof (Hb (S k) a' f' Hk) as H. destruct (decide (Z.land f' MPBOOT = 0)); [done|]. by apply H in n.
    + rewrite (V4 i); [lia| |lia]. intros k a' f' Hk. rewrite (Hb (S k) a' f' Hk). split; [by intros [=]|by intros ->].
  - intros H. rewrite V5 by (intros k a' f' Hk; by apply (H (S k) a' f')). by rewrite (proj2 (Z.eqb_eq _ _) (H 0%nat a f eq_refl)).
  - done.
  - destruct V7 as (H1 & H2 & H3). by rewrite length_insert in H3.
Qed.

Lemma visited_all es : forall s, 0 <= mp_ncpu s -> visited s (foldl visit s es) es.
Proof.
  induction es as [|x es IH]; intros s Hn.
  - split; cbn; try done; [lia|unfold zrange; rewrite seqZ_nil by lia; by rewrite bool_decide_true, andb_true_r| |lia].
    intros k Hk. destruct (Z.leb_spec (mp_ncpu s) k), (Z.ltb_spec k (mp_ncpu s)); done || lia.
  - cbn [foldl]. destruct x as [a v f rest|a rest|t rest].
    + apply visited_proc; [done|]. apply IH. cbn. lia.
    + destruct (IH (visit s (Eioapic a rest)) Hn) as [V1 V2 V3 V4 V5 V6 V7]. split; try done.
      rewrite V6. change (ioapics (Eioapic a rest :: es)) with (a :: ioapics es). rewrite last_cons. by destruct (last (ioapics es)).
    + destruct (IH s Hn) as [V1 V2 V3 V4 V5 V6 V7]. by split.
Qed.

(** The kernel's view of the processors, for a table it accepts. *)
Record found_smp (s : mpst) (es : list entry) (lapic imcrp : Z) : Prop := {
  fs_ismp : mp_ismp s = true;
  fs_ncpu : mp_ncpu s = Z.of_nat (length (procs es));
  fs_ids : forall k, 0 <= k < mp_ncpu s -> mp_ids s !! Z.to_nat k = Some k;
  fs_boot : forall i, boots (procs es) i -> (i < length (procs es))%nat -> mp_bcpu s = Z.of_nat i;
  fs_ioapic : mp_ioapicid s = default 0 (last (ioapics es));
  fs_lapic : mp_lapic s = lapic;
  fs_ports : mp_ports s = if imcrp =? 0 then [] else [(34, 112); (35, u8 (Z.lor imcr 1))]
}.
Record found_up (s : mpst) : Prop := {
  fu_ismp : mp_ismp s = false;
  fu_ncpu : mp_ncpu s = 1;
  fu_devices : mp_ioapicid s = 0 /\ mp_lapic s = 0 /\ mp_ports s = []
}.

(** ** The whole initialisation *)

(** The firmware's structures: the floating pointer at [a] and the table at [t]. *)
Record firmware (a t : Z) (es : list entry) (tail : list Z) (len lapic : Z) : Prop := {
  fw_bda : ebda <> 0 \/ 1024 <= basemem;
  fw_found : List.find is_mp zone = Some a;
  fw_table : le_dec (bytes (a + 4) 4) = t /\ table t es tail len lapic
}.

Section init.
Context (a t : Z) (es : list entry) (tail : list Z) (len lapic : Z).
Hypotheses (HW : firmware a t es tail len lapic) (Hc : Z.of_nat (length (procs es)) <= NCPU).
Let s1 := Mp (mp_ids mp_boot) 0 true 0 0 lapic [].
Let m := Z.of_nat (length (concat (enc <$> es))).

Lemma mpinit_scan fuel : mpinit fuel mp_boot = (scan_loop fuel (KERNBASE + (t + 44)) (KERNBASE + (t + len));;; mp_finish (KERNBASE + a)) s1.
Proof.
  destruct HW as [H2 H3 [H4 H5]]. pose proof H5 as [[T1 T2] T3 T4 T5 T6 T7 T8 T9 T10]. unfold mpinit, modify, bind at 1.
  set (s0 := Mp _ _ _ _ _ _ _). rewrite (bind_eq _ _ _ _ _ (mpconfig_ok a t es tail len lapic s0 H2 H3 H4 H5)). cbn [fst snd].
  rewrite (proj2 (Z.eqb_neq _ _)) by (unfold KERNBASE; lia). rewrite <- !Z.add_assoc.
  rewrite (bind_eq _ _ _ _ _ (ld32_ok (t + 36) s0 ltac:(lia) ltac:(lia))), T7. unfold bind at 1.
  rewrite (bind_eq _ _ _ _ _ (ld16_ok (t + 4) _ ltac:(lia) ltac:(lia))), T5. by rewrite <- Z.add_assoc.
Qed.

Lemma entries_scan fuel : scan_loop fuel (KERNBASE + (t + 44)) (KERNBASE + (t + len)) s1 =
  if decide (fuel < length es)%nat then NoFuel else scan_loop (fuel - length es) (KERNBASE + (t + 44 + m)) (KERNBASE + (t + len)) (foldl visit s1 es).
Proof.
  destruct HW as [H2 H3 [H4 [[T1 T2] T3 T4 T5 T6 T7 T8 T9 T10]]]. pose proof (f_equal (fun l => Z.of_nat (length l)) T9) as El.
  cbv beta in El. rewrite length_app in El. unfold bytes in El. rewrite length_fmap in El. unfold zrange in El. rewrite length_seqZ in El.
  assert (len - 44 = m + Z.of_nat (length tail)) as Elen by (unfold m; lia). rewrite Elen in T9.
  apply bytes_app in T9 as [T9 _]; [|lia|done]. apply scan_ok; try done; unfold s1; cbn [mp_ncpu]; fold m; lia.
Qed.

Lemma mp_finish_ok s : mp_finish (KERNBASE + a) s =
  Ret tt (if mp_ismp s then if mem (a + 12) =? 0 then s
                           else Mp (mp_ids s) (mp_ncpu s) true (mp_bcpu s) (mp_ioapicid s) (mp_lapic s) ((mp_ports s ++ [(34, 112)]) ++ [(35, u8 (Z.lor imcr 1))])
          else Mp (mp_ids s) 1 false (mp_bcpu s) 0 0 (mp_ports s)).
Proof.
  destruct HW as [H2 H3 _]. pose proof (found_range a H3 H2). unfold mp_finish, bind at 1, get.
  destruct (mp_ismp s) eqn:E; cbn [negb]; [|done]. rewrite <- Z.add_assoc, (bind_eq _ _ _ _ _ (ld_ok (a + 12) s ltac:(lia))).
  destruct (mem (a + 12) =? 0); [done|]. cbn [negb]. unfold outb, modify, bind. cbn. by rewrite E.
Qed.
End init.

(** C36. [mpinit] on well-formed tables with at most [NCPU] processors, whose floating
    pointer is in the memory the code searches (the first kilobyte of the extended
    BIOS data area or else the last of base memory, then 0xF0000 to 0xFFFFF), ends
    after as many rounds as there are entries, and finds what they describe: the
    number of processors with their ids, the boot processor, the interrupt
    controllers; when the processors are not numbered from 0 in order it falls
    back to a single processor. (For other tables see [mpinit_bad_tables].) *)
Theorem mpinit_correct a t es len lapic fuel : firmware a t es [] len lapic -> Z.of_nat (length (procs es)) <= NCPU -> (length es <= fuel)%nat ->
  exists s, mpinit fuel mp_boot = Ret tt s /\
    if bool_decide ((procs es).*1 = zrange 0 (Z.of_nat (length (procs es)))) then found_smp s es lapic (mem (a + 12)) else found_up s.
Proof.
  intros HW Hc Hf. set (s1 := Mp (mp_ids mp_boot) 0 true 0 0 lapic []).
  pose proof (visited_all es s1 ltac:(done)) as [V1 V2 V3 V4 V5 V6 (V7 & V8 & V9)]. set (s2 := foldl visit s1 es) in *.
  assert (scan_loop fuel (KERNBASE + (t + 44)) (KERNBASE + (t + len)) s1 = Ret tt s2) as E.
  { pose proof (entries_scan _ _ _ _ _ _ HW Hc fuel) as E. fold s1 s2 in E. rewrite E, decide_False by lia. clear E.
    destruct HW as [_ _ [_ [_ _ _ _ _ _ T8 T9 _]]]. rewrite app_nil_r in T9. rewrite <- T9. unfold bytes. rewrite length_fmap. unfold zrange. rewrite length_seqZ.
    rewrite Z2Nat.id by lia. replace (t + 44 + (t + 44 + (len - 44) - (t + 44))) with (t + len) by lia.
    destruct (fuel - length es)%nat; cbn [scan_loop]; by rewrite Z.ltb_irrefl. }
  rewrite (mpinit_scan _ _ _ _ _ _ HW). fold s1. rewrite (bind_eq _ _ _ _ _ E), (mp_finish_ok _ _ _ _ _ _ HW). cbn [s1 mp_ncpu mp_ismp mp_ids mp_bcpu mp_ioapicid mp_lapic mp_ports andb] in *.
  rewrite Z.add_0_l in V1, V2. eexists. split; [reflexivity|]. rewrite V2. destruct (bool_decide _) eqn:Eb.
  - assert (forall k, 0 <= k < mp_ncpu s2 -> mp_ids s2 !! Z.to_nat k = Some k) as Hids.
    { intros k Hk. rewrite V3 by (change (Z.of_nat (length (mp_ids mp_boot))) with 8; unfold NCPU in Hc; lia). by rewrite (proj2 (Z.leb_le _ _)), (proj2 (Z.ltb_lt _ _)) by lia. }
    destruct (Z.eqb_spec (mem (a + 12)) 0) as [E0|E0]; split; cbn; try done; rewrite ?V8, ?(proj2 (Z.eqb_neq _ _) E0), ?E0; done.
  - by split.
Qed.

(** An entry of unknown type: the pointer is not advanced. *)
Lemma scan_hangs pa e ty s : 0 <= pa < PHYSTOP -> KERNBASE + pa < e -> mem pa = ty -> 4 < ty -> forall fuel, scan_loop fuel (KERNBASE + pa) e s = NoFuel.
Proof.
  intros Hpa He Hty H4 fuel. revert s. induction fuel as [|fuel IH]; intros s; cbn [scan_loop]; rewrite (proj2 (Z.ltb_lt _ _)) by lia; [done|].
  rewrite (bind_eq _ _ _ _ _ (ld_ok pa s Hpa)), Hty. unfold MPPROC, MPIOAPIC, MPBUS, MPIOINTR, MPLINTR.
  rewrite !(proj2 (Z.eqb_neq ty _)) by lia. cbn [orb]. unfold modify, bind. apply IH.
Qed.

(** Tables [mpinit] does not survive: an entry of an unknown type makes its loop
    run for ever, and a ninth processor is stored behind the array [cpus]. *)
Theorem mpinit_bad_tables a t es ty tail len lapic : firmware a t es (ty :: tail) len lapic ->
  (Z.of_nat (length (procs es)) <= NCPU -> 4 < ty -> forall fuel, mpinit fuel mp_boot = NoFuel) /\
  (Z.of_nat (length (procs es)) = NCPU -> ty = MPPROC -> (3 <= length tail)%nat -> forall fuel, (length es < fuel)%nat ->
   mpinit fuel mp_boot = Undef "cpus[ncpu] beyond the array").
Proof.
  intros HW. pose proof HW as [_ _ [_ [[T1 T2] _ _ _ _ _ T8 T9 _]]]. set (m := Z.of_nat (length (concat (enc <$> es)))).
  assert (len - 44 = m + Z.of_nat (length (ty :: tail))) as Elen.
  { pose proof (f_equal (fun l => Z.of_nat (length l)) T9) as El. cbv beta in El. rewrite length_app in El. unfold bytes in El.
    rewrite length_fmap in El. unfold zrange in El. rewrite length_seqZ in El. unfold m. lia. }
  rewrite Elen in T9. apply bytes_app in T9 as [_ T9]; [|lia|done]. set (b := t + 44 + m) in *. cbn [length] in Elen.
  pose proof (bytes_at _ b 0 _ T9 eq_refl) as Hty. rewrite Z.add_0_r in Hty. set (s1 := Mp (mp_ids mp_boot) 0 true 0 0 lapic []).
  split.
  - intros Hc H4 fuel. rewrite (mpinit_scan _ _ _ _ _ _ HW). pose proof (entries_scan _ _ _ _ _ _ HW Hc fuel) as E. fold s1 m b in E |- *.
    assert (scan_loop fuel (KERNBASE + (t + 44)) (KERNBASE + (t + len)) s1 = NoFuel) as E'; [|unfold bind; by rewrite E'].
    rewrite E. case_decide; [done|]. apply (scan_hangs b _ ty); lia || done.
  - intros Hc -> Ht fuel Hf. rewrite (mpinit_scan _ _ _ _ _ _ HW). pose proof (entries_scan _ _ _ _ _ _ HW ltac:(lia) fuel) as E. fold s1 m b in E |- *.
    pose proof (vi_ncpu _ _ _ (visited_all es s1 ltac:(done))) as Hn. set (s2 := foldl visit s1 es) in *.
    assert (scan_loop fuel (KERNBASE + (t + 44)) (KERNBASE + (t + len)) s1 = Undef "cpus[ncpu] beyond the array") as E'; [|unfold bind; by rewrite E'].
    rewrite E, decide_False by lia. destruct (fuel - length es)%nat as [|k] eqn:Ek; [lia|]. cbn [scan_loop]. rewrite (proj2 (Z.ltb_lt _ _)) by lia.
    rewrite (bind_eq _ _ _ _ _ (ld_ok b s2 ltac:(lia))), Hty. change (MPPROC =? MPPROC) with true. cbv iota. rewrite <- !(Z.add_assoc KERNBASE).
    rewrite (bind_eq _ _ _ _ _ (ld_ok (b + 1) s2 ltac:(lia))), (bind_eq _ _ _ _ _ (ld_ok (b + 3) s2 ltac:(lia))).
    unfold add_cpu, bind, get. rewrite (proj2 (Z.ltb_ge _ _)); [done|]. change (mp_ncpu s1) with 0 in Hn. lia.
Qed.
End mp.

(** ** A machine with two processors *)

(** The image of a floating pointer and of a table with the given entries, at the
    start of the BIOS area, with 640 KB of base memory. *)
Definition check (l : list Z) : Z := (- foldr Z.add 0 l) `mod` 256.
Definition mp_image (es : list entry) (tail : list Z) : list Z :=
  let body := concat (enc <$> es) ++ tail in
  let head c := lit "PCMP" ++ le_enc 2 (44 + Z.of_nat (length body)) ++ [4; c] ++ replicate 28 0 ++ le_enc 4 4276092928 ++ [0; 0; 0; 0] in
  let fp c := lit "_MP_" ++ le_enc 4 983056 ++ [1; 4; c; 0; 128; 0; 0; 0] in
  fp (check (fp 0)) ++ head (check (head 0 ++ body)) ++ body.
Definition mp_memory (img : list Z) (a : Z) : Z :=
  if a =? 1043 then 128 else if a =? 1044 then 2 else if 983040 <=? a then default 0 (img !! Z.to_nat (a - 983040)) else 0.

Lemma mp_memory_bytes img : Forall is_byte img -> forall a, is_byte (mp_memory img a).
Proof.
  intros H a. unfold mp_memory. repeat (case_match; [done|]). case_match; [|done]. destruct (img !! _) eqn:E; [|done].
  by eapply Forall_lookup in H.
Qed.

Definition two_cpus : list entry := [Eproc 0 20 3 (replicate 16 0); Eproc 1 20 1 (replicate 16 0); Eother 1 (lit "0PCI   "); Eioapic 2 (replicate 6 0)].

Lemma two_cpus_firmware : firmware (mp_memory (mp_image two_cpus [])) 983040 983056 two_cpus [] 100 4276092928.
Proof.
  split; [right; by vm_compute|by vm_compute|]. split; [by vm_compute|]. split; try (by vm_compute); [|].
  - right. by vm_compute.
  - repeat constructor; cbn; by (lia || left).
Qed.

Lemma two_cpus_boots : boots (procs two_cpus) 0.
Proof. intros [|[|k]] a f Hk; cbn in Hk; [injection Hk as <- <-|injection Hk as <- <-|done]; done. Qed.

Lemma mpinit_correct_witness : exists s, mpinit (mp_memory (mp_image two_cpus [])) 0 4 mp_boot = Ret tt s /\ mp_ncpu s = 2 /\ mp_bcpu s = 0 /\
  mp_ioapicid s = 2 /\ mp_ports s = [(34, 112); (35, 1)].
Proof.
  destruct (mpinit_correct (mp_memory (mp_image two_cpus [])) 0 ltac:(apply mp_memory_bytes; by_evaluation) 983040 983056 two_cpus 100 4276092928 4
    two_cpus_firmware ltac:(done) ltac:(cbn; lia)) as (s & E & H). exists s. split; [exact E|].
  change (bool_decide ((procs two_cpus).*1 = zrange 0 (Z.of_nat (length (procs two_cpus))))) with true in H. cbv iota in H.
  destruct H as [_ H2 _ H4 H5 _ H7]. split_and!; [exact H2| |exact H5|exact H7].
  exact (H4 0%nat two_cpus_boots (Nat.lt_0_succ 1)).
Defined.

Lemma mpinit_bad_tables_witness : forall fuel, mpinit (mp_memory (mp_image two_cpus [9; 0])) 0 fuel mp_boot = NoFuel.
Proof.
  apply (mpinit_bad_tables (mp_memory (mp_image two_cpus [9; 0])) 0 ltac:(apply mp_memory_bytes; by_evaluation) 983040 983056 two_cpus 9 [0] 102 4276092928);
    [|done|done].
  split; [right; by vm_compute|by vm_compute|]. split; [by vm_compute|]. split; try (by vm_compute); [|].
  - right. by vm_compute.
  - repeat constructor; cbn; by (lia || left).
Defined.
