(* ===== verification/Bootmain.v ===== *)
(** bootmain.c: the boot loader reads the kernel, an ELF file that starts at sector
    1 of the boot disk, into memory. *)
From S2P Require Import Prelude.

Definition SECTSIZE : Z := 512.
Definition ELF_MAGIC : Z := 1179403647.

(** Physical memory, byte by byte. *)
Notation memory := (Z -> Z).
Definition store (dst : Z) (l : list Z) (m : memory) : memory :=
  fun a => if (dst <=? a) && (a <? dst + Z.of_nat (length l)) then default 0 (l !! Z.to_nat (a - dst)) else m a.
Definition load16 (m : memory) (a : Z) : Z := le_dec [m a; m (a + 1)].
Definition load32 (m : memory) (a : Z) : Z := le_dec [m a; m (a + 1); m (a + 2); m (a + 3)].

Section boot.
(** The sectors of the disk. *)
Context (disk : Z -> list Z).

(** The sector number as the registers 0x1F3 to 0x1F6 get it; the controller is
    ready when [waitdisk] returns, and delivers 512 bytes. *)
Definition lba (offset : Z) : Z :=
  u8 offset + 256 * u8 (Z.shiftr offset 8) + 65536 * u8 (Z.shiftr offset 16)
  + 16777216 * Z.land (u8 (Z.lor (Z.shiftr offset 24) 224)) 15.
Definition readsect (dst offset : Z) : K memory unit := modify (store dst (disk (lba offset))).

Fixpoint seg_loop (fuel : nat) (pa epa offset : Z) : K memory unit :=
  if pa <? epa then
    match fuel with
    | O => nofuel
    | S fuel' => readsect pa offset;;; seg_loop fuel' (u32 (pa + SECTSIZE)) epa (u32 (offset + 1))
    end
  else ret tt.
Definition readseg (pa count offset : Z) : K memory unit :=
  let epa := u32 (pa + count) in
  seg_loop (Z.to_nat (count / SECTSIZE + 2)) (u32 (pa - offset `mod` SECTSIZE)) epa (u32 (offset / SECTSIZE + 1)).

Definition stosb (addr data cnt : Z) : K memory unit := modify (store addr (replicate (Z.to_nat cnt) data)).

(** The program headers, each of 32 bytes. *)
Fixpoint load_segs (fuel : nat) (ph eph : Z) : K memory unit :=
  if ph <? eph then
    match fuel with
    | O => nofuel
    | S fuel' =>
      let! m := get in
      let pa := load32 m (ph + 12) in
      readseg pa (load32 m (ph + 16)) (load32 m (ph + 4));;;
      let! m := get in
      let filesz := load32 m (ph + 16) in
      let memsz := load32 m (ph + 20) in
      when (filesz <? memsz) (stosb (u32 (pa + filesz)) 0 (memsz - filesz));;;
      load_segs fuel' (u32 (ph + 32)) eph
    end
  else ret tt.

(** The address that is called, or nothing when the disk holds no ELF file. *)
Definition bootmain : K memory (option Z) :=
  let elf := 65536 in
  readseg elf 4096 0;;;
  let! m := get in
  if negb (load32 m elf =? ELF_MAGIC) then ret None
  else
    let phnum := load16 m (elf + 44) in
    let ph := u32 (elf + load32 m (elf + 28)) in
    load_segs (Z.to_nat phnum) ph (u32 (ph + 32 * phnum));;;
    let! m := get in
    ret (Some (load32 m (elf + 24))).

(** ** Specification *)

(** The bytes of the kernel file, which starts at sector 1. *)
Context (img : Z -> Z).
Hypothesis (Hdisk : forall s, 1 <= s < 2 ^ 28 -> disk s = (fun k => img (512 * (s - 1) + k)) <$> zrange 0 512).

Record seg := Seg { sg_off : Z; sg_paddr : Z; sg_filesz : Z; sg_memsz : Z }.

(** Where loading a segment starts to write, and where its memory ends. *)
Definition seg_lo (g : seg) : Z := sg_paddr g - sg_off g `mod` 512.
Definition seg_end (g : seg) : Z := sg_paddr g + Z.max (sg_filesz g) (sg_memsz g).

Record seg_ok (g : seg) : Prop := {
  so_off : 0 <= sg_off g < 2 ^ 32;
  so_sizes : 0 <= sg_filesz g /\ 0 <= sg_memsz g;
  so_above : 69632 <= seg_lo g;
  so_below : seg_end g + 512 <= 2 ^ 32
}.

(** The program header at position [o] of the file describes [g]. *)
Definition header (o : Z) (g : seg) : Prop :=
  load32 img (o + 4) = sg_off g /\ load32 img (o + 12) = sg_paddr g /\ load32 img (o + 16) = sg_filesz g /\ load32 img (o + 20) = sg_memsz g.

Record kernel_file (entry phoff : Z) (segs : list seg) : Prop := {
  kf_magic : load32 img 0 = ELF_MAGIC;
  kf_entry : load32 img 24 = entry;
  kf_phoff : load32 img 28 = phoff /\ 0 <= phoff;
  kf_phnum : load16 img 44 = Z.of_nat (length segs);
  kf_fits : phoff + 32 * Z.of_nat (length segs) <= 4096;
  kf_segs : forall i g, segs !! i = Some g -> header (phoff + 32 * Z.of_nat i) g /\ seg_ok g;
  kf_order : forall i j g h, (i < j)%nat -> segs !! i = Some g -> segs !! j = Some h -> seg_end g <= seg_lo h
}.

(** The segment is in memory, the rest of it being zero. *)
Definition in_memory (m : memory) (g : seg) : Prop :=
  (forall a, sg_paddr g <= a < sg_paddr g + sg_filesz g -> m a = img (sg_off g + (a - sg_paddr g))) /\
  (forall a, sg_paddr g + sg_filesz g <= a < sg_paddr g + sg_memsz g -> m a = 0).

(** ** Reading sectors *)

Lemma lba_id o : 0 <= o < 2 ^ 28 -> lba o = o.
Proof.
  intros H. unfold lba. assert (Z.land (u8 (Z.lor (Z.shiftr o 24) 224)) 15 = o / 2 ^ 24) as ->.
  { change (u8 (Z.lor (Z.shiftr o 24) 224)) with (Z.lor (Z.shiftr o 24) 224 `mod` 2 ^ 8).
    rewrite <- Z.land_ones by done. rewrite <- Z.land_assoc. change (Z.land (Z.ones 8) 15) with (Z.ones 4).
    rewrite Z.land_lor_distr_l. change (Z.land 224 (Z.ones 4)) with 0. rewrite Z.lor_0_r, Z.land_ones, Z.shiftr_div_pow2 by done.
    apply Z.mod_small. split; [apply Z.div_pos; lia|apply Z.div_lt_upper_bound; lia]. }
  rewrite !Z.shiftr_div_pow2 by lia. change (u8 o) with (o `mod` 2 ^ 8). change (u8 (o / 2 ^ 8)) with ((o / 2 ^ 8) `mod` 2 ^ 8).
  change (u8 (o / 2 ^ 16)) with ((o / 2 ^ 16) `mod` 2 ^ 8).
  pose proof (Z.div_mod o (2 ^ 8) ltac:(lia)). pose proof (Z.div_mod (o / 2 ^ 8) (2 ^ 8) ltac:(lia)).
  pose proof (Z.div_mod (o / 2 ^ 16) (2 ^ 8) ltac:(lia)).
  replace (o / 2 ^ 24) with (o / 2 ^ 16 / 2 ^ 8) by (rewrite Z.div_div by lia; done).
  replace (o / 2 ^ 16) with (o / 2 ^ 8 / 2 ^ 8) in * by (rewrite Z.div_div by lia; done). lia.
Qed.

Lemma readsect_ok p o m : 1 <= o < 2 ^ 28 ->
  exists m', readsect p o m = Ret tt m' /\ forall a, m' a = if (p <=? a) && (a <? p + 512) then img (512 * (o - 1) + (a - p)) else m a.
Proof.
  intros H. eexists. split; [reflexivity|]. intros a. unfold store. rewrite lba_id, Hdisk by lia. rewrite length_fmap.
  unfold zrange. rewrite length_seqZ. change (Z.of_nat (Z.to_nat (512 - 0))) with 512.
  destruct (Z.leb_spec p a), (Z.ltb_spec a (p + 512)); cbn [andb]; try done.
  rewrite list_lookup_fmap, lookup_seqZ_lt by lia. cbn. f_equal. lia.
Qed.

(** [m'] is [m] with the bytes of the file in [lo, hi), shifted by [c]. *)
Definition filled (c lo hi : Z) (m m' : memory) : Prop :=
  forall a, m' a = if (lo <=? a) && (a <? hi) then img (c + a) else m a.

Lemma seg_loop_ok c epa fuel : forall p o m, 0 <= p -> epa + 512 <= 2 ^ 32 -> 1 <= o -> o + Z.of_nat fuel <= 2 ^ 28 ->
  epa - p <= 512 * Z.of_nat fuel -> 512 * (o - 1) = c + p ->
  exists hi m', seg_loop fuel p epa o m = Ret tt m' /\ epa <= hi <= Z.max p (epa + 511) /\ filled c p hi m m'.
Proof.
  induction fuel as [|fuel IH]; intros p o m Hp He Ho Hf Hn Hc; cbn [seg_loop]; destruct (Z.ltb_spec p epa) as [Hlt|Hge]; try lia.
  1, 3: exists p, m; split_and!; [done|lia|lia|]; intros a; by destruct (Z.leb_spec p a), (Z.ltb_spec a p); done || lia.
  destruct (readsect_ok p o m ltac:(lia)) as (m1 & E1 & H1). rewrite (bind_eq _ _ _ _ _ E1). unfold SECTSIZE.
  rewrite !u32_small by lia. destruct (IH (p + 512) (o + 1) m1 ltac:(lia) He ltac:(lia) ltac:(lia) ltac:(lia) ltac:(lia)) as (hi & m2 & E2 & Hhi & H2).
  exists (Z.max hi (p + 512)), m2. split_and!; [done|lia|lia|]. intros a. rewrite H2, H1. replace (512 * (o - 1) + (a - p)) with (c + a) by lia.
  destruct (Z.leb_spec (p + 512) a), (Z.ltb_spec a hi), (Z.leb_spec p a), (Z.ltb_spec a (p + 512)), (Z.ltb_spec a (Z.max hi (p + 512))); cbn [andb]; done || lia.
Qed.

Lemma readseg_ok pa count off m : 0 <= off < 2 ^ 32 -> 0 <= count -> off `mod` 512 <= pa -> pa + count + 512 <= 2 ^ 32 ->
  exists hi m', readseg pa count off m = Ret tt m' /\ pa + count <= hi <= pa + count + 511 /\ filled (off - pa) (pa - off `mod` 512) hi m m'.
Proof.
  intros Ho Hc Hpa Hb. pose proof (Z.mod_pos_bound off 512 ltac:(lia)) as Hm. pose proof (Z.div_mod off 512 ltac:(lia)) as Hd.
  assert (0 <= off / 512 < 8388608) as Hq by (split; [apply Z.div_pos; lia|apply Z.div_lt_upper_bound; lia]).
  pose proof (Z.div_mod count 512 ltac:(lia)) as Hdc. pose proof (Z.mod_pos_bound count 512 ltac:(lia)) as Hmc.
  assert (0 <= count / 512 < 8388608) as Hqc by (split; [apply Z.div_pos; lia|apply Z.div_lt_upper_bound; lia]).
  unfold readseg, SECTSIZE. rewrite !u32_small by lia.
  destruct (seg_loop_ok (off - pa) (pa + count) (Z.to_nat (count / 512 + 2)) (pa - off `mod` 512) (off / 512 + 1) m) as (hi & m' & E & H1 & H2); try lia.
  exists hi, m'. split_and!; [done|lia|lia|done].
Qed.

(** ** Loading the segments *)

Lemma load32_same m m' a : (forall k, a <= k < a + 4 -> m' k = m k) -> load32 m' a = load32 m a.
Proof. intros H. unfold load32. by rewrite !H by lia. Qed.
Lemma load16_same m m' a : (forall k, a <= k < a + 2 -> m' k = m k) -> load16 m' a = load16 m a.
Proof. intros H. unfold load16. by rewrite !H by lia. Qed.

(** The first page of the file is in the scratch area. *)
Definition scratch (m : memory) : Prop := forall k, 0 <= k < 4096 -> m (65536 + k) = img k.

Lemma scratch32 m o : scratch m -> 0 <= o -> o + 4 <= 4096 -> load32 m (65536 + o) = load32 img o.
Proof. intros H H1 H2. unfold load32. rewrite <- !Z.add_assoc. by rewrite !H by lia. Qed.

(** One segment: nothing below its first sector changes. *)
Lemma load_seg g o m : scratch m -> 0 <= o -> o + 32 <= 4096 -> header o g -> seg_ok g ->
  exists m', (forall k eph, o + 65536 < eph -> load_segs (S k) (65536 + o) eph m = load_segs k (65536 + (o + 32)) eph m') /\
    in_memory m' g /\ forall a, a < seg_lo g -> m' a = m a.
Proof.
  intros Hs Ho Hl (G1 & G2 & G3 & G4) [S1 [S2 S2'] S3 S4]. unfold seg_lo, seg_end in *.
  destruct (readseg_ok (sg_paddr g) (sg_filesz g) (sg_off g) m S1 S2 ltac:(lia) ltac:(lia)) as (hi & m1 & E1 & Hhi & H1).
  pose proof (Z.mod_pos_bound (sg_off g) 512 ltac:(lia)) as Hm.
  assert (forall a, a < sg_paddr g - sg_off g `mod` 512 -> m1 a = m a) as Hlow by (intros a Ha; rewrite H1; by rewrite (proj2 (Z.leb_gt _ _)) by lia).
  assert (scratch m1) as Hs1 by (intros k Hk; rewrite Hlow by lia; by apply Hs).
  set (m2 := if sg_filesz g <? sg_memsz g then store (sg_paddr g + sg_filesz g) (replicate (Z.to_nat (sg_memsz g - sg_filesz g)) 0) m1 else m1).
  exists m2. split_and!.
  - intros k eph He. cbn [load_segs]. rewrite (proj2 (Z.ltb_lt _ _)) by lia. unfold bind at 1, get. rewrite <- !Z.add_assoc.
    rewrite !(scratch32 m) by (done || lia). rewrite G1, G2, G3, (bind_eq _ _ _ _ _ E1). unfold bind at 1. cbv zeta.
    rewrite !(scratch32 m1) by (done || lia). rewrite G3, G4, (u32_small (65536 + _)) by lia. unfold when, m2.
    destruct (Z.ltb_spec (sg_filesz g) (sg_memsz g)); [|done]. unfold stosb, modify, bind. by rewrite u32_small by lia.
  - assert (forall a, m2 a = if (sg_paddr g + sg_filesz g <=? a) && (a <? sg_paddr g + sg_memsz g) then 0 else m1 a) as Hm2.
    { intros a. unfold m2. destruct (Z.ltb_spec (sg_filesz g) (sg_memsz g)).
      - unfold store. rewrite length_replicate, Z2Nat.id by lia. replace (sg_paddr g + sg_filesz g + (sg_memsz g - sg_filesz g)) with (sg_paddr g + sg_memsz g) by lia.
        destruct (_ && _) eqn:E; [|done]. by destruct (replicate _ 0 !! _) as [x|] eqn:Ex; [apply lookup_replicate in Ex as [-> _]|].
      - destruct (Z.leb_spec (sg_paddr g + sg_filesz g) a), (Z.ltb_spec a (sg_paddr g + sg_memsz g)); done || lia. }
    split; intros a Ha; rewrite Hm2.
    + rewrite (proj2 (Z.leb_gt _ _)) by lia. cbn [andb]. rewrite H1, (proj2 (Z.leb_le _ _)), (proj2 (Z.ltb_lt _ _)) by lia. cbn. f_equal. lia.
    + by rewrite (proj2 (Z.leb_le _ _)), (proj2 (Z.ltb_lt _ _)) by lia.
  - intros a Ha. unfold m2. destruct (Z.ltb_spec (sg_filesz g) (sg_memsz g)); [|by apply Hlow]. unfold store.
    rewrite (proj2 (Z.leb_gt _ _)) by lia. by apply Hlow.
Qed.

Lemma load_all segs : forall o m, scratch m -> 0 <= o -> o + 32 * Z.of_nat (length segs) <= 4096 ->
  (forall i g, segs !! i = Some g -> header (o + 32 * Z.of_nat i) g /\ seg_ok g) ->
  (forall i j g h, (i < j)%nat -> segs !! i = Some g -> segs !! j = Some h -> seg_end g <= seg_lo h) ->
  exists m', load_segs (length segs) (65536 + o) (65536 + o + 32 * Z.of_nat (length segs)) m = Ret tt m' /\ (forall g, g ∈ segs -> in_memory m' g) /\
    forall a, (forall g, g ∈ segs -> a < seg_lo g) -> m' a = m a.
Proof.
  induction segs as [|g segs IH]; intros o m Hs Ho Hl Hg Hord.
  { exists m. cbn [length load_segs]. rewrite Z.mul_0_r, Z.add_0_r, Z.ltb_irrefl. split_and!; [done|intros g Hg'; by apply elem_of_nil in Hg'|done]. }
  cbn [length] in *. destruct (Hg 0%nat g eq_refl) as [Hh Hok]. rewrite Z.add_0_r in Hh.
  destruct (load_seg g o m Hs Ho ltac:(lia) Hh Hok) as (m1 & E1 & Hin & Hlow). rewrite E1 by lia.
  destruct (IH (o + 32) m1) as (m2 & E2 & Hall & Hrest); [|lia|lia|..].
  { intros k Hk. rewrite Hlow; [by apply Hs|]. pose proof (so_above _ Hok). lia. }
  { intros i h Hi. replace (o + 32 + 32 * Z.of_nat i) with (o + 32 * Z.of_nat (S i)) by lia. by apply Hg. }
  { intros i j x y Hij Hx Hy. by apply (Hord (S i) (S j)); [lia|..]. }
  exists m2. split_and!.
  - rewrite <- E2. f_equal. lia.
  - intros h [->|Hh']%elem_of_cons; [|by apply Hall].
    assert (forall a, a < seg_end g -> m2 a = m1 a) as Hk.
    { intros a Ha. apply Hrest. intros h Hin'. apply list_elem_of_lookup in Hin' as [j Hj]. pose proof (Hord 0%nat (S j) g h ltac:(lia) eq_refl Hj). lia. }
    destruct Hin as [I1 I2]. unfold seg_end in Hk. split; intros a Ha; rewrite Hk by lia; [by apply I1|by apply I2].
  - intros a Ha. rewrite Hrest by (intros h Hh'; apply Ha; by right). apply Hlow, Ha. by left.
Qed.

(** C37. The boot loader on a kernel file whose segments lie above the scratch page
    in increasing order: it ends with a call of the entry point, every segment
    being in memory with the bytes of the file, and with zeros up to the size in
    memory, although sectors are read as a whole and overwrite what is around. *)
Theorem bootmain_loads entry phoff segs m : kernel_file entry phoff segs ->
  exists m', bootmain m = Ret (Some entry) m' /\ forall g, g ∈ segs -> in_memory m' g.
Proof.
  intros [K1 K2 [K3 K3'] K4 K5 K6 K7]. unfold bootmain. cbv zeta.
  destruct (readseg_ok 65536 4096 0 m ltac:(lia) ltac:(lia) ltac:(done) ltac:(lia)) as (hi & m1 & E1 & Hhi & H1).
  rewrite (bind_eq _ _ _ _ _ E1). unfold bind at 1, get. assert (scratch m1) as Hs.
  { intros k Hk. rewrite H1, (proj2 (Z.leb_le _ _)), (proj2 (Z.ltb_lt _ _)) by (rewrite ?Zmod_0_l; lia). cbn [andb]. f_equal. lia. }
  rewrite (scratch32 m1 0 Hs ltac:(lia) ltac:(lia) : load32 m1 65536 = _). rewrite !(scratch32 m1) by (done || lia). rewrite K1, K3. change (ELF_MAGIC =? ELF_MAGIC) with true. cbn [negb]. cbv zeta.
  assert (load16 m1 (65536 + 44) = Z.of_nat (length segs)) as -> by (rewrite <- K4; unfold load16; rewrite <- !Z.add_assoc; by rewrite !Hs by lia).
  rewrite Nat2Z.id, !u32_small by lia.
  destruct (load_all segs phoff m1 Hs K3' K5 K6 K7) as (m2 & E2 & Hall & Hrest). rewrite (bind_eq _ _ _ _ _ E2). unfold bind.
  exists m2. split; [|exact Hall]. unfold ret. do 2 f_equal. rewrite <- K2, <- (scratch32 m1) by (done || lia). apply load32_same.
  intros k Hk. apply Hrest. intros g Hg. apply list_elem_of_lookup in Hg as [i Hi]. pose proof (so_above _ (proj2 (K6 i g Hi))). lia.
Qed.
End boot.

(** A kernel of two segments: 600 bytes of code, and 20 bytes of data followed by
    zeros. *)
Definition demo_segs : list seg := [Seg 4096 1048576 600 600; Seg 4700 1049692 20 1000].
Definition le4 (l : list Z) : list Z := l ≫= le_enc 4.
Definition demo_file (a : Z) : Z :=
  let h := le4 [ELF_MAGIC; 0; 0; 0; 0; 0; 1048588; 52; 0; 0; 0; 2; 0] ++ le4 [1; 4096; 0; 1048576; 600; 600; 0; 0] ++ le4 [1; 4700; 0; 1049692; 20; 1000; 0; 0] in
  if a <? 4096 then default 0 (h !! Z.to_nat a) else a `mod` 251.

Lemma bootmain_loads_witness :
  let disk s := (fun k => demo_file (512 * (s - 1) + k)) <$> zrange 0 512 in
  exists m', bootmain disk (fun _ => 255) = Ret (Some 1048588) m' /\ m' 1049692 = demo_file 4700 /\ m' 1049712 = 0.
Proof.
  intros disk. destruct (bootmain_loads disk demo_file ltac:(done) 1048588 52 demo_segs (fun _ => 255)) as (m' & E & H).
  - split; [by vm_compute|by vm_compute|split; by vm_compute|by vm_compute|by vm_compute|..].
    + intros [|[|i]] g Hg; cbn in Hg; [injection Hg as <-|injection Hg as <-|done]; (split; [by vm_compute|split; by vm_compute]).
    + intros [|[|i]] [|[|j]] g h Hij Hg Hh; cbn in Hg, Hh; try lia; try done. injection Hg as <-. injection Hh as <-. by vm_compute.
  - exists m'. split; [exact E|]. destruct (H (Seg 4700 1049692 20 1000)) as [H1 H2]; [by right; left|].
    split; [exact (H1 1049692 ltac:(cbn; lia))|exact (H2 1049712 ltac:(cbn; lia))].
Defined.
