(* ===== verification/Irq.v ===== *)
(** Interrupt controllers: picirq.c, ioapic.c, lapic.c and timer.c, with the order
    in which main.c and the drivers set them up. The chips execute the commands
    of their data sheets. *)
From S2P Require Import Prelude.

Definition T_IRQ0 : Z := 32.
Definition IRQ_TIMER : Z := 0.
Definition IRQ_KBD : Z := 1.
Definition IRQ_COM1 : Z := 4.
Definition IRQ_IDE : Z := 14.
Definition IRQ_ERROR : Z := 19.
Definition IRQ_SPURIOUS : Z := 31.
Definition IRQ_SLAVE : Z := 2.

(** ** The hardware *)

(** An 8259A: what it expects next, the first initialisation word, the vector
    offset, the cascade, the mode, the interrupt mask and the special mask mode. *)
Inductive expects := Ready | Icw2 | Icw3 | Icw4.
#[global] Instance expects_eq_dec : EqDecision expects.
Proof. solve_decision. Defined.
Record chip := Chip { c_step : expects; c_icw1 : Z; c_base : Z; c_link : Z; c_mode : Z; c_mask : Z; c_special : bool }.

(** A write to the first port. *)
Definition chip_cmd (v : Z) (c : chip) : chip :=
  if Z.testbit v 4 then Chip Icw2 v (c_base c) (c_link c) (c_mode c) 0 false
  else if Z.testbit v 3 && Z.testbit v 6 then Chip (c_step c) (c_icw1 c) (c_base c) (c_link c) (c_mode c) (c_mask c) (Z.testbit v 5)
  else c.
(** A write to the second port: the initialisation words in order, then masks. *)
Definition chip_data (v : Z) (c : chip) : chip :=
  let last := if Z.testbit (c_icw1 c) 0 then Icw4 else Ready in
  match c_step c with
  | Ready => Chip Ready (c_icw1 c) (c_base c) (c_link c) (c_mode c) v (c_special c)
  | Icw2 => Chip (if Z.testbit (c_icw1 c) 1 then last else Icw3) (c_icw1 c) (Z.land v 248) (c_link c) (c_mode c) (c_mask c) (c_special c)
  | Icw3 => Chip last (c_icw1 c) (c_base c) v (c_mode c) (c_mask c) (c_special c)
  | Icw4 => Chip Ready (c_icw1 c) (c_base c) (c_link c) v (c_mask c) (c_special c)
  end.

(** Both chips, the I/O APIC with its selected register, the local APIC, the
    bytes sent to the timer, and the variables of the kernel. *)
Record irqst := Irqs {
  q_pic1 : chip; q_pic2 : chip; q_irqmask : Z;
  q_sel : Z; q_ioapic : Z -> Z; q_lapic : option (Z -> Z); q_timer : list (Z * Z); q_ismp : bool
}.
Definition set_pics (c1 c2 : chip) (s : irqst) : irqst :=
  Irqs c1 c2 (q_irqmask s) (q_sel s) (q_ioapic s) (q_lapic s) (q_timer s) (q_ismp s).
Definition set_irqmask (m : Z) (s : irqst) : irqst :=
  Irqs (q_pic1 s) (q_pic2 s) m (q_sel s) (q_ioapic s) (q_lapic s) (q_timer s) (q_ismp s).
Definition set_ioapic (r : Z) (f : Z -> Z) (s : irqst) : irqst :=
  Irqs (q_pic1 s) (q_pic2 s) (q_irqmask s) r f (q_lapic s) (q_timer s) (q_ismp s).
Definition set_lapic (f : Z -> Z) (s : irqst) : irqst :=
  Irqs (q_pic1 s) (q_pic2 s) (q_irqmask s) (q_sel s) (q_ioapic s) (Some f) (q_timer s) (q_ismp s).
Definition set_timer (l : list (Z * Z)) (s : irqst) : irqst :=
  Irqs (q_pic1 s) (q_pic2 s) (q_irqmask s) (q_sel s) (q_ioapic s) (q_lapic s) l (q_ismp s).

Definition port_out (port data : Z) : K irqst unit :=
  let v := u8 data in
  modify (fun s =>
    if port =? 32 then set_pics (chip_cmd v (q_pic1 s)) (q_pic2 s) s
    else if port =? 33 then set_pics (chip_data v (q_pic1 s)) (q_pic2 s) s
    else if port =? 160 then set_pics (q_pic1 s) (chip_cmd v (q_pic2 s)) s
    else if port =? 161 then set_pics (q_pic1 s) (chip_data v (q_pic2 s)) s
    else set_timer (q_timer s ++ [(port, v)]) s).

(** ** picirq.c *)

Definition IO_PIC1 : Z := 32.
Definition IO_PIC2 : Z := 160.

Definition picsetmask (mask : Z) : K irqst unit :=
  modify (set_irqmask mask);;;
  port_out (IO_PIC1 + 1) mask;;;
  port_out (IO_PIC2 + 1) (Z.shiftr mask 8).

Definition picenable (irq : Z) : K irqst unit :=
  let! s := get in
  picsetmask (u16 (Z.land (q_irqmask s) (Z.lnot (Z.shiftl 1 irq)))).

Definition picinit : K irqst unit :=
  port_out (IO_PIC1 + 1) 255;;;
  port_out (IO_PIC2 + 1) 255;;;
  port_out IO_PIC1 17;;;
  port_out (IO_PIC1 + 1) T_IRQ0;;;
  port_out (IO_PIC1 + 1) (Z.shiftl 1 IRQ_SLAVE);;;
  port_out (IO_PIC1 + 1) 3;;;
  port_out IO_PIC2 17;;;
  port_out (IO_PIC2 + 1) (T_IRQ0 + 8);;;
  port_out (IO_PIC2 + 1) IRQ_SLAVE;;;
  port_out (IO_PIC2 + 1) 3;;;
  port_out IO_PIC1 104;;;
  port_out IO_PIC1 10;;;
  port_out IO_PIC2 104;;;
  port_out IO_PIC2 10;;;
  let! s := get in
  when (negb (q_irqmask s =? 65535)) (picsetmask (q_irqmask s)).

(** ** timer.c *)

Definition TIMER_DIV (x : Z) : Z := (1193182 + x / 2) / x.
Definition timerinit : K irqst unit :=
  port_out 67 52;;;
  port_out 64 (TIMER_DIV 100 `mod` 256);;;
  port_out 64 (TIMER_DIV 100 / 256);;;
  picenable IRQ_TIMER.

(** ** ioapic.c *)

Definition REG_ID : Z := 0.
Definition REG_VER : Z := 1.
Definition REG_TABLE : Z := 16.
Definition INT_DISABLED : Z := 65536.

Definition ioapicread (reg : Z) : K irqst Z :=
  modify (fun s => set_ioapic reg (q_ioapic s) s);;;
  gets (fun s => q_ioapic s (q_sel s)).
Definition ioapicwrite (reg data : Z) : K irqst unit :=
  modify (fun s => set_ioapic reg (q_ioapic s) s);;;
  modify (fun s => set_ioapic (q_sel s) (<[q_sel s := u32 data]> (q_ioapic s)) s).

Definition ioapicinit : K irqst unit :=
  let! s := get in
  if negb (q_ismp s) then ret tt
  else
    let! ver := ioapicread REG_VER in
    let maxintr := Z.land (Z.shiftr ver 16) 255 in
    ioapicread REG_ID;;;
    forK (fun i => ioapicwrite (REG_TABLE + 2 * i) (Z.lor INT_DISABLED (T_IRQ0 + i));;;
                   ioapicwrite (REG_TABLE + 2 * i + 1) 0) (zrange 0 (maxintr + 1)).

Definition ioapicenable (irq cpunum : Z) : K irqst unit :=
  let! s := get in
  if negb (q_ismp s) then ret tt
  else
    ioapicwrite (REG_TABLE + 2 * irq) (T_IRQ0 + irq);;;
    ioapicwrite (REG_TABLE + 2 * irq + 1) (Z.shiftl cpunum 24).

(** ** lapic.c *)

Definition lapicw (index value : Z) : K irqst unit :=
  let! s := get in
  match q_lapic s with
  | Some f => modify (set_lapic (<[index := u32 value]> f))
  | None => undef "no local APIC"
  end.

(** The command has been delivered when the register is read again. *)
Definition lapicinit : K irqst unit :=
  let! s := get in
  match q_lapic s with
  | None => ret tt
  | Some f =>
    lapicw 60 (Z.lor 256 (T_IRQ0 + IRQ_SPURIOUS));;;
    lapicw 248 11;;;
    lapicw 200 (Z.lor 131072 (T_IRQ0 + IRQ_TIMER));;;
    lapicw 224 10000000;;;
    lapicw 212 65536;;;
    lapicw 216 65536;;;
    when (4 <=? Z.land (Z.shiftr (f 12) 16) 255) (lapicw 208 65536);;;
    lapicw 220 (T_IRQ0 + IRQ_ERROR);;;
    lapicw 160 0;;;
    lapicw 160 0;;;
    lapicw 44 0;;;
    lapicw 196 0;;;
    lapicw 192 (Z.lor (Z.lor 524288 1280) 32768);;;
    lapicw 32 0
  end.

Definition lapiceoi : K irqst unit :=
  let! s := get in
  match q_lapic s with Some _ => lapicw 44 0 | None => ret tt end.

Definition cpunum : K irqst Z := gets (fun s => match q_lapic s with Some f => Z.shiftr (f 8) 24 | None => 0 end).

(** ** The order of main.c

    [main] calls [consoleinit], [uartinit], [ideinit] and, without other
    processors, [timerinit]; each enables the interrupt of its device. *)
Definition irq_boot (uart : bool) (ncpu : Z) : K irqst unit :=
  lapicinit;;;
  picinit;;;
  ioapicinit;;;
  picenable IRQ_KBD;;;
  ioapicenable IRQ_KBD 0;;;
  when uart (picenable IRQ_COM1;;; ioapicenable IRQ_COM1 0);;;
  picenable IRQ_IDE;;;
  ioapicenable IRQ_IDE (ncpu - 1);;;
  let! s := get in
  when (negb (q_ismp s)) timerinit.

(** ** Specification *)

(** The vector the two 8259A deliver for an interrupt line; the slave is connected
    to the line of the master that both have been told. *)
Definition pic_vector (s : irqst) (irq : Z) : option Z :=
  let m := q_pic1 s in let sl := q_pic2 s in
  if negb (bool_decide (c_step m = Ready)) || negb (bool_decide (c_step sl = Ready)) then None
  else if irq <? 8 then (if Z.testbit (c_mask m) irq then None else Some (c_base m + irq))
  else if Z.testbit (c_mask sl) (irq - 8) || negb (Z.testbit (c_link m) (c_link sl)) || Z.testbit (c_mask m) (c_link sl) then None
  else Some (c_base sl + (irq - 8)).

(** The vector and the processor of an entry of the redirection table. *)
Definition ioapic_route (s : irqst) (irq : Z) : option (Z * Z) :=
  let lo := q_ioapic s (REG_TABLE + 2 * irq) in
  if Z.testbit lo 16 then None else Some (Z.land lo 255, Z.land (Z.shiftr (q_ioapic s (REG_TABLE + 2 * irq + 1)) 24) 255).

(** The chips are set up, with the lines in [on] unmasked. *)
Record pics_on (on : list Z) (s : irqst) : Prop := {
  po_mask : 0 <= q_irqmask s < 65536;
  po_bits : forall i, 0 <= i < 16 -> Z.testbit (q_irqmask s) i = negb (bool_decide (i = IRQ_SLAVE \/ i ∈ on));
  po_pic1 : exists b, q_pic1 s = Chip Ready 17 32 4 3 (u8 (q_irqmask s)) b;
  po_pic2 : exists b, q_pic2 s = Chip Ready 17 40 2 3 (u8 (Z.shiftr (q_irqmask s) 8)) b
}.

(** What does not concern the 8259A. *)
Definition others (s : irqst) : Z * (Z -> Z) * option (Z -> Z) * bool := (q_sel s, q_ioapic s, q_lapic s, q_ismp s).

(** ** The 8259A pair *)

Lemma chip_setup base link c :
  chip_cmd 10 (chip_cmd 104 (chip_data 3 (chip_data link (chip_data base (chip_cmd 17 c))))) = Chip Ready 17 (Z.land base 248) link 3 0 true.
Proof. done. Qed.

Lemma testbit_u8 m i : 0 <= i < 8 -> Z.testbit (u8 m) i = Z.testbit m i.
Proof. intros H. change (u8 m) with (m `mod` 2 ^ 8). by rewrite Z.mod_pow2_bits_low by lia. Qed.
Lemma testbit_u16 m i : 0 <= i < 16 -> Z.testbit (u16 m) i = Z.testbit m i.
Proof. intros H. change (u16 m) with (m `mod` 2 ^ 16). by rewrite Z.mod_pow2_bits_low by lia. Qed.

(** Setting the mask of initialised chips. *)
Lemma picsetmask_ok m s b1 b2 x1 x2 : q_pic1 s = Chip Ready 17 32 4 3 x1 b1 -> q_pic2 s = Chip Ready 17 40 2 3 x2 b2 ->
  exists s', picsetmask m s = Ret tt s' /\ others s' = others s /\ q_irqmask s' = m /\
    q_pic1 s' = Chip Ready 17 32 4 3 (u8 m) b1 /\ q_pic2 s' = Chip Ready 17 40 2 3 (u8 (Z.shiftr m 8)) b2.
Proof.
  intros E1 E2. eexists. split; [reflexivity|]. cbn. rewrite E1, E2. done.
Qed.

Section writes.
Context (c1 c2 : chip) (s : irqst) (v : Z).
Lemma pic1_cmd : port_out IO_PIC1 v (set_pics c1 c2 s) = Ret tt (set_pics (chip_cmd (u8 v) c1) c2 s).
Proof. done. Qed.
Lemma pic1_data : port_out (IO_PIC1 + 1) v (set_pics c1 c2 s) = Ret tt (set_pics (chip_data (u8 v) c1) c2 s).
Proof. done. Qed.
Lemma pic2_cmd : port_out IO_PIC2 v (set_pics c1 c2 s) = Ret tt (set_pics c1 (chip_cmd (u8 v) c2) s).
Proof. done. Qed.
Lemma pic2_data : port_out (IO_PIC2 + 1) v (set_pics c1 c2 s) = Ret tt (set_pics c1 (chip_data (u8 v) c2) s).
Proof. done. Qed.
End writes.

(** The initialisation words, whatever the chips were doing before. *)
Lemma picinit_words s : q_irqmask s = 65531 ->
  picinit s = picsetmask 65531 (set_pics (Chip Ready 17 32 4 3 0 true) (Chip Ready 17 40 2 3 0 true) s).
Proof.
  intros Hm. transitivity (picinit (set_pics (q_pic1 s) (q_pic2 s) s)); [by destruct s|].
  generalize (q_pic1 s) (q_pic2 s). intros c1 c2. unfold picinit.
  rewrite (bind_eq _ _ _ _ _ (pic1_data _ _ _ _)), (bind_eq _ _ _ _ _ (pic2_data _ _ _ _)).
  generalize (chip_data (u8 255) c1) (chip_data (u8 255) c2). clear c1 c2. intros c1 c2.
  rewrite (bind_eq _ _ _ _ _ (pic1_cmd _ _ _ _)), !(bind_eq _ _ _ _ _ (pic1_data _ _ _ _)).
  rewrite (bind_eq _ _ _ _ _ (pic2_cmd _ _ _ _)), !(bind_eq _ _ _ _ _ (pic2_data _ _ _ _)).
  rewrite !(bind_eq _ _ _ _ _ (pic1_cmd _ _ _ _)), !(bind_eq _ _ _ _ _ (pic2_cmd _ _ _ _)).
  change (u8 17) with 17. change (u8 3) with 3. change (u8 104) with 104. change (u8 10) with 10. rewrite !chip_setup.
  unfold bind, get, when. cbn [set_pics q_irqmask]. rewrite Hm. done.
Qed.

Lemma picinit_on s : q_irqmask s = 65531 -> exists s', picinit s = Ret tt s' /\ pics_on [] s' /\ others s' = others s.
Proof.
  intros Hm. set (s1 := set_pics (Chip Ready 17 32 4 3 0 true) (Chip Ready 17 40 2 3 0 true) s).
  destruct (picsetmask_ok 65531 s1 true true 0 0) as (s' & E' & Ho & Em & H1 & H2); [done|done|].
  exists s'. rewrite (picinit_words s Hm). split_and!; [done| |done]. split; rewrite ?Em; [lia| |by exists true|by exists true].
  intros i Hi. change 65531 with (Z.land (Z.ones 16) (Z.lnot (2 ^ 2))).
  rewrite Z.land_spec, Z.lnot_spec, Z.ones_spec_low by lia. cbn [andb]. f_equal.
  destruct (decide (i = 2)) as [->|Hne]; [by rewrite bool_decide_true by (by left)|].
  rewrite bool_decide_false by (intros [->|H]; [done|by apply elem_of_nil in H]). by rewrite Z.pow2_bits_false by lia.
Qed.

Lemma picenable_on on irq s : pics_on on s -> 0 <= irq < 16 -> exists s', picenable irq s = Ret tt s' /\ pics_on (irq :: on) s' /\ others s' = others s.
Proof.
  intros [P1 P2 [b1 P3] [b2 P4]] Hi. set (m := u16 (Z.land (q_irqmask s) (Z.lnot (Z.shiftl 1 irq)))).
  destruct (picsetmask_ok m s b1 b2 _ _ P3 P4) as (s' & E' & Ho & Em & H1 & H2). exists s'. split_and!; [done| |done].
  split; rewrite ?Em; [change m with (Z.land (q_irqmask s) (Z.lnot (Z.shiftl 1 irq)) `mod` 65536); apply Z.mod_pos_bound; lia| |by exists b1|by exists b2].
  intros i Hr. unfold m. rewrite testbit_u16, Z.land_spec, Z.lnot_spec, P2, Z.shiftl_1_l by lia.
  rewrite <- negb_orb. f_equal. destruct (decide (i = irq)) as [->|Hne].
  - rewrite Z.pow2_bits_true, orb_true_r, bool_decide_true by (lia || set_solver). done.
  - rewrite Z.pow2_bits_false, orb_false_r by lia. apply bool_decide_ext. set_solver.
Qed.

Lemma pics_vector on s irq : pics_on on s -> 0 <= irq < 16 -> irq <> IRQ_SLAVE ->
  pic_vector s irq = if bool_decide (irq ∈ on) then Some (T_IRQ0 + irq) else None.
Proof.
  intros [P1 P2 [b1 P3] [b2 P4]] Hi Hne. unfold pic_vector. rewrite P3, P4. cbn [c_step c_mask c_base c_link]. rewrite bool_decide_true by done. cbn [negb orb].
  assert (bool_decide (irq = IRQ_SLAVE \/ irq ∈ on) = bool_decide (irq ∈ on)) as Hb by (apply bool_decide_ext; tauto).
  destruct (Z.ltb_spec irq 8).
  - rewrite testbit_u8, P2, Hb by lia. by destruct (bool_decide (irq ∈ on)).
  - change (Z.testbit 4 2) with true. rewrite !testbit_u8, Z.shiftr_spec by lia. replace (irq - 8 + 8) with irq by lia.
    rewrite !P2, Hb by lia. rewrite (bool_decide_true (2 = IRQ_SLAVE \/ _)) by (by left). cbn [negb]. rewrite !orb_false_r.
    destruct (bool_decide (irq ∈ on)); cbn; [f_equal; unfold T_IRQ0; lia|done].
Qed.

(** ** The I/O APIC *)

Definition maxintr (s : irqst) : Z := Z.land (Z.shiftr (q_ioapic s REG_VER) 16) 255.

(** Entry [i] of the redirection table goes to processor [cpu i], if any. *)
Record routed (cpu : Z -> option Z) (s : irqst) : Prop := {
  ro_route : forall i, 0 <= i <= maxintr s -> ioapic_route s i = (fun c => (T_IRQ0 + i, c)) <$> cpu i
}.
Definition pics (s : irqst) : chip * chip * Z * option (Z -> Z) * bool := (q_pic1 s, q_pic2 s, q_irqmask s, q_lapic s, q_ismp s).

Lemma ioapicwrite_ok r v s : exists s', ioapicwrite r v s = Ret tt s' /\ pics s' = pics s /\ q_ioapic s' = <[r := u32 v]> (q_ioapic s).
Proof. eexists. split; [reflexivity|]. done. Qed.

(** Both registers of entry [i]. *)
Lemma entry_written i lo hi s : 0 <= i -> exists s', (ioapicwrite (REG_TABLE + 2 * i) lo;;; ioapicwrite (REG_TABLE + 2 * i + 1) hi) s = Ret tt s' /\
  pics s' = pics s /\ maxintr s' = maxintr s /\ (forall j, j <> i -> ioapic_route s' j = ioapic_route s j) /\
  ioapic_route s' i = if Z.testbit (u32 lo) 16 then None else Some (Z.land (u32 lo) 255, Z.land (Z.shiftr (u32 hi) 24) 255).
Proof.
  intros Hi. destruct (ioapicwrite_ok (REG_TABLE + 2 * i) lo s) as (s1 & E1 & P1 & I1).
  destruct (ioapicwrite_ok (REG_TABLE + 2 * i + 1) hi s1) as (s2 & E2 & P2 & I2). exists s2. rewrite (bind_eq _ _ _ _ _ E1).
  unfold ioapic_route, maxintr, REG_TABLE, REG_VER in *. split_and!; [done|congruence|..]; rewrite I2, I1.
  - by rewrite !fn_lookup_insert_ne by lia.
  - intros j Hj. by rewrite !fn_lookup_insert_ne by lia.
  - rewrite (fn_lookup_insert_ne _ (16 + 2 * i + 1) (16 + 2 * i)) by lia. by rewrite !fn_lookup_insert.
Qed.

Lemma ioapicinit_routed s : q_ismp s = true -> exists s', ioapicinit s = Ret tt s' /\ pics s' = pics s /\ maxintr s' = maxintr s /\ routed (fun _ => None) s'.
Proof.
  intros Hs. unfold ioapicinit. unfold bind at 1, get. rewrite Hs. cbn [negb].
  set (s1 := set_ioapic REG_ID (q_ioapic s) s). unfold bind at 1. cbn [ioapicread bind modify gets ret set_ioapic q_sel q_ioapic]. fold (maxintr s).
  assert (0 <= maxintr s < 256) as Hm by (unfold maxintr; change 255 with (Z.ones 8); rewrite Z.land_ones by lia; apply Z.mod_pos_bound; lia).
  assert (wp (forK (fun i => ioapicwrite (REG_TABLE + 2 * i) (Z.lor INT_DISABLED (T_IRQ0 + i));;; ioapicwrite (REG_TABLE + 2 * i + 1) 0) (zrange 0 (maxintr s + 1)))
    (fun _ t => pics t = pics s /\ maxintr t = maxintr s /\ forall j, 0 <= j < Z.of_nat (length (zrange 0 (maxintr s + 1))) -> ioapic_route t j = None) s1) as H.
  { apply (wp_foldK _ _ (fun k _ t => pics t = pics s /\ maxintr t = maxintr s /\ forall j, 0 <= j < Z.of_nat k -> ioapic_route t j = None));
      [split_and!; [done|done|intros; lia]|].
    intros k x [] t Hx (H1 & H2 & H3). apply lookup_seqZ in Hx as [-> Hk]. rewrite Z.add_0_l.
    destruct (entry_written (Z.of_nat k) (Z.lor INT_DISABLED (T_IRQ0 + Z.of_nat k)) 0 t ltac:(lia)) as (t' & E & P & M & R1 & R2).
    apply wp_Ret. exists tt, t'. split; [done|]. split_and!; [congruence|congruence|]. intros j Hj. destruct (decide (j = Z.of_nat k)) as [->|Hne].
    - rewrite R2. change (u32 ?x) with (x `mod` 2 ^ 32). by rewrite Z.mod_pow2_bits_low, Z.lor_spec by lia.
    - rewrite R1 by done. apply H3. lia. }
  apply wp_Ret in H as ([] & s' & E & H1 & H2 & H3). exists s'. split_and!; [done|done|done|]. split. intros i Hi. rewrite H3; [done|].
  unfold zrange. rewrite length_seqZ. lia.
Qed.

Lemma ioapicenable_routed cpu irq c s : routed cpu s -> q_ismp s = true -> 0 <= irq < 16 -> 0 <= c < 256 ->
  exists s', ioapicenable irq c s = Ret tt s' /\ pics s' = pics s /\ maxintr s' = maxintr s /\ routed (<[irq := Some c]> cpu) s'.
Proof.
  intros [H] Hs Hi Hc. unfold ioapicenable. unfold bind at 1, get. rewrite Hs. cbn [negb].
  destruct (entry_written irq (T_IRQ0 + irq) (Z.shiftl c 24) s ltac:(lia)) as (s' & E & P & M & R1 & R2). exists s'. split_and!; [done..|].
  split. intros i Hr. rewrite M in Hr. destruct (decide (i = irq)) as [->|Hne].
  - rewrite R2, fn_lookup_insert. unfold T_IRQ0. rewrite (u32_small (32 + irq)), Z.shiftl_mul_pow2, u32_small by lia.
    rewrite (Z.bits_above_log2 (32 + irq)) by (lia || (apply Z.log2_lt_pow2; lia)). rewrite Z.shiftr_div_pow2, Z.div_mul by lia.
    change 255 with (Z.ones 8). rewrite !Z.land_ones, !Z.mod_small by lia. done.
  - rewrite R1, fn_lookup_insert_ne by done. by apply H.
Qed.

(** ** The local APIC *)

Lemma lapicw_ok i v f s : lapicw i v (set_lapic f s) = Ret tt (set_lapic (<[i := u32 v]> f) s).
Proof. done. Qed.

(** The timer is periodic with the vector of its interrupt, the lines of the
    processor are masked, errors have their vector, and the unit is enabled. *)
Record lapic_on (f : Z -> Z) : Prop := {
  la_svr : f 60 = 319;
  la_timer : f 200 = 131072 + (T_IRQ0 + IRQ_TIMER) /\ f 224 = 10000000;
  la_lint : f 212 = 65536 /\ f 216 = 65536;
  la_error : f 220 = T_IRQ0 + IRQ_ERROR;
  la_tpr : f 32 = 0
}.

Definition lapic_ready (s : irqst) : Prop := match q_lapic s with Some f => lapic_on f | None => True end.

Lemma lapicinit_on s : exists s', lapicinit s = Ret tt s' /\ lapic_ready s' /\
  q_pic1 s' = q_pic1 s /\ q_pic2 s' = q_pic2 s /\ q_irqmask s' = q_irqmask s /\ q_ioapic s' = q_ioapic s /\ q_ismp s' = q_ismp s.
Proof.
  unfold lapicinit, bind at 1, get. destruct (q_lapic s) as [f|] eqn:Ef.
  2:{ exists s. unfold lapic_ready. by rewrite Ef. }
  replace s with (set_lapic f s) by (destruct s; cbn in *; by rewrite Ef). generalize (4 <=? Z.land (Z.shiftr (f 12) 16) 255). intros b.
  rewrite !(bind_eq _ _ _ _ _ (lapicw_ok _ _ _ _)). destruct b; cbn [when].
  - rewrite !(bind_eq _ _ _ _ _ (lapicw_ok _ _ _ _)), lapicw_ok. eexists. split; [reflexivity|]. split_and!; [|done..].
    unfold lapic_ready. cbn [q_lapic set_lapic]. split; rewrite ?fn_lookup_insert; repeat (rewrite fn_lookup_insert_ne by done; rewrite ?fn_lookup_insert); done.
  - unfold ret at 1, bind at 1. rewrite !(bind_eq _ _ _ _ _ (lapicw_ok _ _ _ _)), lapicw_ok. eexists. split; [reflexivity|]. split_and!; [|done..].
    unfold lapic_ready. cbn [q_lapic set_lapic]. split; rewrite ?fn_lookup_insert; repeat (rewrite fn_lookup_insert_ne by done; rewrite ?fn_lookup_insert); done.
Qed.

(** ** Everything together *)

(** Lines [on] reach the 8259A pair, and the I/O APIC, when it is used, sends
    entry [i] to [cpu i]. *)
Record irqs (on : list Z) (cpu : Z -> option Z) (ismp : bool) (n : Z) (s : irqst) : Prop := {
  iq_pics : pics_on on s;
  iq_routed : ismp = true -> routed cpu s /\ maxintr s = n;
  iq_ismp : q_ismp s = ismp;
  iq_lapic : lapic_ready s
}.

Lemma pics_on_same on s s' : pics s' = pics s -> pics_on on s -> pics_on on s'.
Proof. intros E [P1 P2 P3 P4]. injection E as E1 E2 E3 _ _. split; rewrite ?E1, ?E2, ?E3; done. Qed.

Lemma routed_same cpu s s' : others s' = others s -> routed cpu s -> routed cpu s' /\ maxintr s' = maxintr s.
Proof.
  intros E [H]. injection E as _ E _ _. unfold ioapic_route, maxintr in *. split; [|by rewrite E]. split. unfold ioapic_route, maxintr. by rewrite E.
Qed.

Lemma picenable_irqs on cpu ismp n irq s : irqs on cpu ismp n s -> 0 <= irq < 16 -> exists s', picenable irq s = Ret tt s' /\ irqs (irq :: on) cpu ismp n s'.
Proof.
  intros [I1 I2 I3 I4] Hi. destruct (picenable_on on irq s I1 Hi) as (s' & E & HP & Ho). exists s'. split; [done|].
  injection Ho as O1 O2 O3 O4. split; [done| |congruence|unfold lapic_ready in *; by rewrite O3].
  intros Hm. destruct (I2 Hm) as [R1 R2]. destruct (routed_same cpu s s') as [R3 R4]; [unfold others; congruence|done|]. split; [done|congruence].
Qed.

Lemma enable_irqs on cpu ismp n irq c s : irqs on cpu ismp n s -> 0 <= irq < 16 -> 0 <= c < 256 ->
  exists s1 s', picenable irq s = Ret tt s1 /\ ioapicenable irq c s1 = Ret tt s' /\ irqs (irq :: on) (<[irq := Some c]> cpu) ismp n s'.
Proof.
  intros HI Hi Hc. destruct (picenable_irqs on cpu ismp n irq s HI Hi) as (s1 & E1 & [I1 I2 I3 I4]). exists s1.
  destruct ismp.
  - destruct (I2 eq_refl) as [R1 R2]. destruct (ioapicenable_routed cpu irq c s1 R1 I3 Hi Hc) as (s' & E2 & HP & HM & R3).
    exists s'. split_and!; [done|done|]. injection HP as P1 P2 P3 P4 P5. split.
    + eapply pics_on_same; [|done]. unfold pics. congruence.
    + intros _. split; [done|congruence].
    + congruence.
    + unfold lapic_ready in *. by rewrite P4.
  - exists s1. unfold ioapicenable, bind, get. rewrite I3. cbn [negb]. split_and!; [done|done|]. by split.
Qed.

(** The controllers before any device is enabled. *)
Lemma boot_controllers s : q_irqmask s = 65531 -> exists s0 s1 s2, lapicinit s = Ret tt s0 /\ picinit s0 = Ret tt s1 /\ ioapicinit s1 = Ret tt s2 /\
  irqs [] (fun _ => None) (q_ismp s) (maxintr s) s2.
Proof.
  intros Hm. destruct (lapicinit_on s) as (s0 & E0 & L0 & A1 & A2 & A3 & A4 & A5).
  destruct (picinit_on s0 ltac:(congruence)) as (s1 & E1 & P1 & O1). injection O1 as _ O2 O3 O4. exists s0, s1.
  assert (lapic_ready s1) as L1 by (unfold lapic_ready in *; by rewrite O3).
  assert (maxintr s1 = maxintr s) as M1 by (unfold maxintr; congruence). destruct (q_ismp s1) eqn:Ei.
  - destruct (ioapicinit_routed s1 Ei) as (s2 & E2 & HP & HM & R). exists s2. split_and!; [done..|]. injection HP as Q1 Q2 Q3 Q4 Q5. split.
    + eapply pics_on_same; [|exact P1]. unfold pics. congruence.
    + intros _. split; [done|congruence].
    + congruence.
    + unfold lapic_ready in *. by rewrite Q4.
  - exists s1. split_and!; [done..|unfold ioapicinit, bind, get; by rewrite Ei|]. split; [done|congruence|congruence|done].
Qed.

(** The serial port, when there is one. *)
Lemma boot_uart (uart : bool) cpu ismp n on s : irqs on cpu ismp n s -> exists s',
  when uart (picenable IRQ_COM1;;; ioapicenable IRQ_COM1 0) s = Ret tt s' /\
  irqs ((if uart then [IRQ_COM1] else []) ++ on) (if uart then <[IRQ_COM1 := Some 0]> cpu else cpu) ismp n s'.
Proof.
  intros HI. destruct uart; [|by exists s]. destruct (enable_irqs _ _ _ _ IRQ_COM1 0 s HI ltac:(done) ltac:(done)) as (t1 & t2 & F1 & F2 & J).
  exists t2. cbn [when]. by rewrite (bind_eq _ _ _ _ _ F1).
Qed.

Lemma irqs_timer on cpu ismp n l s : irqs on cpu ismp n s -> irqs on cpu ismp n (set_timer l s).
Proof.
  intros [I1 I2 I3 I4]. split; [by eapply pics_on_same; [|exact I1]| |done|done].
  intros H. destruct (I2 H) as [R <-]. by eapply routed_same; [|exact R].
Qed.

Lemma timerinit_irqs on cpu ismp n s : irqs on cpu ismp n s -> exists s', timerinit s = Ret tt s' /\ irqs (IRQ_TIMER :: on) cpu ismp n s'.
Proof.
  intros HI. assert (forall port v t, 63 < port < 100 -> port_out port v t = Ret tt (set_timer (q_timer t ++ [(port, u8 v)]) t)) as Ho.
  { intros port v t Hp. unfold port_out, modify. by rewrite !(proj2 (Z.eqb_neq port _)) by lia. }
  unfold timerinit. rewrite (bind_eq _ _ _ _ _ (Ho 67 _ _ ltac:(lia))), (bind_eq _ _ _ _ _ (Ho 64 _ _ ltac:(lia))), (bind_eq _ _ _ _ _ (Ho 64 _ _ ltac:(lia))).
  apply picenable_irqs; [|done]. by repeat apply irqs_timer.
Qed.

(** C35. After the initialisation in [main], from any state of the chips: the pair of
    8259A delivers exactly the lines that were enabled, the timer's without other
    processors, each as vector [T_IRQ0 + irq]; with several processors the I/O
    APIC sends exactly the keyboard, the serial port if there is one, and the disk
    to the processors they were enabled for, with the same vectors, and the
    timer of each local APIC is set up. *)
Theorem irqs_delivered (uart : bool) ncpu s : q_irqmask s = 65531 -> 1 <= ncpu <= 8 ->
  let devices := [IRQ_IDE] ++ (if uart then [IRQ_COM1] else []) ++ [IRQ_KBD] in
  exists s', irq_boot uart ncpu s = Ret tt s' /\ lapic_ready s' /\
    (forall irq, 0 <= irq < 16 -> irq <> IRQ_SLAVE -> pic_vector s' irq =
       if bool_decide (irq ∈ devices) || negb (q_ismp s) && (irq =? IRQ_TIMER) then Some (T_IRQ0 + irq) else None) /\
    (q_ismp s = true -> forall irq, 0 <= irq <= maxintr s -> ioapic_route s' irq =
       if bool_decide (irq ∈ devices) then Some (T_IRQ0 + irq, if irq =? IRQ_IDE then ncpu - 1 else 0) else None).
Proof.
  intros Hm Hn devices. destruct (boot_controllers s Hm) as (s0 & s1 & s2 & E0 & E1 & E2 & I2).
  destruct (enable_irqs _ _ _ _ IRQ_KBD 0 s2 I2 ltac:(done) ltac:(done)) as (s3 & s4 & E3 & E4 & I4).
  destruct (boot_uart uart _ _ _ _ s4 I4) as (s5 & E5 & I5).
  destruct (enable_irqs _ _ _ _ IRQ_IDE (ncpu - 1) s5 I5 ltac:(done) ltac:(lia)) as (s6 & s7 & E6 & E7 & I7). change (IRQ_IDE :: _) with devices in I7.
  assert (irq_boot uart ncpu s = (let! s := get in when (negb (q_ismp s)) timerinit) s7) as E.
  { unfold irq_boot. by rewrite (bind_eq _ _ _ _ _ E0), (bind_eq _ _ _ _ _ E1), (bind_eq _ _ _ _ _ E2), (bind_eq _ _ _ _ _ E3),
      (bind_eq _ _ _ _ _ E4), (bind_eq _ _ _ _ _ E5), (bind_eq _ _ _ _ _ E6), (bind_eq _ _ _ _ _ E7). }
  rewrite E. unfold bind, get. rewrite (iq_ismp _ _ _ _ _ I7). clear - I7. destruct (q_ismp s); cbn [negb when andb].
  - exists s7. destruct I7 as [J1 J2 J3 J4]. destruct (J2 eq_refl) as [[R] M]. split_and!; [done|done| |].
    + intros irq Hi Hne. rewrite orb_false_r. by apply pics_vector.
    + intros _ irq Hi. rewrite R by lia. unfold IRQ_IDE, IRQ_COM1, IRQ_KBD, devices in *. destruct (decide (irq = 14)) as [->|N1]; [by destruct uart|].
      rewrite fn_lookup_insert_ne, (proj2 (Z.eqb_neq _ _) N1) by done. destruct (decide (irq = 1)) as [->|N2]; [by destruct uart|].
      destruct uart; [destruct (decide (irq = 4)) as [->|N3]; [done|rewrite fn_lookup_insert_ne by done]|];
        rewrite fn_lookup_insert_ne by done; (rewrite bool_decide_false; [done|set_solver]).
  - destruct (timerinit_irqs _ _ _ _ s7 I7) as (s8 & E8 & [J1 J2 J3 J4]). exists s8. split_and!; [done|done| |done].
    intros irq Hi Hne. rewrite (pics_vector _ _ _ J1 Hi Hne). destruct (Z.eqb_spec irq IRQ_TIMER) as [->|Ht].
    + by rewrite bool_decide_true, orb_true_r by (by left).
    + rewrite orb_false_r. erewrite bool_decide_ext; [done|]. rewrite elem_of_cons. tauto.
Qed.

Definition no_chip : chip := Chip Ready 0 0 0 0 0 false.

Lemma irqs_delivered_witness : exists s', irq_boot true 2 (Irqs no_chip no_chip 65531 0 (fun r => if r =? 1 then 1507328 else 0) None [] true) = Ret tt s' /\
  pic_vector s' 14 = Some 46 /\ ioapic_route s' 14 = Some (46, 1) /\ ioapic_route s' 3 = None.
Proof.
  destruct (irqs_delivered true 2 (Irqs no_chip no_chip 65531 0 (fun r => if r =? 1 then 1507328 else 0) None [] true)) as (s' & E & _ & H1 & H2);
    [done|lia|]. exists s'. split; [exact E|]. clear E. specialize (H1 14 ltac:(lia) ltac:(done)).
  pose proof (H2 eq_refl 14 ltac:(by vm_compute)) as H3. pose proof (H2 eq_refl 3 ltac:(by vm_compute)) as H4.
  split; [exact H1|]. split; [exact H3|exact H4].
Defined.
