(* ===== verification/Umalloc.v ===== *)
(** The user-level memory allocator (umalloc.c): Kernighan and Ritchie's circular
    list of free blocks, threaded through the headers of the blocks. *)
From S2P Require Import Prelude Kalloc.

(** ** Memory

    Memory as headers: eight bytes at a time, a pointer and a size in units of a
    header. [u_brk] is the size of the process; an access past it faults. *)
Record ust := Ust { u_mem : Z -> Z * Z; u_freep : Z; u_brk : Z }.

Definition hsz : Z := 8.

Definition set_header (p : Z) (h : Z * Z) (σ : ust) : ust := Ust (<[p := h]> (u_mem σ)) (u_freep σ) (u_brk σ).
Definition set_freep (p : Z) (σ : ust) : ust := Ust (u_mem σ) p (u_brk σ).
Definition set_brk (b : Z) (σ : ust) : ust := Ust (u_mem σ) (u_freep σ) b.

(** Headers are aligned: the model does not split them. *)
Definition mapped (p : Z) (σ : ust) : bool := (0 <=? p) && (p + hsz <=? u_brk σ) && (p `mod` hsz =? 0).

(** [*p] and stores to [p->s.ptr] and [p->s.size]. *)
Definition header (p : Z) : K ust (Z * Z) := fun σ => if mapped p σ then Ret (u_mem σ p) σ else Undef "umalloc: page fault".
Definition set_ptr (p v : Z) : K ust unit := let! h := header p in modify (set_header p (v, h.2)).
Definition set_size (p v : Z) : K ust unit := let! h := header p in modify (set_header p (h.1, v)).

(** [p + n] for a [Header *p]. *)
Definition hadd (p n : Z) : Z := u32 (p + hsz * n).

(** What the allocator asks of [sbrk]: it fails and changes nothing, or it returns
    the old size of the process, which then is [n] bytes larger and still below
    the kernel. *)
Class Sbrk := {
  sbrk : Z -> K ust Z;
  sbrk_spec n σ : sbrk n σ = Ret (-1) σ \/ u_brk σ + n < KERNBASE /\ sbrk n σ = Ret (u_brk σ) (set_brk (u_brk σ + n) σ)
}.

(** A list of free blocks has no more nodes than there are headers in memory. *)
Definition list_bound (σ : ust) : nat := S (Z.to_nat (u_brk σ / hsz)).

Section umalloc.
Context (base : Z) {SB : Sbrk}.

(** ** free *)

(** The loop of [free]: the final [p]. *)
Fixpoint free_scan (fuel : nat) (bp p : Z) : K ust Z :=
  match fuel with
  | O => nofuel
  | S f =>
    let! h := header p in
    if (p <? bp) && (bp <? h.1) then ret p
    else if (h.1 <=? p) && ((p <? bp) || (bp <? h.1)) then ret p
    else free_scan f bp h.1
  end.

(** The block at [bp] goes in after [p]. *)
Definition join_next (bp p : Z) : K ust unit :=
  let! h := header p in
  let! b := header bp in
  if hadd bp b.2 =? h.1 then
    let! n := header h.1 in
    set_size bp (u32 (b.2 + n.2));;;
    set_ptr bp n.1
  else set_ptr bp h.1.

Definition join_prev (bp p : Z) : K ust unit :=
  let! h := header p in
  let! b := header bp in
  if hadd p h.2 =? bp then
    set_size p (u32 (h.2 + b.2));;;
    set_ptr p b.1
  else set_ptr p bp.

Definition free (ap : Z) : K ust unit :=
  let bp := u32 (ap - hsz) in
  let! σ := get in
  let! p := free_scan (list_bound σ) bp (u_freep σ) in
  join_next bp p;;;
  join_prev bp p;;;
  modify (set_freep p).

(** ** malloc *)

(** A null pointer is 0. *)
Definition morecore (nu : Z) : K ust Z :=
  let nu := if nu <? 4096 then 4096 else nu in
  let! p := sbrk (s32 (nu * hsz)) in
  if p =? -1 then ret 0
  else
    set_size p nu;;;
    free (hadd p 1);;;
    gets u_freep.

(** Take [nunits] from the block at [p]. *)
Definition carve (nunits prevp p : Z) : K ust Z :=
  let! h := header p in
  let! q :=
    if h.2 =? nunits then set_ptr prevp h.1;;; ret p
    else
      set_size p (u32 (h.2 - nunits));;;
      let q := hadd p (u32 (h.2 - nunits)) in
      set_size q nunits;;;
      ret q in
  modify (set_freep prevp);;;
  ret (hadd q 1).

Fixpoint malloc_loop (fuel : nat) (nunits prevp p : Z) : K ust Z :=
  match fuel with
  | O => nofuel
  | S f =>
    let! h := header p in
    if nunits <=? h.2 then carve nunits prevp p
    else
      let next p := let! h := header p in malloc_loop f nunits p h.1 in
      let! freep := gets u_freep in
      if p =? freep then
        let! p := morecore nunits in
        if p =? 0 then ret 0 else next p
      else next p
  end.

Definition units (nbytes : Z) : Z := u32 (u32 (nbytes + hsz - 1) / hsz + 1).

(** The loop goes round the list at most once before and once after [morecore]. *)
Definition malloc (nbytes : Z) : K ust Z :=
  let nunits := units nbytes in
  let! freep := gets u_freep in
  when (freep =? 0) (
    set_ptr base base;;; modify (set_freep base);;; set_size base 0);;;
  let! σ := get in
  let! h := header (u_freep σ) in
  malloc_loop (2 * list_bound σ + Z.to_nat (Z.max nunits 4096) + 2) nunits (u_freep σ) h.1.

End umalloc.
