(* ===== verification/UmallocThms.v ===== *)
(** The user-level allocator is correct: the circular free list stays sorted and
    coalesced, the loops over it end, blocks in use are disjoint and untouched, and
    no memory is lost. *)
From stdpp Require Import sorting.
From S2P Require Import Prelude Kalloc Umalloc.

(** ** Lists of blocks

    A block is its address and its size in units. [seg m l e]: the headers of [l] are
    linked in this order and the last one points to [e]. *)
Definition first (l : list (Z * Z)) (e : Z) : Z := match l with [] => e | (a, _) :: _ => a end.

Fixpoint seg (m : Z -> Z * Z) (l : list (Z * Z)) (e : Z) : Prop :=
  match l with
  | [] => True
  | (a, s) :: l => m a = (first l e, s) /\ seg m l e
  end.

(** In increasing order, with a gap between any two. *)
Definition before (b c : Z * Z) : Prop := b.1 + hsz * b.2 < c.1.
Abbreviation spaced := (StronglySorted before).

Definition bytes_of (b : Z * Z) (x : Z) : Prop := b.1 <= x < b.1 + hsz * b.2.
Definition covers (l : list (Z * Z)) (x : Z) : Prop := Exists (fun b => bytes_of b x) l.

Lemma first_app l1 l2 e : first (l1 ++ l2) e = first l1 (first l2 e).
Proof. by destruct l1 as [|[]]. Qed.

Lemma seg_app m l1 l2 e : seg m (l1 ++ l2) e <-> seg m l1 (first l2 e) /\ seg m l2 e.
Proof.
  induction l1 as [|[a s] l1 IH]; cbn; [by split; [|intros [_ ?]]|]. rewrite IH, first_app. naive_solver.
Qed.

(** Only the headers of the list matter. *)
Lemma seg_ext m m' l e : (forall a s, (a, s) ∈ l -> m' a = m a) -> seg m l e -> seg m' l e.
Proof.
  induction l as [|[a s] l IH]; cbn; [done|]. intros Hm [Ha Hl]. split.
  - rewrite (Hm a s) by set_solver. done.
  - apply IH; [|done]. intros. apply (Hm _ s0). set_solver.
Qed.

Lemma seg_insert m l e p h : (forall s, (p, s) ∉ l) -> seg m l e -> seg (<[p := h]> m) l e.
Proof. intros Hp. apply seg_ext. intros a s Ha. apply fn_lookup_insert_ne. intros <-. by apply (Hp s). Qed.

(** ** Accesses *)

Section umalloc.
Context (base : Z) {SB : Sbrk}.

Lemma header_eq p σ : mapped p σ = true -> header p σ = Ret (u_mem σ p) σ.
Proof. intros Hp. unfold header. by rewrite Hp. Qed.

Lemma set_ptr_eq p v σ : mapped p σ = true -> set_ptr p v σ = Ret tt (set_header p (v, (u_mem σ p).2) σ).
Proof. intros Hp. unfold set_ptr, bind. by rewrite header_eq. Qed.

Lemma set_size_eq p v σ : mapped p σ = true -> set_size p v σ = Ret tt (set_header p ((u_mem σ p).1, v) σ).
Proof. intros Hp. unfold set_size, bind. by rewrite header_eq. Qed.

Lemma mapped_true p σ : mapped p σ = true <-> 0 <= p /\ p + hsz <= u_brk σ /\ p `mod` hsz = 0.
Proof. unfold mapped. rewrite !andb_true_iff, !Z.leb_le, Z.eqb_eq. tauto. Qed.

(** ** The loop of free *)

Lemma scan_low σ bp p sz post : p < bp -> base <= p -> Forall (fun b => bp < b.1) post -> seg (u_mem σ) ((p, sz) :: post) base ->
  mapped p σ = true -> forall B fuel, Forall (fun b => b.1 < p /\ mapped b.1 σ = true) B -> spaced B ->
  seg (u_mem σ) B p -> Forall (fun b => 0 <= b.2) B -> (length B < fuel)%nat ->
  free_scan fuel bp (first B p) σ = Ret p σ.
Proof.
  intros Hp Hb Hpost [Hm _] Hmp. induction B as [|[k s] B IH]; intros [|f] HB Hsp Hsg Hs Hf; cbn [length] in Hf; try lia.
  - cbn [first free_scan]. rewrite (bind_eq _ _ _ _ _ (header_eq p σ Hmp)), Hm. cbn [fst].
    destruct post as [|[q t] post]; cbn [first].
    + rewrite (proj2 (Z.ltb_ge bp base)), andb_false_r, (proj2 (Z.leb_le base p)), (proj2 (Z.ltb_lt p bp)) by lia. done.
    + apply Forall_cons in Hpost as [Hq _]. cbn in Hq. by rewrite (proj2 (Z.ltb_lt p bp)), (proj2 (Z.ltb_lt bp q)) by lia.
  - apply Forall_cons in HB as [[Hk Hmk] HB]. apply StronglySorted_cons in Hsp as [Hlt Hsp]. destruct Hsg as [Hmem Hsg].
    apply Forall_cons in Hs as [Hs0 Hs]. cbn in Hk, Hmk, Hs0. cbn [first free_scan].
    rewrite (bind_eq _ _ _ _ _ (header_eq k σ Hmk)), Hmem. cbn [fst].
    assert (k < first B p <= p) as Hn.
    { destruct B as [|[q t] B]; cbn [first]; [lia|]. apply Forall_cons in HB as [[Hq _] _]. apply Forall_cons in Hlt as [Hlt _].
      unfold before, hsz in Hlt. cbn in *. lia. }
    rewrite (proj2 (Z.ltb_ge bp _)), andb_false_r, (proj2 (Z.leb_gt _ _)) by lia. cbn [andb]. apply IH; try done. lia.
Qed.

Lemma scan_high σ bp : base < bp -> forall C f, Forall (fun b => bp < b.1 /\ mapped b.1 σ = true) C -> spaced C ->
  seg (u_mem σ) C base -> Forall (fun b => 0 <= b.2) C ->
  free_scan (length C + f) bp (first C base) σ = free_scan f bp base σ.
Proof.
  intros Hb. induction C as [|[k s] C IH]; intros f HC Hsp Hsg Hs; [done|].
  apply Forall_cons in HC as [[Hk Hmk] HC]. apply StronglySorted_cons in Hsp as [Hlt Hsp]. destruct Hsg as [Hmem Hsg].
  apply Forall_cons in Hs as [Hs0 Hs]. cbn in Hk, Hmk, Hs0. cbn [first length Nat.add free_scan].
  rewrite (bind_eq _ _ _ _ _ (header_eq k σ Hmk)), Hmem. cbn [fst].
  rewrite (proj2 (Z.ltb_ge k bp)) by lia. cbn [andb orb].
  replace ((first C base <=? k) && (bp <? first C base)) with false; [by apply IH|].
  destruct C as [|[q t] C]; cbn [first]; [by rewrite (proj2 (Z.ltb_ge bp base)), andb_false_r by lia|].
  apply Forall_cons in Hlt as [Hlt _]. unfold before, hsz in Hlt. cbn in Hlt. by rewrite (proj2 (Z.leb_gt q k)) by lia.
Qed.

(** ** The free list *)

Definition good (σ : ust) (b : Z * Z) : Prop :=
  base + hsz <= b.1 /\ b.1 `mod` hsz = 0 /\ 0 < b.2 /\ b.1 + hsz * b.2 <= u_brk σ.

Record free_list (σ : ust) (fl : list (Z * Z)) : Prop := FreeList {
  fl_base : 0 < base /\ base `mod` hsz = 0 /\ base + hsz <= u_brk σ;
  fl_brk : u_brk σ < KERNBASE /\ u_brk σ `mod` hsz = 0;
  fl_ring : seg (u_mem σ) ((base, 0) :: fl) base;
  fl_spaced : spaced ((base, 0) :: fl);
  fl_good : Forall (good σ) fl;
  fl_freep : exists s, (u_freep σ, s) ∈ (base, 0) :: fl }.

(** Every node, the base included. *)
Lemma node_spec σ fl a s : free_list σ fl -> (a, s) ∈ (base, 0) :: fl -> mapped a σ = true /\ 0 <= s /\ base <= a /\ a `mod` hsz = 0 /\
  a + hsz * s <= u_brk σ.
Proof.
  intros [(Hb & Hal & Hbb) _ _ _ Hg _] [Heq|Hin]%elem_of_cons.
  - injection Heq as -> ->. rewrite mapped_true. unfold hsz in *. lia.
  - rewrite Forall_forall in Hg. destruct (Hg _ Hin) as (H1 & H2 & H3 & H4). cbn in *. rewrite mapped_true. unfold hsz in *. lia.
Qed.

Lemma aligned_gap a b : a `mod` hsz = 0 -> b `mod` hsz = 0 -> a < b -> a + hsz <= b.
Proof.
  unfold hsz. intros Ha Hb Hab. apply Z.mod_divide in Ha as [x ->], Hb as [y ->]; lia.
Qed.

Lemma length_bound l brk : forall lo, lo `mod` hsz = 0 -> lo <= brk -> spaced l ->
  Forall (fun b => lo <= b.1 /\ b.1 `mod` hsz = 0 /\ b.1 + hsz <= brk /\ 0 <= b.2) l -> hsz * Z.of_nat (length l) <= brk - lo.
Proof.
  induction l as [|[a s] l IH]; intros lo Hlo Hbrk Hsp Hl; [cbn; lia|]. apply StronglySorted_cons in Hsp as [Hlt Hsp].
  apply Forall_cons in Hl as [(H1 & H2 & H3 & H4) Hl]. cbn [fst snd] in *.
  assert (hsz * Z.of_nat (length l) <= brk - (a + hsz)) as HH; [|cbn [length]; unfold hsz in *; lia].
  apply IH; [|lia|done|].
  - unfold hsz in *. rewrite <-(Z.mul_1_l 8) at 1. by rewrite Z_mod_plus_full.
  - rewrite Forall_forall in *. intros b Hb. destruct (Hl b Hb) as (? & ? & ? & ?). specialize (Hlt b Hb). unfold before in Hlt. cbn in Hlt.
    split_and!; [|done..]. apply aligned_gap; [done..|unfold hsz in *; lia].
Qed.

Lemma list_bound_enough σ fl : free_list σ fl -> (S (length fl) < list_bound σ)%nat.
Proof.
  intros H. pose proof (fl_base _ _ H) as (Hb & Hal & Hbb).
  assert (hsz * Z.of_nat (length ((base, 0) :: fl)) <= u_brk σ - base) as Hl.
  { apply length_bound; [done|unfold hsz in *; lia|apply (fl_spaced _ _ H)|]. apply Forall_forall. intros [a s] Hin.
    destruct (node_spec _ _ _ _ H Hin) as (Hm & ? & ? & ? & ?). apply mapped_true in Hm. cbn. lia. }
  unfold list_bound. cbn [length] in Hl. assert (Z.of_nat (S (length fl)) <= u_brk σ / hsz); [|lia].
  apply Z.div_le_lower_bound; unfold hsz in *; lia.
Qed.

(** Where an address that is not in the list belongs. *)
Lemma split_at bp l : spaced l -> Forall (fun b => 0 <= b.2 /\ b.1 <> bp) l -> match l with [] => False | b :: _ => b.1 < bp end ->
  exists pre p sz post, l = pre ++ (p, sz) :: post /\ p < bp /\ Forall (fun b => bp < b.1) post.
Proof.
  induction l as [|[a s] l IH]; intros Hsp Hl Ha; [done|]. apply StronglySorted_cons in Hsp as [Hlt Hsp].
  apply Forall_cons in Hl as [[Hs _] Hl]. cbn in Ha, Hs. destruct l as [|[b t] l]; [by exists [], a, s, []|].
  pose proof Hl as [[Ht Hb] _]%Forall_cons. cbn in Ht, Hb. destruct (decide (b < bp)) as [Hbp|Hbp].
  - destruct (IH Hsp Hl Hbp) as (pre & p & sz & post & -> & Hp & Hpost). by exists ((a, s) :: pre), p, sz, post.
  - exists [], a, s, ((b, t) :: l). split_and!; [done..|]. apply StronglySorted_cons in Hsp as [Hltb _].
    constructor; [cbn; lia|]. eapply Forall_impl; [exact Hltb|]. unfold before, hsz. intros c. cbn. lia.
Qed.

Lemma scan_spec σ fl bp : free_list σ fl -> base < bp -> Forall (fun b => b.1 <> bp) fl -> exists pre p sz post,
  (base, 0) :: fl = pre ++ (p, sz) :: post /\ p < bp /\ Forall (fun b => bp < b.1) post /\
  free_scan (list_bound σ) bp (u_freep σ) σ = Ret p σ.
Proof.
  intros H Hbp Hne. pose proof (fl_spaced _ _ H) as Hsp. pose proof (list_bound_enough _ _ H) as Hlen.
  assert (Forall (fun b => mapped b.1 σ = true /\ 0 <= b.2 /\ base <= b.1) ((base, 0) :: fl)) as Hall.
  { apply Forall_forall. intros [a s] Hin. by destruct (node_spec _ _ _ _ H Hin) as (? & ? & ? & _). }
  destruct (split_at bp ((base, 0) :: fl) Hsp) as (pre & p & sz & post & E & Hp & Hpost); [|done|].
  { constructor; [cbn; lia|]. apply Forall_cons in Hall as [_ Hall]. rewrite Forall_forall in *. naive_solver. }
  exists pre, p, sz, post. split_and!; [done..|]. pose proof (fl_ring _ _ H) as Hring. destruct (fl_freep _ _ H) as [s Hfp].
  pose proof (f_equal length E) as El. cbn [length] in El. rewrite El, length_app in Hlen. cbn [length] in Hlen. rewrite E in *. apply seg_app in Hring as [Hr1 Hr2]. cbn [first] in Hr1.
  apply StronglySorted_app in Hsp as (Hcross & Hsp1 & Hsp2). apply Forall_app in Hall as [Ha1 Ha2]. apply Forall_cons in Ha2 as [(Hmp & _ & Hbase) Ha2].
  assert (Forall (fun b => b.1 < p /\ mapped b.1 σ = true) pre) as Hpre.
  { rewrite Forall_forall in *. intros b Hb. destruct (Ha1 b Hb) as (? & ? & ?). split; [|done].
    specialize (Hcross b (p, sz) Hb ltac:(set_solver)). unfold before, hsz in Hcross. cbn in Hcross. lia. }
  assert (forall B fuel A, pre = A ++ B -> (length B < fuel)%nat -> free_scan fuel bp (first B p) σ = Ret p σ) as Hlow.
  { intros B fuel A ->. apply Forall_app in Hpre as [_ HB], Ha1 as [_ HB']. apply StronglySorted_app in Hsp1 as (_ & _ & HspB).
    apply seg_app in Hr1 as [_ HsB]. intros HfB. apply (scan_low _ _ _ sz post); try done. eapply Forall_impl; [exact HB'|]. naive_solver. }
  apply elem_of_app in Hfp as [Hfp|Hfp].
  - apply list_elem_of_split in Hfp as (A & B & HAB). rewrite HAB, length_app in Hlen. cbn [length] in Hlen.
    apply (Hlow ((u_freep σ, s) :: B) _ A); [done|cbn; lia].
  - apply elem_of_cons in Hfp as [[= -> _]|Hfp]; [apply (Hlow [] _ pre); [by rewrite app_nil_r|cbn; lia]|].
    apply list_elem_of_split in Hfp as (A & B & HAB). set (C := (u_freep σ, s) :: B) in *.
    assert (first C base = u_freep σ) as <- by done. subst post.
    apply StronglySorted_cons in Hsp2 as [_ Hsp2]. apply StronglySorted_app in Hsp2 as (_ & _ & HspC).
    destruct Hr2 as [_ Hr2]. apply seg_app in Hr2 as [_ HsC]. apply Forall_app in Ha2 as [_ HaC], Hpost as [_ HpC].
    rewrite length_app in Hlen. replace (list_bound σ) with (length C + (list_bound σ - length C))%nat by lia.
    rewrite (scan_high σ bp Hbp C); [|rewrite Forall_forall in *; naive_solver|done|done|rewrite Forall_forall in *; naive_solver].
    assert (base = first pre p) as ->. { destruct pre as [|[] ?]; cbn in E; by injection E. }
    apply (Hlow pre _ []); [done|lia].
Qed.

(** ** free *)

Lemma hadd_eq p n : 0 <= p + hsz * n < 4294967296 -> hadd p n = p + hsz * n.
Proof. intros Hp. unfold hadd. by apply u32_small. Qed.

(** [σ'] is [σ] but for the header at [p]. *)
Definition stored (p : Z) (h : Z * Z) (σ σ' : ust) : Prop :=
  u_brk σ' = u_brk σ /\ u_freep σ' = u_freep σ /\ u_mem σ' p = h /\ forall x, x <> p -> u_mem σ' x = u_mem σ x.

Lemma stored_mapped p h σ σ' x : stored p h σ σ' -> mapped x σ' = mapped x σ.
Proof. intros (Hb & _). unfold mapped. by rewrite Hb. Qed.

Lemma stored_one p h σ : stored p h σ (set_header p h σ).
Proof. split_and!; [done..|apply fn_lookup_insert|]. intros x Hx. by apply fn_lookup_insert_ne. Qed.

Lemma stored_twice p h1 h2 σ : stored p h2 σ (set_header p h2 (set_header p h1 σ)).
Proof.
  split_and!; [done..|apply fn_lookup_insert|]. intros x Hx. cbn. by rewrite !fn_lookup_insert_ne.
Qed.

Lemma seg_stored l e p h σ σ' : stored p h σ σ' -> (forall s, (p, s) ∉ l) -> seg (u_mem σ) l e -> seg (u_mem σ') l e.
Proof. intros (_ & _ & _ & Hm) Hp. apply seg_ext. intros a s Ha. apply Hm. intros ->. by apply (Hp s). Qed.

Lemma covers_cons b l x : covers (b :: l) x <-> bytes_of b x \/ covers l x.
Proof. apply Exists_cons. Qed.
Lemma covers_app l1 l2 x : covers (l1 ++ l2) x <-> covers l1 x \/ covers l2 x.
Proof. apply Exists_app. Qed.

(** A block of size [s] at [bp], not linked yet, before the blocks of [post]. *)
Record loose (σ : ust) (bp s : Z) (post : list (Z * Z)) : Prop := Loose {
  lo_good : good σ (bp, s);
  lo_size : (u_mem σ bp).2 = s;
  lo_post : Forall (fun b => good σ b /\ bp + hsz * s <= b.1) post;
  lo_spaced : spaced post;
  lo_seg : seg (u_mem σ) post base }.

Lemma join_next_spec σ bp s p sz post : 0 < base -> loose σ bp s post -> u_mem σ p = (first post base, sz) -> mapped p σ = true -> u_brk σ < KERNBASE ->
  exists σ' s' post', join_next bp p σ = Ret tt σ' /\ stored bp (first post' base, s') σ σ' /\ s <= s' /\ good σ (bp, s') /\
    spaced ((bp, s') :: post') /\ seg (u_mem σ) post' base /\ (forall b, b ∈ post' -> b ∈ post) /\
    forall x, covers ((bp, s') :: post') x <-> covers ((bp, s) :: post) x.
Proof.
  intros Hbase [Hg Hsz Hpost Hsp Hseg] Hp Hmp Hbrk. pose proof Hg as (G1 & G2 & G3 & G4). cbn [fst snd] in *.
  assert (mapped bp σ = true) as Hmb by (apply mapped_true; unfold hsz in *; lia).
  unfold join_next. rewrite (bind_eq _ _ _ _ _ (header_eq p σ Hmp)), (bind_eq _ _ _ _ _ (header_eq bp σ Hmb)), Hp, Hsz. cbn [fst].
  rewrite hadd_eq by (unfold KERNBASE, hsz in *; lia).
  destruct (Z.eqb_spec (bp + hsz * s) (first post base)) as [Hj|Hj].
  - destruct post as [|[q t] post]; cbn [first] in *; [unfold hsz in *; lia|].
    apply Forall_cons in Hpost as [[(Q1 & Q2 & Q3 & Q4) Hq] Hpost]. apply StronglySorted_cons in Hsp as [Hlt Hsp]. destruct Hseg as [Hmq Hseg]. cbn [fst snd] in *.
    assert (mapped q σ = true) as Hmq' by (apply mapped_true; unfold hsz in *; lia).
    rewrite (bind_eq _ _ _ _ _ (header_eq q σ Hmq')), Hmq. cbn [fst snd]. rewrite u32_small by (unfold KERNBASE, hsz in *; lia).
    rewrite (bind_eq _ _ _ _ _ (set_size_eq bp _ σ Hmb)), set_ptr_eq by done.
    eexists _, (s + t), post. split; [reflexivity|]. split.
    { cbn [u_mem set_header]. rewrite fn_lookup_insert. apply stored_twice. }
    split; [lia|]. split; [split_and!; cbn [fst snd]; unfold hsz in *; lia|]. split.
    { constructor; [done|]. eapply Forall_impl; [exact Hlt|]. unfold before, hsz in *. intros b. cbn. lia. }
    split; [done|]. split; [set_solver|]. intros x. rewrite !covers_cons. unfold bytes_of, hsz in *. cbn [fst snd]. intuition lia.
  - rewrite set_ptr_eq by done. eexists _, s, post. split; [reflexivity|]. rewrite Hsz. split; [apply stored_one|].
    split_and!; [lia|done| |done|done|done]. constructor; [done|]. destruct post as [|[q t] post]; [constructor|].
    cbn [first] in Hj. apply Forall_cons in Hpost as [[(Q1 & Q2 & Q3 & Q4) Hq] Hpost]. apply StronglySorted_cons in Hsp as [Hlt _].
    constructor; [unfold before; cbn in *; lia|]. eapply Forall_impl; [exact Hlt|]. unfold before, hsz in *. intros b. cbn in *. lia.
Qed.

Lemma join_prev_spec σ bp s nx p sz : mapped bp σ = true -> mapped p σ = true -> (u_mem σ p).2 = sz -> u_mem σ bp = (nx, s) ->
  0 <= sz -> 0 <= s -> p + hsz * sz <= bp -> bp + hsz * s < KERNBASE ->
  exists σ', join_prev bp p σ = Ret tt σ' /\
    stored p (if p + hsz * sz =? bp then (nx, sz + s) else (bp, sz)) σ σ'.
Proof.
  intros Hmb Hmp Hp Hb Hsz Hs Hle Hlt. apply mapped_true in Hmp as Hmp'. apply mapped_true in Hmb as Hmb'. unfold join_prev.
  rewrite (bind_eq _ _ _ _ _ (header_eq p σ Hmp)), (bind_eq _ _ _ _ _ (header_eq bp σ Hmb)), Hp, Hb. cbn [fst snd].
  rewrite hadd_eq by (unfold KERNBASE, hsz in *; lia). destruct (p + hsz * sz =? bp).
  - rewrite u32_small by (unfold KERNBASE, hsz in *; lia). rewrite (bind_eq _ _ _ _ _ (set_size_eq p _ σ Hmp)), set_ptr_eq by done.
    eexists. split; [reflexivity|]. cbn [u_mem set_header]. rewrite fn_lookup_insert. apply stored_twice.
  - rewrite set_ptr_eq by done. eexists. split; [reflexivity|]. rewrite Hp. apply stored_one.
Qed.

(** A block that can be freed: it is not in the list, and its header is right. *)
Definition freeable (σ : ust) (fl : list (Z * Z)) (bp s : Z) : Prop :=
  good σ (bp, s) /\ (u_mem σ bp).2 = s /\ Forall (fun b => b.1 + hsz * b.2 <= bp \/ bp + hsz * s <= b.1) fl.

(** The list around the place of a block that is freed. *)
Lemma freeable_place σ fl bp s pre p sz post : free_list σ fl -> freeable σ fl bp s ->
  (base, 0) :: fl = pre ++ (p, sz) :: post -> p < bp -> Forall (fun b => bp < b.1) post ->
  p + hsz * sz <= bp /\ (p = base -> pre = [] /\ sz = 0) /\ loose σ bp s post /\ seg (u_mem σ) pre p /\
  (u_mem σ p) = (first post base, sz) /\ mapped p σ = true /\ 0 <= sz /\ base <= p.
Proof.
  intros H (Hg & Hs & Hdis) E Hp Hpost. pose proof (fl_ring _ _ H) as Hring. pose proof (fl_spaced _ _ H) as Hsp.
  rewrite E in Hring, Hsp. apply seg_app in Hring as [Hr1 [Hmp Hr2]]. apply StronglySorted_app in Hsp as (Hcross & Hsp1 & Hsp2).
  destruct (node_spec _ _ p sz H) as (Hm & Hsz & Hbp & _); [rewrite E; set_solver|].
  apply StronglySorted_cons in Hsp2 as [Hltp Hsp2].
  assert (forall b, b ∈ post -> b ∈ fl) as Hin.
  { intros b Hb. assert (b ∈ (base, 0) :: fl) as [->|]%elem_of_cons by (rewrite E; set_solver); [|done].
    rewrite Forall_forall in Hltp. specialize (Hltp _ Hb). unfold before, hsz in Hltp. cbn in Hltp. lia. }
  assert (p = base -> pre = [] /\ sz = 0) as Hpb.
  { intros ->. destruct pre as [|[a t] pre]; cbn in E; [by injection E as ->|]. injection E as <- <- _.
    specialize (Hcross (base, 0) (base, sz) ltac:(set_solver) ltac:(set_solver)). unfold before, hsz in Hcross. cbn in Hcross. lia. }
  split_and!; try done.
  - destruct (decide (p = base)) as [->|Hne]; [destruct (Hpb eq_refl) as [_ ->]; unfold hsz; lia|].
    assert ((p, sz) ∈ fl) as Hpf. { assert ((p, sz) ∈ (base, 0) :: fl) as [[=]|]%elem_of_cons by (rewrite E; set_solver); done. }
    rewrite Forall_forall in Hdis. destruct (Hdis _ Hpf) as [Hd|Hd]; cbn in Hd; [done|]. destruct Hg as (_ & _ & Hg & _). cbn in Hg. unfold hsz in *. lia.
  - constructor; [done..| |done|done]. apply Forall_forall. intros b Hb. pose proof (fl_good _ _ H) as Hgd.
    rewrite Forall_forall in Hgd, Hdis, Hpost. pose proof (Hin b Hb) as Hbf. split; [by apply Hgd|].
    destruct (Hdis _ Hbf) as [Hd|Hd]; [|done]. specialize (Hpost b Hb). cbn in Hpost. destruct (Hgd _ Hbf) as (_ & _ & Hbs & _). unfold hsz in *. lia.
Qed.

Lemma covers_base l x : covers ((base, 0) :: l) x <-> covers l x.
Proof. rewrite covers_cons. unfold bytes_of, hsz. cbn. split; [intros [?|?]; [lia|done]|by right]. Qed.

(** A free list from all its nodes. *)
Lemma free_list_intro σ l : match l with [] => False | b :: _ => b = (base, 0) end ->
  0 < base -> base `mod` hsz = 0 -> base + hsz <= u_brk σ -> u_brk σ < KERNBASE -> u_brk σ `mod` hsz = 0 ->
  seg (u_mem σ) l base -> spaced l -> Forall (fun b => b = (base, 0) \/ good σ b) l -> (exists s, (u_freep σ, s) ∈ l) ->
  exists fl, l = (base, 0) :: fl /\ free_list σ fl.
Proof.
  destruct l as [|b fl]; [done|]. intros -> H1 H2 H3 H4 H5 H6 H7 H8 H9. exists fl. split; [done|]. split; try done.
  apply Forall_cons in H8 as [_ H8]. apply StronglySorted_cons in H7 as [H7 _]. rewrite Forall_forall in *.
  intros b Hb. destruct (H8 b Hb) as [->|]; [|done]. specialize (H7 _ Hb). unfold before, hsz in H7. cbn in H7. lia.
Qed.

(** The new list around [p] after both joins. *)
Definition rejoined (pre : list (Z * Z)) (p sz bp s : Z) (post : list (Z * Z)) : list (Z * Z) :=
  pre ++ (if p + hsz * sz =? bp then (p, sz + s) :: post else (p, sz) :: (bp, s) :: post).

Lemma rejoined_spaced pre p sz bp s post : p + hsz * sz <= bp -> 0 <= sz -> 0 <= s -> spaced (pre ++ [(p, sz)]) -> spaced ((bp, s) :: post) ->
  spaced (rejoined pre p sz bp s post).
Proof.
  intros Hle Hsz Hs (Hcross & Hpre & _)%StronglySorted_app [Hlt Hpost]%StronglySorted_cons. unfold rejoined.
  assert (forall b, b ∈ pre -> before b (p, sz)) as Hbp by (intros b Hb; apply Hcross; set_solver).
  assert (forall b, b ∈ post -> bp + hsz * s < b.1) as Hpo by (rewrite Forall_forall in Hlt; exact Hlt).
  apply StronglySorted_app. unfold before, hsz in *. destruct (Z.eqb_spec (p + 8 * sz) bp) as [Hj|Hj].
  - split_and!; [|done|].
    + intros b c Hb [->|Hc]%elem_of_cons; [by apply Hbp|]. specialize (Hbp b Hb). specialize (Hpo c Hc). cbn in *. lia.
    + constructor; [done|]. apply Forall_forall. intros c Hc. specialize (Hpo c Hc). cbn in *. lia.
  - split_and!; [|done|].
    + intros b c Hb [->|[->|Hc]%elem_of_cons]%elem_of_cons; specialize (Hbp b Hb); cbn in *; [done|lia|]. specialize (Hpo c Hc). lia.
    + constructor; [by constructor|]. constructor; [cbn; lia|]. apply Forall_forall. intros c Hc. specialize (Hpo c Hc). cbn in *. lia.
Qed.

Lemma rejoined_covers pre p sz bp s post x : p + hsz * sz <= bp -> 0 <= sz -> 0 <= s ->
  covers (rejoined pre p sz bp s post) x <-> covers pre x \/ bytes_of (p, sz) x \/ covers ((bp, s) :: post) x.
Proof.
  intros Hle Hsz Hs. unfold rejoined. rewrite covers_app. destruct (Z.eqb_spec (p + hsz * sz) bp) as [Hj|Hj];
    rewrite !covers_cons; unfold bytes_of, hsz in *; cbn [fst snd]; intuition lia.
Qed.

Lemma rejoined_seg σ1 σ2 pre p sz bp s post nx : seg (u_mem σ1) pre p -> (forall b, b ∈ pre -> b.1 < p) -> p < bp ->
  u_mem σ1 bp = (first post base, s) -> seg (u_mem σ1) post base -> (forall b, b ∈ post -> bp < b.1) -> nx = first post base ->
  stored p (if p + hsz * sz =? bp then (nx, sz + s) else (bp, sz)) σ1 σ2 ->
  seg (u_mem σ2) (rejoined pre p sz bp s post) base.
Proof.
  intros Hpre Hlt Hp Hbp Hpost Hgt -> Hst. pose proof Hst as (_ & _ & Hm & Ho). unfold rejoined. apply seg_app.
  assert (seg (u_mem σ2) pre p) as Hpre2. { eapply seg_stored; [done| |done]. intros t Ht. specialize (Hlt _ Ht). cbn in Hlt. lia. }
  assert (seg (u_mem σ2) post base) as Hpost2. { eapply seg_stored; [done| |done]. intros t Ht. specialize (Hgt _ Ht). cbn in Hgt. lia. }
  destruct (p + hsz * sz =? bp); cbn [seg first]; split_and!; try done. by rewrite Ho by lia.
Qed.

Lemma rejoined_good σ fl pre p sz bp s post post' : free_list σ fl -> (base, 0) :: fl = pre ++ (p, sz) :: post ->
  (forall b, b ∈ post' -> b ∈ post) -> good σ (bp, s) ->
  Forall (fun b => b = (base, 0) \/ good σ b) (rejoined pre p sz bp s post').
Proof.
  intros H E Hsub Hg. assert (forall b, b ∈ pre ++ (p, sz) :: post -> b = (base, 0) \/ good σ b) as Hall.
  { intros b. rewrite <-E, elem_of_cons. intros [->|Hb]; [by left|]. right. by apply (proj1 (Forall_forall _ _) (fl_good _ _ H)). }
  apply Forall_forall. intros b. unfold rejoined. rewrite elem_of_app. intros [Hb|Hb]; [apply Hall; set_solver|].
  destruct (Z.eqb_spec (p + hsz * sz) bp) as [Hj|Hj]; rewrite !elem_of_cons in Hb; [|destruct Hb as [->|[->|Hb]]; [apply Hall; set_solver|by right|apply Hall; set_solver]].
  destruct Hb as [->|Hb]; [|apply Hall; set_solver]. right. destruct Hg as (G1 & G2 & G3 & G4).
  destruct (Hall (p, sz) ltac:(set_solver)) as [[= -> ->]|(P1 & P2 & P3 & P4)]; unfold good, hsz in *; cbn [fst snd] in *; lia.
Qed.

(** Addresses around the place of the block. *)
Lemma place_order σ fl pre p sz post : free_list σ fl -> (base, 0) :: fl = pre ++ (p, sz) :: post ->
  spaced (pre ++ [(p, sz)]) /\ forall b, b ∈ pre -> b.1 < p.
Proof.
  intros H E. pose proof (fl_spaced _ _ H) as Hsp. rewrite E in Hsp. change ((p, sz) :: post) with ([(p, sz)] ++ post) in Hsp.
  rewrite app_assoc in Hsp. apply StronglySorted_app in Hsp as (_ & Hspp & _). split; [done|]. intros b Hin.
  apply StronglySorted_app in Hspp as (Hc & _ & _). specialize (Hc b (p, sz) Hin ltac:(set_solver)).
  assert (0 <= b.2). { destruct b as [a t]. destruct (node_spec _ _ a t H) as (_ & ? & _); [rewrite E; set_solver|done]. }
  unfold before, hsz in Hc. cbn in Hc. lia.
Qed.

(** The list after both joins, in the memory they leave. *)
Lemma rejoined_list σ fl pre p sz post bp s post' σ1 σ2 : free_list σ fl -> (base, 0) :: fl = pre ++ (p, sz) :: post ->
  p < bp -> p + hsz * sz <= bp -> 0 <= sz -> good σ (bp, s) -> seg (u_mem σ) pre p -> seg (u_mem σ) post' base ->
  (forall b, b ∈ post' -> b ∈ post) -> (forall b, b ∈ post -> bp < b.1) -> spaced ((bp, s) :: post') ->
  stored bp (first post' base, s) σ σ1 -> stored p (if p + hsz * sz =? bp then (first post' base, sz + s) else (bp, sz)) σ1 σ2 ->
  exists fl', rejoined pre p sz bp s post' = (base, 0) :: fl' /\ free_list (set_freep p σ2) fl'.
Proof.
  intros H E Hp Hle Hsz Hg Hpre Hpost Hsub Hgt Hsp Hst1 Hst2. pose proof Hg as (G1 & G2 & G3 & G4). cbn [fst snd] in *.
  pose proof Hst1 as (Hbrk1 & _ & Hm1 & _). pose proof Hst2 as (Hbrk2 & _). destruct (place_order _ _ _ _ _ _ H E) as [Hspp Hprelt].
  pose proof (fl_base _ _ H) as (Hb & Hal & Hbb). pose proof (fl_brk _ _ H) as [Hbrk Hbal].
  apply free_list_intro; cbn [u_brk u_mem u_freep set_freep]; rewrite ?Hbrk2, ?Hbrk1; try done.
  - unfold rejoined. destruct pre as [|b pre]; cbn in E |- *; [|by injection E as <- _].
    injection E as <- <- _. rewrite (proj2 (Z.eqb_neq _ _)) by (unfold hsz in *; lia). done.
  - eapply rejoined_seg; [eapply seg_stored; [exact Hst1| |exact Hpre]|done|done|done|eapply seg_stored; [exact Hst1| |exact Hpost]|auto|done|exact Hst2].
    + intros t Ht. specialize (Hprelt _ Ht). cbn in Hprelt. lia.
    + intros t Ht. specialize (Hgt _ (Hsub _ Ht)). cbn in Hgt. lia.
  - by apply rejoined_spaced; [done|done|lia|..].
  - assert (forall b, good σ b -> good (set_freep p σ2) b) as Hgood by (unfold good; cbn; by rewrite Hbrk2, Hbrk1).
    eapply Forall_impl; [by apply (rejoined_good σ fl pre p sz bp s post post')|]. naive_solver.
  - unfold rejoined. case_match; eexists; apply elem_of_app; right; apply list_elem_of_here.
Qed.

(** Memory outside the free blocks and the base is as before. *)
Definition outside (fl : list (Z * Z)) (σ σ' : ust) : Prop := forall x, ~ covers fl x -> x <> base -> u_mem σ' x = u_mem σ x.

Lemma free_spec σ fl bp s : free_list σ fl -> freeable σ fl bp s -> exists σ' fl',
  free (bp + hsz) σ = Ret tt σ' /\ free_list σ' fl' /\ u_brk σ' = u_brk σ /\ outside fl' σ σ' /\
  (exists a t, (a, t) ∈ fl' /\ s <= t) /\ forall x, covers fl' x <-> covers fl x \/ bytes_of (bp, s) x.
Proof.
  intros H Hfr. pose proof Hfr as ((G1 & G2 & G3 & G4) & Hs & Hdis). cbn [fst snd] in *.
  pose proof (fl_base _ _ H) as (Hb & Hal & Hbb). pose proof (fl_brk _ _ H) as [Hbrk Hbal].
  destruct (scan_spec σ fl bp H) as (pre & p & sz & post & E & Hp & Hpost & Escan); [unfold hsz in *; lia| |].
  { rewrite Forall_forall in *. intros b Hb' <-. pose proof (proj1 (Forall_forall _ _) (fl_good _ _ H) b Hb') as (_ & _ & Hbs & _).
    destruct (Hdis b Hb'); unfold hsz in *; lia. }
  destruct (freeable_place _ _ _ _ _ _ _ _ H Hfr E Hp Hpost) as (Hle & Hpb & Hlo & Hseg & Hmem & Hmp & Hsz & Hbase).
  destruct (join_next_spec σ bp s p sz post Hb Hlo Hmem Hmp Hbrk) as (σ1 & s' & post' & E1 & Hst1 & Hss & Hg' & Hsp' & Hseg' & Hsub & Hcov).
  pose proof Hst1 as (Hbrk1 & Hfp1 & Hm1 & Ho1). pose proof Hg' as (G1' & G2' & G3' & G4'). cbn [fst snd] in *.
  destruct (join_prev_spec σ1 bp s' (first post' base) p sz) as (σ2 & E2 & Hst2);
    [rewrite (stored_mapped _ _ _ _ _ Hst1); apply mapped_true; unfold hsz in *; lia|by rewrite (stored_mapped _ _ _ _ _ Hst1)
    |rewrite Ho1 by lia; by rewrite Hmem|done|done|lia|done|unfold KERNBASE, hsz in *; lia|].
  pose proof Hst2 as (Hbrk2 & _ & _ & Ho2).
  destruct (rejoined_list σ fl pre p sz post bp s' post' σ1 σ2) as (fl' & El' & Hfl'); try done; [by rewrite Forall_forall in Hpost|].
  exists (set_freep p σ2), fl'.
  assert (forall x, covers fl' x <-> covers fl x \/ bytes_of (bp, s) x) as Hcv.
  { intros x. rewrite <-covers_base, <-El', rejoined_covers, Hcov, <-(covers_base fl), E, covers_app, !covers_cons by (done || lia). tauto. }
  split_and!; [|done|by cbn; rewrite Hbrk2, Hbrk1| | |done].
  - unfold free. rewrite u32_small by (unfold KERNBASE, hsz in *; lia). rewrite Z.add_simpl_r.
    rewrite (bind_eq _ _ _ σ σ) by done. by rewrite (bind_eq _ _ _ _ _ Escan), (bind_eq _ _ _ _ _ E1), (bind_eq _ _ _ _ _ E2).
  - intros x Hx Hxb. cbn. rewrite Hcv in Hx. destruct (decide (x = bp)) as [->|]; [exfalso; apply Hx; right; unfold bytes_of, hsz; cbn; lia|].
    destruct (decide (x = p)) as [->|]; [|by rewrite Ho2, Ho1 by done]. exfalso. apply Hx. left. rewrite <-covers_base, E, covers_app, covers_cons.
    right. left. assert ((p, sz) ∈ fl) as Hin. { assert ((p, sz) ∈ (base, 0) :: fl) as [[=]|]%elem_of_cons by (rewrite E; set_solver); done. }
    destruct (proj1 (Forall_forall _ _) (fl_good _ _ H) _ Hin) as (_ & _ & ? & _). unfold bytes_of, hsz in *. cbn in *. lia.
  - assert (exists a t, (a, t) ∈ (base, 0) :: fl' /\ s <= t) as (a & t & Hin & Hst).
    { rewrite <-El'. unfold rejoined. case_match; [exists p, (sz + s')|exists bp, s']; split; [set_solver|lia|set_solver|lia]. }
    apply elem_of_cons in Hin as [[= -> ->]|Hin]; [lia|]. by exists a, t.
Qed.

(** ** Taking a block from the list *)

(** What [carve] gives: the block [q] of [n] units leaves the free list. *)
Definition carved (σ : ust) (fl : list (Z * Z)) (n q : Z) (σ' : ust) (fl' : list (Z * Z)) : Prop :=
  free_list σ' fl' /\ u_brk σ' = u_brk σ /\ freeable σ' fl' q n /\ outside fl σ σ' /\
  forall x, covers fl x <-> covers fl' x \/ bytes_of (q, n) x.

Lemma spaced_nodes σ fl pre b c post : free_list σ fl -> (base, 0) :: fl = pre ++ b :: c :: post ->
  (forall a, a ∈ pre -> a.1 < b.1) /\ b.1 + hsz * b.2 < c.1 /\ (forall a, a ∈ post -> c.1 + hsz * c.2 < a.1) /\ 0 <= b.2 /\
  c ∈ fl /\ spaced (pre ++ b :: post).
Proof.
  intros H E. pose proof (fl_spaced _ _ H) as Hsp. rewrite E in Hsp. apply StronglySorted_app in Hsp as (Hcross & Hp1 & Hp2).
  apply StronglySorted_cons in Hp2 as [Hb Hp2]. pose proof Hp2 as [Hc Hp3]%StronglySorted_cons. rewrite Forall_forall in Hb, Hc.
  assert (forall a, a ∈ (base, 0) :: fl -> 0 <= a.2) as Hnn by (intros [a t] Ha; by destruct (node_spec _ _ a t H Ha) as (_ & ? & _)).
  rewrite E in Hnn. pose proof (Hb c ltac:(set_solver)) as Hbc. pose proof (Hnn b ltac:(set_solver)) as Hb0. unfold before in *.
  split_and!; [|done|done|done| |].
  - intros a Ha. specialize (Hcross a b Ha ltac:(set_solver)). specialize (Hnn a ltac:(set_solver)). unfold hsz in *. lia.
  - assert (c ∈ (base, 0) :: fl) as [->|]%elem_of_cons by (rewrite E; set_solver); [|done].
    destruct (node_spec _ _ b.1 b.2 H) as (_ & _ & ? & _); [rewrite E; destruct b; set_solver|]. unfold hsz in *. cbn in *. lia.
  - apply StronglySorted_app. split_and!; [|done|].
    + intros x y Hx Hy. apply Hcross; set_solver.
    + constructor; [done|]. apply Forall_forall. intros y Hy. apply Hb. set_solver.
Qed.

(** The node [prevp] keeps a list well formed when what follows it changes. *)
Lemma relink σ fl σ' pre prevp sp rest : free_list σ fl -> (exists rest0, (base, 0) :: fl = pre ++ (prevp, sp) :: rest0) ->
  u_brk σ' = u_brk σ -> (forall x, x < prevp -> u_mem σ' x = u_mem σ x) -> u_mem σ' prevp = (first rest base, sp) ->
  seg (u_mem σ') rest base -> spaced (pre ++ (prevp, sp) :: rest) -> Forall (good σ) rest -> u_freep σ' = prevp ->
  exists fl', pre ++ (prevp, sp) :: rest = (base, 0) :: fl' /\ free_list σ' fl'.
Proof.
  intros H [rest0 E] Hbrk' Hm Hp Hrest Hsp Hgood Hfp. destruct (place_order _ _ _ _ _ _ H E) as [_ Hprelt].
  pose proof (fl_base _ _ H) as (Hb & Hal & Hbb). pose proof (fl_brk _ _ H) as [Hbrk Hbal].
  pose proof (fl_ring _ _ H) as Hring. rewrite E in Hring. apply seg_app in Hring as [Hr1 _]. cbn [first] in Hr1.
  assert (forall b, good σ b -> good σ' b) as Hgd by (unfold good; by rewrite Hbrk').
  apply free_list_intro; rewrite ?Hbrk'; try done.
  - destruct pre as [|b pre]; cbn in E |- *; [by injection E as <- <-|by injection E as <-].
  - apply seg_app. cbn [first seg]. split_and!; [|done|done]. eapply seg_ext; [|exact Hr1]. intros a s Ha. apply Hm. by apply (Hprelt _ Ha).
  - apply Forall_app. split; [|constructor; [|eapply Forall_impl; [exact Hgood|]; auto]].
    + apply Forall_forall. intros b Hin. assert (b ∈ (base, 0) :: fl) as [->|Hin']%elem_of_cons by (rewrite E; set_solver); [by left|].
      right. by apply Hgd, (proj1 (Forall_forall _ _) (fl_good _ _ H)).
    + assert ((prevp, sp) ∈ (base, 0) :: fl) as [->|Hin']%elem_of_cons by (rewrite E; set_solver); [by left|].
      right. by apply Hgd, (proj1 (Forall_forall _ _) (fl_good _ _ H)).
  - exists sp. rewrite Hfp. set_solver.
Qed.

(** The part of the list before a node ends before it. *)
Lemma list_before σ fl pre b post a : free_list σ fl -> (base, 0) :: fl = pre ++ b :: post -> a ∈ pre -> a.1 + hsz * a.2 < b.1.
Proof.
  intros H E Ha. pose proof (fl_spaced _ _ H) as Hsp. rewrite E in Hsp. apply StronglySorted_app in Hsp as (Hcr & _).
  apply (Hcr a b Ha). set_solver.
Qed.

Lemma node_covered σ fl a s : free_list σ fl -> (a, s) ∈ (base, 0) :: fl -> a <> base -> covers fl a.
Proof.
  intros H [[=]|Hin]%elem_of_cons Ha; [done|]. apply Exists_exists. exists (a, s). split; [done|].
  destruct (proj1 (Forall_forall _ _) (fl_good _ _ H) _ Hin) as (_ & _ & ? & _). unfold bytes_of, hsz in *. cbn in *. lia.
Qed.

(** The whole block. *)
Lemma carve_all σ fl n prevp sp p post pre : free_list σ fl -> (base, 0) :: fl = pre ++ (prevp, sp) :: (p, n) :: post ->
  exists σ' fl', carve n prevp p σ = Ret (p + hsz) σ' /\ carved σ fl n p σ' fl'.
Proof.
  intros H E. destruct (spaced_nodes _ _ _ _ _ _ H E) as (Hpre & Hlt & Hpost & Hsp0 & Hpin & Hspl). cbn [fst snd] in *.
  pose proof (fl_ring _ _ H) as Hring. rewrite E in Hring. apply seg_app in Hring as [_ (Hm1 & Hm2 & Hr2)]. cbn [first] in *.
  destruct (node_spec _ _ prevp sp H) as (Hmv & _ & Hbv & _); [rewrite E; set_solver|].
  destruct (proj1 (Forall_forall _ _) (fl_good _ _ H) _ Hpin) as (P1 & P2 & P3 & P4). cbn [fst snd] in *.
  pose proof (fl_base _ _ H) as (Hb & _ & _). pose proof (fl_brk _ _ H) as [Hbrk _].
  assert (mapped p σ = true) as Hmp by (apply mapped_true; unfold hsz in *; lia).
  set (m' := <[prevp := (first post base, sp)]> (u_mem σ)). set (σ' := Ust m' prevp (u_brk σ)).
  destruct (relink σ fl σ' pre prevp sp post H) as (fl' & El & Hfl'); try done; [by eexists| |apply fn_lookup_insert| | |].
  { intros x Hx. apply fn_lookup_insert_ne. lia. }
  { apply seg_insert; [|done]. intros s Hs. specialize (Hpost _ Hs). cbn in Hpost. unfold hsz in *. lia. }
  { apply Forall_forall. intros b Hin. apply (proj1 (Forall_forall _ _) (fl_good _ _ H)).
    assert (b ∈ (base, 0) :: fl) as [->|]%elem_of_cons by (rewrite E; set_solver); [|done]. specialize (Hpost _ Hin). cbn in Hpost. unfold hsz in *. lia. }
  exists σ', fl'. split; [|split_and!; [done|done| | |]].
  - unfold carve. rewrite (bind_eq _ _ _ _ _ (header_eq p σ Hmp)), Hm2. cbn [fst snd]. rewrite Z.eqb_refl.
    unfold bind. rewrite set_ptr_eq, Hm1 by done. unfold ret, modify. by rewrite hadd_eq by (unfold KERNBASE, hsz in *; lia).
  - split; [done|]. split; [cbn; unfold m'; rewrite fn_lookup_insert_ne by (unfold hsz in *; lia); by rewrite Hm2|].
    apply Forall_forall. intros b Hin. assert (b ∈ pre ++ (prevp, sp) :: post) as Hb' by (rewrite El; set_solver).
    rewrite elem_of_app, elem_of_cons in Hb'. destruct Hb' as [Hb'|[->|Hb']]; [|left; cbn; lia|right; specialize (Hpost _ Hb'); lia].
    left. pose proof (list_before σ fl (pre ++ [(prevp, sp)]) (p, n) post b H) as Hlb. rewrite <-app_assoc in Hlb.
    specialize (Hlb E ltac:(set_solver)). cbn in Hlb. lia.
  - intros x Hx Hxb. apply fn_lookup_insert_ne. intros <-. apply Hx. apply (node_covered σ fl prevp sp H); [rewrite E; set_solver|done].
  - intros x. rewrite <-(covers_base fl), <-(covers_base fl'), E, <-El, !covers_app, !covers_cons. tauto.
Qed.

(** The end of a larger block. *)
Lemma carve_part σ fl n prevp sp p s post pre : free_list σ fl -> (base, 0) :: fl = pre ++ (prevp, sp) :: (p, s) :: post -> 0 < n < s ->
  exists q σ' fl', carve n prevp p σ = Ret (q + hsz) σ' /\ carved σ fl n q σ' fl'.
Proof.
  intros H E Hn. destruct (spaced_nodes _ _ _ _ _ _ H E) as (Hpre & Hlt & Hpost & Hsp0 & Hpin & Hspl). cbn [fst snd] in *.
  pose proof (fl_ring _ _ H) as Hring. rewrite E in Hring. apply seg_app in Hring as [_ (Hm1 & Hm2 & Hr2)]. cbn [first] in *.
  destruct (node_spec _ _ prevp sp H) as (Hmv & _ & Hbv & _); [rewrite E; set_solver|].
  destruct (proj1 (Forall_forall _ _) (fl_good _ _ H) _ Hpin) as (P1 & P2 & P3 & P4). cbn [fst snd] in *.
  pose proof (fl_base _ _ H) as (Hb & _ & _). pose proof (fl_brk _ _ H) as [Hbrk _]. unfold hsz in *.
  set (q := p + 8 * (s - n)). assert (p < q /\ q + 8 * n <= u_brk σ) as Hq by (unfold q; lia).
  assert (q `mod` 8 = 0) as Hqm by (unfold q; rewrite Z.mul_comm, Z_mod_plus_full; done).
  assert (mapped p σ = true) as Hmp by (apply mapped_true; unfold hsz; lia).
  set (σ1 := set_header p (first post base, s - n) σ). set (σ' := set_freep prevp (set_header q ((u_mem σ1 q).1, n) σ1)).
  assert (u_mem σ' p = (first post base, s - n)) as Hmp'.
  { cbn. rewrite fn_lookup_insert_ne by lia. apply fn_lookup_insert. }
  assert (forall x, x <> p -> x <> q -> u_mem σ' x = u_mem σ x) as Ho. { intros x H1 H2. cbn. by rewrite !fn_lookup_insert_ne by done. }
  assert (forall b, b ∈ post -> q + 8 * n < b.1) as Hpost' by (intros b Hin; specialize (Hpost _ Hin); unfold q; lia).
  destruct (relink σ fl σ' pre prevp sp ((p, s - n) :: post) H) as (fl' & El & Hfl'); try done; [by eexists|intros; apply Ho; lia| | | | |].
  { rewrite Ho by lia. by rewrite Hm1. }
  { split; [done|]. eapply seg_ext; [|exact Hr2]. intros a t Ha. specialize (Hpost' _ Ha). cbn in Hpost'. apply Ho; lia. }
  { pose proof (fl_spaced _ _ H) as Hsp. rewrite E in Hsp. apply StronglySorted_app in Hsp as (Hcr & Hs1 & Hs2). apply StronglySorted_app.
    apply StronglySorted_cons in Hs2 as [Hv Hs2]. apply StronglySorted_cons in Hs2 as [Hc Hs2]. apply Forall_cons in Hv as [Hv1 Hv2].
    split_and!; [|done|]. { intros x y Hx Hy. rewrite !elem_of_cons in Hy. destruct Hy as [->|[->|Hy]]; [apply Hcr; set_solver| |apply Hcr; set_solver].
      apply (Hcr x (p, s) Hx). set_solver. }
    constructor; [constructor; [done|]|constructor; [exact Hv1|done]]. apply Forall_forall. intros b Hin. specialize (Hpost' _ Hin). unfold before, hsz, q in *. cbn. lia. }
  { constructor; [unfold good, hsz; cbn; lia|]. apply Forall_forall. intros b Hin. apply (proj1 (Forall_forall _ _) (fl_good _ _ H)).
    assert (b ∈ (base, 0) :: fl) as [->|]%elem_of_cons by (rewrite E; set_solver); [|done]. specialize (Hpost _ Hin). cbn in Hpost. lia. }
  exists q, σ', fl'. split; [|split_and!; [done|done| | |]].
  - unfold carve. rewrite (bind_eq _ _ _ _ _ (header_eq p σ Hmp)), Hm2. cbn [fst snd]. rewrite (proj2 (Z.eqb_neq _ _)) by lia.
    rewrite u32_small by (unfold KERNBASE in *; lia). unfold bind. rewrite set_size_eq, Hm2 by done. cbn [fst].
    rewrite hadd_eq by (unfold KERNBASE, hsz in *; lia). change (p + hsz * (s - n)) with q.
    rewrite set_size_eq by (apply mapped_true; cbn; unfold hsz; lia). unfold ret, modify. by rewrite hadd_eq by (unfold KERNBASE, hsz in *; lia).
  - split; [unfold good, hsz; cbn; lia|]. split; [cbn; by rewrite fn_lookup_insert|].
    apply Forall_forall. intros b Hin. assert (b ∈ pre ++ (prevp, sp) :: (p, s - n) :: post) as Hb' by (rewrite El; set_solver). unfold hsz.
    rewrite elem_of_app, !elem_of_cons in Hb'. destruct Hb' as [Hb'|[->|[->|Hb']]]; [|left; cbn; lia|left; cbn; unfold q; lia|right; specialize (Hpost' _ Hb'); lia].
    left. pose proof (list_before σ fl (pre ++ [(prevp, sp)]) (p, s) post b H) as Hlb. rewrite <-app_assoc in Hlb.
    specialize (Hlb E ltac:(set_solver)). unfold hsz in Hlb. cbn in Hlb. lia.
  - intros x Hx Hxb. apply Ho; intros ->; apply Hx; rewrite <-covers_base, E, covers_app, !covers_cons; right; right; left; unfold bytes_of, hsz; cbn; unfold q; lia.
  - intros x. rewrite <-(covers_base fl), <-(covers_base fl'), E, <-El, !covers_app, !covers_cons. unfold bytes_of, hsz, q. cbn [fst snd]. intuition lia.
Qed.

(** ** The loop of malloc *)

(** Enough fuel remains after a node that is too small and not the last to be tried. *)
Lemma loop_step σ fl n prevp p nx s f : free_list σ fl -> (p, s) ∈ (base, 0) :: fl -> u_mem σ p = (nx, s) -> s < n -> p <> u_freep σ ->
  malloc_loop (S f) n prevp p σ = malloc_loop f n p nx σ.
Proof.
  intros H Hp Hm Hs Hfp. destruct (node_spec _ _ _ _ H Hp) as (Hmp & _). cbn [malloc_loop].
  rewrite (bind_eq _ _ _ _ _ (header_eq p σ Hmp)), Hm. cbn [snd]. rewrite (proj2 (Z.leb_gt _ _)) by lia.
  unfold bind at 1, gets. rewrite (proj2 (Z.eqb_neq _ _)) by done. rewrite (bind_eq _ _ _ _ _ (header_eq p σ Hmp)), Hm. done.
Qed.

Lemma loop_fit σ fl n prevp p s f : free_list σ fl -> (p, s) ∈ (base, 0) :: fl -> (u_mem σ p).2 = s -> n <= s ->
  malloc_loop (S f) n prevp p σ = carve n prevp p σ.
Proof.
  intros H Hp Hm Hs. destruct (node_spec _ _ _ _ H Hp) as (Hmp & _). cbn [malloc_loop].
  rewrite (bind_eq _ _ _ _ _ (header_eq p σ Hmp)), Hm. by rewrite (proj2 (Z.leb_le _ _)) by lia.
Qed.

(** The address of the last block of a list, or of one before it. *)
Fixpoint final (p : Z) (l : list (Z * Z)) : Z := match l with [] => p | (a, _) :: l => final a l end.

Lemma final_snoc p sp l : exists l' s, (p, sp) :: l = l' ++ [(final p l, s)].
Proof.
  revert p sp. induction l as [|[a s] l IH]; intros p sp; [by exists [], sp|].
  destruct (IH a s) as (l' & t & E). exists ((p, sp) :: l'), t. cbn [final]. by rewrite E.
Qed.

Lemma walk σ fl n : free_list σ fl -> forall T pre prevp sp post f, (base, 0) :: fl = pre ++ (prevp, sp) :: T ++ post ->
  Forall (fun b => b.2 < n /\ b.1 <> u_freep σ) T ->
  malloc_loop (length T + f) n prevp (first (T ++ post) base) σ = malloc_loop f n (final prevp T) (first post base) σ.
Proof.
  intros H. induction T as [|[a s] T IH]; intros pre prevp sp post f E HT; [done|].
  apply Forall_cons in HT as [[Hs Hfp] HT]. cbn [length Nat.add app first final fst snd] in *.
  pose proof (fl_ring _ _ H) as Hring. rewrite E in Hring. apply seg_app in Hring as [_ (_ & Hm & _)].
  rewrite (loop_step σ fl n prevp a (first (T ++ post) base) s) by (done || (rewrite E; set_solver)).
  apply (IH (pre ++ [(prevp, sp)]) a s post f); [|done]. by rewrite <-app_assoc.
Qed.

(** The first block that is large enough. *)
Lemma first_fit n (l : list (Z * Z)) : Forall (fun b => b.2 < n) l \/
  exists T p s l', l = T ++ (p, s) :: l' /\ Forall (fun b => b.2 < n) T /\ n <= s.
Proof.
  induction l as [|[a s] l [IH|(T & p & t & l' & -> & HT & Hp)]]; [by left; constructor|..].
  - destruct (decide (s < n)); [left; by constructor|]. right. exists [], a, s, l. split_and!; [done|constructor|lia].
  - destruct (decide (s < n)).
    + right. exists ((a, s) :: T), p, t, l'. split_and!; [done|by constructor|done].
    + right. exists [], a, s, (T ++ (p, t) :: l'). split_and!; [done|constructor|lia].
Qed.

(** The nodes of the list are distinct. *)
Lemma nodes_distinct σ fl A b B : free_list σ fl -> (base, 0) :: fl = A ++ b :: B ->
  (forall c, c ∈ A -> c.1 <> b.1) /\ (forall c, c ∈ B -> c.1 <> b.1).
Proof.
  intros H E. pose proof (fl_spaced _ _ H) as Hsp. rewrite E in Hsp. apply StronglySorted_app in Hsp as (Hcr & _ & Hs2).
  apply StronglySorted_cons in Hs2 as [Hb _]. rewrite Forall_forall in Hb.
  assert (forall a, a ∈ (base, 0) :: fl -> 0 <= a.2) as Hnn by (intros [a t] Ha; by destruct (node_spec _ _ a t H Ha) as (_ & ? & _)).
  rewrite E in Hnn. unfold before, hsz in *. split; intros c Hc.
  - specialize (Hcr c b Hc ltac:(set_solver)). specialize (Hnn c ltac:(set_solver)). lia.
  - specialize (Hb c Hc). specialize (Hnn b ltac:(set_solver)). lia.
Qed.

(** Walk to a block that fits, from a node before it. *)
Lemma walk_fit σ fl n T pre prevp sp p s post : free_list σ fl -> (base, 0) :: fl = pre ++ (prevp, sp) :: T ++ (p, s) :: post ->
  Forall (fun b => b.2 < n /\ b.1 <> u_freep σ) T -> n <= s ->
  exists pre' prev' sp', (base, 0) :: fl = pre' ++ (prev', sp') :: (p, s) :: post /\ forall f, (length T < f)%nat ->
    malloc_loop f n prevp (first (T ++ (p, s) :: post) base) σ = carve n prev' p σ.
Proof.
  intros H E HT Hs. destruct (final_snoc prevp sp T) as (l' & sp' & El). exists (pre ++ l'), (final prevp T), sp'.
  assert ((base, 0) :: fl = (pre ++ l') ++ (final prevp T, sp') :: (p, s) :: post) as E'.
  { rewrite E. change ((prevp, sp) :: T ++ (p, s) :: post) with (((prevp, sp) :: T) ++ (p, s) :: post). rewrite El. by rewrite <-!app_assoc. }
  split; [done|]. intros f Hf. replace f with (length T + S (f - length T - 1))%nat by lia. rewrite (walk σ fl n H T pre prevp sp) by done. cbn [first].
  pose proof (fl_ring _ _ H) as Hring. rewrite E' in Hring. apply seg_app in Hring as [_ (_ & Hm & _)].
  apply (loop_fit σ fl n _ p s); [done|rewrite E'; set_solver|by rewrite Hm|done].
Qed.

(** What the loop does when it comes back to [freep]. *)
Definition grow (n : Z) (f : nat) : K ust Z :=
  let! p := morecore n in
  if p =? 0 then ret 0 else let! h := header p in malloc_loop f n p h.1.

Lemma loop_grow σ fl n prevp s f : free_list σ fl -> (u_freep σ, s) ∈ (base, 0) :: fl -> (u_mem σ (u_freep σ)).2 = s -> s < n ->
  malloc_loop (S f) n prevp (u_freep σ) σ = grow n f σ.
Proof.
  intros H Hp Hm Hs. destruct (node_spec _ _ _ _ H Hp) as (Hmp & _). cbn [malloc_loop].
  rewrite (bind_eq _ _ _ _ _ (header_eq _ σ Hmp)), Hm. rewrite (proj2 (Z.leb_gt _ _)) by lia.
  unfold bind at 1, gets. by rewrite Z.eqb_refl.
Qed.

(** A fit was found by one round of the loop. *)
Definition finds (σ : ust) (fl : list (Z * Z)) (n : Z) : Prop := exists pre prev sp p s post,
  (base, 0) :: fl = pre ++ (prev, sp) :: (p, s) :: post /\ n <= s /\
  forall f, (S (length fl) <= f)%nat -> malloc_loop f n (u_freep σ) (u_mem σ (u_freep σ)).1 σ = carve n prev p σ.

(** The second half of a round, from the base to [freep]. *)
Lemma round_low σ fl n A sf B : free_list σ fl -> (base, 0) :: fl = (base, 0) :: A ++ (u_freep σ, sf) :: B -> 0 < n ->
  (exists pre prev sp p s post, (base, 0) :: fl = pre ++ (prev, sp) :: (p, s) :: post /\ n <= s /\
    forall f, (S (length A) <= f)%nat -> malloc_loop f n base (first (A ++ (u_freep σ, sf) :: B) base) σ = carve n prev p σ) \/
  Forall (fun b => b.2 < n) (A ++ [(u_freep σ, sf)]) /\
    forall f, malloc_loop (length A + S f) n base (first (A ++ (u_freep σ, sf) :: B) base) σ = grow n f σ.
Proof.
  intros H E Hn. destruct (nodes_distinct σ fl ((base, 0) :: A) (u_freep σ, sf) B H E) as [HdA _]. cbn [fst] in HdA.
  destruct (first_fit n (A ++ [(u_freep σ, sf)])) as [Hno|(T & p & s & l' & EA & HT & Hs)].
  - right. split; [done|]. intros f. apply Forall_app in Hno as [HA Hsf]. apply Forall_cons in Hsf as [Hsf _].
    rewrite (walk σ fl n H A [] base 0 ((u_freep σ, sf) :: B)); [|done|].
    + cbn [first]. pose proof (fl_ring _ _ H) as Hring. rewrite E in Hring. cbn [seg] in Hring. destruct Hring as [_ Hring].
      apply seg_app in Hring as [_ [Hm _]]. apply (loop_grow σ fl n _ sf); [done|rewrite E; set_solver|by rewrite Hm|done].
    + apply Forall_forall. intros c Hc. split; [by apply (proj1 (Forall_forall _ _) HA)|apply HdA; set_solver].
  - left. assert (length T <= length A)%nat as HlT.
    { pose proof (f_equal length EA) as El. rewrite !length_app in El. cbn in El. lia. }
    assert (T = take (length T) A) as HTA.
    { pose proof (f_equal (take (length T)) EA) as Et. rewrite take_app_length in Et. rewrite take_app_le in Et by done. done. }
    assert (A ++ (u_freep σ, sf) :: B = T ++ (p, s) :: l' ++ B) as EB.
    { rewrite (app_comm_cons l'), (app_assoc T), <-EA, <-app_assoc. done. }
    destruct (walk_fit σ fl n T [] base 0 p s (l' ++ B) H) as (pre' & prev' & sp' & E' & Hw); [by rewrite E, EB| |done|].
    + apply Forall_forall. intros c Hc. split; [by apply (proj1 (Forall_forall _ _) HT)|]. apply HdA.
      rewrite HTA in Hc. apply elem_of_take in Hc as (i & Hi & _). apply list_elem_of_lookup_2 in Hi. set_solver.
    + exists pre', prev', sp', p, s, (l' ++ B). split_and!; [done..|]. intros f Hf. rewrite EB. apply Hw. lia.
Qed.

(** One round of the loop over the whole list. *)
Lemma round σ fl n : free_list σ fl -> 0 < n -> finds σ fl n \/
  Forall (fun b => b.2 < n) fl /\
  forall f, malloc_loop (S (length fl) + f) n (u_freep σ) (u_mem σ (u_freep σ)).1 σ = grow n f σ.
Proof.
  intros H Hn. destruct (fl_freep _ _ H) as [sf (A & B & E)%list_elem_of_split].
  destruct (nodes_distinct σ fl A (u_freep σ, sf) B H E) as [_ HdB]. cbn [fst] in HdB.
  pose proof (f_equal length E) as El. rewrite length_app in El. cbn [length] in El.
  pose proof (fl_ring _ _ H) as Hring. rewrite E in Hring. apply seg_app in Hring as [_ [Hm _]]. cbn [first] in Hm.
  destruct (first_fit n B) as [HB|(T & p & s & l' & EB & HT & Hs)].
  2: { left. destruct (walk_fit σ fl n T A (u_freep σ) sf p s l' H) as (pre' & prev' & sp' & E' & Hw); [by rewrite E, EB| |done|].
    { apply Forall_forall. intros c Hc. split; [by apply (proj1 (Forall_forall _ _) HT)|]. apply HdB. rewrite EB. set_solver. }
    exists pre', prev', sp', p, s, l'. split_and!; [done..|]. intros f Hf. rewrite Hm, EB. apply Hw.
    rewrite EB, length_app in El. cbn [length] in El. lia. }
  assert (forall f, malloc_loop (length B + f) n (u_freep σ) (u_mem σ (u_freep σ)).1 σ = malloc_loop f n (final (u_freep σ) B) base σ) as Hw.
  { intros f. rewrite Hm. cbn [fst]. rewrite <-(app_nil_r B) at 2. apply (walk σ fl n H B A (u_freep σ) sf []); [by rewrite app_nil_r|].
    apply Forall_forall. intros c Hc. split; [by apply (proj1 (Forall_forall _ _) HB)|by apply HdB]. }
  destruct A as [|b A]; cbn [app length] in *.
  - injection E as Eb <- EB. right. subst B. split; [done|]. intros f. replace (S (length fl) + f)%nat with (length fl + S f)%nat by lia.
    rewrite Hw. rewrite Eb. apply (loop_grow σ fl n _ 0); [done|rewrite Eb; set_solver|by rewrite Hm|done].
  - injection E as <- E. assert (base <> u_freep σ) as Hbf.
    { pose proof (nodes_distinct σ fl ((base, 0) :: A) (u_freep σ, sf) B H ltac:(by rewrite E)) as [Hd _]. apply (Hd (base, 0)). set_solver. }
    pose proof (fl_ring _ _ H) as [Hmb _]. rewrite E in Hmb.
    assert (forall f, malloc_loop (S f) n (final (u_freep σ) B) base σ = malloc_loop f n base (first (A ++ (u_freep σ, sf) :: B) base) σ) as Hb.
    { intros f. apply (loop_step σ fl n _ base _ 0); [done|set_solver|done|done|done]. }
    destruct (round_low σ fl n A sf B H ltac:(by rewrite E) Hn) as [(pre & prev & sp & p & s & post & E' & Hs & Hl)|[Hno Hl]].
    + left. exists pre, prev, sp, p, s, post. split_and!; [done..|]. intros f Hf.
      replace f with (length B + S (f - length B - 1))%nat by lia. rewrite Hw, Hb. apply Hl. lia.
    + right. split.
      * rewrite E. apply Forall_app in Hno as [HA Hsf]. apply Forall_app. split; [done|]. constructor; [by inversion Hsf|done].
      * intros f. replace (S (length fl) + f)%nat with (length B + S (length A + S f))%nat by lia. by rewrite Hw, Hb, Hl.
Qed.

(** ** morecore *)

Lemma free_list_brk σ fl b : free_list σ fl -> u_brk σ <= b -> b < KERNBASE -> b `mod` hsz = 0 -> free_list (set_brk b σ) fl.
Proof.
  intros [(H1 & H2 & H3) [H4 H5] H6 H7 H8 H9] Hb Hk Hm. split; cbn [u_brk u_mem u_freep set_brk]; try done; [split_and!; [done..|lia]|].
  eapply Forall_impl; [exact H8|]. unfold good. cbn. intros c. lia.
Qed.

Lemma free_list_store σ fl p h : free_list σ fl -> (forall s, (p, s) ∉ (base, 0) :: fl) -> free_list (set_header p h σ) fl.
Proof. intros [H1 H2 H3 H4 H5 H6] Hp. split; try done. by apply seg_insert. Qed.

Lemma free_list_end σ fl b : free_list σ fl -> b ∈ fl -> b.1 + hsz * b.2 <= u_brk σ /\ 0 < b.2.
Proof. intros H Hb. by destruct (proj1 (Forall_forall _ _) (fl_good _ _ H) _ Hb) as (_ & _ & ? & ?). Qed.

Lemma morecore_spec σ fl n : free_list σ fl -> 0 < n < 268435456 ->
  morecore n σ = Ret 0 σ /\ sbrk (hsz * Z.max n 4096) σ = Ret (-1) σ \/ exists σ' fl', morecore n σ = Ret (u_freep σ') σ' /\ free_list σ' fl' /\
    u_brk σ' = u_brk σ + hsz * Z.max n 4096 /\ outside fl' σ σ' /\ (exists a t, (a, t) ∈ fl' /\ n <= t) /\
    forall x, covers fl' x <-> covers fl x \/ u_brk σ <= x < u_brk σ'.
Proof.
  intros H Hn. unfold morecore. replace (if n <? 4096 then 4096 else n) with (Z.max n 4096) by (destruct (Z.ltb_spec n 4096); lia).
  set (nu := Z.max n 4096). assert (0 < nu < 268435456) as Hnu by lia. rewrite s32_small by (unfold hsz; lia).
  pose proof (fl_base _ _ H) as (Hb & Hal & Hbb). pose proof (fl_brk _ _ H) as [Hbrk Hbal].
  destruct (sbrk_spec (nu * hsz) σ) as [E|[Hk E]]; rewrite (bind_eq _ _ _ _ _ E); [left; by rewrite Z.mul_comm|]. right.
  rewrite (proj2 (Z.eqb_neq _ _)) by (unfold hsz in *; lia). set (p := u_brk σ) in *. set (σ1 := set_brk (p + nu * hsz) σ).
  assert (mapped p σ1 = true) as Hmp by (apply mapped_true; cbn; unfold hsz in *; lia).
  assert (forall b, b ∈ fl -> b.1 + hsz * b.2 <= p /\ 0 < b.2) as Hend by (intros; by eapply free_list_end).
  assert (free_list σ1 fl) as H1.
  { apply free_list_brk; [done|unfold hsz in *; lia|done|]. unfold hsz in *. by rewrite Z_mod_plus_full. }
  set (σ2 := set_header p ((u_mem σ1 p).1, nu) σ1).
  assert (free_list σ2 fl) as H2.
  { apply free_list_store; [done|]. intros s [[=]|Hin]%elem_of_cons; [unfold hsz in *; lia|]. specialize (Hend _ Hin). cbn in Hend. unfold hsz in *. lia. }
  destruct (free_spec σ2 fl p nu H2) as (σ3 & fl3 & E3 & H3 & Hbrk3 & Ho & (a & s & Hin & Hs) & Hcov).
  { split; [unfold good, hsz in *; cbn; lia|]. split; [cbn; by rewrite fn_lookup_insert|]. apply Forall_forall. intros b Hin. left. by apply Hend. }
  exists σ3, fl3. split_and!; [|done| | | |].
  - rewrite (bind_eq _ _ _ _ _ (set_size_eq p nu σ1 Hmp)). rewrite hadd_eq by (unfold KERNBASE, hsz in *; lia).
    replace (p + hsz * 1) with (p + hsz) by lia. by rewrite (bind_eq _ _ _ _ _ E3).
  - rewrite Hbrk3. cbn. unfold hsz. lia.
  - intros x Hx Hxb. rewrite Ho by done. cbn. apply fn_lookup_insert_ne. intros <-. apply Hx, Hcov. right. unfold bytes_of, hsz. cbn. lia.
  - exists a, s. split; [done|lia].
  - intros x. rewrite Hcov, Hbrk3. unfold bytes_of. cbn. unfold hsz. split; (intros [?|?]; [by left|right; lia]).
Qed.

(** ** malloc *)

(** The block [q] of [n] units has been taken, perhaps from memory added at the end. *)
Definition taken (σ : ust) (fl : list (Z * Z)) (n q : Z) (σ' : ust) (fl' : list (Z * Z)) : Prop :=
  free_list σ' fl' /\ u_brk σ <= u_brk σ' /\ freeable σ' fl' q n /\
  (forall x, ~ covers fl x -> x <> base -> x < u_brk σ -> u_mem σ' x = u_mem σ x) /\
  forall x, covers fl x \/ u_brk σ <= x < u_brk σ' <-> covers fl' x \/ bytes_of (q, n) x.

Lemma find_carve σ fl n : free_list σ fl -> 0 < n -> finds σ fl n -> exists q σ' fl',
  carved σ fl n q σ' fl' /\ forall f, (S (length fl) <= f)%nat ->
  malloc_loop f n (u_freep σ) (u_mem σ (u_freep σ)).1 σ = Ret (q + hsz) σ'.
Proof.
  intros H Hn (pre & prev & sp & p & s & post & E & Hs & Hl). destruct (decide (s = n)) as [->|Hne].
  - destruct (carve_all _ _ _ _ _ _ _ _ H E) as (σ' & fl' & Ec & Hc). exists p, σ', fl'. split; [done|]. intros f Hf. by rewrite Hl.
  - destruct (carve_part _ _ n _ _ _ _ _ _ H E ltac:(lia)) as (q & σ' & fl' & Ec & Hc). exists q, σ', fl'. split; [done|]. intros f Hf. by rewrite Hl.
Qed.

Lemma loop_spec σ fl n f : free_list σ fl -> 0 < n < 268435456 -> (2 * list_bound σ + Z.to_nat (Z.max n 4096) + 2 <= f)%nat ->
  malloc_loop f n (u_freep σ) (u_mem σ (u_freep σ)).1 σ = Ret 0 σ /\ sbrk (hsz * Z.max n 4096) σ = Ret (-1) σ \/
  exists q σ' fl', malloc_loop f n (u_freep σ) (u_mem σ (u_freep σ)).1 σ = Ret (q + hsz) σ' /\ taken σ fl n q σ' fl'.
Proof.
  intros H Hn Hf. pose proof (list_bound_enough _ _ H) as Hlen. destruct (round σ fl n H ltac:(lia)) as [Hfi|[Hno Hg]].
  - right. destruct (find_carve σ fl n H ltac:(lia) Hfi) as (q & σ' & fl' & (C1 & C2 & C3 & C4 & C5) & Hl). exists q, σ', fl'.
    split; [apply Hl; lia|]. split_and!; [done|lia|done|intros; by apply C4|]. intros x. rewrite <-C5, C2. split; [intros [?|?]; [done|lia]|by left].
  - replace f with (S (length fl) + (f - S (length fl)))%nat by lia. rewrite Hg. set (f' := (f - S (length fl))%nat). unfold grow.
    destruct (morecore_spec σ fl n H Hn) as [[E Hsb]|(σ3 & fl3 & E & H3 & Hbrk & Ho & (a & t & Hin & Ht) & Hcov)];
      rewrite (bind_eq _ _ _ _ _ E); [by left|]. right.
    destruct (fl_freep _ _ H3) as [sf Hfp]. destruct (node_spec _ _ _ _ H3 Hfp) as (Hm & _ & Hb & _). pose proof (fl_base _ _ H) as (Hb0 & _ & _).
    rewrite (proj2 (Z.eqb_neq _ _)) by lia. rewrite (bind_eq _ _ _ _ _ (header_eq _ _ Hm)).
    destruct (round σ3 fl3 n H3 ltac:(lia)) as [Hfi|[Hno3 _]].
    2: { rewrite Forall_forall in Hno3. specialize (Hno3 _ Hin). cbn in Hno3. lia. }
    destruct (find_carve σ3 fl3 n H3 ltac:(lia) Hfi) as (q & σ' & fl' & (C1 & C2 & C3 & C4 & C5) & Hl). exists q, σ', fl'.
    assert (list_bound σ3 = list_bound σ + Z.to_nat (Z.max n 4096))%nat as Hlb.
    { unfold list_bound. rewrite Hbrk, (Z.mul_comm hsz), Z.div_add by done. apply mapped_true in Hm. pose proof (fl_base _ _ H) as (_ & _ & ?).
      assert (0 <= u_brk σ / hsz) by (apply Z.div_pos; unfold hsz in *; lia). lia. }
    pose proof (list_bound_enough _ _ H3) as Hlen3. split; [apply Hl; unfold f'; lia|].
    split_and!; [done|rewrite C2, Hbrk; unfold hsz; lia|done| |].
    + intros x Hx Hxb Hlt. rewrite C4, Ho; try done; rewrite Hcov; intros [?|?]; done || lia.
    + intros x. rewrite <-C5, Hcov, C2. done.
Qed.

(** Before the first call. *)
Definition untouched (σ : ust) : Prop := u_freep σ = 0 /\ 0 < base /\ base `mod` hsz = 0 /\ base + hsz <= u_brk σ /\
  u_brk σ < KERNBASE /\ u_brk σ `mod` hsz = 0.
Definition usable (σ : ust) (fl : list (Z * Z)) : Prop := free_list σ fl \/ untouched σ /\ fl = [].

Lemma units_eq nbytes : 0 <= nbytes < 2147483600 -> units nbytes = (nbytes + 7) / 8 + 1 /\ 0 < units nbytes < 268435456 /\
  nbytes <= hsz * (units nbytes - 1).
Proof.
  intros Hn. unfold units, hsz. assert (0 <= (nbytes + 7) / 8 < 268435455) as Hd.
  { split; [apply Z.div_pos; lia|]. apply Z.div_lt_upper_bound; lia. }
  replace (nbytes + 8 - 1) with (nbytes + 7) by lia. rewrite (u32_small (nbytes + 7)) by lia. rewrite u32_small by lia.
  split_and!; [done|lia|lia|]. clear Hd. Z.to_euclidean_division_equations. lia.
Qed.

(** The empty list that the first call sets up. *)
Lemma init_list σ : untouched σ -> exists σ0, free_list σ0 [] /\ u_brk σ0 = u_brk σ /\ (forall x, x <> base -> u_mem σ0 x = u_mem σ x) /\
  (set_ptr base base;;; modify (set_freep base);;; set_size base 0) σ = Ret tt σ0.
Proof.
  intros (Hfp & Hb & Hal & Hbb & Hbrk & Hbal). assert (mapped base σ = true) as Hm by (apply mapped_true; lia).
  rewrite (bind_eq _ _ _ _ _ (set_ptr_eq base base σ Hm)). unfold bind, modify. rewrite set_size_eq by done. eexists. split; [|split; [|split; [|reflexivity]]].
  - cbn [u_mem set_freep set_header]. rewrite fn_lookup_insert. split; try done.
    + cbn. split; [apply fn_lookup_insert|done].
    + by repeat constructor.
    + exists 0. set_solver.
  - done.
  - intros x Hx. cbn. by rewrite !fn_lookup_insert_ne.
Qed.

Lemma malloc_spec σ fl nbytes : usable σ fl -> 0 <= nbytes < 2147483600 ->
  (exists σ', malloc base nbytes σ = Ret 0 σ' /\ sbrk (hsz * Z.max (units nbytes) 4096) σ' = Ret (-1) σ' /\ free_list σ' fl /\ u_brk σ' = u_brk σ /\ forall x, x <> base -> u_mem σ' x = u_mem σ x) \/
  (exists q σ' fl', malloc base nbytes σ = Ret (q + hsz) σ' /\ taken σ fl (units nbytes) q σ' fl').
Proof.
  intros Hu Hn. destruct (units_eq nbytes Hn) as (_ & Hun & _).
  assert (exists σ0, free_list σ0 fl /\ u_brk σ0 = u_brk σ /\ (forall x, x <> base -> u_mem σ0 x = u_mem σ x) /\
    (let! freep := gets u_freep in when (freep =? 0) (set_ptr base base;;; modify (set_freep base);;; set_size base 0)) σ = Ret tt σ0)
    as (σ0 & H0 & Hbrk & Hmem & E0).
  { destruct Hu as [Hf|[Hun0 ->]].
    - exists σ. destruct (fl_freep _ _ Hf) as [s Hs]. destruct (node_spec _ _ _ _ Hf Hs) as (_ & _ & ? & _). pose proof (fl_base _ _ Hf) as (? & _).
      unfold bind, gets. by rewrite (proj2 (Z.eqb_neq _ _)) by lia.
    - destruct (init_list σ Hun0) as (σ0 & ? & ? & ? & E). exists σ0. destruct Hun0 as [Hfp _]. unfold bind at 1, gets. by rewrite Hfp. }
  destruct (fl_freep _ _ H0) as [s Hs]. destruct (node_spec _ _ _ _ H0 Hs) as (Hm & _).
  assert (malloc base nbytes σ = malloc_loop (2 * list_bound σ0 + Z.to_nat (Z.max (units nbytes) 4096) + 2) (units nbytes)
    (u_freep σ0) (u_mem σ0 (u_freep σ0)).1 σ0) as ->.
  { unfold malloc. unfold bind at 1, gets in E0. unfold bind at 1, gets.
    by rewrite (bind_eq _ _ _ _ _ E0), (bind_eq _ _ _ σ0 σ0), (bind_eq _ _ _ _ _ (header_eq _ _ Hm)) by done. }
  destruct (loop_spec σ0 fl (units nbytes) _ H0 Hun (le_n _)) as [[E Hsb]|(q & σ' & fl' & E & T1 & T2 & T3 & T4 & T5)]; rewrite E.
  - left. exists σ0. by split_and!.
  - right. exists q, σ', fl'. split; [done|]. rewrite Hbrk in *. split_and!; try done. intros x H1 H2 H3. by rewrite T4, Hmem.
Qed.

(** ** The heap of a program

    [live] are the pointers the program holds, with the sizes of their blocks. *)
Definition block (p s : Z) : Z * Z := (p - hsz, s).
Definition payload (p s x : Z) : Prop := p <= x < p + hsz * (s - 1).

Record heap_ok (lo : Z) (σ : ust) (live : gmap Z Z) (fl : list (Z * Z)) : Prop := HeapOk {
  ho_usable : usable σ fl;
  ho_started : live = ∅ \/ free_list σ fl;
  ho_live p s : live !! p = Some s -> freeable σ fl (p - hsz) s;
  ho_apart p1 s1 p2 s2 x : live !! p1 = Some s1 -> live !! p2 = Some s2 -> p1 <> p2 -> bytes_of (block p1 s1) x -> ~ bytes_of (block p2 s2) x;
  ho_all x : lo <= x < u_brk σ -> covers fl x \/ exists p s, live !! p = Some s /\ bytes_of (block p s) x }.

Lemma apart_pointwise (b c : Z * Z) : 0 < b.2 -> 0 < c.2 -> (forall x, bytes_of b x -> ~ bytes_of c x) ->
  b.1 + hsz * b.2 <= c.1 \/ c.1 + hsz * c.2 <= b.1.
Proof.
  intros Hb Hc Hd. unfold bytes_of, hsz in *. destruct (Z.le_gt_cases b.1 c.1).
  - left. destruct (Z.le_gt_cases (b.1 + 8 * b.2) c.1); [done|]. exfalso. apply (Hd c.1); lia.
  - right. destruct (Z.le_gt_cases (c.1 + 8 * c.2) b.1); [done|]. exfalso. apply (Hd b.1); lia.
Qed.

Lemma freeable_uncovered σ fl bp s x : freeable σ fl bp s -> bytes_of (bp, s) x -> ~ covers fl x.
Proof.
  intros (_ & _ & Hd) Hx (b & Hb & Hbx)%Exists_exists. rewrite Forall_forall in Hd. specialize (Hd b Hb).
  unfold bytes_of in *. cbn in *. lia.
Qed.

Lemma usable_good σ fl b : usable σ fl -> b ∈ fl -> 0 < b.2.
Proof. intros [H|[_ ->]] Hb; [by destruct (free_list_end _ _ _ H Hb)|set_solver]. Qed.

(** A live block stays freeable when the free list changes elsewhere. *)
Lemma freeable_keep σ fl σ' fl' bp s : freeable σ fl bp s -> u_brk σ <= u_brk σ' -> usable σ' fl' ->
  (forall x, bytes_of (bp, s) x -> ~ covers fl' x /\ u_mem σ' x = u_mem σ x) -> freeable σ' fl' bp s.
Proof.
  intros ((G1 & G2 & G3 & G4) & Hs & Hd) Hbrk Hu Hx. cbn [fst snd] in *. split; [unfold good; cbn; lia|]. split.
  - destruct (Hx bp) as [_ ->]; [unfold bytes_of, hsz; cbn; lia|done].
  - apply Forall_forall. intros b Hb. apply (apart_pointwise b (bp, s)); [by eapply usable_good|done|].
    intros x Hbx Hx'. destruct (Hx x Hx') as [Hc _]. apply Hc, Exists_exists. by exists b.
Qed.

Lemma live_mem lo σ live fl p s x : heap_ok lo σ live fl -> live !! p = Some s -> bytes_of (block p s) x ->
  ~ covers fl x /\ x <> base /\ x < u_brk σ.
Proof.
  intros H Hp Hx. pose proof (ho_live _ _ _ _ H _ _ Hp) as Hf. split; [by eapply freeable_uncovered|].
  destruct Hf as ((G1 & _ & _ & G4) & _). unfold bytes_of, block, hsz in *. cbn in *. lia.
Qed.

(** The live blocks keep their contents. *)
Definition preserved (live : gmap Z Z) (σ σ' : ust) : Prop :=
  forall p s x, live !! p = Some s -> bytes_of (block p s) x -> u_mem σ' x = u_mem σ x.

Lemma heap_taken lo σ live fl n q σ' fl' : heap_ok lo σ live fl -> taken σ fl n q σ' fl' ->
  preserved live σ σ' /\ 0 < q /\ live !! (q + hsz) = None /\ heap_ok lo σ' (<[q + hsz := n]> live) fl'.
Proof.
  intros H (T1 & T2 & T3 & T4 & T5). assert (preserved live σ σ') as Hkeep.
  { intros p' s x Hp Hx. destruct (live_mem _ _ _ _ _ _ _ H Hp Hx) as (? & ? & ?). by apply T4. }
  assert (forall p' s x, live !! p' = Some s -> bytes_of (block p' s) x -> ~ covers fl' x /\ ~ bytes_of (q, n) x) as Hnew.
  { intros p' s x Hp Hx. destruct (live_mem _ _ _ _ _ _ _ H Hp Hx) as (Hc & _ & Hlt).
    split; intros Hx'; apply Hc; [destruct (proj2 (T5 x) (or_introl Hx'))|destruct (proj2 (T5 x) (or_intror Hx'))]; done || lia. }
  split; [done|]. pose proof T3 as ((G1 & G2 & G3 & G4) & _). cbn [fst snd] in *.
  assert (live !! (q + hsz) = None) as Hfresh.
  { destruct (live !! (q + hsz)) as [s|] eqn:El; [|done]. pose proof (ho_live _ _ _ _ H _ _ El) as ((_ & _ & Gs & _) & _). cbn in Gs.
    destruct (Hnew _ _ q El) as [_ Hq]; unfold bytes_of, block, hsz in *; cbn in *; lia. }
  pose proof (fl_base _ _ T1) as (Hb & _). split; [unfold hsz in *; lia|]. split; [done|]. split.
  - by left.
  - by right.
  - intros p s [[<- <-]|[Hne Hp]]%lookup_insert_Some; [by rewrite Z.add_simpl_r|].
    eapply freeable_keep; [by apply (ho_live _ _ _ _ H)|done|by left|]. intros x Hx. split; [by eapply Hnew|by eapply Hkeep].
  - intros p1 s1 p2 s2 x [[<- <-]|[Hn1 H1]]%lookup_insert_Some [[<- <-]|[Hn2 H2]]%lookup_insert_Some Hne Hx Hx'; try done.
    + unfold block in Hx. rewrite Z.add_simpl_r in Hx. by destruct (Hnew _ _ x H2 Hx').
    + unfold block in Hx'. rewrite Z.add_simpl_r in Hx'. by destruct (Hnew _ _ x H1 Hx).
    + by apply (ho_apart _ _ _ _ H p1 s1 p2 s2 x).
  - intros x Hx. assert (covers fl x \/ u_brk σ <= x < u_brk σ' -> covers fl' x \/ exists p s, <[q + hsz := n]> live !! p = Some s /\ bytes_of (block p s) x) as Hor.
    { intros [?|Hb']%T5; [by left|]. right. exists (q + hsz), n. rewrite lookup_insert_eq. unfold block. by rewrite Z.add_simpl_r. }
    destruct (Z.lt_ge_cases x (u_brk σ)); [|apply Hor; right; lia].
    destruct (ho_all _ _ _ _ H x) as [?|(p & s & Hp & Hps)]; [lia|apply Hor; by left|].
    right. exists p, s. rewrite lookup_insert_ne; [done|]. intros <-. congruence.
Qed.

Lemma heap_malloc lo σ live fl nbytes : heap_ok lo σ live fl -> 0 <= nbytes < 2147483600 -> exists p σ' fl',
  malloc base nbytes σ = Ret p σ' /\ preserved live σ σ' /\
  (p = 0 /\ sbrk (hsz * Z.max (units nbytes) 4096) σ' = Ret (-1) σ' /\ heap_ok lo σ' live fl' \/ p <> 0 /\ live !! p = None /\ heap_ok lo σ' (<[p := units nbytes]> live) fl').
Proof.
  intros H Hn. destruct (malloc_spec σ fl nbytes (ho_usable _ _ _ _ H) Hn) as [(σ' & E & Hsb & Hu & Hbrk & Hm)|(q & σ' & fl' & E & HT)].
  - exists 0, σ', fl. split; [done|]. assert (preserved live σ σ') as Hkeep.
    { intros p' s x Hp Hx. apply Hm. by destruct (live_mem _ _ _ _ _ _ _ H Hp Hx) as (_ & ? & _). }
    split; [done|]. left. split; [done|]. split; [done|]. destruct H as [H1 _ H2 H3 H4]. split; [by left|by right| |done|by rewrite Hbrk].
    intros p s Hp. eapply freeable_keep; [by apply H2|lia|by left|]. intros x Hx. split; [|by eapply Hkeep].
    eapply freeable_uncovered; [|exact Hx]. by apply H2.
  - destruct (heap_taken _ _ _ _ _ _ _ _ H HT) as (Hk & Hq & Hf & Hok). exists (q + hsz), σ', fl'.
    split_and!; [done..|]. right. split_and!; [unfold hsz; lia|done|done].
Qed.

Lemma heap_free lo σ live fl p s : heap_ok lo σ live fl -> live !! p = Some s -> exists σ' fl',
  free p σ = Ret tt σ' /\ preserved (delete p live) σ σ' /\ heap_ok lo σ' (delete p live) fl'.
Proof.
  intros H Hp. pose proof (ho_live _ _ _ _ H _ _ Hp) as Hfr. destruct (ho_started _ _ _ _ H) as [->|Hfl]; [done|].
  destruct (free_spec σ fl (p - hsz) s Hfl Hfr) as (σ' & fl' & E & Hfl' & Hbrk & Ho & _ & Hcov). rewrite Z.sub_add in E.
  exists σ', fl'. split; [done|].
  assert (forall p' s' x, delete p live !! p' = Some s' -> bytes_of (block p' s') x -> ~ covers fl' x /\ u_mem σ' x = u_mem σ x) as Hk.
  { intros p' s' x [Hne Hp']%lookup_delete_Some Hx. destruct (live_mem _ _ _ _ _ _ _ H Hp' Hx) as (Hc & Hb & _).
    assert (~ covers fl' x) as Hc' by (rewrite Hcov; intros [?|Hx']; [done|]; by apply (ho_apart _ _ _ _ H p s p' s' x)). split; [done|by apply Ho]. }
  split; [intros p' s' x ? ?; by eapply Hk|]. destruct H as [H1 H2 H3 H4 H5]. split; [by left|by right| | |].
  - intros p' s' Hp'. eapply freeable_keep; [apply H3; by apply lookup_delete_Some in Hp' as [_ ?]|lia|by left|]. intros x Hx. by eapply Hk.
  - intros p1 s1 p2 s2 x [_ Hl1]%lookup_delete_Some [_ Hl2]%lookup_delete_Some. by apply H4.
  - intros x Hx. rewrite Hbrk in Hx. rewrite Hcov. destruct (H5 x Hx) as [?|(p' & s' & Hp' & Hx')]; [by left; left|].
    destruct (decide (p = p')) as [<-|Hne]; [left; right; by simplify_eq|]. right. exists p', s'. by rewrite lookup_delete_ne.
Qed.

(** The program writes to a block it holds. *)
Lemma heap_write lo σ live fl p s x v : heap_ok lo σ live fl -> live !! p = Some s -> payload p s x ->
  heap_ok lo (set_header x v σ) live fl.
Proof.
  intros H Hp Hx. assert (bytes_of (block p s) x) as Hbx by (unfold payload, bytes_of, block, hsz in *; cbn; lia).
  destruct (live_mem _ _ _ _ _ _ _ H Hp Hbx) as (Hc & Hb & _).
  destruct (ho_started _ _ _ _ H) as [->|Hfl]; [done|].
  assert (free_list (set_header x v σ) fl) as Hfl'.
  { apply free_list_store; [done|]. intros t Ht. apply Hc. by apply (node_covered σ fl x t). }
  destruct H as [H1 H2 H3 H4 H5]. split; [by left|by right| |done|done].
  intros p' s' Hp'. destruct (H3 _ _ Hp') as (G1 & G2 & G3). split; [done|]. split; [|done]. cbn. rewrite fn_lookup_insert_ne; [done|].
  intros ->. destruct (decide (p = p')) as [<-|Hne]; [unfold payload in Hx; unfold hsz in *; lia|].
  apply (H4 p s p' s' (p' - hsz)); [done..|]. destruct G1 as (_ & _ & ? & _). unfold bytes_of, block, hsz in *. cbn in *. lia.
Qed.

(** ** Runs of a program *)

Inductive heap_step : ust * gmap Z Z -> ust * gmap Z Z -> Prop :=
| step_malloc σ live nbytes p σ' : 0 <= nbytes < 2147483600 -> malloc base nbytes σ = Ret p σ' ->
    heap_step (σ, live) (σ', if p =? 0 then live else <[p := units nbytes]> live)
| step_free σ live p s σ' : live !! p = Some s -> free p σ = Ret tt σ' -> heap_step (σ, live) (σ', delete p live)
| step_write σ live p s x v : live !! p = Some s -> payload p s x -> heap_step (σ, live) (set_header x v σ, live).

Lemma heap_start σ : untouched σ -> heap_ok (u_brk σ) σ ∅ [].
Proof. intros H. split; [by right|by left|intros p s; by rewrite lookup_empty|intros p1 s1 p2 s2 x; by rewrite lookup_empty|]. intros x Hx. lia. Qed.

Lemma heap_run lo st st' : rtc heap_step st st' -> (exists fl, heap_ok lo st.1 st.2 fl) -> exists fl, heap_ok lo st'.1 st'.2 fl.
Proof.
  induction 1 as [|st1 st2 st3 Hs _ IH]; [done|]. intros [fl H]. apply IH.
  inversion Hs as [σ live nbytes p σ' Hn E|σ live p s σ' Hp E|σ live p s x v Hp Hx]; subst; cbn [fst snd] in *.
  - destruct (heap_malloc _ _ _ _ nbytes H Hn) as (p' & σ'' & fl' & E' & _ & Hc). rewrite E in E'. injection E' as <- <-.
    exists fl'. destruct Hc as [(-> & _ & ?)|(Hp & _ & ?)]; [done|]. by rewrite (proj2 (Z.eqb_neq _ _)).
  - destruct (heap_free _ _ _ _ _ _ H Hp) as (σ'' & fl' & E' & _ & Hok). rewrite E in E'. injection E' as <-. by exists fl'.
  - exists fl. by eapply heap_write.
Qed.

End umalloc.

(** C27. The heap of a program that calls [malloc] for less than 2147483600 bytes at a
    time and [free], and writes to the blocks it holds, from its start: the
    blocks in use lie inside the process and do not overlap; and every byte that
    was obtained from the kernel is either in a block in use or in a block of the
    free list, never in both: nothing is lost and nothing is handed out twice.
    (For larger requests see [malloc_overflow].) *)
Theorem umalloc_exclusive base (SB : Sbrk) σ0 σ live : untouched base σ0 -> rtc (heap_step base) (σ0, ∅) (σ, live) ->
  (forall p s x, live !! p = Some s -> bytes_of (block p s) x -> base + hsz <= x < u_brk σ) /\
  (forall p1 s1 p2 s2 x, live !! p1 = Some s1 -> live !! p2 = Some s2 -> p1 <> p2 -> bytes_of (block p1 s1) x -> ~ bytes_of (block p2 s2) x) /\
  exists fl, usable base σ fl /\ (forall p s x, live !! p = Some s -> bytes_of (block p s) x -> ~ covers fl x) /\
    forall x, u_brk σ0 <= x < u_brk σ -> covers fl x \/ exists p s, live !! p = Some s /\ bytes_of (block p s) x.
Proof.
  intros H0 Hr. destruct (heap_run base (u_brk σ0) _ _ Hr) as [fl H]; [exists []; by apply heap_start|]. cbn [fst snd] in H.
  split_and!; [|apply (ho_apart _ _ _ _ _ H)|exists fl; split_and!; [apply (ho_usable _ _ _ _ _ H)| |apply (ho_all _ _ _ _ _ H)]].
  - intros p s x Hp Hx. destruct (ho_live _ _ _ _ _ H _ _ Hp) as ((G1 & _ & _ & G4) & _). unfold bytes_of, block in *. cbn in *. lia.
  - intros p s x Hp Hx. by destruct (live_mem _ _ _ _ _ _ _ _ H Hp Hx).
Qed.

(** C28. In every such run [malloc] of less than 2147483600 bytes and [free] return,
    although their loops go round a circular list. [malloc] returns a null pointer
    only if the kernel refuses to enlarge the process, and otherwise a pointer to
    [nbytes] bytes of the process that are part of no block in use; [free] of a
    block in use returns. Neither changes the contents of the other blocks in use. *)
Theorem umalloc_returns base (SB : Sbrk) σ0 σ live nbytes : untouched base σ0 -> rtc (heap_step base) (σ0, ∅) (σ, live) ->
  0 <= nbytes < 2147483600 ->
  (exists p σ', malloc base nbytes σ = Ret p σ' /\ preserved live σ σ' /\
    if p =? 0 then sbrk (hsz * Z.max (units nbytes) 4096) σ' = Ret (-1) σ'
    else forall x, p <= x < p + nbytes -> x < u_brk σ' /\ forall p' s, live !! p' = Some s -> ~ bytes_of (block p' s) x) /\
  forall p s, live !! p = Some s -> exists σ', free p σ = Ret tt σ' /\ preserved (delete p live) σ σ'.
Proof.
  intros H0 Hr Hn. destruct (heap_run base (u_brk σ0) _ _ Hr) as [fl H]; [exists []; by apply heap_start|]. cbn [fst snd] in H. split.
  - destruct (heap_malloc base _ _ _ _ nbytes H Hn) as (p & σ' & fl' & E & Hk & Hc). exists p, σ'. split_and!; [done..|].
    destruct Hc as [(-> & Hsb & _)|(Hp & Hf & Hok)]; [done|]. rewrite (proj2 (Z.eqb_neq _ _)) by done. intros x Hx.
    destruct (units_eq nbytes Hn) as (_ & _ & Hu).
    assert (bytes_of (block p (units nbytes)) x) as Hb by (unfold bytes_of, block, hsz in *; cbn in *; lia).
    assert (<[p := units nbytes]> live !! p = Some (units nbytes)) as Hl by apply lookup_insert_eq.
    split; [by destruct (live_mem _ _ _ _ _ _ _ _ Hok Hl Hb) as (_ & _ & ?)|]. intros p' s Hp' Hb'.
    apply (ho_apart _ _ _ _ _ Hok p (units nbytes) p' s x); try done; [|intros <-; congruence]. rewrite lookup_insert_ne; [done|intros <-; congruence].
  - intros p s Hp. destruct (heap_free base _ _ _ _ _ _ H Hp) as (σ' & fl' & E & Hk & _). by exists σ'.
Qed.

(** ** A process that may grow to a megabyte *)

#[local] Instance small_sbrk : Sbrk.
Proof.
  refine {| sbrk n := fun σ => if u_brk σ + n <? 1048576 then Ret (u_brk σ) (set_brk (u_brk σ + n) σ) else Ret (-1) σ |}.
  intros n σ. destruct (Z.ltb_spec (u_brk σ + n) 1048576); [|by left]. right. split; [unfold KERNBASE; lia|done].
Defined.

Definition new_process : ust := Ust (fun _ => (0, 0)) 0 8192.

Lemma new_untouched : untouched 4096 new_process.
Proof. by_evaluation. Qed.

Lemma umalloc_exclusive_witness : exists σ live, rtc (heap_step 4096) (new_process, ∅) (σ, live) /\ live = {[ 40856 := 14 ]} /\
  forall p s x, live !! p = Some s -> bytes_of (block p s) x -> 4096 + hsz <= x < u_brk σ.
Proof.
  assert (exists σ live, rtc (heap_step 4096) (new_process, ∅) (σ, live) /\ live = {[ 40856 := 14 ]}) as (σ & live & Hr & Hl).
  { do 2 eexists. split; [|reflexivity]. eapply rtc_l; [apply (step_malloc 4096 new_process ∅ 100 40856); [lia|vm_compute; reflexivity]|].
    apply rtc_refl. }
  exists σ, live. split; [exact Hr|]. split; [exact Hl|].
  apply (umalloc_exclusive 4096 small_sbrk new_process σ live new_untouched Hr).
Defined.

Lemma umalloc_returns_witness : exists p σ', malloc 4096 2000 new_process = Ret p σ' /\ preserved ∅ new_process σ' /\
  if p =? 0 then sbrk (hsz * Z.max (units 2000) 4096) σ' = Ret (-1) σ'
  else forall x, p <= x < p + 2000 -> x < u_brk σ' /\ forall p' s, (∅ : gmap Z Z) !! p' = Some s -> ~ bytes_of (block p' s) x.
Proof.
  apply (umalloc_returns 4096 small_sbrk new_process new_process ∅ 2000 new_untouched).
  - apply rtc_refl.
  - lia.
Defined.

(** The size in units is computed modulo 2{^32}: a request for almost all of memory
    gets a block without room for a single byte, and one for a little less makes
    [morecore] shrink the process. *)
Lemma malloc_overflow : (exists σ', malloc 4096 4294967295 new_process = Ret 40960 σ' /\ u_brk σ' = 40960) /\
  s32 (units 4026531840 * hsz) < 0.
Proof. split; [eexists; split; [vm_compute; reflexivity|reflexivity]|by_evaluation]. Qed.
