(* ===== verification/Vm.v ===== *)
(** Page tables of vm.c: walking and building two-level page tables in physical
    pages, user address spaces, and copying data out to them. *)
From S2P Require Import Prelude Kalloc.

(** ** Data *)

(** mmu.h *)
Definition PDX (va : Z) : Z := Z.land (Z.shiftr va 22) 1023.
Definition PTX (va : Z) : Z := Z.land (Z.shiftr va 12) 1023.
Definition PTE_P : Z := 1.
Definition PTE_W : Z := 2.
Definition PTE_U : Z := 4.
Definition PTE_ADDR (pte : Z) : Z := Z.land pte (Z.lnot 4095).
Definition NPDENTRIES : Z := 1024.
Definition NPTENTRIES : Z := 1024.
Definition DEVSPACE : Z := 4261412864.
Definition KERNLINK : Z := KERNBASE + EXTMEM.

(** Word [idx] of the page at [a]. *)
Definition ld32 (a idx : Z) : K kmem Z := gets (fun σ => get32 (k_mem σ a) (4 * idx)).
Definition st32 (a idx v : Z) : K kmem unit :=
  modify (fun σ => set_mem (<[a := put32 (k_mem σ a) (4 * idx) v]> (k_mem σ)) σ).
Definition zero_page (a : Z) : K kmem unit :=
  modify (fun σ => set_mem (<[a := replicate (Z.to_nat PGSIZE) 0]> (k_mem σ)) σ).
Definition bits_or (l : list Z) : Z := foldr Z.lor 0 l.

(** struct kmap *)
Record kmap_entry := Kmap { km_virt : Z; km_start : Z; km_end : Z; km_perm : Z }.

Section vm.
(** [end] and [data] of kernel.ld. *)
Context (kend kdata : Z).

(** ** Page tables *)

(** The entry as the page of the table and the index in it; [None] is 0. *)
Definition walkpgdir (pgdir va : Z) (alloc : bool) : K kmem (option (Z * Z)) :=
  let! pde := ld32 pgdir (PDX va) in
  if flag pde PTE_P then ret (Some (P2V (PTE_ADDR pde), PTX va))
  else if negb alloc then ret None
  else
  let! pgtab := kalloc in
  if pgtab =? 0 then ret None
  else
  zero_page pgtab;;;
  st32 pgdir (PDX va) (bits_or [V2P pgtab; PTE_P; PTE_W; PTE_U]);;;
  ret (Some (pgtab, PTX va)).

(** The loop of [mappages]; [n] bounds the pages left. *)
Fixpoint mappages_loop (n : nat) (pgdir a last pa perm : Z) : K kmem Z :=
  match n with
  | O => nofuel
  | S n' =>
    let! pte := walkpgdir pgdir a true in
    match pte with
    | None => ret (-1)
    | Some (t, i) =>
      let! e := ld32 t i in
      if flag e PTE_P then panic "remap"
      else
      st32 t i (bits_or [pa; perm; PTE_P]);;;
      if a =? last then ret 0
      else mappages_loop n' pgdir (u32 (a + PGSIZE)) last (u32 (pa + PGSIZE)) perm
    end
  end.

Definition mappages (pgdir va size pa perm : Z) : K kmem Z :=
  let a := PGROUNDDOWN va in
  let last := PGROUNDDOWN (u32 (va + size - 1)) in
  mappages_loop (Z.to_nat (u32 (last - a) / PGSIZE + 1)) pgdir a last pa perm.

Definition kmap : list kmap_entry :=
  [ Kmap KERNBASE 0 EXTMEM PTE_W;
    Kmap KERNLINK (V2P KERNLINK) (V2P kdata) 0;
    Kmap kdata (V2P kdata) PHYSTOP PTE_W;
    Kmap DEVSPACE DEVSPACE 0 PTE_W ].

Fixpoint setupkvm_loop (pgdir : Z) (ks : list kmap_entry) : K kmem Z :=
  match ks with
  | [] => ret pgdir
  | k :: ks' =>
    let! r := mappages pgdir (km_virt k) (u32 (km_end k - km_start k)) (km_start k) (km_perm k) in
    if r <? 0 then ret 0 else setupkvm_loop pgdir ks'
  end.

Definition setupkvm : K kmem Z :=
  let! pgdir := kalloc in
  if pgdir =? 0 then ret 0
  else
  zero_page pgdir;;;
  if DEVSPACE <? P2V PHYSTOP then panic "PHYSTOP too high"
  else setupkvm_loop pgdir kmap.

(** ** User address spaces *)

Definition inituvm (pgdir : Z) (init : list Z) : K kmem unit :=
  let sz := Z.of_nat (length init) in
  if PGSIZE <=? sz then panic "inituvm: more than a page"
  else
  let! mem := kalloc in
  if mem =? 0 then undef "memset(0)"
  else
  zero_page mem;;;
  mappages pgdir 0 PGSIZE (V2P mem) (Z.lor PTE_W PTE_U);;;
  modify (fun σ => set_mem (<[mem := splice (k_mem σ mem) 0 init]> (k_mem σ)) σ).

(** The loop of [deallocuvm]; [n] bounds the iterations left. *)
Fixpoint dealloc_loop (n : nat) (pgdir a oldsz : Z) : K kmem unit :=
  match n with
  | O => ret tt
  | S n' =>
    if a <? oldsz then
      let! pte := walkpgdir pgdir a false in
      match pte with
      | None => dealloc_loop n' pgdir (a + (NPTENTRIES - 1) * PGSIZE + PGSIZE) oldsz
      | Some (t, i) =>
        let! e := ld32 t i in
        (if flag e PTE_P then
           let pa := PTE_ADDR e in
           if pa =? 0 then panic "kfree"
           else kfree kend (P2V pa);;; st32 t i 0
         else ret tt);;;
        dealloc_loop n' pgdir (a + PGSIZE) oldsz
      end
    else ret tt
  end.

Definition deallocuvm (pgdir oldsz newsz : Z) : K kmem Z :=
  if oldsz <=? newsz then ret oldsz
  else
  let a := PGROUNDUP newsz in
  dealloc_loop (Z.to_nat ((oldsz - a) / PGSIZE + 1)) pgdir a oldsz;;;
  ret newsz.

Fixpoint allocuvm_loop (n : nat) (pgdir a oldsz newsz : Z) : K kmem Z :=
  match n with
  | O => ret newsz
  | S n' =>
    if a <? newsz then
      let! mem := kalloc in
      if mem =? 0 then deallocuvm pgdir newsz oldsz;;; ret 0
      else
      zero_page mem;;;
      mappages pgdir a PGSIZE (V2P mem) (Z.lor PTE_W PTE_U);;;
      allocuvm_loop n' pgdir (a + PGSIZE) oldsz newsz
    else ret newsz
  end.

Definition allocuvm (pgdir oldsz newsz : Z) : K kmem Z :=
  if KERNBASE <=? newsz then ret 0
  else if newsz <? oldsz then ret oldsz
  else
  let a := PGROUNDUP oldsz in
  allocuvm_loop (Z.to_nat ((newsz - a) / PGSIZE + 1)) pgdir a oldsz newsz.

Definition freevm (pgdir : Z) : K kmem unit :=
  if pgdir =? 0 then panic "freevm: no pgdir"
  else
  deallocuvm pgdir KERNBASE 0;;;
  forK (fun i =>
    let! pde := ld32 pgdir i in
    if flag pde PTE_P then kfree kend (P2V (PTE_ADDR pde)) else ret tt) (zrange 0 NPDENTRIES);;;
  kfree kend pgdir.

Definition clearpteu (pgdir uva : Z) : K kmem unit :=
  let! pte := walkpgdir pgdir uva false in
  match pte with
  | None => panic "clearpteu"
  | Some (t, i) => let! e := ld32 t i in st32 t i (Z.land e (Z.lnot PTE_U))
  end.

Fixpoint copyuvm_loop (n : nat) (pgdir d i sz : Z) : K kmem Z :=
  match n with
  | O => ret d
  | S n' =>
    if i <? sz then
      let! pte := walkpgdir pgdir i false in
      match pte with
      | None => panic "copyuvm: pte should exist"
      | Some (t, j) =>
        let! e := ld32 t j in
        if negb (flag e PTE_P) then panic "copyuvm: page not present"
        else
        let! mem := kalloc in
        if mem =? 0 then freevm d;;; ret 0
        else
        modify (fun σ => set_mem (<[mem := k_mem σ (P2V (PTE_ADDR e))]> (k_mem σ)) σ);;;
        let! r := mappages d i PGSIZE (V2P mem) (Z.lor PTE_W PTE_U) in
        if r <? 0 then freevm d;;; ret 0
        else copyuvm_loop n' pgdir d (i + PGSIZE) sz
      end
    else ret d
  end.

Definition copyuvm (pgdir sz : Z) : K kmem Z :=
  let! d := setupkvm in
  if d =? 0 then ret 0 else copyuvm_loop (Z.to_nat (sz / PGSIZE + 1)) pgdir d 0 sz.

(** The kernel address of a user page, 0 if it is not accessible; a missing page
    table makes [*pte] a null dereference. *)
Definition uva2ka (pgdir uva : Z) : K kmem Z :=
  let! pte := walkpgdir pgdir uva false in
  match pte with
  | None => undef "*pte with pte = 0"
  | Some (t, i) =>
    let! e := ld32 t i in
    if negb (flag e PTE_P) then ret 0
    else if negb (flag e PTE_U) then ret 0
    else ret (P2V (PTE_ADDR e))
  end.

(** Store [l] at offset [o] of the page at [a]. *)
Definition store_page (a o : Z) (l : list Z) : K kmem unit :=
  modify (fun σ => set_mem (<[a := splice (k_mem σ a) o l]> (k_mem σ)) σ).

(** [buf] holds the [len] bytes still to be copied; [n] bounds the iterations. *)
Fixpoint copyout_loop (n : nat) (pgdir va : Z) (buf : list Z) : K kmem Z :=
  match n with
  | O => nofuel
  | S n' =>
    match buf with
    | [] => ret 0
    | _ =>
      let va0 := PGROUNDDOWN va in
      let! pa0 := uva2ka pgdir va0 in
      if pa0 =? 0 then ret (-1)
      else
      let n := Z.min (PGSIZE - (va - va0)) (Z.of_nat (length buf)) in
      store_page pa0 (va - va0) (take (Z.to_nat n) buf);;;
      copyout_loop n' pgdir (va0 + PGSIZE) (drop (Z.to_nat n) buf)
    end
  end.

Definition copyout (pgdir va : Z) (p : list Z) : K kmem Z :=
  copyout_loop (length p / Z.to_nat PGSIZE + 3)%nat pgdir va p.

(** [loaduvm]; [rd off n] is [readi] on the inode being loaded, which works on a
    state of its own beside the memory. *)
Definition on_mem {F A} (m : K kmem A) : K (kmem * F) A := zoom fst (fun σ s => (σ, s.2)) m.
Definition on_rest {F A} (m : K F A) : K (kmem * F) A := zoom snd (fun φ s => (s.1, φ)) m.

Fixpoint loaduvm_loop {F} (rd : Z -> Z -> K F (Z * list Z)) (n : nat) (pgdir addr i offset sz : Z) : K (kmem * F) Z :=
  match n with
  | O => ret 0
  | S n' =>
    if i <? sz then
      let! pte := on_mem (walkpgdir pgdir (u32 (addr + i)) false) in
      match pte with
      | None => panic "loaduvm: address should exist"
      | Some (t, j) =>
        let! e := on_mem (ld32 t j) in
        let n := Z.min (sz - i) PGSIZE in
        let! rl := on_rest (rd (u32 (offset + i)) n) in
        on_mem (store_page (P2V (PTE_ADDR e)) 0 rl.2);;;
        if negb (rl.1 =? n) then ret (-1)
        else loaduvm_loop rd n' pgdir addr (i + PGSIZE) offset sz
      end
    else ret 0
  end.

Definition loaduvm {F} (rd : Z -> Z -> K F (Z * list Z)) (pgdir addr offset sz : Z) : K (kmem * F) Z :=
  if negb (addr `mod` PGSIZE =? 0) then panic "loaduvm: addr must be page aligned"
  else loaduvm_loop rd (Z.to_nat (sz / PGSIZE + 1)) pgdir addr 0 offset sz.
End vm.

(** ** Translation *)

Lemma PGROUNDDOWN_mod a : 0 <= a -> PGROUNDDOWN a = a - a `mod` PGSIZE.
Proof.
  intros H. unfold PGROUNDDOWN. change (PGSIZE - 1) with (Z.ones 12).
  rewrite <- Z.ldiff_land, Z.ldiff_ones_r by lia. rewrite Z.shiftr_div_pow2, Z.shiftl_mul_pow2 by lia.
  change (2 ^ 12) with PGSIZE. pose proof (Z.div_mod a PGSIZE ltac:(by vm_compute)). lia.
Qed.

Section translation.
Context (pgdir : Z).
Implicit Types (m : Z -> list Z) (σ : kmem).

(** The page table that maps [va], and the entry in it. *)
Definition table_of m (va : Z) : option Z :=
  let pde := get32 (m pgdir) (4 * PDX va) in if flag pde PTE_P then Some (P2V (PTE_ADDR pde)) else None.
Definition pte_of m (va : Z) : option Z := (fun t => get32 (m t) (4 * PTX va)) <$> table_of m va.

(** The kernel address of the page a user program sees at [va]. *)
Definition upage m (va : Z) : option Z :=
  pte_of m va ≫= fun e => if flag e PTE_P && flag e PTE_U then Some (P2V (PTE_ADDR e)) else None.

Definition ubyte m (va : Z) : option Z :=
  upage m (PGROUNDDOWN va) ≫= fun a => m a !! Z.to_nat (va - PGROUNDDOWN va).

(** User pages are whole pages, not shared with each other, and not the pages
    of the page table itself. *)
Record separated m : Prop := {
  sp_dir : forall va a, upage m va = Some a -> a <> pgdir;
  sp_tab : forall va va' a, upage m va = Some a -> table_of m va' <> Some a;
  sp_len : forall va a, upage m va = Some a -> length (m a) = Z.to_nat PGSIZE;
  sp_inj : forall va va' a, 0 <= va < 2 ^ 32 -> 0 <= va' < 2 ^ 32 -> upage m (PGROUNDDOWN va) = Some a -> upage m (PGROUNDDOWN va') = Some a ->
             PGROUNDDOWN va = PGROUNDDOWN va';
  sp_nonzero : forall va, upage m va <> Some 0
}.

(** Writing a user page does not change the translation. *)
Lemma upage_store m va0 a l va : separated m -> upage m va0 = Some a -> upage (<[a := l]> m) va = upage m va.
Proof.
  intros Hs Ha. unfold upage, pte_of, table_of.
  rewrite (fn_lookup_insert_ne m a pgdir l) by exact (sp_dir _ Hs _ _ Ha).
  destruct (flag (get32 (m pgdir) (4 * PDX va)) PTE_P) eqn:E; [|done]. cbn.
  rewrite fn_lookup_insert_ne; [done|]. intros Ht. apply (sp_tab _ Hs va0 va a Ha). unfold table_of. by rewrite E, Ht.
Qed.

Lemma table_store m va0 a l va : separated m -> upage m va0 = Some a -> table_of (<[a := l]> m) va = table_of m va.
Proof.
  intros Hs Ha. unfold table_of. by rewrite (fn_lookup_insert_ne m a pgdir l) by exact (sp_dir _ Hs _ _ Ha).
Qed.

Lemma separated_store m va0 a l : separated m -> upage m va0 = Some a -> length l = Z.to_nat PGSIZE ->
  separated (<[a := l]> m).
Proof.
  intros Hs Ha Hl. assert (forall va, upage (<[a := l]> m) va = upage m va) as Hu by (intros; by eapply upage_store).
  split.
  - intros va b. rewrite Hu. apply (sp_dir _ Hs).
  - intros va va' b. rewrite Hu, (table_store m va0) by done. apply (sp_tab _ Hs).
  - intros va b. rewrite Hu. intros Hb. destruct (decide (b = a)) as [->|]; [by rewrite fn_lookup_insert|].
    rewrite fn_lookup_insert_ne by done. by eapply (sp_len _ Hs).
  - intros va va' b. rewrite !Hu. apply (sp_inj _ Hs).
  - intros va. rewrite Hu. apply (sp_nonzero _ Hs).
Qed.

Lemma uva2ka_spec σ va (Q : Z -> kmem -> Prop) : is_Some (table_of (k_mem σ) va) ->
  Q (default 0 (upage (k_mem σ) va)) σ -> wp (uva2ka pgdir va) Q σ.
Proof.
  intros [t Ht] HQ. unfold uva2ka, walkpgdir. rewrite !wp_bind. unfold ld32. apply wp_gets.
  unfold upage, pte_of in HQ. rewrite Ht in HQ. cbn in HQ. unfold table_of in Ht.
  destruct (flag _ PTE_P); [|done]. injection Ht as <-. apply wp_ret. rewrite wp_bind. apply wp_gets.
  destruct (flag (get32 (k_mem σ (P2V _)) _) PTE_P); cbn in *; [|by apply wp_ret].
  destruct (flag (get32 (k_mem σ (P2V _)) _) PTE_U); cbn in *; by apply wp_ret.
Qed.

(** Effect of one store on the bytes the user sees. *)
Lemma ubyte_store m va0 a o l x : separated m -> va0 = PGROUNDDOWN va0 -> upage m va0 = Some a ->
  0 <= va0 < 2 ^ 32 -> 0 <= x < 2 ^ 32 -> 0 <= o ->
  o + Z.of_nat (length l) <= PGSIZE ->
  ubyte (<[a := splice (m a) o l]> m) x =
  if decide (va0 + o <= x < va0 + o + Z.of_nat (length l) /\ PGROUNDDOWN x = va0) then l !! Z.to_nat (x - va0 - o) else ubyte m x.
Proof.
  intros Hs Hal Ha Hva0 Hx Ho Hl. unfold ubyte. rewrite (upage_store m va0) by done.
  pose proof (sp_len _ Hs _ _ Ha) as Hlen. rewrite (PGROUNDDOWN_mod x) in * by lia.
  pose proof (Z.mod_pos_bound x PGSIZE ltac:(by vm_compute)) as Hm.
  case_decide as Hd.
  - destruct Hd as [Hr Hp]. rewrite Hp, Ha. cbn. rewrite fn_lookup_insert.
    rewrite lookup_splice by (rewrite ?Hlen; unfold PGSIZE in *; lia).
    repeat case_decide; try (unfold PGSIZE in *; lia). f_equal. lia.
  - destruct (upage m (x - x `mod` PGSIZE)) as [b|] eqn:Eb; [|done]. cbn.
    destruct (decide (b = a)) as [->|]; [|by rewrite fn_lookup_insert_ne].
    assert (x - x `mod` PGSIZE = va0) as Ep.
    { rewrite Hal. rewrite <- (PGROUNDDOWN_mod x) in * by lia. apply (sp_inj _ Hs x va0 a); [done|done|done|]. by rewrite <- Hal. }
    rewrite fn_lookup_insert, lookup_splice by (rewrite ?Hlen; unfold PGSIZE in *; lia).
    repeat case_decide; try done. exfalso. apply Hd. rewrite Ep. unfold PGSIZE in *. lia.
Qed.
End translation.

(** ** [copyout] *)

Lemma PGROUNDDOWN_idem a : 0 <= a -> PGROUNDDOWN (PGROUNDDOWN a) = PGROUNDDOWN a.
Proof.
  intros H. pose proof (Z.mod_pos_bound a PGSIZE ltac:(by vm_compute)).
  assert (a `mod` PGSIZE <= a) by (apply Z.mod_le; [done|by vm_compute]).
  rewrite (PGROUNDDOWN_mod a) by done. rewrite PGROUNDDOWN_mod by lia.
  assert ((a - a `mod` PGSIZE) `mod` PGSIZE = 0) as ->; [|lia].
  rewrite Zminus_mod, Z.mod_mod, Z.sub_diag by (by vm_compute). by vm_compute.
Qed.

(** Addresses on the same page as an address of the interval. *)
Lemma PGROUNDDOWN_range va x : 0 <= va -> PGROUNDDOWN va <= x < PGROUNDDOWN va + PGSIZE -> PGROUNDDOWN x = PGROUNDDOWN va.
Proof.
  intros H Hx. pose proof (Z.mod_pos_bound va PGSIZE ltac:(by vm_compute)).
  assert (va `mod` PGSIZE <= va) by (apply Z.mod_le; [done|by vm_compute]).
  rewrite (PGROUNDDOWN_mod va) in * by done. rewrite PGROUNDDOWN_mod by lia.
  pose proof (Z.div_mod va PGSIZE ltac:(by vm_compute)) as Hd.
  assert (x `mod` PGSIZE = x - (va - va `mod` PGSIZE)) as ->; [|lia].
  symmetry. apply (Z.mod_unique _ _ (va / PGSIZE)); lia.
Qed.

Section copyout.
Context (pgdir : Z).

(** Every page of [va, va+len) is mapped for the user. *)
Definition user_range (m : Z -> list Z) (va len : Z) : Prop :=
  forall x, va <= x < va + len -> is_Some (upage pgdir m (PGROUNDDOWN x)).

(** The page after an aligned one. *)
Lemma page_aligned va0 : 0 <= va0 -> va0 = PGROUNDDOWN va0 -> va0 `mod` PGSIZE = 0 /\ PGROUNDDOWN (va0 + PGSIZE) = va0 + PGSIZE.
Proof.
  intros H0 Hal. assert (va0 `mod` PGSIZE = 0) as E0 by (pose proof (PGROUNDDOWN_mod va0 ltac:(done)); lia). split; [done|].
  rewrite PGROUNDDOWN_mod by (unfold PGSIZE; lia). rewrite <- Z.add_mod_idemp_l, E0 by (by vm_compute). change ((0 + PGSIZE) `mod` PGSIZE) with 0. lia.
Qed.

Lemma PGROUNDDOWN_in x va0 : 0 <= x -> 0 <= va0 -> va0 = PGROUNDDOWN va0 -> PGROUNDDOWN x = va0 <-> va0 <= x < va0 + PGSIZE.
Proof.
  intros Hx H0 Hal. split.
  - intros <-. rewrite PGROUNDDOWN_mod by lia. pose proof (Z.mod_pos_bound x PGSIZE ltac:(by vm_compute)). lia.
  - rewrite Hal. by apply PGROUNDDOWN_range.
Qed.

Lemma copyout_loop_spec n σ va buf : separated pgdir (k_mem σ) -> 0 <= va ->
  va - PGROUNDDOWN va + Z.of_nat (length buf) <= PGSIZE * (Z.of_nat n - 1) -> (0 < n)%nat ->
  user_range (k_mem σ) va (Z.of_nat (length buf)) -> va + Z.of_nat (length buf) <= 2 ^ 32 ->
  wp (copyout_loop n pgdir va buf) (fun r σ' => r = 0 /\ k_freelist σ' = k_freelist σ /\
    (forall x, upage pgdir (k_mem σ') x = upage pgdir (k_mem σ) x) /\
    forall x, 0 <= x < 2 ^ 32 -> ubyte pgdir (k_mem σ') x =
      if decide (va <= x < va + Z.of_nat (length buf)) then buf !! Z.to_nat (x - va) else ubyte pgdir (k_mem σ) x) σ.
Proof.
  revert σ va buf. induction n as [|n IH]; intros σ va buf Hs Hva Hn Hn0 Hu Hmax; [lia|]. cbn [copyout_loop].
  destruct buf as [|c buf'] eqn:Eb.
  { apply wp_ret. split_and!; try done. intros x Hx. by rewrite decide_False by (simpl; lia). }
  assert (0 < length buf)%nat as Hlen by (rewrite Eb; simpl; lia).
  rewrite <- Eb in *. clear Eb c buf'. set (va0 := PGROUNDDOWN va) in *.
  pose proof (Z.mod_pos_bound va PGSIZE ltac:(by vm_compute)) as Hmod.
  assert (va0 = va - va `mod` PGSIZE) as Eva0 by (unfold va0; by apply PGROUNDDOWN_mod).
  assert (0 <= va0) by (pose proof (Z.mod_le va PGSIZE Hva ltac:(by vm_compute)); lia).
  assert (va0 = PGROUNDDOWN va0) as Hal by (unfold va0; by rewrite PGROUNDDOWN_idem).
  destruct (Hu va ltac:(lia)) as [a Ha]. fold va0 in Ha.
  assert (is_Some (table_of pgdir (k_mem σ) va0)) as Ht.
  { unfold upage, pte_of in Ha. destruct (table_of pgdir (k_mem σ) va0); [done|discriminate]. }
  rewrite wp_bind. apply uva2ka_spec; [done|]. rewrite Ha. cbn [default from_option id].
  destruct (Z.eqb_spec a 0) as [->|_]; [by apply (sp_nonzero _ _ Hs) in Ha|].
  set (k := Z.min (PGSIZE - (va - va0)) (Z.of_nat (length buf))).
  assert (0 < k <= Z.of_nat (length buf) /\ k <= PGSIZE - (va - va0)) as [Hk Hk'] by lia.
  assert (length (take (Z.to_nat k) buf) = Z.to_nat k) as Etk by (rewrite length_take; lia).
  pose proof (sp_len _ _ Hs _ _ Ha) as Hla.
  rewrite wp_bind. unfold store_page. apply wp_modify. set (σ1 := set_mem _ σ).
  set (m1 := <[a := splice (k_mem σ a) (va - va0) (take (Z.to_nat k) buf)]> (k_mem σ)).
  assert (k_mem σ1 = m1) as Em by done.
  assert (forall x, upage pgdir m1 x = upage pgdir (k_mem σ) x) as Hup by (intros; by eapply upage_store).
  pose proof (ubyte_store pgdir (k_mem σ) va0 a (va - va0) (take (Z.to_nat k) buf)) as Hub. fold m1 in Hub.
  eapply wp_mono; [apply (IH σ1 (va0 + PGSIZE) (drop (Z.to_nat k) buf))|].
  - rewrite Em. eapply separated_store; try done. rewrite length_splice; [done|lia|]. rewrite Etk, Hla. unfold PGSIZE in *. lia.
  - unfold PGSIZE. lia.
  - rewrite length_drop, (proj2 (page_aligned va0 ltac:(lia) Hal)). destruct (decide (k = Z.of_nat (length buf))); unfold PGSIZE in *; lia.
  - unfold PGSIZE in *. lia.
  - intros x Hx. rewrite Em, Hup. apply Hu. rewrite length_drop in Hx. lia.
  - rewrite length_drop. destruct (decide (k = Z.of_nat (length buf))); [|unfold PGSIZE in *; lia].
    replace (length buf - Z.to_nat k)%nat with 0%nat by lia.
    pose proof (proj1 (page_aligned va0 ltac:(lia) Hal)) as E0. pose proof (Z.div_mod va0 PGSIZE ltac:(by vm_compute)). unfold PGSIZE in *. lia.
  - intros r σ' (-> & Hf & Hup' & Hb'). split_and!; [done|done| |].
    + intros x. by rewrite Hup', Em.
    + intros x Hx. rewrite Hb' by done. rewrite Em, length_drop.
      rewrite Hub by (try done; rewrite ?Etk; unfold PGSIZE in *; lia). rewrite Etk.
      replace (va0 + (va - va0)) with va by lia. replace (x - va0 - (va - va0)) with (x - va) by lia.
      pose proof (PGROUNDDOWN_in x va0 ltac:(lia) ltac:(lia) Hal) as Hpx.
      repeat case_decide; try lia; try done.
      * rewrite lookup_drop. f_equal. lia.
      * rewrite lookup_take_lt by lia. done.
Qed.
End copyout.

(** ** Theorems *)

(** C22. [copyout] to a mapped user range succeeds, the user then reads exactly
    the bytes copied, every other user byte and the whole translation are
    unchanged. *)
Theorem copyout_correct pgdir σ va p : separated pgdir (k_mem σ) -> 0 <= va ->
  user_range pgdir (k_mem σ) va (Z.of_nat (length p)) -> va + Z.of_nat (length p) <= 2 ^ 32 ->
  exists σ', copyout pgdir va p σ = Ret 0 σ' /\
    (forall x, upage pgdir (k_mem σ') x = upage pgdir (k_mem σ) x) /\
    forall x, 0 <= x < 2 ^ 32 -> ubyte pgdir (k_mem σ') x =
      if decide (va <= x < va + Z.of_nat (length p)) then p !! Z.to_nat (x - va) else ubyte pgdir (k_mem σ) x.
Proof.
  intros Hs Hva Hu Hmax.
  assert (0 <= va - PGROUNDDOWN va < PGSIZE) as Ho.
  { rewrite PGROUNDDOWN_mod by done. pose proof (Z.mod_pos_bound va PGSIZE ltac:(by vm_compute)). lia. }
  pose proof (copyout_loop_spec pgdir (length p / Z.to_nat PGSIZE + 3) σ va p Hs Hva) as H.
  assert (Z.of_nat (length p) < PGSIZE * Z.of_nat (length p / Z.to_nat PGSIZE + 1)) as Hd.
  { pose proof (Nat.mul_succ_div_gt (length p) (Z.to_nat PGSIZE) ltac:(by vm_compute)). unfold PGSIZE in *. lia. }
  destruct (proj1 (wp_Ret _ _ _) (H ltac:(unfold PGSIZE in *; lia) ltac:(lia) Hu Hmax)) as (r & σ' & E & -> & _ & H1 & H2).
  exists σ'. done.
Qed.

(** A page directory at 0x80400000, one page table, one user page at 0. *)
Definition small_pgdir : Z := 2151677952.
Definition small_mem : Z -> list Z := fun a =>
  if a =? 2151677952 then put32 (replicate 4096 0) 0 (4198400 + 7)
  else if a =? 2151682048 then put32 (replicate 4096 0) 0 (4202496 + 7)
  else replicate 4096 0.

Lemma get32_zeros n o : get32 (replicate n 0) o = 0.
Proof.
  unfold get32, slice. rewrite drop_replicate, take_replicate. generalize (Z.to_nat 4 `min` (n - Z.to_nat o))%nat.
  intros k. induction k as [|k IH]; [done|]. change (0 + 256 * le_dec (replicate k 0) = 0). by rewrite IH.
Qed.

Lemma PDX_range va : 0 <= PDX va < 1024.
Proof. unfold PDX. change 1023 with (Z.ones 10). rewrite Z.land_ones by lia. apply Z.mod_pos_bound. lia. Qed.
Lemma PTX_range va : 0 <= PTX va < 1024.
Proof. unfold PTX. change 1023 with (Z.ones 10). rewrite Z.land_ones by lia. apply Z.mod_pos_bound. lia. Qed.

Lemma get32_one v i : 0 <= i < 1024 -> 0 <= v < 2 ^ 32 ->
  get32 (put32 (replicate 4096 0) 0 v) (4 * i) = if i =? 0 then v else 0.
Proof.
  intros Hi Hv. destruct (Z.eqb_spec i 0) as [->|].
  - change (4 * 0) with 0. rewrite get32_put32_eq by (rewrite ?length_replicate; lia). apply u32_small. lia.
  - rewrite get32_put32_ne by (rewrite ?length_replicate; lia). apply get32_zeros.
Qed.

Lemma small_table va : table_of small_pgdir small_mem va = if PDX va =? 0 then Some 2151682048 else None.
Proof.
  unfold table_of. change (small_mem small_pgdir) with (put32 (replicate 4096 0) 0 (4198400 + 7)).
  rewrite get32_one by (apply PDX_range || lia). by destruct (PDX va =? 0).
Qed.

Lemma small_upage va : upage small_pgdir small_mem va =
  if (PDX va =? 0) && (PTX va =? 0) then Some 2151686144 else None.
Proof.
  unfold upage, pte_of. rewrite small_table. destruct (PDX va =? 0); [|done]. cbn [fmap option_fmap option_map].
  change (small_mem 2151682048) with (put32 (replicate 4096 0) 0 (4202496 + 7)).
  cbn [mbind option_bind]. rewrite get32_one by (apply PTX_range || lia). by destruct (PTX va =? 0).
Qed.

Lemma small_first va : 0 <= va < 2 ^ 32 -> PDX (PGROUNDDOWN va) = 0 -> PTX (PGROUNDDOWN va) = 0 -> PGROUNDDOWN va = 0.
Proof.
  intros Hva. rewrite PGROUNDDOWN_mod by lia. unfold PDX, PTX. change 1023 with (Z.ones 10).
  rewrite !Z.land_ones, !Z.shiftr_div_pow2 by lia. unfold PGSIZE.
  change (2 ^ 22) with 4194304. change (2 ^ 12) with 4096. change (2 ^ 10) with 1024.
  pose proof (Z.mod_pos_bound va 4096 ltac:(lia)). pose proof (Z.div_mod va 4096 ltac:(lia)).
  replace (va - va `mod` 4096) with (va / 4096 * 4096) by lia. rewrite Z.div_mul by lia.
  replace 4194304 with (4096 * 1024) by lia. rewrite <- Z.div_div, Z.div_mul by lia.
  set (q := va / 4096) in *. intros H1 H2. pose proof (Z.div_mod q 1024 ltac:(lia)). 
  assert (0 <= q < 1048576) by (split; [apply Z.div_pos; lia|apply Z.div_lt_upper_bound; lia]).
  rewrite Z.mod_small in H1; [lia|]. split; [apply Z.div_pos; lia|apply Z.div_lt_upper_bound; lia].
Qed.

Lemma small_separated : separated small_pgdir small_mem.
Proof.
  split; intros *; rewrite ?small_upage, ?small_table.
  - destruct (_ && _); [|done]. by intros [= <-].
  - destruct (_ && _); [|done]. intros [= <-]. by destruct (_ =? _).
  - destruct (_ && _); [|done]. intros [= <-]. unfold small_mem. cbn [Z.eqb Pos.eqb]. apply length_replicate.
  - intros Hv Hv'. destruct (PDX (PGROUNDDOWN va) =? 0) eqn:E1; [|done]. destruct (PTX (PGROUNDDOWN va) =? 0) eqn:E2; [|done].
    destruct (PDX (PGROUNDDOWN va') =? 0) eqn:E3; [|done]. destruct (PTX (PGROUNDDOWN va') =? 0) eqn:E4; [|done].
    intros _ _. apply Z.eqb_eq in E1, E2, E3, E4. by rewrite !small_first.
  - by destruct (_ && _).
Qed.

Lemma copyout_correct_witness : exists σ', copyout small_pgdir 10 [1; 2; 3] (Kmem small_mem 0) = Ret 0 σ' /\
  ubyte small_pgdir (k_mem σ') 11 = Some 2.
Proof.
  destruct (copyout_correct small_pgdir (Kmem small_mem 0) 10 [1; 2; 3]) as (σ' & E & _ & Hb).
  - exact small_separated.
  - lia.
  - intros x Hx. cbn in Hx. assert (PGROUNDDOWN x = 0) as ->.
    { rewrite PGROUNDDOWN_mod by lia. rewrite Z.mod_small by (unfold PGSIZE; lia). lia. }
    cbn [k_mem]. rewrite small_upage. by eexists.
  - cbn. lia.
  - exists σ'. split; [exact E|]. by rewrite (Hb 11) by lia.
Defined.

(** [copyout] never reaches a page the user cannot access: if the page of
    [va] is not present or lacks [PTE_U], it fails and writes nothing. *)
Theorem copyout_protects pgdir σ va p : p <> [] -> is_Some (table_of pgdir (k_mem σ) (PGROUNDDOWN va)) ->
  upage pgdir (k_mem σ) (PGROUNDDOWN va) = None -> copyout pgdir va p σ = Ret (-1) σ.
Proof.
  intros Hp Ht Hu. unfold copyout. rewrite Nat.add_comm. cbn [Nat.add copyout_loop]. destruct p as [|c p]; [done|].
  assert (wp (uva2ka pgdir (PGROUNDDOWN va)) (fun r σ' => r = 0 /\ σ' = σ) σ) as H.
  { apply uva2ka_spec; [exact Ht|]. rewrite Hu. split; reflexivity. }
  apply wp_Ret in H as (r & σ' & E & -> & ->). unfold bind. rewrite E. reflexivity.
Qed.

Lemma copyout_protects_witness : copyout small_pgdir 5000 [1; 2; 3] (Kmem small_mem 0) = Ret (-1) (Kmem small_mem 0).
Proof.
  assert (PGROUNDDOWN 5000 = 4096) as E by by vm_compute.
  apply (copyout_protects small_pgdir (Kmem small_mem 0) 5000 [1; 2; 3]).
  - discriminate.
  - rewrite E. cbn [k_mem]. rewrite small_table. by eexists.
  - rewrite E. cbn [k_mem]. by rewrite small_upage.
Defined.

(** [uva2ka] does not check that the page table exists: for an address whose
    page directory entry is not present it dereferences a null pointer. *)
Theorem uva2ka_null_deref pgdir σ va : table_of pgdir (k_mem σ) va = None ->
  uva2ka pgdir va σ = Undef "*pte with pte = 0".
Proof.
  intros H. unfold table_of in H. unfold uva2ka, walkpgdir, ld32, bind, gets. cbn.
  by destruct (flag (get32 (k_mem σ pgdir) (4 * PDX va)) PTE_P).
Qed.

Lemma uva2ka_null_deref_witness : uva2ka small_pgdir 4194304 (Kmem small_mem 0) = Undef "*pte with pte = 0".
Proof. apply (uva2ka_null_deref small_pgdir (Kmem small_mem 0) 4194304). cbn [k_mem]. by rewrite small_table. Defined.

(** A memory of zeroed pages with one page on the free list. *)
Definition one_page : kmem := Kmem (fun _ => replicate 4096 0) 2151686144.

(** [allocuvm] ignores the result of [mappages]: with one free page and no
    page table for the new page it reports success although nothing is mapped,
    and the page is lost. *)
Theorem allocuvm_unmapped :
  wp (allocuvm KERNBASE small_pgdir 0 4096)
     (fun r σ' => r = 4096 /\ pte_of small_pgdir (k_mem σ') 0 = None /\ k_freelist σ' = 0) one_page.
Proof. vm_compute. split_and!; reflexivity. Qed.
