(* ===== verification/Ring.v ===== *)
(** Ring buffers of a size that divides 2^32, indexed by free-running 32-bit
    counters: the arithmetic that pipe.c and console.c share. *)
From S2P Require Import Prelude.

Lemma u32_inj_small r a b : 0 <= a < 2 ^ 32 -> 0 <= b < 2 ^ 32 -> u32 (r + a) = u32 (r + b) -> a = b.
Proof.
  intros Ha Hb. with_strategy transparent [u32] unfold u32. intros E.
  assert (((r + a) - (r + b)) `mod` 4294967296 = 0) as E0 by (rewrite Zminus_mod, E, Z.sub_diag; done).
  apply Z.mod_divide in E0 as [k Hk]; [|lia]. lia.
Qed.

Lemma u32_add a b : u32 (u32 a + b) = u32 (a + b).
Proof. with_strategy transparent [u32] unfold u32. by rewrite Z.add_mod_idemp_l by lia. Qed.

(** The counters [r] and [r + k] coincide only when [k] is 0. *)
Lemma u32_eq_0 r k : 0 <= r < 2 ^ 32 -> 0 <= k < 2 ^ 32 -> u32 (r + k) = r -> k = 0.
Proof. intros Hr Hk E. rewrite <- (u32_small r) in E at 2 by lia. rewrite <- (Z.add_0_r r) in E at 2. by apply u32_inj_small in E. Qed.

(** The number of bytes between two counters. *)
Lemma u32_diff r k : 0 <= k < 2 ^ 32 -> u32 (u32 (r + k) - r) = k.
Proof.
  intros Hk. rewrite <- Z.add_opp_r, u32_add. replace (r + k + - r) with k by lia. by apply u32_small.
Qed.

(** Counter [r + i] of a ring [d] of [N] slots. *)
Definition slot (N r : Z) (i : nat) : nat := Z.to_nat (u32 (r + Z.of_nat i) `mod` N).

(** The [k] bytes from counter [r] on. *)
Definition ring (N : Z) (d : list Z) (r : Z) (k : nat) : list Z :=
  (fun i => default 0 (d !! slot N r i)) <$> seq 0 k.

Class RingSize (N : Z) : Prop := {
  rs_pos : 0 < N;
  rs_small : N < 2 ^ 32;
  rs_divides : (N | 2 ^ 32)
}.

Section ring.
Context (N : Z) `{!RingSize N}.

Lemma u32_mod z : u32 z `mod` N = z `mod` N.
Proof. with_strategy transparent [u32] unfold u32. apply Z.mod_mod_divide, rs_divides. Qed.

Lemma slot_0 r : 0 <= r < 2 ^ 32 -> slot N r 0 = Z.to_nat (r `mod` N).
Proof. intros Hr. unfold slot. by rewrite Z.add_0_r, u32_mod. Qed.

Lemma slot_u32 z : slot N z 0 = Z.to_nat (u32 z `mod` N).
Proof. unfold slot. by rewrite Z.add_0_r. Qed.

Lemma index_lt z : (Z.to_nat (z `mod` N) < Z.to_nat N)%nat.
Proof. pose proof rs_pos. pose proof (Z.mod_pos_bound z N ltac:(lia)). lia. Qed.

(** Positions below the capacity are distinct slots. *)
Lemma slot_ne r i j : (i < Z.to_nat N)%nat -> (j < Z.to_nat N)%nat -> i <> j -> slot N r i <> slot N r j.
Proof.
  intros Hi Hj Hij. unfold slot. rewrite !u32_mod. pose proof rs_pos.
  pose proof (Z.mod_pos_bound (r + Z.of_nat i) N ltac:(lia)). pose proof (Z.mod_pos_bound (r + Z.of_nat j) N ltac:(lia)).
  pose proof (Z.div_mod (r + Z.of_nat i) N ltac:(lia)). pose proof (Z.div_mod (r + Z.of_nat j) N ltac:(lia)).
  intros E%Z2Nat.inj; [|lia..]. rewrite E in *.
  destruct (Z.eq_dec ((r + Z.of_nat i) / N) ((r + Z.of_nat j) / N)); nia.
Qed.

Lemma length_ring d r k : length (ring N d r k) = k.
Proof. unfold ring. by rewrite length_fmap, length_seq. Qed.

Lemma ring_S d r k : ring N d r (S k) = ring N d r k ++ [default 0 (d !! slot N r k)].
Proof. unfold ring. rewrite seq_S, fmap_app. done. Qed.

Lemma ring_cons d r k : ring N d r (S k) = default 0 (d !! slot N r 0) :: ring N d (u32 (r + 1)) k.
Proof.
  unfold ring. rewrite <- cons_seq. cbn [fmap list_fmap]. f_equal.
  rewrite <- fmap_S_seq, <- list_fmap_compose. apply list_fmap_ext. intros _ j _. cbn.
  unfold slot. rewrite u32_add. do 5 f_equal. lia.
Qed.

Lemma ring_take d r k j : (j <= k)%nat -> take j (ring N d r k) = ring N d r j.
Proof. intros H. unfold ring. rewrite <- fmap_take, take_seq. by replace (j `min` k)%nat with j by lia. Qed.

(** Storing past the end of the ring's contents appends. *)
Lemma ring_push d r k c : length d = Z.to_nat N -> (k < Z.to_nat N)%nat ->
  ring N (<[slot N r k := c]> d) r (S k) = ring N d r k ++ [c].
Proof.
  intros Hd Hk. rewrite ring_S. f_equal.
  - unfold ring. apply list_fmap_ext. intros i j Hj. apply lookup_seq in Hj as [-> ?].
    rewrite list_lookup_insert_ne; [done|]. apply slot_ne; lia.
  - rewrite list_lookup_insert_eq; [done|]. rewrite Hd. apply index_lt.
Qed.
End ring.
