(* ===== verification/Pipe.v ===== *)
(** Pipes of pipe.c: a ring buffer indexed by two wrapping 32-bit counters, and
    its refinement to a bounded queue of bytes. *)
From S2P Require Import Prelude Ring.

(** ** Data *)

Definition PIPESIZE : Z := 512.

(** struct pipe *)
Record pipe := Pipe {
  p_data : list Z; p_nread : Z; p_nwrite : Z; p_readopen : bool; p_writeopen : bool
}.

(** The pipe set up by [pipealloc] in a page with contents [d]. *)
Definition new_pipe (d : list Z) : pipe := Pipe d 0 0 true true.

(** ** Operations: [killed] is [proc->killed] *)

Definition full (p : pipe) : bool := p_nwrite p =? u32 (p_nread p + PIPESIZE).

(** [p->data[p->nwrite++ % PIPESIZE] = c] *)
Definition push (c : Z) (p : pipe) : pipe :=
  Pipe (<[Z.to_nat (p_nwrite p `mod` PIPESIZE) := c]> (p_data p)) (p_nread p) (u32 (p_nwrite p + 1))
       (p_readopen p) (p_writeopen p).

Fixpoint pipewrite_loop (killed : bool) (addr : list Z) (n : Z) : K pipe Z :=
  match addr with
  | [] => ret n
  | c :: addr' =>
    let! p := get in
    if full p then
      if negb (p_readopen p) || killed then ret (-1) else sleeps
    else modify (push c);;; pipewrite_loop killed addr' n
  end.

(** [n] bytes from [addr]. *)
Definition pipewrite (killed : bool) (addr : list Z) (n : Z) : K pipe Z :=
  pipewrite_loop killed (take (Z.to_nat n) addr) n.

(** The copying loop of [piperead]: the bytes stored at [addr]. *)
Fixpoint piperead_loop (n : nat) : K pipe (list Z) :=
  match n with
  | O => ret []
  | S n' =>
    let! p := get in
    if p_nread p =? p_nwrite p then ret []
    else
    let! c := lift_opt "p->data index" (p_data p !! Z.to_nat (p_nread p `mod` PIPESIZE)) in
    modify (fun p => Pipe (p_data p) (u32 (p_nread p + 1)) (p_nwrite p) (p_readopen p) (p_writeopen p));;;
    let! l := piperead_loop n' in
    ret (c :: l)
  end.

(** The value returned and the bytes stored at [addr]. *)
Definition piperead (killed : bool) (n : Z) : K pipe (Z * list Z) :=
  let! p := get in
  if (p_nread p =? p_nwrite p) && p_writeopen p then
    if killed then ret (-1, []) else sleeps
  else
  let! l := piperead_loop (Z.to_nat n) in
  ret (Z.of_nat (length l), l).

(** [pipeclose] on one end; the result tells that the page is freed. *)
Definition pipeclose (writable : bool) : K pipe bool :=
  modify (fun p => if writable then Pipe (p_data p) (p_nread p) (p_nwrite p) (p_readopen p) false
                   else Pipe (p_data p) (p_nread p) (p_nwrite p) false (p_writeopen p));;;
  let! p := get in
  ret (negb (p_readopen p) && negb (p_writeopen p)).

(** ** Specification: a queue of at most [PIPESIZE] bytes *)

Record queue := Queue { q_bytes : list Z; q_readers : bool; q_writers : bool }.

Definition q_full (q : queue) : bool := Z.of_nat (length (q_bytes q)) =? PIPESIZE.

Definition q_write (killed : bool) (addr : list Z) (n : Z) (q : queue) : outcome queue Z :=
  let l := take (Z.to_nat n) addr in
  let k := (Z.to_nat PIPESIZE - length (q_bytes q))%nat in
  let q' := Queue (q_bytes q ++ take k l) (q_readers q) (q_writers q) in
  if (length l <=? k)%nat then Ret n q'
  else if negb (q_readers q) || killed then Ret (-1) q' else Sleeps q'.

Definition q_read (killed : bool) (n : Z) (q : queue) : outcome queue (Z * list Z) :=
  if (length (q_bytes q) =? 0)%nat && q_writers q then
    if killed then Ret (-1, []) q else Sleeps q
  else let l := take (Z.to_nat n) (q_bytes q) in
  Ret (Z.of_nat (length l), l) (Queue (drop (Z.to_nat n) (q_bytes q)) (q_readers q) (q_writers q)).

Definition q_close (writable : bool) (q : queue) : outcome queue bool :=
  let q' := if writable then Queue (q_bytes q) (q_readers q) false else Queue (q_bytes q) false (q_writers q) in
  Ret (negb (q_readers q') && negb (q_writers q')) q'.

(** ** Refinement *)

#[export] Instance PIPESIZE_ring : RingSize PIPESIZE.
Proof. split; [done..|by exists 8388608]. Qed.

Record pipe_rep (p : pipe) (q : queue) : Prop := {
  pr_data : length (p_data p) = Z.to_nat PIPESIZE;
  pr_read : 0 <= p_nread p < 2 ^ 32;
  pr_len : (length (q_bytes q) <= Z.to_nat PIPESIZE)%nat;
  pr_write : p_nwrite p = u32 (p_nread p + Z.of_nat (length (q_bytes q)));
  pr_bytes : q_bytes q = ring PIPESIZE (p_data p) (p_nread p) (length (q_bytes q));
  pr_ropen : p_readopen p = q_readers q;
  pr_wopen : p_writeopen p = q_writers q
}.

Section refinement.
Implicit Types (p : pipe) (q : queue).

Lemma full_q p q : pipe_rep p q -> full p = q_full q.
Proof.
  intros [_ Hr Hl Hw _ _ _]. unfold full, q_full. rewrite Hw. apply eq_true_iff_eq. rewrite !Z.eqb_eq.
  split; [|by intros ->]. apply u32_inj_small; unfold PIPESIZE in *; lia.
Qed.

Lemma push_rep p q c : pipe_rep p q -> q_full q = false ->
  pipe_rep (push c p) (Queue (q_bytes q ++ [c]) (q_readers q) (q_writers q)).
Proof.
  intros [Hd Hr Hl Hw Hb Ho1 Ho2] Hf. unfold q_full in Hf. apply Z.eqb_neq in Hf.
  assert (length (q_bytes q) < Z.to_nat PIPESIZE)%nat as Hlt by (unfold PIPESIZE in *; lia).
  split; cbn [push p_data p_nread p_nwrite p_readopen p_writeopen q_bytes q_readers q_writers]; try done.
  - by rewrite length_insert.
  - rewrite length_app. simpl. lia.
  - rewrite Hw, u32_add, length_app. f_equal. simpl. lia.
  - rewrite length_app. change (length [c]) with 1%nat. rewrite Nat.add_1_r, Hw.
    change (Z.to_nat (u32 ?z `mod` PIPESIZE)) with (slot PIPESIZE (p_nread p) (length (q_bytes q))).
    rewrite (ring_push PIPESIZE) by done. by rewrite <- Hb.
Qed.

(** Writing into the ring is writing into the queue. *)
Lemma pipewrite_sim killed l p q n : pipe_rep p q ->
  sim pipe_rep (pipewrite_loop killed l n p)
    (let k := (Z.to_nat PIPESIZE - length (q_bytes q))%nat in
     let q' := Queue (q_bytes q ++ take k l) (q_readers q) (q_writers q) in
     if (length l <=? k)%nat then Ret n q'
     else if negb (q_readers q) || killed then Ret (-1) q' else Sleeps q').
Proof.
  revert p q; induction l as [|c l IH]; intros p q Hr; cbn [pipewrite_loop].
  - cbn. rewrite take_nil, app_nil_r. split; [done|]. by destruct q.
  - unfold bind, get. rewrite (full_q _ _ Hr). destruct (q_full q) eqn:Ef.
    + unfold q_full in Ef. apply Z.eqb_eq in Ef.
      replace (Z.to_nat PIPESIZE - length (q_bytes q))%nat with 0%nat by lia.
      cbn. rewrite app_nil_r, (pr_ropen _ _ Hr). destruct q as [b r w]. cbn in *. by destruct (negb r || killed).
    + cbn. pose proof (push_rep p q c Hr Ef) as Hr'. specialize (IH _ _ Hr'). cbn in IH.
      rewrite length_app in IH. simpl in IH.
      assert (length (q_bytes q) < Z.to_nat PIPESIZE)%nat as Hlt.
      { unfold q_full in Ef. apply Z.eqb_neq in Ef. pose proof (pr_len _ _ Hr). unfold PIPESIZE in *. lia. }
      destruct (Z.to_nat PIPESIZE - length (q_bytes q))%nat as [|k] eqn:Ek; [lia|].
      replace (Z.to_nat PIPESIZE - (length (q_bytes q) + 1))%nat with k in IH by lia.
      rewrite <- app_assoc in IH. exact IH.
Qed.

Lemma piperead_loop_sim n p q : pipe_rep p q ->
  exists p', piperead_loop n p = Ret (take n (q_bytes q)) p' /\
    pipe_rep p' (Queue (drop n (q_bytes q)) (q_readers q) (q_writers q)).
Proof.
  revert p q; induction n as [|n IH]; intros p q Hr; cbn [piperead_loop].
  { exists p. rewrite take_0, drop_0. split; [done|]. by destruct q. }
  pose proof Hr as [Hd Hn Hl Hw Hb Ho1 Ho2]. unfold bind, get.
  destruct (q_bytes q) as [|c l] eqn:Eq.
  { cbn in Hw. rewrite Z.add_0_r, u32_small in Hw by lia. rewrite Hw, Z.eqb_refl. exists p. split; [done|].
    rewrite drop_nil, <- Eq. by destruct q. }
  cbn [length] in *. rewrite ring_cons, slot_0 in Hb by (typeclasses eauto || lia). injection Hb as Hc Hrest.
  destruct (Z.eqb_spec (p_nread p) (p_nwrite p)) as [E|_].
  { exfalso. rewrite Hw in E. rewrite <- (u32_small (p_nread p)) in E at 1 by lia.
    rewrite <- (Z.add_0_r (p_nread p)) in E at 1. apply u32_inj_small in E; unfold PIPESIZE in *; lia. }
  destruct (p_data p !! Z.to_nat (p_nread p `mod` PIPESIZE)) as [x|] eqn:Ex.
  2:{ apply lookup_ge_None in Ex. pose proof (index_lt PIPESIZE (p_nread p)). lia. }
  cbn in Hc. subst x. cbn [lift_opt]. unfold ret, modify.
  destruct (IH (Pipe (p_data p) (u32 (p_nread p + 1)) (p_nwrite p) (p_readopen p) (p_writeopen p))
               (Queue l (q_readers q) (q_writers q))) as (p' & E & Hr').
  { split; cbn; try done.
    - apply u32_range.
    - lia.
    - rewrite Hw, u32_add. f_equal. lia. }
  rewrite E. exists p'. done.
Qed.

Lemma piperead_sim killed n p q : pipe_rep p q -> sim pipe_rep (piperead killed n p) (q_read killed n q).
Proof.
  intros Hr. unfold piperead, q_read, bind, get.
  assert ((p_nread p =? p_nwrite p) = (length (q_bytes q) =? 0)%nat) as ->.
  { apply eq_true_iff_eq. rewrite Z.eqb_eq, Nat.eqb_eq, (pr_write _ _ Hr). pose proof (pr_read _ _ Hr).
    pose proof (pr_len _ _ Hr). rewrite <- (u32_small (p_nread p)) at 1 by lia.
    rewrite <- (Z.add_0_r (p_nread p)) at 1. split.
    - intros E%u32_inj_small; unfold PIPESIZE in *; lia.
    - intros ->. done. }
  rewrite (pr_wopen _ _ Hr). destruct ((length (q_bytes q) =? 0)%nat && q_writers q); [by destruct killed|].
  destruct (piperead_loop_sim (Z.to_nat n) p q Hr) as (p' & -> & Hr'). cbn. done.
Qed.

Lemma pipeclose_sim w p q : pipe_rep p q -> sim pipe_rep (pipeclose w p) (q_close w q).
Proof.
  intros Hr. unfold pipeclose, q_close, bind, modify, get. destruct w; cbn.
  - rewrite (pr_ropen _ _ Hr). split; [done|]. destruct Hr; split; done.
  - rewrite (pr_wopen _ _ Hr). split; [done|]. destruct Hr; split; done.
Qed.

Lemma new_pipe_rep d : length d = Z.to_nat PIPESIZE -> pipe_rep (new_pipe d) (Queue [] true true).
Proof. intros Hd. split; try done; cbn; lia. Qed.
End refinement.

(** ** Theorems *)

(** C20. A pipe is a bounded FIFO queue of bytes: [pipewrite], [piperead] and
    [pipeclose] on the ring buffer have exactly the outcome (return value, bytes
    delivered in order, sleeping, failure on a closed read end) of the
    corresponding operation on a queue of at most 512 bytes, also when the 32-bit
    counters wrap around. *)
Theorem pipe_is_queue killed l n w p q : pipe_rep p q ->
  sim pipe_rep (pipewrite killed l n p) (q_write killed l n q) /\
  sim pipe_rep (piperead killed n p) (q_read killed n q) /\
  sim pipe_rep (pipeclose w p) (q_close w q).
Proof.
  intros Hr. split; [exact (pipewrite_sim killed _ p q n Hr)|].
  split; [by apply piperead_sim|by apply pipeclose_sim].
Qed.

(** The counters of this pipe have almost reached 2^32. *)
Definition worn_pipe : pipe := Pipe (replicate 512 0) 4294967294 4294967294 true true.

Lemma worn_pipe_rep : pipe_rep worn_pipe (Queue [] true true).
Proof. split; try done; cbn; lia. Qed.

Lemma pipe_is_queue_witness : exists p', pipewrite false [1; 2; 3; 4] 4 worn_pipe = Ret 4 p' /\
  pipe_rep p' (Queue [1; 2; 3; 4] true true).
Proof.
  destruct (pipe_is_queue false [1; 2; 3; 4] 4 true _ _ worn_pipe_rep) as (H & _ & _).
  destruct (pipewrite false [1; 2; 3; 4] 4 worn_pipe) as [r p'| | | |] eqn:E; try contradiction H.
  destruct H as [Hr Hp]. exists p'. rewrite Hr. split; [reflexivity|exact Hp].
Defined.
