(* ===== verification/Spinlock.v ===== *)
(** Spin locks of spinlock.c on several processors: the atomic steps of [acquire]
    and [release], nested disabling of interrupts, and mutual exclusion under
    every interleaving. *)
From S2P Require Import Prelude.

(** ** Data *)

(** The part of struct cpu that matters here, with the interrupt flag of EFLAGS. *)
Record cpu := Cpu { cpu_if : bool; cpu_ncli : Z; cpu_intena : bool }.

(** struct spinlock without the debugging fields [name] and [pcs]. *)
Record spinlock := Lock { lk_locked : bool; lk_cpu : option nat }.

(** Processors and locks by number. *)
Record machine := Machine { m_cpus : nat -> cpu; m_locks : nat -> spinlock }.

Definition get_cpu (c : nat) : K machine cpu := gets (fun m => m_cpus m c).
Definition set_cpu (c : nat) (x : cpu) : K machine unit :=
  modify (fun m => Machine (<[c := x]> (m_cpus m)) (m_locks m)).
Definition get_lock (l : nat) : K machine spinlock := gets (fun m => m_locks m l).
Definition set_lock (l : nat) (x : spinlock) : K machine unit :=
  modify (fun m => Machine (m_cpus m) (<[l := x]> (m_locks m))).

(** ** Operations of processor [c] *)

Definition initlock (l : nat) : K machine unit := set_lock l (Lock false None).

Definition pushcli (c : nat) : K machine unit :=
  let! x := get_cpu c in
  set_cpu c (Cpu false (cpu_ncli x + 1) (if cpu_ncli x =? 0 then cpu_if x else cpu_intena x)).

Definition popcli (c : nat) : K machine unit :=
  let! x := get_cpu c in
  if cpu_if x then panic "popcli - interruptible"
  else
  let n := cpu_ncli x - 1 in
  if n <? 0 then panic "popcli"
  else set_cpu c (Cpu ((n =? 0) && cpu_intena x) n (cpu_intena x)).

(** The two fields are read in one step; [holding_two_reads] shows that the answer is
    the same when other processors run between the two reads. *)
Definition holding (c l : nat) : K machine bool :=
  let! k := get_lock l in ret (lk_locked k && bool_decide (lk_cpu k = Some c)).

(** The atomic exchange of [lk->locked]: the old value. *)
Definition xchg_locked (l : nat) (v : bool) : K machine bool :=
  let! k := get_lock l in
  set_lock l (Lock v (lk_cpu k));;; ret (lk_locked k).
Definition set_owner (l : nat) (o : option nat) : K machine unit :=
  let! k := get_lock l in set_lock l (Lock (lk_locked k) o).

(** The steps of [acquire] that other processors can interleave with. *)
Definition acquire_enter (c l : nat) : K machine unit :=
  pushcli c;;;
  let! h := holding c l in
  if h : bool then panic "acquire" else ret tt.

Definition acquire (c l : nat) : K machine unit :=
  acquire_enter c l;;;
  let! old := xchg_locked l true in
  if old : bool then sleeps else set_owner l (Some c).

Definition release_enter (c l : nat) : K machine unit :=
  let! h := holding c l in
  if negb h then panic "release" else set_owner l None.

Definition release (c l : nat) : K machine unit :=
  release_enter c l;;;
  xchg_locked l false;;;
  popcli c.

(** The checks of [sched] of proc.c, with [ptable.lock] as lock [l], on all but the
    state of the process. *)
Definition sched_checks (c l : nat) : K machine unit :=
  let! h := holding c l in
  if negb h then panic "sched ptable.lock"
  else
  let! x := get_cpu c in
  if negb (cpu_ncli x =? 1) then panic "sched locks"
  else if cpu_if x then panic "sched interruptible"
  else ret tt.

(** ** Interleaving *)

(** Where a processor is in the lock routines. *)
Inductive pc := Idle | Spinning (l : nat) | Locked (l : nat) | Unlocking (l : nat) | Popping.

#[export] Instance pc_eq_dec : EqDecision pc.
Proof. solve_decision. Defined.

(** A processor's position, the locks whose [acquire] has returned and whose
    [release] has not begun, and the [pushcli]s of its own that are open. *)
Record ghost := Ghost { h_pc : pc; h_held : list nat; h_open : nat }.

Definition world : Type := machine * (nat -> ghost).

Inductive lstep (c : nat) : world -> world -> Prop :=
| l_acquire m m' γ l H n : γ c = Ghost Idle H n -> acquire_enter c l m = Ret tt m' ->
    lstep c (m, γ) (m', <[c := Ghost (Spinning l) H n]> γ)
| l_spin m m' γ l H n : γ c = Ghost (Spinning l) H n -> xchg_locked l true m = Ret true m' ->
    lstep c (m, γ) (m', γ)
| l_lock m m' γ l H n : γ c = Ghost (Spinning l) H n -> xchg_locked l true m = Ret false m' ->
    lstep c (m, γ) (m', <[c := Ghost (Locked l) H n]> γ)
| l_own m m' γ l H n : γ c = Ghost (Locked l) H n -> set_owner l (Some c) m = Ret tt m' ->
    lstep c (m, γ) (m', <[c := Ghost Idle (l :: H) n]> γ)
| l_release m m' γ l H n : γ c = Ghost Idle H n -> release_enter c l m = Ret tt m' ->
    lstep c (m, γ) (m', <[c := Ghost (Unlocking l) (filter (fun k => k <> l) H) n]> γ)
| l_unlock m m' γ l H n r : γ c = Ghost (Unlocking l) H n -> xchg_locked l false m = Ret r m' ->
    lstep c (m, γ) (m', <[c := Ghost Popping H n]> γ)
| l_pop m m' γ H n : γ c = Ghost Popping H n -> popcli c m = Ret tt m' ->
    lstep c (m, γ) (m', <[c := Ghost Idle H n]> γ)
| l_pushcli m m' γ H n : γ c = Ghost Idle H n -> pushcli c m = Ret tt m' ->
    lstep c (m, γ) (m', <[c := Ghost Idle H (S n)]> γ)
| l_popcli m m' γ H n : γ c = Ghost Idle H (S n) -> popcli c m = Ret tt m' ->
    lstep c (m, γ) (m', <[c := Ghost Idle H n]> γ)
| l_sti m γ H n b : γ c = Ghost Idle H n -> cpu_ncli (m_cpus m c) = 0 ->
    lstep c (m, γ) (Machine (<[c := Cpu b 0 (cpu_intena (m_cpus m c))]> (m_cpus m)) (m_locks m), γ).

Definition lstep_any (w w' : world) : Prop := exists c, lstep c w w'.

(** ** The invariant *)

(** Processor in position [x] has [lk->locked] of lock [l] to itself. *)
Definition owns (x : ghost) (l : nat) : Prop := l ∈ h_held x \/ h_pc x = Locked l \/ h_pc x = Unlocking l.

(** The [pushcli]s that are open. *)
Definition depth (x : ghost) : nat :=
  (length (h_held x) + h_open x + match h_pc x with Idle => 0 | _ => 1 end)%nat.

Definition busy_with (p : pc) (l : nat) : Prop := p = Spinning l \/ p = Locked l \/ p = Unlocking l.

Record linv (m : machine) (γ : nat -> ghost) : Prop := {
  li_excl : forall c c' l, owns (γ c) l -> owns (γ c') l -> c = c';
  li_locked : forall l, lk_locked (m_locks m l) = true <-> exists c, owns (γ c) l;
  li_cpu : forall l c, lk_cpu (m_locks m l) = Some c <-> l ∈ h_held (γ c);
  li_nodup : forall c, NoDup (h_held (γ c));
  li_pc : forall c l, busy_with (h_pc (γ c)) l -> l ∉ h_held (γ c);
  li_ncli : forall c, cpu_ncli (m_cpus m c) = Z.of_nat (depth (γ c));
  li_if : forall c, (0 < depth (γ c))%nat -> cpu_if (m_cpus m c) = false
}.

(** Reads of one place after an update of another or of the same. *)
Ltac upd_at c c' := destruct (decide (c' = c)) as [->|?];
  rewrite ?fn_lookup_insert, ?(fn_lookup_insert_ne _ c c') by congruence.

(** A change of position that keeps the locks as they are, with the count. *)
Lemma linv_move m γ c x y : linv m γ -> (forall l, owns x l <-> owns (γ c) l) -> h_held x = h_held (γ c) ->
  (forall l, busy_with (h_pc x) l -> l ∉ h_held x) ->
  cpu_ncli y = Z.of_nat (depth x) -> ((0 < depth x)%nat -> cpu_if y = false) ->
  linv (Machine (<[c := y]> (m_cpus m)) (m_locks m)) (<[c := x]> γ).
Proof.
  intros [H1 H2 H3 H4 H5 H6 H7] Ho Hh Hb Hn Hi.
  assert (forall c' l, owns ((<[c := x]> γ) c') l <-> owns (γ c') l) as Ho'.
  { intros c' l. upd_at c c'; [apply Ho|done]. }
  assert (forall c', h_held ((<[c := x]> γ) c') = h_held (γ c')) as Hh' by (intros c'; by upd_at c c').
  split; cbn.
  - intros c1 c2 l. rewrite !Ho'. apply H1.
  - intros l. rewrite H2. by setoid_rewrite Ho'.
  - intros l c'. rewrite Hh'. apply H3.
  - intros c'. rewrite Hh'. apply H4.
  - intros c' l. rewrite Hh'. upd_at c c'; [rewrite <- Hh; apply Hb|apply H5].
  - intros c'. by upd_at c c'.
  - intros c'. upd_at c c'; [done|apply H7].
Qed.

Lemma holding_eq c l m : holding c l m = Ret (lk_locked (m_locks m l) && bool_decide (lk_cpu (m_locks m l) = Some c)) m.
Proof. done. Qed.

Lemma holding_held m γ c l : linv m γ ->
  lk_locked (m_locks m l) && bool_decide (lk_cpu (m_locks m l) = Some c) = true <-> l ∈ h_held (γ c).
Proof.
  intros Hi. rewrite andb_true_iff, bool_decide_eq_true, (li_cpu m γ Hi). split; [by intros [_ ?]|].
  intros Hl. split; [|done]. apply (li_locked m γ Hi). exists c. by left.
Qed.

(** [lk->locked] is read on [m1] and [lk->cpu] on a later [m2], with steps of other
    processors in between. *)
Lemma holding_two_reads m1 γ1 m2 γ2 c l : linv m1 γ1 -> linv m2 γ2 -> γ2 c = γ1 c ->
  lk_locked (m_locks m1 l) && bool_decide (lk_cpu (m_locks m2 l) = Some c) = bool_decide (l ∈ h_held (γ1 c)).
Proof.
  intros H1 H2 E. apply eq_true_iff_eq. rewrite andb_true_iff, !bool_decide_eq_true, (li_cpu _ _ H2), E. split; [by intros [_ ?]|].
  intros H. split; [|done]. apply (li_locked _ _ H1). exists c. by left.
Qed.

(** A processor that holds [ptable.lock], and nothing else, may call [sched]. *)
Lemma sched_checks_pass m γ c l : linv m γ -> γ c = Ghost Idle [l] 0 -> sched_checks c l m = Ret tt m.
Proof.
  intros Hi Hc. unfold sched_checks, bind at 1. rewrite holding_eq.
  rewrite (proj2 (holding_held m γ c l Hi)) by (rewrite Hc; by left). cbn [negb]. unfold bind, get_cpu, gets.
  rewrite (li_ncli m γ Hi), (li_if m γ Hi), Hc by (rewrite Hc; cbn; lia). done.
Qed.

(** With a second lock, or interrupts disabled once more, it panics. *)
Lemma sched_checks_nested m γ c l H n : linv m γ -> γ c = Ghost Idle H n -> l ∈ H -> (1 < length H + n)%nat ->
  sched_checks c l m = Panic "sched locks".
Proof.
  intros Hi Hc Hl Hn. unfold sched_checks, bind at 1. rewrite holding_eq.
  rewrite (proj2 (holding_held m γ c l Hi)) by (by rewrite Hc). cbn [negb]. unfold bind, get_cpu, gets.
  rewrite (li_ncli m γ Hi), Hc. unfold depth. cbn. by rewrite (proj2 (Z.eqb_neq _ _)) by lia.
Qed.

Lemma pushcli_eq c m : pushcli c m = Ret tt (Machine (<[c := Cpu false (cpu_ncli (m_cpus m c) + 1)
  (if cpu_ncli (m_cpus m c) =? 0 then cpu_if (m_cpus m c) else cpu_intena (m_cpus m c))]> (m_cpus m)) (m_locks m)).
Proof. done. Qed.

Lemma popcli_eq m γ c : linv m γ -> (0 < depth (γ c))%nat ->
  exists b, popcli c m = Ret tt (Machine (<[c := Cpu b (cpu_ncli (m_cpus m c) - 1) (cpu_intena (m_cpus m c))]> (m_cpus m)) (m_locks m)) /\
    (depth (γ c) <> 1%nat -> b = false).
Proof.
  intros Hi Hd. unfold popcli, bind, get_cpu, gets, set_cpu, modify. rewrite (li_if m γ Hi c Hd), (li_ncli m γ Hi c).
  destruct (Z.ltb_spec (Z.of_nat (depth (γ c)) - 1) 0); [lia|]. eexists. split; [reflexivity|].
  intros N. destruct (Z.eqb_spec (Z.of_nat (depth (γ c)) - 1) 0); [lia|done].
Qed.

(** The lock and the owner change hands. *)
Lemma linv_lock m γ c l k x : linv m γ ->
  (forall c', c' <> c -> ~ owns (γ c') l) ->
  (lk_locked k = true <-> owns x l) -> (forall c', lk_cpu k = Some c' <-> c' = c /\ l ∈ h_held x) ->
  (forall l', l' <> l -> owns x l' <-> owns (γ c) l') -> (forall l', l' <> l -> l' ∈ h_held x <-> l' ∈ h_held (γ c)) ->
  NoDup (h_held x) -> (forall l', busy_with (h_pc x) l' -> l' ∉ h_held x) -> depth x = depth (γ c) ->
  linv (Machine (m_cpus m) (<[l := k]> (m_locks m))) (<[c := x]> γ).
Proof.
  intros [H1 H2 H3 H4 H5 H6 H7] Hoth Hk Hcpu Hown Hheld Hnd Hb Hd.
  assert (forall c' l', l' <> l -> owns ((<[c := x]> γ) c') l' <-> owns (γ c') l') as Ho.
  { intros c' l' N. upd_at c c'; [by apply Hown|done]. }
  split; cbn.
  - intros c1 c2 l'. destruct (decide (l' = l)) as [->|N]; [|rewrite !Ho by done; apply H1].
    upd_at c c1; upd_at c c2; [done|intros _ Hx; by destruct (Hoth c2 ltac:(done) Hx)|intros Hx _; by destruct (Hoth c1 ltac:(done) Hx)|apply H1].
  - intros l'. upd_at l l'.
    + rewrite Hk. split; [intros ?; exists c; by rewrite fn_lookup_insert|]. intros (c' & Hc'). destruct (decide (c' = c)) as [->|N].
      * by rewrite fn_lookup_insert in Hc'.
      * rewrite fn_lookup_insert_ne in Hc' by done. by destruct (Hoth c' N Hc').
    + rewrite H2. setoid_rewrite Ho; done.
  - intros l' c'. upd_at l l'.
    + rewrite Hcpu. upd_at c c'; [naive_solver|]. split; [by intros [? _]|]. intros Hl. exfalso. eapply (Hoth c'); [done|by left].
    + rewrite H3. upd_at c c'; [|done]. by rewrite Hheld.
  - intros c'. upd_at c c'; [done|apply H4].
  - intros c' l'. upd_at c c'; [apply Hb|apply H5].
  - intros c'. upd_at c c'; [by rewrite H6, Hd|apply H6].
  - intros c'. upd_at c c'; [rewrite Hd; apply H7|apply H7].
Qed.

Lemma linv_same m m' γ : linv m γ -> m_cpus m' = m_cpus m -> (forall l, m_locks m' l = m_locks m l) -> linv m' γ.
Proof.
  intros [H1 H2 H3 H4 H5 H6 H7] Ec El. split; try done; intros; rewrite ?Ec, ?El; auto.
Qed.

(** Nobody else owns what [c] owns. *)
Lemma owns_alone m γ c l : linv m γ -> owns (γ c) l -> forall c', c' <> c -> ~ owns (γ c') l.
Proof. intros Hi Ho c' N Ho'. apply N. by apply (li_excl m γ Hi c' c l). Qed.

Lemma filter_one (l : nat) H : NoDup H -> l ∈ H -> S (length (filter (fun k => k <> l) H)) = length H.
Proof.
  intros Hnd Hl. induction Hnd as [|a H Ha Hnd IH]; [set_solver|]. rewrite filter_cons. destruct (decide (a <> l)) as [N|E].
  - cbn. rewrite <- IH; [done|]. set_solver.
  - cbn. f_equal. apply dec_stable in E as ->. f_equal. clear -Ha. induction H as [|b H IH]; [done|].
    rewrite filter_cons, decide_True by set_solver. f_equal. apply IH. set_solver.
Qed.

Lemma acquire_enter_inv m m' γ c l H n : linv m γ -> γ c = Ghost Idle H n -> acquire_enter c l m = Ret tt m' ->
  linv m' (<[c := Ghost (Spinning l) H n]> γ).
Proof.
  intros Hi Ec E. unfold acquire_enter, bind in E. rewrite pushcli_eq, holding_eq in E. cbn [m_locks] in E.
  destruct (lk_locked (m_locks m l) && _) eqn:Eh; [done|]. injection E as <-.
  apply linv_move; rewrite ?Ec; try done.
  - intros l'. unfold owns. cbn. naive_solver.
  - intros l' [[= ->]|[[=]|[=]]]. cbn. rewrite <- not_true_iff_false, (holding_held m γ c _ Hi), Ec in Eh. done.
  - cbn. rewrite (li_ncli m γ Hi c), Ec. unfold depth. cbn. lia.
Qed.

Lemma xchg_true_inv m m' γ c l H n : linv m γ -> γ c = Ghost (Spinning l) H n -> xchg_locked l true m = Ret false m' ->
  linv m' (<[c := Ghost (Locked l) H n]> γ).
Proof.
  intros Hi Ec E. unfold xchg_locked, bind, get_lock, gets, set_lock, modify, ret in E. injection E as El <-.
  assert (forall c', ~ owns (γ c') l) as Hno.
  { intros c' Ho. rewrite (proj2 (li_locked m γ Hi l)) in El; [done|by exists c']. }
  assert (l ∉ H) as Hl by (pose proof (li_pc m γ Hi c l) as Hp; rewrite Ec in Hp; apply Hp; by left).
  apply linv_lock; rewrite ?Ec; try done; cbn.
  - split; [intros _; right; by left|done].
  - intros c'. split; [|by intros [_ ?]]. intros Hc'%(li_cpu m γ Hi). exfalso. apply (Hno c'). by left.
  - intros l' N. unfold owns. cbn. split; [intros [?|[[= ->]|[=]]]; [by left|done]|intros [?|[[=]|[=]]]; by left].
  - pose proof (li_nodup m γ Hi c) as Hnd. by rewrite Ec in Hnd.
  - by intros l' [[=]|[[= <-]|[=]]].
Qed.

Lemma set_owner_inv m m' γ c l H n : linv m γ -> γ c = Ghost (Locked l) H n -> set_owner l (Some c) m = Ret tt m' ->
  linv m' (<[c := Ghost Idle (l :: H) n]> γ).
Proof.
  intros Hi Ec E. unfold set_owner, bind, get_lock, gets, set_lock, modify in E. injection E as <-.
  assert (owns (γ c) l) as Ho by (rewrite Ec; right; by left).
  assert (l ∉ H) as Hl by (pose proof (li_pc m γ Hi c l) as Hp; rewrite Ec in Hp; apply Hp; right; by left).
  apply linv_lock; rewrite ?Ec; try done; cbn.
  - by apply (owns_alone m).
  - rewrite (li_locked m γ Hi l). split; [intros _; left; set_solver|intros _; by exists c].
  - intros c'. split; [intros [= <-]; split; [done|set_solver]|by intros [-> _]].
  - intros l' N. unfold owns. cbn. rewrite elem_of_cons. split; naive_solver.
  - intros l' N. set_solver.
  - constructor; [done|]. pose proof (li_nodup m γ Hi c) as Hnd. by rewrite Ec in Hnd.
  - by intros l' [[=]|[[=]|[=]]].
  - unfold depth. cbn. lia.
Qed.

Lemma release_enter_inv m m' γ c l H n : linv m γ -> γ c = Ghost Idle H n -> release_enter c l m = Ret tt m' ->
  linv m' (<[c := Ghost (Unlocking l) (filter (fun k => k <> l) H) n]> γ).
Proof.
  intros Hi Ec E. unfold release_enter, bind in E. rewrite holding_eq in E.
  destruct (lk_locked (m_locks m l) && _) eqn:Eh; [|done]. rewrite (holding_held m γ c _ Hi), Ec in Eh. cbn in Eh.
  unfold set_owner, bind, get_lock, gets, set_lock, modify in E. injection E as <-.
  assert (owns (γ c) l) as Ho by (rewrite Ec; by left).
  pose proof (li_nodup m γ Hi c) as Hnd. rewrite Ec in Hnd. cbn in Hnd.
  apply linv_lock; rewrite ?Ec; try done; cbn.
  - by apply (owns_alone m).
  - rewrite (li_locked m γ Hi l). split; [intros _; right; by right|intros _; by exists c].
  - intros c'. split; [done|]. intros [_ Hl]. apply list_elem_of_filter in Hl as [? _]. done.
  - intros l' N. unfold owns. cbn. rewrite list_elem_of_filter. split; naive_solver.
  - intros l' N. rewrite list_elem_of_filter. naive_solver.
  - by apply NoDup_filter.
  - intros l' [[=]|[[=]|[= <-]]]. rewrite list_elem_of_filter. by intros [? _].
  - unfold depth. cbn. rewrite <- (filter_one l H Hnd Eh). lia.
Qed.

Lemma xchg_false_inv m m' γ c l H n r : linv m γ -> γ c = Ghost (Unlocking l) H n -> xchg_locked l false m = Ret r m' ->
  linv m' (<[c := Ghost Popping H n]> γ).
Proof.
  intros Hi Ec E. unfold xchg_locked, bind, get_lock, gets, set_lock, modify, ret in E. injection E as _ <-.
  assert (owns (γ c) l) as Ho by (rewrite Ec; right; by right).
  assert (l ∉ H) as Hl by (pose proof (li_pc m γ Hi c l) as Hp; rewrite Ec in Hp; apply Hp; right; by right).
  apply linv_lock; rewrite ?Ec; try done; cbn.
  - by apply (owns_alone m).
  - split; [done|]. by intros [?|[[=]|[=]]].
  - intros c'. split; [|by intros [_ ?]]. intros Hc'%(li_cpu m γ Hi). exfalso.
    assert (c' = c) as -> by (apply (li_excl m γ Hi c' c l); [by left|done]). by rewrite Ec in Hc'.
  - intros l' N. unfold owns. cbn. split; naive_solver.
  - pose proof (li_nodup m γ Hi c) as Hnd. by rewrite Ec in Hnd.
  - by intros l' [[=]|[[=]|[=]]].
Qed.

(** [popcli] that closes one level. *)
Lemma popcli_inv m m' γ c x : linv m γ -> (0 < depth (γ c))%nat -> depth (γ c) = S (depth x) ->
  h_held x = h_held (γ c) -> h_pc x = Idle -> h_pc (γ c) = Idle \/ h_pc (γ c) = Popping ->
  popcli c m = Ret tt m' -> linv m' (<[c := x]> γ).
Proof.
  intros Hi Hd Hdx Hh Hx Hpc E. destruct (popcli_eq m γ c Hi Hd) as (b & E' & Hb). rewrite E in E'. injection E' as ->.
  apply linv_move; try done; cbn.
  - intros l. unfold owns. rewrite Hx, Hh. destruct Hpc as [->| ->]; naive_solver.
  - intros l. rewrite Hx. by intros [[=]|[[=]|[=]]].
  - rewrite (li_ncli m γ Hi c). lia.
  - intros ?. apply Hb. lia.
Qed.

Lemma lstep_inv c w w' : linv w.1 w.2 -> lstep c w w' -> linv w'.1 w'.2.
Proof.
  intros Hi Hst. destruct Hst as [m m' γ l H n Ec E|m m' γ l H n Ec E|m m' γ l H n Ec E|m m' γ l H n Ec E|m m' γ l H n Ec E
    |m m' γ l H n r Ec E|m m' γ H n Ec E|m m' γ H n Ec E|m m' γ H n Ec E|m γ H n b Ec En]; cbn [fst snd] in *.
  - by eapply acquire_enter_inv.
  - unfold xchg_locked, bind, get_lock, gets, set_lock, modify, ret in E. injection E as El <-.
    apply (linv_same m); [done..|]. intros l'. cbn. upd_at l l'; [|done]. rewrite <- El. by destruct (m_locks m l).
  - by eapply xchg_true_inv.
  - by eapply set_owner_inv.
  - by eapply release_enter_inv.
  - by eapply xchg_false_inv.
  - eapply popcli_inv; [done|rewrite Ec; unfold depth; cbn; lia..|by rewrite Ec|done|rewrite Ec; by right|done].
  - rewrite pushcli_eq in E. injection E as <-. apply linv_move; rewrite ?Ec; try done; cbn.
    + by intros l [[=]|[[=]|[=]]].
    + rewrite (li_ncli m γ Hi c), Ec. unfold depth. cbn. lia.
  - eapply popcli_inv; [done|rewrite Ec; unfold depth; cbn; lia..|by rewrite Ec|done|rewrite Ec; by left|done].
  - assert (depth (γ c) = 0%nat) as Hd by (pose proof (li_ncli m γ Hi c); lia).
    destruct Hi as [H1 H2 H3 H4 H5 H6 H7]. split; try done; cbn; intros c'; (upd_at c c'; [|auto]); rewrite Hd; [done|lia].
Qed.

(** Start-up: all locks free, no lock held, interrupts off or on. *)
Definition unlocked (w : world) : Prop :=
  (forall l, m_locks w.1 l = Lock false None) /\ (forall c, cpu_ncli (m_cpus w.1 c) = 0) /\ (forall c, w.2 c = Ghost Idle [] 0).

Lemma unlocked_inv w : unlocked w -> linv w.1 w.2.
Proof.
  destruct w as [m γ]. intros (Hl & Hc & Hg). cbn in *.
  assert (forall c l, ~ owns (γ c) l) as Hno by (intros c l; rewrite Hg; unfold owns; cbn; set_solver).
  split.
  - intros c c' l Ho. by destruct (Hno c l).
  - intros l. rewrite Hl. split; [done|]. intros (c & Ho). by destruct (Hno c l).
  - intros l c. rewrite Hl, Hg. cbn. set_solver.
  - intros c. rewrite Hg. constructor.
  - intros c l. rewrite Hg. set_solver.
  - intros c. by rewrite Hc, Hg.
  - intros c. rewrite Hg. cbn. lia.
Qed.

(** ** Theorems *)

(** C18. Mutual exclusion. Let any number of processors run [acquire], [release],
    [pushcli] and [popcli], their atomic steps interleaved in any order. Then no
    lock is held by two processors; [holding] answers exactly whether this
    processor holds the lock, so that [acquire] panics only on a lock the processor
    already holds and [release] only on one it does not; a processor that holds a lock, or
    is in the middle of the routines, has interrupts off; and the [popcli] at the
    end of [release] never panics. *)
Theorem spinlock_mutex w0 m γ : unlocked w0 -> rtc lstep_any w0 (m, γ) ->
  (forall c c' l, l ∈ h_held (γ c) -> l ∈ h_held (γ c') -> c = c') /\
  (forall c l, holding c l m = Ret (bool_decide (l ∈ h_held (γ c))) m) /\
  (forall c, h_held (γ c) <> [] \/ h_pc (γ c) <> Idle -> cpu_if (m_cpus m c) = false) /\
  (forall c, h_pc (γ c) = Popping -> exists m', popcli c m = Ret tt m').
Proof.
  intros H0 Hrun. assert (linv m γ) as Hi.
  { apply unlocked_inv in H0. change m with (m, γ).1. change γ with (m, γ).2 at 2. remember (m, γ) as w eqn:E. clear E m γ.
    induction Hrun as [|w1 w2 w3 [c Hst] _ IH]; [done|]. apply IH. by eapply lstep_inv. }
  split; [|split; [|split]].
  - intros c c' l Hc Hc'. apply (li_excl m γ Hi c c' l); by left.
  - intros c l. rewrite holding_eq. f_equal. apply eq_true_iff_eq. rewrite bool_decide_eq_true. by apply holding_held.
  - intros c Hc. apply (li_if m γ Hi c). unfold depth. destruct Hc as [Hc|Hc].
    + destruct (h_held (γ c)); [done|]. cbn. lia.
    + destruct (h_pc (γ c)); [done|lia..].
  - intros c Hc. destruct (popcli_eq m γ c Hi) as (b & E & _); [unfold depth; rewrite Hc; lia|]. by eexists.
Qed.

Definition idle_world : world := (Machine (fun _ => Cpu true 0 false) (fun _ => Lock false None), fun _ => Ghost Idle [] 0).

Lemma spinlock_mutex_witness : exists m γ, rtc lstep_any idle_world (m, γ) /\ holding 1 5 m = Ret true m /\ holding 0 5 m = Ret false m.
Proof.
  destruct (acquire_enter 1 5 idle_world.1) as [[] m1| | | |] eqn:E1; try discriminate E1.
  destruct (xchg_locked 5 true m1) as [[] m2| | | |] eqn:E2; try (injection E1 as <-; discriminate E2).
  destruct (set_owner 5 (Some 1%nat) m2) as [[] m3| | | |] eqn:E3; try (injection E1 as <-; injection E2 as <-; discriminate E3).
  set (γ1 := <[1%nat := Ghost (Spinning 5) [] 0]> idle_world.2). set (γ2 := <[1%nat := Ghost (Locked 5) [] 0]> γ1).
  set (γ3 := <[1%nat := Ghost Idle [5%nat] 0]> γ2).
  assert (rtc lstep_any idle_world (m3, γ3)) as Hrun.
  { eapply rtc_l; [exists 1%nat; apply (l_acquire 1 _ m1 _ 5 [] 0); [reflexivity|exact E1]|].
    eapply rtc_l; [exists 1%nat; apply (l_lock 1 m1 m2 γ1 5 [] 0); [reflexivity|exact E2]|].
    eapply rtc_l; [exists 1%nat; apply (l_own 1 m2 m3 γ2 5 [] 0); [reflexivity|exact E3]|apply rtc_refl]. }
  exists m3, γ3. split; [exact Hrun|].
  destruct (spinlock_mutex idle_world m3 γ3) as (_ & H & _); [split; [|split]; reflexivity|exact Hrun|].
  split; [rewrite (H 1%nat 5%nat)|rewrite (H 0%nat 5%nat)]; reflexivity.
Defined.
