(* ===== verification/File.v ===== *)
(** Open files: the file table of file.c with its reference counts, dispatch to
    pipes and inodes, and [pipealloc] of pipe.c, which ties two files, a page and
    a pipe together. *)
From stdpp Require Import gmultiset.
From S2P Require Import Prelude Bio Log Str Fs Kalloc Pipe.

(** ** Data *)

Definition NFILE : Z := 100.
Definition NOFILE : Z := 16.

Inductive fd_type := FD_NONE | FD_PIPE | FD_INODE.

#[export] Instance fd_type_eq_dec : EqDecision fd_type.
Proof. solve_decision. Defined.

(** struct file; [fl_pipe] is the address of the page that holds the pipe. *)
Record file := File {
  fl_type : fd_type; fl_ref : Z; fl_readable : bool; fl_writable : bool;
  fl_pipe : Z; fl_ip : iptr; fl_off : Z
}.

(** The kernel objects behind file descriptors: the file system, [ftable], the
    pipes by address, and the page allocator they live in. *)
Record sys := Sys { s_fs : fs; s_ftable : list file; s_pipes : gmap Z pipe; s_kmem : kmem }.

Definition set_fs (φ : fs) (s : sys) : sys := Sys φ (s_ftable s) (s_pipes s) (s_kmem s).
Definition set_ftable (t : list file) (s : sys) : sys := Sys (s_fs s) t (s_pipes s) (s_kmem s).
Definition set_pipes (m : gmap Z pipe) (s : sys) : sys := Sys (s_fs s) (s_ftable s) m (s_kmem s).
Definition set_kmem (σ : kmem) (s : sys) : sys := Sys (s_fs s) (s_ftable s) (s_pipes s) σ.

Definition fsys {A} (m : K fs A) : K sys A := zoom s_fs set_fs m.
Definition kmm {A} (m : K kmem A) : K sys A := zoom s_kmem set_kmem m.

(** A [struct file *] is an index of [ftable.file]. *)
Definition getf (f : nat) : K sys file := let! s := get in lift_opt "file pointer" (s_ftable s !! f).
Definition updf (f : nat) (g : file -> file) : K sys unit :=
  let! x := getf f in modify (fun s => set_ftable (<[f := g x]> (s_ftable s)) s).

Definition with_ref (n : Z) (x : file) : file :=
  File (fl_type x) n (fl_readable x) (fl_writable x) (fl_pipe x) (fl_ip x) (fl_off x).
Definition with_off (n : Z) (x : file) : file :=
  File (fl_type x) (fl_ref x) (fl_readable x) (fl_writable x) (fl_pipe x) (fl_ip x) n.
Definition cleared (x : file) : file :=
  File FD_NONE 0 (fl_readable x) (fl_writable x) (fl_pipe x) (fl_ip x) (fl_off x).

(** Run an operation on the pipe at address [a]. *)
Definition onpipe {A} (a : Z) (m : K pipe A) : K sys A := fun s =>
  match s_pipes s !! a with
  | None => Undef "pipe pointer"
  | Some p =>
    match m p with
    | Ret x p' => Ret x (set_pipes (<[a := p']> (s_pipes s)) s)
    | Panic msg => Panic msg
    | Sleeps p' => Sleeps (set_pipes (<[a := p']> (s_pipes s)) s)
    | Undef why => Undef why
    | NoFuel => NoFuel
    end
  end.

(** [devsw] of file.c, [end] of kernel.ld. *)
Section file.
Context (devsw : Z -> devsw_t) (kend : Z).

(** ** The table *)

Definition filealloc : K sys (option nat) :=
  let! s := get in
  match index_of (fun x => fl_ref x =? 0) (s_ftable s) with
  | Some f => updf f (with_ref 1);;; ret (Some f)
  | None => ret None
  end.

Definition filedup (f : nat) : K sys nat :=
  let! x := getf f in
  if fl_ref x <? 1 then panic "filedup"
  else updf f (with_ref (fl_ref x + 1));;; ret f.

(** [pipeclose] in the page allocator: the page goes back when both ends are closed. *)
Definition pipe_close (a : Z) (writable : bool) : K sys unit :=
  let! free := onpipe a (pipeclose writable) in
  if free : bool then modify (fun s => set_pipes (delete a (s_pipes s)) s);;; kmm (kfree kend a)
  else ret tt.

(** What [fileclose] does with the copy [ff] of the entry it has cleared. *)
Definition release_file (ff : file) : K sys unit :=
  match fl_type ff with
  | FD_PIPE => pipe_close (fl_pipe ff) (fl_writable ff)
  | FD_INODE => fsys (lg begin_trans;;; iput devsw (fl_ip ff);;; lg commit_trans)
  | FD_NONE => ret tt
  end.

Definition fileclose (f : nat) : K sys unit :=
  let! x := getf f in
  if fl_ref x <? 1 then panic "fileclose"
  else
  updf f (with_ref (fl_ref x - 1));;;
  if 0 <? fl_ref x - 1 then ret tt
  else
  let! ff := getf f in
  updf f cleared;;;
  release_file ff.

(** ** Input and output *)

(** The value returned, and what [stati] stored. *)
Definition filestat (f : nat) : K sys (Z * option stat) :=
  let! x := getf f in
  match fl_type x with
  | FD_INODE =>
    let! r := fsys (ilock_trans devsw (fl_ip x)) in
    if r =? E_CORRUPTED then ret (E_CORRUPTED, None)
    else
    let! st := fsys (stati (fl_ip x)) in
    fsys (iunlock (fl_ip x));;;
    ret (0, Some st)
  | _ => ret (-1, None)
  end.

(** The value returned and the bytes stored at [addr]. *)
Definition fileread (killed : bool) (f : nat) (n : Z) : K sys (Z * list Z) :=
  let! x := getf f in
  if negb (fl_readable x) then ret (-1, [])
  else match fl_type x with
  | FD_PIPE => onpipe (fl_pipe x) (piperead killed n)
  | FD_INODE =>
    fsys (ilock_trans devsw (fl_ip x));;;
    let! rl := fsys (readi devsw (fl_ip x) (fl_off x) (u32 n)) in
    (if 0 <? rl.1 then updf f (with_off (u32 (fl_off x + rl.1))) else ret tt);;;
    fsys (iunlock (fl_ip x));;;
    ret rl
  | FD_NONE => panic "fileread"
  end.

(** The bytes written in one transaction. *)
Definition FILE_MAX : Z := ((LOGSIZE - 1 - 1 - 2) / 2) * 512.

(** The loop of [filewrite]: the final [i]. *)
Fixpoint filewrite_loop (fuel : nat) (f : nat) (addr : list Z) (n i : Z) : K sys Z :=
  match fuel with
  | O => nofuel
  | S fuel' =>
    if i <? n then
      let n1 := Z.min (n - i) FILE_MAX in
      let! x := getf f in
      fsys (lg begin_trans);;;
      fsys (ilock devsw (fl_ip x));;;
      let! r := fsys (writei devsw (fl_ip x) (slice addr i n1) (fl_off x) n1) in
      (if 0 <? r then updf f (with_off (u32 (fl_off x + r))) else ret tt);;;
      fsys (iunlock (fl_ip x));;;
      fsys (lg commit_trans);;;
      if r <? 0 then ret i
      else if negb (r =? n1) then panic "short filewrite"
      else filewrite_loop fuel' f addr n (i + r)
    else ret i
  end.

(** [n] bytes from [addr]. *)
Definition filewrite (killed : bool) (f : nat) (addr : list Z) (n : Z) : K sys Z :=
  let! x := getf f in
  if negb (fl_writable x) then ret (-1)
  else match fl_type x with
  | FD_PIPE => onpipe (fl_pipe x) (pipewrite killed addr n)
  | FD_INODE =>
    let! r := fsys (ilock_trans devsw (fl_ip x)) in
    if r =? E_CORRUPTED then ret E_CORRUPTED
    else
    fsys (iunlock (fl_ip x));;;
    let! i := filewrite_loop (Z.to_nat (n / FILE_MAX + 2)) f addr n 0 in
    ret (if i =? n then n else -1)
  | FD_NONE => panic "filewrite"
  end.

(** ** pipealloc *)

(** [data] follows the 52 bytes of the lock in [struct pipe]. *)
Definition pipe_data_of (page : list Z) : list Z := slice page 52 PIPESIZE.

Definition pipe_end (writable : bool) (p : Z) (x : file) : file :=
  File FD_PIPE (fl_ref x) (negb writable) writable p (fl_ip x) (fl_off x).

(** [*f0] and [*f1], or [None] for the result -1. *)
Definition pipealloc : K sys (option (nat * nat)) :=
  let! f0 := filealloc in
  match f0 with
  | None => ret None
  | Some f0 =>
    let! f1 := filealloc in
    match f1 with
    | None => fileclose f0;;; ret None
    | Some f1 =>
      let! p := kmm kalloc in
      if p =? 0 then fileclose f0;;; fileclose f1;;; ret None
      else
      modify (fun s => set_pipes (<[p := new_pipe (pipe_data_of (k_mem (s_kmem s) p))]> (s_pipes s)) s);;;
      updf f0 (pipe_end false p);;;
      updf f1 (pipe_end true p);;;
      ret (Some (f0, f1))
    end
  end.
End file.

(** ** Reference counts *)

Definition refs (t : list file) : list Z := fl_ref <$> t.

(** The two states have the same reference counts. *)
Definition same_refs (s s' : sys) : Prop := refs (s_ftable s') = refs (s_ftable s).

#[export] Instance same_refs_refl : Reflexive same_refs.
Proof. by intros s. Qed.
#[export] Instance same_refs_trans : Transitive same_refs.
Proof. intros s t u H1 H2. unfold same_refs in *. congruence. Qed.

Lemma refs_insert t f g x : t !! f = Some x -> fl_ref (g x) = fl_ref x -> refs (<[f := g x]> t) = refs t.
Proof.
  intros Hx Hr. unfold refs. rewrite list_fmap_insert, Hr. apply list_insert_id. by rewrite list_lookup_fmap, Hx.
Qed.

Lemma getf_eq s f x : s_ftable s !! f = Some x -> getf f s = Ret x s.
Proof. intros H. unfold getf, bind, get. by rewrite H. Qed.

Lemma updf_eq s f g x : s_ftable s !! f = Some x -> updf f g s = Ret tt (set_ftable (<[f := g x]> (s_ftable s)) s).
Proof. intros H. unfold updf, bind. by rewrite (getf_eq s f x H). Qed.

Section keeps_refs.
Lemma keeps_getf f : keeps same_refs (getf f).
Proof. unfold getf. keeps_tac. Qed.

Lemma keeps_updf f g : (forall x, fl_ref (g x) = fl_ref x) -> keeps same_refs (updf f g).
Proof.
  intros Hg s. destruct (s_ftable s !! f) as [x|] eqn:E.
  - rewrite (updf_eq s f g x E). by apply refs_insert.
  - unfold updf, getf, bind, get. by rewrite E.
Qed.

Lemma keeps_fsys {A} (m : K fs A) : keeps same_refs (fsys m).
Proof. by apply keeps_zoom. Qed.
Lemma keeps_kmm {A} (m : K kmem A) : keeps same_refs (kmm m).
Proof. by apply keeps_zoom. Qed.
Lemma keeps_onpipe {A} a (m : K pipe A) : keeps same_refs (onpipe a m).
Proof. intros s. unfold onpipe. destruct (s_pipes s !! a) as [p|]; [|done]. by destruct (m p). Qed.
Lemma keeps_set_pipes g : keeps same_refs (modify (fun s => set_pipes (g s) s)).
Proof. by apply keeps_modify. Qed.
End keeps_refs.
#[export] Hint Resolve keeps_getf keeps_fsys keeps_kmm keeps_onpipe keeps_set_pipes : keeps.
#[export] Hint Extern 1 (keeps same_refs (updf _ _)) => apply keeps_updf; done : keeps.

Section io_refs.
Context (devsw : Z -> devsw_t) (kend : Z).

Lemma release_file_refs x : keeps same_refs (release_file devsw kend x).
Proof. unfold release_file, pipe_close. keeps_tac. Qed.

Lemma filestat_refs f : keeps same_refs (filestat devsw f).
Proof. unfold filestat. keeps_tac. Qed.

Lemma fileread_refs killed f n : keeps same_refs (fileread devsw killed f n).
Proof. unfold fileread. keeps_tac. Qed.

Lemma filewrite_loop_refs fuel f addr n i : keeps same_refs (filewrite_loop devsw fuel f addr n i).
Proof. revert i. induction fuel as [|fuel IH]; intros i; cbn [filewrite_loop]; keeps_tac. Qed.

Lemma filewrite_refs killed f addr n : keeps same_refs (filewrite devsw killed f addr n).
Proof. pose proof filewrite_loop_refs. unfold filewrite. keeps_tac. Qed.
End io_refs.

(** ** Runs of the file layer *)

Section runs.
Context (devsw : Z -> devsw_t) (kend : Z).

(** [H] is the multiset of file pointers held: one for each descriptor of a
    process, or local variable of a system call, that refers to the file. *)
Inductive fstep : sys * gmultiset nat -> sys * gmultiset nat -> Prop :=
| fs_alloc s s' H f : filealloc s = Ret (Some f) s' -> fstep (s, H) (s', H ⊎ {[+ f +]})
| fs_full s s' H : filealloc s = Ret None s' -> fstep (s, H) (s', H)
| fs_dup s s' H f : f ∈ H -> filedup f s = Ret f s' -> fstep (s, H) (s', H ⊎ {[+ f +]})
| fs_close s s' H f : f ∈ H -> fileclose devsw kend f s = Ret tt s' -> fstep (s, H) (s', H ∖ {[+ f +]})
| fs_set s s' H f t r w p i o : f ∈ H ->
    updf f (fun x => File t (fl_ref x) r w p i o) s = Ret tt s' -> fstep (s, H) (s', H)
| fs_read s s' H f killed n r : f ∈ H -> fileread devsw killed f n s = Ret r s' -> fstep (s, H) (s', H)
| fs_write s s' H f killed l n r : f ∈ H -> filewrite devsw killed f l n s = Ret r s' -> fstep (s, H) (s', H)
| fs_stat s s' H f r : f ∈ H -> filestat devsw f s = Ret r s' -> fstep (s, H) (s', H)
| fs_other s s' H : s_ftable s' = s_ftable s -> fstep (s, H) (s', H).

(** The reference count of a file is the number of pointers held. *)
Definition ref_inv (s : sys) (H : gmultiset nat) : Prop :=
  length (s_ftable s) = Z.to_nat NFILE /\
  (forall f, f ∈ H -> (f < Z.to_nat NFILE)%nat) /\
  forall f x, s_ftable s !! f = Some x -> fl_ref x = Z.of_nat (multiplicity f H).

Lemma ref_inv_same s s' H : ref_inv s H -> same_refs s s' -> ref_inv s' H.
Proof.
  intros (Hl & HH & Hr) E. unfold same_refs, refs in E. split; [|split; [done|]].
  - rewrite <- Hl. rewrite <- (length_fmap fl_ref (s_ftable s)), <- E. by rewrite length_fmap.
  - intros f x Hx. assert ((fl_ref <$> s_ftable s) !! f = Some (fl_ref x)) as E'
      by (rewrite <- E, list_lookup_fmap, Hx; done).
    rewrite list_lookup_fmap in E'. destruct (s_ftable s !! f) as [y|] eqn:Ey; [|done].
    injection E' as <-. by apply Hr.
Qed.

Lemma held_entry s H f : ref_inv s H -> f ∈ H -> exists x, s_ftable s !! f = Some x /\ 1 <= fl_ref x.
Proof.
  intros (Hl & HH & Hr) Hf. destruct (lookup_lt_is_Some_2 (s_ftable s) f) as [x Hx]; [rewrite Hl; auto|].
  exists x. split; [done|]. rewrite (Hr f x Hx). rewrite elem_of_multiplicity in Hf. lia.
Qed.

(** Changing one count together with the pointers held. *)
Lemma ref_inv_insert s H H' f x x' : ref_inv s H -> s_ftable s !! f = Some x ->
  fl_ref x' = Z.of_nat (multiplicity f H') -> (forall g, g <> f -> multiplicity g H' = multiplicity g H) ->
  ref_inv (set_ftable (<[f := x']> (s_ftable s)) s) H'.
Proof.
  intros (Hl & HH & Hr) Hx Hx' HH'. pose proof (lookup_lt_Some _ _ _ Hx). unfold ref_inv. cbn. split; [|split].
  - by rewrite length_insert.
  - intros g Hg. destruct (decide (g = f)) as [->|N]; [lia|]. apply HH. apply elem_of_multiplicity.
    rewrite <- (HH' g N). by apply elem_of_multiplicity.
  - intros g y Hy. destruct (decide (f = g)) as [->|N].
    + rewrite list_lookup_insert_eq in Hy by lia. by injection Hy as <-.
    + rewrite list_lookup_insert_ne in Hy by done. rewrite HH' by done. by apply Hr.
Qed.

Lemma filealloc_eq s :
  match index_of (fun x => fl_ref x =? 0) (s_ftable s) with
  | Some f => exists x, s_ftable s !! f = Some x /\ fl_ref x = 0 /\
      filealloc s = Ret (Some f) (set_ftable (<[f := with_ref 1 x]> (s_ftable s)) s)
  | None => filealloc s = Ret None s
  end.
Proof.
  destruct (index_of _ _) as [f|] eqn:E; unfold filealloc, bind at 1, get at 1; rewrite E; [|done].
  apply index_of_Some in E as (x & Hx & Hr & _). exists x. split; [done|]. split; [lia|].
  unfold bind. by rewrite (updf_eq s f _ x Hx).
Qed.

Lemma filedup_eq s f x : s_ftable s !! f = Some x -> 1 <= fl_ref x ->
  filedup f s = Ret f (set_ftable (<[f := with_ref (fl_ref x + 1) x]> (s_ftable s)) s).
Proof.
  intros Hx Hr. unfold filedup, bind. rewrite (getf_eq s f x Hx). destruct (Z.ltb_spec (fl_ref x) 1); [lia|].
  by rewrite (updf_eq s f _ x Hx).
Qed.

Lemma fileclose_eq s f x : s_ftable s !! f = Some x -> 1 <= fl_ref x ->
  fileclose devsw kend f s =
  if 1 <? fl_ref x then Ret tt (set_ftable (<[f := with_ref (fl_ref x - 1) x]> (s_ftable s)) s)
  else release_file devsw kend (with_ref 0 x) (set_ftable (<[f := cleared x]> (s_ftable s)) s).
Proof.
  intros Hx Hr. unfold fileclose, bind. rewrite (getf_eq s f x Hx). destruct (Z.ltb_spec (fl_ref x) 1); [lia|].
  rewrite (updf_eq s f _ x Hx). pose proof (lookup_lt_Some _ _ _ Hx).
  destruct (Z.ltb_spec 0 (fl_ref x - 1)), (Z.ltb_spec 1 (fl_ref x)); try lia; [done|].
  replace (fl_ref x - 1) with 0 by lia. rewrite (getf_eq _ f (with_ref 0 x)) by (cbn; by rewrite list_lookup_insert_eq).
  rewrite (updf_eq _ f _ (with_ref 0 x)) by (cbn; by rewrite list_lookup_insert_eq).
  cbn [s_ftable set_ftable]. by rewrite list_insert_insert_eq.
Qed.

Ltac count_held := cbn; intros; rewrite ?multiplicity_disj_union, ?multiplicity_difference;
  rewrite ?multiplicity_singleton; case_decide; by (done || lia).

Lemma fstep_inv p p' : ref_inv p.1 p.2 -> fstep p p' -> ref_inv p'.1 p'.2.
Proof.
  intros Hi Hst. destruct Hst as [s s' H f E|s s' H E|s s' H f Hf E|s s' H f Hf E|s s' H f t r w q i o Hf E
    |s s' H f k n r Hf E|s s' H f k l n r Hf E|s s' H f r Hf E|s s' H E]; cbn [fst snd] in *.
  - pose proof (filealloc_eq s) as Ha. destruct (index_of _ _) as [g|].
    + destruct Ha as (x & Hx & Hr & Ea). rewrite Ea in E. injection E as <- <-.
      pose proof (proj2 (proj2 Hi) g x Hx). eapply ref_inv_insert; [done..| |]; count_held.
    + rewrite Ha in E. discriminate.
  - pose proof (filealloc_eq s) as Ha. destruct (index_of _ _) as [g|].
    + destruct Ha as (x & _ & _ & Ea). rewrite Ea in E. discriminate.
    + rewrite Ha in E. by injection E as <-.
  - destruct (held_entry s H f Hi Hf) as (x & Hx & Hr). rewrite (filedup_eq s f x Hx Hr) in E. injection E as <-.
    pose proof (proj2 (proj2 Hi) f x Hx). eapply ref_inv_insert; [done..| |]; count_held.
  - destruct (held_entry s H f Hi Hf) as (x & Hx & Hr). rewrite (fileclose_eq s f x Hx Hr) in E.
    pose proof (proj2 (proj2 Hi) f x Hx) as Hm. destruct (Z.ltb_spec 1 (fl_ref x)).
    + injection E as <-. eapply ref_inv_insert; [done..| |]; count_held.
    + eapply ref_inv_same; [|by eapply keeps_Ret; [apply release_file_refs|]].
      eapply ref_inv_insert; [done..| |]; count_held.
  - eapply ref_inv_same; [done|]. eapply keeps_Ret; [|exact E]. by apply keeps_updf.
  - eapply ref_inv_same; [done|]. eapply keeps_Ret; [apply fileread_refs|exact E].
  - eapply ref_inv_same; [done|]. eapply keeps_Ret; [apply filewrite_refs|exact E].
  - eapply ref_inv_same; [done|]. eapply keeps_Ret; [apply filestat_refs|exact E].
  - eapply ref_inv_same; [done|]. unfold same_refs. by rewrite E.
Qed.

Lemma rtc_fstep_inv p p' : ref_inv p.1 p.2 -> rtc fstep p p' -> ref_inv p'.1 p'.2.
Proof. intros Hi Hr. induction Hr as [|p q r Hst _ IH]; [done|]. apply IH. by eapply fstep_inv. Qed.
End runs.

(** ** A pipe behind two files *)

Section pipe_files.
Context (devsw : Z -> devsw_t) (kend : Z).

(** An operation on the pipe at [a] follows its queue. *)
Lemma wp_onpipe {A} a (m : K pipe A) p x q' (Q : A -> sys -> Prop) s :
  s_pipes s !! a = Some p -> sim pipe_rep (m p) (Ret x q') ->
  (forall p', pipe_rep p' q' -> Q x (set_pipes (<[a := p']> (s_pipes s)) s)) -> wp (onpipe a m) Q s.
Proof.
  intros Hp Hs HQ. unfold wp, onpipe. rewrite Hp. destruct (m p) as [y p'| | | |]; try done.
  destruct Hs as [-> Hr]. by apply HQ.
Qed.

Lemma wp_getf f x (Q : file -> sys -> Prop) s : s_ftable s !! f = Some x -> Q x s -> wp (getf f) Q s.
Proof. intros Hx HQ. unfold wp. by rewrite (getf_eq s f x Hx). Qed.

Lemma wp_updf f g x (Q : unit -> sys -> Prop) s : s_ftable s !! f = Some x ->
  Q tt (set_ftable (<[f := g x]> (s_ftable s)) s) -> wp (updf f g) Q s.
Proof. intros Hx HQ. unfold wp. by rewrite (updf_eq s f g x Hx). Qed.

Lemma wp_filealloc f x (Q : option nat -> sys -> Prop) s :
  index_of (fun x => fl_ref x =? 0) (s_ftable s) = Some f -> s_ftable s !! f = Some x ->
  Q (Some f) (set_ftable (<[f := with_ref 1 x]> (s_ftable s)) s) -> wp filealloc Q s.
Proof.
  intros Hf Hx HQ. unfold wp. pose proof (filealloc_eq s) as Ha. rewrite Hf in Ha.
  destruct Ha as (y & Hy & _ & ->). rewrite Hx in Hy. by injection Hy as <-.
Qed.

(** The end [w] of the pipe at [pg], held once. *)
Definition is_end (w : bool) (pg : Z) (x : file) : Prop :=
  fl_type x = FD_PIPE /\ fl_ref x = 1 /\ fl_readable x = negb w /\ fl_writable x = w /\ fl_pipe x = pg.

Lemma pipe_end_is_end w pg x : fl_ref x = 1 -> is_end w pg (pipe_end w pg x).
Proof. by unfold is_end. Qed.

Lemma wp_pipe_write f x pg p q l (Q : Z -> sys -> Prop) s :
  s_ftable s !! f = Some x -> is_end true pg x -> s_pipes s !! pg = Some p -> pipe_rep p q ->
  (length (q_bytes q) + length l <= Z.to_nat PIPESIZE)%nat ->
  (forall p', pipe_rep p' (Queue (q_bytes q ++ l) (q_readers q) (q_writers q)) ->
     Q (Z.of_nat (length l)) (set_pipes (<[pg := p']> (s_pipes s)) s)) ->
  wp (filewrite devsw false f l (Z.of_nat (length l))) Q s.
Proof.
  intros Hx (Ht & _ & _ & Hw & Hpg) Hp Hr Hfit HQ. unfold filewrite. rewrite wp_bind.
  apply (wp_getf f x); [done|]. rewrite Hw, Ht, Hpg. eapply wp_onpipe; [done| |exact HQ].
  pose proof (pipewrite_sim false (take (Z.to_nat (Z.of_nat (length l))) l) p q (Z.of_nat (length l)) Hr) as Hsim. cbn zeta in Hsim.
  rewrite Nat2Z.id, take_ge in Hsim by done. rewrite take_ge in Hsim by lia.
  rewrite (proj2 (Nat.leb_le _ _)) in Hsim by lia. unfold pipewrite. by rewrite Nat2Z.id, take_ge.
Qed.

Lemma wp_pipe_read f x pg p q n (Q : Z * list Z -> sys -> Prop) s :
  s_ftable s !! f = Some x -> is_end false pg x -> s_pipes s !! pg = Some p -> pipe_rep p q ->
  (q_bytes q <> [] \/ q_writers q = false) ->
  (forall p', pipe_rep p' (Queue (drop (Z.to_nat n) (q_bytes q)) (q_readers q) (q_writers q)) ->
     Q (Z.of_nat (length (take (Z.to_nat n) (q_bytes q))), take (Z.to_nat n) (q_bytes q))
       (set_pipes (<[pg := p']> (s_pipes s)) s)) ->
  wp (fileread devsw false f n) Q s.
Proof.
  intros Hx (Ht & _ & Hrd & _ & Hpg) Hp Hr Hne HQ. unfold fileread. rewrite wp_bind.
  apply (wp_getf f x); [done|]. rewrite Hrd, Ht, Hpg. cbn [negb]. eapply wp_onpipe; [done| |exact HQ].
  pose proof (piperead_sim false n p q Hr) as Hsim. unfold q_read in Hsim.
  assert ((length (q_bytes q) =? 0)%nat && q_writers q = false) as E.
  { destruct Hne as [Hne| ->]; [|apply andb_false_r]. by destruct (q_bytes q). }
  rewrite E in Hsim. exact Hsim.
Qed.

Lemma wp_fileclose_last f x (Q : unit -> sys -> Prop) s : s_ftable s !! f = Some x -> fl_ref x = 1 ->
  wp (release_file devsw kend (with_ref 0 x)) Q (set_ftable (<[f := cleared x]> (s_ftable s)) s) ->
  wp (fileclose devsw kend f) Q s.
Proof. intros Hx Href HQ. unfold wp. rewrite (fileclose_eq _ _ s f x Hx), Href by lia. exact HQ. Qed.

(** Closing the last pointer to an end. *)
Lemma wp_pipe_close w f x pg p q (Q : unit -> sys -> Prop) s :
  s_ftable s !! f = Some x -> is_end w pg x -> s_pipes s !! pg = Some p -> pipe_rep p q ->
  (if w then q_readers q else q_writers q) = true ->
  (forall p', pipe_rep p' (if w then Queue (q_bytes q) (q_readers q) false else Queue (q_bytes q) false (q_writers q)) ->
     Q tt (set_pipes (<[pg := p']> (s_pipes s)) (set_ftable (<[f := cleared x]> (s_ftable s)) s))) ->
  wp (fileclose devsw kend f) Q s.
Proof.
  intros Hx (Ht & Href & _ & Hw & Hpg) Hp Hr Ho HQ. apply (wp_fileclose_last f x); [done..|].
  unfold release_file. cbn [with_ref fl_type fl_pipe fl_writable]. rewrite Ht, Hw, Hpg. unfold pipe_close.
  rewrite wp_bind. eapply wp_onpipe; [done|by apply pipeclose_sim|]. intros p' Hr'.
  destruct w; rewrite Ho in *; cbn [q_readers q_writers negb andb]; rewrite ?andb_false_r; apply wp_ret, HQ; exact Hr'.
Qed.

(** Closing the last pointer to the last end gives the page back. *)
Lemma wp_pipe_free w f x pg p q l (Q : unit -> sys -> Prop) s :
  s_ftable s !! f = Some x -> is_end w pg x -> s_pipes s !! pg = Some p -> pipe_rep p q ->
  (if w then q_readers q else q_writers q) = false ->
  kmem_ok kend (s_kmem s) l -> is_page kend pg -> pg ∉ l ->
  (forall σ', kmem_ok kend σ' (pg :: l) ->
     Q tt (set_kmem σ' (set_pipes (delete pg (s_pipes s)) (set_ftable (<[f := cleared x]> (s_ftable s)) s)))) ->
  wp (fileclose devsw kend f) Q s.
Proof.
  intros Hx (Ht & Href & _ & Hw & Hpg) Hp Hr Ho Hk Hpage Hl HQ. apply (wp_fileclose_last f x); [done..|].
  unfold release_file. cbn [with_ref fl_type fl_pipe fl_writable]. rewrite Ht, Hw, Hpg. unfold pipe_close.
  rewrite wp_bind. eapply wp_onpipe; [done|by apply pipeclose_sim|]. intros p' Hr'.
  assert ((negb (q_readers (if w then Queue (q_bytes q) (q_readers q) false else Queue (q_bytes q) false (q_writers q)))
    && negb (q_writers (if w then Queue (q_bytes q) (q_readers q) false else Queue (q_bytes q) false (q_writers q)))) = true) as ->
    by (destruct w; by rewrite Ho).
  rewrite wp_bind. apply wp_modify. unfold kmm. rewrite wp_zoom. eapply kfree_spec; [exact Hk|done..|].
  intros σ' Hk' _. specialize (HQ σ' Hk'). cbn. by rewrite delete_insert_eq.
Qed.

Lemma refs_restored t f0 f1 x0 x1 e0 e1 :
  index_of (fun x => fl_ref x =? 0) t = Some f0 -> t !! f0 = Some x0 ->
  index_of (fun x => fl_ref x =? 0) (<[f0 := with_ref 1 x0]> t) = Some f1 -> t !! f1 = Some x1 -> f0 <> f1 ->
  refs (<[f0 := cleared e0]> (<[f1 := cleared e1]> (<[f1 := e1]> (<[f0 := e0]> t)))) = refs t.
Proof.
  intros (y & Hy & Hr & _)%index_of_Some Hx0 (z & Hz & Hr' & _)%index_of_Some Hx1 N.
  rewrite list_lookup_insert_ne, Hx1 in Hz by done. rewrite Hx0 in Hy. injection Hy as <-. injection Hz as <-.
  assert (refs t !! f0 = Some 0) as R0 by (unfold refs; rewrite list_lookup_fmap, Hx0; cbn; f_equal; lia).
  assert (refs t !! f1 = Some 0) as R1 by (unfold refs; rewrite list_lookup_fmap, Hx1; cbn; f_equal; lia).
  unfold refs in *. rewrite !list_fmap_insert. cbn [cleared fl_ref].
  rewrite list_insert_insert_eq, (list_insert_insert_ne _ f0 f1), list_insert_insert_eq, (list_insert_id _ f0) by done.
  by apply list_insert_id.
Qed.

(** [pipealloc] with two free entries and a free page. *)
Lemma wp_pipealloc f0 x0 f1 x1 pg l (Q : option (nat * nat) -> sys -> Prop) s :
  index_of (fun x => fl_ref x =? 0) (s_ftable s) = Some f0 -> s_ftable s !! f0 = Some x0 ->
  index_of (fun x => fl_ref x =? 0) (<[f0 := with_ref 1 x0]> (s_ftable s)) = Some f1 -> f0 <> f1 ->
  s_ftable s !! f1 = Some x1 -> kmem_ok kend (s_kmem s) (pg :: l) ->
  (forall p σ', pipe_rep p (Queue [] true true) -> kmem_ok kend σ' l ->
     Q (Some (f0, f1)) (Sys (s_fs s)
       (<[f1 := pipe_end true pg (with_ref 1 x1)]> (<[f0 := pipe_end false pg (with_ref 1 x0)]> (s_ftable s)))
       (<[pg := p]> (s_pipes s)) σ')) ->
  wp (pipealloc devsw kend) Q s.
Proof.
  intros H0 Hx0 H1 N Hx1 Hk HQ. pose proof (lookup_lt_Some _ _ _ Hx0). pose proof (lookup_lt_Some _ _ _ Hx1).
  unfold pipealloc. rewrite wp_bind. apply (wp_filealloc f0 x0); [done..|]. rewrite wp_bind.
  apply (wp_filealloc f1 x1); [done|cbn; by rewrite list_lookup_insert_ne|]. rewrite wp_bind. unfold kmm. rewrite wp_zoom.
  eapply kalloc_spec; [exact Hk|]. intros σ' Hk' Hm. destruct Hk as [(_ & Hpg & Hlen & _) _].
  pose proof (is_page_pos _ _ Hpg). destruct (Z.eqb_spec pg 0); [lia|]. rewrite wp_bind. apply wp_modify. rewrite wp_bind.
  cbn [s_kmem set_kmem s_pipes set_ftable s_fs s_ftable set_pipes].
  apply (wp_updf f0 _ (with_ref 1 x0)); [cbn; rewrite list_lookup_insert_ne by done; by rewrite list_lookup_insert_eq|].
  rewrite wp_bind. apply (wp_updf f1 _ (with_ref 1 x1)).
  { cbn. rewrite list_lookup_insert_ne by done. rewrite list_lookup_insert_eq; [done|by rewrite length_insert]. }
  apply wp_ret. cbn. rewrite (list_insert_insert_ne _ f0 f1) by done.
  rewrite list_insert_insert_eq, list_insert_insert_eq. apply HQ; [|done].
  apply new_pipe_rep. rewrite Hm. unfold pipe_data_of. apply length_slice; [by vm_compute..|].
  cbn [s_kmem set_ftable]. rewrite Hlen. by vm_compute.
Qed.
End pipe_files.

(** The file table at start-up. *)
Definition no_file : file := File FD_NONE 0 false false 0 None 0.
Definition at_start (s : sys) : Prop := s_ftable s = replicate (Z.to_nat NFILE) no_file.

Lemma at_start_inv s : at_start s -> ref_inv s ∅.
Proof.
  intros E. unfold ref_inv. rewrite E, length_replicate. split; [done|]. split; [set_solver|].
  intros f x [-> _]%lookup_replicate. by rewrite multiplicity_empty.
Qed.

(** ** Theorems *)

(** A kernel with no pipe and no page, whose file system is not touched. *)
Definition bare_sys (φ : fs) : sys := Sys φ (replicate (Z.to_nat NFILE) no_file) ∅ (Kmem (fun _ => []) 0).

(** Reference counting of open files. From start-up, let file pointers be
    obtained from [filealloc] and [filedup] and given up to [fileclose], with
    reads, writes and stats through held pointers in between. Then the count of
    every entry of the table is exactly the number of pointers held to it;
    [filealloc] never hands out an entry some pointer is still held to, and fails
    only when all 100 entries are held; [filedup] of a held pointer succeeds; and
    [fileclose] of a pointer that is not the last one only lowers the count, while
    the last one clears the entry before the object behind it is released. *)
Theorem file_refcounts devsw kend s0 s H : at_start s0 -> rtc (fstep devsw kend) (s0, ∅) (s, H) ->
  (forall f x, s_ftable s !! f = Some x -> fl_ref x = Z.of_nat (multiplicity f H)) /\
  (exists r s', filealloc s = Ret r s' /\
     match r with Some f => f ∉ H | None => forall f, (f < Z.to_nat NFILE)%nat -> f ∈ H end) /\
  forall f, f ∈ H -> exists x, s_ftable s !! f = Some x /\
    filedup f s = Ret f (set_ftable (<[f := with_ref (fl_ref x + 1) x]> (s_ftable s)) s) /\
    fileclose devsw kend f s =
      if (1 <? multiplicity f H)%nat then Ret tt (set_ftable (<[f := with_ref (fl_ref x - 1) x]> (s_ftable s)) s)
      else release_file devsw kend (with_ref 0 x) (set_ftable (<[f := cleared x]> (s_ftable s)) s).
Proof.
  intros H0 Hrun. pose proof (rtc_fstep_inv _ _ (s0, ∅) (s, H) (at_start_inv s0 H0) Hrun) as Hi. cbn in Hi.
  pose proof Hi as (Hl & _ & Hr). split; [done|]. split.
  - pose proof (filealloc_eq s) as Ha. destruct (index_of _ _) as [f|] eqn:E.
    + destruct Ha as (x & Hx & Hr0 & ->). eexists _, _. split; [done|]. pose proof (Hr f x Hx).
      intros Hin. rewrite elem_of_multiplicity in Hin. lia.
    + exists None, s. split; [done|]. intros f Hf. rewrite <- Hl in Hf. apply lookup_lt_is_Some in Hf as [x Hx].
      pose proof (proj1 (index_of_None _ _) E f x Hx) as E0. cbn in E0. pose proof (Hr f x Hx). rewrite elem_of_multiplicity. lia.
  - intros f Hf. destruct (held_entry s H f Hi Hf) as (x & Hx & Hx1). exists x. split; [done|].
    split; [by apply filedup_eq|]. rewrite (fileclose_eq _ _ s f x Hx Hx1), (Hr f x Hx).
    destruct (Z.ltb_spec 1 (Z.of_nat (multiplicity f H))), (Nat.ltb_spec 1 (multiplicity f H)); by (done || lia).
Qed.

Lemma file_refcounts_witness : exists s x, s_ftable s !! 0%nat = Some x /\ fl_ref x = 2.
Proof.
  set (φ := iinit (boot ∅ 0)). set (no_dev := fun _ : Z => Devsw None None).
  set (s1 := set_ftable (<[0%nat := with_ref 1 no_file]> (replicate (Z.to_nat NFILE) no_file)) (bare_sys φ)).
  set (s2 := set_ftable (<[0%nat := with_ref 2 no_file]> (replicate (Z.to_nat NFILE) no_file)) (bare_sys φ)).
  assert (rtc (fstep no_dev 0) (bare_sys φ, ∅) (s2, ∅ ⊎ {[+ 0%nat +]} ⊎ {[+ 0%nat +]})) as Hrun.
  { eapply rtc_l; [apply (fs_alloc _ _ _ s1 _ 0%nat); reflexivity|].
    eapply rtc_l; [apply (fs_dup _ _ _ s2 _ 0%nat); [multiset_solver|reflexivity]|apply rtc_refl]. }
  destruct (file_refcounts no_dev 0 (bare_sys φ) s2 _ eq_refl Hrun) as (Hr & _).
  exists s2, (with_ref 2 no_file). split; [reflexivity|]. rewrite (Hr 0%nat (with_ref 2 no_file) eq_refl). reflexivity.
Defined.

(** Make a pipe, write [data], read [n] bytes, close the write end, read [n] more,
    close the read end. *)
Definition pipe_use (devsw : Z -> devsw_t) (kend : Z) (data : list Z) (n : Z) : K sys (option (Z * list Z * list Z)) :=
  let! fds := pipealloc devsw kend in
  match fds with
  | None => ret None
  | Some (r, w) =>
    let! n1 := filewrite devsw false w data (Z.of_nat (length data)) in
    let! a := fileread devsw false r n in
    fileclose devsw kend w;;;
    let! b := fileread devsw false r n in
    fileclose devsw kend r;;;
    ret (Some (n1, a.2, b.2))
  end.

(** C19. The life of a pipe, through the file table, the ring buffer and the page
    allocator. [pipealloc] with two free entries and a free page gives a read end
    and a write end; bytes written at one come out of the other in order; after the
    write end is closed the rest is still delivered without waiting; and when
    both ends are closed the page is back on the free list, no pipe is left, and
    every reference count is what it was. *)
Theorem pipe_session devsw kend s f0 x0 f1 x1 pg l data n :
  index_of (fun x => fl_ref x =? 0) (s_ftable s) = Some f0 -> s_ftable s !! f0 = Some x0 ->
  index_of (fun x => fl_ref x =? 0) (<[f0 := with_ref 1 x0]> (s_ftable s)) = Some f1 -> s_ftable s !! f1 = Some x1 ->
  kmem_ok kend (s_kmem s) (pg :: l) -> s_pipes s !! pg = None ->
  data <> [] -> (length data <= Z.to_nat PIPESIZE)%nat ->
  exists s',
    pipe_use devsw kend data n s = Ret (Some (Z.of_nat (length data), take (Z.to_nat n) data, take (Z.to_nat n) (drop (Z.to_nat n) data))) s' /\
    kmem_ok kend (s_kmem s') (pg :: l) /\ s_pipes s' = s_pipes s /\
    refs (s_ftable s') = refs (s_ftable s) /\ s_fs s' = s_fs s.
Proof.
  intros H0 Hx0 H1 Hx1 Hk Hp Hne Hfit.
  assert (f0 <> f1) as N.
  { intros <-. apply index_of_Some in H1 as (y & Hy & Hr & _). apply lookup_lt_Some in Hx0.
    rewrite list_lookup_insert_eq in Hy by done. by injection Hy as <-. }
  pose proof (lookup_lt_Some _ _ _ Hx0). pose proof (lookup_lt_Some _ _ _ Hx1).
  pose proof Hk as [(_ & Hpg & _) Hnd]. apply NoDup_cons in Hnd as [Hpl _].
  apply wp_returns. unfold pipe_use. rewrite wp_bind. eapply wp_pipealloc; try done. intros p σ' Hr Hk'.
  set (e0 := pipe_end false pg (with_ref 1 x0)). set (e1 := pipe_end true pg (with_ref 1 x1)).
  assert (is_end false pg e0) as He0 by by apply pipe_end_is_end. assert (is_end true pg e1) as He1 by by apply pipe_end_is_end.
  set (t := <[f1 := e1]> (<[f0 := e0]> (s_ftable s))).
  assert (t !! f0 = Some e0) as Ht0 by (unfold t; rewrite list_lookup_insert_ne by done; by rewrite list_lookup_insert_eq).
  assert (t !! f1 = Some e1) as Ht1 by (unfold t; rewrite list_lookup_insert_eq; [done|by rewrite length_insert]).
  clearbody e0 e1. rewrite wp_bind.
  eapply (wp_pipe_write devsw f1 e1 pg p); [done|done|apply lookup_insert_eq|exact Hr|cbn; lia|]. intros p1 Hr1.
  rewrite wp_bind. cbn [s_pipes set_pipes q_bytes q_readers q_writers app] in *. rewrite insert_insert_eq.
  eapply (wp_pipe_read devsw f0 e0 pg p1); [done|done|apply lookup_insert_eq|exact Hr1|by left|]. intros p2 Hr2.
  rewrite wp_bind. cbn [s_pipes set_pipes q_bytes q_readers q_writers] in *. rewrite insert_insert_eq.
  eapply (wp_pipe_close devsw kend true f1 e1 pg p2); [done|done|apply lookup_insert_eq|exact Hr2|done|]. intros p3 Hr3.
  rewrite wp_bind. cbn [s_pipes set_pipes set_ftable s_ftable q_bytes q_readers q_writers] in *. rewrite insert_insert_eq.
  assert (<[f1 := cleared e1]> t !! f0 = Some e0) as Ht0' by by rewrite list_lookup_insert_ne.
  eapply (wp_pipe_read devsw f0 e0 pg p3); [exact Ht0'|done|apply lookup_insert_eq|exact Hr3|by right|]. intros p4 Hr4.
  rewrite wp_bind. cbn [s_pipes set_pipes set_ftable s_ftable q_bytes q_readers q_writers] in *. rewrite insert_insert_eq.
  eapply (wp_pipe_free devsw kend false f0 e0 pg p4); [exact Ht0'|done|apply lookup_insert_eq|exact Hr4|done|exact Hk'|done|done|].
  intros σ'' Hk''. apply wp_ret. cbn. split; [done|]. split; [done|]. split; [by apply delete_insert_id|]. split; [|done].
  eapply refs_restored; done.
Qed.

(** One free page. *)
Definition one_page : kmem := Kmem (fun _ => replicate (Z.to_nat PGSIZE) 0) 2149580800.

Lemma one_page_ok : kmem_ok 2148532224 one_page [2149580800].
Proof.
  split; [|apply NoDup_singleton]. split; [done|]. split; [by vm_compute|]. split; [apply length_replicate|by vm_compute].
Qed.

Lemma pipe_session_witness : exists s', pipe_use (fun _ => Devsw None None) 2148532224 [1; 2; 3] 2
  (set_kmem one_page (bare_sys (iinit (boot ∅ 0)))) = Ret (Some (3, [1; 2], [3])) s'.
Proof.
  destruct (pipe_session (fun _ => Devsw None None) 2148532224 (set_kmem one_page (bare_sys (iinit (boot ∅ 0))))
    0%nat no_file 1%nat no_file 2149580800 [] [1; 2; 3] 2 eq_refl eq_refl eq_refl eq_refl one_page_ok eq_refl
    ltac:(discriminate) ltac:(apply Nat.leb_le; reflexivity)) as (s' & E & _).
  exists s'. exact E.
Defined.
