(* ===== verification/FileWrite.v ===== *)
(** [filewrite] of file.c on a file of the disk: the write is cut into
    transactions, and a crash keeps a whole number of them. *)
From S2P Require Import Prelude Bio Cache Log LogSpec Trans Txn Str Fs FsView Alloc Content Verify FsImage Write FsTxn Kalloc Pipe File.

(** Entry [i] of the inode cache is a file with no ditto, read from the disk,
    intact and not locked, that can be written up to [lim]. *)
Record opened_file (g : geometry) (W : fview) (i : nat) (ip : inode) (lim : Z) : Prop := {
  of_write : can_write g W i ip lim;
  of_disk : dinode_at (w_cur W) (i_inum ip) = i_d ip;
  of_intact : intact (w_cur W) (i_d ip) = true;
  of_flags : flag (i_flags ip) I_VALID = true /\ flag (i_flags ip) I_BUSY = false /\ 1 <= i_ref ip;
  of_plain : i_child1 ip = 0 /\ i_child2 ip = 0
}.

(** The same while no transaction is open. *)
Record ready (φ : fs) (A : cache) (i : nat) (ip : inode) (lim : Z) : Prop := {
  rd_idle : idle (f_log φ) A;
  rd_file : opened_file (quiet_geom A φ) (quiet_view A φ) i ip lim
}.

(** Whatever the log area holds, inode [inum] is an intact file with content [c]. *)
Definition file_is (start : Z) (cur : Z -> block) (inum : Z) (c : list Z) : Prop :=
  forall cur', (forall s, 0 <= s < start -> cur' s = cur s) ->
  intact cur' (dinode_at cur' inum) = true /\ file_content cur' (dinode_at cur' inum) = c.

(** A crash after any number of the writes [new] recovers a disk on which the file
    has the old content with a whole number of chunks of [l] written at [off]. *)
Definition crash_keeps (κ : lst) (A : cache) (new : list (Z * block)) (inum : Z) (c : list Z) (off : Z) (l : list Z) : Prop :=
  forall j, exists m cc, whole_chunks FILE_MAX (Z.of_nat (length l)) m /\
    recovers (csize A) (l_start κ) (apply_writes (take j new) (dur A)) cc /\
    file_is (l_start κ) cc inum (splice c off (take (Z.to_nat m) l)).

Lemma ready_file φ A i ip lim : ready φ A i ip lim ->
  file_is (l_start (f_log φ)) (cur A) (i_inum ip) (file_content (cur A) (i_d ip)).
Proof.
  intros H cur' Hc. pose proof (writable_readable _ _ _ _ _ (cw_data _ _ _ _ _ (of_write _ _ _ _ _ (rd_file _ _ _ _ _ H)))) as Hrd.
  destruct (cw_iblock _ _ _ _ _ (of_write _ _ _ _ _ (rd_file _ _ _ _ _ H))) as [Hib _].
  rewrite (inode_agree (quiet_geom A φ) (quiet_view A φ) ip cur' ltac:(lia) Hc). rewrite (of_disk _ _ _ _ _ (rd_file _ _ _ _ _ H)).
  pose proof (content_agree (quiet_geom A φ) (quiet_view A φ) _ cur' Hrd Hc) as E.
  split; [|done]. unfold intact. rewrite E. apply (of_intact _ _ _ _ _ (rd_file _ _ _ _ _ H)).
Qed.

(** Both depend only on the blocks below the log. *)
Lemma file_is_agree start cur cur' inum c : file_is start cur inum c -> (forall s, 0 <= s < start -> cur' s = cur s) ->
  file_is start cur' inum c.
Proof. intros H Hc cur2 Hc2. apply H. intros s Hs. by rewrite Hc2, Hc. Qed.

Lemma touched_chunk off n : 0 <= n <= FILE_MAX -> touched off n <= 9.
Proof.
  change FILE_MAX with 4096. intros Hn. unfold touched. destruct (n <=? 0); [done|]. assert (BSIZE = 512) as -> by done.
  pose proof (Z.mod_pos_bound off 512 ltac:(lia)). apply Z.lt_succ_r, Z.div_lt_upper_bound; lia.
Qed.

Lemma content_size φ A i ip lim : ready φ A i ip lim -> Z.of_nat (length (file_content (cur A) (i_d ip))) = i_size ip.
Proof. intros H. pose proof (wr_size _ _ _ _ _ (cw_data _ _ _ _ _ (of_write _ _ _ _ _ (rd_file _ _ _ _ _ H)))). rewrite length_content; unfold i_size; lia. Qed.

Section filewrite.
Context (devsw : Z -> devsw_t).

(** The commit makes the file ready again. *)
Lemma commit_ready φ A φ3 W1 W2 i ip1 ip3 lim off l : let g := quiet_geom A φ in
  idle (f_log φ) A -> (forall s, w_cur W1 s = cur A s) -> w_held W1 = ∅ -> w_T W1 = ∅ -> wrote g W1 W2 i ip1 lim off l ->
  Rep g φ3 (v_ic (insert i ip3) W2) -> i_dev ip3 = i_dev ip1 -> i_inum ip3 = i_inum ip1 ->
  i_d ip3 = dinode_at (w_cur W2) (i_inum ip1) -> flag (i_flags ip3) I_VALID = true -> flag (i_flags ip3) I_BUSY = false ->
  1 <= i_ref ip3 -> i_child1 ip3 = 0 -> i_child2 ip3 = 0 ->
  wp (lg commit_trans) (fun _ φ' => exists A' new, ready φ' A' i ip3 lim /\ step (f_log φ) A (f_log φ') A' new /\
    file_content (cur A') (i_d ip3) = splice (file_content (w_cur W1) (i_d ip1)) off l /\
    forall j, recovers (csize A) (l_start (f_log φ)) (apply_writes (take j new) (dur A)) (cur A) \/
              recovers (csize A) (l_start (f_log φ)) (apply_writes (take j new) (dur A)) (cur A')) φ3.
Proof.
  intros g Hi Hc1 Hh1 HT1 Hwr HR Ed En E Hv Hb Href C1 C2. pose proof (wd_again _ _ _ _ _ _ _ _ Hwr) as Hag.
  destruct (wd_held _ _ _ _ _ _ _ _ Hwr) as [Hh HT]. rewrite Hh1 in Hh. rewrite HT1 in HT.
  destruct HR as [(A1 & HL1 & Eh & Ep & (Ez & lw & Ew & Hlw & Hdu) & Hc) Es Esz Eb Ei Ec]. cbn in HL1, Eh, Hc. rewrite HT in HL1. rewrite Hh in Eh.
  apply lg_wp. assert (step (f_log φ) A (f_log φ3) A1 lw) as Hst by (by split).
  eapply wp_mono; [by apply (commit_crash (f_log φ) A (f_log φ3) A1 lw)|]. intros [] κ' (A' & new & Hi' & Hs' & Hc' & Hcr).
  assert (forall s, s < l_start (f_log φ) -> cur A' s = w_cur W2 s) as Hcur by (intros s Hs; rewrite Hc' by done; by apply Hc).
  assert (readable g W2 (i_d ip3)) as Hrd by (rewrite E; exact (writable_readable _ _ _ _ _ (cw_data _ _ _ _ _ Hag))).
  destruct (cw_iblock _ _ _ _ _ Hag) as [Hib _]. cbn in Hib.
  assert (dinode_at (cur A') (i_inum ip3) = i_d ip3) as Edi by (rewrite E, En; unfold dinode_at; by rewrite Hcur by lia).
  assert (file_content (cur A') (i_d ip3) = file_content (w_cur W2) (i_d ip3)) as Eco.
  { apply (content_agree g); [done|]. intros s [_ Hs]. by apply Hcur. }
  exists A', new. split_and!; try done; [|rewrite Eco, E; apply Hwr]. split; [done|]. split; try done.
  - eapply (can_write_agree g _ W2); [exact Hag|exact (st_start _ _ _ _ _ Hs')|by rewrite Hh|exact Hcur| |done|done|done].
    cbn [quiet_view w_ic f_icache set_log]. rewrite Ei. cbn. apply list_lookup_insert_eq.
    apply (lookup_lt_Some _ _ _ (cw_entry _ _ _ _ _ Hag)).
  - unfold intact. cbn [quiet_view w_cur]. rewrite Eco, E. apply Hwr.
Qed.

(** The transaction of one pass of the loop. *)
Lemma chunk_spec {X} s A f x i ip lim l (k : Z -> K sys X) (Q : X -> sys -> Prop) : let n := Z.of_nat (length l) in
  ready (s_fs s) A i ip lim -> s_ftable s !! f = Some x -> 0 <= fl_off x <= i_size ip -> 0 < n -> fl_off x + n <= lim ->
  Forall is_byte l -> touched (fl_off x) n + 1 < l_size (f_log (s_fs s)) ->
  (forall s' A' new ip', ready (s_fs s') A' i ip' lim -> i_inum ip' = i_inum ip ->
     step (f_log (s_fs s)) A (f_log (s_fs s')) A' new -> s_ftable s' = <[f := with_off (fl_off x + n) x]> (s_ftable s) ->
     file_content (cur A') (i_d ip') = splice (file_content (cur A) (i_d ip)) (fl_off x) l ->
     (forall j, recovers (csize A) (l_start (f_log (s_fs s))) (apply_writes (take j new) (dur A)) (cur A) \/
                recovers (csize A) (l_start (f_log (s_fs s))) (apply_writes (take j new) (dur A)) (cur A')) ->
     wp (k n) Q s') ->
  wp (fsys (lg begin_trans);;;
      fsys (ilock devsw (Some i));;;
      let! r := fsys (writei devsw (Some i) l (fl_off x) n) in
      (if 0 <? r then updf f (with_off (u32 (fl_off x + r))) else ret tt);;;
      fsys (iunlock (Some i));;;
      fsys (lg commit_trans);;;
      k r) Q s.
Proof.
  intros n [Hi [Hcw Hd Hint (Hv & Hb & Href) Hch]] Hx Hoff Hn Hl Hby Hlog HQ.
  pose proof (wr_lim _ _ _ _ _ (cw_data _ _ _ _ _ Hcw)) as Hlim. change (MAXFILE * BSIZE) with 70656 in Hlim.
  pose proof (ls_geom _ _ _ (idle_LS _ _ Hi)) as Hgeo. unfold LOGSIZE in Hgeo.
  set (φ := s_fs s) in *. set (g := quiet_geom A φ) in *. set (W := quiet_view A φ) in *.
  rewrite wp_bind. unfold fsys at 1. rewrite wp_zoom. apply lg_wp. eapply begin_idle; [done|]. intros HL.
  pose proof (begin_Rep φ A Hi HL) as HR. fold g W in HR.
  rewrite wp_bind. unfold fsys at 1. rewrite wp_zoom. eapply (ilock_cached devsw g); [exact HR|apply Hcw|done|done|done|]. intros φ1 HR1.
  apply can_write_flags with (f := fun f => flag_set f I_BUSY) in Hcw.
  set (ip1 := upd_flags (fun f => flag_set f I_BUSY) ip) in *. set (W1 := v_ic (insert i ip1) W) in *.
  rewrite wp_bind. unfold fsys at 1. rewrite wp_zoom.
  eapply wp_mono; [apply (writei_spec g devsw φ1 W1 i ip1 lim l (fl_off x) n false HR1 Hcw); try done; try lia; try (by right)|].
  { assert (wroom W1 = 20%nat) as ->; [|lia]. unfold wroom, w_secs. cbn. by rewrite map_img_empty_L. }
  intros r φ2 (-> & W2 & HR2 & Hwr). unfold n in Hwr. rewrite Nat2Z.id, firstn_all in Hwr.
  rewrite (proj2 (Z.ltb_lt 0 n)) by done. rewrite u32_small by lia. rewrite wp_bind. unfold updf, getf. rewrite !wp_bind. apply wp_get.
  change (s_ftable (set_fs _ _)) with (s_ftable s). rewrite Hx. apply wp_ret, wp_modify.
  pose proof (wd_again _ _ _ _ _ _ _ _ Hwr) as Hag. set (ip2 := upd_d _ ip1) in Hag.
  assert (flag (i_flags ip2) I_BUSY = true) as Hb2.
  { cbn. change I_BUSY with (2 ^ 0). by rewrite flag_set_spec. }
  rewrite wp_bind. unfold fsys at 1. rewrite wp_zoom. eapply (iunlock_spec g); [exact HR2|apply Hag|done|done|]. intros φ3 HR3.
  set (ip3 := upd_flags (fun f => flag_clr f I_BUSY) ip2) in HR3.
  assert (i_flags ip3 = i_flags ip) as Ef by (apply relock, Hb).
  rewrite wp_bind. unfold fsys at 1. rewrite wp_zoom.
  destruct (wd_meta _ _ _ _ _ _ _ _ Hwr) as (c & sz & Em). destruct Hch as [C1 C2].
  eapply wp_mono; [apply (commit_ready φ A φ3 W1 W2 i ip1 ip3 lim (fl_off x) l); rewrite ?Ef; try done;
    unfold i_child1, i_child2; cbn [ip3 ip2 upd_flags upd_d i_d]; by rewrite Em|].
  intros [] φ4 (A' & new & Hrd & Hst & Hco & Hcr). by eapply (HQ _ A' new ip3).
Qed.

(** Crashes of two runs of writes, one after the other. *)
Lemma crash_keeps_app κ A κ1 A1 n1 n2 inum c off l (m : Z) : step κ A κ1 A1 n1 ->
  whole_chunks FILE_MAX (Z.of_nat (length l)) m -> file_is (l_start κ) (cur A) inum (splice c off (take (Z.to_nat m) l)) ->
  (forall j, recovers (csize A) (l_start κ) (apply_writes (take j n1) (dur A)) (cur A) \/
             recovers (csize A) (l_start κ) (apply_writes (take j n1) (dur A)) (cur A1)) ->
  (exists m', whole_chunks FILE_MAX (Z.of_nat (length l)) m' /\ file_is (l_start κ) (cur A1) inum (splice c off (take (Z.to_nat m') l))) ->
  crash_keeps κ1 A1 n2 inum c off l -> crash_keeps κ A (n1 ++ n2) inum c off l.
Proof.
  intros Hst Hm Hf Hr (m' & Hm' & Hf') Hk j. destruct (decide (j <= length n1)%nat).
  - rewrite take_app_le by done. destruct (Hr j); [by exists m, (cur A)|by exists m', (cur A1)].
  - destruct (Hk (j - length n1)%nat) as (m2 & cc & H1 & H2 & H3). exists m2, cc.
    rewrite (st_start _ _ _ _ _ Hst), (st_csize _ _ _ _ _ Hst) in *. split_and!; try done.
    rewrite take_app_ge by lia. eapply recovers_ext; [exact H2| |done].
    intros s. rewrite apply_writes_app. apply apply_writes_ext. intros y. symmetry. apply Hst.
Qed.

(** The bytes of one pass. *)
Lemma chunk_step (addr c : list Z) off t (n := Z.of_nat (length addr)) (n1 := Z.min (n - t) FILE_MAX) :
  0 <= off <= Z.of_nat (length c) -> whole_chunks FILE_MAX n t -> t < n ->
  0 < n1 <= FILE_MAX /\ Z.of_nat (length (slice addr t n1)) = n1 /\ whole_chunks FILE_MAX n (t + n1) /\
  splice (splice c off (take (Z.to_nat t) addr)) (off + t) (slice addr t n1) = splice c off (take (Z.to_nat (t + n1)) addr).
Proof.
  intros Hc [Ht Hd] Hlt. assert (FILE_MAX = 4096) as HF by done. assert (0 < n1 <= FILE_MAX) as Hn1 by (unfold n1; lia).
  assert (length (slice addr t n1) = Z.to_nat n1) as Hlen by (apply length_slice; unfold n1, n; lia).
  split; [done|]. split; [lia|]. split.
  - split; [unfold n1; lia|]. destruct Hd as [->|Hd]; [lia|]. destruct (decide (n - t <= FILE_MAX)); [left; unfold n1; lia|right].
    replace n1 with FILE_MAX by (unfold n1; lia). by apply Z.divide_add_r, Z.divide_refl.
  - rewrite splice_app; [|done|rewrite length_take; unfold n in *; lia]. unfold slice.
    by rewrite Z2Nat.inj_add, take_take_drop by lia.
Qed.

Lemma filewrite_loop_spec fuel s A f x i ip lim addr t c off : let n := Z.of_nat (length addr) in
  ready (s_fs s) A i ip lim -> s_ftable s !! f = Some x -> fl_ip x = Some i -> fl_off x = off + t ->
  0 <= off <= Z.of_nat (length c) -> off + n <= lim -> Forall is_byte addr -> 10 < l_size (f_log (s_fs s)) ->
  whole_chunks FILE_MAX n t -> file_content (cur A) (i_d ip) = splice c off (take (Z.to_nat t) addr) ->
  n - t <= FILE_MAX * (Z.of_nat fuel - 1) ->
  wp (filewrite_loop devsw fuel f addr n t) (fun r s' => r = n /\ exists A' new ip', ready (s_fs s') A' i ip' lim /\
    i_inum ip' = i_inum ip /\ step (f_log (s_fs s)) A (f_log (s_fs s')) A' new /\
    s_ftable s' = <[f := with_off (off + n) x]> (s_ftable s) /\
    file_content (cur A') (i_d ip') = splice c off addr /\
    crash_keeps (f_log (s_fs s)) A new (i_inum ip) c off addr) s.
Proof.
  intros n. revert s A x ip t. induction fuel as [|fuel IH]; intros s A x ip t Hrd Hx Hip Hoff Hc Hl Hby Hlog Ht Hco Hfuel.
  { destruct Ht as [Ht _]. change FILE_MAX with 4096 in Hfuel. lia. }
  pose proof (ready_file _ _ _ _ _ Hrd) as Hfile. rewrite Hco in Hfile.
  pose proof (content_size _ _ _ _ _ Hrd) as Hsz. rewrite Hco in Hsz.
  cbn [filewrite_loop]. destruct (Z.ltb_spec t n) as [Hlt|Hge].
  2:{ apply wp_ret. assert (t = n) as -> by (destruct Ht as [Ht _]; lia). split; [done|]. exists A, [], ip. split_and!; try done.
      - by apply step_refl.
      - rewrite <- Hoff. symmetry. apply list_insert_id. rewrite Hx. f_equal. by destruct x.
      - rewrite Hco. unfold n. by rewrite Nat2Z.id, firstn_all.
      - intros j. exists n, (cur A). split; [done|]. rewrite take_nil. split; [by apply recovers_idle, Hrd|done]. }
  set (n1 := Z.min (n - t) FILE_MAX). destruct (chunk_step addr c off t Hc Ht Hlt) as (Hn1 & Hlen & Ht' & Hsp). fold n n1 in Hn1, Hlen, Ht', Hsp.
  rewrite wp_bind. unfold getf. rewrite wp_bind. apply wp_get. rewrite Hx. apply wp_ret. rewrite Hip.
  cbv zeta. fold n1. set (l := slice addr t n1) in *.
  replace (writei devsw (Some i) l (fl_off x) n1) with (writei devsw (Some i) l (fl_off x) (Z.of_nat (length l))) by (by rewrite Hlen).
  assert (fl_off x <= i_size ip) as Hle.
  { rewrite <- Hsz, Hoff. unfold splice. rewrite !length_app, !length_take. destruct Ht. unfold n in *. lia. }
  pose proof (touched_chunk (fl_off x) n1 ltac:(lia)) as Htc.
  eapply (chunk_spec s A f x i ip lim l (fun r => if r <? 0 then ret t else if negb (r =? n1) then panic "short filewrite"
    else filewrite_loop devsw fuel f addr n (t + r))); [done|done| |lia|lia| |rewrite Hlen; lia|].
  { destruct Ht. lia. }
  { unfold l, slice. by apply Forall_take, Forall_drop. }
  intros s1 A1 new1 ip1 Hrd1 Hin1 Hst1 Hft1 Hco1 Hcr1. rewrite Hlen in *.
  rewrite (proj2 (Z.ltb_ge n1 0)), Z.eqb_refl by lia. cbn [negb].
  pose proof (ready_file _ _ _ _ _ Hrd1) as Hfile1. rewrite Hco1, Hco, Hoff, Hsp in Hfile1.
  rewrite Hin1, (st_start _ _ _ _ _ Hst1) in Hfile1.
  eapply wp_mono; [apply (IH s1 A1 (with_off (fl_off x + n1) x) ip1 (t + n1)); try done; try lia|].
  - rewrite Hft1. apply list_lookup_insert_eq. by apply lookup_lt_Some in Hx.
  - cbn. lia.
  - by rewrite (st_size _ _ _ _ _ Hst1).
  - by rewrite Hco1, Hco, Hoff, Hsp.
  - change FILE_MAX with 4096 in *. unfold n1 in *. lia.
  - intros r s2 (-> & A2 & new2 & ip2 & Hrd2 & Hin2 & Hst2 & Hft2 & Hco2 & Hcr2). split; [done|].
    exists A2, (new1 ++ new2), ip2. rewrite Hin2, Hin1 in *. split_and!; try done.
    + by eapply step_trans.
    + rewrite Hft2, Hft1, list_insert_insert_eq. done.
    + by eapply (crash_keeps_app _ A _ A1 _ _ _ _ _ _ t); eauto.
Qed.

Lemma opened_file_agree g g' W W' i ip lim : opened_file g W i ip lim -> g_start g' = g_start g -> w_held W' = w_held W ->
  (forall s, s < g_start g -> w_cur W' s = w_cur W s) -> w_ic W' = w_ic W -> opened_file g' W' i ip lim.
Proof.
  intros [Hcw Hd Hint Hf Hp] Hg Hh Hc Hic. pose proof (writable_readable _ _ _ _ _ (cw_data _ _ _ _ _ Hcw)) as Hrd.
  destruct (cw_iblock _ _ _ _ _ Hcw) as [Hib _].
  assert (forall s, 0 <= s < g_start g -> w_cur W' s = w_cur W s) as Hc' by (intros s [_ Hs]; by apply Hc). split; try done.
  - eapply (can_write_agree g g'); try done. rewrite Hic. apply Hcw.
  - rewrite (inode_agree g W ip (w_cur W') ltac:(lia) Hc'). apply Hd.
  - unfold intact. rewrite (content_agree g W _ _ Hrd Hc'). apply Hint.
Qed.

(** [filewrite] when no transaction is open. *)
Lemma filewrite_spec killed s A f x i ip lim addr : let n := Z.of_nat (length addr) in
  ready (s_fs s) A i ip lim -> s_ftable s !! f = Some x -> fl_type x = FD_INODE -> fl_writable x = true -> fl_ip x = Some i ->
  0 <= fl_off x <= i_size ip -> fl_off x + n <= lim -> Forall is_byte addr -> 10 < l_size (f_log (s_fs s)) ->
  let c := file_content (cur A) (i_d ip) in
  wp (filewrite devsw killed f addr n) (fun r s' => r = n /\ exists A' new ip', ready (s_fs s') A' i ip' lim /\
    i_inum ip' = i_inum ip /\ step (f_log (s_fs s)) A (f_log (s_fs s')) A' new /\
    s_ftable s' = <[f := with_off (fl_off x + n) x]> (s_ftable s) /\
    file_content (cur A') (i_d ip') = splice c (fl_off x) addr /\
    crash_keeps (f_log (s_fs s)) A new (i_inum ip) c (fl_off x) addr) s.
Proof.
  intros n Hrd Hx Hty Hwr Hip Hoff Hl Hby Hlog c. unfold filewrite. rewrite wp_bind. unfold getf. rewrite wp_bind. apply wp_get.
  rewrite Hx. apply wp_ret. rewrite Hwr, Hty, Hip. cbn [negb].
  destruct (rd_file _ _ _ _ _ Hrd) as [Hcw _ _ (Hv & Hb & Href) _]. pose proof (cw_entry _ _ _ _ _ Hcw) as Hic.
  change (f_icache (s_fs s) !! i = Some ip) in Hic.
  rewrite wp_bind. unfold fsys at 1. rewrite wp_zoom. unfold ilock_trans. rewrite wp_bind. eapply ilock_ready; [exact Hic|done..|].
  apply wp_ret. change (0 =? E_CORRUPTED) with false. cbv iota. rewrite wp_bind. unfold fsys at 1. rewrite wp_zoom.
  eapply iunlock_locked; [apply list_lookup_insert_eq; by apply lookup_lt_Some in Hic| |done|].
  { cbn. change I_BUSY with (2 ^ 0). by rewrite flag_set_spec. }
  cbn [s_fs set_fs set_icache f_icache]. rewrite list_insert_insert_eq, (list_insert_id (f_icache (s_fs s))).
  2:{ rewrite Hic. f_equal. destruct ip as [dv nu rf fl di]. unfold upd_flags. cbn in *. by rewrite relock. }
  match goal with |- wp _ _ ?σ => replace σ with s by (by destruct s as [[]]) end.
  rewrite wp_bind. pose proof (content_size _ _ _ _ _ Hrd) as Hsz.
  eapply wp_mono; [apply (filewrite_loop_spec _ s A f x i ip lim addr 0 c (fl_off x)); try done; try lia|].
  - unfold c. lia.
  - split; [lia|right; apply Z.divide_0_r].
  - change (take (Z.to_nat 0) addr) with (@nil Z). by rewrite splice_nil.
  - change FILE_MAX with 4096. fold n. pose proof (Z.mod_pos_bound n 4096 ltac:(lia)). pose proof (Z.div_mod n 4096 ltac:(lia)).
    assert (0 <= n / 4096) by (apply Z.div_pos; lia). lia.
  - intros r s' [-> H]. apply wp_ret. rewrite Z.eqb_refl. done.
Qed.
End filewrite.

(** ** Theorem *)

(** C2. [filewrite] of any number of bytes to a file that has no dittos, is open and
    verified already, and has all its blocks up to the end of the write allocated,
    on a machine that has booted from a disk with a well formed log of more than
    10 blocks: it returns the number of bytes, advances the offset, and leaves the
    file with the bytes at the offset, extended if needed. Whenever the power is
    cut, the next boot succeeds and finds the file intact, holding a whole number
    of the 4096-byte chunks, one per transaction; all the bytes once [filewrite]
    has returned. (For files with dittos see [filewrite_dittos_overflow].) *)
Theorem filewrite_crash_safe devsw killed d size start nlog ss ic cwd ft pp km f x i ip lim addr
  (A0 := recovered (disk_of d) size start ss) (c := file_content (cur A0) (i_d ip)) (n := Z.of_nat (length addr)) :
  log_disk (disk_of d) size start nlog ss -> 10 < nlog ->
  opened_file (Geometry start nlog true A0) (boot_view d start ss ic cwd) i ip lim ->
  ft !! f = Some x -> fl_type x = FD_INODE -> fl_writable x = true -> fl_ip x = Some i ->
  0 <= fl_off x <= i_size ip -> fl_off x + n <= lim -> Forall is_byte addr ->
  exists κ s', initlog (boot d size) = Ret tt κ /\
    filewrite devsw killed f addr n (Sys (Fs κ ic cwd) ft pp km) = Ret n s' /\
    s_ftable s' = <[f := with_off (fl_off x + n) x]> ft /\
    forall k, let ws := writes (l_bio (f_log (s_fs s'))) in
    exists κr m, initlog (boot (crash_disk d (take k ws)) size) = Ret tt κr /\ whole_chunks FILE_MAX n m /\
      ((length ws <= k)%nat -> m = n) /\
      let di := dinode_at (dsk (l_bio κr)) (i_inum ip) in
      intact (dsk (l_bio κr)) di = true /\
      file_content (dsk (l_bio κr)) di = splice c (fl_off x) (take (Z.to_nat m) addr).
Proof.
  intros Hld Hlog Hof Hx Hty Hwr Hip Hoff Hl Hby.
  destruct (idle_init _ _ _ _ _ Hld) as (κ & E & Hi & Es & En & _ & _ & Hc0 & _). fold A0 in Hi, Hc0.
  assert (ready (Fs κ ic cwd) A0 i ip lim) as Hrd.
  { split; [done|]. eapply opened_file_agree; [exact Hof|exact Es|done|exact Hc0|done]. }
  pose proof (filewrite_spec devsw killed (Sys (Fs κ ic cwd) ft pp km) A0 f x i ip lim addr Hrd Hx Hty Hwr Hip Hoff Hl Hby) as H.
  cbn [s_fs f_log s_ftable] in H. rewrite En in H. specialize (H Hlog).
  apply wp_Ret in H as (r & s' & E' & -> & A' & new & ip' & Hrd' & Hin & Hst & Hft & Hco & Hcr). fold n in E', Hft. fold c in Hco, Hcr.
  exists κ, s'. split_and!; [done..|]. intros k ws.
  pose proof (ready_file _ _ _ _ _ Hrd) as Hf0. pose proof (ready_file _ _ _ _ _ Hrd') as Hf'.
  rewrite Hco, Hin, (st_start _ _ _ _ _ Hst), Es in Hf'. cbn [f_log] in Hf0. fold c in Hf0. rewrite Es in Hf0.
  unfold crash_keeps in Hcr. fold n in Hcr. rewrite Es in Hcr.
  set (P := fun cc => exists m, whole_chunks FILE_MAX n m /\ file_is start cc (i_inum ip) (splice c (fl_off x) (take (Z.to_nat m) addr))).
  destruct (boot_crash d size start nlog ss κ _ A' new Hld E (rd_idle _ _ _ _ _ Hrd') Hst P) with (k := k) as (κr & cc & Er & Hcc & Hcase).
  - exists 0. split; [split; [lia|right; apply Z.divide_0_r]|]. change (take (Z.to_nat 0) addr) with (@nil Z). rewrite splice_nil.
    eapply file_is_agree; [exact Hf0|]. intros s [_ Hs]. symmetry. by apply Hc0.
  - intros j. destruct (Hcr j) as (m & cc & Hm & Hr & Hf). exists cc. split; [done|]. by exists m.
  - fold ws in Er, Hcase. destruct Hcase as [[(m & Hm & Hf) Hk]| ->].
    + exists κr, m. split_and!; try done; [lia|..]; by apply Hf.
    + exists κr, n. replace (take (Z.to_nat n) addr) with addr by (unfold n; by rewrite Nat2Z.id, firstn_all). split_and!; try done; [|by apply Hf'..].
      split; [lia|by left].
Qed.

Definition roomy_image : gmap Z block := roomy plain_image.

Definition open_inode : inode := upd_flags (fun _ => I_VALID) plain_inode.

Lemma roomy_open base : opened_file (Geometry 13 11 true base) (boot_view roomy_image 13 [] [open_inode] None) 0 open_inode 512.
Proof.
  split; try done. split; try done.
  - by apply img_writable.
  - split; try done. split; [done|]. repeat constructor; done.
Qed.

Lemma filewrite_crash_safe_witness : exists κ s', initlog (boot roomy_image 24) = Ret tt κ /\
  filewrite no_devsw false 0 [112; 105; 110; 103] 4
    (Sys (Fs κ [open_inode] None) [File FD_INODE 1 true true 0 (Some 0%nat) 3] ∅ (Kmem (fun _ => []) 0)) = Ret 4 s'.
Proof.
  destruct (filewrite_crash_safe no_devsw false roomy_image 24 13 11 [] [open_inode] None
    [File FD_INODE 1 true true 0 (Some 0%nat) 3] ∅ (Kmem (fun _ => []) 0) 0 (File FD_INODE 1 true true 0 (Some 0%nat) 3) 0
    open_inode 512 [112; 105; 110; 103] (roomy_log _ plain_log)) as (κ & s' & E & H & _);
    [done|apply roomy_open|done..|by_evaluation|].
  exists κ, s'. exact (conj E H).
Defined.

(** ** Files with dittos

    An empty file with two empty dittos, on a disk with the log of twenty blocks
    that mkfs makes. *)
Definition ditto_image : gmap Z block :=
  <[1 := put32 (put32 (put32 (put32 zblock 0 80) 4 50) 8 8) 12 20]>
  (<[2 := put_dinode 4 (Dinode T_DITTO 0 0 1 0 (replicate 11 0) 0 0 0) (put_dinode 3 (Dinode T_DITTO 0 0 1 0 (replicate 11 0) 0 0 0)
            (put_dinode 2 (Dinode T_FILE 0 0 1 0 (replicate 11 0) 3 4 0) zblock))]>
  (<[4 := <[0%nat := 255]> zblock]> ∅)).
Definition ditto_icache : list inode := [Inode 1 2 1 0 no_dinode; free_inode; free_inode; free_inode].

(** The result of writing [n] bytes to that file. *)
Definition write_ditto (n : nat) : outcome sys Z :=
  match initlog (boot ditto_image 80) with
  | Ret _ κ => filewrite no_devsw false 0 (replicate n 7) (Z.of_nat n)
      (Sys (Fs κ ditto_icache None) [File FD_INODE 1 true true 0 (Some 0%nat) 0] ∅ (Kmem (fun _ => []) 0))
  | _ => NoFuel
  end.

(** [filewrite] cuts a write into chunks that fit the log for one file, but
    [writei] writes the chunk to the dittos in the same transaction: a single write
    of 3072 bytes to a file with two dittos makes the kernel panic in [log_write]. *)
Theorem filewrite_dittos_overflow : write_ditto 3072 = Panic "too big a transaction".
Proof. by vm_compute. Qed.
