(* ===== verification/Proc.v ===== *)
(** Processes: the process table of proc.c over the file layer, the page
    allocator and the page tables; creation, exit and reaping, sleeping and
    waking, killing, and the choice made by the scheduler. *)
From S2P Require Import Prelude Bio Log Str Fs Kalloc Vm Pipe File.

(** ** Data *)

Definition NPROC : Z := 64.
Definition KSTACKSIZE : Z := 4096.

Inductive procstate := UNUSED | EMBRYO | SLEEPING | RUNNABLE | RUNNING | ZOMBIE.

#[export] Instance procstate_eq_dec : EqDecision procstate.
Proof. solve_decision. Defined.

(** struct trapframe of x86.h, without the padding. *)
Record trapframe := Trapframe {
  tf_edi : Z; tf_esi : Z; tf_ebp : Z; tf_oesp : Z; tf_ebx : Z; tf_edx : Z; tf_ecx : Z; tf_eax : Z;
  tf_gs : Z; tf_fs : Z; tf_es : Z; tf_ds : Z; tf_trapno : Z;
  tf_err : Z; tf_eip : Z; tf_cs : Z; tf_eflags : Z; tf_esp : Z; tf_ss : Z
}.

Definition zero_tf : trapframe := Trapframe 0 0 0 0 0 0 0 0 0 0 0 0 0 0 0 0 0 0 0.

Definition with_eax (v : Z) (t : trapframe) : trapframe :=
  Trapframe (tf_edi t) (tf_esi t) (tf_ebp t) (tf_oesp t) (tf_ebx t) (tf_edx t) (tf_ecx t) v
    (tf_gs t) (tf_fs t) (tf_es t) (tf_ds t) (tf_trapno t) (tf_err t) (tf_eip t) (tf_cs t) (tf_eflags t) (tf_esp t) (tf_ss t).
Definition with_entry (eip esp : Z) (t : trapframe) : trapframe :=
  Trapframe (tf_edi t) (tf_esi t) (tf_ebp t) (tf_oesp t) (tf_ebx t) (tf_edx t) (tf_ecx t) (tf_eax t)
    (tf_gs t) (tf_fs t) (tf_es t) (tf_ds t) (tf_trapno t) (tf_err t) eip (tf_cs t) (tf_eflags t) esp (tf_ss t).

(** struct context, and the return address [allocproc] leaves above it. *)
Record context := CContext { c_edi : Z; c_esi : Z; c_ebx : Z; c_ebp : Z; c_eip : Z; c_ret : Z }.

(** What a process can wait for: the addresses passed to [sleep] and [wakeup]. *)
Inductive chan :=
| CProc (i : nat) | CTicks | CInput | CLog | CBuf (i : nat) | CInode (i : nat) | CPipeR (a : Z) | CPipeW (a : Z).

#[export] Instance chan_eq_dec : EqDecision chan.
Proof. solve_decision. Defined.

(** struct proc; a [struct proc *] is an index of [ptable.proc]. *)
Record proc := Proc {
  proc_sz : Z; proc_pgdir : Z; proc_kstack : Z; proc_state : procstate; proc_pid : Z;
  proc_parent : option nat; proc_tf : trapframe; proc_context : context; proc_chan : option chan;
  proc_killed : bool; proc_ofile : list (option nat); proc_cwd : iptr; proc_name : list Z
}.

Definition with_state (x : procstate) (p : proc) : proc :=
  Proc (proc_sz p) (proc_pgdir p) (proc_kstack p) x (proc_pid p) (proc_parent p) (proc_tf p) (proc_context p)
    (proc_chan p) (proc_killed p) (proc_ofile p) (proc_cwd p) (proc_name p).
Definition with_pid (x : Z) (p : proc) : proc :=
  Proc (proc_sz p) (proc_pgdir p) (proc_kstack p) (proc_state p) x (proc_parent p) (proc_tf p) (proc_context p)
    (proc_chan p) (proc_killed p) (proc_ofile p) (proc_cwd p) (proc_name p).
Definition with_kstack (x : Z) (p : proc) : proc :=
  Proc (proc_sz p) (proc_pgdir p) x (proc_state p) (proc_pid p) (proc_parent p) (proc_tf p) (proc_context p)
    (proc_chan p) (proc_killed p) (proc_ofile p) (proc_cwd p) (proc_name p).
Definition with_context (x : context) (p : proc) : proc :=
  Proc (proc_sz p) (proc_pgdir p) (proc_kstack p) (proc_state p) (proc_pid p) (proc_parent p) (proc_tf p) x
    (proc_chan p) (proc_killed p) (proc_ofile p) (proc_cwd p) (proc_name p).
Definition with_pgdir (x : Z) (p : proc) : proc :=
  Proc (proc_sz p) x (proc_kstack p) (proc_state p) (proc_pid p) (proc_parent p) (proc_tf p) (proc_context p)
    (proc_chan p) (proc_killed p) (proc_ofile p) (proc_cwd p) (proc_name p).
Definition with_sz (x : Z) (p : proc) : proc :=
  Proc x (proc_pgdir p) (proc_kstack p) (proc_state p) (proc_pid p) (proc_parent p) (proc_tf p) (proc_context p)
    (proc_chan p) (proc_killed p) (proc_ofile p) (proc_cwd p) (proc_name p).
Definition with_parent (x : option nat) (p : proc) : proc :=
  Proc (proc_sz p) (proc_pgdir p) (proc_kstack p) (proc_state p) (proc_pid p) x (proc_tf p) (proc_context p)
    (proc_chan p) (proc_killed p) (proc_ofile p) (proc_cwd p) (proc_name p).
Definition with_tf (x : trapframe) (p : proc) : proc :=
  Proc (proc_sz p) (proc_pgdir p) (proc_kstack p) (proc_state p) (proc_pid p) (proc_parent p) x (proc_context p)
    (proc_chan p) (proc_killed p) (proc_ofile p) (proc_cwd p) (proc_name p).
Definition with_chan (x : option chan) (p : proc) : proc :=
  Proc (proc_sz p) (proc_pgdir p) (proc_kstack p) (proc_state p) (proc_pid p) (proc_parent p) (proc_tf p) (proc_context p)
    x (proc_killed p) (proc_ofile p) (proc_cwd p) (proc_name p).
Definition with_killed (x : bool) (p : proc) : proc :=
  Proc (proc_sz p) (proc_pgdir p) (proc_kstack p) (proc_state p) (proc_pid p) (proc_parent p) (proc_tf p) (proc_context p)
    (proc_chan p) x (proc_ofile p) (proc_cwd p) (proc_name p).
Definition with_ofile (fd : nat) (x : option nat) (p : proc) : proc :=
  Proc (proc_sz p) (proc_pgdir p) (proc_kstack p) (proc_state p) (proc_pid p) (proc_parent p) (proc_tf p) (proc_context p)
    (proc_chan p) (proc_killed p) (<[fd := x]> (proc_ofile p)) (proc_cwd p) (proc_name p).
Definition with_cwd (x : iptr) (p : proc) : proc :=
  Proc (proc_sz p) (proc_pgdir p) (proc_kstack p) (proc_state p) (proc_pid p) (proc_parent p) (proc_tf p) (proc_context p)
    (proc_chan p) (proc_killed p) (proc_ofile p) x (proc_name p).
(** Store [x] at the start of [char name[16]]. *)
Definition with_name (x : list Z) (p : proc) : proc :=
  Proc (proc_sz p) (proc_pgdir p) (proc_kstack p) (proc_state p) (proc_pid p) (proc_parent p) (proc_tf p) (proc_context p)
    (proc_chan p) (proc_killed p) (proc_ofile p) (proc_cwd p) (splice (proc_name p) 0 x).

(** The kernel seen by one processor: [g_proc] is [proc]. *)
Record kernel := Kernel {
  g_sys : sys; g_ptable : list proc; g_nextpid : Z; g_initproc : option nat; g_proc : option nat; g_ticks : Z
}.

Definition set_sys (x : sys) (g : kernel) : kernel :=
  Kernel x (g_ptable g) (g_nextpid g) (g_initproc g) (g_proc g) (g_ticks g).
Definition set_ptable (x : list proc) (g : kernel) : kernel :=
  Kernel (g_sys g) x (g_nextpid g) (g_initproc g) (g_proc g) (g_ticks g).
Definition set_nextpid (x : Z) (g : kernel) : kernel :=
  Kernel (g_sys g) (g_ptable g) x (g_initproc g) (g_proc g) (g_ticks g).
Definition set_initproc (x : option nat) (g : kernel) : kernel :=
  Kernel (g_sys g) (g_ptable g) (g_nextpid g) x (g_proc g) (g_ticks g).
Definition set_proc (x : option nat) (g : kernel) : kernel :=
  Kernel (g_sys g) (g_ptable g) (g_nextpid g) (g_initproc g) x (g_ticks g).
Definition set_ticks (x : Z) (g : kernel) : kernel :=
  Kernel (g_sys g) (g_ptable g) (g_nextpid g) (g_initproc g) (g_proc g) x.

(** Routines of the layers below; the file system sees [proc->cwd]. *)
Definition current (g : kernel) : option proc := g_proc g ≫= fun i => g_ptable g !! i.
Definition fl {A} (m : K sys A) : K kernel A := zoom g_sys set_sys m.
Definition mm {A} (m : K kmem A) : K kernel A := fl (kmm m).
Definition fsk {A} (m : K fs A) : K kernel A :=
  zoom (fun g => set_cwd (current g ≫= proc_cwd) (s_fs (g_sys g)))
       (fun φ g => set_sys (set_fs φ (g_sys g)) g) m.

Definition getp (i : nat) : K kernel proc := let! g := get in lift_opt "proc pointer" (g_ptable g !! i).
Definition updp (i : nat) (f : proc -> proc) : K kernel unit :=
  let! p := getp i in modify (fun g => set_ptable (<[i := f p]> (g_ptable g)) g).
(** The pointer [proc], and the process it points to. *)
Definition myproc : K kernel nat := let! g := get in lift_opt "proc is null" (g_proc g).
Definition me : K kernel proc := let! i := myproc in getp i.
Definition updme (f : proc -> proc) : K kernel unit := let! i := myproc in updp i f.

Definition in_state (x : procstate) (p : proc) : bool := bool_decide (proc_state p = x).
Definition child_of (i : nat) (p : proc) : bool := bool_decide (proc_parent p = Some i).

(** ** Sleeping and waking *)

(** [wakeup1] changes the table. *)
Definition wake_one (c : chan) (p : proc) : proc :=
  if in_state SLEEPING p && bool_decide (proc_chan p = Some c) then with_state RUNNABLE p else p.
Definition wakeup1 (c : chan) : K kernel unit := modify (fun g => set_ptable (wake_one c <$> g_ptable g) g).
Definition wakeup (c : chan) : K kernel unit := wakeup1 c.

(** Give the processor up. [swtch] is the time from the switch of stacks to the
    scheduler until the scheduler switches back to this process: other processes
    and interrupts change the state meanwhile. The checks of [sched] on the lock,
    the nesting of [pushcli] and the interrupt flag are [sched_checks] in Spinlock. *)
Definition sched_to {A} (swtch : K kernel A) : K kernel A :=
  let! p := me in
  if in_state RUNNING p then panic "sched running" else swtch.
Definition yield_to (swtch : K kernel unit) : K kernel unit := updme (with_state RUNNABLE);;; sched_to swtch.

(** Up to the switch: the outcome is the state the scheduler finds. *)
Definition sched {A} : K kernel A := sched_to sleeps.
Definition yield : K kernel unit := yield_to sleeps.

(** [sleep] up to the call of [sched], and what follows it when awakened. A routine
    that sleeps in a loop is run again from the test of the loop. *)
Definition sleep {A} (c : chan) : K kernel A :=
  let! g := get in
  match g_proc g with
  | None => panic "sleep"
  | Some i => updp i (fun p => with_state SLEEPING (with_chan (Some c) p));;; sched
  end.
Definition sleep_wake : K kernel unit := updme (with_chan None).

Definition kill (pid : Z) : K kernel Z :=
  let! g := get in
  match index_of (fun p => proc_pid p =? pid) (g_ptable g) with
  | None => ret (-1)
  | Some i =>
    updp i (with_killed true);;;
    let! p := getp i in
    (if in_state SLEEPING p then updp i (with_state RUNNABLE) else ret tt);;;
    ret 0
  end.

(** ** Scheduling *)

(** The processor starts to run process [i], and is back in [scheduler] with
    [proc = 0] when it has given the processor up. *)
Definition run_proc (i : nat) : K kernel unit :=
  modify (set_proc (Some i));;; updp i (with_state RUNNING).
Definition back_to_scheduler : K kernel unit := modify (set_proc None).

Section scheduler.
(** What happens from the switch to process [k] in turn [t] of the outer loop until
    the processor is back in the scheduler, and what happens between two turns,
    while [ptable.lock] is free. *)
Context (swtch : nat -> nat -> K kernel unit) (idle : nat -> K kernel unit).

(** The body of the loop over the table, at entry [k] in turn [t]; the result is the
    list of processes that were run, of length 0 or 1. *)
Definition scheduler_body (t k : nat) : K kernel (list nat) :=
  let! p := getp k in
  if negb (in_state RUNNABLE p) then ret []
  else
  run_proc k;;;
  swtch t k;;;
  back_to_scheduler;;;
  ret [k].

(** [for(p = ptable.proc; p < &ptable.proc[NPROC]; p++)] *)
Definition scheduler_pass (t : nat) : K kernel (list nat) :=
  foldK (fun k ds => let! d := scheduler_body t k in ret (ds ++ d)) (seq 0 (Z.to_nat NPROC)) [].

(** The first [n] turns of [for(;;)], with the processes run in each. *)
Fixpoint scheduler (n : nat) : K kernel (list (list nat)) :=
  match n with
  | O => ret []
  | S n =>
    let! dss := scheduler n in
    idle n;;;
    let! ds := scheduler_pass n in
    ret (dss ++ [ds])
  end.
End scheduler.

Section proc.
(** The device switch; [end] and [data] of kernel.ld; the addresses of [forkret]
    and [trapret]; the program linked in as [_binary_initcode_start]. *)
Context (devsw : Z -> devsw_t) (kend kdata forkret_addr trapret_addr : Z) (initcode : list Z).

(** ** Creation *)

Definition allocproc : K kernel (option nat) :=
  let! g := get in
  match index_of (in_state UNUSED) (g_ptable g) with
  | None => ret None
  | Some i =>
    updp i (fun p => with_pid (g_nextpid g) (with_state EMBRYO p));;;
    modify (set_nextpid (s32 (g_nextpid g + 1)));;;
    let! ks := mm kalloc in
    updp i (with_kstack ks);;;
    if ks =? 0 then updp i (with_state UNUSED);;; ret None
    else updp i (with_context (CContext 0 0 0 0 forkret_addr trapret_addr));;; ret (Some i)
  end.

Definition SEG_UCODE : Z := 4.
Definition SEG_UDATA : Z := 5.
Definition DPL_USER : Z := 3.
Definition FL_IF : Z := 512.

(** The trap frame of the first process. *)
Definition init_tf : trapframe :=
  let cs := Z.lor (Z.shiftl SEG_UCODE 3) DPL_USER in
  let ds := Z.lor (Z.shiftl SEG_UDATA 3) DPL_USER in
  Trapframe 0 0 0 0 0 0 0 0 0 0 ds ds 0 0 0 cs FL_IF PGSIZE ds.

(** "initcode" *)
Definition initcode_name : list Z := [105; 110; 105; 116; 99; 111; 100; 101].

Definition userinit : K kernel unit :=
  let! p := allocproc in
  modify (set_initproc p);;;
  let! i := lift_opt "p->pgdir with p = 0" p in
  let! pg := mm (setupkvm kdata) in
  updp i (with_pgdir pg);;;
  if pg =? 0 then panic "userinit: out of memory?"
  else
  mm (inituvm pg initcode);;;
  updp i (fun p => with_name (safestrcpy initcode_name 16) (with_tf init_tf (with_sz PGSIZE p)));;;
  let! cwd := fsk (namei devsw [47]) in
  updp i (with_cwd cwd);;;
  updp i (with_state RUNNABLE).

Definition growproc (n : Z) : K kernel Z :=
  let! p := me in
  let sz := proc_sz p in
  if 0 <? n then
    let! sz := mm (allocuvm kend (proc_pgdir p) sz (u32 (sz + n))) in
    if sz =? 0 then ret (-1) else updme (with_sz sz);;; ret 0
  else if n <? 0 then
    let! sz := mm (deallocuvm kend (proc_pgdir p) sz (u32 (sz + n))) in
    if sz =? 0 then ret (-1) else updme (with_sz sz);;; ret 0
  else updme (with_sz sz);;; ret 0.

(** [np->ofile[i] = filedup(proc->ofile[i])] for the open descriptors. *)
Definition dup_ofile (np : nat) (i : Z) : K kernel unit :=
  let! p := me in
  let! f := lift_opt "proc->ofile index" (proc_ofile p !! Z.to_nat i) in
  match f with
  | None => ret tt
  | Some f => let! f := fl (filedup f) in updp np (with_ofile (Z.to_nat i) (Some f))
  end.

Definition fork : K kernel Z :=
  let! np := allocproc in
  match np with
  | None => ret (-1)
  | Some np =>
    let! p := me in
    let! pg := mm (copyuvm kend kdata (proc_pgdir p) (proc_sz p)) in
    updp np (with_pgdir pg);;;
    if pg =? 0 then
      let! q := getp np in
      mm (kfree kend (proc_kstack q));;;
      updp np (with_kstack 0);;;
      updp np (with_state UNUSED);;;
      ret (-1)
    else
    let! i := myproc in
    updp np (fun q => with_tf (with_eax 0 (proc_tf p)) (with_parent (Some i) (with_sz (proc_sz p) q)));;;
    forK (dup_ofile np) (zrange 0 NOFILE);;;
    let! cwd := fsk (idup (proc_cwd p)) in
    updp np (with_cwd cwd);;;
    let! q := getp np in
    updp np (with_state RUNNABLE);;;
    updp np (with_name (safestrcpy (proc_name p) 16));;;
    ret (proc_pid q)
  end.

(** ** Exit and wait *)

Definition close_fd (fd : Z) : K kernel unit :=
  let! p := me in
  let! f := lift_opt "proc->ofile index" (proc_ofile p !! Z.to_nat fd) in
  match f with
  | None => ret tt
  | Some f => fl (fileclose devsw kend f);;; updme (with_ofile (Z.to_nat fd) None)
  end.

(** Pass the children of [i] at index [k] on to [initproc]. *)
Definition reparent (i : nat) (k : Z) : K kernel unit :=
  let! q := getp (Z.to_nat k) in
  if child_of i q then
    let! g := get in
    updp (Z.to_nat k) (with_parent (g_initproc g));;;
    if in_state ZOMBIE q then
      let! ip := lift_opt "initproc is null" (g_initproc g) in wakeup1 (CProc ip)
    else ret tt
  else ret tt.

Definition exit : K kernel unit :=
  let! i := myproc in
  let! g := get in
  if bool_decide (g_initproc g = Some i) then panic "init exiting"
  else
  forK close_fd (zrange 0 NOFILE);;;
  let! p := me in
  fsk (iput devsw (proc_cwd p));;;
  updme (with_cwd None);;;
  let! p := me in
  (match proc_parent p with Some q => wakeup1 (CProc q) | None => ret tt end);;;
  forK (reparent i) (zrange 0 NPROC);;;
  updme (with_state ZOMBIE);;;
  (sched : K kernel unit);;;
  panic "zombie exit".

(** Release what is left of the zombie at index [k]. *)
Definition reap (k : nat) : K kernel Z :=
  let! q := getp k in
  mm (kfree kend (proc_kstack q));;;
  updp k (with_kstack 0);;;
  mm (freevm kend (proc_pgdir q));;;
  updp k (fun q => with_killed false (with_name [0] (with_parent None (with_pid 0 (with_state UNUSED q)))));;;
  ret (proc_pid q).

Definition wait : K kernel Z :=
  let! i := myproc in
  let! g := get in
  match index_of (fun q => child_of i q && in_state ZOMBIE q) (g_ptable g) with
  | Some k => reap k
  | None =>
    let! p := me in
    if negb (existsb (child_of i) (g_ptable g)) || proc_killed p then ret (-1)
    else sleep (CProc i)
  end.
End proc.

(** ** Frame conditions on the table *)

(** A process slot keeps its identity and its state, except that it may be awakened. *)
Definition quiet_proc (p p' : proc) : Prop :=
  proc_pid p' = proc_pid p /\ proc_parent p' = proc_parent p /\
  (proc_state p' = proc_state p \/ proc_state p = SLEEPING /\ proc_state p' = RUNNABLE).

Definition quiet (g g' : kernel) : Prop :=
  Forall2 quiet_proc (g_ptable g) (g_ptable g') /\
  g_nextpid g' = g_nextpid g /\ g_initproc g' = g_initproc g /\ g_proc g' = g_proc g.

#[export] Instance quiet_proc_refl : Reflexive quiet_proc.
Proof. intros p. by repeat split; try left. Qed.
#[export] Instance quiet_proc_trans : Transitive quiet_proc.
Proof.
  intros p q r (H1 & H2 & H3) (H4 & H5 & H6). split; [congruence|]. split; [congruence|].
  destruct H3 as [H3|[H3 H3']], H6 as [H6|[H6 H6']]; [left; congruence|right; split; congruence..].
Qed.

#[export] Instance quiet_refl : Reflexive quiet.
Proof. intros g. split; [reflexivity|done]. Qed.
#[export] Instance quiet_trans : Transitive quiet.
Proof. intros g h k (H1 & H2 & H3 & H4) (H5 & H6 & H7 & H8). split; [by etrans|]. repeat split; congruence. Qed.

Lemma quiet_insert g i p p' : g_ptable g !! i = Some p -> quiet_proc p p' ->
  quiet g (set_ptable (<[i := p']> (g_ptable g)) g).
Proof.
  intros Hp Hq. split; [|done]. cbn. rewrite <- (list_insert_id (g_ptable g) i p Hp) at 1. apply Forall2_insert; done.
Qed.

Lemma getp_eq g i p : g_ptable g !! i = Some p -> getp i g = Ret p g.
Proof. intros H. unfold getp, bind, get. by rewrite H. Qed.

Lemma updp_eq g i p f : g_ptable g !! i = Some p -> updp i f g = Ret tt (set_ptable (<[i := f p]> (g_ptable g)) g).
Proof. intros H. unfold updp, bind. by rewrite (getp_eq g i p H). Qed.

Lemma keeps_getp i : keeps quiet (getp i).
Proof. unfold getp. keeps_tac. Qed.
Lemma keeps_myproc : keeps quiet myproc.
Proof. unfold myproc. keeps_tac. Qed.
Lemma keeps_updp i f : (forall p, quiet_proc p (f p)) -> keeps quiet (updp i f).
Proof.
  intros Hf g. destruct (g_ptable g !! i) as [p|] eqn:E.
  - rewrite (updp_eq g i p f E). by apply (quiet_insert g i p).
  - unfold updp, getp, bind, get. by rewrite E.
Qed.
Lemma keeps_fl {A} (m : K sys A) : keeps quiet (fl m).
Proof. apply keeps_zoom. intros t g. split; [reflexivity|done]. Qed.
Lemma keeps_fsk {A} (m : K fs A) : keeps quiet (fsk m).
Proof. apply keeps_zoom. intros t g. split; [reflexivity|done]. Qed.
#[export] Hint Resolve keeps_getp keeps_myproc keeps_fl keeps_fsk : keeps.

Lemma keeps_me : keeps quiet me.
Proof. unfold me. keeps_tac. Qed.
Lemma keeps_mm {A} (m : K kmem A) : keeps quiet (mm m).
Proof. apply keeps_fl. Qed.
Lemma keeps_updme f : (forall p, quiet_proc p (f p)) -> keeps quiet (updme f).
Proof. intros Hf. unfold updme. pose proof (fun i => keeps_updp i f Hf). keeps_tac. Qed.
#[export] Hint Resolve keeps_me keeps_mm : keeps.

Ltac quiet_field := intros ?; split; [reflexivity|split; [reflexivity|left; reflexivity]].
#[export] Hint Extern 1 (keeps quiet (updp _ _)) => apply keeps_updp; quiet_field : keeps.
#[export] Hint Extern 1 (keeps quiet (updme _)) => apply keeps_updme; quiet_field : keeps.

Lemma wake_one_quiet c p : quiet_proc p (wake_one c p).
Proof.
  unfold wake_one, in_state. case_bool_decide as Hs; [|reflexivity]. case_bool_decide; [|reflexivity].
  split; [reflexivity|]. split; [reflexivity|]. right. split; [done|reflexivity].
Qed.

Lemma wakeup1_quiet c : keeps quiet (wakeup1 c).
Proof.
  apply keeps_modify. intros g. split; [|done]. cbn. apply Forall2_fmap_r.
  induction (g_ptable g); constructor; [apply wake_one_quiet|done].
Qed.
#[export] Hint Resolve wakeup1_quiet : keeps.

(** ** What the operations do to the table *)

Lemma updp_Ret g i f g' : updp i f g = Ret tt g' ->
  exists p, g_ptable g !! i = Some p /\ g' = set_ptable (<[i := f p]> (g_ptable g)) g.
Proof.
  intros H. destruct (g_ptable g !! i) as [p|] eqn:E.
  - rewrite (updp_eq g i p f E) in H. injection H as <-. by exists p.
  - unfold updp, getp, bind, get in H. by rewrite E in H.
Qed.

Lemma getp_Ret g i p g' : getp i g = Ret p g' -> g' = g /\ g_ptable g !! i = Some p.
Proof. unfold getp, bind, get. destruct (g_ptable g !! i); cbn; [|done]. by intros [= <- <-]. Qed.

Lemma quiet_lookup g g' i p : quiet g g' -> g_ptable g !! i = Some p ->
  exists p', g_ptable g' !! i = Some p' /\ quiet_proc p p'.
Proof. intros (H & _) Hp. by destruct (Forall2_lookup_l _ _ _ _ _ H Hp) as (p' & ? & ?); exists p'. Qed.

(** The same update on both sides. *)
Lemma quiet_upd h g i f p g' : quiet h g -> g_ptable h !! i = Some p -> updp i f g = Ret tt g' ->
  (forall p', quiet_proc p p' -> quiet_proc (f p) (f p')) ->
  quiet (set_ptable (<[i := f p]> (g_ptable h)) h) g'.
Proof.
  intros Hq Hp E Hf. apply updp_Ret in E as (p' & Hp' & ->).
  destruct (quiet_lookup h g i p Hq Hp) as (q & Hq1 & Hq2). rewrite Hp' in Hq1. injection Hq1 as <-.
  destruct Hq as (H1 & H2). split; [|done]. cbn. apply Forall2_insert; [done|]. by apply Hf.
Qed.

Lemma quiet_upd_r h g i f g' : quiet h g -> updp i f g = Ret tt g' -> (forall p, quiet_proc p (f p)) -> quiet h g'.
Proof. intros Hq E Hf. etrans; [exact Hq|]. eapply keeps_Ret; [|exact E]. by apply keeps_updp. Qed.

Lemma quiet_keeps {A} h g (m : K kernel A) a g' : quiet h g -> keeps quiet m -> m g = Ret a g' -> quiet h g'.
Proof. intros Hq Hm E. etrans; [exact Hq|]. by eapply keeps_Ret. Qed.

(** Take the next step of [E], which keeps what [Q] says of the table. *)
Ltac quiet_step E Q :=
  let a := fresh "a" in let g1 := fresh "g1" in let E1 := fresh "E1" in let Q' := fresh "Q'" in
  apply bind_Ret in E as (a & g1 & E1 & E);
  match type of Q with quiet ?h _ =>
    assert (quiet h g1) as Q' by (eapply quiet_keeps; [exact Q| |exact E1]; eauto with keeps)
  end; clear Q E1; rename Q' into Q.

(** The table with slot [i] replaced, and the next pid taken. *)
Definition take_slot (i : nat) (p : proc) (g : kernel) : kernel :=
  set_nextpid (s32 (g_nextpid g + 1)) (set_ptable (<[i := p]> (g_ptable g)) g).

Section table.
Context (devsw : Z -> devsw_t) (kend kdata fr tr : Z) (initcode : list Z).

Lemma dup_ofile_quiet np i : keeps quiet (dup_ofile np i).
Proof. unfold dup_ofile. keeps_tac. Qed.
Lemma close_fd_quiet fd : keeps quiet (close_fd devsw kend fd).
Proof. unfold close_fd. keeps_tac. Qed.
Hint Resolve dup_ofile_quiet close_fd_quiet : keeps.

(** A slot that was taken and is given back. *)
Lemma untake_slot h g i p n g' : proc_state p = UNUSED -> g_ptable g !! i = Some p ->
  h = take_slot i (with_pid n (with_state EMBRYO p)) g ->
  forall g1, quiet h g1 -> updp i (with_state UNUSED) g1 = Ret tt g' -> quiet (take_slot i (with_pid n p) g) g'.
Proof.
  intros Hs Hp -> g1 Q E. pose proof (lookup_lt_Some _ _ _ Hp).
  assert (g_ptable (take_slot i (with_pid n (with_state EMBRYO p)) g) !! i = Some (with_pid n (with_state EMBRYO p))) as Hh
    by (cbn; by rewrite list_lookup_insert_eq).
  pose proof (quiet_upd _ g1 i _ _ g' Q Hh E ltac:(intros ? (? & ? & _); split; [done|split; [done|by left]])) as Q'.
  etrans; [|exact Q']. split; [|done]. cbn. rewrite list_insert_insert_eq.
  apply Forall2_insert; [reflexivity|]. split; [done|]. split; [done|]. left. cbn. by rewrite Hs.
Qed.

Lemma allocproc_table g r g' : allocproc fr tr g = Ret r g' ->
  match r with
  | Some i => exists p, g_ptable g !! i = Some p /\ proc_state p = UNUSED /\
      quiet (take_slot i (with_pid (g_nextpid g) (with_state EMBRYO p)) g) g'
  | None => quiet g g' \/ exists i p, g_ptable g !! i = Some p /\ proc_state p = UNUSED /\
      quiet (take_slot i (with_pid (g_nextpid g) p) g) g'
  end.
Proof.
  unfold allocproc. intros (? & ? & [= <- <-] & E)%bind_Ret.
  destruct (index_of _ _) as [i|] eqn:Ei; [|injection E as <- <-; left; reflexivity].
  apply index_of_Some in Ei as (p & Hp & Hs & _). apply bool_decide_eq_true in Hs.
  apply bind_Ret in E as ([] & g1 & E1 & E). rewrite (updp_eq g i p _ Hp) in E1. injection E1 as <-.
  apply bind_Ret in E as ([] & g2 & [= <-] & E). fold (take_slot i (with_pid (g_nextpid g) (with_state EMBRYO p)) g) in E.
  set (h := take_slot _ _ _) in E. assert (quiet h h) as Q by reflexivity.
  quiet_step E Q. quiet_step E Q. destruct (a =? 0).
  - apply bind_Ret in E as ([] & g5 & E5 & [= <- <-]). right. exists i, p. split; [done|]. split; [done|].
    by eapply untake_slot.
  - quiet_step E Q. injection E as <- <-. by exists p.
Qed.

(** [fork] takes no slot, or fails with a slot whose pid alone has changed, or
    makes a new runnable child of the current process. *)
Lemma fork_table g r g' : fork kend kdata fr tr g = Ret r g' ->
  quiet g g' \/
  (exists i p, g_ptable g !! i = Some p /\ proc_state p = UNUSED /\ r = -1 /\
     quiet (take_slot i (with_pid (g_nextpid g) p) g) g') \/
  (exists i p c, g_ptable g !! i = Some p /\ proc_state p = UNUSED /\ g_proc g = Some c /\ r = g_nextpid g /\
     quiet (take_slot i (with_parent (Some c) (with_state RUNNABLE (with_pid (g_nextpid g) p))) g) g').
Proof.
  unfold fork. intros (np & g1 & E1 & E)%bind_Ret. apply allocproc_table in E1. destruct np as [np|].
  2:{ injection E as <- <-. destruct E1 as [?|(i & p & ? & ? & ?)]; [by left|right; left; by exists i, p]. }
  destruct E1 as (p & Hp & Hs & Q). set (h := take_slot _ _ _) in Q. pose proof (lookup_lt_Some _ _ _ Hp).
  quiet_step E Q. quiet_step E Q. quiet_step E Q. destruct (_ =? 0).
  - right; left. exists np, p. split; [done|]. split; [done|]. quiet_step E Q. quiet_step E Q. quiet_step E Q.
    apply bind_Ret in E as ([] & g8 & E8 & [= <- <-]). split; [done|]. by eapply untake_slot.
  - right; right. apply bind_Ret in E as (c & g5 & E5 & E).
    assert (g_proc g5 = Some c) as Hc.
    { unfold myproc, bind, get in E5. destruct (g_proc _) eqn:Ep in E5; cbn in E5; [|done]. by injection E5 as <- <-. }
    assert (quiet h g5) as Q5 by (eapply quiet_keeps; [exact Q| |exact E5]; eauto with keeps).
    assert (g_proc g = Some c) as Hc' by (destruct Q5 as (_ & _ & _ & Ep); cbn in Ep; congruence).
    assert (g_ptable h !! np = Some (with_pid (g_nextpid g) (with_state EMBRYO p))) as Hh by (cbn; by rewrite list_lookup_insert_eq).
    apply bind_Ret in E as ([] & g6 & E6 & E).
    pose proof (quiet_upd h g5 np _ _ g6 Q5 Hh E6 ltac:(intros ? (? & ? & ?); split; [done|split; done])) as Q6.
    match type of Q6 with quiet ?x _ => set (h2 := x) in Q6 end.
    quiet_step E Q6. quiet_step E Q6. quiet_step E Q6.
    apply bind_Ret in E as (q & g10 & E10 & E). apply getp_Ret in E10 as [-> Hq].
    apply bind_Ret in E as ([] & g11 & E11 & E).
    assert (exists p2, g_ptable h2 !! np = Some p2 /\ proc_pid p2 = g_nextpid g /\ proc_parent p2 = Some c) as (p2 & Hp2 & Hpid & Hpar).
    { eexists. split; [cbn; rewrite list_lookup_insert_eq; [reflexivity|by rewrite length_insert]|done]. }
    destruct (quiet_lookup _ _ _ _ Q6 Hp2) as (q' & Hq' & (Hqpid & _)). rewrite Hq in Hq'. injection Hq' as <-.
    pose proof (quiet_upd h2 _ np _ _ g11 Q6 Hp2 E11 ltac:(intros ? (? & ? & _); split; [done|split; [done|by left]])) as Q11.
    quiet_step E Q11. injection E as <- <-.
    exists np, p, c. split_and!; [done..|congruence|]. etrans; [|exact Q11]. split; [|done]. cbn. rewrite !list_insert_insert_eq.
    apply Forall2_insert; [reflexivity|]. split; [exact Hpid|]. split; [exact Hpar|by left].
Qed.

Lemma kill_quiet pid : keeps quiet (kill pid).
Proof.
  intros g. unfold kill, bind at 1, get at 1. destruct (index_of _ _) as [i|] eqn:Ei; [|apply quiet_refl].
  apply index_of_Some in Ei as (p & Hp & _). pose proof (lookup_lt_Some _ _ _ Hp). unfold bind. rewrite (updp_eq g i p _ Hp).
  rewrite (getp_eq _ i (with_killed true p)) by (cbn; by rewrite list_lookup_insert_eq). cbn [with_killed in_state].
  unfold in_state. case_bool_decide as Hs.
  - rewrite (updp_eq _ i (with_killed true p)) by (cbn; by rewrite list_lookup_insert_eq). unfold ret. cbn [set_ptable g_ptable g_sys g_nextpid g_initproc g_proc g_ticks].
    rewrite list_insert_insert_eq. apply (quiet_insert g i p); [done|]. split; [done|]. split; [done|by right].
  - apply (quiet_insert g i p); [done|]. split; [done|]. split; [done|by left].
Qed.

Lemma myproc_Ret g c g' : myproc g = Ret c g' -> g' = g /\ g_proc g = Some c.
Proof. unfold myproc, bind, get. destruct (g_proc g); cbn; [|done]. by intros [= <- <-]. Qed.

Lemma me_Ret g p g' : me g = Ret p g' -> g' = g /\ exists c, g_proc g = Some c /\ g_ptable g !! c = Some p.
Proof.
  unfold me. intros (c & g1 & E1 & E)%bind_Ret. apply myproc_Ret in E1 as [-> ?]. apply getp_Ret in E as [-> ?].
  split; [done|]. by exists c.
Qed.

Lemma updme_Ret g f g' : updme f g = Ret tt g' ->
  exists c p, g_proc g = Some c /\ g_ptable g !! c = Some p /\ g' = set_ptable (<[c := f p]> (g_ptable g)) g.
Proof.
  unfold updme. intros (c & g1 & E1 & E)%bind_Ret. apply myproc_Ret in E1 as [-> ?]. apply updp_Ret in E as (p & ? & ->).
  by exists c, p.
Qed.

Lemma sched_Sleeps {A} g g' : @sched A g = Sleeps g' -> g' = g.
Proof.
  unfold sched, sched_to. intros [E|(p & g1 & E1 & E)]%bind_Sleeps.
  - unfold me, myproc, getp, bind, get, lift_opt, ret, undef in E. destruct (g_proc g); [|done]. by destruct (g_ptable g !! _).
  - apply me_Ret in E1 as [-> _]. destruct (in_state RUNNING p); [done|]. by injection E.
Qed.

Lemma sleep_table {A} c g g' : @sleep A c g = Sleeps g' ->
  exists i p, g_proc g = Some i /\ g_ptable g !! i = Some p /\
    g' = set_ptable (<[i := with_state SLEEPING (with_chan (Some c) p)]> (g_ptable g)) g.
Proof.
  unfold sleep, bind at 1, get at 1. destruct (g_proc g) as [i|]; [|done].
  intros [E|([] & g1 & E1 & E)]%bind_Sleeps.
  - unfold updp, getp, bind, get, lift_opt in E. by destruct (g_ptable g !! i).
  - apply updp_Ret in E1 as (p & Hp & ->). apply sched_Sleeps in E as ->. by exists i, p.
Qed.

Lemma yield_table g g' : yield g = Sleeps g' ->
  exists i p, g_proc g = Some i /\ g_ptable g !! i = Some p /\
    g' = set_ptable (<[i := with_state RUNNABLE p]> (g_ptable g)) g.
Proof.
  unfold yield, yield_to. intros [E|([] & g1 & E1 & E)]%bind_Sleeps.
  - unfold updme, myproc, updp, getp, bind, get, lift_opt, ret, undef in E. destruct (g_proc g); [|done].
    by destruct (g_ptable g !! _).
  - apply updme_Ret in E1 as (c & p & ? & ? & ->). apply sched_Sleeps in E as ->. by exists c, p.
Qed.

(** [wait] that returns: nothing happened, or a zombie child is gone. *)
Lemma wait_table g r g' : wait kend g = Ret r g' ->
  (r = -1 /\ g' = g) \/
  exists c k q, g_proc g = Some c /\ g_ptable g !! k = Some q /\ proc_parent q = Some c /\ proc_state q = ZOMBIE /\
    r = proc_pid q /\
    quiet (set_ptable (<[k := with_parent None (with_pid 0 (with_state UNUSED q))]> (g_ptable g)) g) g'.
Proof.
  unfold wait. intros (c & g1 & E1 & E)%bind_Ret. apply myproc_Ret in E1 as [-> Hc].
  apply bind_Ret in E as (? & ? & [= <- <-] & E). destruct (index_of _ _) as [k|] eqn:Ei.
  - apply index_of_Some in Ei as (q & Hq & [Hch Hz]%andb_true_iff & _).
    apply bool_decide_eq_true in Hch, Hz. right. exists c, k, q. split_and!; try done.
    + unfold reap in E. apply bind_Ret in E as (q' & ? & E1 & E). apply getp_Ret in E1 as [-> Hq']. rewrite Hq in Hq'.
      injection Hq' as <-. do 4 apply bind_Ret in E as ([] & ? & _ & E). by injection E.
    + unfold reap in E. apply bind_Ret in E as (q' & ? & E1 & E). apply getp_Ret in E1 as [-> Hq']. rewrite Hq in Hq'.
      injection Hq' as <-. assert (quiet g g) as Q by reflexivity. quiet_step E Q. quiet_step E Q. quiet_step E Q.
      apply bind_Ret in E as ([] & g5 & E5 & [= <- <-]).
      pose proof (quiet_upd g _ k _ q _ Q Hq E5 ltac:(intros ? (? & ? & _); split; [done|split; [done|by left]])) as Q'.
      etrans; [|exact Q']. split; [|done]. apply Forall2_insert; [reflexivity|]. split; [done|]. split; [done|by left].
  - apply bind_Ret in E as (p & ? & E1 & E). apply me_Ret in E1 as [-> _].
    destruct (negb _ || _); [|unfold sleep, bind at 1, get at 1 in E; rewrite Hc in E]; [left; by injection E as <- <-|].
    exfalso. apply bind_Ret in E as ([] & g2 & _ & E). unfold sched, sched_to in E. apply bind_Ret in E as (? & ? & _ & E).
    by destruct (in_state RUNNING _).
Qed.

(** The child of [c] is handed to [i0]. *)
Definition reparented (c : nat) (i0 : option nat) (p : proc) : proc :=
  if child_of c p then with_parent i0 p else p.

Lemma map_prefix_S {A} (f : A -> A) (l : list A) i x : l !! i = Some x ->
  (f <$> take (S i) l) ++ drop (S i) l = <[i := f x]> ((f <$> take i l) ++ drop i l).
Proof.
  intros Hx. pose proof (lookup_lt_Some _ _ _ Hx). rewrite (take_S_r _ _ _ Hx), fmap_app, <- app_assoc.
  rewrite (drop_S _ _ _ Hx). rewrite insert_app_r_alt; rewrite length_fmap, length_take; [|lia].
  by replace (i - i `min` length l)%nat with 0%nat by lia.
Qed.

Lemma map_prefix_lookup {A} (f : A -> A) (l : list A) i : ((f <$> take i l) ++ drop i l) !! i = l !! i.
Proof.
  destruct (decide (i < length l)%nat).
  - rewrite lookup_app_r; rewrite length_fmap, length_take; [|lia]. rewrite lookup_drop. f_equal. lia.
  - rewrite !lookup_ge_None_2; [done|lia|]. rewrite length_app, length_fmap, length_take, length_drop. lia.
Qed.

Lemma reparent_loop g c g1 g2 : quiet g g1 -> length (g_ptable g) = Z.to_nat NPROC ->
  forK (reparent c) (zrange 0 NPROC) g1 = Ret tt g2 ->
  quiet (set_ptable (reparented c (g_initproc g) <$> g_ptable g) g) g2.
Proof.
  intros Q Hlen E. set (t := g_ptable g) in *. set (f := reparented c (g_initproc g)).
  apply (forK_Ret _ _ (fun k s => quiet (set_ptable ((f <$> take k t) ++ drop k t) g) s)) in E.
  - change (length (zrange 0 NPROC)) with (Z.to_nat NPROC) in E. rewrite <- Hlen, take_ge, drop_ge, app_nil_r in E by lia. done.
  - cbn. by destruct g.
  - intros k x s s' Hx Qk Es. apply lookup_seqZ in Hx as [-> Hk]. rewrite Z.add_0_l in Es. unfold reparent in Es.
    rewrite Nat2Z.id in Es. apply bind_Ret in Es as (q & s1 & Eq & Es). apply getp_Ret in Eq as [-> Hq].
    destruct (lookup_lt_is_Some_2 t k) as [p Hp]; [unfold NPROC in *; lia|].
    destruct (quiet_lookup _ _ k p Qk) as (q' & Hq' & (_ & Hpar & _)); [cbn; by rewrite map_prefix_lookup|].
    rewrite Hq in Hq'. injection Hq' as <-. change (1 + k)%nat with (S k). rewrite (map_prefix_S f t k p Hp).
    assert (child_of c q = child_of c p) as Hc by (unfold child_of; by rewrite Hpar). rewrite Hc in Es.
    unfold f at 1, reparented. destruct (child_of c p).
    + apply bind_Ret in Es as (? & ? & [= <- <-] & Es). apply bind_Ret in Es as ([] & s2 & E2 & Es).
      assert (g_initproc s = g_initproc g) as Hi by (by destruct Qk as (_ & _ & ? & _)). rewrite Hi in *.
      pose proof (quiet_upd _ s k _ p s2 Qk ltac:(cbn; by rewrite map_prefix_lookup) E2
        ltac:(intros ? (? & ? & ?); split; [done|split; done])) as Q2. cbn in Q2 |- *.
      destruct (in_state ZOMBIE q); [|by injection Es as <-].
      apply bind_Ret in Es as (ip & s3 & E3 & Es). assert (s3 = s2) as ->.
      { destruct (g_initproc g); cbn in E3; [by injection E3|done]. }
      eapply quiet_keeps; [exact Q2| |exact Es]. eauto with keeps.
    + injection Es as <-. rewrite list_insert_id by (by rewrite map_prefix_lookup). exact Qk.
Qed.

Lemma keeps_Sleeps {A} (m : K kernel A) h g g' : quiet h g -> keeps quiet m -> m g = Sleeps g' -> quiet h g'.
Proof. intros Q H E. etrans; [exact Q|]. specialize (H g). by rewrite E in H. Qed.

Lemma getp_no_sleep i g g' : getp i g <> Sleeps g'.
Proof. unfold getp, bind, get. by destruct (g_ptable g !! i). Qed.
Lemma updp_no_sleep i f g g' : updp i f g <> Sleeps g'.
Proof. unfold updp. intros [E|(? & ? & _ & E)]%bind_Sleeps; [by apply getp_no_sleep in E|done]. Qed.
Lemma updme_no_sleep f g g' : updme f g <> Sleeps g'.
Proof.
  unfold updme. intros [E|(? & ? & _ & E)]%bind_Sleeps; [|by apply updp_no_sleep in E].
  unfold myproc, bind, get in E. by destruct (g_proc g).
Qed.

Lemma reparent_no_sleep c l g g' : forK (reparent c) l g <> Sleeps g'.
Proof.
  unfold forK. revert g; induction l as [|k l IH]; intros g; cbn [foldK]; [done|].
  intros [E|([] & g1 & _ & E)]%bind_Sleeps; [|by eapply IH]. clear IH.
  unfold reparent in E. apply bind_Sleeps in E as [E|(q & g2 & _ & E)]; [by apply getp_no_sleep in E|].
  destruct (child_of c q); [|done]. apply bind_Sleeps in E as [?|(? & ? & [= <- <-] & E)]; [done|].
  apply bind_Sleeps in E as [E|(? & g3 & _ & E)]; [by apply updp_no_sleep in E|].
  destruct (in_state ZOMBIE q); [|done]. apply bind_Sleeps in E as [E|(? & g4 & _ & E)]; [|done].
  by destruct (g_initproc g2).
Qed.

(** [exit] gives the processor up for good as a zombie, its children handed to
    [initproc]; or it waits while it closes its files. *)
Lemma exit_table g g' : exit devsw kend g = Sleeps g' -> length (g_ptable g) = Z.to_nat NPROC ->
  quiet g g' \/ exists c pc, g_proc g = Some c /\ g_initproc g <> Some c /\ g_ptable g !! c = Some pc /\
    quiet (set_ptable (<[c := with_state ZOMBIE (reparented c (g_initproc g) pc)]> (reparented c (g_initproc g) <$> g_ptable g)) g) g'.
Proof.
  intros E Hlen. unfold exit in E.
  assert (forall A (m : K kernel A) (f : A -> K kernel unit) g1, quiet g g1 -> keeps quiet m -> (bind m f) g1 = Sleeps g' ->
    quiet g g' \/ exists a g2, quiet g g2 /\ m g1 = Ret a g2 /\ f a g2 = Sleeps g') as step.
  { intros A m f g1 Q Hm [E1|(a & g2 & E1 & E2)]%bind_Sleeps; [left; by eapply keeps_Sleeps|right].
    exists a, g2. split; [by eapply quiet_keeps|done]. }
  apply step in E as [?|(c & g1 & Q1 & Ec & E)]; [by left| |reflexivity|solve [eauto with keeps]].
  apply myproc_Ret in Ec as [-> Hc]. apply bind_Sleeps in E as [?|(? & ? & [= <- <-] & E)]; [done|].
  case_bool_decide as Hi; [done|].
  apply step in E as [?|(? & g2 & Q2 & _ & E)]; [by left| |reflexivity|solve [eauto with keeps]].
  apply step in E as [?|(p & g3 & Q3 & _ & E)]; [by left| |exact Q2|solve [eauto with keeps]].
  apply step in E as [?|([] & g4 & Q4 & _ & E)]; [by left| |exact Q3|solve [eauto with keeps]].
  apply step in E as [?|([] & g5 & Q5 & _ & E)]; [by left| |exact Q4|solve [eauto with keeps]].
  apply step in E as [?|(p' & g6 & Q6 & _ & E)]; [by left| |exact Q5|solve [eauto with keeps]].
  apply step in E as [?|([] & g7 & Q7 & _ & E)]; [by left| |exact Q6|keeps_tac].
  apply bind_Sleeps in E as [E|([] & g8 & E8 & E)].
  { exfalso. by eapply reparent_no_sleep. }
  pose proof (reparent_loop g c g7 g8 Q7 Hlen E8) as Q8. right.
  apply bind_Sleeps in E as [E|([] & g9 & E9 & E)].
  { by apply updme_no_sleep in E. }
  apply bind_Sleeps in E as [E|([] & g10 & _ & E)]; [|done]. apply sched_Sleeps in E as ->.
  assert (g_proc g8 = Some c) as Hc8 by (destruct Q8 as (_ & _ & _ & ?); cbn in *; congruence).
  apply updme_Ret in E9 as (c' & p8 & Hc' & Hp8 & ->). rewrite Hc8 in Hc'. injection Hc' as <-.
  destruct Q8 as (Hf & H8). destruct (Forall2_lookup_r _ _ _ _ _ Hf Hp8) as (p1 & Hp1 & (Hpid & Hpar & _)).
  cbn in Hp1. rewrite list_lookup_fmap in Hp1. destruct (g_ptable g !! c) as [pc|] eqn:Epc; [|done]. injection Hp1 as <-.
  exists c, pc. split_and!; [done..|]. split; [|done]. cbn. apply Forall2_insert; [done|].
  split; [done|]. split; [done|by left].
Qed.
End table.

(** A process that exits is never resumed. *)
Lemma exit_no_return devsw kend g r g' : exit devsw kend g <> Ret r g'.
Proof.
  unfold exit. intros (i & g1 & _ & E)%bind_Ret. apply bind_Ret in E as (? & g2 & _ & E).
  case_bool_decide; [done|]. do 9 apply bind_Ret in E as (? & ? & _ & E). done.
Qed.
