(* ===== verification/ProcThms.v ===== *)
(** The process table as a whole: the invariant kept by every scheduling and
    process-management step, waiting and waking, and the fairness of the scheduler. *)
From S2P Require Import Prelude Bio Log Str Fs Kalloc Vm Pipe File Proc.

(** ** Steps of the kernel on one processor *)

Section steps.
Context (devsw : Z -> devsw_t) (kend kdata fr tr : Z).

(** The current process is in state [x]. *)
Definition current_in (x : procstate) (g : kernel) : Prop := exists p, current g = Some p /\ proc_state p = x.

Inductive pstep (g g' : kernel) : Prop :=
| ps_run i p : g_proc g = None -> g_ptable g !! i = Some p -> proc_state p = RUNNABLE ->
    run_proc i g = Ret tt g' -> pstep g g'
| ps_yield g1 : yield g = Sleeps g1 -> back_to_scheduler g1 = Ret tt g' -> pstep g g'
| ps_sleep c g1 : sleep (A := unit) c g = Sleeps g1 -> back_to_scheduler g1 = Ret tt g' -> pstep g g'
| ps_wakeup c : wakeup c g = Ret tt g' -> pstep g g'
| ps_kill pid r : kill pid g = Ret r g' -> pstep g g'
| ps_fork r : g_nextpid g < 2147483647 -> fork kend kdata fr tr g = Ret r g' -> pstep g g'
| ps_exit g1 : exit devsw kend g = Sleeps g1 -> current_in ZOMBIE g1 -> back_to_scheduler g1 = Ret tt g' -> pstep g g'
| ps_wait r : wait kend g = Ret r g' -> pstep g g'
| ps_wait_sleep g1 : wait kend g = Sleeps g1 -> current_in SLEEPING g1 -> back_to_scheduler g1 = Ret tt g' -> pstep g g'
| ps_other A (m : K kernel A) a : keeps quiet m -> m g = Ret a g' -> pstep g g'.

(** ** The invariant *)

Definition live (p : proc) : Prop := proc_state p <> UNUSED.
Definition alive (p : proc) : Prop := proc_state p <> UNUSED /\ proc_state p <> ZOMBIE.

Record pt_inv (g : kernel) : Prop := {
  pi_len : length (g_ptable g) = Z.to_nat NPROC;
  pi_next : 1 < g_nextpid g;
  pi_pid : forall i p, g_ptable g !! i = Some p -> live p -> 0 < proc_pid p < g_nextpid g;
  pi_inj : forall i j p q, g_ptable g !! i = Some p -> g_ptable g !! j = Some q -> live p -> live q ->
             proc_pid p = proc_pid q -> i = j;
  pi_init : exists i0 p0, g_initproc g = Some i0 /\ g_ptable g !! i0 = Some p0 /\ alive p0 /\ proc_pid p0 = 1;
  pi_parent : forall i p, g_ptable g !! i = Some p -> live p -> g_initproc g <> Some i ->
             exists q pq, proc_parent p = Some q /\ g_ptable g !! q = Some pq /\ alive pq /\ proc_pid pq < proc_pid p;
  pi_unused : forall i p, g_ptable g !! i = Some p -> proc_state p = UNUSED -> proc_parent p = None;
  pi_embryo : forall i p, g_ptable g !! i = Some p -> proc_state p <> EMBRYO;
  pi_run : forall i p, g_ptable g !! i = Some p -> proc_state p = RUNNING <-> g_proc g = Some i;
  pi_cur : forall c, g_proc g = Some c -> is_Some (g_ptable g !! c)
}.

Lemma quiet_live p p' : quiet_proc p p' -> live p' <-> live p.
Proof. unfold live. intros (_ & _ & [->|[-> ->]]); [done|split; discriminate]. Qed.
Lemma quiet_alive p p' : quiet_proc p p' -> alive p' <-> alive p.
Proof. unfold alive. intros (_ & _ & [->|[-> ->]]); [done|]. split; intros _; split; discriminate. Qed.
Lemma quiet_same p p' x : quiet_proc p p' -> x <> RUNNABLE -> x <> SLEEPING -> proc_state p' = x <-> proc_state p = x.
Proof. intros (_ & _ & [->|[-> ->]]) ? ?; [done|]. split; intros <-; done. Qed.

Lemma quiet_lookup_r g g' i p' : quiet g g' -> g_ptable g' !! i = Some p' ->
  exists p, g_ptable g !! i = Some p /\ quiet_proc p p'.
Proof. intros (H & _) Hp. by destruct (Forall2_lookup_r _ _ _ _ _ H Hp) as (p & ? & ?); exists p. Qed.

Lemma pt_inv_quiet g g' : pt_inv g -> quiet g g' -> pt_inv g'.
Proof.
  intros [H1 H2 H3 H4 H5 H6 H7 H8 H9 H10] Q. pose proof Q as (Hf & En & Ei & Ep).
  assert (forall i p', g_ptable g' !! i = Some p' -> exists p, g_ptable g !! i = Some p /\ quiet_proc p p') as Hr
    by (intros; by eapply quiet_lookup_r).
  split.
  - by rewrite <- (Forall2_length _ _ _ Hf).
  - by rewrite En.
  - intros i p' Hp' Hl. destruct (Hr i p' Hp') as (p & Hp & Hq). rewrite (proj1 Hq), En. apply (H3 i); [done|].
    by apply (quiet_live _ _ Hq).
  - intros i j p' q' Hp' Hq' Lp Lq E. destruct (Hr i p' Hp') as (p & Hp & Qp), (Hr j q' Hq') as (q & Hq & Qq).
    apply (H4 i j p q); [done|done|by apply (quiet_live _ _ Qp)|by apply (quiet_live _ _ Qq)|].
    rewrite <- (proj1 Qp), <- (proj1 Qq). done.
  - destruct H5 as (i0 & p0 & Hi & Hp & Ha & Hpid). destruct (quiet_lookup g g' i0 p0 Q Hp) as (p' & Hp' & Qp).
    exists i0, p'. split_and!; [congruence|done|by apply (quiet_alive _ _ Qp)|by rewrite (proj1 Qp)].
  - intros i p' Hp' Hl Hi. destruct (Hr i p' Hp') as (p & Hp & Qp).
    destruct (H6 i p Hp) as (q & pq & Hpar & Hpq & Ha & Hlt); [by apply (quiet_live _ _ Qp)|congruence|].
    destruct (quiet_lookup g g' q pq Q Hpq) as (pq' & Hpq' & Qq). exists q, pq'. destruct Qp as (Ep1 & Ep2 & _).
    split_and!; [congruence|done|by apply (quiet_alive _ _ Qq)|]. by rewrite (proj1 Qq), Ep1.
  - intros i p' Hp' Hs. destruct (Hr i p' Hp') as (p & Hp & Qp). rewrite (quiet_same _ _ _ Qp) in Hs by done.
    destruct Qp as (_ & -> & _). by eapply H7.
  - intros i p' Hp'. destruct (Hr i p' Hp') as (p & Hp & Qp). rewrite (quiet_same _ _ _ Qp) by done. by eapply H8.
  - intros i p' Hp'. destruct (Hr i p' Hp') as (p & Hp & Qp). rewrite (quiet_same _ _ _ Qp), Ep by done. by apply H9.
  - intros c Hc. rewrite Ep in Hc. destruct (H10 c Hc) as [p Hp]. destruct (quiet_lookup g g' c p Q Hp) as (p' & ? & _). by exists p'.
Qed.

(** Lookups in a table with one slot changed. *)
Lemma insert_cases {A} (l : list A) c x i y : <[c := x]> l !! i = Some y ->
  i = c /\ y = x \/ i <> c /\ l !! i = Some y.
Proof.
  destruct (decide (i = c)) as [->|N]; [|rewrite list_lookup_insert_ne by done; by right].
  intros H. left. split; [done|]. pose proof (lookup_lt_Some _ _ _ H) as Hl. rewrite length_insert in Hl.
  rewrite list_lookup_insert_eq in H by done. congruence.
Qed.

(** A process that is alive changes state and the processor changes hands. *)
Lemma pt_inv_state g c p p' cur : pt_inv g -> g_ptable g !! c = Some p -> alive p ->
  proc_pid p' = proc_pid p -> proc_parent p' = proc_parent p -> alive p' -> proc_state p' <> EMBRYO ->
  (proc_state p' = RUNNING <-> cur = Some c) -> (forall j, j <> c -> g_proc g <> Some j) -> (cur = Some c \/ cur = None) ->
  pt_inv (set_proc cur (set_ptable (<[c := p']> (g_ptable g)) g)).
Proof.
  intros [H1 H2 H3 H4 H5 H6 H7 H8 H9 H10] Hp Ha Epid Epar Ha' Hemb Hrun Hoth Hcur.
  pose proof (lookup_lt_Some _ _ _ Hp) as Hlt.
  assert (forall i y, <[c := p']> (g_ptable g) !! i = Some y -> exists x, g_ptable g !! i = Some x /\
    proc_pid y = proc_pid x /\ proc_parent y = proc_parent x /\ (live y <-> live x) /\ (i <> c -> y = x)) as Hl.
  { intros i y [[-> ->]|[N Hy]]%insert_cases; [exists p; unfold alive, live in *; naive_solver|by exists y]. }
  assert (forall i x, g_ptable g !! i = Some x -> alive x -> exists y, <[c := p']> (g_ptable g) !! i = Some y /\
    alive y /\ proc_pid y = proc_pid x) as Hr.
  { intros i x Hx Hax. destruct (decide (i = c)) as [->|N].
    - rewrite list_lookup_insert_eq by done. exists p'. naive_solver congruence.
    - rewrite list_lookup_insert_ne by done. by exists x. }
  split; cbn [g_ptable g_nextpid g_initproc g_proc set_proc set_ptable].
  - by rewrite length_insert.
  - done.
  - intros i y Hy Ly. destruct (Hl i y Hy) as (x & Hx & -> & _ & E & _). apply (H3 i); naive_solver.
  - intros i j y z Hy Hz Ly Lz E. destruct (Hl i y Hy) as (x & Hx & E1 & _ & E2 & _), (Hl j z Hz) as (w & Hw & E3 & _ & E4 & _).
    apply (H4 i j x w); naive_solver congruence.
  - destruct H5 as (i0 & p0 & Hi & Hp0 & Ha0 & Hpid). destruct (Hr i0 p0 Hp0 Ha0) as (y & ? & ? & ?).
    exists i0, y. naive_solver congruence.
  - intros i y Hy Ly Hi. destruct (Hl i y Hy) as (x & Hx & -> & -> & E & _).
    destruct (H6 i x Hx) as (q & pq & ? & Hpq & Hapq & ?); [naive_solver|done|].
    destruct (Hr q pq Hpq Hapq) as (z & ? & ? & E'). exists q, z. by rewrite E'.
  - intros i y Hy Hs. destruct (Hl i y Hy) as (x & Hx & _ & -> & E & _). apply (H7 i x Hx).
    destruct (decide (proc_state x = UNUSED)); [done|]. exfalso. by apply E.
  - intros i y [[-> ->]|[N Hy]]%insert_cases; [done|]. by eapply H8.
  - intros i y [[-> ->]|[N Hy]]%insert_cases; [done|]. rewrite (H9 i y Hy). pose proof (Hoth i N).
    destruct Hcur as [->| ->]; naive_solver congruence.
  - intros c' Hc'. destruct Hcur as [->| ->]; [|done]. injection Hc' as <-. by rewrite list_lookup_insert_eq.
Qed.

Lemma s32_next n : 1 < n < 2147483647 -> s32 (n + 1) = n + 1.
Proof. intros. apply s32_small. lia. Qed.

(** The current process is alive. *)
Lemma current_alive g c : pt_inv g -> g_proc g = Some c -> exists p, g_ptable g !! c = Some p /\ proc_state p = RUNNING.
Proof. intros H Hc. destruct (pi_cur g H c Hc) as [p Hp]. exists p. split; [done|]. by apply (pi_run g H c p Hp). Qed.

(** An unused slot with another pid. *)
Lemma pt_inv_fork_fail g i p n : pt_inv g -> g_ptable g !! i = Some p -> proc_state p = UNUSED ->
  g_nextpid g < 2147483647 -> pt_inv (take_slot i (with_pid n p) g).
Proof.
  intros [H1 H2 H3 H4 H5 H6 H7 H8 H9 H10] Hp Hs Hn. pose proof (lookup_lt_Some _ _ _ Hp) as Hlt.
  assert (forall j y, <[i := with_pid n p]> (g_ptable g) !! j = Some y -> live y -> g_ptable g !! j = Some y) as Hl.
  { intros j y [[-> ->]|[N Hy]]%insert_cases Ly; [by destruct Ly|done]. }
  assert (forall j y, g_ptable g !! j = Some y -> live y -> <[i := with_pid n p]> (g_ptable g) !! j = Some y) as Hr.
  { intros j y Hy Ly. rewrite list_lookup_insert_ne; [done|]. intros ->. rewrite Hp in Hy. injection Hy as <-. by apply Ly. }
  split; cbn [take_slot g_ptable g_nextpid g_initproc g_proc set_nextpid set_ptable]; rewrite ?s32_next by lia.
  - by rewrite length_insert.
  - lia.
  - intros j y Hy Ly. specialize (H3 j y (Hl j y Hy Ly) Ly). lia.
  - intros j k y z Hy Hz Ly Lz. apply (H4 j k y z); auto.
  - destruct H5 as (i0 & p0 & Hi & Hp0 & Ha & Hpid). exists i0, p0. split_and!; try done. apply Hr; [done|apply Ha].
  - intros j y Hy Ly Hi. destruct (H6 j y (Hl j y Hy Ly) Ly Hi) as (q & pq & ? & ? & Ha & ?).
    exists q, pq. split_and!; try done. apply Hr; [done|apply Ha].
  - intros j y [[-> ->]|[N Hy]]%insert_cases; [intros _; exact (H7 i p Hp Hs)|exact (H7 j y Hy)].
  - intros j y [[-> ->]|[N Hy]]%insert_cases; [cbn; by rewrite Hs|by eapply H8].
  - intros j y [[-> ->]|[N Hy]]%insert_cases; [exact (H9 i p Hp)|exact (H9 j y Hy)].
  - intros c Hc. apply lookup_lt_is_Some. rewrite length_insert. by apply lookup_lt_is_Some, H10.
Qed.

(** A new runnable child of the current process. *)
Lemma pt_inv_fork g i p c : pt_inv g -> g_ptable g !! i = Some p -> proc_state p = UNUSED -> g_proc g = Some c ->
  g_nextpid g < 2147483647 ->
  pt_inv (take_slot i (with_parent (Some c) (with_state RUNNABLE (with_pid (g_nextpid g) p))) g).
Proof.
  intros Hinv Hp Hs Hc Hn. destruct (current_alive g c Hinv Hc) as (pc & Hpc & Hrun).
  destruct Hinv as [H1 H2 H3 H4 H5 H6 H7 H8 H9 H10]. pose proof (lookup_lt_Some _ _ _ Hp) as Hlt.
  set (np := with_parent _ _).
  assert (forall j y, g_ptable g !! j = Some y -> live y -> <[i := np]> (g_ptable g) !! j = Some y) as Hr.
  { intros j y Hy Ly. rewrite list_lookup_insert_ne; [done|]. intros ->. rewrite Hp in Hy. injection Hy as <-. by apply Ly. }
  assert (live pc) as Lpc by (unfold live; by rewrite Hrun).
  split; cbn [take_slot g_ptable g_nextpid g_initproc g_proc set_nextpid set_ptable]; rewrite ?s32_next by lia.
  - by rewrite length_insert.
  - lia.
  - intros j y [[-> ->]|[N Hy]]%insert_cases Ly; [cbn; lia|]. specialize (H3 j y Hy Ly). lia.
  - intros j k y z [[-> ->]|[N Hy]]%insert_cases [[-> ->]|[N' Hz]]%insert_cases Ly Lz E; [done| | |by eapply H4].
    + specialize (H3 k z Hz Lz). cbn in E. lia.
    + specialize (H3 j y Hy Ly). cbn in E. lia.
  - destruct H5 as (i0 & p0 & Hi & Hp0 & Ha & Hpid). exists i0, p0. split_and!; try done. apply Hr; [done|apply Ha].
  - intros j y [[-> ->]|[N Hy]]%insert_cases Ly Hi.
    + exists c, pc. split_and!; [done|by apply Hr|unfold alive; by rewrite Hrun|]. cbn. by apply (H3 c pc).
    + destruct (H6 j y Hy Ly Hi) as (q & pq & ? & ? & Ha & ?).
      exists q, pq. split_and!; try done. apply Hr; [done|apply Ha].
  - intros j y [[-> ->]|[N Hy]]%insert_cases; [done|exact (H7 j y Hy)].
  - intros j y [[-> ->]|[N Hy]]%insert_cases; [done|exact (H8 j y Hy)].
  - intros j y [[-> ->]|[N Hy]]%insert_cases; [|exact (H9 j y Hy)]. cbn. split; [done|]. intros E.
    pose proof (proj2 (H9 i p Hp) E). congruence.
  - intros d Hd. apply lookup_lt_is_Some. rewrite length_insert. by apply lookup_lt_is_Some, H10.
Qed.

(** The table [exit] leaves: a zombie whose children belong to [initproc]. *)
Lemma pt_inv_exit g c pc : pt_inv g -> g_proc g = Some c -> g_initproc g <> Some c -> g_ptable g !! c = Some pc ->
  pt_inv (set_proc None (set_ptable (<[c := with_state ZOMBIE (reparented c (g_initproc g) pc)]>
    (reparented c (g_initproc g) <$> g_ptable g)) g)).
Proof.
  intros Hinv Hc Hi Hpc. pose proof (proj2 (pi_run g Hinv c pc Hpc) Hc) as Hrun.
  destruct Hinv as [H1 H2 H3 H4 H5 H6 H7 H8 H9 H10]. destruct H5 as (i0 & p0 & Hi0 & Hp0 & Ha0 & Hpid0).
  pose proof (lookup_lt_Some _ _ _ Hpc) as Hlt. set (t' := <[c := _]> _).
  assert (forall p, proc_pid (reparented c (g_initproc g) p) = proc_pid p /\ proc_state (reparented c (g_initproc g) p) = proc_state p) as Hrp
    by (intros p; unfold reparented; by destruct (child_of c p)).
  assert (forall i y, t' !! i = Some y -> exists x, g_ptable g !! i = Some x /\ proc_pid y = proc_pid x /\ (live y <-> live x) /\
    proc_parent y = proc_parent (reparented c (g_initproc g) x) /\ (i <> c -> proc_state y = proc_state x) /\ (i = c -> proc_state y = ZOMBIE)) as Hl.
  { intros i y [[-> ->]|[N Hy]]%insert_cases.
    - exists pc. cbn. destruct (Hrp pc) as [-> _]. unfold live. rewrite Hrun. naive_solver.
    - rewrite list_lookup_fmap in Hy. destruct (g_ptable g !! i) as [x|]; [|done]. injection Hy as <-. exists x.
      destruct (Hrp x) as [-> E]. unfold live. rewrite E. naive_solver. }
  assert (forall i x, g_ptable g !! i = Some x -> i <> c -> alive x -> exists y, t' !! i = Some y /\ alive y /\ proc_pid y = proc_pid x) as Hr.
  { intros i x Hx N Ha. exists (reparented c (g_initproc g) x). unfold t'. rewrite list_lookup_insert_ne, list_lookup_fmap, Hx by done.
    destruct (Hrp x) as [E E']. unfold alive. by rewrite E, E'. }
  split; cbn [g_ptable g_nextpid g_initproc g_proc set_proc set_ptable]; try done.
  - unfold t'. by rewrite length_insert, length_fmap.
  - intros i y Hy Ly. destruct (Hl i y Hy) as (x & Hx & -> & E & _). apply (H3 i); naive_solver.
  - intros i j y z Hy Hz Ly Lz E. destruct (Hl i y Hy) as (x & Hx & E1 & E2 & _), (Hl j z Hz) as (w & Hw & E3 & E4 & _).
    apply (H4 i j x w); naive_solver congruence.
  - destruct (Hr i0 p0 Hp0 ltac:(congruence) Ha0) as (y & ? & ? & ?). exists i0, y. naive_solver congruence.
  - intros i y Hy Ly Hii. destruct (Hl i y Hy) as (x & Hx & -> & E & -> & _). assert (live x) as Lx by naive_solver.
    destruct (H6 i x Hx Lx Hii) as (q & pq & Hpar & Hpq & Ha & Hq). unfold reparented, child_of. case_bool_decide as Hch.
    + destruct (Hr i0 p0 Hp0 ltac:(congruence) Ha0) as (z & ? & ? & Ez). exists i0, z. split_and!; [done..|].
      rewrite Ez, Hpid0. pose proof (H3 i x Hx Lx). destruct (decide (proc_pid x = 1)) as [E1|]; [|lia].
      exfalso. apply Hii. rewrite Hi0. f_equal. apply (H4 i0 i p0 x); [done..|apply Ha0|done|congruence].
    + destruct (Hr q pq Hpq ltac:(congruence) Ha) as (z & ? & ? & Ez). exists q, z. by rewrite Ez.
  - intros i y Hy Hs. destruct (Hl i y Hy) as (x & Hx & _ & E & -> & _). assert (proc_state x = UNUSED) as Hsx.
    { destruct (decide (proc_state x = UNUSED)) as [|N]; [done|]. exfalso. by apply E. }
    unfold reparented, child_of. rewrite (H7 i x Hx Hsx). rewrite bool_decide_eq_false_2 by done. by apply (H7 i).
  - intros i y Hy. destruct (Hl i y Hy) as (x & Hx & _ & _ & _ & E1 & E2). destruct (decide (i = c)) as [Eic|N].
    + by rewrite E2.
    + rewrite E1 by done. by eapply H8.
  - intros i y Hy. destruct (Hl i y Hy) as (x & Hx & _ & _ & _ & E1 & E2). split; [|done]. destruct (decide (i = c)) as [Eic|N].
    + by rewrite E2.
    + rewrite E1 by done. intros Hx'%(H9 i x Hx). congruence.
Qed.

(** The table [wait] leaves: a zombie is gone. *)
Lemma pt_inv_wait g k q : pt_inv g -> g_ptable g !! k = Some q -> proc_state q = ZOMBIE ->
  pt_inv (set_ptable (<[k := with_parent None (with_pid 0 (with_state UNUSED q))]> (g_ptable g)) g).
Proof.
  intros [H1 H2 H3 H4 H5 H6 H7 H8 H9 H10] Hq Hz. set (q' := with_parent _ _).
  assert (forall j y, <[k := q']> (g_ptable g) !! j = Some y -> live y -> g_ptable g !! j = Some y) as Hl.
  { intros j y [[-> ->]|[N Hy]]%insert_cases Ly; [exfalso; by apply Ly|done]. }
  assert (forall j y, g_ptable g !! j = Some y -> alive y -> <[k := q']> (g_ptable g) !! j = Some y) as Hr.
  { intros j y Hy Ly. rewrite list_lookup_insert_ne; [done|]. intros ->. rewrite Hq in Hy. injection Hy as <-. by apply Ly. }
  split; cbn [g_ptable g_nextpid g_initproc g_proc set_ptable].
  - by rewrite length_insert.
  - done.
  - intros j y Hy Ly. exact (H3 j y (Hl j y Hy Ly) Ly).
  - intros j m y z Hy Hz' Ly Lz. apply (H4 j m y z); auto.
  - destruct H5 as (i0 & p0 & ? & ? & ? & ?). exists i0, p0. by auto.
  - intros j y Hy Ly Hi. destruct (H6 j y (Hl j y Hy Ly) Ly Hi) as (r & pr & ? & ? & ? & ?). exists r, pr. by auto.
  - intros j y [[-> ->]|[N Hy]]%insert_cases; [done|exact (H7 j y Hy)].
  - intros j y [[-> ->]|[N Hy]]%insert_cases; [done|exact (H8 j y Hy)].
  - intros j y [[-> ->]|[N Hy]]%insert_cases; [|exact (H9 j y Hy)]. split; [done|].
    intros E%(H9 k q Hq). congruence.
  - intros c Hc. apply lookup_lt_is_Some. rewrite length_insert. by apply lookup_lt_is_Some, H10.
Qed.

Ltac slept E := eapply keeps_Sleeps; [first [eassumption|reflexivity]| |exact E]; by eauto with keeps.

(** [wait] that waits: the current process sleeps on itself. *)
Lemma wait_sleep_table g g' : wait kend g = Sleeps g' ->
  quiet g g' \/ exists i p, g_proc g = Some i /\ g_ptable g !! i = Some p /\
    g' = set_ptable (<[i := with_state SLEEPING (with_chan (Some (CProc i)) p)]> (g_ptable g)) g.
Proof.
  unfold wait. intros [E|(c & g1 & E1 & E)]%bind_Sleeps; [left; slept E|].
  apply myproc_Ret in E1 as [-> Hc]. apply bind_Sleeps in E as [E|(? & ? & [= <- <-] & E)]; [done|].
  destruct (index_of _ _) as [k|].
  - left. unfold reap in E. apply bind_Sleeps in E as [E|(q & g2 & E2 & E)]; [slept E|].
    apply getp_Ret in E2 as [-> Hq]. apply bind_Sleeps in E as [E|(? & g3 & E3 & E)]; [slept E|].
    assert (quiet g g3) as Q by (eapply quiet_keeps; [reflexivity| |exact E3]; eauto with keeps).
    apply bind_Sleeps in E as [E|(? & g4 & E4 & E)]; [by apply updp_no_sleep in E|].
    assert (quiet g g4) as Q4 by (eapply quiet_keeps; [exact Q| |exact E4]; eauto with keeps).
    apply bind_Sleeps in E as [E|(? & g5 & E5 & E)]; [slept E|].
    apply bind_Sleeps in E as [E|(? & g6 & E6 & E)]; [by apply updp_no_sleep in E|done].
  - apply bind_Sleeps in E as [E|(p & g2 & E2 & E)]; [left; slept E|].
    apply me_Ret in E2 as [-> _]. destruct (negb _ || _); [done|]. right.
    apply sleep_table in E as (i & p' & Hi & Hp & ->). rewrite Hc in Hi. injection Hi as <-. by exists c, p'.
Qed.

Lemma quiet_set_proc g g' c : quiet g g' -> quiet (set_proc c g) (set_proc c g').
Proof. intros (? & ? & ? & _). by split. Qed.

(** Giving up the processor in state [x]. *)
Lemma pt_inv_give_up g i p p' : pt_inv g -> g_proc g = Some i -> g_ptable g !! i = Some p ->
  proc_pid p' = proc_pid p -> proc_parent p' = proc_parent p -> (proc_state p' = RUNNABLE \/ proc_state p' = SLEEPING) ->
  pt_inv (set_proc None (set_ptable (<[i := p']> (g_ptable g)) g)).
Proof.
  intros Hinv Hi Hp Epid Epar Hs. pose proof (proj2 (pi_run g Hinv i p Hp) Hi) as Hrun.
  apply (pt_inv_state g i p p' None Hinv Hp); try done; unfold alive.
  - by rewrite Hrun.
  - by destruct Hs as [->| ->].
  - by destruct Hs as [->| ->].
  - by destruct Hs as [->| ->].
  - intros j N. congruence.
  - by right.
Qed.

Lemma quiet_not_in g g' x : pt_inv g -> quiet g g' -> current_in x g' -> x = RUNNING.
Proof.
  intros Hinv Q (p' & Hp' & Hs). pose proof (pt_inv_quiet g g' Hinv Q) as Hinv'. unfold current in Hp'.
  destruct (g_proc g') as [c|] eqn:Ec; [|done]. cbn in Hp'. rewrite <- Hs. by apply (pi_run g' Hinv' c p').
Qed.

Lemma pstep_inv g g' : pt_inv g -> pstep g g' -> pt_inv g'.
Proof.
  intros Hinv [i p Hc Hp Hs E|g1 E [= <-]|c g1 E [= <-]|c E|pid r E|r Hn E|g1 E Hz [= <-]|r E|g1 E Hz [= <-]|A m a Hm E].
  - unfold run_proc, bind, modify in E. rewrite (updp_eq (set_proc (Some i) g) i p _ Hp) in E. injection E as <-.
    apply (pt_inv_state g i p (with_state RUNNING p) (Some i) Hinv Hp); try done; unfold alive; cbn.
    + by rewrite Hs.
    + intros j _. by rewrite Hc.
    + by left.
  - apply yield_table in E as (i & p & Hi & Hp & ->). by eapply pt_inv_give_up; eauto.
  - apply sleep_table in E as (i & p & Hi & Hp & ->). by eapply pt_inv_give_up; eauto.
  - eapply pt_inv_quiet; [done|]. eapply keeps_Ret; [apply wakeup1_quiet|exact E].
  - eapply pt_inv_quiet; [done|]. eapply keeps_Ret; [apply kill_quiet|exact E].
  - apply fork_table in E as [Q|[(i & p & Hp & Hs & _ & Q)|(i & p & c & Hp & Hs & Hc & _ & Q)]].
    + by eapply pt_inv_quiet.
    + eapply pt_inv_quiet; [|exact Q]. by apply pt_inv_fork_fail.
    + eapply pt_inv_quiet; [|exact Q]. by apply pt_inv_fork.
  - apply exit_table in E as [Q|(c & pc & Hc & Hi & Hpc & Q)]; [| |apply Hinv].
    + by pose proof (quiet_not_in g g1 ZOMBIE Hinv Q Hz).
    + eapply pt_inv_quiet; [|exact (quiet_set_proc _ _ None Q)]. by apply pt_inv_exit.
  - apply wait_table in E as [[_ ->]|(c & k & q & Hc & Hq & _ & Hz & _ & Q)]; [done|].
    eapply pt_inv_quiet; [|exact Q]. by apply pt_inv_wait.
  - apply wait_sleep_table in E as [Q|(i & p & Hi & Hp & ->)].
    + by pose proof (quiet_not_in g g1 SLEEPING Hinv Q Hz).
    + by eapply pt_inv_give_up; eauto.
  - eapply pt_inv_quiet; [done|]. by eapply keeps_Ret.
Qed.

Lemma rtc_pstep_inv g g' : pt_inv g -> rtc pstep g g' -> pt_inv g'.
Proof. intros Hi Hr. induction Hr as [|g h k Hst _ IH]; [done|]. apply IH. by eapply pstep_inv. Qed.
End steps.

(** ** The scheduler *)

(** Process [i] is ready to run. *)
Definition ready (i : nat) (g : kernel) : Prop := exists p, g_ptable g !! i = Some p /\ proc_state p = RUNNABLE.

Lemma ready_quiet i g g' : quiet g g' -> ready i g -> ready i g'.
Proof.
  intros (H & _) (p & Hp & Hs). destruct (Forall2_lookup_l _ _ _ _ _ H Hp) as (p' & Hp' & _ & _ & [E|[E _]]); [|congruence].
  exists p'. split; [done|congruence].
Qed.

(** A change of an entry that was not ready. *)
Lemma ready_insert i k x g : k <> i -> ready i g -> ready i (set_ptable (<[k := x]> (g_ptable g)) g).
Proof. intros Hk (p & Hp & Hs). exists p. cbn. by rewrite list_lookup_insert_ne. Qed.

Section scheduler.
Context (devsw : Z -> devsw_t) (kend kdata fr tr : Z).
Notation pstep := (pstep devsw kend kdata fr tr).

(** A step that does not start a process: what the running process and the
    interrupts do. *)
Definition astep (g g' : kernel) : Prop := pstep g g' /\ (g_proc g = None -> g_proc g' = None).

(** Only the scheduler takes a process out of the state RUNNABLE. *)
Lemma ready_kept i g g' : pt_inv g -> astep g g' -> ready i g -> ready i g'.
Proof.
  intros Hinv [Hst Hnone] Hr. pose proof Hr as (p & Hp & Hs).
  assert (forall c, g_proc g = Some c -> c <> i) as Hcur.
  { intros c Hc ->. pose proof (proj2 (pi_run g Hinv i p Hp) Hc). congruence. }
  destruct Hst as [k q Hc Hq _ E|g1 E [= <-]|c g1 E [= <-]|c E|pid r E|r Hn E|g1 E _ [= <-]|r E|g1 E _ [= <-]|A m a Hm E].
  - unfold run_proc, bind, modify in E. rewrite (updp_eq (set_proc (Some k) g) k q _ Hq) in E. injection E as <-. discriminate (Hnone Hc).
  - apply yield_table in E as (c & q & Hc & Hq & ->). apply (ready_insert i c _ g); [by apply Hcur|done].
  - apply sleep_table in E as (c' & q & Hc & Hq & ->). apply (ready_insert i c' _ g); [by apply Hcur|done].
  - eapply ready_quiet; [eapply keeps_Ret; [apply wakeup1_quiet|exact E]|done].
  - eapply ready_quiet; [eapply keeps_Ret; [apply kill_quiet|exact E]|done].
  - apply fork_table in E as [Q|[(k & q & Hq & Hu & _ & Q)|(k & q & c & Hq & Hu & Hc & _ & Q)]]; (eapply ready_quiet; [exact Q|]); [done|..];
      (apply (ready_insert i k _ g); [intros ->; congruence|done]).
  - apply exit_table in E as [Q|(c & pc & Hc & Hi & Hpc & Q)]; [change (ready i g1); by eapply (ready_quiet i g)| |apply Hinv].
    eapply (ready_quiet i _ (set_proc None _)); [exact (quiet_set_proc _ _ None Q)|]. exists (reparented c (g_initproc g) p). cbn.
    rewrite list_lookup_insert_ne, list_lookup_fmap, Hp by (by apply Hcur). split; [done|]. unfold reparented. by case_match.
  - apply wait_table in E as [[_ ->]|(c & k & q & Hc & Hq & _ & Hz & _ & Q)]; [done|].
    eapply ready_quiet; [exact Q|]. apply (ready_insert i k _ g); [intros ->; congruence|done].
  - apply wait_sleep_table in E as [Q|(c & q & Hc & Hq & ->)]; [change (ready i g1); by eapply (ready_quiet i g)|].
    apply (ready_insert i c _ g); [by apply Hcur|done].
  - eapply ready_quiet; [by eapply keeps_Ret|done].
Qed.

Lemma run_kept i g g' : pt_inv g -> rtc astep g g' -> pt_inv g' /\ (ready i g -> ready i g').
Proof.
  intros Hi Hr. revert Hi. induction Hr as [|g h k Hst _ IH]; intros Hi; [by split|].
  destruct IH as [IH1 IH2]; [exact (pstep_inv _ _ _ _ _ _ _ Hi (proj1 Hst))|]. split; [done|]. intros H. apply IH2. exact (ready_kept i g h Hi Hst H).
Qed.

(** The other processes give the processor back. *)
Context (swtch : nat -> nat -> K kernel unit) (idle : nat -> K kernel unit).
Record environment : Prop := {
  env_swtch : forall t k g, pt_inv g -> g_proc g = Some k -> exists g', swtch t k g = Ret tt g' /\ rtc astep g g' /\ g_proc g' = None;
  env_idle : forall t g, pt_inv g -> g_proc g = None -> exists g', idle t g = Ret tt g' /\ rtc astep g g' /\ g_proc g' = None
}.
Hypothesis (Henv : environment).

Lemma scheduler_body_ok t k g : pt_inv g -> g_proc g = None -> (k < Z.to_nat NPROC)%nat ->
  exists ds g', scheduler_body swtch t k g = Ret ds g' /\ pt_inv g' /\ g_proc g' = None /\
    (ds = [] /\ g' = g /\ ~ ready k g \/ ds = [k] /\ ready k g /\ forall i, i <> k -> ready i g -> ready i g').
Proof.
  intros Hinv Hc Hk. rewrite <- (pi_len g Hinv) in Hk. destruct (lookup_lt_is_Some_2 _ _ Hk) as [p Hp].
  unfold scheduler_body. rewrite (bind_eq _ _ _ _ _ (getp_eq g k p Hp)). unfold in_state. case_bool_decide as Hs; cbn [negb].
  2:{ exists [], g. split_and!; [done|done|done|]. left. split_and!; [done|done|]. intros (q & Hq & Hqs). congruence. }
  assert (run_proc k g = Ret tt (set_ptable (<[k := with_state RUNNING p]> (g_ptable g)) (set_proc (Some k) g))) as E1.
  { unfold run_proc, bind, modify. by rewrite (updp_eq (set_proc (Some k) g) k p _ Hp). }
  set (g1 := set_ptable _ _) in E1. assert (pt_inv g1) as Hinv1 by (apply (pstep_inv devsw kend kdata fr tr g g1 Hinv); by eapply ps_run).
  destruct (env_swtch Henv t k g1 Hinv1 eq_refl) as (g2 & E2 & Hrun & Hc2). exists [k], g2. destruct (run_kept 0 g1 g2 Hinv1 Hrun) as [Hinv2 _].
  rewrite (bind_eq _ _ _ _ _ E1), (bind_eq _ _ _ _ _ E2). split_and!; [by destruct g2; cbn in Hc2; subst|done|done|].
  right. split_and!; [done|by exists p|]. intros i Hi Hr. apply (run_kept i g1 g2 Hinv1 Hrun). destruct Hr as (q & Hq & Hqs). exists q. cbn.
  by rewrite list_lookup_insert_ne.
Qed.

(** The loop over the entries [l] of the table. *)
Lemma scheduler_entries t l : forall g ds, pt_inv g -> g_proc g = None -> NoDup l -> (forall k, k ∈ l -> (k < Z.to_nat NPROC)%nat) ->
  exists ds' g', foldK (fun k ds => let! d := scheduler_body swtch t k in ret (ds ++ d)) l ds g = Ret (ds ++ ds') g' /\ pt_inv g' /\ g_proc g' = None /\
    ds' `sublist_of` l /\ forall i, i ∈ l -> ready i g -> i ∈ ds'.
Proof.
  induction l as [|k l IH]; intros g ds Hinv Hc Hd Hl; cbn [foldK].
  { exists [], g. rewrite app_nil_r. split_and!; [done..|constructor|]. intros i Hi. by apply elem_of_nil in Hi. }
  apply NoDup_cons in Hd as [Hkl Hd]. destruct (scheduler_body_ok t k g Hinv Hc) as (d & g1 & E1 & Hinv1 & Hc1 & Hcase); [apply Hl; by left|].
  destruct (IH g1 (ds ++ d) Hinv1 Hc1 Hd) as (ds' & g' & E2 & Hinv' & Hc' & Hsub & Hrun); [intros; apply Hl; by right|].
  exists (d ++ ds'), g'. split_and!; [|done|done| |].
  - rewrite (bind_eq _ _ g (ds ++ d) g1); [by rewrite E2, app_assoc|]. by rewrite (bind_eq _ _ _ _ _ E1).
  - destruct Hcase as [(-> & _)|(-> & _)]; cbn; by constructor.
  - intros i Hi Hr. destruct (decide (i = k)) as [->|Hne].
    + destruct Hcase as [(_ & _ & Hn)|(-> & _)]; [done|by left].
    + apply elem_of_cons in Hi as [?|Hi]; [done|]. apply elem_of_app. right. apply Hrun; [done|].
      destruct Hcase as [(_ & -> & _)|(_ & _ & Hk)]; [done|by apply Hk].
Qed.

(** The state in which turn [t] begins, before and after the time [ptable.lock] is
    free, and the processes run in it. *)
Record turn (g : kernel) (dss : list (list nat)) (t : nat) (ds : list nat) (g1 g2 : kernel) : Prop := {
  tn_before : scheduler swtch idle t g = Ret (take t dss) g1;
  tn_idle : idle t g1 = Ret tt g2;
  tn_once : ds `sublist_of` seq 0 (Z.to_nat NPROC);
  tn_runs : forall i, ready i g1 \/ ready i g2 -> i ∈ ds
}.

Lemma scheduler_turns n g : pt_inv g -> g_proc g = None -> exists dss g', scheduler swtch idle n g = Ret dss g' /\ pt_inv g' /\ g_proc g' = None /\
  length dss = n /\ forall t ds, dss !! t = Some ds -> exists g1 g2, turn g dss t ds g1 g2.
Proof.
  intros Hinv Hc. induction n as [|n (dss & g1 & E1 & Hinv1 & Hc1 & Hl & Ht)].
  { exists [], g. split_and!; try done. }
  destruct (env_idle Henv n g1 Hinv1 Hc1) as (g2 & E2 & Hrun & Hc2). pose proof (proj1 (run_kept 0 g1 g2 Hinv1 Hrun)) as Hinv2.
  destruct (scheduler_entries n (seq 0 (Z.to_nat NPROC)) g2 [] Hinv2 Hc2 (NoDup_seq _ _)) as (ds & g3 & E3 & Hinv3 & Hc3 & Hsub & Hin).
  { intros k Hk. apply elem_of_seq in Hk. lia. }
  assert (forall i, ready i g2 -> i ∈ ds) as Hin'.
  { intros i Hi. apply Hin; [|done]. destruct Hi as (p & Hp & _). apply lookup_lt_Some in Hp. rewrite (pi_len _ Hinv2) in Hp. apply elem_of_seq. lia. }
  exists (dss ++ [ds]), g3. cbn [scheduler]. rewrite (bind_eq _ _ _ _ _ E1), (bind_eq _ _ _ _ _ E2). unfold scheduler_pass. rewrite (bind_eq _ _ _ _ _ E3).
  split_and!; [done|done|done|rewrite length_app; cbn; lia|]. intros t d Hd. apply lookup_app_Some in Hd as [Hd|[Hge Hd]].
  - destruct (Ht t d Hd) as (h1 & h2 & [T1 T2 T3 T4]). exists h1, h2. split; try done. rewrite T1. by rewrite take_app_le by (apply lookup_lt_Some in Hd; lia).
  - apply list_lookup_singleton_Some in Hd as [Ht0 <-]. assert (t = n) as -> by lia. exists g1, g2. split; try done.
    + rewrite E1. by rewrite take_app_length' by done.
    + intros i [Hi|Hi]; [|by apply Hin']. apply Hin', (run_kept i g1 g2 Hinv1 Hrun), Hi.
Qed.
End scheduler.

(** ** The first process *)

Definition unused_proc : proc :=
  Proc 0 0 0 UNUSED 0 None zero_tf (CContext 0 0 0 0 0 0) None false (replicate (Z.to_nat NOFILE) None) None (replicate 16 0).

(** The table [userinit] leaves in a table that was empty. *)
Definition first_process (g : kernel) : Prop :=
  exists p, g_ptable g = p :: replicate 63 unused_proc /\ proc_state p = RUNNABLE /\ proc_pid p = 1 /\
    g_nextpid g = 2 /\ g_initproc g = Some 0%nat /\ g_proc g = None.

Lemma first_process_inv g : first_process g -> pt_inv g.
Proof.
  intros (p & Et & Hs & Hpid & Hn & Hi & Hc).
  assert (forall i q, g_ptable g !! i = Some q -> i = 0%nat /\ q = p \/ i <> 0%nat /\ q = unused_proc) as Hl.
  { intros [|i] q; rewrite Et; [intros [= <-]; by left|]. intros Hq. change (replicate 63 unused_proc !! i = Some q) in Hq.
    apply lookup_replicate in Hq as [-> _]. by right. }
  assert (forall i q, g_ptable g !! i = Some q -> live q -> i = 0%nat /\ q = p) as Hl'.
  { intros i q [?|[_ ->]]%Hl L; [done|]. exfalso. by apply L. }
  split.
  - by rewrite Et.
  - lia.
  - intros i q Hq Lq. destruct (Hl' i q Hq Lq) as [_ ->]. lia.
  - intros i j q r Hq Hr Lq Lr _. destruct (Hl' i q Hq Lq) as [-> _], (Hl' j r Hr Lr) as [-> _]. done.
  - exists 0%nat, p. rewrite Et. unfold alive. by rewrite Hs.
  - intros i q Hq Lq N. destruct (Hl' i q Hq Lq) as [-> _]. done.
  - intros i q [[_ ->]|[_ ->]]%Hl E; [congruence|done].
  - intros i q [[_ ->]|[_ ->]]%Hl; [by rewrite Hs|done].
  - intros i q [[_ ->]|[_ ->]]%Hl; rewrite Hc; [by rewrite Hs|done].
  - intros c. by rewrite Hc.
Qed.

(** ** Theorems *)

(** C15. The process tree. Starting from the first process, whatever sequence of
    dispatches, yields, sleeps, wakeups, kills, forks (failing or not), exits,
    waits and other system calls is run, as long as pids have not run out: pids of
    live processes are positive and distinct; [initproc] is alive; every other
    live process, zombies included, has a parent that is alive and older, so that
    the parents form a tree rooted at [initproc] and every zombie has a living
    process that can reap it; and the process in state RUNNING is exactly the one
    the processor runs. *)
Theorem process_tree devsw kend kdata fr tr g0 g : first_process g0 -> rtc (pstep devsw kend kdata fr tr) g0 g ->
  (forall i j p q, g_ptable g !! i = Some p -> g_ptable g !! j = Some q -> live p -> live q ->
     0 < proc_pid p /\ (proc_pid p = proc_pid q -> i = j)) /\
  (exists i0 p0, g_initproc g = Some i0 /\ g_ptable g !! i0 = Some p0 /\ alive p0 /\ proc_pid p0 = 1) /\
  (forall i p, g_ptable g !! i = Some p -> live p -> g_initproc g <> Some i ->
     exists q pq, proc_parent p = Some q /\ g_ptable g !! q = Some pq /\ alive pq /\ proc_pid pq < proc_pid p) /\
  (forall i p, g_ptable g !! i = Some p -> proc_state p = RUNNING <-> g_proc g = Some i).
Proof.
  intros H0 Hrun. pose proof (rtc_pstep_inv _ _ _ _ _ _ _ (first_process_inv g0 H0) Hrun) as Hinv.
  split; [|split; [apply Hinv|split; [apply Hinv|apply Hinv]]].
  intros i j p q Hp Hq Lp Lq. split; [by apply (pi_pid g Hinv i)|]. by apply (pi_inj g Hinv i j).
Qed.

(** A kernel with one runnable process. *)
Definition lone_kernel : kernel :=
  Kernel (bare_sys (iinit (boot ∅ 0))) (with_pid 1 (with_state RUNNABLE unused_proc) :: replicate 63 unused_proc) 2 (Some 0%nat) None 0.

Lemma lone_first : first_process lone_kernel.
Proof. by eexists. Qed.

Lemma process_tree_witness : exists g, rtc (pstep (fun _ => Devsw None None) 0 0 0 0) lone_kernel g /\
  g_proc g = Some 0%nat /\ forall p, g_ptable g !! 0%nat = Some p -> proc_state p = RUNNING.
Proof.
  destruct (run_proc 0 lone_kernel) as [[] g| | | |] eqn:E; try discriminate E.
  assert (rtc (pstep (fun _ => Devsw None None) 0 0 0 0) lone_kernel g) as Hrun.
  { apply rtc_once. eapply (ps_run _ _ _ _ _ _ _ 0%nat); [reflexivity..|exact E]. }
  exists g. split; [exact Hrun|]. assert (g_proc g = Some 0%nat) as Hc by (injection E as <-; reflexivity). split; [exact Hc|].
  destruct (process_tree _ _ _ _ _ _ _ lone_first Hrun) as (_ & _ & _ & H). intros p Hp. apply (H 0%nat p Hp). exact Hc.
Defined.

(** C23. No starvation. The scheduler runs on a table the kernel can reach, with
    any behaviour of the processes it switches to and of the interrupts in
    between, as long as the processor comes back. For any number of turns of its
    outer loop it goes on; in every turn it runs each process at most once, in the
    order of the table, and every process that is ready when the turn begins. A
    process that becomes ready behind the scan is therefore run in the next turn. *)
Theorem scheduler_fair devsw kend kdata fr tr swtch idle g0 g n :
  first_process g0 -> rtc (pstep devsw kend kdata fr tr) g0 g -> g_proc g = None -> environment devsw kend kdata fr tr swtch idle ->
  exists dss g', scheduler swtch idle n g = Ret dss g' /\ length dss = n /\
    forall t ds, dss !! t = Some ds -> exists g1 g2, turn swtch idle g dss t ds g1 g2.
Proof.
  intros H0 Hrun Hc Henv. pose proof (rtc_pstep_inv _ _ _ _ _ _ _ (first_process_inv g0 H0) Hrun) as Hinv.
  destruct (scheduler_turns _ _ _ _ _ _ _ Henv n g Hinv Hc) as (dss & g' & E & _ & _ & Hl & Ht). by exists dss, g'.
Qed.

(** A processor on which every process gives up at once. *)
Definition polite (t k : nat) : K kernel unit := fun g => match yield g with Sleeps g1 => back_to_scheduler g1 | _ => Ret tt g end.

Lemma polite_environment : environment (fun _ => Devsw None None) 0 0 0 0 polite (fun _ => ret tt).
Proof.
  split; [|intros t g _ Hc; exists g; by split_and!].
  intros t k g Hinv Hc. destruct (pi_cur g Hinv k Hc) as [p Hp].
  assert (yield g = Sleeps (set_ptable (<[k := with_state RUNNABLE p]> (g_ptable g)) g)) as E.
  { unfold yield, yield_to, updme, myproc, bind, get. rewrite Hc. cbn. rewrite (updp_eq g k p _ Hp). unfold sched_to, me, myproc, bind, get. cbn. rewrite Hc. cbn.
    unfold getp, bind, get. cbn. by rewrite list_lookup_insert_eq by (by eapply lookup_lt_Some). }
  eexists. unfold polite. rewrite E. split_and!; [reflexivity| |reflexivity]. apply rtc_once. split; [by eapply ps_yield|done].
Qed.

Lemma scheduler_fair_witness : exists dss g', scheduler polite (fun _ => ret tt) 3 lone_kernel = Ret dss g' /\ length dss = 3%nat /\
  forall t ds, dss !! t = Some ds -> exists g1 g2, turn polite (fun _ => ret tt) lone_kernel dss t ds g1 g2.
Proof. exact (scheduler_fair _ _ _ _ _ _ _ lone_kernel lone_kernel 3 lone_first (rtc_refl _ _) eq_refl polite_environment). Defined.

(** ** A pid that outlives its process *)

Section stale.
Context (kend kdata fr tr : Z).

Lemma mm_kalloc_none g : k_freelist (s_kmem (g_sys g)) = 0 -> mm kalloc g = Ret 0 g.
Proof.
  intros H. unfold mm, fl, kmm, zoom, kalloc, bind, get. rewrite H. by destruct g as [[] ? ? ? ? ?].
Qed.

(** [allocproc] without memory for the kernel stack. *)
Lemma allocproc_nomem g i p : index_of (in_state UNUSED) (g_ptable g) = Some i -> g_ptable g !! i = Some p ->
  k_freelist (s_kmem (g_sys g)) = 0 ->
  allocproc fr tr g = Ret None (take_slot i (with_state UNUSED (with_kstack 0 (with_pid (g_nextpid g) (with_state EMBRYO p)))) g).
Proof.
  intros Hi Hp Hk. pose proof (lookup_lt_Some _ _ _ Hp). unfold allocproc, bind, get. rewrite Hi, (updp_eq g i p _ Hp).
  unfold modify. rewrite mm_kalloc_none by done.
  erewrite updp_eq by (cbn; rewrite list_lookup_insert_eq by done; reflexivity). cbn [Z.eqb].
  erewrite updp_eq by (cbn; rewrite list_lookup_insert_eq by (by rewrite length_insert); reflexivity).
  cbn. by rewrite !list_insert_insert_eq.
Qed.

(** [allocproc] with memory: the flag [killed] is the one found in the slot. *)
Lemma allocproc_killed g i p pg l : index_of (in_state UNUSED) (g_ptable g) = Some i -> g_ptable g !! i = Some p ->
  kmem_ok kend (s_kmem (g_sys g)) (pg :: l) ->
  exists g' p', allocproc fr tr g = Ret (Some i) g' /\ g_ptable g' !! i = Some p' /\ proc_killed p' = proc_killed p.
Proof.
  intros Hi Hp [(Hf & Hpg & _ & _) _]. pose proof (lookup_lt_Some _ _ _ Hp). pose proof (is_page_pos _ _ Hpg).
  unfold allocproc, bind, get. rewrite Hi, (updp_eq g i p _ Hp). unfold modify, mm, fl, kmm, zoom, kalloc, bind, get. cbn [g_sys set_nextpid set_ptable].
  rewrite Hf. destruct (Z.eqb_spec pg 0) as [|Npg]; [lia|]. unfold modify, ret.
  erewrite updp_eq by (cbn; rewrite list_lookup_insert_eq by done; reflexivity).
  rewrite (proj2 (Z.eqb_neq pg 0) Npg).
  erewrite updp_eq by (cbn; rewrite list_lookup_insert_eq by (by rewrite length_insert); reflexivity).
  eexists _, _. split; [done|]. cbn. rewrite list_lookup_insert_eq by (by rewrite !length_insert). done.
Qed.
End stale.

(** A failed [fork] leaves its pid in the slot it gives back, and [kill] does
    not look at the state: killing that pid succeeds on an unused slot, and the
    next process created there is born killed. *)
Theorem fork_fail_leaves_target kend kdata fr tr g i p :
  index_of (in_state UNUSED) (g_ptable g) = Some i -> g_ptable g !! i = Some p ->
  k_freelist (s_kmem (g_sys g)) = 0 ->
  (forall j q, (j < i)%nat -> g_ptable g !! j = Some q -> proc_pid q <> g_nextpid g) ->
  exists g1 g2, fork kend kdata fr tr g = Ret (-1) g1 /\ kill (g_nextpid g) g1 = Ret 0 g2 /\
    forall σ pg l, kmem_ok kend σ (pg :: l) ->
      exists g3 p3, allocproc fr tr (set_sys (set_kmem σ (g_sys g2)) g2) = Ret (Some i) g3 /\
        g_ptable g3 !! i = Some p3 /\ proc_killed p3 = true.
Proof.
  intros Hi Hp Hk Hpid. pose proof (lookup_lt_Some _ _ _ Hp) as Hlt.
  set (p1 := with_state UNUSED (with_kstack 0 (with_pid (g_nextpid g) (with_state EMBRYO p)))).
  set (g1 := take_slot i p1 g). exists g1, (set_ptable (<[i := with_killed true p1]> (g_ptable g1)) g1).
  split; [unfold fork, bind; by rewrite (allocproc_nomem fr tr g i p)|].
  assert (g_ptable g1 !! i = Some p1) as Hp1 by (cbn; by rewrite list_lookup_insert_eq). split.
  - unfold kill, bind, get. rewrite (index_of_first _ _ i p1 Hp1).
    + rewrite (updp_eq g1 i p1 _ Hp1). rewrite (getp_eq _ i (with_killed true p1)); [done|]. cbn. by rewrite list_lookup_insert_eq by (by rewrite length_insert).
    + apply Z.eqb_refl.
    + intros j y Hj Hy. apply Z.eqb_neq. cbn in Hy. rewrite list_lookup_insert_ne in Hy by lia. by apply (Hpid j).
  - intros σ pg l Hok. apply index_of_Some in Hi as (q & Hq & _ & Hb).
    eapply (allocproc_killed kend fr tr _ i (with_killed true p1) pg l); [|cbn; by rewrite list_lookup_insert_eq by (by rewrite length_insert)|done].
    apply (index_of_first _ _ i (with_killed true p1)); [cbn; by rewrite list_lookup_insert_eq by (by rewrite length_insert)|done|].
    intros j y Hj Hy. cbn in Hy. rewrite !list_lookup_insert_ne in Hy by lia. by apply (Hb j).
Qed.

Lemma fork_fail_leaves_target_witness : exists g1, fork 2148532224 0 0 0 lone_kernel = Ret (-1) g1 /\
  exists g2, kill 2 g1 = Ret 0 g2 /\ g_ptable g2 !! 1%nat = Some (with_killed true (with_pid 2 unused_proc)).
Proof.
  destruct (fork_fail_leaves_target 2148532224 0 0 0 lone_kernel 1%nat unused_proc eq_refl eq_refl eq_refl) as (g1 & g2 & E1 & E2 & _).
  - intros [|j] q Hj Hq; [injection Hq as <-; discriminate|lia].
  - exists g1. split; [exact E1|]. exists g2. split; [exact E2|]. clear -E1 E2.
    vm_compute in E1. injection E1 as <-. vm_compute in E2. injection E2 as <-. reflexivity.
Defined.

(** ** Giving all memory back *)

Lemma deallocuvm_result kend pgdir oldsz newsz σ x σ' : newsz < oldsz ->
  deallocuvm kend pgdir oldsz newsz σ = Ret x σ' -> x = newsz.
Proof.
  intros Hlt E. unfold deallocuvm in E. destruct (Z.leb_spec oldsz newsz); [lia|].
  apply bind_Ret in E as (? & ? & _ & E). by injection E.
Qed.

(** [growproc] cannot shrink a process to nothing: [deallocuvm] reports the new
    size, 0, which [growproc] takes for a failure. All pages have been freed, the
    call returns -1, and the process keeps its old size. *)
Theorem growproc_to_zero kend g c p x g1 : g_proc g = Some c -> g_ptable g !! c = Some p ->
  0 < proc_sz p < 2147483648 ->
  mm (deallocuvm kend (proc_pgdir p) (proc_sz p) 0) g = Ret x g1 ->
  growproc kend (- proc_sz p) g = Ret (-1) g1 /\ current g1 = Some p.
Proof.
  intros Hc Hp Hsz E. unfold growproc, me, myproc, bind, get. rewrite Hc. cbn [lift_opt ret]. unfold ret.
  rewrite (getp_eq g c p Hp). destruct (Z.ltb_spec 0 (- proc_sz p)); [lia|]. destruct (Z.ltb_spec (- proc_sz p) 0); [|lia].
  rewrite Z.add_opp_diag_r, (u32_small 0) by lia. rewrite E.
  unfold mm, fl, kmm, zoom in E. destruct (deallocuvm _ _ _ _ _) as [y σ| | | |] eqn:Ed; try done. injection E as <- <-.
  apply deallocuvm_result in Ed as ->; [|lia]. cbn. unfold current. cbn. by rewrite Hc.
Qed.

Lemma growproc_to_zero_witness : exists g g1, growproc 0 (-8192) g = Ret (-1) g1 /\
  (proc_sz <$> current g1) = Some 8192.
Proof.
  set (p := with_sz 8192 (with_pid 1 (with_state RUNNING unused_proc))).
  set (g := set_proc (Some 0%nat) (set_ptable (p :: replicate 63 unused_proc) lone_kernel)).
  destruct (mm (deallocuvm 0 (proc_pgdir p) (proc_sz p) 0) g) as [x g1| | | |] eqn:E; try (vm_compute in E; discriminate E).
  destruct (growproc_to_zero 0 g 0%nat p x g1 eq_refl eq_refl ltac:(split; reflexivity) E) as [H1 H2].
  exists g, g1. split; [exact H1|]. rewrite H2. reflexivity.
Defined.
