(* ===== verification/Syscall.v ===== *)
(** System call arguments and dispatch: syscall.c, and the process calls of
    sysproc.c. User memory is reached through the page table of the process. *)
From S2P Require Import Prelude Bio Log Str Fs Kalloc Vm Pipe File Proc.

(** ** User memory as the kernel sees it *)

(** The kernel runs on the page table of the process, with write protection on:
    a read needs a present page, a write a present and writable one. Anything
    else is a page fault in kernel mode, on which [trap] panics. *)
Definition kaddr (m : Z -> list Z) (pgdir va : Z) (need : Z) : option (Z * nat) :=
  pte_of pgdir m (PGROUNDDOWN va) ≫= fun e =>
    if flag e PTE_P && (Z.land e need =? need) then Some (P2V (PTE_ADDR e), Z.to_nat (va - PGROUNDDOWN va)) else None.

Definition kload (va : Z) : K kernel Z :=
  let! p := me in
  let! g := get in
  let m := k_mem (s_kmem (g_sys g)) in
  match kaddr m (proc_pgdir p) va 0 ≫= (fun a => m a.1 !! a.2) with
  | Some b => ret b
  | None => panic "trap"
  end.

Definition kstore (va b : Z) : K kernel unit :=
  let! p := me in
  let! g := get in
  match kaddr (k_mem (s_kmem (g_sys g))) (proc_pgdir p) va PTE_W with
  | Some (a, o) => mm (modify (fun σ => set_mem (<[a := <[o := b]> (k_mem σ a)]> (k_mem σ)) σ))
  | None => panic "trap"
  end.

(** [n] bytes from [va] on. *)
Fixpoint kloads (n : nat) (va : Z) : K kernel (list Z) :=
  match n with
  | O => ret []
  | S n' => let! b := kload va in let! l := kloads n' (u32 (va + 1)) in ret (b :: l)
  end.

Fixpoint kstores (l : list Z) (va : Z) : K kernel unit :=
  match l with
  | [] => ret tt
  | b :: l' => kstore va b;;; kstores l' (u32 (va + 1))
  end.

(** ** Arguments: [None] is the result -1 *)

Definition fetchint (addr : Z) : K kernel (option Z) :=
  let! p := me in
  if (proc_sz p <=? addr) || (proc_sz p <? u32 (addr + 4)) then ret None
  else let! l := kloads 4 addr in ret (Some (s32 (le_dec l))).

(** The loop of [fetchstr]: the characters before the NUL, if there is one before [ep]. *)
Fixpoint fetchstr_loop (n : nat) (s : Z) : K kernel (option (list Z)) :=
  match n with
  | O => ret None
  | S n' =>
    let! c := kload s in
    if c =? 0 then ret (Some [])
    else let! r := fetchstr_loop n' (s + 1) in ret ((fun l => c :: l) <$> r)
  end.

(** The string that [*pp] points to; its length is the value returned. *)
Definition fetchstr (addr : Z) : K kernel (option (list Z)) :=
  let! p := me in
  if proc_sz p <=? addr then ret None
  else fetchstr_loop (Z.to_nat (proc_sz p - addr)) addr.

Definition argint (n : Z) : K kernel (option Z) :=
  let! p := me in fetchint (u32 (tf_esp (proc_tf p) + 4 + 4 * n)).

(** The pointer, checked to lie in the process together with [size] bytes. *)
Definition argptr (n size : Z) : K kernel (option Z) :=
  let! i := argint n in
  match i with
  | None => ret None
  | Some i =>
    let! p := me in
    if (proc_sz p <=? u32 i) || (proc_sz p <? u32 (u32 i + size)) then ret None
    else ret (Some (u32 i))
  end.

Definition argstr (n : Z) : K kernel (option (list Z)) :=
  let! addr := argint n in
  match addr with
  | None => ret None
  | Some addr => fetchstr (u32 addr)
  end.

(** A call whose argument is missing returns -1. *)
Notation "'arg!' x ':=' m 'in' k" := (bind m (fun o => match o with Some x => k | None => ret (-1) end))
  (at level 10, x name, m at level 100, k at level 200) : kernel_scope.

(** ** sysproc.c *)

Section sysproc.
Context (devsw : Z -> devsw_t) (kend kdata forkret_addr trapret_addr : Z).

Definition sys_fork : K kernel Z := fork kend kdata forkret_addr trapret_addr.
Definition sys_exit : K kernel Z := exit devsw kend;;; ret 0.
Definition sys_wait : K kernel Z := wait kend.
Definition sys_kill : K kernel Z := arg! pid := argint 0 in kill pid.
Definition sys_getpid : K kernel Z := let! p := me in ret (proc_pid p).

Definition sys_sbrk : K kernel Z :=
  arg! n := argint 0 in
  let! p := me in
  let addr := s32 (proc_sz p) in
  let! r := growproc kend n in
  if r <? 0 then ret (-1) else ret addr.

(** The loop of [sys_sleep], [ticks0] being the time of the call. [ticks - ticks0 < n]
    compares unsigned numbers. *)
Definition sys_sleep_from (n ticks0 : Z) : K kernel Z :=
  let! g := get in
  if u32 (g_ticks g - ticks0) <? u32 n then
    let! p := me in
    if proc_killed p then ret (-1) else sleep CTicks
  else ret 0.

Definition sys_sleep : K kernel Z :=
  arg! n := argint 0 in
  let! g := get in
  sys_sleep_from n (g_ticks g).

Definition sys_uptime : K kernel Z := let! g := get in ret (s32 (g_ticks g)).
End sysproc.

(** ** Checked arguments *)

(** The byte of process [p] at [va], as the kernel reads it. *)
Definition user_byte (g : kernel) (p : proc) (va : Z) : option Z :=
  let m := k_mem (s_kmem (g_sys g)) in
  kaddr m (proc_pgdir p) va 0 ≫= (fun a => m a.1 !! a.2).

Definition user_bytes (g : kernel) (p : proc) (va : Z) (n : nat) : list Z :=
  (fun i => default 0 (user_byte g p (va + Z.of_nat i))) <$> seq 0 n.

(** The address space of the running process: below KERNBASE and mapped up to [sz]. *)
Record user_space (g : kernel) (p : proc) : Prop := {
  us_run : exists i, g_proc g = Some i /\ g_ptable g !! i = Some p;
  us_size : 0 <= proc_sz p <= KERNBASE;
  us_mapped : forall va, 0 <= va < proc_sz p -> is_Some (user_byte g p va)
}.

Section args.
Context (g : kernel) (p : proc) (Hu : user_space g p).

Lemma me_run : me g = Ret p g.
Proof.
  destruct (us_run _ _ Hu) as (i & Hi & Hp). unfold me, myproc, bind, get. rewrite Hi. cbn. by apply getp_eq.
Qed.

Lemma kload_run va : 0 <= va < proc_sz p -> kload va g = Ret (default 0 (user_byte g p va)) g.
Proof.
  intros H. unfold kload, bind at 1. rewrite me_run. unfold bind, get.
  destruct (us_mapped _ _ Hu va H) as [b Hb]. unfold user_byte in *. by rewrite Hb.
Qed.

Lemma user_bytes_S va n : user_bytes g p va (S n) = default 0 (user_byte g p va) :: user_bytes g p (va + 1) n.
Proof.
  unfold user_bytes. rewrite <- cons_seq. cbn [fmap list_fmap]. rewrite Z.add_0_r. f_equal.
  rewrite <- fmap_S_seq, <- list_fmap_compose. apply list_fmap_ext. intros _ j _. cbn. do 2 f_equal. lia.
Qed.

Lemma kloads_run n va : 0 <= va -> va + Z.of_nat n <= proc_sz p -> kloads n va g = Ret (user_bytes g p va n) g.
Proof.
  revert va. induction n as [|n IH]; intros va H0 Hn; [done|]. cbn [kloads]. unfold bind at 1.
  rewrite kload_run by lia. unfold bind. pose proof (us_size _ _ Hu) as Hs. unfold KERNBASE in Hs.
  rewrite u32_small, IH by lia. by rewrite user_bytes_S.
Qed.

Lemma fetchint_run addr : 0 <= addr < 2 ^ 32 ->
  fetchint addr g = Ret (if proc_sz p <? addr + 4 then None else Some (s32 (le_dec (user_bytes g p addr 4)))) g.
Proof.
  intros Ha. unfold fetchint. unfold bind at 1. rewrite me_run. pose proof (us_size _ _ Hu) as Hs. unfold KERNBASE in Hs.
  destruct (Z.leb_spec (proc_sz p) addr) as [H|H]; cbn [orb].
  - by rewrite (proj2 (Z.ltb_lt _ _)) by lia.
  - rewrite u32_small by lia. destruct (Z.ltb_spec (proc_sz p) (addr + 4)); [done|].
    unfold bind. rewrite kloads_run by (cbn; lia). done.
Qed.

(** The string at [addr]: what precedes the first NUL below [sz]. *)
Lemma fetchstr_loop_run n s : 0 <= s -> s + Z.of_nat n <= proc_sz p ->
  exists r, fetchstr_loop n s g = Ret r g /\
    match r with
    | Some l => (length l < n)%nat /\ Forall (fun c => c <> 0) l /\ user_bytes g p s (S (length l)) = l ++ [0]
    | None => Forall (fun c => c <> 0) (user_bytes g p s n)
    end.
Proof.
  revert s. induction n as [|n IH]; intros s H0 Hn; [by exists None|]. cbn [fetchstr_loop]. unfold bind at 1.
  rewrite kload_run by lia. pose proof (user_bytes_S s) as Ec.
  set (c := default 0 (user_byte g p s)) in *. clearbody c. destruct (Z.eqb_spec c 0) as [->|Hc].
  - exists (Some []). split; [done|]. split_and!; [cbn; lia|done|]. by rewrite Ec.
  - destruct (IH (s + 1) ltac:(lia) ltac:(lia)) as (r & E & Hr). unfold bind. rewrite E. eexists. split; [done|].
    destruct r as [l|]; cbn [fmap option_fmap option_map length app].
    + destruct Hr as (Hl & Hz & Eb). split_and!; [lia|by constructor|]. by rewrite Ec, Eb.
    + rewrite Ec. by constructor.
Qed.
End args.

(** The address of argument [n] of a system call. *)
Definition arg_addr (p : proc) (n : Z) : Z := u32 (tf_esp (proc_tf p) + 4 + 4 * n).

(** C17. System call arguments are safe to use. Whatever stack pointer, integers
    and pointers user code passes, fetching them never faults in the kernel and
    changes nothing; [argint] succeeds exactly when the argument word lies in the
    process, and returns it; a pointer accepted by [argptr] for a size that is not
    negative has its whole range inside the process, without wrap-around; a string
    accepted by [argstr] lies in the process up to and including its first NUL. *)
Theorem arguments_checked g p n size : user_space g p -> 0 <= size < 2 ^ 31 ->
  let a := arg_addr p n in
  argint n g = Ret (if proc_sz p <? a + 4 then None else Some (s32 (le_dec (user_bytes g p a 4)))) g /\
  (exists r, argptr n size g = Ret r g /\
     forall q, r = Some q -> q = u32 (le_dec (user_bytes g p a 4)) /\ 0 <= q /\ q < proc_sz p /\ q + size <= proc_sz p) /\
  (exists r, argstr n g = Ret r g /\
     forall s, r = Some s -> exists q, 0 <= q /\ q + Z.of_nat (length s) < proc_sz p /\
       Forall (fun c => c <> 0) s /\ user_bytes g p q (S (length s)) = s ++ [0]).
Proof.
  intros Hu Hsz a. pose proof (us_size _ _ Hu) as Hs. unfold KERNBASE in Hs.
  assert (argint n g = Ret (if proc_sz p <? a + 4 then None else Some (s32 (le_dec (user_bytes g p a 4)))) g) as Ei.
  { unfold argint, bind. rewrite (me_run g p Hu). apply fetchint_run; [done|apply u32_range]. }
  split; [done|]. unfold argptr, argstr. set (w := le_dec (user_bytes g p a 4)) in *. clearbody w.
  unfold bind at 1 3. rewrite Ei. destruct (proc_sz p <? a + 4); [split; by exists None|].
  pose proof (u32_range (s32 w)) as Hr. split.
  - unfold bind. rewrite (me_run g p Hu).
    destruct (Z.leb_spec (proc_sz p) (u32 (s32 w))) as [|H1]; cbn [orb]; [by exists None|].
    rewrite (u32_small (_ + size)) by lia. destruct (Z.ltb_spec (proc_sz p) (u32 (s32 w) + size)) as [|H2]; [by exists None|].
    eexists. split; [done|]. intros q [= <-]. rewrite u32_s32 in *. lia.
  - unfold fetchstr, bind. rewrite (me_run g p Hu).
    destruct (Z.leb_spec (proc_sz p) (u32 (s32 w))) as [|H1]; [by exists None|].
    destruct (fetchstr_loop_run g p Hu (Z.to_nat (proc_sz p - u32 (s32 w))) (u32 (s32 w)) ltac:(lia) ltac:(lia)) as (r & E & H).
    exists r. split; [done|]. intros s ->. destruct H as (Hl & Hz & Eb). exists (u32 (s32 w)). split_and!; [lia|lia|done|done].
Qed.

(** A process of 64 bytes with one page: the arguments 4 and 40 on its stack, and
    the string "hi" at address 40. *)
Definition page_at (off : Z) (l : list Z) : list Z := splice (replicate (Z.to_nat PGSIZE) 0) off l.
Definition small_mem (a : Z) : list Z :=
  if a =? 2149580800 then page_at 0 (le_enc 4 (V2P 2149584896 + 7))
  else if a =? 2149584896 then page_at 0 (le_enc 4 (V2P 2149588992 + 7))
  else if a =? 2149588992 then splice (page_at 20 (le_enc 4 4 ++ le_enc 4 40)) 40 [104; 105; 0]
  else [].
Definition small_tf : trapframe := Trapframe 0 0 0 0 0 0 0 0 0 0 35 35 64 0 0 27 0 16 35.
Definition small_proc : proc :=
  Proc 64 2149580800 0 RUNNING 1 None small_tf (CContext 0 0 0 0 0 0) None false (replicate 16 None) None (replicate 16 0).
Definition small_kernel : kernel :=
  Kernel (set_kmem (Kmem small_mem 0) (bare_sys (iinit (boot ∅ 0)))) [small_proc] 2 (Some 0%nat) (Some 0%nat) 0.

Lemma small_user_space : user_space small_kernel small_proc.
Proof.
  split; [by exists 0%nat|done|].
  assert (forallb (fun va => match user_byte small_kernel small_proc va with Some _ => true | None => false end)
    (seqZ 0 64) = true) as H by (vm_compute; reflexivity).
  intros va Hva. change (proc_sz small_proc) with 64 in Hva. rewrite forallb_forall in H.
  assert (va ∈ seqZ 0 64) as Hin by (apply elem_of_seqZ; lia). specialize (H va (proj1 (list_elem_of_In _ _) Hin)).
  destruct (user_byte small_kernel small_proc va); [by eexists|done].
Qed.

Lemma arguments_checked_witness :
  argint 0 small_kernel = Ret (Some 4) small_kernel /\ argptr 1 20 small_kernel = Ret (Some 40) small_kernel /\
  argstr 1 small_kernel = Ret (Some [104; 105]) small_kernel.
Proof.
  destruct (arguments_checked small_kernel small_proc 0 20 small_user_space ltac:(by split)) as (E & _).
  split; [exact E|]. split; vm_compute; reflexivity.
Defined.

(** A negative size passes the check of [argptr]: a routine that
    takes it for an unsigned count goes past the memory of the process. *)
Lemma argptr_negative_size : argptr 1 (-1) small_kernel = Ret (Some 40) small_kernel.
Proof. vm_compute. reflexivity. Qed.
