(* ===== verification/Exec.v ===== *)
(** [exec] of exec.c: loading an ELF image into a fresh address space, pushing the
    arguments on the user stack, and switching the process over. *)
From S2P Require Import Prelude Bio Log Str Fs Kalloc Vm Pipe File Proc Syscall.

(** ** ELF (elf.h) *)

Definition ELF_MAGIC : Z := 1179403647.
Definition ELF_PROG_LOAD : Z := 1.
Definition SIZEOF_ELFHDR : Z := 52.
Definition SIZEOF_PROGHDR : Z := 32.

(** struct elfhdr: the fields that are used. *)
Record elfhdr := Elfhdr { eh_magic : Z; eh_entry : Z; eh_phoff : Z; eh_phnum : Z }.
Definition get_elfhdr (d : list Z) : elfhdr := Elfhdr (get32 d 0) (get32 d 24) (get32 d 28) (get16 d 44).

(** struct proghdr: the fields that are used. *)
Record proghdr := Proghdr { ph_type : Z; ph_off : Z; ph_vaddr : Z; ph_filesz : Z; ph_memsz : Z }.
Definition get_proghdr (d : list Z) : proghdr :=
  Proghdr (get32 d 0) (get32 d 4) (get32 d 8) (get32 d 16) (get32 d 20).

(** ** The stack *)

Definition MAXARG : Z := 32.

(** One argument string at the top of the stack. *)
Definition arg_sp (sp : Z) (s : list Z) : Z := Z.land (u32 (sp - (Z.of_nat (length s) + 1))) (Z.lnot 3).

(** The loop that copies the strings: the final [sp] and the pointers, or [None]
    when the arguments do not fit. *)
Fixpoint push_args (pgdir sp : Z) (argc : Z) (argv : list (list Z)) (ustack : list Z) : K kmem (option (Z * list Z)) :=
  match argv with
  | [] => ret (Some (sp, ustack))
  | s :: argv' =>
    if MAXARG <=? argc then ret None
    else
    let sp := arg_sp sp s in
    let! r := copyout pgdir sp (s ++ [0]) in
    if r <? 0 then ret None
    else push_args pgdir sp (argc + 1) argv' (ustack ++ [sp])
  end.

(** The words below the strings: fake return address, [argc], [argv], the pointers, 0. *)
Definition stack_words (sp argc : Z) (ptrs : list Z) : list Z :=
  [4294967295; argc; u32 (sp - (argc + 1) * 4)] ++ ptrs ++ [0].

(** The stack of the new program: the final [sp], or [None]. *)
Definition build_stack (pgdir sz : Z) (argv : list (list Z)) : K kmem (option Z) :=
  let! r := push_args pgdir sz 0 argv [] in
  match r with
  | None => ret None
  | Some (sp, ptrs) =>
    let argc := Z.of_nat (length argv) in
    let ustack := stack_words sp argc ptrs in
    let sp := u32 (sp - (3 + argc + 1) * 4) in
    let! r := copyout pgdir sp (ustack ≫= le_enc 4) in
    if r <? 0 then ret None else ret (Some sp)
  end.

(** The last element of the path. *)
Fixpoint last_elem (path last : list Z) : list Z :=
  match path with
  | [] => last
  | c :: path' => if c =? 47 then last_elem path' path' else last_elem path' last
  end.

Section exec.
Context (devsw : Z -> devsw_t) (kend kdata : Z).

(** A routine on memory and the file system. *)
Definition mfs {A} (m : K (kmem * fs) A) : K kernel A :=
  zoom (fun g => (s_kmem (g_sys g), set_cwd (current g ≫= proc_cwd) (s_fs (g_sys g))))
       (fun x g => set_sys (set_kmem x.1 (set_fs x.2 (g_sys g))) g) m.

(** Program headers [off], [off+32], ...: the size of the image, or [None]. *)
Fixpoint load_segments (n : nat) (ip : iptr) (pgdir sz off : Z) : K kernel (option Z) :=
  match n with
  | O => ret (Some sz)
  | S n' =>
    let! rl := fsk (readi devsw ip (u32 off) SIZEOF_PROGHDR) in
    if negb (rl.1 =? SIZEOF_PROGHDR) then ret None
    else
    let ph := get_proghdr rl.2 in
    if negb (ph_type ph =? ELF_PROG_LOAD) then load_segments n' ip pgdir sz (off + SIZEOF_PROGHDR)
    else if ph_memsz ph <? ph_filesz ph then ret None
    else
    let! sz := mm (allocuvm kend pgdir sz (u32 (ph_vaddr ph + ph_memsz ph))) in
    if sz =? 0 then ret None
    else
    let! r := mfs (loaduvm (fun o n => readi devsw ip o n) pgdir (ph_vaddr ph) (ph_off ph) (ph_filesz ph)) in
    if r <? 0 then ret None
    else load_segments n' ip pgdir sz (off + SIZEOF_PROGHDR)
  end.

(** [bad:] *)
Definition exec_bad (pgdir : Z) (ip : iptr) : K kernel Z :=
  (if pgdir =? 0 then ret tt else mm (freevm kend pgdir));;;
  (match ip with None => ret tt | Some _ => fsk (iunlockput devsw ip) end);;;
  ret (-1).

(** The test of the length of the header compares unsigned numbers, so that the
    result -1 of [readi] passes it and leaves the header uninitialised. *)
Definition exec (path : list Z) (argv : list (list Z)) : K kernel Z :=
  let! ip := fsk (namei_trans devsw path) in
  match ip with
  | None => ret (-1)
  | Some _ =>
    let! r := fsk (ilock_trans devsw ip) in
    if negb (r =? 0) then ret E_CORRUPTED
    else
    let! rl := fsk (readi devsw ip 0 SIZEOF_ELFHDR) in
    if u32 rl.1 <? SIZEOF_ELFHDR then exec_bad 0 ip
    else if rl.1 <? 0 then undef "elf uninitialised"
    else
    let elf := get_elfhdr rl.2 in
    if negb (eh_magic elf =? ELF_MAGIC) then exec_bad 0 ip
    else
    let! pgdir := mm (setupkvm kdata) in
    if pgdir =? 0 then exec_bad 0 ip
    else
    let! sz := load_segments (Z.to_nat (eh_phnum elf)) ip pgdir 0 (eh_phoff elf) in
    match sz with
    | None => exec_bad pgdir ip
    | Some sz =>
      fsk (iunlockput devsw ip);;;
      let sz := PGROUNDUP sz in
      let! sz := mm (allocuvm kend pgdir sz (u32 (sz + 2 * PGSIZE))) in
      if sz =? 0 then exec_bad pgdir None
      else
      mm (clearpteu pgdir (u32 (sz - 2 * PGSIZE)));;;
      let! sp := mm (build_stack pgdir sz argv) in
      match sp with
      | None => exec_bad pgdir None
      | Some sp =>
        updme (with_name (safestrcpy (last_elem path path) 16));;;
        let! p := me in
        updme (fun q => with_tf (with_entry (eh_entry elf) sp (proc_tf q)) (with_sz sz (with_pgdir pgdir q)));;;
        mm (freevm kend (proc_pgdir p));;;
        ret 0
      end
    end
  end.
End exec.
