(* ===== verification/Sysfile.v ===== *)
(** The file system calls of sysfile.c: argument checks, descriptors, links,
    creation of files, directories and devices with their dittos, duplication of
    contents into dittos, and pipes. *)
From S2P Require Import Prelude Bio Log Str Fs Kalloc Vm Pipe File Proc Syscall Exec.

(** ** Data *)

Definition O_RDONLY : Z := 0.
Definition O_WRONLY : Z := 1.
Definition O_RDWR : Z := 2.
Definition O_CREATE : Z := 512.
Definition DITTO_LOWER : Z := 3.
Definition DITTO_HIGHER : Z := 6.

Definition DOT : list Z := [46].

(** [ip->major = ...; ip->minor = ...; ip->nlink = 1] *)
Definition with_dev (major minor : Z) (d : dinode) : dinode :=
  Dinode (di_type d) (s16 major) (s16 minor) 1 (di_size d) (di_addrs d) (di_child1 d) (di_child2 d) (di_checksum d).
Definition with_child1 (c : Z) (d : dinode) : dinode :=
  Dinode (di_type d) (di_major d) (di_minor d) (di_nlink d) (di_size d) (di_addrs d) (s16 c) (di_child2 d) (di_checksum d).
Definition with_child2 (c : Z) (d : dinode) : dinode :=
  Dinode (di_type d) (di_major d) (di_minor d) (di_nlink d) (di_size d) (di_addrs d) (di_child1 d) (s16 c) (di_checksum d).

(** ** Work on the file system *)

Section fs_calls.
(** The device switch, and a bound on the depth of the directory tree. *)
Context (devsw : Z -> devsw_t) (levels : nat).

(** [sys_link] after the arguments have been fetched. *)
Definition link_bad (ip : iptr) : K fs Z :=
  ilock devsw ip;;;
  updi ip (upd_d (fun d => with_nlink (s16 (di_nlink d - 1)) d));;;
  iupdate devsw ip;;;
  iunlockput devsw ip;;;
  lg commit_trans;;;
  ret (-1).

Definition link (old new : list Z) : K fs Z :=
  let! ip := namei_trans devsw old in
  match ip with
  | None => ret (-1)
  | Some _ =>
    ilock_trans devsw ip;;;
    lg begin_trans;;;
    let! x := geti ip in
    if i_type x =? T_DIR then iunlockput devsw ip;;; lg commit_trans;;; ret (-1)
    else
    updi ip (upd_d (fun d => with_nlink (s16 (di_nlink d + 1)) d));;;
    iupdate devsw ip;;;
    iunlock ip;;;
    let! r := nameiparent devsw new in
    let dp := r.1 in
    let name := r.2 in
    match dp with
    | None => link_bad ip
    | Some _ =>
      let! r := ilock devsw dp in
      if negb (r =? 0) then panic "sys_link"
      else
      let! d := geti dp in
      let! x := geti ip in
      let! bad := (if negb (i_dev d =? i_dev x) then ret true
                   else let! r := dirlink devsw dp name (i_inum x) in ret (r <? 0)) in
      if bad : bool then iunlockput devsw dp;;; link_bad ip
      else
      iunlockput devsw dp;;;
      iput devsw ip;;;
      lg commit_trans;;;
      ret 0
    end
  end.

(** The loop of [isdirempty]. *)
Fixpoint isdirempty_loop (fuel : nat) (p : iptr) (off : Z) : K fs bool :=
  match fuel with
  | O => nofuel
  | S fuel' =>
    let! dp := geti p in
    if off <? i_size dp then
      let! rl := readi devsw p off SIZEOF_DIRENT in
      if negb (rl.1 =? SIZEOF_DIRENT) then panic "isdirempty: readi"
      else if negb (de_inum rl.2 =? 0) then ret false
      else isdirempty_loop fuel' p (off + SIZEOF_DIRENT)
    else ret true
  end.

Definition isdirempty (p : iptr) : K fs bool :=
  let! fuel := dir_bound p in isdirempty_loop fuel p (2 * SIZEOF_DIRENT).

Definition unlink_bad (dp : iptr) : K fs Z :=
  iunlockput devsw dp;;; lg commit_trans;;; ret (-1).

(** [sys_unlink] after the argument has been fetched. *)
Definition unlink (path : list Z) : K fs Z :=
  let! r := nameiparent_trans devsw path in
  let dp := r.1 in
  let name := r.2 in
  match dp with
  | None => ret (-1)
  | Some _ =>
    lg begin_trans;;;
    let! r := ilock devsw dp in
    if r <? 0 then panic "sys_unlink"
    else if (namecmp name DOT =? 0) || (namecmp name DOTDOT =? 0) then unlink_bad dp
    else
    let! found := dirlookup devsw dp name in
    match found with
    | None => unlink_bad dp
    | Some (i, off) =>
      let ip := Some i in
      let! r := ilock_ext devsw ip false in
      if r <? 0 then panic "sys_unlink"
      else
      let! x := geti ip in
      if i_nlink x <? 1 then panic "unlink: nlink < 1"
      else
      let! full := (if i_type x =? T_DIR then let! e := isdirempty ip in ret (negb e) else ret false) in
      if full : bool then iunlockput devsw ip;;; unlink_bad dp
      else
      let! r := writei devsw dp (replicate (Z.to_nat SIZEOF_DIRENT) 0) off SIZEOF_DIRENT in
      if negb (r =? SIZEOF_DIRENT) then panic "unlink: writei"
      else
      let! x := geti ip in
      (if i_type x =? T_DIR then
         updi dp (upd_d (fun d => with_nlink (s16 (di_nlink d - 1)) d));;; iupdate devsw dp
       else ret tt);;;
      iunlockput devsw dp;;;
      updi ip (upd_d (fun d => with_nlink (s16 (di_nlink d - 1)) d));;;
      iupdate devsw ip;;;
      iunlockput devsw ip;;;
      lg commit_trans;;;
      ret 0
    end
  end.

(** Dittos for a new directory [ip] at distance [dtr] from the root. *)
Definition create_dittos (dev : Z) (ip : iptr) (dtr : Z) : K fs unit :=
  if dtr <? DITTO_LOWER then
    let! child1 := ialloc dev T_DITTO in
    let! child2 := ialloc dev T_DITTO in
    let! c1 := geti child1 in
    updi ip (upd_d (with_child1 (i_inum c1)));;;
    let! c2 := geti child2 in
    updi ip (upd_d (with_child2 (i_inum c2)))
  else if dtr <? DITTO_HIGHER then
    let! child1 := ialloc dev T_DITTO in
    let! c1 := geti child1 in
    updi ip (upd_d (with_child1 (i_inum c1)))
  else ret tt.

(** A locked inode, or null. *)
Definition create (path : list Z) (type major minor : Z) : K fs iptr :=
  let! dtr := distance_to_root devsw levels path in
  let! r := nameiparent_trans devsw path in
  let dp := r.1 in
  let name := r.2 in
  match dp with
  | None => ret None
  | Some _ =>
    ilock devsw dp;;;
    let! found := dirlookup devsw dp name in
    match found with
    | Some (i, _) =>
      let ip := Some i in
      iunlockput devsw dp;;;
      ilock devsw ip;;;
      let! x := geti ip in
      if (type =? T_FILE) && (i_type x =? T_FILE) then ret ip
      else iunlockput devsw ip;;; ret None
    | None =>
      let! d := geti dp in
      let! ip := ialloc (i_dev d) type in
      ilock devsw ip;;;
      updi ip (upd_d (with_dev major minor));;;
      (if (type =? T_DIR) && (dtr <? DITTO_HIGHER) then create_dittos (i_dev d) ip dtr else ret tt);;;
      iupdate devsw ip;;;
      let! x := geti ip in
      (if type =? T_DIR then
         updi dp (upd_d (fun d => with_nlink (s16 (di_nlink d + 1)) d));;;
         iupdate devsw dp;;;
         let! r := dirlink devsw ip DOT (i_inum x) in
         if r <? 0 then panic "create dots"
         else
         let! r := dirlink devsw ip DOTDOT (i_inum d) in
         if r <? 0 then panic "create dots" else ret tt
       else ret tt);;;
      let! r := dirlink devsw dp name (i_inum x) in
      if r <? 0 then panic "create: dirlink"
      else
      iunlockput devsw dp;;;
      ret ip
    end
  end.

(** One chunk of contents into one ditto, in a transaction of its own. *)
Definition propagate_to (ip : iptr) (dev child off n1 : Z) : K fs unit :=
  lg begin_trans;;;
  (if child =? 0 then ret tt
   else
   let! ic := iget dev (u32 child) in
   ilock_ext devsw ic false;;;
   iduplicate devsw ip ic off n1;;;
   iunlock ic);;;
  lg commit_trans.

Fixpoint ipropagate_loop (fuel : nat) (ip : iptr) (n i off : Z) : K fs unit :=
  match fuel with
  | O => nofuel
  | S fuel' =>
    if i <? n then
      let n1 := Z.min (n - i) FILE_MAX in
      let! x := geti ip in
      propagate_to ip (i_dev x) (i_child1 x) off n1;;;
      let! x := geti ip in
      propagate_to ip (i_dev x) (i_child2 x) off n1;;;
      ipropagate_loop fuel' ip n (i + n1) (u32 (off + n1))
    else ret tt
  end.

Definition ipropagate (ip : iptr) : K fs unit :=
  let! x := geti ip in
  let n := s32 (i_size x) in
  ipropagate_loop (Z.to_nat (n / FILE_MAX + 2)) ip n 0 0.

(** The inode is unlocked and released when it is returned. *)
Definition duplicate (path : list Z) (ndittos : Z) : K fs iptr :=
  let! ip := namei_trans devsw path in
  match ip with
  | None => ret None
  | Some _ =>
    let! r := ilock_trans devsw ip in
    if r =? E_CORRUPTED then ret None
    else
    lg begin_trans;;;
    let! x := geti ip in
    if (0 <? ndittos) && negb (i_child1 x =? 0) then ret None
    else
    (if 0 <? ndittos then
       let! child1 := ialloc (i_dev x) T_DITTO in
       let! c1 := geti child1 in
       updi ip (upd_d (with_child1 (i_inum c1)))
     else ret tt);;;
    let! x := geti ip in
    if (1 <? ndittos) && negb (i_child2 x =? 0) then ret None
    else
    (if 1 <? ndittos then
       let! child2 := ialloc (i_dev x) T_DITTO in
       let! c2 := geti child2 in
       updi ip (upd_d (with_child2 (i_inum c2)))
     else ret tt);;;
    lg commit_trans;;;
    ipropagate ip;;;
    lg begin_trans;;;
    iupdate devsw ip;;;
    iunlockput devsw ip;;;
    lg commit_trans;;;
    ret ip
  end.
End fs_calls.

(** ** Descriptors *)

(** The descriptor and the file, or the negative result. *)
Definition argfd (n : Z) : K kernel (Z + Z * nat) :=
  let! fd := argint n in
  match fd with
  | None => ret (inl (-1))
  | Some fd =>
    if (fd <? 0) || (NOFILE <=? fd) then ret (inl (-2))
    else
    let! p := me in
    let! f := lift_opt "proc->ofile index" (proc_ofile p !! Z.to_nat fd) in
    match f with
    | None => ret (inl (-2))
    | Some f => ret (inr (fd, f))
    end
  end.

Definition fdalloc (f : nat) : K kernel Z :=
  let! p := me in
  match index_of (fun o : option nat => bool_decide (o = None)) (proc_ofile p) with
  | None => ret (-1)
  | Some fd => updme (with_ofile fd (Some f));;; ret (Z.of_nat fd)
  end.

Section calls.
Context (devsw : Z -> devsw_t) (levels : nat) (kend : Z).

(** A call whose descriptor is not open returns -1. *)
Notation "'fd!' x ':=' m 'in' k" := (bind m (fun o => match o with inr x => k | inl _ => ret (-1) end))
  (at level 10, x name, m at level 100, k at level 200).

Definition sys_dup : K kernel Z :=
  fd! a := argfd 0 in
  let! fd := fdalloc a.2 in
  if fd <? 0 then ret (-1) else fl (filedup a.2);;; ret fd.

Definition sys_read : K kernel Z :=
  fd! a := argfd 0 in
  arg! n := argint 2 in
  arg! p := argptr 1 n in
  let! me := me in
  let! rl := fl (fileread devsw (proc_killed me) a.2 n) in
  kstores rl.2 p;;;
  ret rl.1.

(** The bytes at [p] are fetched before they are written; a negative [n] fetches none. *)
Definition sys_write : K kernel Z :=
  fd! a := argfd 0 in
  arg! n := argint 2 in
  arg! p := argptr 1 n in
  let! me := me in
  let! l := kloads (Z.to_nat n) p in
  fl (filewrite devsw (proc_killed me) a.2 l n).

Definition sys_close : K kernel Z :=
  fd! a := argfd 0 in
  updme (with_ofile (Z.to_nat a.1) None);;;
  fl (fileclose devsw kend a.2);;;
  ret 0.

(** struct stat in memory: the fields are at offsets 0, 4, 8, 12, 16, 20, 22, 24. *)
Definition SIZEOF_STAT : Z := 28.
Definition store_stat (a : Z) (st : stat) : K kernel unit :=
  kstores (le_enc 2 (st_type st)) a;;;
  kstores (le_enc 4 (st_dev st)) (u32 (a + 4));;;
  kstores (le_enc 4 (st_ino st)) (u32 (a + 8));;;
  kstores (le_enc 2 (st_nlink st)) (u32 (a + 12));;;
  kstores (le_enc 4 (st_sz st)) (u32 (a + 16));;;
  kstores (le_enc 2 (st_child1 st)) (u32 (a + 20));;;
  kstores (le_enc 2 (st_child2 st)) (u32 (a + 22));;;
  kstores (le_enc 4 (st_checksum st)) (u32 (a + 24)).

Definition sys_fstat : K kernel Z :=
  fd! a := argfd 0 in
  arg! p := argptr 1 SIZEOF_STAT in
  let! r := fl (filestat devsw a.2) in
  (match r.2 with Some st => store_stat p st | None => ret tt end);;;
  ret r.1.

(** ** Names *)

Definition sys_link : K kernel Z :=
  arg! old := argstr 0 in
  arg! new := argstr 1 in
  fsk (link devsw old new).

Definition sys_unlink : K kernel Z :=
  arg! path := argstr 0 in
  fsk (unlink devsw path).

(** An open file for the locked inode [ip]; [fail] is the result when there is no
    file or no descriptor. *)
Definition open_file (ip : iptr) (fail : Z) : K kernel (Z + Z * nat) :=
  let! f := fl filealloc in
  match f with
  | None => fsk (iunlockput devsw ip);;; ret (inl fail)
  | Some f =>
    let! fd := fdalloc f in
    if fd <? 0 then
      fl (fileclose devsw kend f);;; fsk (iunlockput devsw ip);;; ret (inl fail)
    else ret (inr (fd, f))
  end.

(** The fields of the new file. *)
Definition inode_file (ip : iptr) (omode : Z) (x : file) : file :=
  File FD_INODE (fl_ref x) (negb (flag omode O_WRONLY)) (flag omode O_WRONLY || flag omode O_RDWR)
    (fl_pipe x) ip 0.

(** [open] from the inode on, shared by the four calls that open files. *)
Definition finish_open (ip : iptr) (omode fail : Z) : K kernel Z :=
  let! r := open_file ip fail in
  match r with
  | inl e => ret e
  | inr (fd, f) =>
    fsk (iunlock ip);;;
    fl (updf f (inode_file ip omode));;;
    ret fd
  end.

Definition create_file (path : list Z) : K kernel iptr :=
  fsk (lg begin_trans;;;
       let! ip := create devsw levels path T_FILE 1 0 in
       lg commit_trans;;;
       ret ip).

Definition sys_open : K kernel Z :=
  arg! path := argstr 0 in
  arg! omode := argint 1 in
  if flag omode O_CREATE then
    let! ip := create_file path in
    match ip with
    | None => ret (-1)
    | Some _ => finish_open ip omode (-1)
    end
  else
  let! ip := fsk (namei_trans devsw path) in
  match ip with
  | None => ret (-1)
  | Some _ =>
    let! r := fsk (ilock_trans devsw ip) in
    if r =? E_CORRUPTED then ret E_CORRUPTED
    else
    let! x := fsk (geti ip) in
    if (i_type x =? T_DIR) && negb (omode =? O_RDONLY) then fsk (iunlockput devsw ip);;; ret (-1)
    else finish_open ip omode (-1)
  end.

Definition sys_forceopen : K kernel Z :=
  arg! path := argstr 0 in
  arg! omode := argint 1 in
  if flag omode O_CREATE then
    let! ip := create_file path in
    match ip with
    | None => ret (-1)
    | Some _ => finish_open ip omode (-1)
    end
  else
  let! ip := fsk (namei_trans devsw path) in
  match ip with
  | None => ret (-1)
  | Some _ =>
    fsk (ilock_ext devsw ip false);;;
    let! x := fsk (geti ip) in
    if (i_type x =? T_DIR) && negb (omode =? O_RDONLY) then fsk (iunlockput devsw ip);;; ret (-1)
    else finish_open ip omode (-1)
  end.

Definition sys_iopen : K kernel Z :=
  arg! dev := argint 0 in
  arg! inum := argint 1 in
  let! ip := fsk (iget (u32 dev) (u32 inum)) in
  match ip with
  | None => ret (-2)
  | Some _ =>
    let! r := fsk (ilock_trans devsw ip) in
    if r =? E_CORRUPTED then ret E_CORRUPTED
    else if negb (r =? 0) then ret (-4)
    else finish_open ip 0 (-3)
  end.

(** The result is the checksum; errors come back as unsigned numbers. *)
Definition sys_ichecksum : K kernel Z :=
  let! dev := argint 0 in
  match dev with
  | None => ret (u32 (-1))
  | Some dev =>
    let! inum := argint 1 in
    match inum with
    | None => ret (u32 (-1))
    | Some inum =>
      let! ip := fsk (iget (u32 dev) (u32 inum)) in
      match ip with
      | None => ret (u32 (-2))
      | Some _ =>
        let! r := fsk (ilock_trans devsw ip) in
        if r =? E_CORRUPTED then ret (u32 E_CORRUPTED)
        else
        let! r := open_file ip (-3) in
        match r with
        | inl e => ret (u32 e)
        | inr (fd, f) =>
          let! cs := fsk (ichecksum devsw ip) in
          fsk (iunlock ip);;;
          fl (updf f (inode_file ip 0));;;
          updme (with_ofile (Z.to_nat fd) None);;;
          fl (fileclose devsw kend f);;;
          ret cs
        end
      end
    end
  end.

Definition sys_mkdir : K kernel Z :=
  fsk (lg begin_trans);;;
  let! path := argstr 0 in
  let! ip := (match path with
              | None => ret None
              | Some path => fsk (create devsw levels path T_DIR 0 0)
              end) in
  match ip with
  | None => fsk (lg commit_trans);;; ret (-1)
  | Some _ => fsk (iunlockput devsw ip;;; lg commit_trans);;; ret 0
  end.

Definition sys_duplicate : K kernel Z :=
  arg! path := argstr 0 in
  arg! ndittos := argint 1 in
  let! ip := fsk (duplicate devsw path ndittos) in
  match ip with None => ret (-1) | Some _ => ret 0 end.

Definition sys_mknod : K kernel Z :=
  fsk (lg begin_trans);;;
  let! path := argstr 0 in
  let! ip := (match path with
              | None => ret None
              | Some path =>
                let! major := argint 1 in
                match major with
                | None => ret None
                | Some major =>
                  let! minor := argint 2 in
                  match minor with
                  | None => ret None
                  | Some minor => fsk (create devsw levels path T_DEV major minor)
                  end
                end
              end) in
  match ip with
  | None => fsk (lg commit_trans);;; ret (-1)
  | Some _ => fsk (iunlockput devsw ip;;; lg commit_trans);;; ret 0
  end.

Definition sys_chdir : K kernel Z :=
  arg! path := argstr 0 in
  let! ip := fsk (namei_trans devsw path) in
  match ip with
  | None => ret (-1)
  | Some _ =>
    let! r := fsk (ilock devsw ip) in
    if r =? E_CORRUPTED then ret E_CORRUPTED
    else
    let! x := fsk (geti ip) in
    if negb (i_type x =? T_DIR) then fsk (iunlockput devsw ip);;; ret (-1)
    else
    fsk (iunlock ip);;;
    let! p := me in
    fsk (iput devsw (proc_cwd p));;;
    updme (with_cwd ip);;;
    ret 0
  end.

(** The argument vector at [uargv]: [n] entries of [argv] are left. *)
Fixpoint fetch_argv (n : nat) (uargv : Z) : K kernel (option (list (list Z))) :=
  match n with
  | O => ret None
  | S n' =>
    let! uarg := fetchint uargv in
    match uarg with
    | None => ret None
    | Some uarg =>
      if uarg =? 0 then ret (Some [])
      else
      let! s := fetchstr (u32 uarg) in
      match s with
      | None => ret None
      | Some s => let! r := fetch_argv n' (u32 (uargv + 4)) in ret ((fun l => s :: l) <$> r)
      end
    end
  end.

Definition sys_exec (kdata : Z) : K kernel Z :=
  arg! path := argstr 0 in
  arg! uargv := argint 1 in
  arg! argv := fetch_argv (Z.to_nat MAXARG) (u32 uargv) in
  exec devsw kend kdata path argv.

(** ** Pipes *)

Definition sys_pipe : K kernel Z :=
  arg! a := argptr 0 8 in
  let! r := fl (pipealloc devsw kend) in
  match r with
  | None => ret (-1)
  | Some (rf, wf) =>
    let! fd0 := fdalloc rf in
    if fd0 <? 0 then fl (fileclose devsw kend rf);;; fl (fileclose devsw kend wf);;; ret (-1)
    else
    let! fd1 := fdalloc wf in
    if fd1 <? 0 then
      updme (with_ofile (Z.to_nat fd0) None);;;
      fl (fileclose devsw kend rf);;; fl (fileclose devsw kend wf);;; ret (-1)
    else
    kstores (le_enc 4 fd0) a;;;
    kstores (le_enc 4 fd1) (u32 (a + 4));;;
    ret 0
  end.

(** ** The table of system calls (syscall.c) *)

Definition syscalls (kdata fr tr : Z) (num : Z) : option (K kernel Z) :=
  if num =? 1 then Some (sys_fork kend kdata fr tr)
  else if num =? 2 then Some (sys_exit devsw kend)
  else if num =? 3 then Some (sys_wait kend)
  else if num =? 4 then Some sys_pipe
  else if num =? 5 then Some sys_read
  else if num =? 6 then Some sys_kill
  else if num =? 7 then Some (sys_exec kdata)
  else if num =? 8 then Some sys_fstat
  else if num =? 9 then Some sys_chdir
  else if num =? 10 then Some sys_dup
  else if num =? 11 then Some sys_getpid
  else if num =? 12 then Some (sys_sbrk kend)
  else if num =? 13 then Some sys_sleep
  else if num =? 14 then Some sys_uptime
  else if num =? 15 then Some sys_open
  else if num =? 16 then Some sys_write
  else if num =? 17 then Some sys_mknod
  else if num =? 18 then Some sys_unlink
  else if num =? 19 then Some sys_link
  else if num =? 20 then Some sys_mkdir
  else if num =? 21 then Some sys_close
  else if num =? 22 then Some sys_iopen
  else if num =? 23 then Some sys_ichecksum
  else if num =? 24 then Some sys_duplicate
  else if num =? 25 then Some sys_forceopen
  else None.

Definition syscall (kdata fr tr : Z) : K kernel unit :=
  let! p := me in
  let num := s32 (tf_eax (proc_tf p)) in
  let! r := (match syscalls kdata fr tr num with Some call => call | None => ret (-1) end) in
  updme (fun q => with_tf (with_eax (u32 r) (proc_tf q)) q).
End calls.
