(* ===== verification/Sh.v ===== *)
(** The shell's parser (sh.c): the tokenizer, the recursive descent over a
    command line in memory, the command nodes it builds in the heap, and the pass
    that terminates the words in place. *)
From S2P Require Import Prelude Str Sysfile.

(** ** Commands in memory

    A [char *] into the line is an index into [sh_mem]; a [struct cmd *] is an
    index into [sh_heap], [None] if null. [sh_pos] is the variable [s] of [parsecmd],
    which the other routines advance through [ps]. [sh_room] is the number of
    nodes [malloc] can still provide. *)
Definition ptr : Type := option nat.
Definition MAXARGS : nat := 10.

Inductive cmd :=
| Execcmd (argv eargv : list (option nat))
| Redircmd (c : ptr) (file efile : nat) (mode fd : Z)
| Pipecmd (left right : ptr)
| Listcmd (left right : ptr)
| Backcmd (c : ptr).

Record sh := Sh { sh_mem : list Z; sh_pos : nat; sh_heap : list cmd; sh_room : nat }.

Definition set_line (m : list Z) (σ : sh) : sh := Sh m (sh_pos σ) (sh_heap σ) (sh_room σ).
Definition set_pos (s : nat) (σ : sh) : sh := Sh (sh_mem σ) s (sh_heap σ) (sh_room σ).
Definition set_heap (h : list cmd) (σ : sh) : sh := Sh (sh_mem σ) (sh_pos σ) h (sh_room σ).

(** [*s] *)
Definition load (s : nat) : K sh Z := let! m := gets sh_mem in lift_opt "sh: read outside the line" (m !! s).

(** [*s = c] *)
Definition store (s : nat) (c : Z) : K sh unit :=
  let! m := gets sh_mem in
  match m !! s with
  | Some _ => modify (set_line (<[s := c]> m))
  | None => undef "sh: write outside the line"
  end.

(** ** Constructors

    The result of [malloc] is used without a test. *)
Definition new_cmd (c : cmd) : K sh ptr := fun σ =>
  match sh_room σ with
  | O => Undef "sh: memset through a null pointer"
  | S r => Ret (Some (length (sh_heap σ))) (Sh (sh_mem σ) (sh_pos σ) (sh_heap σ ++ [c]) r)
  end.

Definition execcmd : K sh ptr := new_cmd (Execcmd (replicate MAXARGS None) (replicate MAXARGS None)).
Definition redircmd (subcmd : ptr) (file efile : nat) (mode fd : Z) : K sh ptr :=
  new_cmd (Redircmd subcmd file efile mode fd).
Definition pipecmd (left right : ptr) : K sh ptr := new_cmd (Pipecmd left right).
Definition listcmd (left right : ptr) : K sh ptr := new_cmd (Listcmd left right).
Definition backcmd (subcmd : ptr) : K sh ptr := new_cmd (Backcmd subcmd).

(** ** Tokens *)

Definition whitespace : list Z := [32; 9; 13; 10; 11].
Definition symbols : list Z := lit "<|>&;()".

Definition among (set : list Z) (c : Z) : bool := match strchr set c with Some _ => true | None => false end.
Definition white (c : Z) : bool := among whitespace c.
Definition wordchar (c : Z) : bool := negb (white c) && negb (among symbols c).

(** [while(s < es && p( *s)) s++], with [n = es - s]. *)
Fixpoint skip (p : Z -> bool) (n s : nat) : K sh nat :=
  match n with
  | O => ret s
  | S n' => let! c := load s in if p c then skip p n' (S s) else ret s
  end.

(** [switch( *s)] of [gettoken] on the character [c] at [s]: [ret] and the new [s]. *)
Definition tokswitch (es s : nat) (c : Z) : K sh (Z * nat) :=
  if c =? 0 then ret (c, s)
  else if among (lit "|();&<") c then ret (c, S s)
  else if c =? 62 then
    let! c' := load (S s) in
    if c' =? 62 then ret (43, S (S s)) else ret (c, S s)
  else let! s := skip wordchar (es - s) s in ret (97, s).

(** The result is the token, [*q] and [*eq]. *)
Definition gettoken (es : nat) : K sh (Z * nat * nat) :=
  let! s := gets sh_pos in
  let! q := skip white (es - s) s in
  let! c := load q in
  let! (r, eq) := tokswitch es q c in
  let! s := skip white (es - eq) eq in
  modify (set_pos s);;; ret (r, q, eq).

Definition peek (es : nat) (toks : string) : K sh bool :=
  let! s := gets sh_pos in
  let! s := skip white (es - s) s in
  modify (set_pos s);;;
  let! c := load s in
  ret (negb (c =? 0) && among (lit toks) c).

(** ** Parsing

    [fuel] bounds the depth of the recursion and the iterations of the loops. *)
Fixpoint parseredirs (fuel es : nat) (cmd : ptr) : K sh ptr :=
  match fuel with
  | O => nofuel
  | S f =>
    let! more := peek es "<>" in
    if more then
      let! (tok, _, _) := gettoken es in
      let! (w, q, eq) := gettoken es in
      if negb (w =? 97) then panic "missing file for redirection" else
      let! cmd :=
        if tok =? 60 then redircmd cmd q eq O_RDONLY 0
        else if tok =? 62 then redircmd cmd q eq (Z.lor O_WRONLY O_CREATE) 1
        else if tok =? 43 then redircmd cmd q eq (Z.lor O_WRONLY O_CREATE) 1
        else ret cmd in
      parseredirs f es cmd
    else ret cmd
  end.

(** [cmd->argv[argc] = q; cmd->eargv[argc] = eq] for the [struct execcmd] at [a]. *)
Definition set_arg (a : ptr) (argc : nat) (q eq : option nat) : K sh unit :=
  let! h := gets sh_heap in
  match a with
  | Some i =>
    match h !! i with
    | Some (Execcmd argv eargv) =>
      if (argc <? MAXARGS)%nat then modify (set_heap (<[i := Execcmd (<[argc := q]> argv) (<[argc := eq]> eargv)]> h))
      else undef "sh: argv index out of range"
    | _ => undef "sh: not an execcmd"
    end
  | None => undef "sh: write through a null pointer"
  end.

(** The loop of [parseexec]: the final [argc] and [ret]. *)
Fixpoint parseargs (fuel es : nat) (cmd : ptr) (argc : nat) (r : ptr) : K sh (nat * ptr) :=
  match fuel with
  | O => nofuel
  | S f =>
    let! stop := peek es "|)&;" in
    if stop then ret (argc, r) else
    let! (tok, q, eq) := gettoken es in
    if tok =? 0 then ret (argc, r)
    else if negb (tok =? 97) then panic "syntax"
    else
      set_arg cmd argc (Some q) (Some eq);;;
      if (MAXARGS <=? S argc)%nat then panic "too many args" else
      let! r := parseredirs f es r in
      parseargs f es cmd (S argc) r
  end.

(** [while(peek(ps, es, "&")) ...] of [parseline]. *)
Fixpoint parseback (fuel es : nat) (cmd : ptr) : K sh ptr :=
  match fuel with
  | O => nofuel
  | S f =>
    let! more := peek es "&" in
    if more then
      gettoken es;;;
      let! cmd := backcmd cmd in
      parseback f es cmd
    else ret cmd
  end.

Fixpoint parseline (fuel es : nat) : K sh ptr :=
  match fuel with
  | O => nofuel
  | S f =>
    let! cmd := parsepipe f es in
    let! cmd := parseback f es cmd in
    let! more := peek es ";" in
    if more then
      gettoken es;;;
      let! rest := parseline f es in
      listcmd cmd rest
    else ret cmd
  end
with parsepipe (fuel es : nat) : K sh ptr :=
  match fuel with
  | O => nofuel
  | S f =>
    let! cmd := parseexec f es in
    let! more := peek es "|" in
    if more then
      gettoken es;;;
      let! rest := parsepipe f es in
      pipecmd cmd rest
    else ret cmd
  end
with parseexec (fuel es : nat) : K sh ptr :=
  match fuel with
  | O => nofuel
  | S f =>
    let! block := peek es "(" in
    if block then parseblock f es else
    let! cmd := execcmd in
    let! r := parseredirs f es cmd in
    let! (argc, r) := parseargs f es cmd 0 r in
    set_arg cmd argc None None;;;
    ret r
  end
with parseblock (fuel es : nat) : K sh ptr :=
  match fuel with
  | O => nofuel
  | S f =>
    let! open := peek es "(" in
    if negb open then panic "parseblock" else
    gettoken es;;;
    let! cmd := parseline f es in
    let! close := peek es ")" in
    if negb close then panic "syntax - missing )" else
    gettoken es;;;
    parseredirs f es cmd
  end.

(** ** Terminating the words *)

(** [for(i=0; ecmd->argv[i]; i++) *ecmd->eargv[i] = 0] *)
Fixpoint end_args (argv eargv : list (option nat)) : K sh unit :=
  match argv, eargv with
  | Some _ :: argv', Some e :: eargv' => store e 0;;; end_args argv' eargv'
  | Some _ :: _, _ => undef "sh: write through a null pointer"
  | None :: _, _ => ret tt
  | [], _ => undef "sh: argv index out of range"
  end.

Fixpoint nulterminate (fuel : nat) (c : ptr) : K sh ptr :=
  match fuel with
  | O => nofuel
  | S f =>
    match c with
    | None => ret None
    | Some i =>
      let! h := gets sh_heap in
      let! n := lift_opt "sh: bad command pointer" (h !! i) in
      match n with
      | Execcmd argv eargv => end_args argv eargv
      | Redircmd sub _ efile _ _ => nulterminate f sub;;; store efile 0
      | Pipecmd l r => nulterminate f l;;; nulterminate f r;;; ret tt
      | Listcmd l r => nulterminate f l;;; nulterminate f r;;; ret tt
      | Backcmd sub => nulterminate f sub;;; ret tt
      end;;;
      ret c
    end
  end.

(** Every call of a parsing routine but a constant number per token consumes one,
    and a tree has no more levels than nodes. *)
Definition parse_fuel (n : nat) : nat := (4 * n + 5)%nat.

(** [parsecmd(s)] with [s] the start of the memory. Before the panic for leftovers
    the shell prints them. *)
Definition parsecmd : K sh ptr :=
  modify (set_pos 0);;;
  let! m := gets sh_mem in
  let es := Z.to_nat (strlen m) in
  let! cmd := parseline (parse_fuel es) es in
  peek es "";;;
  let! s := gets sh_pos in
  if negb (s =? es)%nat then panic "syntax" else
  let! h := gets sh_heap in
  nulterminate (S (length h)) cmd;;;
  ret cmd.
