(* ===== verification/ShGrammar.v ===== *)
(** The language of the shell's command lines: tokens, a grammar, and a recursive
    descent parser on lists of tokens which accepts exactly the grammar and always
    ends. The parser of sh.c is compared with it in ShParse. *)
From S2P Require Import Prelude Str Sysfile Sh.

(** ** Tokens and trees *)

(** [Sym 43] is [>>]. *)
Inductive token := Sym (c : Z) | Word (w : list Z).

Inductive tree :=
| TExec (argv : list (list Z))
| TRedir (t : tree) (file : list Z) (mode fd : Z)
| TPipe (l r : tree)
| TList (l r : tree)
| TBack (t : tree).

Fixpoint lex (l : list Z) : list token :=
  match l with
  | [] => []
  | c :: l' =>
    if white c then lex l'
    else if c =? 62 then
      match l' with
      | c' :: l'' => if c' =? 62 then Sym 43 :: lex l'' else Sym c :: lex l'
      | [] => [Sym c]
      end
    else if among symbols c then Sym c :: lex l'
    else
      match l' with
      | c' :: _ =>
        if wordchar c' then match lex l' with Word w :: ts => Word (c :: w) :: ts | ts => ts end
        else Word [c] :: lex l'
      | [] => [Word [c]]
      end
  end.

(** ** The grammar *)

Definition redir_of (t : tree) (r : Z * list Z) : tree :=
  if r.1 =? 60 then TRedir t r.2 O_RDONLY 0 else TRedir t r.2 (Z.lor O_WRONLY O_CREATE) 1.
Definition wrap : tree -> list (Z * list Z) -> tree := foldl redir_of.

(** Words and redirections in any order. *)
Inductive items : list token -> list (list Z) -> list (Z * list Z) -> Prop :=
| items_nil : items [] [] []
| items_word w ts args rs : items ts args rs -> items (Word w :: ts) (w :: args) rs
| items_redir c w ts args rs :
    c ∈ [60; 62; 43] -> items ts args rs -> items (Sym c :: Word w :: ts) args ((c, w) :: rs).

Inductive Line : list token -> tree -> Prop :=
| Line_last n ts t : Pipe ts t -> Line (ts ++ replicate n (Sym 38)) (Nat.iter n TBack t)
| Line_more n ts t ts' t' : Pipe ts t -> Line ts' t' ->
    Line (ts ++ replicate n (Sym 38) ++ Sym 59 :: ts') (TList (Nat.iter n TBack t) t')
with Pipe : list token -> tree -> Prop :=
| Pipe_last ts t : Exec ts t -> Pipe ts t
| Pipe_more ts t ts' t' : Exec ts t -> Pipe ts' t' -> Pipe (ts ++ Sym 124 :: ts') (TPipe t t')
with Exec : list token -> tree -> Prop :=
| Exec_simple ts args rs : items ts args rs -> (length args < MAXARGS)%nat -> Exec ts (wrap (TExec args) rs)
| Exec_block ts t rts rs : Line ts t -> items rts [] rs -> Exec (Sym 40 :: ts ++ Sym 41 :: rts) (wrap t rs).

(** ** The parser on tokens *)

Definition first_in (toks : string) (ts : list token) : bool :=
  match ts with
  | Sym c :: _ => among (lit toks) (if c =? 43 then 62 else c)
  | _ => false
  end.
Definition tpeek (toks : string) : K (list token) bool := gets (first_in toks).
Definition tnext : K (list token) (option token) := fun ts => Ret (head ts) (tail ts).

Fixpoint tredirs (fuel : nat) (rs : list (Z * list Z)) : K (list token) (list (Z * list Z)) :=
  match fuel with
  | O => nofuel
  | S f =>
    let! more := tpeek "<>" in
    if more then
      let! tok := tnext in
      let! w := tnext in
      match tok, w with
      | Some (Sym c), Some (Word w) => tredirs f (rs ++ [(c, w)])
      | _, _ => panic "missing file for redirection"
      end
    else ret rs
  end.

Fixpoint targs (fuel : nat) (args : list (list Z)) (rs : list (Z * list Z)) :
  K (list token) (list (list Z) * list (Z * list Z)) :=
  match fuel with
  | O => nofuel
  | S f =>
    let! stop := tpeek "|)&;" in
    if stop then ret (args, rs) else
    let! tok := tnext in
    match tok with
    | None => ret (args, rs)
    | Some (Sym _) => panic "syntax"
    | Some (Word w) =>
      if (MAXARGS <=? S (length args))%nat then panic "too many args" else
      let! rs := tredirs f rs in
      targs f (args ++ [w]) rs
    end
  end.

Fixpoint tback (fuel : nat) (t : tree) : K (list token) tree :=
  match fuel with
  | O => nofuel
  | S f =>
    let! more := tpeek "&" in
    if more then tnext;;; tback f (TBack t) else ret t
  end.

Fixpoint tline (fuel : nat) : K (list token) tree :=
  match fuel with
  | O => nofuel
  | S f =>
    let! t := tpipe f in
    let! t := tback f t in
    let! more := tpeek ";" in
    if more then tnext;;; let! t' := tline f in ret (TList t t') else ret t
  end
with tpipe (fuel : nat) : K (list token) tree :=
  match fuel with
  | O => nofuel
  | S f =>
    let! t := texec f in
    let! more := tpeek "|" in
    if more then tnext;;; let! t' := tpipe f in ret (TPipe t t') else ret t
  end
with texec (fuel : nat) : K (list token) tree :=
  match fuel with
  | O => nofuel
  | S f =>
    let! block := tpeek "(" in
    if block then tblock f else
    let! rs := tredirs f [] in
    let! (args, rs) := targs f [] rs in
    ret (wrap (TExec args) rs)
  end
with tblock (fuel : nat) : K (list token) tree :=
  match fuel with
  | O => nofuel
  | S f =>
    let! open := tpeek "(" in
    if negb open then panic "parseblock" else
    tnext;;;
    let! t := tline f in
    let! close := tpeek ")" in
    if negb close then panic "syntax - missing )" else
    tnext;;;
    let! rs := tredirs f [] in
    ret (wrap t rs)
  end.

(** ** First tokens *)

Lemma among_elem set c : Forall (fun x => x <> 0) set -> among set c = true <-> c ∈ set.
Proof.
  unfold among. induction 1 as [|x set Hx _ IH]; [by rewrite elem_of_nil|].
  cbn [strchr]. rewrite (proj2 (Z.eqb_neq x 0)) by done. rewrite elem_of_cons, <-IH.
  destruct (Z.eqb_spec x c) as [->|Hc]; [by split; auto|]. split; [by right|by intros [->|?]].
Qed.

Lemma first_in_true toks ts : first_in toks ts = true -> exists c ts', ts = Sym c :: ts'.
Proof. destruct ts as [|[c|w] ts]; [done|by exists c, ts|done]. Qed.

Lemma redir_cases c : among (lit "<>") (if c =? 43 then 62 else c) = true <-> c ∈ [60; 62; 43].
Proof.
  rewrite among_elem by by_evaluation. change (lit "<>") with [60; 62]. rewrite !elem_of_cons, !elem_of_nil.
  destruct (Z.eqb_spec c 43); naive_solver.
Qed.

(** One symbol, for the sets of one symbol the parser asks for. *)
Lemma first_in_one toks c ts : lit toks = [c] -> c <> 0 -> c <> 62 -> c <> 43 -> first_in toks ts = true ->
  ts = Sym c :: tail ts.
Proof.
  intros El H0 H62 H43 Hf. destruct (first_in_true _ _ Hf) as (d & ts' & ->). cbn [first_in] in Hf. rewrite El in Hf.
  apply among_elem in Hf; [|by constructor]. apply list_elem_of_singleton in Hf. destruct (Z.eqb_spec d 43); [by subst|].
  by subst d.
Qed.

Lemma bind_NoFuel {S A B} (m : K S A) (f : A -> K S B) s :
  bind m f s = NoFuel -> m s = NoFuel \/ exists a s', m s = Ret a s' /\ f a s' = NoFuel.
Proof. unfold bind. destruct (m s) as [a s'| | | |]; intros H; try done; [right; by exists a, s'|by left]. Qed.

(** ** What the parser accepts is in the grammar *)

Lemma items_app ts1 ts2 a1 a2 r1 r2 : items ts1 a1 r1 -> items ts2 a2 r2 -> items (ts1 ++ ts2) (a1 ++ a2) (r1 ++ r2).
Proof. induction 1; intros; cbn; [done|by constructor; auto..]. Qed.

Lemma tredirs_sound f : forall rs ts rs' ts', tredirs f rs ts = Ret rs' ts' ->
  exists used more, ts = used ++ ts' /\ rs' = rs ++ more /\ items used [] more.
Proof.
  induction f as [|f IH]; intros rs ts rs' ts' H; [done|]. cbn [tredirs] in H.
  unfold bind, tpeek, gets in H. destruct (first_in "<>" ts) eqn:Hf.
  - destruct (first_in_true _ _ Hf) as (c & ts1 & ->). unfold tnext in H. cbn [head tail] in H. destruct ts1 as [|[|w] ts1]; [done|done|]. cbn [head tail] in H.
    apply IH in H as (used & more & -> & -> & Hi). exists (Sym c :: Word w :: used), ((c, w) :: more).
    rewrite <-app_assoc. split_and!; [done..|]. constructor; [|done]. by apply redir_cases.
  - injection H as <- <-. exists [], []. rewrite app_nil_r. split_and!; [done..|constructor].
Qed.

Lemma targs_sound f : forall args rs ts args' rs' ts', (length args < MAXARGS)%nat -> targs f args rs ts = Ret (args', rs') ts' ->
  exists used a r, ts = used ++ ts' /\ args' = args ++ a /\ rs' = rs ++ r /\ items used a r /\ (length args' < MAXARGS)%nat.
Proof.
  induction f as [|f IH]; intros args rs ts args' rs' ts' Hl H; [done|]. cbn [targs] in H.
  unfold bind at 1, tpeek, gets in H. assert (ret (args, rs) ts = Ret (args', rs') ts' ->
    exists used a r, ts = used ++ ts' /\ args' = args ++ a /\ rs' = rs ++ r /\ items used a r /\ (length args' < MAXARGS)%nat) as Hret.
  { intros [= <- <- <-]. exists [], [], []. rewrite !app_nil_r. split_and!; [done..|constructor|done]. }
  destruct (first_in "|)&;" ts); [by apply Hret|]. unfold bind at 1, tnext in H.
  destruct ts as [|[c|w] ts]; cbn [head tail] in H; [by apply Hret|done|].
  destruct (Nat.leb_spec MAXARGS (S (length args))); [done|]. apply bind_Ret in H as (rs1 & ts1 & H1 & H2).
  apply tredirs_sound in H1 as (u1 & m1 & -> & -> & Hi1). apply IH in H2 as (u2 & a2 & r2 & -> & -> & -> & Hi2 & Hl2).
  - exists (Word w :: u1 ++ u2), (w :: a2), (m1 ++ r2). rewrite <-!app_assoc in *. cbn. rewrite <-!app_assoc. split_and!; [done..| |done].
    constructor. by apply (items_app u1 u2 [] a2).
  - rewrite length_app. cbn. lia.
Qed.

Lemma tback_sound f : forall t ts t' ts', tback f t ts = Ret t' ts' ->
  exists n, ts = replicate n (Sym 38) ++ ts' /\ t' = Nat.iter n TBack t.
Proof.
  induction f as [|f IH]; intros t ts t' ts' H; [done|]. cbn [tback] in H. unfold bind at 1, tpeek, gets in H.
  destruct (first_in "&" ts) eqn:Hf; [|injection H as <- <-; by exists 0%nat].
  rewrite (first_in_one "&" 38 ts) in H |- * by done. unfold bind, tnext in H. cbn [tail] in H.
  apply IH in H as (n & -> & ->). exists (S n). by rewrite Nat.iter_succ_r.
Qed.

Definition sound (m : nat -> K (list token) tree) (G : list token -> tree -> Prop) (f : nat) : Prop :=
  forall ts t ts', m f ts = Ret t ts' -> exists used, ts = used ++ ts' /\ G used t.

Lemma tline_sound f : sound tpipe Pipe f -> sound tline Line f -> sound tline Line (S f).
Proof.
  intros Hpi Hli ts t ts' H. cbn [tline] in H. apply bind_Ret in H as (t1 & ts1 & H1 & H).
  apply bind_Ret in H as (t2 & ts2 & H2 & H). apply Hpi in H1 as (u1 & -> & G1). apply tback_sound in H2 as (n & -> & ->).
  unfold bind at 1, tpeek, gets in H. destruct (first_in ";" ts2) eqn:Hf.
  - rewrite (first_in_one ";" 59 ts2) in H |- * by done. unfold bind at 1, tnext in H. cbn [tail] in H.
    apply bind_Ret in H as (t3 & ts3 & H3 & [= <- <-]). apply Hli in H3 as (u3 & -> & G3).
    exists (u1 ++ replicate n (Sym 38) ++ Sym 59 :: u3). rewrite <-!app_assoc. split; [done|by constructor].
  - injection H as <- <-. exists (u1 ++ replicate n (Sym 38)). rewrite <-app_assoc. split; [done|by constructor].
Qed.

Lemma tpipe_sound f : sound texec Exec f -> sound tpipe Pipe f -> sound tpipe Pipe (S f).
Proof.
  intros Hex Hpi ts t ts' H. cbn [tpipe] in H. apply bind_Ret in H as (t1 & ts1 & H1 & H). apply Hex in H1 as (u1 & -> & G1).
  unfold bind at 1, tpeek, gets in H. destruct (first_in "|" ts1) eqn:Hf.
  - rewrite (first_in_one "|" 124 ts1) in H |- * by done. unfold bind at 1, tnext in H. cbn [tail] in H.
    apply bind_Ret in H as (t3 & ts3 & H3 & [= <- <-]). apply Hpi in H3 as (u3 & -> & G3).
    exists (u1 ++ Sym 124 :: u3). rewrite <-app_assoc. split; [done|by constructor].
  - injection H as <- <-. exists u1. split; [done|by constructor].
Qed.

Lemma tblock_sound f : sound tline Line f -> sound tblock Exec (S f).
Proof.
  intros Hli ts t ts' H. cbn [tblock] in H. unfold bind at 1, tpeek, gets in H.
  destruct (first_in "(" ts) eqn:Hf; [|done]. cbn [negb] in H. rewrite (first_in_one "(" 40 ts) in H |- * by done.
  unfold bind at 1, tnext in H. cbn [tail] in H. apply bind_Ret in H as (t1 & ts1 & H1 & H). apply Hli in H1 as (u1 & E & G1).
  unfold bind at 1, tpeek, gets in H. destruct (first_in ")" ts1) eqn:Hf1; [|done]. cbn [negb] in H.
  rewrite (first_in_one ")" 41 ts1) in H, E by done. unfold bind at 1, tnext in H. cbn [tail] in H, E.
  apply bind_Ret in H as (rs & ts2 & H2 & [= <- <-]). apply tredirs_sound in H2 as (u2 & m & E2 & -> & Hi).
  rewrite E, E2. exists (Sym 40 :: u1 ++ Sym 41 :: u2). cbn. rewrite <-app_assoc. split; [done|by constructor].
Qed.

Lemma texec_sound f : sound tblock Exec f -> sound texec Exec (S f).
Proof.
  intros Hbl ts t ts' H. cbn [texec] in H. unfold bind at 1, tpeek, gets in H. destruct (first_in "(" ts); [by apply Hbl|].
  apply bind_Ret in H as (rs & ts1 & H1 & H). apply bind_Ret in H as ([args rs'] & ts2 & H2 & [= <- <-]).
  apply tredirs_sound in H1 as (u1 & m & -> & -> & Hi1). apply targs_sound in H2 as (u2 & a & r & -> & -> & -> & Hi2 & Hl); [|cbn; unfold MAXARGS; lia].
  exists (u1 ++ u2). rewrite <-app_assoc. split; [done|]. constructor; [|done]. by apply (items_app u1 u2 [] a).
Qed.

Lemma parser_sound f : sound tline Line f /\ sound tpipe Pipe f /\ sound texec Exec f /\ sound tblock Exec f.
Proof.
  induction f as [|f (H1 & H2 & H3 & H4)]; [by split_and!|].
  split_and!; [by apply tline_sound|by apply tpipe_sound|by apply texec_sound|by apply tblock_sound].
Qed.

(** ** The parser accepts the grammar

    What may follow a command, a pipeline and a line. *)
Definition ends (set : list Z) (ts : list token) : Prop :=
  match ts with [] => True | Sym c :: _ => c ∈ set | Word _ :: _ => False end.

Lemma ends_mono set set' ts : set ⊆ set' -> ends set ts -> ends set' ts.
Proof. intros Hs. destruct ts as [|[c|] ts]; cbn; [done|apply Hs|done]. Qed.

(** The parser's questions about what follows. *)
Lemma ends_first set toks ts : ends set ts -> forallb (fun c => negb (among (lit toks) (if c =? 43 then 62 else c))) set = true ->
  first_in toks ts = false.
Proof.
  destruct ts as [|[c|] ts]; [done| |done]. cbn. intros Hc H. rewrite forallb_forall in H.
  specialize (H c (proj1 (list_elem_of_In _ _) Hc)). by destruct (among _ _).
Qed.

Lemma tredirs_complete f : forall ts rs rs1 rest, items ts [] rs1 -> first_in "<>" rest = false -> (length ts < f)%nat ->
  tredirs f rs (ts ++ rest) = Ret (rs ++ rs1) rest.
Proof.
  induction f as [|f IH]; intros ts rs rs1 rest Hi Hr Hf; [lia|]. cbn [tredirs]. unfold bind at 1, tpeek, gets.
  inversion Hi as [|?|c w ts' ? rs' Hc Hi']; subst; [cbn [app]; rewrite Hr, app_nil_r; done|].
  cbn [app first_in]. rewrite (proj2 (redir_cases c) Hc). unfold bind, tnext. cbn [head tail].
  rewrite (IH ts' _ rs') by (done || cbn in Hf; lia). by rewrite <-app_assoc.
Qed.

(** Redirections in front of the first word. *)
Lemma items_split ts a r : items ts a r -> exists ts1 ts2 r1 r2, ts = ts1 ++ ts2 /\ r = r1 ++ r2 /\ items ts1 [] r1 /\
  items ts2 a r2 /\ match ts2 with [] => True | t :: _ => exists w, t = Word w end.
Proof.
  induction 1 as [|w ts a r Hi _|c w ts a r Hc Hi (ts1 & ts2 & r1 & r2 & -> & -> & H1 & H2 & H3)].
  - exists [], [], [], []. split_and!; [done..|constructor|constructor|done].
  - exists [], (Word w :: ts), [], r. split_and!; [done..|constructor|by constructor|by exists w].
  - exists (Sym c :: Word w :: ts1), ts2, ((c, w) :: r1), r2. split_and!; [done..|by constructor|done|done].
Qed.

Lemma targs_complete n : forall ts a r args rs rest f, (length ts <= n)%nat -> items ts a r -> ends [124; 41; 38; 59] rest ->
  (length args + length a < MAXARGS)%nat -> (length ts < f)%nat ->
  (let! rs := tredirs f rs in targs f args rs) (ts ++ rest) = Ret (args ++ a, rs ++ r) rest.
Proof.
  induction n as [|n IH]; intros ts a r args rs rest f Hn Hi He Hl Hf;
    destruct (items_split _ _ _ Hi) as (ts1 & ts2 & r1 & r2 & -> & -> & H1 & H2 & H3);
    rewrite length_app in Hn, Hf; rewrite <-app_assoc; unfold bind at 1;
    (rewrite (tredirs_complete f ts1 rs r1 (ts2 ++ rest)); [|done| |lia];
     [|destruct ts2 as [|? ts2]; [by apply (ends_first _ _ _ He)|by destruct H3 as [w ->]]]);
    (destruct f as [|f]; [lia|]); cbn [targs]; unfold bind at 1, tpeek, gets.
  all: destruct ts2 as [|? ts2]; cbn [length] in Hn; try lia.
  1,2: inversion H2; subst; rewrite !app_nil_r; cbn [app];
    destruct rest as [|[c|] rest]; [done| |done]; cbn in He; cbn [first_in];
    replace (among (lit "|)&;") (if c =? 43 then 62 else c)) with true; [done|];
    symmetry; apply among_elem; [by_evaluation|]; change (lit "|)&;") with [124; 41; 38; 59];
    destruct (Z.eqb_spec c 43) as [->|]; [set_solver by lia|done].
  destruct H3 as [w ->]. inversion H2 as [|? ? a' ? Hi2|]; subst. cbn [app first_in]. unfold bind at 1, tnext. cbn [head tail].
  cbn [length] in Hl. destruct (Nat.leb_spec MAXARGS (S (length args))); [lia|].
  rewrite (IH ts2 a' r2) by (done || rewrite ?length_app; cbn [length] in *; lia). by rewrite <-!app_assoc.
Qed.

Lemma tback_complete n : forall f t rest, first_in "&" rest = false -> (n < f)%nat ->
  tback f t (replicate n (Sym 38) ++ rest) = Ret (Nat.iter n TBack t) rest.
Proof.
  induction n as [|n IH]; intros [|f] t rest Hr Hf; [lia| |lia|]; cbn [tback replicate app]; unfold bind at 1, tpeek, gets.
  - by rewrite Hr.
  - cbn [first_in]. unfold bind, tnext. cbn [tail among]. rewrite Nat.iter_succ_r.
    change (among (lit "&") (if 38 =? 43 then 62 else 38)) with true. cbn iota. apply IH; [done|lia].
Qed.

Scheme Line_mind := Minimality for Line Sort Prop
  with Pipe_mind := Minimality for Pipe Sort Prop
  with Exec_mind := Minimality for Exec Sort Prop.
Combined Scheme grammar_ind from Line_mind, Pipe_mind, Exec_mind.

Definition complete (m : nat -> K (list token) tree) (set : list Z) (k : nat) (ts : list token) (t : tree) : Prop :=
  forall rest f, ends set rest -> (4 * length ts + k <= f)%nat -> m f (ts ++ rest) = Ret t rest.

(** Commands, with or without a block. *)
Lemma texec_simple ts args rs : items ts args rs -> (length args < MAXARGS)%nat ->
  complete texec [124; 41; 38; 59] 2 ts (wrap (TExec args) rs).
Proof.
  intros Hi Hl rest f He Hf. destruct f as [|f]; [lia|]. cbn [texec]. unfold bind at 1, tpeek, gets.
  replace (first_in "(" (ts ++ rest)) with false.
  - pose proof (targs_complete (length ts) ts args rs [] [] rest f) as H. cbn [app length] in H.
    assert (forall k, (let! rs0 := tredirs f [] in let! (args0, rs1) := targs f [] rs0 in k args0 rs1) (ts ++ rest) =
      (let! (args0, rs1) := (let! rs0 := tredirs f [] in targs f [] rs0) in k args0 rs1 : K (list token) tree) (ts ++ rest)) as Ek.
    { intros k. unfold bind. by destruct (tredirs f [] (ts ++ rest)). }
    rewrite Ek. unfold bind at 1. rewrite H by (done || lia). done.
  - symmetry. inversion Hi; subst; [by apply (ends_first _ _ _ He)|done|]. cbn [app first_in].
    repeat (apply elem_of_cons in H as [->|H]; [done|]). by apply elem_of_nil in H.
Qed.

Lemma texec_block ts t rts rs : complete tline [41] 4 ts t -> items rts [] rs ->
  complete texec [124; 41; 38; 59] 2 (Sym 40 :: ts ++ Sym 41 :: rts) (wrap t rs).
Proof.
  intros Hli Hi rest f He Hf. cbn [length] in Hf. rewrite length_app in Hf. cbn [length] in Hf.
  destruct f as [|[|f]]; [lia..|]. change (texec (S (S f)) ((Sym 40 :: ts ++ Sym 41 :: rts) ++ rest)) with
    (tblock (S f) (Sym 40 :: (ts ++ Sym 41 :: rts) ++ rest)). rewrite <-app_assoc. cbn [app].
  cbn [tblock]. unfold bind at 1, tpeek, gets. change (first_in "(" _) with true. cbn [negb].
  unfold bind at 1, tnext. cbn [tail]. unfold bind at 1. rewrite Hli by (done || cbn; set_solver || lia).
  unfold bind at 1, tpeek, gets. change (first_in ")" _) with true. cbn [negb]. unfold bind at 1, tnext. cbn [tail].
  unfold bind at 1. rewrite (tredirs_complete f rts [] rs rest) by (done || by apply (ends_first _ _ _ He) || lia). done.
Qed.

Lemma tpipe_complete ts t rest f : complete texec [124; 41; 38; 59] 2 ts t ->
  ends [124; 41; 38; 59] rest -> (4 * length ts + 3 <= f)%nat ->
  tpipe f (ts ++ rest) =
    match f with
    | O => NoFuel
    | S f => if first_in "|" rest then (tnext;;; let! t' := tpipe f in ret (TPipe t t')) rest else Ret t rest
    end.
Proof.
  intros Hex He Hf. destruct f as [|f]; [done|]. cbn [tpipe]. unfold bind at 1. rewrite Hex by (done || lia).
  unfold bind at 1, tpeek, gets. by destruct (first_in "|" rest).
Qed.

Lemma tline_complete n ts t rest f : complete tpipe [41; 38; 59] 3 ts t ->
  ends [41; 59] rest -> (4 * length ts + n + 4 <= f)%nat ->
  tline f (ts ++ replicate n (Sym 38) ++ rest) =
    match f with
    | O => NoFuel
    | S f => if first_in ";" rest then (tnext;;; let! t' := tline f in ret (TList (Nat.iter n TBack t) t')) rest
             else Ret (Nat.iter n TBack t) rest
    end.
Proof.
  intros Hpi He Hf. destruct f as [|f]; [done|]. cbn [tline]. unfold bind at 1. rewrite Hpi by
    ((destruct n; [eapply ends_mono; [|done]; set_solver|cbn; set_solver]) || lia).
  unfold bind at 1. rewrite tback_complete by (by apply (ends_first _ _ _ He) || lia).
  unfold bind at 1, tpeek, gets. by destruct (first_in ";" rest).
Qed.

Lemma parser_complete : (forall ts t, Line ts t -> complete tline [41] 4 ts t) /\
  (forall ts t, Pipe ts t -> complete tpipe [41; 38; 59] 3 ts t) /\
  (forall ts t, Exec ts t -> complete texec [124; 41; 38; 59] 2 ts t).
Proof.
  apply grammar_ind.
  - intros n ts t _ Hpi rest f He Hf. rewrite length_app, length_replicate in Hf. rewrite <-app_assoc.
    rewrite (tline_complete n ts t) by (done || (eapply ends_mono; [|done]; set_solver) || lia).
    destruct f; [lia|]. by rewrite (ends_first _ _ _ He).
  - intros n ts t ts' t' _ Hpi _ Hli rest f He Hf. rewrite !length_app, length_replicate in Hf. cbn [length] in Hf. rewrite <-!app_assoc.
    rewrite (tline_complete n ts t) by (done || (cbn; set_solver) || lia). destruct f as [|f]; [lia|]. change (first_in ";" _) with true.
    unfold bind at 1, tnext. cbn [tail app]. unfold bind. by rewrite Hli by (done || lia).
  - intros ts t _ Hex rest f He Hf. rewrite (tpipe_complete ts t) by (done || (eapply ends_mono; [|done]; set_solver)).
    destruct f; [lia|]. by rewrite (ends_first _ _ _ He).
  - intros ts t ts' t' _ Hex _ Hpi rest f He Hf. rewrite length_app in Hf. cbn [length] in Hf. rewrite <-app_assoc.
    rewrite (tpipe_complete ts t) by (done || (cbn; set_solver) || lia). destruct f as [|f]; [lia|]. change (first_in "|" _) with true.
    unfold bind at 1, tnext. cbn [tail app]. unfold bind. by rewrite Hpi by (done || lia).
  - intros. by apply texec_simple.
  - intros. by apply texec_block.
Qed.

(** ** The parser ends *)

Lemma tredirs_ends f : forall rs ts, (length ts < f)%nat -> tredirs f rs ts <> NoFuel.
Proof.
  induction f as [|f IH]; intros rs ts Hf; [lia|]. cbn [tredirs]. unfold bind, tpeek, gets, tnext.
  destruct (first_in "<>" ts) eqn:Ht; [|done]. destruct (first_in_true _ _ Ht) as (c & ts1 & ->). cbn [head tail].
  destruct ts1 as [|[|w] ts1]; [done|done|]. cbn [head tail length] in *. apply IH. lia.
Qed.

Lemma targs_ends f : forall args rs ts, (length ts < f)%nat -> targs f args rs ts <> NoFuel.
Proof.
  induction f as [|f IH]; intros args rs ts Hf; [lia|]. cbn [targs]. unfold bind at 1, tpeek, gets.
  destruct (first_in "|)&;" ts); [done|]. unfold bind at 1, tnext. destruct ts as [|[c|w] ts]; [done|done|]. cbn [head tail length] in *.
  destruct (MAXARGS <=? S (length args))%nat; [done|]. intros [H|(rs' & ts' & H1 & H2)]%bind_NoFuel.
  - revert H. apply tredirs_ends. lia.
  - apply tredirs_sound in H1 as (u & m & -> & _). rewrite length_app in Hf. revert H2. apply IH. lia.
Qed.

Lemma tback_ends f : forall t ts, (length ts < f)%nat -> tback f t ts <> NoFuel.
Proof.
  induction f as [|f IH]; intros t ts Hf; [lia|]. cbn [tback]. unfold bind, tpeek, gets, tnext.
  destruct (first_in "&" ts) eqn:Ht; [|done]. destruct (first_in_true _ _ Ht) as (c & ts1 & ->). cbn [length tail] in *. apply IH. lia.
Qed.

Definition always_ends (m : nat -> K (list token) tree) (k f : nat) : Prop :=
  forall ts, (4 * length ts + k <= f)%nat -> m f ts <> NoFuel.

Lemma next_ends toks m k f (t : tree) (node : tree -> tree -> tree) ts : always_ends m k f -> (4 * length ts + k <= f + 4)%nat ->
  (let! more := tpeek toks in if more then tnext;;; let! t' := m f in ret (node t t') else ret t) ts <> NoFuel.
Proof.
  intros Hm Hf. unfold bind at 1, tpeek, gets. destruct (first_in toks ts) eqn:Ht; [|done].
  destruct (first_in_true _ _ Ht) as (c & ts1 & ->). unfold bind at 1, tnext. cbn [tail length] in *.
  intros [H|(? & ? & _ & H)]%bind_NoFuel; [|done]. revert H. apply Hm. lia.
Qed.

Lemma parser_ends f : always_ends tline 4 f /\ always_ends tpipe 3 f /\ always_ends texec 2 f /\ always_ends tblock 1 f.
Proof.
  induction f as [|f (H1 & H2 & H3 & H4)]; [split_and!; intros ts Hf; lia|]. destruct (parser_sound f) as (S1 & S2 & S3 & _).
  split_and!; intros ts Hf; cbn [tline tpipe texec tblock].
  - intros [H|(t1 & ts1 & E1 & H)]%bind_NoFuel; [revert H; apply H2; lia|]. apply S2 in E1 as (u & -> & _). rewrite length_app in Hf.
    apply bind_NoFuel in H as [H|(t2 & ts2 & E2 & H)]; [revert H; apply tback_ends; lia|].
    apply tback_sound in E2 as (n & -> & _). rewrite length_app in Hf. revert H. apply (next_ends _ _ 4); [done|lia].
  - intros [H|(t1 & ts1 & E1 & H)]%bind_NoFuel; [revert H; apply H3; lia|]. apply S3 in E1 as (u & -> & _). rewrite length_app in Hf.
    revert H. apply (next_ends _ _ 3); [done|lia].
  - unfold bind at 1, tpeek, gets. destruct (first_in "(" ts); [apply H4; lia|].
    intros [H|(rs & ts1 & E1 & H)]%bind_NoFuel; [revert H; apply tredirs_ends; lia|]. apply tredirs_sound in E1 as (u & m & -> & _).
    rewrite length_app in Hf. apply bind_NoFuel in H as [H|([args rs2] & ts2 & _ & H)]; [revert H; apply targs_ends; lia|done].
  - unfold bind at 1, tpeek, gets. destruct (first_in "(" ts) eqn:Ht; [|done]. destruct (first_in_true _ _ Ht) as (c & ts0 & ->).
    cbn [negb length] in *. unfold bind at 1, tnext. cbn [tail]. intros [H|(t1 & ts1 & E1 & H)]%bind_NoFuel; [revert H; apply H1; lia|].
    apply S1 in E1 as (u & -> & _). rewrite length_app in Hf. unfold bind at 1, tpeek, gets in H.
    destruct (first_in ")" ts1) eqn:Ht1; [|done]. destruct (first_in_true _ _ Ht1) as (c1 & ts2 & ->). cbn [negb length] in *.
    unfold bind at 1, tnext in H. cbn [tail] in H. apply bind_NoFuel in H as [H|(? & ? & _ & H)]; [revert H; apply tredirs_ends; lia|done].
Qed.
