(* ===== verification/ShParse.v ===== *)
(** The shell's parser is correct: it accepts exactly the command lines of its
    grammar, always answers, and leaves in memory the tree of the line with
    every word a terminated string. The code simulates the parser on tokens of
    ShGrammar step by step. *)
From S2P Require Import Prelude Str Sysfile Sh ShGrammar.

(** ** Characters *)

Lemma symbols_split c : among symbols c = among (lit "|();&<") c || (c =? 62).
Proof.
  apply eq_true_iff_eq. rewrite orb_true_iff, !among_elem, Z.eqb_eq by by_evaluation.
  change symbols with [60; 124; 62; 38; 59; 40; 41]. change (lit "|();&<") with [124; 40; 41; 59; 38; 60].
  rewrite !elem_of_cons, !elem_of_nil. naive_solver.
Qed.

Definition subset_of (toks : string) : Prop := forallb (fun c => negb (c =? 0) && negb (white c) && among symbols c) (lit toks) = true.

Lemma among_symbols toks c : subset_of toks -> among (lit toks) c = true ->
  c <> 0 /\ white c = false /\ among symbols c = true.
Proof.
  unfold subset_of. intros H Hc.
  assert (Forall (fun x => negb (x =? 0) && negb (white x) && among symbols x = true) (lit toks)) as HF.
  { apply Forall_forall. intros x Hx. apply (proj1 (forallb_forall _ _) H). by apply list_elem_of_In. }
  assert (Forall (fun x => x <> 0) (lit toks)) as H0.
  { eapply Forall_impl; [exact HF|]. intros x Hx ->. by vm_compute in Hx. }
  apply among_elem in Hc; [|done]. rewrite Forall_forall in HF. specialize (HF c Hc).
  apply andb_true_iff in HF as [[Hz Hw]%andb_true_iff Hs]. destruct (Z.eqb_spec c 0); [done|].
  by destruct (white c).
Qed.

(** What [skip] stops at. *)
Definition stops (p : Z -> bool) (l : list Z) : Prop := match l with [] => True | c :: _ => p c = false end.

Lemma span p (l : list Z) : exists w r, l = w ++ r /\ Forall (fun c => p c = true) w /\ stops p r.
Proof.
  induction l as [|c l (w & r & -> & Hw & Hr)]; [by exists [], []|].
  destruct (p c) eqn:Hc; [by exists (c :: w), r; split_and!; [|constructor|]|by exists [], (c :: w ++ r)].
Qed.

(** ** The tokenizer *)

Lemma lex_white w r : Forall (fun c => white c = true) w -> lex (w ++ r) = lex r.
Proof. induction 1 as [|c w Hc _ IH]; [done|]. cbn [app lex]. by rewrite Hc. Qed.

Lemma wordchar_spec c : wordchar c = true <-> white c = false /\ among symbols c = false.
Proof. unfold wordchar. rewrite andb_true_iff, !negb_true_iff. done. Qed.

Lemma wordchar_lex c : wordchar c = true -> white c = false /\ (c =? 62) = false /\ among symbols c = false.
Proof.
  intros [Hw Hs]%wordchar_spec. split_and!; [done| |done].
  rewrite symbols_split in Hs. by apply orb_false_iff in Hs as [_ ?].
Qed.

Lemma lex_word w r : w <> [] -> Forall (fun c => wordchar c = true) w -> stops wordchar r ->
  lex (w ++ r) = Word w :: lex r.
Proof.
  intros Hne Hw Hr. induction Hw as [|c w Hc Hw IH]; [done|].
  apply wordchar_lex in Hc as (H1 & H2 & H3). cbn [app lex]. rewrite H1, H2, H3.
  destruct w as [|c' w].
  - destruct r as [|d r]; [done|]. cbn [app]. cbn in Hr. by rewrite Hr.
  - rewrite IH by done. cbn [app]. inversion Hw as [|? ? Hc' _]; subst. by rewrite Hc'.
Qed.

Lemma lex_sym c r : among (lit "|();&<") c = true -> lex (c :: r) = Sym c :: lex r.
Proof.
  intros Hc. assert (subset_of "|();&<") as Hsub by done.
  destruct (among_symbols _ _ Hsub Hc) as (_ & Hw & Hs). cbn [lex]. rewrite Hw, Hs.
  destruct (Z.eqb_spec c 62) as [->|]; [by vm_compute in Hc|done].
Qed.

Lemma lex_some c l : white c = false -> lex (c :: l) <> [].
Proof.
  intros Hw. destruct (among symbols c) eqn:Hs.
  - rewrite symbols_split in Hs. apply orb_true_iff in Hs as [Hs|Hs]; [by rewrite lex_sym|].
    cbn [lex]. rewrite Hw, Hs. destruct l as [|d l]; [done|]. by destruct (d =? 62).
  - assert (wordchar c = true) as Hc by (by apply wordchar_spec).
    destruct (span wordchar (c :: l)) as (w & r & E & Hr & Hst). rewrite E, lex_word; [done| |done..].
    intros ->. cbn in E. subst r. cbn in Hst. congruence.
Qed.

Lemma lex_length l : (length (lex l) <= length l)%nat.
Proof.
  remember (length l) as n eqn:Hn. assert (length l <= n)%nat as Hl by lia. clear Hn. revert l Hl.
  induction n as [|n IH]; intros [|c l] Hl; cbn [length] in *; try (cbn; lia).
  pose proof (IH l ltac:(lia)) as H1. cbn [lex]. destruct (white c); [lia|]. destruct (c =? 62).
  - destruct l as [|c' l]; [cbn; lia|]. cbn [length] in Hl. pose proof (IH l ltac:(lia)) as H2. destruct (c' =? 62); cbn [length]; lia.
  - destruct (among symbols c); [cbn; lia|]. destruct l as [|c' l]; [cbn; lia|].
    destruct (wordchar c'); [|cbn [length]; lia]. destruct (lex (c' :: l)) as [|[|] ?]; cbn [length] in *; lia.
Qed.

(** ** Words in memory *)

Definition wordbyte (c : Z) : bool := negb (c =? 0) && wordchar c.

(** The bytes from [q] to [e] are the word [w], and the next one ends it. *)
Definition word (m : list Z) (q e : nat) (w : list Z) : Prop := exists pre c post,
  m = pre ++ w ++ c :: post /\ q = length pre /\ e = (q + length w)%nat /\
  Forall (fun c => wordbyte c = true) w /\ wordbyte c = false.

(** ** Trees in memory

    [denotes W h p t]: the command at [p] is the tree [t]; [W q e w] says that the
    pointers [q] and [e] stand for the word [w]. *)
Definition has_args (W : nat -> nat -> list Z -> Prop) (argv eargv : list (option nat)) (args : list (list Z)) : Prop :=
  forall j w, args !! j = Some w -> exists q e, argv !! j = Some (Some q) /\ eargv !! j = Some (Some e) /\ W q e w.

Fixpoint denotes (W : nat -> nat -> list Z -> Prop) (h : list cmd) (p : nat) (t : tree) : Prop :=
  match t with
  | TExec args => exists argv eargv, h !! p = Some (Execcmd argv eargv) /\ has_args W argv eargv args /\
      argv !! length args = Some None
  | TRedir t file mode fd => exists c q e, h !! p = Some (Redircmd (Some c) q e mode fd) /\ W q e file /\
      (c < p)%nat /\ denotes W h c t
  | TPipe l r => exists a b, h !! p = Some (Pipecmd (Some a) (Some b)) /\ (a < p)%nat /\ (b < p)%nat /\
      denotes W h a l /\ denotes W h b r
  | TList l r => exists a b, h !! p = Some (Listcmd (Some a) (Some b)) /\ (a < p)%nat /\ (b < p)%nat /\
      denotes W h a l /\ denotes W h b r
  | TBack t => exists c, h !! p = Some (Backcmd (Some c)) /\ (c < p)%nat /\ denotes W h c t
  end.

Lemma denotes_prefix W h h' p t : h `prefix_of` h' -> denotes W h p t -> denotes W h' p t.
Proof.
  intros Hh. revert p. assert (forall p n, h !! p = Some n -> h' !! p = Some n) as Hl by (intros; by eapply prefix_lookup_Some).
  induction t; cbn; intros p; naive_solver.
Qed.

Lemma denotes_lt W h p t : denotes W h p t -> (p < length h)%nat.
Proof. destruct t; cbn; naive_solver eauto using lookup_lt_Some. Qed.

(** From [r] a chain of redirections leads to [base]. *)
Inductive chain (W : nat -> nat -> list Z -> Prop) (h : list cmd) (base : nat) : nat -> list (Z * list Z) -> Prop :=
| chain_nil : chain W h base base []
| chain_snoc i p q e mode fd c w rs : h !! i = Some (Redircmd (Some p) q e mode fd) -> W q e w -> (p < i)%nat ->
    (forall t, redir_of t (c, w) = TRedir t w mode fd) -> chain W h base p rs -> chain W h base i (rs ++ [(c, w)]).

Lemma chain_denotes W h base r rs t : chain W h base r rs -> denotes W h base t -> denotes W h r (wrap t rs).
Proof.
  induction 1 as [|i p q e mode fd c w rs Hi HW Hp Ht _ IH]; [done|]. intros Hb.
  unfold wrap. rewrite foldl_app. cbn [foldl]. rewrite Ht. cbn. naive_solver.
Qed.

(** A chain does not depend on the command it ends in. *)
Lemma redirs_ext W h h' base r rs : (forall i p q e mode fd, h !! i = Some (Redircmd p q e mode fd) -> h' !! i = h !! i) ->
  chain W h base r rs -> chain W h' base r rs.
Proof. intros Hh. induction 1; [constructor|]. econstructor; [by erewrite Hh|done..]. Qed.

Lemma chain_le W h base r rs : chain W h base r rs -> (base <= r)%nat.
Proof. induction 1; lia. Qed.

Section line.
Context (line z : list Z) (Hline : Forall (fun c => c <> 0) line).
Let es : nat := length line.

(** The parser is at the tokens [ts]. *)
Definition at_tokens (σ : sh) (ts : list token) : Prop :=
  sh_mem σ = line ++ 0 :: z /\ (sh_pos σ <= es)%nat /\ lex (drop (sh_pos σ) line) = ts.

Lemma load_spec s σ : sh_mem σ = line ++ 0 :: z -> (s <= es)%nat -> load s σ = Ret (chr (drop s line)) σ.
Proof.
  intros Hm Hs. unfold load, bind, gets, lift_opt. rewrite Hm. unfold es in Hs.
  destruct (line !! s) as [c|] eqn:E.
  - rewrite lookup_app_l by (by eapply lookup_lt_Some). rewrite E. by rewrite (drop_S _ _ _ E).
  - apply lookup_ge_None in E. assert (s = length line) as -> by lia.
    by rewrite lookup_app_r, Nat.sub_diag, drop_all by done.
Qed.

Lemma skip_spec p s σ w r : sh_mem σ = line ++ 0 :: z -> (s <= es)%nat ->
  drop s line = w ++ r -> Forall (fun c => p c = true) w -> stops p r ->
  skip p (es - s) s σ = Ret (s + length w)%nat σ /\ (s + length w <= es)%nat /\ drop (s + length w) line = r.
Proof.
  intros Hm Hs Hd Hw Hr. unfold es in *. revert s Hs Hd.
  induction Hw as [|c w Hc _ IH]; intros s Hs Hd; pose proof (f_equal length Hd) as Hl; rewrite length_drop in Hl.
  - cbn in Hd, Hl. rewrite Nat.add_0_r. split; [|by split; [lia|]]. destruct r as [|c r]; cbn [length] in Hl.
    + by replace (length line - s)%nat with 0%nat by lia.
    + replace (length line - s)%nat with (S (length r)) by lia. cbn [skip]. unfold bind.
      rewrite load_spec, Hd by (done || unfold es; lia). cbn in *. by rewrite Hr.
  - cbn [app length] in Hl. replace (length line - s)%nat with (S (length line - S s)) by lia. cbn [skip]. unfold bind.
    rewrite load_spec, Hd by (done || unfold es; lia). cbn [chr app]. rewrite Hc.
    replace (s + length (c :: w))%nat with (S s + length w)%nat by (cbn; lia).
    apply IH; [lia|]. rewrite <-Nat.add_1_r, <-drop_drop, Hd. done.
Qed.

Lemma skip_white σ s : sh_mem σ = line ++ 0 :: z -> (s <= es)%nat ->
  exists k, skip white (es - s) s σ = Ret k σ /\ (k <= es)%nat /\ lex (drop k line) = lex (drop s line) /\
    stops white (drop k line).
Proof.
  intros Hm Hs. destruct (span white (drop s line)) as (w & r & E & Hw & Hr).
  destruct (skip_spec white s σ w r Hm Hs E Hw Hr) as (E1 & E2 & E3).
  exists (s + length w)%nat. split_and!; [done..| |by rewrite E3]. rewrite E3, E. by rewrite lex_white.
Qed.

Lemma lex_end s : (s <= es)%nat -> stops white (drop s line) -> s = es <-> lex (drop s line) = [].
Proof.
  intros Hs Hst. split; [intros ->; unfold es; by rewrite drop_all|]. intros H.
  destruct (drop s line) as [|c l] eqn:Hd.
  - pose proof (f_equal length Hd) as Hl. rewrite length_drop in Hl. cbn in Hl. unfold es in *. lia.
  - by destruct (lex_some c l Hst).
Qed.

(** What the first token of [ts] is to [gettoken]. *)
Definition token_is (m : list Z) (ts : list token) (r : Z) (q e : nat) : Prop :=
  match ts with
  | [] => r = 0
  | Sym c :: _ => r = c /\ c <> 0 /\ c <> 97
  | Word w :: _ => r = 97 /\ word m q e w
  end.

(** The case analysis of [gettoken] at a character that is not white. *)
Lemma tokswitch_spec s σ : sh_mem σ = line ++ 0 :: z -> (s <= es)%nat -> stops white (drop s line) ->
  exists r e, tokswitch es s (chr (drop s line)) σ = Ret (r, e) σ /\ (e <= es)%nat /\
    lex (drop e line) = tail (lex (drop s line)) /\ token_is (sh_mem σ) (lex (drop s line)) r s e.
Proof.
  intros Hm Hs Hc. unfold tokswitch. destruct (drop s line) as [|c l] eqn:Hd; [exists 0, s; by rewrite Hd|]. cbn [chr].
  cbn in Hc. rewrite <-Hd. assert (length l < es - s)%nat as Hl by (unfold es; rewrite <-length_drop, Hd; cbn; lia).
  assert (drop (S s) line = l) as Hd' by (by rewrite <-Nat.add_1_r, <-drop_drop, Hd).
  assert (c <> 0) as H0. { rewrite Forall_forall in Hline. apply Hline. apply (list_elem_of_lookup_2 _ s). by rewrite <-(Nat.add_0_r s), <-lookup_drop, Hd. }
  rewrite (proj2 (Z.eqb_neq c 0)) by done. destruct (among (lit "|();&<") c) eqn:Hsy.
  { exists c, (S s). rewrite Hd, Hd', lex_sym by done. split_and!; [done|lia|done|]. split_and!; [done..|]. by intros ->. }
  destruct (Z.eqb_spec c 62) as [->|H62].
  - unfold bind. rewrite load_spec, Hd', Hd by (done || lia). destruct l as [|c' l]; [|cbn [chr]; destruct (Z.eqb_spec c' 62) as [->|Hne]].
    + exists 62, (S s). rewrite Hd'. by split_and!; [|lia|..].
    + exists 43, (S (S s)). rewrite <-(Nat.add_1_r (S s)), <-drop_drop, Hd'. cbn [length] in Hl. by split_and!; [|lia|..].
    + exists 62, (S s). rewrite Hd'. cbn [lex Z.eqb Pos.eqb]. rewrite Hc, (proj2 (Z.eqb_neq c' 62)) by done. by split_and!; [|lia|..].
  - assert (wordchar c = true) as Hwc by (apply wordchar_spec; rewrite symbols_split, Hsy, (proj2 (Z.eqb_neq c 62)); done).
    destruct (span wordchar (drop s line)) as (w & r & E & Hw & Hr).
    destruct (skip_spec wordchar s σ w r Hm ltac:(lia) E Hw Hr) as (E1 & E2 & E3).
    assert (w <> []) as Hne. { intros ->. cbn in E. rewrite Hd in E. subst r. cbn in Hr. congruence. }
    exists 97, (s + length w)%nat. unfold bind. rewrite E1, E3, E, lex_word by done. split_and!; [done..|]. split; [done|].
    rewrite Hm. assert (Forall (fun c => wordbyte c = true) w) as Hby.
    { apply Forall_forall. intros x Hx. unfold wordbyte. rewrite (proj1 (Forall_forall _ _) Hw x Hx), andb_true_r.
      rewrite (proj2 (Z.eqb_neq x 0)); [done|]. rewrite Forall_forall in Hline. apply Hline.
      rewrite <-(take_drop s line), E. set_solver. }
    exists (take s line). rewrite length_take_le by (unfold es in *; lia).
    destruct r as [|d r]; [exists 0, z|exists d, (r ++ 0 :: z)]; split_and!; try done.
    + rewrite <-(take_drop s line) at 1. rewrite E, app_nil_r. by rewrite <-app_assoc.
    + rewrite <-(take_drop s line) at 1. rewrite E. by rewrite <-!app_assoc.
    + cbn in Hr. unfold wordbyte. by rewrite Hr, andb_false_r.
Qed.

Lemma gettoken_spec σ ts : at_tokens σ ts -> exists r q e k,
  gettoken es σ = Ret (r, q, e) (set_pos k σ) /\ at_tokens (set_pos k σ) (tail ts) /\ token_is (sh_mem σ) ts r q e.
Proof.
  intros (Hm & Hp & <-). destruct (skip_white σ _ Hm Hp) as (s & E1 & Hs & El & Hst).
  unfold gettoken, bind at 1 2 3, gets. rewrite E1, load_spec by done. rewrite <-El.
  destruct (tokswitch_spec s σ Hm Hs Hst) as (r & e & E2 & He & Ht & Hr).
  unfold bind at 1. rewrite E2. destruct (skip_white σ e Hm He) as (k & E3 & Hk & El' & _).
  exists r, s, e, k. unfold bind. rewrite E3. split_and!; [done..| |done]. split_and!; [done..|]. cbn [sh_pos set_pos]. by rewrite El', Ht.
Qed.

Lemma peek_spec σ ts toks : at_tokens σ ts -> subset_of toks -> exists k,
  peek es toks σ = Ret (first_in toks ts) (set_pos k σ) /\ at_tokens (set_pos k σ) ts /\ (k = es <-> ts = []).
Proof.
  intros (Hm & Hp & <-) Htk. destruct (skip_white σ _ Hm Hp) as (s & E1 & Hs & El & Hst). exists s.
  unfold peek, bind, gets, modify. rewrite E1, load_spec by done. rewrite <-El. split; [|by split; [|apply lex_end]].
  unfold ret. f_equal. destruct (drop s line) as [|c l] eqn:Hd; [done|]. cbn [chr].
  cbn in Hst.
  destruct (Z.eqb_spec c 0) as [->|H0].
  { rewrite Forall_forall in Hline. destruct (Hline 0); [|done]. apply (list_elem_of_lookup_2 _ s).
    by rewrite <-(Nat.add_0_r s), <-lookup_drop, Hd. }
  cbn [negb andb]. destruct (among symbols c) eqn:Hsy.
  - rewrite symbols_split in Hsy. destruct (among (lit "|();&<") c) eqn:Hc.
    + rewrite lex_sym by done. cbn [first_in]. destruct (Z.eqb_spec c 43) as [->|]; [by vm_compute in Hc|done].
    + apply Z.eqb_eq in Hsy as ->. cbn [lex]. rewrite Hst. cbn [Z.eqb Pos.eqb].
      destruct l as [|c' l]; [done|]. destruct (c' =? 62); done.
  - destruct (among (lit toks) c) eqn:Ht; [destruct (among_symbols _ _ Htk Ht) as (_ & _ & ?); congruence|].
    destruct (span wordchar (c :: l)) as (w & rr & E & Hw & Hrr).
    assert (wordchar c = true) as Hwc by (apply wordchar_spec; done).
    rewrite E, lex_word; [done| |done..]. intros ->. cbn in E. subst rr. cbn in Hrr. congruence.
Qed.

(** ** The code simulates the parser on tokens *)

Definition psim {A B} (Q : A -> sh -> B -> list token -> Prop) (o : outcome sh A) (o' : outcome (list token) B) : Prop :=
  match o' with
  | Ret b ts' => exists a σ', o = Ret a σ' /\ at_tokens σ' ts' /\ Q a σ' b ts'
  | Panic msg => o = Panic msg
  | NoFuel => o = NoFuel
  | _ => False
  end.

Lemma psim_ret {A B} (Q : A -> sh -> B -> list token -> Prop) a b σ ts : at_tokens σ ts -> Q a σ b ts -> psim Q (ret a σ) (ret b ts).
Proof. intros. by exists a, σ. Qed.

Lemma psim_mono {A B} (Q Q' : A -> sh -> B -> list token -> Prop) o o' : psim Q o o' ->
  (forall a σ b ts, at_tokens σ ts -> Q a σ b ts -> Q' a σ b ts) -> psim Q' o o'.
Proof. destruct o'; cbn; naive_solver. Qed.

Lemma psim_bind {A A' B B'} (Q1 : A -> sh -> B -> list token -> Prop) (Q : A' -> sh -> B' -> list token -> Prop) m f m' f' σ ts :
  psim Q1 (m σ) (m' ts) ->
  (forall a σ1 b ts1, at_tokens σ1 ts1 -> Q1 a σ1 b ts1 -> psim Q (f a σ1) (f' b ts1)) ->
  psim Q (bind m f σ) (bind m' f' ts).
Proof.
  intros H1 H2. unfold bind. destruct (m' ts); cbn in H1 |- *.
  - destruct H1 as (a' & σ' & -> & Ha & HQ). by apply H2.
  - by rewrite H1.
  - done.
  - done.
  - by rewrite H1.
Qed.

Lemma psim_tail {A B B'} (Q1 : A -> sh -> B -> list token -> Prop) (Q : A -> sh -> B' -> list token -> Prop) o m' (f' : B -> B') ts :
  psim Q1 o (m' ts) -> (forall a σ1 b ts1, Q1 a σ1 b ts1 -> Q a σ1 (f' b) ts1) ->
  psim Q o ((let! b := m' in ret (f' b)) ts).
Proof. intros H1 H2. unfold bind. destruct (m' ts); cbn in *; naive_solver. Qed.

Lemma psim_peek {A B} (Q : A -> sh -> B -> list token -> Prop) toks f f' σ ts : at_tokens σ ts -> subset_of toks ->
  (forall k, at_tokens (set_pos k σ) ts -> psim Q (f (first_in toks ts) (set_pos k σ)) (f' (first_in toks ts) ts)) ->
  psim Q (bind (peek es toks) f σ) (bind (tpeek toks) f' ts).
Proof.
  intros Ha Hs H. destruct (peek_spec σ ts toks Ha Hs) as (k & E & Hk & _). unfold bind, tpeek, gets. rewrite E. by apply H.
Qed.

Lemma psim_next {A B} (Q : A -> sh -> B -> list token -> Prop) f f' σ ts : at_tokens σ ts ->
  (forall r q e k, at_tokens (set_pos k σ) (tail ts) -> token_is (line ++ 0 :: z) ts r q e ->
     psim Q (f (r, q, e) (set_pos k σ)) (f' (head ts) (tail ts))) ->
  psim Q (bind (gettoken es) f σ) (bind tnext f' ts).
Proof.
  intros Ha H. destruct (gettoken_spec σ ts Ha) as (r & q & e & k & E & Hk & Ht). unfold bind, tnext. rewrite E.
  apply H; [done|]. destruct Ha as [<- _]. done.
Qed.

Lemma psim_code {A A' B} (Q : A' -> sh -> B -> list token -> Prop) (m : K sh A) f σ a σ1 o' :
  m σ = Ret a σ1 -> psim Q (f a σ1) o' -> psim Q (bind m f σ) o'.
Proof. intros E H. unfold bind. by rewrite E. Qed.

(** Nodes are only added, at most two per token and [e] more. *)
Definition grown (e : nat) (σ : sh) (ts : list token) (σ' : sh) (ts' : list token) : Prop :=
  sh_heap σ `prefix_of` sh_heap σ' /\ (sh_room σ + 2 * length ts' <= sh_room σ' + 2 * length ts + e)%nat.

Let W : nat -> nat -> list Z -> Prop := word (line ++ 0 :: z).

Lemma new_cmd_spec c σ ts : at_tokens σ ts -> (0 < sh_room σ)%nat -> exists σ', new_cmd c σ = Ret (Some (length (sh_heap σ))) σ' /\
  at_tokens σ' ts /\ sh_heap σ' = sh_heap σ ++ [c] /\ sh_room σ' = (sh_room σ - 1)%nat.
Proof.
  intros Ha Hr. unfold new_cmd. destruct (sh_room σ) as [|r] eqn:E; [lia|]. eexists. split; [done|]. cbn. by rewrite Nat.sub_0_r.
Qed.

(** Adding the redirection read at the end of a chain. *)
Lemma redir_spec c w q e base r rs σ ts : c ∈ [60; 62; 43] -> at_tokens σ ts -> (0 < sh_room σ)%nat ->
  chain W (sh_heap σ) base r rs -> (r < length (sh_heap σ))%nat -> W q e w ->
  exists r' σ', (if c =? 60 then redircmd (Some r) q e O_RDONLY 0
    else if c =? 62 then redircmd (Some r) q e (Z.lor O_WRONLY O_CREATE) 1
    else if c =? 43 then redircmd (Some r) q e (Z.lor O_WRONLY O_CREATE) 1
    else ret (Some r)) σ = Ret (Some r') σ' /\ at_tokens σ' ts /\ (r' < length (sh_heap σ'))%nat /\
    chain W (sh_heap σ') base r' (rs ++ [(c, w)]) /\ sh_heap σ `prefix_of` sh_heap σ' /\ sh_room σ' = (sh_room σ - 1)%nat.
Proof.
  intros Hc Ha Hr Hch Hlt HW.
  assert (exists mode fd, (forall t, redir_of t (c, w) = TRedir t w mode fd) /\
    (if c =? 60 then redircmd (Some r) q e O_RDONLY 0
     else if c =? 62 then redircmd (Some r) q e (Z.lor O_WRONLY O_CREATE) 1
     else if c =? 43 then redircmd (Some r) q e (Z.lor O_WRONLY O_CREATE) 1
     else ret (Some r)) = new_cmd (Redircmd (Some r) q e mode fd)) as (mode & fd & Ht & ->).
  { rewrite !elem_of_cons, elem_of_nil in Hc. destruct Hc as [->|[->|[->|[]]]]; do 2 eexists; (split; [|reflexivity]); done. }
  destruct (new_cmd_spec (Redircmd (Some r) q e mode fd) σ ts Ha Hr) as (σ' & E & Ha' & Hh & Hrm).
  exists (length (sh_heap σ)), σ'. rewrite Hh, length_app. split_and!; [done|done|cbn; lia| |by eexists|done].
  econstructor; [by rewrite lookup_app_r, Nat.sub_diag by done|done|done|done|].
  eapply redirs_ext; [|done]. intros. rewrite lookup_app_l; [done|by eapply lookup_lt_Some].
Qed.

Lemma parseredirs_sim fuel : forall σ ts r rs base, at_tokens σ ts -> (2 * length ts <= sh_room σ)%nat ->
  chain W (sh_heap σ) base r rs -> (r < length (sh_heap σ))%nat ->
  psim (fun a σ' rs' ts' => exists r', a = Some r' /\ chain W (sh_heap σ') base r' rs' /\ (r' < length (sh_heap σ'))%nat /\
    grown 0 σ ts σ' ts') (parseredirs fuel es (Some r) σ) (tredirs fuel rs ts).
Proof.
  induction fuel as [|f IH]; intros σ ts r rs base Ha Hr Hch Hlt; [done|]. cbn [parseredirs tredirs].
  apply psim_peek; [done..|]. intros k Ha1. destruct (first_in "<>" ts) eqn:Hf.
  2: { apply psim_ret; [done|]. exists r. split_and!; [done..|]. split; [done|cbn; lia]. }
  destruct (first_in_true _ _ Hf) as (c & ts1 & ->). cbn [first_in] in Hf. apply redir_cases in Hf. cbn [length] in Hr.
  apply psim_next; [done|]. intros tok q0 e0 k1 Ha2 [-> _]. cbn [tail head] in *.
  apply psim_next; [done|]. intros w q e k2 Ha3 Hw. destruct ts1 as [|[c1|w1] ts1]; cbn [token_is head tail] in *.
  - by subst w.
  - destruct Hw as (-> & _ & Hw). by rewrite (proj2 (Z.eqb_neq _ _) Hw).
  - destruct Hw as [-> Hw]. cbn [Z.eqb Pos.eqb negb].
    destruct (redir_spec c w1 q e base r rs _ ts1 Hf Ha3 ltac:(cbn in *; lia) Hch Hlt Hw) as (r' & σ' & E & Ha4 & Hlt' & Hch' & Hp & Hrm).
    eapply psim_code; [exact E|]. cbn [sh_room set_pos sh_heap] in *. eapply psim_mono; [apply IH; [done| |done|done]|].
    + cbn [length] in *. lia.
    + intros a σ2 rs2 ts2 _ (r2 & -> & Hch2 & Hlt2 & Hp2 & Hrm2). exists r2. split_and!; [done..|]. split; [by etrans|cbn [length] in *; lia].
Qed.

Lemma parseback_sim fuel : forall σ ts p t, at_tokens σ ts -> (2 * length ts <= sh_room σ)%nat -> denotes W (sh_heap σ) p t ->
  psim (fun a σ' t' ts' => (exists p', a = Some p' /\ denotes W (sh_heap σ') p' t') /\ grown 0 σ ts σ' ts')
    (parseback fuel es (Some p) σ) (tback fuel t ts).
Proof.
  induction fuel as [|f IH]; intros σ ts p t Ha Hr Hd; [done|]. cbn [parseback tback].
  apply psim_peek; [done..|]. intros k Ha1. destruct (first_in "&" ts) eqn:Hf.
  2: { apply psim_ret; [done|]. split; [by exists p|]. split; [done|cbn; lia]. }
  destruct (first_in_true _ _ Hf) as (c & ts1 & ->). cbn [length] in Hr.
  apply psim_next; [done|]. intros tok q e k1 Ha2 _. cbn [tail] in *.
  destruct (new_cmd_spec (Backcmd (Some p)) _ _ Ha2 ltac:(cbn; lia)) as (σ' & E & Ha3 & Hh & Hrm).
  eapply psim_code; [exact E|]. cbn [sh_room set_pos sh_heap] in *.
  assert (sh_heap σ `prefix_of` sh_heap σ') as Hpre by (rewrite Hh; by eexists).
  eapply psim_mono; [apply IH; [done|lia|]|].
  - exists p. split_and!; [by rewrite Hh, lookup_app_r, Nat.sub_diag by done|by eapply denotes_lt|by eapply denotes_prefix].
  - intros a σ2 t2 ts2 _ [Hd2 [Hp2 Hrm2]]. split; [done|]. split; [by etrans|cbn [length] in *; lia].
Qed.

(** The [struct execcmd] at [a], filled as far as [args]. *)
Definition exec_at (h : list cmd) (a : nat) (args : list (list Z)) : Prop := exists argv eargv,
  h !! a = Some (Execcmd argv eargv) /\ length argv = MAXARGS /\ length eargv = MAXARGS /\ has_args W argv eargv args.

Lemma exec_at_prefix h h' a args : h `prefix_of` h' -> exec_at h a args -> exec_at h' a args.
Proof. intros Hp (argv & eargv & Ha & ?). exists argv, eargv. split; [by eapply prefix_lookup_Some|done]. Qed.

(** A chain on top of an [execcmd] that is being filled, over the nodes [h0]. *)
Definition filling (h0 : list cmd) (a : nat) (σ : sh) (args : list (list Z)) (r : nat) (rs : list (Z * list Z)) : Prop :=
  h0 `prefix_of` sh_heap σ /\ (length h0 <= a)%nat /\ exec_at (sh_heap σ) a args /\
  chain W (sh_heap σ) a r rs /\ (r < length (sh_heap σ))%nat.

Lemma filling_grown h0 a σ σ' args r rs r' rs' : filling h0 a σ args r rs -> sh_heap σ `prefix_of` sh_heap σ' ->
  chain W (sh_heap σ') a r' rs' -> (r' < length (sh_heap σ'))%nat -> filling h0 a σ' args r' rs'.
Proof. intros (H1 & H2 & H3 & _) Hp ??. split_and!; [by etrans|done|by eapply exec_at_prefix|done..]. Qed.

Lemma set_arg_spec h0 a σ ts args r rs q e args' : at_tokens σ ts -> filling h0 a σ args r rs -> (length args < MAXARGS)%nat ->
  (forall argv eargv, length argv = MAXARGS -> length eargv = MAXARGS -> has_args W argv eargv args ->
    has_args W (<[length args := q]> argv) (<[length args := e]> eargv) args') ->
  exists σ', set_arg (Some a) (length args) q e σ = Ret tt σ' /\ at_tokens σ' ts /\ sh_room σ' = sh_room σ /\
    filling h0 a σ' args' r rs /\ exists argv eargv, sh_heap σ' !! a = Some (Execcmd argv eargv) /\ argv !! length args = Some q.
Proof.
  intros Ha ((h1 & Hh) & Hle & (argv & eargv & Hn & Hl1 & Hl2 & Hargs) & Hch & Hlt) Hlen Hnew.
  unfold set_arg, bind, gets. rewrite Hn, (proj2 (Nat.ltb_lt _ _)) by done. eexists. split; [done|].
  assert (a < length (sh_heap σ))%nat as Hal by (by eapply lookup_lt_Some).
  split; [done|]. split; [done|]. cbn [sh_heap set_heap]. split.
  - split_and!; cbn [sh_heap set_heap]; [|done| | |by rewrite length_insert].
    + rewrite Hh, insert_app_r_alt by done. by eexists.
    + exists (<[length args := q]> argv), (<[length args := e]> eargv). rewrite list_lookup_insert_eq by done.
      rewrite !length_insert. split_and!; [done..|by apply Hnew].
    + eapply redirs_ext; [|done]. intros i p q' e' mode fd Hi. apply list_lookup_insert_ne. intros ->. congruence.
  - do 2 eexists. rewrite list_lookup_insert_eq by done. split; [done|]. apply list_lookup_insert_eq. lia.
Qed.

Lemma has_args_snoc q e w argv eargv args : W q e w -> (length args < MAXARGS)%nat -> length argv = MAXARGS -> length eargv = MAXARGS ->
  has_args W argv eargv args ->
  has_args W (<[length args := Some q]> argv) (<[length args := Some e]> eargv) (args ++ [w]).
Proof.
  intros HW Hl H1 H2 Ha j w' [Hj|[Hj Hw]]%lookup_app_Some.
  - assert (length args <> j) by (apply lookup_lt_Some in Hj; lia). rewrite !list_lookup_insert_ne by done. by apply Ha.
  - assert (j = length args) as -> by (apply list_lookup_singleton_Some in Hw; lia). rewrite Nat.sub_diag in Hw. injection Hw as <-.
    exists q, e. rewrite !list_lookup_insert_eq by lia. done.
Qed.

Lemma has_args_end argv eargv args : has_args W argv eargv args ->
  has_args W (<[length args := None]> argv) (<[length args := None]> eargv) args.
Proof.
  intros Ha j w Hj. assert (length args <> j) by (apply lookup_lt_Some in Hj; lia). rewrite !list_lookup_insert_ne by done. by apply Ha.
Qed.

Lemma parseargs_sim fuel : forall h0 a σ ts args r rs, at_tokens σ ts -> (2 * length ts <= sh_room σ)%nat ->
  filling h0 a σ args r rs -> (length args < MAXARGS)%nat ->
  psim (fun x σ' y ts' => exists r', x = (length y.1, Some r') /\ (length y.1 < MAXARGS)%nat /\ filling h0 a σ' y.1 r' y.2 /\
    (sh_room σ + 2 * length ts' <= sh_room σ' + 2 * length ts)%nat)
    (parseargs fuel es (Some a) (length args) (Some r) σ) (targs fuel args rs ts).
Proof.
  induction fuel as [|f IH]; intros h0 a σ ts args r rs Ha Hr Hfi Hlen; [done|]. cbn [parseargs targs].
  apply psim_peek; [done..|]. intros k Ha1. destruct (first_in "|)&;" ts).
  { apply psim_ret; [done|]. exists r. split_and!; [done..|cbn; lia]. }
  apply psim_next; [done|]. intros tok q e k1 Ha2 Ht. destruct ts as [|[c|w] ts]; cbn [token_is head tail length] in *.
  - subst tok. apply psim_ret; [done|]. exists r. split_and!; [done..|cbn; lia].
  - destruct Ht as (-> & H0 & H97). by rewrite (proj2 (Z.eqb_neq _ _) H0), (proj2 (Z.eqb_neq _ _) H97).
  - destruct Ht as [-> Hw]. cbn [Z.eqb Pos.eqb negb].
    destruct (set_arg_spec h0 a (set_pos k1 (set_pos k σ)) ts args r rs (Some q) (Some e) (args ++ [w])) as (σ1 & E & Ha3 & Hrm & Hfi1 & _); [done..| |].
    { intros. by apply has_args_snoc. }
    eapply psim_code; [exact E|]. cbn beta. destruct (Nat.leb_spec MAXARGS (S (length args))); [done|].
    eapply psim_bind; [apply (parseredirs_sim _ _ _ _ _ a); [done|cbn in *; lia|apply Hfi1..]|].
    intros x σ2 rs2 ts2 Ha4 (r2 & -> & Hch2 & Hlt2 & Hp2 & Hrm2).
    replace (S (length args)) with (length (args ++ [w])) by (rewrite length_app; cbn; lia).
    eapply psim_mono; [apply (IH h0); [done|cbn in *; lia|by eapply filling_grown|rewrite length_app; cbn; lia]|].
    intros x σ3 y ts3 _ (r3 & -> & Hl3 & Hfi3 & Hrm3). exists r3. split_and!; [done..|cbn in *; lia].
Qed.

(** The result of a parsing routine started in [σ] at [ts]. *)
Definition made (e : nat) (σ : sh) (ts : list token) (a : ptr) (σ' : sh) (t : tree) (ts' : list token) : Prop :=
  (exists p, a = Some p /\ denotes W (sh_heap σ') p t) /\ grown e σ ts σ' ts'.

Definition sims (m : nat -> nat -> K sh ptr) (tm : nat -> K (list token) tree) (fuel : nat) : Prop :=
  forall σ ts, at_tokens σ ts -> (2 * length ts + 1 <= sh_room σ)%nat -> psim (made 1 σ ts) (m fuel es σ) (tm fuel ts).

(** The common end of [parseline] and [parsepipe]: a separator, and the rest of the
    line in a node with what was read before. *)
Lemma join_sim sep m tm fuel (node : ptr -> ptr -> cmd) (tnode : tree -> tree -> tree) σ0 ts0 σ ts p t :
  subset_of sep -> sims m tm fuel ->
  (forall h i a b l r, h !! i = Some (node (Some a) (Some b)) -> (a < i)%nat -> (b < i)%nat ->
    denotes W h a l -> denotes W h b r -> denotes W h i (tnode l r)) ->
  at_tokens σ ts -> (2 * length ts0 + 1 <= sh_room σ0)%nat -> denotes W (sh_heap σ) p t -> grown 1 σ0 ts0 σ ts ->
  psim (made 1 σ0 ts0)
    ((let! more := peek es sep in
      if more then gettoken es;;; let! rest := m fuel es in new_cmd (node (Some p) rest) else ret (Some p)) σ)
    ((let! more := tpeek sep in if more then tnext;;; let! t' := tm fuel in ret (tnode t t') else ret t) ts).
Proof.
  intros Hsep Hm Hnode Ha Hr Hd [Hp Hrm]. apply psim_peek; [done..|]. intros k Ha1. destruct (first_in sep ts) eqn:Hf.
  2: { apply psim_ret; [done|]. split; [by exists p|done]. }
  destruct (first_in_true _ _ Hf) as (c & ts1 & ->). cbn [length] in Hrm.
  apply psim_next; [done|]. intros tok q e k1 Ha2 _. cbn [tail] in *.
  eapply psim_bind; [apply Hm; [done|cbn; lia]|]. intros x σ2 t2 ts2 Ha3 [(p2 & -> & Hd2) [Hp2 Hrm2]]. cbn [sh_room set_pos sh_heap] in *.
  destruct (new_cmd_spec (node (Some p) (Some p2)) _ _ Ha3 ltac:(lia)) as (σ3 & E & Ha4 & Hh & Hrm3).
  assert (sh_heap σ2 `prefix_of` sh_heap σ3) as Hp3 by (rewrite Hh; by eexists).
  exists (Some (length (sh_heap σ2))), σ3. split_and!; [done..|]. split.
  - eexists. split; [done|]. apply (Hnode _ _ p p2); [by rewrite Hh, lookup_app_r, Nat.sub_diag by done| | | |].
    + apply denotes_lt in Hd. apply prefix_length in Hp2. lia.
    + by eapply denotes_lt.
    + eapply denotes_prefix; [|done]. by etrans.
    + by eapply denotes_prefix.
  - split; [etrans; [done|]; by etrans|lia].
Qed.

Lemma parseline_sim f : sims parsepipe tpipe f -> sims parseline tline f -> sims parseline tline (S f).
Proof.
  intros Hpi Hli σ ts Ha Hr. cbn [parseline tline].
  eapply psim_bind; [by apply Hpi|]. intros x σ1 t1 ts1 Ha1 [(p1 & -> & Hd1) [Hp1 Hrm1]].
  eapply psim_bind; [apply parseback_sim; [done|lia|done]|]. intros x σ2 t2 ts2 Ha2 [(p2 & -> & Hd2) [Hp2 Hrm2]].
  eapply (join_sim ";" parseline tline f Listcmd TList); try done; [|split; [by etrans|lia]].
  intros. by exists a, b.
Qed.

Lemma parsepipe_sim f : sims parseexec texec f -> sims parsepipe tpipe f -> sims parsepipe tpipe (S f).
Proof.
  intros Hex Hpi σ ts Ha Hr. cbn [parsepipe tpipe].
  eapply psim_bind; [by apply Hex|]. intros x σ1 t1 ts1 Ha1 [(p1 & -> & Hd1) Hg1].
  eapply (join_sim "|" parsepipe tpipe f Pipecmd TPipe); try done. intros. by exists a, b.
Qed.

Lemma parseexec_sim f : sims parseblock tblock f -> sims parseexec texec (S f).
Proof.
  intros Hbl σ ts Ha Hr. cbn [parseexec texec]. apply psim_peek; [done..|]. intros k Ha1.
  destruct (first_in "(" ts); [by apply (Hbl (set_pos k σ))|].
  destruct (new_cmd_spec (Execcmd (replicate MAXARGS None) (replicate MAXARGS None)) _ _ Ha1 ltac:(cbn; lia)) as (σ1 & E & Ha2 & Hh & Hrm).
  eapply psim_code; [exact E|]. cbn beta. cbn [sh_room set_pos sh_heap] in *. set (a := length (sh_heap σ)) in *.
  assert (filling (sh_heap σ) a σ1 [] a []) as Hfi.
  { unfold filling. rewrite Hh. split_and!; [by eexists|done| |constructor|rewrite length_app; cbn; lia].
    do 2 eexists. rewrite lookup_app_r, Nat.sub_diag by done. split_and!; [done..|]. intros j w [=]. }
  eapply psim_bind; [apply (parseredirs_sim _ _ _ _ _ a); [done|lia|apply Hfi..]|].
  intros x σ2 rs2 ts2 Ha3 (r2 & -> & Hch2 & Hlt2 & Hp2 & Hrm2).
  eapply psim_bind; [apply (parseargs_sim f (sh_heap σ) a _ _ []); [done|lia|by eapply filling_grown|cbn; unfold MAXARGS; lia]|].
  intros x σ3 [args rs] ts3 Ha4 (r3 & -> & Hl3 & Hfi3 & Hrm3). cbn [fst snd] in *.
  destruct (set_arg_spec _ _ _ _ _ _ _ None None args Ha4 Hfi3 Hl3) as (σ4 & E4 & Ha5 & Hrm4 & Hfi4 & argv & eargv & Hn & Hnone).
  { intros argv eargv _ _. apply has_args_end. }
  eapply psim_code; [exact E4|]. apply psim_ret; [done|]. destruct Hfi4 as (Hpre & _ & (argv' & eargv' & Hn' & _ & _ & Hargs) & Hch4 & _).
  rewrite Hn in Hn'. injection Hn' as <- <-. split; [|split; [done|lia]].
  exists r3. split; [done|]. eapply chain_denotes; [done|]. by exists argv, eargv.
Qed.

Lemma parseblock_sim f : sims parseline tline f -> sims parseblock tblock (S f).
Proof.
  intros Hli σ ts Ha Hr. cbn [parseblock tblock]. apply psim_peek; [done..|]. intros k Ha1.
  destruct (first_in "(" ts) eqn:Hf; [|done]. destruct (first_in_true _ _ Hf) as (c & ts1 & ->). cbn [negb length] in *.
  apply psim_next; [done|]. intros tok q e k1 Ha2 _. cbn [tail] in *.
  eapply psim_bind; [apply Hli; [done|cbn; lia]|]. intros x σ2 t2 ts2 Ha3 [(p2 & -> & Hd2) [Hp2 Hrm2]]. cbn [sh_room set_pos sh_heap] in *.
  apply psim_peek; [done..|]. intros k2 Ha4. destruct (first_in ")" ts2) eqn:Hf2; [|done].
  destruct (first_in_true _ _ Hf2) as (c2 & ts3 & ->). cbn [negb length] in *.
  apply psim_next; [done|]. intros tok2 q2 e2 k3 Ha5 _. cbn [tail] in *.
  eapply psim_tail; [apply (parseredirs_sim _ _ _ _ [] p2); [done|cbn; lia|constructor|by eapply denotes_lt]|].
  intros x σ4 rs ts4 (r4 & -> & Hch & _ & Hp4 & Hrm4). cbn [sh_room set_pos sh_heap] in *. split.
  - exists r4. split; [done|]. eapply chain_denotes; [done|]. by eapply denotes_prefix.
  - split; [by etrans|cbn [length]; lia].
Qed.

Lemma parse_sim fuel : sims parseline tline fuel /\ sims parsepipe tpipe fuel /\ sims parseexec texec fuel /\ sims parseblock tblock fuel.
Proof.
  induction fuel as [|f (H1 & H2 & H3 & H4)]; [by split_and!|].
  split_and!; [by apply parseline_sim|by apply parsepipe_sim|by apply parseexec_sim|by apply parseblock_sim].
Qed.

End line.

(** ** Terminating the words

    Only bytes that are not part of a word are set to 0. *)
Definition cut (m m' : list Z) : Prop := length m' = length m /\
  forall i c, m !! i = Some c -> m' !! i = Some c \/ m' !! i = Some 0 /\ wordbyte c = false.

#[local] Instance cut_preorder : PreOrder cut.
Proof.
  split; [intros m; split; auto|]. intros m1 m2 m3 [L1 H1] [L2 H2]. split; [congruence|]. intros i c Hc.
  destruct (H1 i c Hc) as [H|[H Hw]]; destruct (H2 i _ H) as [H'|[H' _]]; auto.
Qed.

(** The word [w] of [m0] is terminated in [m]. *)
Definition ended (m0 m : list Z) (q e : nat) (w : list Z) : Prop := word m0 q e w /\ m !! e = Some 0.

Lemma denotes_mono (W W' : nat -> nat -> list Z -> Prop) h : (forall q e w, W q e w -> W' q e w) ->
  forall t p, denotes W h p t -> denotes W' h p t.
Proof.
  intros HW. assert (forall argv eargv args, has_args W argv eargv args -> has_args W' argv eargv args) as Ha.
  { intros argv eargv args H j w Hj. destruct (H j w Hj) as (q & e & ? & ? & ?). eauto 6. }
  induction t; cbn; naive_solver.
Qed.

Lemma ended_cut m0 m m' q e w : cut m m' -> ended m0 m q e w -> ended m0 m' q e w.
Proof. intros [_ H] [Hw He]. split; [done|]. by destruct (H _ _ He) as [?|[? _]]. Qed.

Lemma word_end m q e w : word m q e w -> exists c, m !! e = Some c /\ wordbyte c = false.
Proof.
  intros (pre & c & post & -> & -> & -> & _ & Hc). exists c. split; [|done].
  rewrite app_assoc, <-length_app, lookup_app_r by done. by rewrite Nat.sub_diag.
Qed.

Lemma store_end m0 q e w σ : word m0 q e w -> cut m0 (sh_mem σ) ->
  exists σ', store e 0 σ = Ret tt σ' /\ sh_heap σ' = sh_heap σ /\ cut (sh_mem σ) (sh_mem σ') /\ ended m0 (sh_mem σ') q e w.
Proof.
  intros Hw [_ Hc]. destruct (word_end _ _ _ _ Hw) as (c & He & Hwb).
  assert (exists c', sh_mem σ !! e = Some c' /\ wordbyte c' = false) as (c' & He' & Hwb') by (destruct (Hc e c He) as [?|[? _]]; eauto).
  unfold store, bind, gets. rewrite He'. eexists. split; [done|]. cbn [sh_heap set_line sh_mem]. split; [done|].
  assert (e < length (sh_mem σ))%nat as Hlt by (by eapply lookup_lt_Some). split; [|split; [done|by apply list_lookup_insert_eq]].
  split; [by rewrite length_insert|]. intros i d Hd. destruct (decide (e = i)) as [<-|Hne].
  - right. rewrite list_lookup_insert_eq by done. naive_solver.
  - left. by rewrite list_lookup_insert_ne.
Qed.

Lemma end_args_spec m0 args : forall argv eargv σ, has_args (word m0) argv eargv args -> argv !! length args = Some None ->
  cut m0 (sh_mem σ) -> exists σ', end_args argv eargv σ = Ret tt σ' /\ sh_heap σ' = sh_heap σ /\
    cut (sh_mem σ) (sh_mem σ') /\ has_args (ended m0 (sh_mem σ')) argv eargv args.
Proof.
  induction args as [|w args IH]; intros argv eargv σ Ha Hn Hc.
  - destruct argv as [|[?|] argv]; [done|done|]. exists σ. split_and!; [done..|]. intros j w [=].
  - destruct (Ha 0%nat w eq_refl) as (q & e & Hq & He & Hw). destruct argv as [|? argv], eargv as [|? eargv]; [done..|].
    injection Hq as ->. injection He as ->. cbn [end_args]. destruct (store_end _ _ _ _ σ Hw Hc) as (σ1 & E1 & Hh1 & Hc1 & Hen).
    destruct (IH argv eargv σ1) as (σ2 & E2 & Hh2 & Hc2 & Ha2); [intros j; exact (Ha (S j))|done|by etrans|].
    exists σ2. unfold bind. rewrite E1. split_and!; [done|congruence|by etrans|]. intros [|j] w' Hj; [|by apply Ha2].
    injection Hj as <-. exists q, e. split_and!; [done..|by eapply ended_cut].
Qed.

Lemma nulterminate_spec m0 h f : forall t p σ, denotes (word m0) h p t -> sh_heap σ = h -> cut m0 (sh_mem σ) -> (p < f)%nat ->
  exists σ', nulterminate f (Some p) σ = Ret (Some p) σ' /\ sh_heap σ' = h /\ cut (sh_mem σ) (sh_mem σ') /\
    denotes (ended m0 (sh_mem σ')) h p t.
Proof.
  induction f as [|f IH]; intros t p σ Hd Hh Hc Hp; [lia|]. cbn [nulterminate]. unfold bind at 1 2 3, gets. rewrite Hh.
  assert (forall l r a b, denotes (word m0) h a l -> denotes (word m0) h b r -> (a < f)%nat -> (b < f)%nat ->
    exists σ2, (nulterminate f (Some a);;; nulterminate f (Some b);;; ret tt) σ = Ret tt σ2 /\ sh_heap σ2 = h /\
      cut (sh_mem σ) (sh_mem σ2) /\ denotes (ended m0 (sh_mem σ2)) h a l /\ denotes (ended m0 (sh_mem σ2)) h b r) as Hboth.
  { intros l r a b Hda Hdb Hla Hlb. destruct (IH l a σ Hda Hh Hc Hla) as (σ1 & E1 & Hh1 & Hc1 & Hd1).
    destruct (IH r b σ1 Hdb Hh1 ltac:(by etrans) Hlb) as (σ2 & E2 & Hh2 & Hc2 & Hd2). unfold bind. rewrite E1, E2.
    exists σ2. split_and!; [done|done|by etrans| |done]. eapply denotes_mono; [|done]. intros. by eapply ended_cut. }
  destruct t as [args|t file mode fd|l r|l r|t]; cbn [denotes] in Hd.
  - destruct Hd as (argv & eargv & Hn & Ha & Hend). rewrite Hn. cbn.
    destruct (end_args_spec m0 args argv eargv σ Ha Hend Hc) as (σ1 & E1 & Hh1 & Hc1 & Ha1). rewrite E1.
    exists σ1. split_and!; [done|congruence|done|]. by exists argv, eargv.
  - destruct Hd as (c & q & e & Hn & Hw & Hlt & Hd). rewrite Hn. cbn. unfold bind.
    destruct (IH t c σ Hd Hh Hc ltac:(lia)) as (σ1 & E1 & Hh1 & Hc1 & Hd1). rewrite E1.
    destruct (store_end m0 q e file σ1 Hw ltac:(by etrans)) as (σ2 & E2 & Hh2 & Hc2 & Hen). rewrite E2.
    exists σ2. split_and!; [done|congruence|by etrans|]. exists c, q, e. split_and!; [done..|].
    eapply denotes_mono; [|done]. intros. by eapply ended_cut.
  - destruct Hd as (a & b & Hn & Hla & Hlb & Hda & Hdb). rewrite Hn. cbn.
    destruct (Hboth l r a b Hda Hdb ltac:(lia) ltac:(lia)) as (σ2 & E2 & Hh2 & Hc2 & Hd1 & Hd2). unfold bind in E2 |- *. rewrite E2.
    exists σ2. split_and!; [done..|]. by exists a, b.
  - destruct Hd as (a & b & Hn & Hla & Hlb & Hda & Hdb). rewrite Hn. cbn.
    destruct (Hboth l r a b Hda Hdb ltac:(lia) ltac:(lia)) as (σ2 & E2 & Hh2 & Hc2 & Hd1 & Hd2). unfold bind in E2 |- *. rewrite E2.
    exists σ2. split_and!; [done..|]. by exists a, b.
  - destruct Hd as (c & Hn & Hlt & Hd). rewrite Hn. cbn. unfold bind.
    destruct (IH t c σ Hd Hh Hc ltac:(lia)) as (σ1 & E1 & Hh1 & Hc1 & Hd1). rewrite E1.
    exists σ1. split_and!; [done..|]. by exists c.
Qed.

(** ** parsecmd *)

(** The C string at [q] is [w]. *)
Definition cstring (m : list Z) (q : nat) (w : list Z) : Prop := exists rest, drop q m = w ++ 0 :: rest /\ Forall (fun c => c <> 0) w.

Lemma ended_cstring m0 m q e w : cut m0 m -> ended m0 m q e w -> cstring m q w.
Proof.
  intros [Hl Hc] [(pre & c & post & -> & -> & -> & Hw & _) He]. exists (drop (S (length pre + length w)) m).
  assert (Forall (fun c => c <> 0) w) as H0.
  { eapply Forall_impl; [exact Hw|]. intros x Hx ->. by vm_compute in Hx. }
  split; [|done]. rewrite <-(take_drop (length w) (drop (length pre) m)), drop_drop. f_equal; [|by apply drop_S].
  apply list_eq. intros i. destruct (w !! i) as [x|] eqn:Hx.
  - assert (i < length w)%nat by (by eapply lookup_lt_Some). rewrite lookup_take_lt, lookup_drop by done.
    destruct (Hc (length pre + i)%nat x) as [?|[_ Hb]]; [|done|].
    + rewrite lookup_app_r by lia. replace (length pre + i - length pre)%nat with i by lia. by rewrite lookup_app_l.
    + rewrite Forall_lookup in Hw. specialize (Hw i x Hx). cbn in Hw. congruence.
  - apply lookup_ge_None in Hx. apply lookup_take_ge. lia.
Qed.

Lemma strlen_line line z : Forall (fun c => c <> 0) line -> Z.to_nat (strlen (line ++ 0 :: z)) = length line.
Proof.
  assert (Forall (fun c => c <> 0) line -> strlen (line ++ 0 :: z) = Z.of_nat (length line)) as H; [|by intros ?%H; lia].
  induction 1 as [|c line Hc _ IH]; [done|]. cbn [app strlen length]. rewrite (proj2 (Z.eqb_neq c 0)) by done. lia.
Qed.

(** Up to the test for leftovers, the code follows the parser on tokens. *)
Lemma parsecmd_tokens line z σ : Forall (fun c => c <> 0) line -> sh_mem σ = line ++ 0 :: z -> (2 * length line + 1 <= sh_room σ)%nat ->
  match tline (parse_fuel (length line)) (lex line) with
  | Ret t [] => exists p σ', parsecmd σ = Ret (Some p) σ' /\
      denotes (fun q _ w => cstring (sh_mem σ') q w) (sh_heap σ') p t
  | Ret _ (_ :: _) => parsecmd σ = Panic "syntax"
  | Panic msg => parsecmd σ = Panic msg
  | _ => False
  end.
Proof.
  intros Hl Hm Hr. pose proof (lex_length line) as Hlen.
  assert (at_tokens line z (set_pos 0 σ) (lex line)) as Ha by (split_and!; [done|cbn; lia|by cbn; rewrite drop_0]).
  destruct (parser_ends (parse_fuel (length line))) as (Hends & _). specialize (Hends (lex line) ltac:(unfold parse_fuel; lia)).
  destruct (parse_sim line z Hl (parse_fuel (length line))) as (Hsim & _). specialize (Hsim _ _ Ha ltac:(cbn; lia)).
  assert (parsecmd σ = (let! cmd := parseline (parse_fuel (length line)) (length line) in
    peek (length line) "";;;
    let! s := gets sh_pos in
    if negb (s =? length line)%nat then panic "syntax" else
    let! h := gets sh_heap in
    nulterminate (S (length h)) cmd;;;
    ret cmd) (set_pos 0 σ)) as ->.
  { unfold parsecmd. unfold bind at 1 2, modify, gets. change (sh_mem (set_pos 0 σ)) with (sh_mem σ). by rewrite Hm, strlen_line. }
  destruct (tline _ _) as [t rest|msg| | |] eqn:Et; unfold psim in Hsim; [|unfold bind; by rewrite Hsim|done..].
  destruct Hsim as (a & σ1 & E1 & Ha1 & (p & -> & Hd) & _).
  destruct (peek_spec line z Hl σ1 rest "" Ha1 eq_refl) as (k & E & (Hm2 & _) & Hk). cbn [set_pos sh_mem] in Hm2.
  rewrite (bind_eq _ _ _ _ _ E1), (bind_eq _ _ _ _ _ E), (bind_eq _ _ _ k (set_pos k σ1)) by done. destruct rest as [|t0 rest].
  - rewrite (proj2 Hk eq_refl), Nat.eqb_refl. cbn [negb]. unfold bind, gets. change (sh_heap (set_pos (length line) σ1)) with (sh_heap σ1).
    destruct (nulterminate_spec (line ++ 0 :: z) (sh_heap σ1) (S (length (sh_heap σ1))) t p (set_pos (length line) σ1)) as (σ2 & E2 & Hh2 & Hc & Hd2);
      [done|done|by cbn; rewrite Hm2|apply denotes_lt in Hd; lia|]. rewrite E2. exists p, σ2. split; [done|].
    rewrite Hh2. eapply denotes_mono; [|done]. cbn. intros q e w. cbn in Hc. rewrite Hm2 in Hc. by apply ended_cstring.
  - destruct (Nat.eqb_spec k (length line)) as [->|]; [by discriminate (proj1 Hk eq_refl)|done].
Qed.

(** C29. The shell's parser decides its grammar, for every line without NUL, provided
    [malloc] has room for the nodes: either the line has exactly one
    tree in the grammar, and [parsecmd] returns a pointer to it in memory, every word
    of it a terminated string; or the line has no tree, and [parsecmd] gives an
    error. It always ends. *)
Theorem parsecmd_correct line z σ :
  Forall (fun c => c <> 0) line -> sh_mem σ = line ++ 0 :: z -> (2 * length line + 1 <= sh_room σ)%nat ->
  (exists t p σ', Line (lex line) t /\ (forall t', Line (lex line) t' -> t' = t) /\ parsecmd σ = Ret (Some p) σ' /\
    denotes (fun q _ w => cstring (sh_mem σ') q w) (sh_heap σ') p t) \/
  (exists msg, parsecmd σ = Panic msg /\ forall t, ~ Line (lex line) t).
Proof.
  intros Hl Hm Hr. pose proof (parsecmd_tokens line z σ Hl Hm Hr) as H. pose proof (lex_length line) as Hlen.
  assert (forall t, Line (lex line) t -> tline (parse_fuel (length line)) (lex line) = Ret t []) as Hc.
  { intros t Ht. pose proof (proj1 parser_complete _ _ Ht [] (parse_fuel (length line)) I) as Hc.
    rewrite app_nil_r in Hc. apply Hc. unfold parse_fuel. lia. }
  destruct (tline _ _) as [t [|t0 rest]|msg| | |] eqn:Et; try done.
  - left. destruct H as (p & σ' & E & Hd). exists t, p, σ'. split_and!; [|intros t' [=]%Hc|done|done]; [|done].
    destruct (parser_sound (parse_fuel (length line))) as (Hs & _). destruct (Hs _ _ _ Et) as (used & E' & Ht).
    rewrite app_nil_r in E'. by subst used.
  - right. exists "syntax". split; [done|]. by intros t' ?%Hc.
  - right. exists msg. split; [done|]. by intros t' ?%Hc.
Qed.

(** The line [ls a | (wc; b &) > f] with its newline. *)
Lemma parsecmd_correct_witness : exists t p σ', parsecmd (Sh (lit "ls a | (wc; b &) > f" ++ [10] ++ 0 :: [0; 0]) 0 [] 50) = Ret (Some p) σ' /\
  denotes (fun q _ w => cstring (sh_mem σ') q w) (sh_heap σ') p t.
Proof.
  destruct (parsecmd_correct (lit "ls a | (wc; b &) > f" ++ [10]) [0; 0] (Sh (lit "ls a | (wc; b &) > f" ++ [10] ++ 0 :: [0; 0]) 0 [] 50))
    as [(t & p & σ' & _ & _ & E & H)|(msg & E & _)].
  - by_evaluation.
  - reflexivity.
  - apply (bool_decide_unpack _). vm_compute. exact I.
  - exists t, p, σ'. split; [exact E|exact H].
  - exfalso. vm_compute in E. discriminate E.
Defined.
