(* ===== verification/ShPrint.v ===== *)
(** Printing command trees: every tree of the shell can be written as a line, with
    parentheses where they are needed, that [parsecmd] reads back as that tree. *)
From S2P Require Import Prelude Str Sysfile Sh ShGrammar ShParse.

(** ** From trees to text *)

Definition paren (ts : list token) : list token := Sym 40 :: ts ++ [Sym 41].

(** The tokens of a tree where a command (0), a pipeline (1), a line up to its first
    [;] (2) or a line (3) is expected. *)
Fixpoint unparse (level : nat) (t : tree) : list token :=
  match t with
  | TExec args => Word <$> args
  | TRedir t file _ fd => unparse 0 t ++ [Sym (if fd =? 0 then 60 else 62); Word file]
  | TPipe l r =>
    let ts := unparse 0 l ++ Sym 124 :: unparse 1 r in if (1 <=? level)%nat then ts else paren ts
  | TBack t =>
    let ts := unparse 2 t ++ [Sym 38] in if (2 <=? level)%nat then ts else paren ts
  | TList l r =>
    let ts := unparse 2 l ++ Sym 59 :: unparse 3 r in if (3 <=? level)%nat then ts else paren ts
  end.

Definition spell (t : token) : list Z := match t with Sym c => if c =? 43 then [62; 62] else [c] | Word w => w end.
Definition text (ts : list token) : list Z := concat ((fun t => spell t ++ [32]) <$> ts).
Definition print (t : tree) : list Z := text (unparse 3 t).

(** Words are not empty and have no blanks or symbols, there are at most nine to a
    command, and files are opened as the two kinds of redirection do. *)
Definition plain_word (w : list Z) : Prop := w <> [] /\ Forall (fun c => wordbyte c = true) w.

Fixpoint printable (t : tree) : Prop :=
  match t with
  | TExec args => (length args < MAXARGS)%nat /\ Forall plain_word args
  | TRedir t file mode fd => plain_word file /\ (mode = O_RDONLY /\ fd = 0 \/ mode = Z.lor O_WRONLY O_CREATE /\ fd = 1) /\ printable t
  | TPipe l r | TList l r => printable l /\ printable r
  | TBack t => printable t
  end.

(** ** The tokens of a tree are in the grammar *)

Lemma items_words args : items (Word <$> args) args [].
Proof. induction args; cbn; by constructor. Qed.

Lemma Exec_redir ts t c w : Exec ts t -> c ∈ [60; 62; 43] -> Exec (ts ++ [Sym c; Word w]) (redir_of t (c, w)).
Proof.
  intros H Hc. assert (items [Sym c; Word w] [] [(c, w)]) as Hi by (constructor; [done|constructor]).
  inversion H as [ts' args rs Hi' Hl|ts' t' rts rs Hli Hi']; subst.
  - replace (redir_of (wrap (TExec args) rs) (c, w)) with (wrap (TExec args) (rs ++ [(c, w)])) by (unfold wrap; by rewrite foldl_app).
    constructor; [|done]. rewrite <-(app_nil_r args). by apply items_app.
  - replace (redir_of (wrap t' rs) (c, w)) with (wrap t' (rs ++ [(c, w)])) by (unfold wrap; by rewrite foldl_app).
    cbn. rewrite <-app_assoc. cbn. constructor; [done|]. by apply (items_app rts _ [] []).
Qed.

Lemma Exec_paren ts t : Line ts t -> Exec (paren ts) t.
Proof. intros H. apply (Exec_block ts t [] []); [done|constructor]. Qed.

(** A line up to its first [;]. *)
Definition Backs (ts : list token) (t : tree) : Prop :=
  exists n ts' t', ts = ts' ++ replicate n (Sym 38) /\ t = Nat.iter n TBack t' /\ Pipe ts' t'.

Lemma Backs_pipe ts t : Pipe ts t -> Backs ts t.
Proof. intros H. exists 0%nat, ts, t. by rewrite app_nil_r. Qed.

Lemma Backs_line ts t : Backs ts t -> Line ts t.
Proof. intros (n & ts' & t' & -> & -> & H). by constructor. Qed.

Lemma Backs_back ts t : Backs ts t -> Backs (ts ++ [Sym 38]) (TBack t).
Proof.
  intros (n & ts' & t' & -> & -> & H). exists (S n), ts', t'. split_and!; [|done|done].
  by rewrite <-app_assoc, <-replicate_S_end.
Qed.

Lemma Backs_list ts t ts' t' : Backs ts t -> Line ts' t' -> Line (ts ++ Sym 59 :: ts') (TList t t').
Proof. intros (n & ts1 & t1 & -> & -> & H) H'. rewrite <-app_assoc. by constructor. Qed.

(** The four levels from the weakest: what is a command is also the others. *)
Definition parses (level : nat) (ts : list token) (t : tree) : Prop :=
  match level with 0%nat => Exec ts t | 1%nat => Pipe ts t | 2%nat => Backs ts t | _ => Line ts t end.

Lemma parses_up k level ts t : (k <= level)%nat -> parses k ts t -> parses level ts t.
Proof.
  intros Hk H. assert (forall n, parses n ts t -> parses (S n) ts t) as Hs.
  { intros [|[|[|n]]]; cbn; [apply Pipe_last|apply Backs_pipe|apply Backs_line|done]. }
  induction Hk; [done|by apply Hs].
Qed.

(** A form of level [k], in parentheses where another is expected. *)
Lemma parses_paren k level ts t : (k <= 3)%nat -> parses k ts t -> parses level (if (k <=? level)%nat then ts else paren ts) t.
Proof.
  intros H3 H. destruct (Nat.leb_spec k level) as [Hk|Hk]; [by eapply parses_up|].
  apply (parses_up 0); [lia|]. apply Exec_paren. by apply (parses_up k 3 ts t).
Qed.

Lemma unparse_parses t : forall level, printable t -> parses level (unparse level t) t.
Proof.
  induction t as [args|t IH file mode fd|l IHl r IHr|l IHl r IHr|t IH]; intros level Hp; cbn [printable unparse] in *.
  - apply (parses_up 0); [lia|]. apply (Exec_simple _ args []); [apply items_words|apply Hp].
  - destruct Hp as (_ & Hm & Hp). apply (parses_up 0); [lia|]. specialize (IH 0%nat Hp). cbn in IH.
    destruct Hm as [[-> ->]|[-> ->]]; cbn [Z.eqb].
    + apply (Exec_redir _ t 60 file IH). set_solver.
    + apply (Exec_redir _ t 62 file IH). set_solver.
  - destruct Hp as [Hl Hr]. apply parses_paren; [lia|]. apply Pipe_more; [by apply (IHl 0%nat)|by apply (IHr 1%nat)].
  - destruct Hp as [Hl Hr]. apply parses_paren; [lia|]. apply Backs_list; [by apply (IHl 2%nat)|by apply (IHr 3%nat)].
  - apply parses_paren; [lia|]. apply Backs_back. by apply (IH 2%nat).
Qed.

(** ** The text of tokens *)

Definition plain_token (t : token) : Prop :=
  match t with Sym c => c ∈ symbols \/ c = 43 | Word w => plain_word w end.

Lemma lex_text ts bl : Forall plain_token ts -> Forall (fun c => white c = true) bl -> lex (text ts ++ bl) = ts.
Proof.
  intros Hts Hw. induction Hts as [|t ts Ht _ IH]; [cbn; rewrite <-(app_nil_r bl); by rewrite lex_white|].
  unfold text. cbn [fmap list_fmap concat]. fold (text ts). rewrite <-!app_assoc. cbn [app].
  assert (lex (32 :: text ts ++ bl) = ts) as E by done. set (l := text ts ++ bl) in *. clearbody l. destruct t as [c|w]; cbn [spell plain_token] in *.
  - destruct (Z.eqb_spec c 43) as [->|Hc]; [cbn [app]; change (lex (62 :: 62 :: 32 :: l)) with (Sym 43 :: lex (32 :: l)); by rewrite E|].
    destruct Ht as [Ht|]; [|done]. cbn [app]. change symbols with [60; 124; 62; 38; 59; 40; 41] in Ht.
    rewrite !elem_of_cons, elem_of_nil in Ht. destruct_or!; subst; try done;
      match goal with |- lex (?c :: ?r) = _ => change (lex (c :: r)) with (Sym c :: lex r) end; by rewrite E.
  - destruct Ht as [Hne Hwd]. rewrite lex_word; [by rewrite E|done| |done].
    eapply Forall_impl; [exact Hwd|]. intros c Hc. by apply andb_true_iff in Hc as [_ ?].
Qed.

Lemma text_nonzero ts : Forall plain_token ts -> Forall (fun c => c <> 0 /\ c <> 10 /\ c <> 13) (text ts).
Proof.
  induction 1 as [|t ts Ht _ IH]; [constructor|]. unfold text. cbn [fmap list_fmap concat]. fold (text ts).
  apply Forall_app. split; [|done]. apply Forall_app. split; [|by constructor]. destruct t as [c|w]; cbn [spell plain_token] in *.
  - destruct (Z.eqb_spec c 43); [by repeat constructor|]. constructor; [|constructor]. destruct Ht as [Ht|]; [|done].
    split_and!; intros ->; revert Ht; [change (~ 0 ∈ symbols)|change (~ 10 ∈ symbols)|change (~ 13 ∈ symbols)]; by_evaluation.
  - eapply Forall_impl; [apply Ht|]. intros c Hc. split_and!; intros ->; by vm_compute in Hc.
Qed.

Lemma paren_plain ts : Forall plain_token ts -> Forall plain_token (paren ts).
Proof.
  intros H. unfold paren. constructor; [left; by_evaluation|]. apply Forall_app. split; [done|]. constructor; [left; by_evaluation|constructor].
Qed.

Lemma unparse_plain t : forall level, printable t -> Forall plain_token (unparse level t).
Proof.
  assert (forall (b : bool) ts, Forall plain_token ts -> Forall plain_token (if b then ts else paren ts)) as Hif.
  { intros [] ts H; [done|by apply paren_plain]. }
  assert (forall ts c ts', Forall plain_token ts -> c ∈ symbols -> Forall plain_token ts' -> Forall plain_token (ts ++ Sym c :: ts')) as Hsep.
  { intros. apply Forall_app. split; [done|]. constructor; [by left|done]. }
  induction t as [args|t IH file mode fd|l IHl r IHr|l IHl r IHr|t IH]; intros level Hp; cbn [printable unparse] in *.
  - apply Forall_fmap. apply Hp.
  - destruct Hp as (Hf & _ & Hp). apply Hsep; [by apply IH|destruct (fd =? 0); by_evaluation|by constructor].
  - apply Hif, Hsep; [apply IHl, Hp|by_evaluation|apply IHr, Hp].
  - apply Hif, Hsep; [apply IHl, Hp|by_evaluation|apply IHr, Hp].
  - apply Hif, Hsep; [by apply IH|by_evaluation|constructor].
Qed.

(** Blanks may follow the text. *)
Lemma parse_text t w z σ : printable t -> Forall (fun c => white c = true) w -> sh_mem σ = (print t ++ w) ++ 0 :: z ->
  (2 * length (print t ++ w) + 1 <= sh_room σ)%nat ->
  exists p σ', parsecmd σ = Ret (Some p) σ' /\ denotes (fun q _ w => cstring (sh_mem σ') q w) (sh_heap σ') p t.
Proof.
  intros Hp Hw Hm Hr. pose proof (unparse_plain t 3 Hp) as Hpl.
  assert (Forall (fun c => c <> 0) (print t ++ w)) as H0.
  { apply Forall_app. split; [eapply Forall_impl; [by apply text_nonzero|]; naive_solver|].
    eapply Forall_impl; [exact Hw|]. by intros c Hc ->. }
  pose proof (parsecmd_tokens (print t ++ w) z σ H0 Hm Hr) as H. pose proof (lex_length (print t ++ w)) as Hlen.
  unfold print in H, Hlen. rewrite (lex_text _ _ Hpl Hw) in H, Hlen.
  pose proof (proj1 parser_complete _ _ (unparse_parses t 3 Hp) [] (parse_fuel (length (text (unparse 3 t) ++ w))) I) as Hc.
  rewrite app_nil_r in Hc. by rewrite Hc in H by (unfold parse_fuel; lia).
Qed.

(** C30. Every command tree survives printing and parsing: [parsecmd] on the text of
    a printable tree returns a pointer to that tree in memory. *)
Theorem parse_print t z σ : printable t -> sh_mem σ = print t ++ 0 :: z -> (2 * length (print t) + 1 <= sh_room σ)%nat ->
  exists p σ', parsecmd σ = Ret (Some p) σ' /\ denotes (fun q _ w => cstring (sh_mem σ') q w) (sh_heap σ') p t.
Proof. intros Hp Hm Hr. apply (parse_text t [] z); [done|constructor|by rewrite app_nil_r|by rewrite app_nil_r]. Qed.

(** [(ls a | wc) > f; b < g &] *)
Definition sample : tree :=
  TList (TRedir (TPipe (TExec [lit "ls"; lit "a"]) (TExec [lit "wc"])) (lit "f") 513 1) (TBack (TRedir (TExec [lit "b"]) (lit "g") 0 0)).

Lemma parse_print_witness : exists p σ', parsecmd (Sh (print sample ++ 0 :: [0]) 7 [] 99) = Ret (Some p) σ' /\
  denotes (fun q _ w => cstring (sh_mem σ') q w) (sh_heap σ') p sample.
Proof.
  apply (parse_print sample [0] (Sh (print sample ++ 0 :: [0]) 7 [] 99)).
  - cbn. unfold plain_word. split_and!; try (by left; split); try (by right; split); try (by unfold MAXARGS; lia);
      repeat constructor; try discriminate; by_evaluation.
  - reflexivity.
  - apply (bool_decide_unpack _). vm_compute. exact I.
Defined.
