(* ===== verification/ShRun.v ===== *)
(** Running commands in the shell (sh.c): [runcmd] as a program of system calls, the
    descriptors every program is started with and the programs that have ended by
    then, and the loop that reads lines. *)
From S2P Require Import Prelude Str Fs File Sysfile Sh ShGrammar ShParse ShPrint.

(** ** Programs

    What a process does, as a tree of system calls: [k] continues with the result. A
    [fork] continues with 0 in the child and with the pid in the parent; [exec] comes
    back only if it fails; [pipe] gives the two descriptors or fails. *)
Inductive prog :=
| PExit
| PExec (argv : list (list Z)) (k : Z -> prog)
| PClose (fd : Z) (k : prog)
| POpen (path : list Z) (mode : Z) (k : Z -> prog)
| PDup (fd : Z) (k : prog)
| PPipe (k : option (Z * Z) -> prog)
| PFork (k : Z -> prog)
| PWait (k : prog)
| PWrite (fd : Z) (l : list Z) (k : prog)
| PChdir (path : list Z) (k : Z -> prog)
| PStuck.

Definition sh_panic (s : string) : prog := PWrite 2 (lit s ++ [10]) PExit.

Definition fork1 (k : Z -> prog) : prog := PFork (fun pid => if pid =? -1 then sh_panic "fork" else k pid).

(** The C string at [q]. *)
Definition str_at (m : list Z) (q : nat) : list Z := cstr (drop q m).

(** The strings of [argv] up to the null pointer. *)
Fixpoint argv_of (m : list Z) (argv : list (option nat)) : list (list Z) :=
  match argv with
  | Some q :: argv' => str_at m q :: argv_of m argv'
  | _ => []
  end.

(** [runcmd] never returns. *)
Fixpoint runcmd (fuel : nat) (σ : sh) (c : ptr) : prog :=
  match fuel with
  | O => PStuck
  | S f =>
    match c with
    | None => PExit
    | Some i =>
      match sh_heap σ !! i with
      | None => PStuck
      | Some (Execcmd argv _) =>
        match argv_of (sh_mem σ) argv with
        | [] => PExit
        | name :: args =>
          PExec (name :: args) (fun r =>
            PWrite 2 (lit "exec " ++ name ++ lit " failed") (
            let fin := PWrite 2 [10] PExit in
            if r =? E_CORRUPTED then PWrite 2 (lit ": " ++ name ++ lit " is corrupted") fin else fin))
        end
      | Some (Redircmd sub file _ mode fd) =>
        PClose fd (POpen (str_at (sh_mem σ) file) mode (fun r =>
          if r <? 0 then PWrite 2 (lit "open " ++ str_at (sh_mem σ) file ++ lit " failed" ++ [10]) PExit
          else runcmd f σ sub))
      | Some (Listcmd l r) =>
        fork1 (fun pid => if pid =? 0 then runcmd f σ l else PWait (runcmd f σ r))
      | Some (Pipecmd l r) =>
        PPipe (fun p =>
          match p with
          | None => sh_panic "pipe"
          | Some (p0, p1) =>
            fork1 (fun pid =>
              if pid =? 0 then PClose 1 (PDup p1 (PClose p0 (PClose p1 (runcmd f σ l))))
              else fork1 (fun pid =>
                if pid =? 0 then PClose 0 (PDup p0 (PClose p0 (PClose p1 (runcmd f σ r))))
                else PClose p0 (PClose p1 (PWait (PWait PExit)))))
          end)
      | Some (Backcmd sub) => fork1 (fun pid => if pid =? 0 then runcmd f σ sub else PExit)
      end
    end
  end.

(** ** The loop that reads lines *)

Definition nbuf : Z := 100.

(** [getcmd(buf, sizeof(buf))] after the prompt: the buffer and the rest of the
    standard input [inp], or its end. *)
Definition getcmd (inp : list Z) : option (list Z * list Z) :=
  let '(l, rest) := ugets inp nbuf in
  let buf := splice (replicate (Z.to_nat nbuf) 0) 0 l in
  if chr buf =? 0 then None else Some (buf, rest).

Definition prompt (k : prog) : prog := PWrite 2 (lit "$ ") k.

(** The child of the shell: [malloc] has [room] for that many nodes. *)
Definition run_line (room : nat) (buf : list Z) : prog :=
  match parsecmd (Sh buf 0 [] room) with
  | Ret c σ => runcmd (S (length (sh_heap σ))) σ c
  | Panic msg => sh_panic msg
  | _ => PStuck
  end.

Definition is_cd (buf : list Z) : bool :=
  match buf with
  | a :: b :: c :: _ => (a =? 99) && (b =? 100) && (c =? 32)
  | _ => false
  end.

(** The second loop of [main]. *)
Fixpoint main_loop (fuel room : nat) (inp : list Z) : prog :=
  match fuel with
  | O => PStuck
  | S f =>
    prompt (
    match getcmd inp with
    | None => PExit
    | Some (buf, rest) =>
      if is_cd buf then
        let buf := <[Z.to_nat (strlen buf - 1) := 0]> buf in
        let dir := str_at buf 3 in
        PChdir dir (fun r =>
          if r <? 0 then PWrite 2 (lit "cannot cd " ++ dir ++ [10]) (main_loop f room rest) else main_loop f room rest)
      else fork1 (fun pid => if pid =? 0 then run_line room buf else PWait (main_loop f room rest))
    end)
  end.

(** The first loop of [main]: descriptors 0, 1 and 2 are opened. *)
Fixpoint open_console (fuel : nat) (k : prog) : prog :=
  match fuel with
  | O => PStuck
  | S f => POpen (lit "console") O_RDWR (fun fd => if fd <? 0 then k else if 3 <=? fd then PClose fd k else open_console f k)
  end.

Definition main (room : nat) (inp : list Z) : prog := open_console (S (Z.to_nat NOFILE)) (main_loop (S (length inp)) room inp).

(** ** Descriptors

    What a descriptor refers to, as the system calls of the kernel see it: opening,
    duplicating and making a pipe take the lowest descriptors that are free. *)
Inductive obj := Opened (path : list Z) (mode : Z) | ReadEnd (n : nat) | WriteEnd (n : nat) | Other (n : nat).
Definition fdt : Type := list (option obj).

Definition lowest {A} (fds : list (option A)) : option nat := index_of (fun o => match o with None => true | Some _ => false end) fds.

Definition take_fd (fds : fdt) (o : obj) : option (nat * fdt) := i ← lowest fds; Some (i, <[i := Some o]> fds).

Definition close_at (fd : Z) (fds : fdt) : fdt := <[Z.to_nat fd := None]> fds.

(** A program that has been started, with its arguments and descriptors; and the
    start of a program together with those that have ended by then. *)
Definition started : Type := list (list Z) * fdt.
Definition start : Type := started * list started.

(** The programs a process and its descendants start when every system call that can
    succeed does, and every program ends some time after its start. [n] numbers the
    pipes. When the process begins, the programs in [before] have ended; since
    then those in [over] have; [kids] has, for each child not yet waited for, the
    programs that have ended when the child has, and [w] counts the [wait]s since
    there were none. A [wait] returns when some child has ended: once there were as
    many as children, all of them have. The result is the starts, and the programs
    that have ended when this process has. A process that starts a program ends
    with it; one that does not wait for a child can end before it. *)
Fixpoint starts (p : prog) (fds : fdt) (n : nat) (before over : list started) (kids : list (list started)) (w : nat)
  : list start * nat * list started :=
  match p with
  | PExit | PStuck => ([], n, over)
  | PExec argv _ => ([((argv, fds), before ++ over)], n, over ++ [(argv, fds)])
  | PClose fd k => starts k (close_at fd fds) n before over kids w
  | POpen path mode k =>
    match take_fd fds (Opened path mode) with
    | Some (i, fds') => starts (k (Z.of_nat i)) fds' n before over kids w
    | None => starts (k (-1)) fds n before over kids w
    end
  | PDup fd k =>
    match fds !! Z.to_nat fd with
    | Some (Some o) =>
      match take_fd fds o with
      | Some (_, fds') => starts k fds' n before over kids w
      | None => starts k fds n before over kids w
      end
    | _ => starts k fds n before over kids w
    end
  | PPipe k =>
    match take_fd fds (ReadEnd n) with
    | Some (i, fds1) =>
      match take_fd fds1 (WriteEnd n) with
      | Some (j, fds2) => starts (k (Some (Z.of_nat i, Z.of_nat j))) fds2 (S n) before over kids w
      | None => starts (k None) fds n before over kids w
      end
    | None => starts (k None) fds n before over kids w
    end
  | PFork k =>
    let '(a, n1, e) := starts (k 0) fds n (before ++ over) [] [] 0 in
    let '(b, n2, d) := starts (k 1) fds n1 before over (kids ++ [e]) w in
    (a ++ b, n2, d)
  | PWait k =>
    match kids with
    | [] => starts k fds n before over [] w
    | _ => if (S w =? length kids)%nat then starts k fds n before (over ++ concat kids) [] 0
           else starts k fds n before over kids (S w)
    end
  | PWrite _ _ k => starts k fds n before over kids w
  | PChdir _ k => starts (k 0) fds n before over kids w
  end.

(** What a command should start when the programs in [before] have ended, and which
    of its programs have ended when the command has: redirections replace standard
    input or output; the two sides of a pipe get its ends, and nothing else, and
    run at the same time; the second command of a list starts when all programs
    of the first have ended, except for those in the background. *)
Fixpoint programs (t : tree) (fds : fdt) (n : nat) (before : list started) : list start * nat * list started :=
  match t with
  | TExec [] => ([], n, [])
  | TExec argv => ([((argv, fds), before)], n, [(argv, fds)])
  | TRedir t file mode fd => programs t (<[Z.to_nat fd := Some (Opened file mode)]> fds) n before
  | TPipe l r =>
    let '(a, n1, dl) := programs l (<[1%nat := Some (WriteEnd n)]> fds) (S n) before in
    let '(b, n2, dr) := programs r (<[0%nat := Some (ReadEnd n)]> fds) n1 before in
    (a ++ b, n2, dl ++ dr)
  | TList l r =>
    let '(a, n1, dl) := programs l fds n before in
    let '(b, n2, dr) := programs r fds n1 (before ++ dl) in
    (a ++ b, n2, dl ++ dr)
  | TBack t => let '(a, n1, _) := programs t fds n before in (a, n1, [])
  end.

(** Descriptors 0, 1 and 2 are open and two are free. *)
Definition standard (fds : fdt) : Prop := exists a b c l i j,
  fds = Some a :: Some b :: Some c :: l /\ lowest l = Some i /\ forall o, lowest (<[i := Some o]> l) = Some j.

(** Redirections are of standard input or output. *)
Fixpoint std_redirs (t : tree) : Prop :=
  match t with
  | TExec _ => True
  | TRedir t _ _ fd => (fd = 0 \/ fd = 1) /\ std_redirs t
  | TPipe l r | TList l r => std_redirs l /\ std_redirs r
  | TBack t => std_redirs t
  end.

(** ** The descriptors of the programs the shell starts *)

Lemma lowest_Some {A} (l : list (option A)) i : lowest l = Some i -> l !! i = Some None.
Proof. intros (x & Hx & Hp & _)%index_of_Some. by destruct x. Qed.

Lemma take_std a b c l o i : lowest l = Some i ->
  take_fd (Some a :: Some b :: Some c :: l) o = Some (S (S (S i)), Some a :: Some b :: Some c :: <[i := Some o]> l).
Proof. unfold take_fd, lowest. cbn. by intros ->. Qed.

Lemma standard_insert fds k o : standard fds -> (k <= 1)%nat -> standard (<[k := Some o]> fds).
Proof. intros (a & b & c & l & i & j & -> & Hi & Hj) Hk. destruct k as [|[|k]]; [| |lia]; cbn; by do 6 eexists. Qed.

(** Closing a standard descriptor and taking the lowest one replaces it. *)
Lemma replace_std fds k o : standard fds -> (k <= 1)%nat -> take_fd (<[k := None]> fds) o = Some (k, <[k := Some o]> fds).
Proof. intros (a & b & c & l & i & j & -> & Hi & Hj) Hk. destruct k as [|[|k]]; [done|done|lia]. Qed.

(** The table while a pipe is set up: [i] and [j] are its two ends. *)
Lemma pipe_table fds n : standard fds -> exists i j fds1 fds2,
  take_fd fds (ReadEnd n) = Some (i, fds1) /\ take_fd fds1 (WriteEnd n) = Some (j, fds2) /\
  forall k o, (k <= 1)%nat ->
    <[k := None]> fds2 !! i = Some (Some (ReadEnd n)) /\ <[k := None]> fds2 !! j = Some (Some (WriteEnd n)) /\
    take_fd (<[k := None]> fds2) o = Some (k, <[k := Some o]> fds2) /\
    <[j := None]> (<[i := None]> (<[k := Some o]> fds2)) = <[k := Some o]> fds.
Proof.
  intros (a & b & c & l & i & j & -> & Hi & Hj). pose proof (lowest_Some _ _ Hi) as Li.
  pose proof (lowest_Some _ _ (Hj (ReadEnd n))) as Lj. specialize (Hj (ReadEnd n)).
  assert (i < length l)%nat as Hil by (by eapply lookup_lt_Some).
  assert (j < length l)%nat as Hjl by (apply lookup_lt_Some in Lj; by rewrite length_insert in Lj).
  assert (i <> j) as Hij. { intros <-. by rewrite list_lookup_insert_eq in Lj by done. }
  rewrite list_lookup_insert_ne in Lj by done.
  exists (S (S (S i))), (S (S (S j))). do 2 eexists. split; [by apply take_std|]. split; [by apply take_std|].
  set (l2 := <[j := Some (WriteEnd n)]> (<[i := Some (ReadEnd n)]> l)).
  assert (l2 !! i = Some (Some (ReadEnd n))) as L2i by (unfold l2; by rewrite list_lookup_insert_ne, list_lookup_insert_eq by done).
  assert (l2 !! j = Some (Some (WriteEnd n))) as L2j by (unfold l2; by rewrite list_lookup_insert_eq by (by rewrite length_insert)).
  assert (<[j := None]> (<[i := None]> l2) = l) as Lc.
  { unfold l2. rewrite (list_insert_insert_ne _ i j), list_insert_insert_eq, list_insert_insert_eq by done.
    rewrite (list_insert_id _ i) by done. by rewrite list_insert_id. }
  clearbody l2. intros [|[|k]] o Hk; [| |lia]; (split_and!; [exact L2i|exact L2j|done|]).
  - exact (f_equal (fun l => Some o :: Some b :: Some c :: l) Lc).
  - exact (f_equal (fun l => Some a :: Some o :: Some c :: l) Lc).
Qed.

Lemma cstring_str m q w : cstring m q w -> str_at m q = w.
Proof.
  intros (rest & E & Hw). unfold str_at. rewrite E. clear E. induction Hw as [|c w Hc _ IH]; cbn [app]; rewrite cstr_cons; [done|].
  by rewrite (proj2 (Z.eqb_neq c 0)), IH by done.
Qed.

Lemma argv_of_args m argv eargv args : has_args (fun q _ w => cstring m q w) argv eargv args -> argv !! length args = Some None ->
  argv_of m argv = args.
Proof.
  revert argv eargv. induction args as [|w args IH]; intros argv eargv Ha Hn.
  - by destruct argv as [|[?|] argv].
  - destruct (Ha 0%nat w eq_refl) as (q & e & Hq & He & Hw). destruct argv as [|? argv], eargv as [|? eargv]; [done..|].
    injection Hq as ->. cbn [argv_of]. rewrite (cstring_str _ _ _ Hw). f_equal. apply (IH argv eargv); [intros j; exact (Ha (S j))|done].
Qed.

(** Both sides of a [fork] that succeeds. *)
Lemma starts_fork1 k fds n before over kids w : starts (fork1 k) fds n before over kids w =
  let '(a, n1, e) := starts (k 0) fds n (before ++ over) [] [] 0 in
  let '(b, n2, d) := starts (k 1) fds n1 before over (kids ++ [e]) w in (a ++ b, n2, d).
Proof. done. Qed.

(** A process that has ended [over] since its begin goes on with a command. *)
Definition continued (over : list started) (r : list start * nat * list started) : list start * nat * list started :=
  let '(a, n, d) := r in (a, n, over ++ d).

Lemma continued_nil r : continued [] r = r.
Proof. by destruct r as [[a n] d]. Qed.

Lemma runcmd_starts σ f : forall t p fds n before over, denotes (fun q _ w => cstring (sh_mem σ) q w) (sh_heap σ) p t -> (p < f)%nat ->
  std_redirs t -> standard fds -> starts (runcmd f σ (Some p)) fds n before over [] 0 = continued over (programs t fds n (before ++ over)).
Proof.
  induction f as [|f IH]; intros t p fds n before over Hd Hp Hs Hfd; [lia|]. cbn [runcmd].
  destruct t as [args|t file mode fd|l r|l r|t]; cbn [denotes std_redirs programs] in *.
  - destruct Hd as (argv & eargv & -> & Ha & Hn). rewrite (argv_of_args _ _ _ _ Ha Hn). destruct args; cbn; [by rewrite app_nil_r|done].
  - destruct Hd as (c & q & e & -> & Hw & Hlt & Hd), Hs as [Hfds Hs]. rewrite (cstring_str _ _ _ Hw). cbn [starts]. unfold close_at.
    rewrite replace_std by (done || lia). rewrite (proj2 (Z.ltb_ge _ _)) by lia.
    apply IH; [done|lia|done|]. apply standard_insert; [done|lia].
  - destruct Hd as (a & b & -> & Hla & Hlb & Hda & Hdb), Hs as [Hsl Hsr].
    destruct (pipe_table fds n Hfd) as (i & j & fds1 & fds2 & E1 & E2 & Hk). cbn [starts]. rewrite E1, E2. rewrite !starts_fork1. cbn [Z.eqb starts].
    unfold close_at. rewrite !Nat2Z.id. change (Z.to_nat 1) with 1%nat.
    destruct (Hk 1%nat (WriteEnd n)) as (_ & -> & -> & ->); [lia|].
    rewrite (IH l a) by (done || lia || (apply standard_insert; [done|lia])). rewrite continued_nil, app_nil_r. destruct (programs l _ _ _) as [[xs n1] dl].
    fold (fork1 (fun pid => if pid =? 0 then PClose 0 (PDup (Z.of_nat i) (PClose (Z.of_nat i) (PClose (Z.of_nat j) (runcmd f σ (Some b)))))
      else PClose (Z.of_nat i) (PClose (Z.of_nat j) (PWait (PWait PExit))))).
    rewrite starts_fork1. cbn [Z.eqb starts]. unfold close_at. rewrite !Nat2Z.id. change (Z.to_nat 0) with 0%nat.
    destruct (Hk 0%nat (ReadEnd n)) as (-> & _ & -> & ->); [lia|].
    rewrite (IH r b) by (done || lia || (apply standard_insert; [done|lia])). rewrite continued_nil, app_nil_r.
    destruct (programs r _ _ _) as [[ys n2] dr]. cbn. by rewrite !app_nil_r.
  - destruct Hd as (a & b & -> & Hla & Hlb & Hda & Hdb), Hs as [Hsl Hsr]. rewrite starts_fork1. cbn [Z.eqb starts].
    rewrite (IH l a) by (done || lia). rewrite continued_nil, app_nil_r. destruct (programs l _ _ _) as [[xs n1] dl]. cbn [app length Nat.eqb concat].
    rewrite (IH r b) by (done || lia). rewrite app_nil_r, <- app_assoc. destruct (programs r _ _ _) as [[ys n2] dr]. cbn. by rewrite app_assoc.
  - destruct Hd as (c & -> & Hlt & Hd). rewrite starts_fork1. cbn [Z.eqb starts].
    rewrite (IH t c) by (done || lia). rewrite continued_nil, app_nil_r. destruct (programs t _ _ _) as [[xs n1] dt]. cbn. by rewrite !app_nil_r.
Qed.

(** ** A session *)

Lemma gets_line l rest room : Forall (fun c => c <> 10 /\ c <> 13) l -> (length l < room)%nat ->
  gets_loop (l ++ 10 :: rest) room = (l ++ [10; 0], rest).
Proof.
  intros Hl. revert room. induction Hl as [|c l [H10 H13] _ IH]; intros [|room] Hr; cbn [length] in Hr; try lia; [done|].
  cbn [app gets_loop]. rewrite (proj2 (Z.eqb_neq c 10)), (proj2 (Z.eqb_neq c 13)) by done. by rewrite IH by lia.
Qed.

Lemma getcmd_line l rest : Forall (fun c => c <> 0 /\ c <> 10 /\ c <> 13) l -> Z.of_nat (length l) < nbuf - 1 ->
  exists z, getcmd (l ++ 10 :: rest) = Some ((l ++ [10]) ++ 0 :: z, rest).
Proof.
  unfold nbuf. intros Hl Hlen. exists (replicate (98 - length l) 0). unfold getcmd, ugets, nbuf.
  rewrite gets_line by (lia || (eapply Forall_impl; [exact Hl|]; naive_solver)).
  replace (splice (replicate (Z.to_nat 100) 0) 0 (l ++ [10; 0])) with ((l ++ [10]) ++ 0 :: replicate (98 - length l) 0).
  - destruct l as [|c l]; [done|]. inversion Hl as [|? ? [H0 _] _]; subst. cbn [chr app]. by rewrite (proj2 (Z.eqb_neq c 0)).
  - unfold splice. rewrite take_0, drop_replicate, length_app, <-!app_assoc. cbn [length app].
    replace (Z.to_nat 100 - (Z.to_nat 0 + (length l + 2)))%nat with (98 - length l)%nat by lia. done.
Qed.

Lemma is_cd_line l z : is_cd (l ++ 10 :: z) = true -> is_cd l = true.
Proof.
  destruct l as [|a [|b [|c l]]]; [by destruct z as [|? [|? ?]]| | |done]; cbn.
  - destruct z; [done|]. by destruct (a =? 99).
  - by destruct (a =? 99), (b =? 100).
Qed.

Lemma printable_redirs t : printable t -> std_redirs t.
Proof. induction t; cbn; naive_solver. Qed.

(** The commands one after the other: each starts when the one before has ended. *)
Fixpoint session (ts : list tree) (fds : fdt) (n : nat) (before : list started) : list start * nat * list started :=
  match ts with
  | [] => ([], n, [])
  | t :: ts =>
    let '(a, n1, d) := programs t fds n before in
    let '(b, n2, e) := session ts fds n1 (before ++ d) in
    (a ++ b, n2, d ++ e)
  end.

(** A command whose text fits the buffer, and is not [cd]. *)
Definition typable (t : tree) : Prop :=
  printable t /\ Z.of_nat (length (print t)) < nbuf - 1 /\ is_cd (print t) = false.

Definition typed (ts : list tree) : list Z := concat ((fun t => print t ++ [10]) <$> ts).

Lemma run_line_starts t z room fds n before : printable t -> (2 * length (print t) + 3 <= room)%nat -> standard fds ->
  starts (run_line room ((print t ++ [10]) ++ 0 :: z)) fds n before [] [] 0 = programs t fds n before.
Proof.
  intros Hp Hr Hfd. unfold run_line.
  destruct (parse_text t [10] z (Sh ((print t ++ [10]) ++ 0 :: z) 0 [] room)) as (p & σ & E & Hd);
    [done|by repeat constructor|done|cbn; rewrite length_app; cbn; lia|].
  rewrite E, (runcmd_starts _ _ t), continued_nil, app_nil_r; [done|done|apply denotes_lt in Hd; lia|by apply printable_redirs|done].
Qed.

Lemma main_loop_starts ts : forall f room fds n before over, Forall typable ts -> (length ts < f)%nat -> (2 * Z.to_nat nbuf + 3 <= room)%nat ->
  standard fds -> starts (main_loop f room (typed ts)) fds n before over [] 0 = continued over (session ts fds n (before ++ over)).
Proof.
  induction ts as [|t ts IH]; intros [|f] room fds n before over Hts Hf Hr Hfd; cbn [length] in Hf; try lia; [cbn; by rewrite app_nil_r|].
  apply Forall_cons in Hts as [(Hp & Hlen & Hcd) Hts]. cbn [main_loop session]. unfold prompt. cbn [starts].
  assert (typed (t :: ts) = print t ++ 10 :: typed ts) as -> by (unfold typed; cbn; by rewrite <-app_assoc).
  destruct (getcmd_line (print t) (typed ts)) as [z ->]; [by apply text_nonzero, unparse_plain|done|].
  destruct (is_cd ((print t ++ [10]) ++ 0 :: z)) eqn:Hc; [rewrite <-app_assoc in Hc; apply is_cd_line in Hc; congruence|].
  rewrite starts_fork1. cbn [Z.eqb starts]. rewrite run_line_starts by (done || unfold nbuf in *; lia).
  destruct (programs t _ _ _) as [[a n1] d]. cbn [app length Nat.eqb concat]. rewrite IH by (done || lia). rewrite app_nil_r, <- app_assoc.
  destruct (session ts _ _ _) as [[b n2] e]. cbn. by rewrite app_assoc.
Qed.

(** C31. What is typed is run, when the system calls succeed. The shell, with
    descriptors 0 to 2 open and two more free, reads the text of a list of
    commands other than [cd], one to a line, each fitting its buffer. If every
    [fork], [open], [pipe] and [exec] succeeds, it starts exactly their programs: a
    redirected program has the file as its standard input or output, the two
    sides of a pipe have the ends of the same new pipe and no other descriptor of
    any pipe, and every other descriptor is the shell's own. When a program
    starts, every program of the lines before, and of the commands before it in
    its list, has ended, except for those started in the background: this is what
    the calls of [wait] are for. *)
Theorem shell_runs ts room fds n : Forall typable ts -> (2 * Z.to_nat nbuf + 3 <= room)%nat -> standard fds ->
  starts (main room (typed ts)) fds n [] [] [] 0 = session ts fds n [].
Proof.
  intros Hts Hr Hfd. unfold main. cbn [open_console starts]. pose proof Hfd as (a & b & c & l & i & j & -> & Hi & _).
  rewrite (take_std _ _ _ _ _ _ Hi). rewrite (proj2 (Z.ltb_ge _ _)), (proj2 (Z.leb_le _ _)) by lia. cbn [starts].
  unfold close_at. rewrite Nat2Z.id. cbn [insert list_insert]. fold (@insert nat (option obj) (list (option obj)) _ i).
  assert (<[i := None]> (<[i := Some (Opened (lit "console") O_RDWR)]> l) = l) as E.
  { rewrite list_insert_insert_eq. apply list_insert_id. by apply lowest_Some. }
  assert (length ts <= length (typed ts))%nat as Hl.
  { clear. induction ts as [|t ts IH]; [done|]. unfold typed in *. cbn. rewrite length_app, length_app. cbn. lia. }
  rewrite <- (continued_nil (session ts _ n [])).
  pose proof (main_loop_starts ts (S (length (typed ts))) room (Some a :: Some b :: Some c :: l) n [] [] Hts ltac:(lia) Hr Hfd) as M.
  cbn [app] in M. rewrite <- M.
  do 5 f_equal. exact E.
Qed.

Definition console_fds : fdt := replicate 3 (Some (Other 0)) ++ replicate 13 None.

Lemma console_standard : standard console_fds.
Proof. unfold console_fds. cbn. do 6 eexists. split; [reflexivity|]. by split. Qed.

Lemma shell_runs_witness : starts (main 300 (typed [sample; TExec [lit "ls"]])) console_fds 5 [] [] [] 0 = session [sample; TExec [lit "ls"]] console_fds 5 [].
Proof.
  apply (shell_runs [sample; TExec [lit "ls"]] 300 console_fds 5).
  - unfold typable. cbn [printable sample].
    repeat constructor; try discriminate; try (by_evaluation); try (by left; split); try (by right; split); apply (bool_decide_unpack _); vm_compute; exact I.
  - apply (bool_decide_unpack _). vm_compute. exact I.
  - exact console_standard.
Defined.

(** ** Failures and interleavings

    One step of a process: any system call may fail where the kernel can fail it, and
    an [exec] that succeeds takes the process away from the shell. A [dup] fails
    only when its descriptor is closed or none is free. *)
Inductive pstep (n : nat) : prog * fdt -> list (prog * fdt) -> Prop :=
| pstep_exec argv k fds : pstep n (PExec argv k, fds) []
| pstep_exec_fails argv k r fds : pstep n (PExec argv k, fds) [(k r, fds)]
| pstep_exit fds : pstep n (PExit, fds) []
| pstep_close fd k fds : pstep n (PClose fd k, fds) [(k, close_at fd fds)]
| pstep_open path mode k fds i fds' : take_fd fds (Opened path mode) = Some (i, fds') ->
    pstep n (POpen path mode k, fds) [(k (Z.of_nat i), fds')]
| pstep_open_fails path mode k r fds : r < 0 -> pstep n (POpen path mode k, fds) [(k r, fds)]
| pstep_dup fd k fds o i fds' : fds !! Z.to_nat fd = Some (Some o) -> take_fd fds o = Some (i, fds') ->
    pstep n (PDup fd k, fds) [(k, fds')]
| pstep_dup_fails fd k fds : fds !! Z.to_nat fd = None \/ fds !! Z.to_nat fd = Some None \/ lowest fds = None ->
    pstep n (PDup fd k, fds) [(k, fds)]
| pstep_pipe k fds i fds1 j fds2 : take_fd fds (ReadEnd n) = Some (i, fds1) -> take_fd fds1 (WriteEnd n) = Some (j, fds2) ->
    pstep n (PPipe k, fds) [(k (Some (Z.of_nat i, Z.of_nat j)), fds2)]
| pstep_pipe_fails k fds : pstep n (PPipe k, fds) [(k None, fds)]
| pstep_fork k pid fds : 0 < pid -> pstep n (PFork k, fds) [(k 0, fds); (k pid, fds)]
| pstep_fork_fails k fds : pstep n (PFork k, fds) [(k (-1), fds)]
| pstep_wait k fds : pstep n (PWait k, fds) [(k, fds)]
| pstep_write fd l k fds : pstep n (PWrite fd l k, fds) [(k, fds)]
| pstep_chdir path k r fds : pstep n (PChdir path k, fds) [(k r, fds)].

(** The processes of a session in any interleaving; [n] is the next pipe. *)
Inductive steps : nat -> list (prog * fdt) -> nat -> list (prog * fdt) -> Prop :=
| steps_refl n ps : steps n ps n ps
| steps_next n ps1 x ps2 xs n' ps' : pstep n x xs -> steps (S n) (ps1 ++ xs ++ ps2) n' ps' -> steps n (ps1 ++ x :: ps2) n' ps'.

(** The programs a command may start, with their descriptors. *)
Inductive allowed : tree -> fdt -> list (list Z) -> fdt -> Prop :=
| allowed_exec a args fds : allowed (TExec (a :: args)) fds (a :: args) fds
| allowed_redir t file mode fd fds argv fds' :
    allowed t (<[Z.to_nat fd := Some (Opened file mode)]> fds) argv fds' -> allowed (TRedir t file mode fd) fds argv fds'
| allowed_left l r n fds argv fds' : allowed l (<[1%nat := Some (WriteEnd n)]> fds) argv fds' -> allowed (TPipe l r) fds argv fds'
| allowed_right l r n fds argv fds' : allowed r (<[0%nat := Some (ReadEnd n)]> fds) argv fds' -> allowed (TPipe l r) fds argv fds'
| allowed_first l r fds argv fds' : allowed l fds argv fds' -> allowed (TList l r) fds argv fds'
| allowed_second l r fds argv fds' : allowed r fds argv fds' -> allowed (TList l r) fds argv fds'
| allowed_back t fds argv fds' : allowed t fds argv fds' -> allowed (TBack t) fds argv fds'.

(** Whatever happens, the process and its descendants start only programs in [Q]. *)
Inductive safe (Q : list (list Z) -> fdt -> Prop) : prog -> fdt -> Prop :=
| safe_intro p fds : p <> PStuck -> (forall argv k, p = PExec argv k -> Q argv fds) ->
    (forall n xs p' fds', pstep n (p, fds) xs -> (p', fds') ∈ xs -> safe Q p' fds') -> safe Q p fds.

(** Take the next step of a program apart. *)
Ltac safe_step :=
  constructor; [discriminate|intros ? ? Heq; try discriminate Heq|
    intros m xs p' fds' Hstep Hx; inversion Hstep; subst; clear Hstep;
    repeat match type of Hx with
           | _ ∈ [] => exfalso; exact (proj1 (elem_of_nil _) Hx)
           | _ ∈ _ :: _ => apply elem_of_cons in Hx as [Hx|Hx]; [injection Hx as -> ->|]
           end].

Lemma safe_mono (Q Q' : list (list Z) -> fdt -> Prop) p fds : (forall argv fds', Q argv fds' -> Q' argv fds') -> safe Q p fds -> safe Q' p fds.
Proof. intros HQ. induction 1 as [p fds Hp He _ IH]. constructor; eauto. Qed.

Lemma safe_exit Q fds : safe Q PExit fds.
Proof. safe_step. Qed.

Lemma safe_write Q fd l k fds : safe Q k fds -> safe Q (PWrite fd l k) fds.
Proof. intros H. by safe_step. Qed.

Lemma safe_wait Q k fds : safe Q k fds -> safe Q (PWait k) fds.
Proof. intros H. by safe_step. Qed.

Lemma safe_close Q fd k fds : safe Q k (close_at fd fds) -> safe Q (PClose fd k) fds.
Proof. intros H. by safe_step. Qed.

Lemma safe_dup Q fd k fds o i fds1 : fds !! Z.to_nat fd = Some (Some o) -> take_fd fds o = Some (i, fds1) ->
  safe Q k fds1 -> safe Q (PDup fd k) fds.
Proof.
  intros E1 E2 H. safe_step; [by simplify_eq|]. exfalso. unfold take_fd in E2.
  match goal with H : _ \/ _ |- _ => revert H end. intros [Hd|[Hd|Hd]]; [discriminate (eq_trans (eq_sym Hd) E1)..|by rewrite Hd in E2].
Qed.

Lemma safe_panic Q s fds : safe Q (sh_panic s) fds.
Proof. apply safe_write, safe_exit. Qed.

Lemma safe_fork1 Q k fds : safe Q (k 0) fds -> (forall pid, 0 < pid -> safe Q (k pid) fds) -> safe Q (fork1 k) fds.
Proof.
  intros H0 H1. unfold fork1. safe_step; [done| |apply safe_panic].
  rewrite (proj2 (Z.eqb_neq pid (-1))) by lia. by apply H1.
Qed.

Lemma runcmd_safe σ f : forall t p fds, denotes (fun q _ w => cstring (sh_mem σ) q w) (sh_heap σ) p t -> (p < f)%nat ->
  std_redirs t -> standard fds -> safe (allowed t fds) (runcmd f σ (Some p)) fds.
Proof.
  induction f as [|f IH]; intros t p fds Hd Hp Hs Hfd; [lia|]. cbn [runcmd].
  destruct t as [args|t file mode fd|l r|l r|t]; cbn [denotes std_redirs] in *.
  - destruct Hd as (argv & eargv & -> & Ha & Hn). rewrite (argv_of_args _ _ _ _ Ha Hn). destruct args as [|a args]; [apply safe_exit|].
    safe_step; [injection Heq as <- _; constructor|]. apply safe_write. case_match; repeat apply safe_write; apply safe_exit.
  - destruct Hd as (c & q & e & -> & Hw & Hlt & Hd), Hs as [Hfds Hs]. rewrite (cstring_str _ _ _ Hw). apply safe_close. unfold close_at.
    pose proof (replace_std fds (Z.to_nat fd) (Opened file mode) Hfd ltac:(lia)) as Er.
    assert (safe (allowed (TRedir t file mode fd) fds) (runcmd f σ (Some c)) (<[Z.to_nat fd := Some (Opened file mode)]> fds)) as Hsub.
    { eapply safe_mono; [|apply (IH t); [done|lia|done|apply standard_insert; [done|lia]]]. intros. by constructor. }
    safe_step.
    + simplify_eq. by rewrite (proj2 (Z.ltb_ge _ _)) by lia.
    + rewrite (proj2 (Z.ltb_lt _ _)) by lia. apply safe_write, safe_exit.
  - destruct Hd as (a & b & -> & Hla & Hlb & Hda & Hdb), Hs as [Hsl Hsr]. safe_step; [|apply safe_panic].
    destruct (pipe_table fds m Hfd) as (i' & j' & fds1' & fds2' & E1 & E2 & Hk). simplify_eq.
    destruct (Hk 1%nat (WriteEnd m)) as (_ & K1 & K2 & K3); [lia|]. destruct (Hk 0%nat (ReadEnd m)) as (K4 & _ & K5 & K6); [lia|].
    apply safe_fork1; [|intros pid1 Hpid1; rewrite (proj2 (Z.eqb_neq pid1 0)) by lia; apply safe_fork1; [|intros pid2 Hpid2]].
    + apply safe_close. eapply safe_dup; [by rewrite Nat2Z.id|exact K2|]. do 2 apply safe_close. unfold close_at. rewrite !Nat2Z.id, K3.
      eapply safe_mono; [|apply (IH l); [done|lia|done|apply standard_insert; [done|lia]]]. intros. by apply (allowed_left _ _ m).
    + apply safe_close. eapply safe_dup; [by rewrite Nat2Z.id|exact K5|]. do 2 apply safe_close. unfold close_at. rewrite !Nat2Z.id, K6.
      eapply safe_mono; [|apply (IH r); [done|lia|done|apply standard_insert; [done|lia]]]. intros. by apply (allowed_right _ _ m).
    + rewrite (proj2 (Z.eqb_neq pid2 0)) by lia. do 2 apply safe_close. do 2 apply safe_wait. apply safe_exit.
  - destruct Hd as (a & b & -> & Hla & Hlb & Hda & Hdb), Hs as [Hsl Hsr].
    apply safe_fork1; [|intros pid Hpid; rewrite (proj2 (Z.eqb_neq pid 0)) by lia; apply safe_wait].
    + eapply safe_mono; [|by apply (IH l); [|lia|..]]. intros. by apply allowed_first.
    + eapply safe_mono; [|by apply (IH r); [|lia|..]]. intros. by apply allowed_second.
  - destruct Hd as (c & -> & Hlt & Hd).
    apply safe_fork1; [|intros pid Hpid; rewrite (proj2 (Z.eqb_neq pid 0)) by lia; apply safe_exit].
    eapply safe_mono; [|by apply (IH t); [|lia|..]]. intros. by constructor.
Qed.

Lemma safe_steps Q n ps n' ps' : steps n ps n' ps' -> Forall (fun x => safe Q x.1 x.2) ps -> Forall (fun x => safe Q x.1 x.2) ps'.
Proof.
  induction 1 as [|n ps1 x ps2 xs n' ps' Hs _ IH]; [done|]. intros Hall.
  apply IH. apply Forall_app in Hall as [H1 [Hx H2]%Forall_cons]. apply Forall_app. split; [done|]. apply Forall_app. split; [|done].
  apply Forall_forall. intros [p' fds'] Hin. destruct x as [p fds]. inversion Hx as [? ? _ _ Hn]; subst. by eapply Hn.
Qed.

Lemma allowed_others t fds argv fds' : allowed t fds argv fds' -> std_redirs t -> forall i, (2 <= i)%nat -> fds' !! i = fds !! i.
Proof.
  induction 1 as [|t file mode fd fds argv fds' _ IH|l r n fds argv fds' _ IH|l r n fds argv fds' _ IH|l r fds argv fds' _ IH|l r fds argv fds' _ IH|];
    cbn [std_redirs]; intros Hs i Hi; try done; try (by apply IH; [apply Hs|]).
  - rewrite IH by (done || apply Hs). apply list_lookup_insert_ne. destruct Hs as [Hfd _]. lia.
  - rewrite IH by (done || apply Hs). apply list_lookup_insert_ne. lia.
  - rewrite IH by (done || apply Hs). apply list_lookup_insert_ne. lia.
  - auto.
Qed.

(** C32. Descriptors are not leaked. Run the line of a command in a child of the
    shell, under any interleaving of its processes and with any failures of system
    calls: the programs started are those of the command, each with its
    redirections and pipe ends as standard input and output, and every other
    descriptor of it is the one the shell had. *)
Theorem commands_confined t z room fds n n' ps argv k fds' :
  printable t -> (2 * length (print t) + 3 <= room)%nat -> standard fds ->
  steps n [(run_line room ((print t ++ [10]) ++ 0 :: z), fds)] n' ps -> (PExec argv k, fds') ∈ ps ->
  allowed t fds argv fds' /\ forall i, (2 <= i)%nat -> fds' !! i = fds !! i.
Proof.
  intros Hp Hr Hfd Hs Hin. assert (safe (allowed t fds) (run_line room ((print t ++ [10]) ++ 0 :: z)) fds) as H.
  { unfold run_line. destruct (parse_text t [10] z (Sh ((print t ++ [10]) ++ 0 :: z) 0 [] room)) as (p & σ & E & Hd);
      [done|by repeat constructor|done|cbn; rewrite length_app; cbn; lia|].
    rewrite E. apply runcmd_safe; [done|apply denotes_lt in Hd; lia|by apply printable_redirs|done]. }
  apply (safe_steps (allowed t fds)) in Hs; [|by constructor].
  rewrite Forall_forall in Hs. specialize (Hs _ Hin). cbn in Hs. inversion Hs as [? ? _ He _]; subst.
  specialize (He _ _ eq_refl). split; [done|]. eapply allowed_others; [done|]. by apply printable_redirs.
Qed.

(** In [ls | wc] the left side gets to its [exec]. *)
Definition piped : tree := TPipe (TExec [lit "ls"]) (TExec [lit "wc"]).

Lemma commands_confined_witness : exists argv k fds' n' ps,
  steps 0 [(run_line 99 ((print piped ++ [10]) ++ 0 :: [0]), console_fds)] n' ps /\ (PExec argv k, fds') ∈ ps /\
  allowed piped console_fds argv fds' /\ forall i, (2 <= i)%nat -> fds' !! i = console_fds !! i.
Proof.
  assert (exists argv k fds' n' ps, steps 0 [(run_line 99 ((print piped ++ [10]) ++ 0 :: [0]), console_fds)] n' ps /\
    (PExec argv k, fds') ∈ ps) as (argv & k & fds' & n' & ps & Hs & Hin).
  { vm_compute. do 5 eexists. split.
    - eapply (steps_next _ [] _ []); [eapply pstep_pipe; reflexivity|].
      eapply (steps_next _ [] _ []); [apply (pstep_fork _ _ 3); reflexivity|].
      eapply (steps_next _ []); [apply pstep_close|].
      eapply (steps_next _ []); [eapply pstep_dup; reflexivity|].
      eapply (steps_next _ []); [apply pstep_close|].
      eapply (steps_next _ []); [apply pstep_close|].
      apply steps_refl.
    - apply list_elem_of_here. }
  exists argv, k, fds', n', ps. split; [exact Hs|]. split; [exact Hin|].
  apply (commands_confined piped [0] 99 console_fds 0 n' ps argv k fds').
  - cbn. unfold plain_word. repeat constructor; try discriminate; by_evaluation.
  - apply (bool_decide_unpack _). vm_compute. exact I.
  - exact console_standard.
  - exact Hs.
  - exact Hin.
Defined.
