(* ===== verification/Trap.v ===== *)
(** Traps: the dispatch of trap.c to system calls and interrupt handlers, and the
    points where a killed process exits and a running one yields. *)
From S2P Require Import Prelude Irq Bio Log Str Fs Kalloc Vm Pipe File Proc Syscall Exec Sysfile.

Definition T_SYSCALL : Z := 64.

Section trap.
Context (devsw : Z -> devsw_t) (levels : nat) (kend kdata fr tr : Z).
(** [ideintr], [kbdintr] and [uartintr], which work on the state of their devices;
    [boot_cpu] tells that this is processor 0. [swtch] is what happens from the
    moment the process gives the processor up until it runs again. *)
Context (ideintr kbdintr uartintr : K kernel unit) (boot_cpu : bool) (swtch : K kernel unit).

(** [if(proc && proc->killed && (tf->cs&3) == DPL_USER) exit()] *)
Definition exit_if_killed (tf : trapframe) : K kernel unit :=
  let! g := get in
  match current g with
  | Some p => if proc_killed p && (Z.land (tf_cs tf) 3 =? DPL_USER) then exit devsw kend else ret tt
  | None => ret tt
  end.

(** The timer interrupt on processor 0. *)
Definition tick : K kernel unit :=
  modify (fun g => set_ticks (u32 (g_ticks g + 1)) g);;; wakeup CTicks.

Definition interrupt (tf : trapframe) : K kernel unit :=
  let no := tf_trapno tf in
  if no =? T_IRQ0 + IRQ_TIMER then (if boot_cpu then tick else ret tt)
  else if no =? T_IRQ0 + IRQ_IDE then ideintr
  else if no =? T_IRQ0 + IRQ_IDE + 1 then ret tt
  else if no =? T_IRQ0 + IRQ_KBD then kbdintr
  else if no =? T_IRQ0 + IRQ_COM1 then uartintr
  else if (no =? T_IRQ0 + 7) || (no =? T_IRQ0 + IRQ_SPURIOUS) then ret tt
  else
  let! g := get in
  if bool_decide (g_proc g = None) || (Z.land (tf_cs tf) 3 =? 0) then panic "trap"
  else updme (with_killed true).

Definition trap (tf : trapframe) : K kernel unit :=
  if tf_trapno tf =? T_SYSCALL then
    let! p := me in
    (if proc_killed p then exit devsw kend else ret tt);;;
    updme (with_tf tf);;;
    syscall devsw levels kend kdata fr tr;;;
    let! p := me in
    if proc_killed p then exit devsw kend else ret tt
  else
  interrupt tf;;;
  exit_if_killed tf;;;
  let! g := get in
  (match current g with
   | Some p => if in_state RUNNING p && (tf_trapno tf =? T_IRQ0 + IRQ_TIMER) then yield_to swtch else ret tt
   | None => ret tt
   end);;;
  exit_if_killed tf.
End trap.

(** ** Killed processes *)

Lemma exit_if_killed_Ret devsw kend tf g g' : exit_if_killed devsw kend tf g = Ret tt g' ->
  g' = g /\ forall p, current g = Some p -> Z.land (tf_cs tf) 3 = DPL_USER -> proc_killed p = false.
Proof.
  unfold exit_if_killed. intros (? & ? & [= <- <-] & E)%bind_Ret. destruct (current g) as [p|].
  - destruct (proc_killed p && _) eqn:Ek; [by apply exit_no_return in E|]. injection E as <-. split; [done|].
    intros q [= <-] Hu. rewrite Hu, Z.eqb_refl, andb_true_r in Ek. done.
  - by injection E as <-.
Qed.

(** C24. A killed process does not get back to user code: whenever [trap] returns
    from a system call, or from an interrupt or fault that hit user code, the
    process it returns to has not been killed. This includes a timer interrupt after
    which the process had to wait for its turn, whatever the other processes did
    in the meantime, a [kill] of it included. *)
Theorem killed_never_resumes devsw levels kend kdata fr tr ideintr kbdintr uartintr boot_cpu swtch tf g g' p :
  trap devsw levels kend kdata fr tr ideintr kbdintr uartintr boot_cpu swtch tf g = Ret tt g' ->
  tf_trapno tf = T_SYSCALL \/ Z.land (tf_cs tf) 3 = DPL_USER ->
  current g' = Some p -> proc_killed p = false.
Proof.
  intros E Hu Hp. unfold trap in E. destruct (Z.eqb_spec (tf_trapno tf) T_SYSCALL) as [|N].
  - do 4 apply bind_Ret in E as (? & ? & _ & E). apply bind_Ret in E as (q & ? & Eq & E).
    apply me_Ret in Eq as [-> (c & Hc & Hq)]. destruct (proc_killed q) eqn:Ek; [by apply exit_no_return in E|].
    injection E as <-. unfold current in Hp. rewrite Hc in Hp. cbn in Hp. rewrite Hq in Hp. by injection Hp as <-.
  - destruct Hu as [?|Hu]; [done|]. do 4 apply bind_Ret in E as (? & ? & _ & E).
    apply exit_if_killed_Ret in E as [-> H]. by apply H.
Qed.

(** A timer interrupt in user code, on a machine with one process. *)
Definition timer_tf : trapframe := Trapframe 0 0 0 0 0 0 0 0 0 0 35 35 32 0 0 35 FL_IF 4096 35.
Definition one_proc (x : procstate) (killed : bool) : kernel :=
  Kernel (bare_sys (iinit (boot ∅ 0))) [Proc 4096 0 0 x 1 None zero_tf (CContext 0 0 0 0 0 0) None killed [] None []] 2 (Some 0%nat) (Some 0%nat) 1.

(** The process waits for its turn and is run again. *)
Lemma killed_never_resumes_witness : let swtch := updme (with_state RUNNING) in exists g',
  trap (fun _ => Devsw None None) 0 0 0 0 0 (ret tt) (ret tt) (ret tt) false swtch timer_tf (one_proc RUNNING false) = Ret tt g' /\
  forall p, current g' = Some p -> proc_killed p = false.
Proof.
  intros swtch. exists (one_proc RUNNING false).
  assert (trap (fun _ => Devsw None None) 0 0 0 0 0 (ret tt) (ret tt) (ret tt) false swtch timer_tf (one_proc RUNNING false)
    = Ret tt (one_proc RUNNING false)) as E by reflexivity.
  split; [exact E|]. intros p Hp. exact (killed_never_resumes _ _ _ _ _ _ _ _ _ _ _ _ _ _ p E (or_intror eq_refl) Hp).
Defined.

(** Killed while it waits, it does not return: [init] being the only process, its
    exit is the end of the system. *)
Lemma killed_while_waiting : let swtch := updme (fun p => with_killed true (with_state RUNNING p)) in
  trap (fun _ => Devsw None None) 0 0 0 0 0 (ret tt) (ret tt) (ret tt) false swtch timer_tf (one_proc RUNNING false) = Panic "init exiting".
Proof. reflexivity. Qed.
