(* ===== verification/Kbd.v ===== *)
(** The keyboard driver of kbd.c: scan codes, the modifier state and the key maps
    of kbd.h. *)
From S2P Require Import Prelude Str.

(** ** Data *)

Definition SHIFT : Z := 1.
Definition CTL : Z := 2.
Definition ALT : Z := 4.
Definition CAPSLOCK : Z := 8.
Definition NUMLOCK : Z := 16.
Definition SCROLLLOCK : Z := 32.
Definition E0ESC : Z := 64.

(** A C table with some entries set by index and the others 0. *)
Definition sparse (l : list (Z * Z)) (i : Z) : Z :=
  match find (fun e => fst e =? i) l with Some e => snd e | None => 0 end.

(** The keys of the keypad and the cursor block, the same in every map but for two. *)
Definition with_keypad (enter div : Z) (rows : list Z) (i : Z) : Z :=
  if i <? Z.of_nat (length rows) then nth (Z.to_nat i) rows 0
  else sparse [(156, enter); (181, div); (200, 226); (208, 227); (201, 230); (209, 231);
               (203, 228); (205, 229); (151, 224); (207, 225); (210, 232); (211, 233)] i.

Definition shiftcode : Z -> Z :=
  sparse [(29, CTL); (42, SHIFT); (54, SHIFT); (56, ALT); (157, CTL); (184, ALT)].

Definition togglecode : Z -> Z := sparse [(58, CAPSLOCK); (69, NUMLOCK); (70, SCROLLLOCK)].

Definition normalmap : Z -> Z := with_keypad 10 47 (
  [0; 27] ++ lit "1234567890-=" ++ [8; 9] ++
  lit "qwertyuiop[]" ++ [10; 0] ++ lit "as" ++
  lit "dfghjkl;'`" ++ [0] ++ lit "\zxcv" ++
  lit "bnm,./" ++ [0] ++ lit "*" ++ [0] ++ lit " " ++ [0; 0; 0; 0; 0; 0] ++
  [0; 0; 0; 0; 0; 0; 0] ++ lit "789-456+1" ++
  lit "230." ++ [0; 0; 0; 0]).

Definition shiftmap : Z -> Z := with_keypad 10 47 (
  [0; 27] ++ lit "!@#$%^&*()_+" ++ [8; 9] ++
  lit "QWERTYUIOP{}" ++ [10; 0] ++ lit "AS" ++
  lit "DFGHJKL:" ++ [34] ++ lit "~" ++ [0] ++ lit "|ZXCV" ++
  lit "BNM<>?" ++ [0] ++ lit "*" ++ [0] ++ lit " " ++ [0; 0; 0; 0; 0; 0] ++
  [0; 0; 0; 0; 0; 0; 0] ++ lit "789-456+1" ++
  lit "230." ++ [0; 0; 0; 0]).

(** [C(x)] is [x - '@'], stored in an unsigned char. *)
Definition ctl_row (l : list Z) : list Z := (fun x => u8 (x - 64)) <$> l.

Definition ctlmap : Z -> Z := with_keypad 13 239 (
  replicate 16 0 ++
  ctl_row (lit "QWERTYUIOP") ++ [0; 0; 13; 0] ++ ctl_row (lit "AS") ++
  ctl_row (lit "DFGHJKL") ++ [0; 0; 0; 0] ++ ctl_row (lit "\ZXCV") ++
  ctl_row (lit "BNM") ++ [0; 0] ++ ctl_row (lit "/") ++ [0; 0]).

(** [charcode[shift & (CTL | SHIFT)]] *)
Definition charcode (shift : Z) : Z -> Z :=
  let k := Z.land shift (Z.lor CTL SHIFT) in
  if k =? 0 then normalmap else if k =? 1 then shiftmap else ctlmap.

(** The driver's [shift] and the scan codes waiting in the controller. *)
Record kbd := Kbd { kb_shift : Z; kb_codes : list Z }.

(** ** kbdgetc *)

Definition caps (shift c : Z) : Z :=
  if flag shift CAPSLOCK then
    if (97 <=? c) && (c <=? 122) then c + 65 - 97
    else if (65 <=? c) && (c <=? 90) then c + 97 - 65 else c
  else c.

(** [kbdgetc] on scan code [data]: the new [shift] and the result. *)
Definition kbd_scan (shift data : Z) : Z * Z :=
  if data =? 224 then (flag_set shift E0ESC, 0)
  else if flag data 128 then
    let data := if flag shift E0ESC then data else Z.land data 127 in
    (flag_clr shift (Z.lor (shiftcode data) E0ESC), 0)
  else
  let data' := if flag shift E0ESC then Z.lor data 128 else data in
  let shift := if flag shift E0ESC then flag_clr shift E0ESC else shift in
  let shift := Z.lxor (Z.lor shift (shiftcode data')) (togglecode data') in
  (shift, caps shift (charcode shift data')).

Definition kbdgetc : K kbd Z :=
  let! k := get in
  match kb_codes k with
  | [] => ret (-1)
  | data :: codes =>
    let '(shift, c) := kbd_scan (kb_shift k) data in
    put (Kbd shift codes);;; ret c
  end.

(** ** Characters *)

(** The results of [kbdgetc] on a sequence of scan codes, and the final state. *)
Fixpoint typed (shift : Z) (codes : list Z) : list Z * Z :=
  match codes with
  | [] => ([], shift)
  | d :: codes' => let '(shift', c) := kbd_scan shift d in let '(l, s) := typed shift' codes' in (c :: l, s)
  end.

Lemma typed_app shift c1 c2 :
  typed shift (c1 ++ c2) =
    let '(l1, s1) := typed shift c1 in let '(l2, s2) := typed s1 c2 in (l1 ++ l2, s2).
Proof.
  revert shift. induction c1 as [|d c1 IH]; intros shift; cbn [typed app]; [by destruct (typed shift c2)|].
  destruct (kbd_scan shift d) as [s c]. rewrite IH. destruct (typed s c1) as [l1 s1]. by destruct (typed s1 c2).
Qed.

(** The states of [shift] and the results of [kbdgetc] on all bytes. *)
Definition scan_ok : bool :=
  forallb (fun shift => forallb (fun data =>
    let '(s, c) := kbd_scan shift data in (0 <=? s) && (s <? 128) && (0 <=? c) && (c <? 256))
    (zrange 0 256)) (zrange 0 128).

Lemma elem_of_zrange x a b : a <= x < b -> x ∈ zrange a b.
Proof. intros H. unfold zrange. apply elem_of_seqZ. lia. Qed.

Lemma scan_range shift data : 0 <= shift < 128 -> 0 <= data < 256 ->
  0 <= fst (kbd_scan shift data) < 128 /\ 0 <= snd (kbd_scan shift data) < 256.
Proof.
  intros Hs Hd. assert (scan_ok = true) as H by (vm_compute; reflexivity). unfold scan_ok in H.
  rewrite forallb_forall in H. specialize (H shift (proj1 (list_elem_of_In _ _) (elem_of_zrange _ _ _ Hs))). rewrite forallb_forall in H.
  specialize (H data (proj1 (list_elem_of_In _ _) (elem_of_zrange _ _ _ Hd))). destruct (kbd_scan shift data) as [s c]. cbn [fst snd].
  rewrite !andb_true_iff, !Z.leb_le, !Z.ltb_lt in H. lia.
Qed.

(** Press and release the key that gives [c], with the left shift key if needed. *)
Definition stroke (c : Z) : list Z :=
  match find (fun i => normalmap i =? c) (zrange 1 84) with
  | Some i => [i; i + 128]
  | None =>
    match find (fun i => shiftmap i =? c) (zrange 1 84) with
    | Some i => [42; i; i + 128; 170]
    | None => []
    end
  end.

Definition printable (c : Z) : Prop := 32 <= c < 127 \/ c = 10.

Lemma stroke_types c : printable c ->
  filter (fun x => x <> 0) (fst (typed 0 (stroke c))) = [c] /\ snd (typed 0 (stroke c)) = 0 /\
  Forall (fun d => 0 <= d < 256) (stroke c).
Proof.
  intros Hc.
  assert (Forall (fun c => filter (fun x => x <> 0) (fst (typed 0 (stroke c))) = [c] /\ snd (typed 0 (stroke c)) = 0 /\
    Forall (fun d => 0 <= d < 256) (stroke c)) (10 :: zrange 32 127)) as H by by_evaluation.
  rewrite Forall_forall in H. apply H. destruct Hc as [Hc | ->]; [|by constructor].
  constructor. by apply elem_of_zrange.
Qed.

Lemma strokes_type text : Forall printable text ->
  filter (fun x => x <> 0) (fst (typed 0 (text ≫= stroke))) = text /\ snd (typed 0 (text ≫= stroke)) = 0 /\
  Forall (fun d => 0 <= d < 256) (text ≫= stroke).
Proof.
  induction 1 as [|c text Hc _ IH]; [done|]. cbn [mbind list_bind].
  destruct (stroke_types c Hc) as (E & S & R). rewrite typed_app. destruct (typed 0 (stroke c)) as [l s].
  cbn in E, S. subst s. destruct IH as (E' & S' & R'). destruct (typed 0 (text ≫= stroke)) as [l' s']. cbn in *.
  rewrite filter_app, E, E'. split_and!; [done..|]. by apply Forall_app.
Qed.
