(* ===== verification/Console.v ===== *)
(** The console of console.c with the serial port of uart.c: the CGA screen, line
    editing of keyboard and serial input in a ring buffer, and the read and write
    routines of the console device. *)
From S2P Require Import Prelude Bio Log Str Fs Ring Kbd.

(** ** Data *)

(** CGA memory and the cursor position, a 16-bit register of the controller. *)
Record cga := Cga { cg_crt : list Z; cg_pos : Z }.

Definition INPUT_BUF : Z := 128.

(** The variable [input], without its lock. *)
Record input := Input { in_buf : list Z; in_r : Z; in_w : Z; in_e : Z }.

(** [panicked] and [input] of console.c, [uart] of uart.c, what was sent to the
    serial port, and the screen. *)
Record console := Console {
  con_panicked : bool; con_uart : bool; con_serial : list Z; con_cga : cga; con_in : input
}.

Definition set_serial (x : list Z) (c : console) : console :=
  Console (con_panicked c) (con_uart c) x (con_cga c) (con_in c).
Definition set_cga (x : cga) (c : console) : console :=
  Console (con_panicked c) (con_uart c) (con_serial c) x (con_in c).
Definition set_in (x : input) (c : console) : console :=
  Console (con_panicked c) (con_uart c) (con_serial c) (con_cga c) x.

(** ** The screen *)

Definition BACKSPACE : Z := 256.
Definition BLANK : Z := 1824.

(** [crt[pos] = x] *)
Definition store_cell (pos x : Z) (crt : list Z) : option (list Z) :=
  if (0 <=? pos) && (pos <? Z.of_nat (length crt)) then Some (<[Z.to_nat pos := x]> crt) else None.

(** The cells [n] from [i] on are in CGA memory. *)
Definition in_crt (i n : Z) (crt : list Z) : bool := (0 <=? i) && (0 <=? n) && (i + n <=? Z.of_nat (length crt)).

(** [memmove(crt+dst, crt+src, sizeof(crt[0])*n)] and
    [memset(crt+dst, 0, sizeof(crt[0])*n)]: every cell read or written has to be in
    CGA memory; a negative size is a huge one. *)
Definition crt_memmove (dst src n : Z) (crt : list Z) : option (list Z) :=
  if in_crt src n crt && in_crt dst n crt then Some (splice crt dst (slice crt src n)) else None.
Definition crt_memset (dst n : Z) (crt : list Z) : option (list Z) :=
  if in_crt dst n crt then Some (splice crt dst (replicate (Z.to_nat n) 0)) else None.

(** The [memmove] and the [memset] that scroll the screen one line up, with the
    cursor at [pos - 80]. *)
Definition scroll (pos : Z) (crt : list Z) : option (list Z) :=
  crt ← crt_memmove 0 80 (23 * 80) crt;
  crt_memset (pos - 80) (24 * 80 - (pos - 80)) crt.

(** The end of [cgaputc]: scroll if needed, move the cursor and blank its cell. *)
Definition cga_settle (crt : list Z) (pos : Z) : K cga unit :=
  let! (crt, pos) :=
    if 24 <=? pos / 80 then
      let! crt := lift_opt "scroll: outside CGA memory" (scroll pos crt) in ret (crt, pos - 80)
    else ret (crt, pos) in
  let! crt := lift_opt "crt index" (store_cell pos BLANK crt) in
  put (Cga crt (u16 pos)).

Definition cgaputc (c : Z) : K cga unit :=
  let! s := get in
  let pos := cg_pos s in
  if c =? 10 then cga_settle (cg_crt s) (pos + (80 - pos `mod` 80))
  else if c =? BACKSPACE then cga_settle (cg_crt s) (if 0 <? pos then pos - 1 else pos)
  else
  let! crt := lift_opt "crt index" (store_cell pos (Z.lor (Z.land c 255) 1792) (cg_crt s)) in
  cga_settle crt (pos + 1).

(** ** Output *)

Definition uartputc (c : Z) : K console unit :=
  modify (fun s => if con_uart s then set_serial (con_serial s ++ [u8 c]) s else s).

(** After a panic a processor that prints stops for good. *)
Definition consputc (c : Z) : K console unit :=
  let! s := get in
  if con_panicked s then panic "frozen"
  else
  (if c =? BACKSPACE then uartputc 8;;; uartputc 32;;; uartputc 8 else uartputc c);;;
  zoom con_cga set_cga (cgaputc c).

(** ** Input *)

Definition setin (f : input -> input) : K console unit := modify (fun s => set_in (f (con_in s)) s).
Definition with_e (e : Z) (i : input) : input := Input (in_buf i) (in_r i) (in_w i) e.
Definition with_r (r : Z) (i : input) : input := Input (in_buf i) r (in_w i) (in_e i).

(** The byte [input.buf[i % INPUT_BUF]] *)
Definition in_byte (i : Z) (x : input) : K console Z :=
  lift_opt "input.buf index" (in_buf x !! Z.to_nat (i `mod` INPUT_BUF)).

(** The loop of control-U. *)
Fixpoint kill_line (fuel : nat) : K console unit :=
  match fuel with
  | O => nofuel
  | S f =>
    let! s := get in
    let i := con_in s in
    if in_e i =? in_w i then ret tt
    else
    let! c := in_byte (u32 (in_e i - 1)) i in
    if c =? 10 then ret tt
    else
    setin (with_e (u32 (in_e i - 1)));;;
    consputc BACKSPACE;;;
    kill_line f
  end.

Section input.
(** [procdump] of proc.c, which prints the process table on the console. *)
Context (procdump : K console unit).

(** The body of the loop of [consoleintr] for character [c]; the result tells that
    [wakeup(&input.r)] is called. *)
Definition console_key (c : Z) : K console bool :=
  let! s := get in
  let i := con_in s in
  if c =? 16 then procdump;;; ret false
  else if c =? 21 then kill_line (S (Z.to_nat (u32 (in_e i - in_w i))));;; ret false
  else if (c =? 8) || (c =? 127) then
    (if in_e i =? in_w i then ret tt
     else setin (with_e (u32 (in_e i - 1)));;; consputc BACKSPACE);;;
    ret false
  else if negb (c =? 0) && (u32 (in_e i - in_r i) <? INPUT_BUF) then
    let c := if c =? 13 then 10 else c in
    setin (fun i => Input (<[Z.to_nat (in_e i `mod` INPUT_BUF) := u8 c]> (in_buf i)) (in_r i) (in_w i) (u32 (in_e i + 1)));;;
    consputc c;;;
    let! s := get in
    let i := con_in s in
    if (c =? 10) || (c =? 4) || (in_e i =? u32 (in_r i + INPUT_BUF)) then
      setin (fun i => Input (in_buf i) (in_r i) (in_e i) (in_e i));;; ret true
    else ret false
  else ret false.

(** [consoleintr(getc)], for a device with state [D]. *)
Fixpoint consoleintr {D} (fuel : nat) (getc : K D Z) : K (D * console) bool :=
  match fuel with
  | O => nofuel
  | S f =>
    let! c := zoom fst (fun d s => (d, snd s)) getc in
    if c <? 0 then ret false
    else
    let! w := zoom snd (fun t s => (fst s, t)) (console_key c) in
    let! w' := consoleintr f getc in
    ret (w || w')
  end.


(** The serial port: whether it is there is [con_uart]; [D] is the bytes received. *)
Definition uartgetc (present : bool) : K (list Z) Z :=
  let! l := get in
  if negb present then ret (-1)
  else match l with [] => ret (-1) | c :: l' => put l';;; ret c end.
Definition uartintr : K (list Z * console) bool :=
  let! s := get in consoleintr (S (length (fst s))) (uartgetc (con_uart (snd s))).
End input.

(** ** The console device *)

(** The loop of [consoleread] with [n] bytes to go; [first] is [n == target]. The
    result is false when the process was killed while waiting, and the bytes
    stored at [dst]. *)
Fixpoint console_take (killed : bool) (n : nat) (first : bool) : K console (bool * list Z) :=
  match n with
  | O => ret (true, [])
  | S n' =>
    let! s := get in
    let i := con_in s in
    if in_r i =? in_w i then (if killed then ret (false, []) else sleeps)
    else
    let! c := in_byte (in_r i) i in
    setin (with_r (u32 (in_r i + 1)));;;
    if c =? 4 then
      (if first then ret tt else setin (with_r (in_r i)));;; ret (true, [])
    else if c =? 10 then ret (true, [c])
    else
    let! (ok, l) := console_take killed n' false in
    ret (ok, c :: l)
  end.

Section device.
Context (devsw : Z -> devsw_t).

Definition onfs {A} (m : K fs A) : K (fs * console) A := zoom fst (fun f s => (f, snd s)) m.
Definition oncon {A} (m : K console A) : K (fs * console) A := zoom snd (fun c s => (fst s, c)) m.


Definition consolewrite (ip : iptr) (buf : list Z) (n : Z) : K (fs * console) Z :=
  onfs (iunlock ip);;;
  oncon (forK (fun i => let! c := lift_opt "buf index" (buf !! Z.to_nat i) in consputc (Z.land c 255)) (zrange 0 n));;;
  onfs (ilock devsw ip);;;
  ret n.
End device.

(** ** The screen stays in bounds *)

(** The cursor is on one of the first 24 lines of the screen. *)
Record screen_ok (s : cga) : Prop := {
  so_len : 24 * 80 <= Z.of_nat (length (cg_crt s));
  so_pos : 0 <= cg_pos s < 24 * 80
}.

Lemma u16_small z : 0 <= z < 65536 -> u16 z = z.
Proof. with_strategy transparent [u16] unfold u16. apply Z.mod_small. Qed.

Lemma store_cell_eq pos x crt : 0 <= pos < Z.of_nat (length crt) -> store_cell pos x crt = Some (<[Z.to_nat pos := x]> crt).
Proof.
  intros H. unfold store_cell. destruct (Z.leb_spec 0 pos); [|lia].
  by destruct (Z.ltb_spec pos (Z.of_nat (length crt))); [|lia].
Qed.

Lemma in_crt_true i n crt : 0 <= i -> 0 <= n -> i + n <= Z.of_nat (length crt) -> in_crt i n crt = true.
Proof. intros H1 H2 H3. unfold in_crt. by rewrite !(proj2 (Z.leb_le _ _)) by lia. Qed.

Lemma scroll_eq crt : 24 * 80 <= Z.of_nat (length crt) ->
  exists crt', scroll 1920 crt = Some crt' /\ length crt' = length crt /\ drop 1920 crt' = drop 1920 crt /\
    forall k, 0 <= k < 24 * 80 -> crt' !! Z.to_nat k = if k <? 23 * 80 then crt !! Z.to_nat (k + 80) else Some 0.
Proof.
  intros H. unfold scroll, crt_memmove, crt_memset. rewrite !in_crt_true by lia. cbn [andb option_bind mbind].
  set (up := splice crt 0 (slice crt 80 (23 * 80))).
  assert (length up = length crt) as Lu by (apply length_splice; [lia|rewrite length_slice by lia; lia]).
  rewrite in_crt_true by lia. eexists. split; [done|]. split.
  { rewrite length_splice; [done|lia|]. rewrite length_replicate. lia. }
  split.
  { unfold splice at 1. change (Z.to_nat (1920 - 80)) with 1840%nat. change (Z.to_nat (24 * 80 - (1920 - 80))) with 80%nat.
    rewrite drop_app_ge by (rewrite length_take; lia). rewrite length_take, drop_app_ge by (rewrite length_replicate; lia).
    rewrite length_replicate. replace (1920 - 1840 `min` length up - 80)%nat with 0%nat by lia. rewrite drop_0. change (1840 + 80)%nat with 1920%nat.
    unfold up, splice. rewrite take_0, app_nil_l, drop_app_ge by (rewrite length_slice by lia; lia). rewrite length_slice, drop_drop by lia.
    change (Z.to_nat (23 * 80)) with 1840%nat. by change (Z.to_nat 0 + 1840 + (1920 - 1840))%nat with 1920%nat. }
  intros k Hk. unfold splice at 1. change (Z.to_nat (1920 - 80)) with 1840%nat. change (Z.to_nat (24 * 80 - (1920 - 80))) with 80%nat.
  destruct (Z.ltb_spec k (23 * 80)).
  - rewrite lookup_app_l by (rewrite length_take; lia). rewrite lookup_take_lt by lia. unfold up, splice. rewrite take_0, app_nil_l.
    rewrite lookup_app_l by (rewrite length_slice by lia; lia). unfold slice. rewrite lookup_take_lt, lookup_drop by lia. f_equal. lia.
  - rewrite lookup_app_r by (rewrite length_take; lia). rewrite length_take, lookup_app_l by (rewrite length_replicate; lia).
    apply lookup_replicate_2. lia.
Qed.

(** The cells below the 24 lines are left alone. *)
Definition below_kept (crt : list Z) (s' : cga) : Prop := length (cg_crt s') = length crt /\ drop 1920 (cg_crt s') = drop 1920 crt.

Lemma cga_settle_ok crt pos s : 24 * 80 <= Z.of_nat (length crt) -> 0 <= pos <= 24 * 80 ->
  exists s', cga_settle crt pos s = Ret tt s' /\ screen_ok s' /\ below_kept crt s' /\
    cg_crt s' !! Z.to_nat (cg_pos s') = Some BLANK.
Proof.
  intros Hl Hp.
  assert (forall crt' pos', length crt' = length crt -> drop 1920 crt' = drop 1920 crt -> 0 <= pos' < 1920 -> exists s',
    (let! crt := lift_opt "crt index" (store_cell pos' BLANK crt') in put (Cga crt (u16 pos'))) s = Ret tt s' /\
    screen_ok s' /\ below_kept crt s' /\ cg_crt s' !! Z.to_nat (cg_pos s') = Some BLANK) as Hend.
  { intros crt' pos' El Ed Ep. rewrite store_cell_eq by lia. eexists. split; [done|].
    assert (u16 pos' = pos') as -> by (apply u16_small; lia). split; [split|split; [split|]]; cbn.
    - rewrite length_insert. lia.
    - lia.
    - by rewrite length_insert.
    - by rewrite drop_insert_lt by lia.
    - apply list_lookup_insert_eq. lia. }
  unfold cga_settle. unfold bind at 1. destruct (Z.leb_spec 24 (pos / 80)) as [H|H].
  - assert (pos = 1920) as -> by (pose proof (Z.mul_div_le pos 80 ltac:(lia)); lia).
    destruct (scroll_eq crt Hl) as (crt' & E & El & Ed & _). rewrite E. by apply Hend.
  - apply Hend; [done|done|]. pose proof (Z.div_mod pos 80 ltac:(lia)). pose proof (Z.mod_pos_bound pos 80 ltac:(lia)). lia.
Qed.

Lemma cgaputc_ok c s : screen_ok s ->
  exists s', cgaputc c s = Ret tt s' /\ screen_ok s' /\ below_kept (cg_crt s) s' /\ cg_crt s' !! Z.to_nat (cg_pos s') = Some BLANK.
Proof.
  intros [Hl Hp]. unfold cgaputc, bind, get. destruct (c =? 10).
  { apply cga_settle_ok; [done|]. pose proof (Z.div_mod (cg_pos s) 80 ltac:(lia)).
    pose proof (Z.mod_pos_bound (cg_pos s) 80 ltac:(lia)). assert (cg_pos s / 80 < 24) by (apply Z.div_lt_upper_bound; lia). lia. }
  destruct (c =? BACKSPACE).
  { apply cga_settle_ok; [done|]. destruct (Z.ltb_spec 0 (cg_pos s)); lia. }
  rewrite store_cell_eq by lia. cbn. set (crt1 := <[Z.to_nat (cg_pos s) := _]> (cg_crt s)).
  assert (length crt1 = length (cg_crt s)) as L1 by apply length_insert.
  destruct (cga_settle_ok crt1 (cg_pos s + 1) s) as (s' & E & Hok & [K1 K2] & Hb); [lia|lia|]. exists s'. split_and!; [done|done| |done].
  split; [congruence|]. rewrite K2. unfold crt1. by rewrite drop_insert_lt by lia.
Qed.

(** ** Line editing *)

(** The complete lines that wait for a reader, and the line being edited. *)
Record line := Line { ln_ready : list Z; ln_edit : list Z }.

Definition ln_size (l : line) : Z := Z.of_nat (length (ln_ready l) + length (ln_edit l)).

(** What a key does: control-U empties the line, backspace and delete remove its
    last character, another key is appended when there is room; newline,
    control-D and a full buffer make the line available and wake the readers. *)
Definition ed_key (c : Z) (l : line) : bool * line :=
  if c =? 16 then (false, l)
  else if c =? 21 then (false, Line (ln_ready l) [])
  else if (c =? 8) || (c =? 127) then (false, Line (ln_ready l) (removelast (ln_edit l)))
  else if negb (c =? 0) && (ln_size l <? INPUT_BUF) then
    let c := if c =? 13 then 10 else c in
    let edit := ln_edit l ++ [c] in
    if (c =? 10) || (c =? 4) || (ln_size l + 1 =? INPUT_BUF) then (true, Line (ln_ready l ++ edit) [])
    else (false, Line (ln_ready l) edit)
  else (false, l).

(** Read up to [n] bytes of the lines [r], up to the end of a line; control-D ends
    the read and is kept for the next one unless it comes first. *)
Fixpoint ed_read (killed : bool) (n : nat) (first : bool) (r : list Z) : outcome (list Z) (bool * list Z) :=
  match n with
  | O => Ret (true, []) r
  | S n' =>
    match r with
    | [] => if killed then Ret (false, []) [] else Sleeps []
    | c :: r' =>
      if c =? 4 then Ret (true, []) (if first then r' else r)
      else if c =? 10 then Ret (true, [c]) r'
      else match ed_read killed n' false r' with
           | Ret (ok, l) r'' => Ret (ok, c :: l) r''
           | Sleeps r'' => Sleeps r''
           | Panic m => Panic m
           | Undef m => Undef m
           | NoFuel => NoFuel
           end
    end
  end.

(** ** The ring buffer implements the line editor *)

#[export] Instance INPUT_BUF_ring : RingSize INPUT_BUF.
Proof. split; [done..|by exists 33554432]. Qed.

Record in_rep (i : input) (l : line) : Prop := {
  ir_buf : length (in_buf i) = Z.to_nat INPUT_BUF;
  ir_r : 0 <= in_r i < 2 ^ 32;
  ir_size : ln_size l <= INPUT_BUF;
  ir_w : in_w i = u32 (in_r i + Z.of_nat (length (ln_ready l)));
  ir_e : in_e i = u32 (in_r i + ln_size l);
  ir_bytes : ln_ready l ++ ln_edit l = ring INPUT_BUF (in_buf i) (in_r i) (length (ln_ready l) + length (ln_edit l))
}.

(** A line that is being edited has no newline. *)
Definition line_ok (l : line) : Prop := Forall (fun c => c <> 10) (ln_edit l).

(** The console can print. *)
Record con_ok (s : console) : Prop := {
  co_run : con_panicked s = false;
  co_screen : screen_ok (con_cga s)
}.

Lemma consputc_ok c s : con_ok s -> exists s', consputc c s = Ret tt s' /\ con_ok s' /\ con_in s' = con_in s.
Proof.
  intros [Hp Hs]. unfold consputc, bind at 1, get. rewrite Hp.
  assert (exists s1, (if c =? BACKSPACE then uartputc 8;;; uartputc 32;;; uartputc 8 else uartputc c) s = Ret tt s1 /\
    con_panicked s1 = false /\ con_cga s1 = con_cga s /\ con_in s1 = con_in s) as (s1 & E & Hp1 & Hc & Hi).
  { destruct s as [p u ser g i]. cbn in Hp. subst p. destruct (c =? BACKSPACE), u; by eexists. }
  unfold bind at 1. rewrite E. unfold zoom. rewrite Hc. destruct (cgaputc_ok c _ Hs) as (g & Eg & Hg & _).
  rewrite Eg. eexists. split; [done|]. split; [split|]; cbn; [done..|]. by rewrite Hi.
Qed.

Lemma rep_sizes i l : in_rep i l -> 0 <= Z.of_nat (length (ln_ready l)) <= ln_size l /\ ln_size l <= INPUT_BUF.
Proof. intros [_ _ H _ _ _]. unfold ln_size in *. lia. Qed.

(** [input.e != input.w] tells whether the line is empty. *)
Lemma rep_edit_nil i r ed : in_rep i (Line r ed) -> (in_e i =? in_w i) = match ed with [] => true | _ => false end.
Proof.
  intros H. pose proof (rep_sizes _ _ H) as Hs. destruct H as [_ Hr _ Hw He _]. rewrite Hw, He.
  unfold ln_size, INPUT_BUF in *. cbn [ln_ready ln_edit] in *. apply eq_true_iff_eq. rewrite Z.eqb_eq. split.
  - intros E%u32_inj_small; [|lia..]. destruct ed; [done|cbn in E; lia].
  - destruct ed; [cbn; intros _; f_equal; lia|done].
Qed.

Lemma rep_erase i r ed x : in_rep i (Line r (ed ++ [x])) ->
  in_rep (with_e (u32 (in_e i - 1)) i) (Line r ed) /\
  in_buf i !! Z.to_nat (u32 (in_e i - 1) `mod` INPUT_BUF) = Some x.
Proof.
  intros H. pose proof (rep_sizes _ _ H) as Hs. destruct H as [Hb Hr _ Hw He Hbytes].
  assert (u32 (in_e i - 1) = u32 (in_r i + ln_size (Line r ed))) as Ee.
  { rewrite He, <- Z.add_opp_r, u32_add. f_equal. unfold ln_size. cbn [ln_ready ln_edit]. rewrite length_app. cbn. lia. }
  unfold ln_size, INPUT_BUF in *. cbn [ln_ready ln_edit] in *. rewrite length_app in *. cbn [length] in *.
  rewrite Nat.add_assoc, Nat.add_1_r, (ring_S 128), app_assoc in Hbytes.
  apply app_inj_tail in Hbytes as [Hbytes Hx]. split.
  - split; unfold ln_size, INPUT_BUF; cbn [ln_ready ln_edit with_e in_buf in_r in_w in_e]; try done. lia.
  - rewrite Ee. unfold slot in Hx.
    destruct (in_buf i !! _) as [y|] eqn:Ey; [cbn in Hx; by subst|].
    apply lookup_ge_None in Ey. pose proof (index_lt 128 (u32 (in_r i + Z.of_nat (length r + length ed)))). lia.
Qed.

Lemma rep_push i r ed c : in_rep i (Line r ed) -> ln_size (Line r ed) < INPUT_BUF ->
  in_rep (Input (<[Z.to_nat (in_e i `mod` INPUT_BUF) := c]> (in_buf i)) (in_r i) (in_w i) (u32 (in_e i + 1)))
    (Line r (ed ++ [c])).
Proof.
  intros [Hb Hr _ Hw He Hbytes] Hs. unfold ln_size, INPUT_BUF in *. cbn [ln_ready ln_edit] in *.
  split; unfold ln_size, INPUT_BUF; cbn [ln_ready ln_edit in_buf in_r in_w in_e]; rewrite ?length_insert, ?length_app; cbn [length]; try done.
  - lia.
  - rewrite He, u32_add. f_equal. lia.
  - rewrite Nat.add_assoc, Nat.add_1_r, He.
    change (Z.to_nat (u32 (in_r i + Z.of_nat (length r + length ed)) `mod` 128)) with (slot 128 (in_r i) (length r + length ed)).
    rewrite (ring_push 128) by (done || lia). by rewrite <- Hbytes, app_assoc.
Qed.

Lemma rep_commit i r ed : in_rep i (Line r ed) ->
  in_rep (Input (in_buf i) (in_r i) (in_e i) (in_e i)) (Line (r ++ ed) []).
Proof.
  intros [Hb Hr Hs Hw He Hbytes]. unfold ln_size in *. cbn [ln_ready ln_edit] in *.
  split; unfold ln_size; cbn [ln_ready ln_edit in_buf in_r in_w in_e length];
    rewrite ?length_app, ?Nat.add_0_r, ?app_nil_r; done.
Qed.

(** Whether there is room for another character, and whether the buffer is full. *)
Lemma rep_room i l : in_rep i l -> (u32 (in_e i - in_r i) <? INPUT_BUF) = (ln_size l <? INPUT_BUF).
Proof.
  intros H. pose proof (rep_sizes _ _ H). rewrite (ir_e _ _ H), u32_diff; [done|]. unfold INPUT_BUF in *. lia.
Qed.

Lemma rep_full i l : in_rep i l -> (in_e i =? u32 (in_r i + INPUT_BUF)) = (ln_size l =? INPUT_BUF).
Proof.
  intros H. pose proof (rep_sizes _ _ H). rewrite (ir_e _ _ H). apply eq_true_iff_eq. rewrite !Z.eqb_eq.
  split; [|by intros ->]. apply u32_inj_small; unfold INPUT_BUF in *; lia.
Qed.

(** A state that can print and whose buffer holds the lines [l]. *)
Definition editing (s : console) (l : line) : Prop := con_ok s /\ in_rep (con_in s) l.

Lemma setin_editing f s l : con_ok s -> in_rep (f (con_in s)) l ->
  exists s', setin f s = Ret tt s' /\ editing s' l.
Proof. intros [Hp Hs] H. eexists. split; [done|]. by split; [split|]. Qed.

Lemma echo_editing c s l : editing s l -> exists s', consputc c s = Ret tt s' /\ editing s' l.
Proof.
  intros [Ho Hi]. destruct (consputc_ok c s Ho) as (s' & E & Ho' & Ei). exists s'.
  split; [done|]. split; [done|]. by rewrite Ei.
Qed.

Lemma erase_editing s r ed x : editing s (Line r (ed ++ [x])) ->
  exists s', (setin (with_e (u32 (in_e (con_in s) - 1)));;; consputc BACKSPACE) s = Ret tt s' /\ editing s' (Line r ed).
Proof.
  intros [Ho Hi]. apply rep_erase in Hi as [Hi _].
  destruct (setin_editing _ s _ Ho Hi) as (s1 & E1 & H1). unfold bind. rewrite E1. by apply echo_editing.
Qed.

Lemma kill_line_editing fuel s r ed : editing s (Line r ed) -> Forall (fun c => c <> 10) ed -> (length ed < fuel)%nat ->
  exists s', kill_line fuel s = Ret tt s' /\ editing s' (Line r []).
Proof.
  revert s ed. induction fuel as [|fuel IH]; intros s ed H Hnl Hf; [lia|].
  cbn [kill_line]. unfold bind at 1, get. rewrite (rep_edit_nil _ r ed) by apply H.
  destruct ed as [|x ed _] using rev_ind; [by exists s|].
  rewrite length_app in Hf. cbn in Hf. apply Forall_app in Hnl as [Hnl [Hx _]%Forall_cons].
  assert (match ed ++ [x] with [] => true | _ => false end = false) as -> by (by destruct ed).
  pose proof (proj2 (rep_erase _ _ _ _ (proj2 H))) as Hc. unfold in_byte, bind at 1. rewrite Hc. cbn [lift_opt ret].
  rewrite (proj2 (Z.eqb_neq x 10) Hx). destruct (erase_editing s r ed x H) as (s1 & E1 & H1).
  unfold bind in E1 |- *. destruct (setin _ s) as [[] s2| | | |]; try done. rewrite E1. apply (IH _ ed); [done|done|lia].
Qed.

Section editor.
Context (procdump : K console unit).
(** [procdump] only prints. *)
Hypothesis procdump_prints : forall s, con_ok s -> exists s', procdump s = Ret tt s' /\ con_ok s' /\ con_in s' = con_in s.

Lemma key_editing c s l : editing s l -> line_ok l -> 0 <= c < 256 ->
  exists s', console_key procdump c s = Ret (fst (ed_key c l)) s' /\ editing s' (snd (ed_key c l)) /\ line_ok (snd (ed_key c l)).
Proof.
  destruct l as [r ed]. intros H Hok Hc. unfold console_key, ed_key. unfold bind at 1, get.
  destruct (c =? 16).
  { destruct (procdump_prints s (proj1 H)) as (s' & E & Ho & Ei). unfold bind. rewrite E. exists s'.
    split; [done|]. split; [|done]. split; [done|]. cbn. rewrite Ei. apply H. }
  destruct (c =? 21).
  { destruct (kill_line_editing (S (Z.to_nat (u32 (in_e (con_in s) - in_w (con_in s))))) s r ed H Hok) as (s' & E & H').
    - destruct H as [_ Hi]. pose proof (rep_sizes _ _ Hi). rewrite (ir_e _ _ Hi), (ir_w _ _ Hi).
      unfold ln_size, INPUT_BUF in *. cbn [ln_ready ln_edit] in *.
      rewrite Nat2Z.inj_add, Z.add_assoc, <- (u32_add (_ + _)), u32_diff; lia.
    - unfold bind. rewrite E. exists s'. split; [done|]. split; [done|constructor]. }
  destruct ((c =? 8) || (c =? 127)).
  { rewrite (rep_edit_nil _ r ed) by apply H. unfold line_ok in *. cbn [ln_ready ln_edit snd fst] in *.
    destruct ed as [|x ed _] using rev_ind; [by exists s|].
    assert (match ed ++ [x] with [] => true | _ => false end = false) as -> by (by destruct ed).
    rewrite removelast_last. destruct (erase_editing s r ed x H) as (s' & E & H'). unfold bind at 1. rewrite E.
    exists s'. split; [done|]. split; [done|]. by apply Forall_app in Hok as [? _]. }
  rewrite (rep_room _ _ (proj2 H)).
  destruct (negb (c =? 0) && (ln_size (Line r ed) <? INPUT_BUF)) eqn:Hroom; [|by exists s].
  apply andb_true_iff in Hroom as [_ Hroom%Z.ltb_lt]. cbn [ln_ready ln_edit].
  set (c' := if c =? 13 then 10 else c).
  assert (u8 c' = c') as -> by (apply u8_small; subst c'; destruct (c =? 13); lia). clearbody c'.
  destruct (setin_editing (fun i => Input (<[Z.to_nat (in_e i `mod` INPUT_BUF) := c']> (in_buf i)) (in_r i) (in_w i) (u32 (in_e i + 1)))
    s _ (proj1 H) (rep_push _ r ed c' (proj2 H) Hroom)) as (s1 & E1 & H1).
  destruct (echo_editing c' s1 _ H1) as (s2 & E2 & H2).
  unfold bind at 1. rewrite E1. unfold bind at 1. rewrite E2. unfold bind at 1, get.
  rewrite (rep_full _ _ (proj2 H2)).
  replace (ln_size (Line r (ed ++ [c']))) with (ln_size (Line r ed) + 1)
    by (unfold ln_size; cbn [ln_ready ln_edit]; rewrite length_app; cbn [length]; lia).
  destruct ((c' =? 10) || (c' =? 4) || (ln_size (Line r ed) + 1 =? INPUT_BUF)) eqn:Ec.
  - destruct (setin_editing (fun i => Input (in_buf i) (in_r i) (in_e i) (in_e i)) s2 _ (proj1 H2) (rep_commit _ _ _ (proj2 H2)))
      as (s3 & E3 & H3). unfold bind. rewrite E3. exists s3. split; [done|]. split; [done|constructor].
  - exists s2. split; [done|]. split; [done|]. apply Forall_app. split; [done|].
    apply Forall_singleton. apply orb_false_iff in Ec as [[Ec _]%orb_false_iff _]. by apply Z.eqb_neq.
Qed.
End editor.

Lemma rep_ready_nil i r ed : in_rep i (Line r ed) -> (in_r i =? in_w i) = match r with [] => true | _ => false end.
Proof.
  intros H. pose proof (rep_sizes _ _ H) as Hs. destruct H as [_ Hr _ Hw _ _]. rewrite Hw.
  unfold INPUT_BUF in *. cbn [ln_ready] in *. apply eq_true_iff_eq. rewrite Z.eqb_eq. split.
  - intros E. symmetry in E. apply u32_eq_0 in E; [|lia..]. by destruct r.
  - destruct r; [|done]. cbn. rewrite Z.add_0_r, u32_small by lia. done.
Qed.

Lemma rep_read i c r ed : in_rep i (Line (c :: r) ed) ->
  in_buf i !! Z.to_nat (in_r i `mod` INPUT_BUF) = Some c /\ in_rep (with_r (u32 (in_r i + 1)) i) (Line r ed).
Proof.
  intros [Hb Hr Hs Hw He Hbytes]. unfold ln_size, INPUT_BUF in *. cbn [ln_ready ln_edit length Nat.add app] in *.
  rewrite (ring_cons 128), (slot_0 128) in Hbytes by (typeclasses eauto || lia). injection Hbytes as Hc Hbytes. split.
  - destruct (in_buf i !! _) as [y|] eqn:Ey; [cbn in Hc; by subst|].
    apply lookup_ge_None in Ey. pose proof (index_lt 128 (in_r i)). lia.
  - split; unfold ln_size, INPUT_BUF; cbn [ln_ready ln_edit with_r in_buf in_r in_w in_e]; try done.
    + apply u32_range.
    + lia.
    + rewrite Hw, u32_add. f_equal. lia.
    + rewrite He, u32_add. f_equal. lia.
Qed.

Lemma take_editing killed n first s r ed : editing s (Line r ed) ->
  sim (fun s' r' => editing s' (Line r' ed)) (console_take killed n first s) (ed_read killed n first r).
Proof.
  revert first s r. induction n as [|n IH]; intros first s r H; cbn [console_take ed_read]; [done|].
  unfold bind at 1, get. rewrite (rep_ready_nil _ r ed) by apply H. destruct r as [|c r]; [by destruct killed|].
  destruct (rep_read _ _ _ _ (proj2 H)) as [Hc Hi]. unfold in_byte. unfold bind at 1. rewrite Hc. cbn [lift_opt ret].
  destruct (setin_editing (with_r (u32 (in_r (con_in s) + 1))) s _ (proj1 H) Hi) as (s1 & E1 & H1).
  unfold bind at 1. rewrite E1. destruct (c =? 4).
  - destruct first; [done|]. split; [done|]. injection E1 as <-. by destruct s as [? ? ? ? []].
  - destruct (c =? 10); [done|]. specialize (IH false s1 r H1). unfold bind.
    destruct (console_take killed n false s1) as [[ok l] s2| |s2| |], (ed_read killed n false r) as [[ok' l'] r2| |r2| |]; try done.
    destruct IH as [[= -> ->] H2]. done.
Qed.

(** ** From the keyboard to a reader *)







Section keyboard.
Context (procdump : K console unit).
Hypothesis procdump_prints : forall s, con_ok s -> exists s', procdump s = Ret tt s' /\ con_ok s' /\ con_in s' = con_in s.


End keyboard.

(** ** Theorems *)

(** C33. The console is a line editor: the ring buffer with its three wrapping
    32-bit counters behaves like a list of finished lines and a line being
    edited. A key echoes and has the effect of [ed_key] (kill line, erase, append
    when there is room, finish the line and wake readers), and reading returns or
    sleeps exactly as [ed_read] on the finished lines. *)
Theorem console_line_editor procdump c killed n s l :
  (forall s, con_ok s -> exists s', procdump s = Ret tt s' /\ con_ok s' /\ con_in s' = con_in s) ->
  editing s l -> line_ok l -> 0 <= c < 256 ->
  (exists s', console_key procdump c s = Ret (fst (ed_key c l)) s' /\
     editing s' (snd (ed_key c l)) /\ line_ok (snd (ed_key c l))) /\
  sim (fun s' r => editing s' (Line r (ln_edit l))) (console_take killed n true s) (ed_read killed n true (ln_ready l)).
Proof.
  intros Hp H Hl Hc. split; [by apply key_editing|]. apply take_editing. by destruct l.
Qed.

(** A blank screen with the cursor in its last line, and a console whose counters
    are about to wrap around. *)
Definition blank_screen : cga := Cga (replicate 2000 BLANK) 1900.
Definition fresh_console : console :=
  Console false true [] blank_screen (Input (replicate 128 0) 4294967290 4294967290 4294967290).

Lemma fresh_editing : editing fresh_console (Line [] []).
Proof. split; split; try done; cbn; lia. Qed.

Lemma ret_prints s : con_ok s -> exists s', (ret tt : K console unit) s = Ret tt s' /\ con_ok s' /\ con_in s' = con_in s.
Proof. intros H. by exists s. Qed.

Lemma console_line_editor_witness : exists s',
  console_key (ret tt) 97 fresh_console = Ret false s' /\ editing s' (Line [] [97]).
Proof.
  destruct (console_line_editor (ret tt) 97 false 1 fresh_console (Line [] [])
    ret_prints fresh_editing (Forall_nil_2 _) ltac:(by split)) as [(s' & E & H & _) _].
  exists s'. split; [exact E|exact H].
Defined.




(** C38. The screen driver stays inside the screen. Every cell it reads or writes,
    those of the [memmove] and the [memset] that scroll included, has to be in CGA
    memory for it to go on. From a cursor in the first 24 lines of a memory that
    holds them, printing any characters (newlines, backspaces and lines that
    scroll) ends, keeps the cursor in those lines with a blank cell under it, and
    changes no cell of CGA memory below them. *)
Theorem screen_in_bounds cs s : screen_ok s -> cs <> [] ->
  exists s', forK cgaputc cs s = Ret tt s' /\ screen_ok s' /\ below_kept (cg_crt s) s' /\ cg_crt s' !! Z.to_nat (cg_pos s') = Some BLANK.
Proof.
  intros H Hcs. destruct cs as [|c cs]; [done|]. clear Hcs. revert c s H.
  induction cs as [|d cs IH]; intros c s H; unfold forK; cbn [foldK].
  - unfold bind. destruct (cgaputc_ok c s H) as (s' & E & H'). rewrite E. by exists s'.
  - unfold bind at 1. destruct (cgaputc_ok c s H) as (s' & E & H' & [K1 K2] & _). rewrite E.
    destruct (IH d s' H') as (s2 & E2 & Hok & [J1 J2] & Hb). exists s2. split_and!; [exact E2|done| |done]. split; congruence.
Qed.

Lemma screen_in_bounds_witness : exists s',
  forK cgaputc [65; 10; BACKSPACE; 66] blank_screen = Ret tt s' /\ screen_ok s'.
Proof.
  destruct (screen_in_bounds [65; 10; BACKSPACE; 66] blank_screen) as (s' & E & H & _).
  - split; cbn; lia.
  - discriminate.
  - exists s'. split; [exact E|exact H].
Defined.
