(* ===== verification/Printf.v ===== *)
(** Formatted output: [printint] and the format interpreters of printf.c (user)
    and console.c (kernel), with the round trip of printed numbers and the
    agreement of the two interpreters. *)
From S2P Require Import Prelude Str.

(** ** printint *)

Definition upper_digits : list Z := lit "0123456789ABCDEF".
Definition lower_digits : list Z := lit "0123456789abcdef".

(** The [do ... while((x /= base) != 0)] loop: the bytes stored in [buf], least
    significant digit first. A 32-bit number has at most 32 digits. *)
Fixpoint digit_loop (fuel : nat) (digits : list Z) (x base : Z) : list Z :=
  match fuel with
  | O => []
  | S f =>
    nth (Z.to_nat (x `mod` base)) digits 0 ::
    (if x / base =? 0 then [] else digit_loop f digits (x / base) base)
  end.

(** The characters written, or [None] when [buf[16]] would be overrun. *)
Definition printint (digits : list Z) (xx base : Z) (sgn : bool) : option (list Z) :=
  let neg := sgn && (xx <? 0) in
  let x := if neg then u32 (- xx) else u32 xx in
  let buf := digit_loop 32 digits x base ++ (if neg then [45] else []) in
  if (length buf <=? 16)%nat then Some (rev buf) else None.

(** ** The interpreters

    [args] are the words on the stack after [fmt], [string] is the string at an
    address. Reading an argument that was not passed is not defined by C. *)
Section formats.
Context (digits : list Z) (string : Z -> list Z).

Definition out (l : list Z) (o : option (list Z)) : option (list Z) := app l <$> o.
Definition str_arg (a : Z) : list Z := if a =? 0 then lit "(null)" else string a.

(** [printf] of printf.c: [percent] tells that [state] is ['%']. *)
Fixpoint printf (percent : bool) (fmt args : list Z) : option (list Z) :=
  match fmt with
  | [] => Some []
  | c :: fmt' =>
    if negb percent then
      if c =? 37 then printf true fmt' args else out [c] (printf false fmt' args)
    else if c =? 100 then
      match args with
      | a :: args' => printint digits (s32 a) 10 true ≫= fun l => out l (printf false fmt' args')
      | [] => None
      end
    else if (c =? 120) || (c =? 112) then
      match args with
      | a :: args' => printint digits (s32 a) 16 false ≫= fun l => out l (printf false fmt' args')
      | [] => None
      end
    else if c =? 115 then
      match args with
      | a :: args' => out (str_arg a) (printf false fmt' args')
      | [] => None
      end
    else if c =? 99 then
      match args with
      | a :: args' => out [u8 a] (printf false fmt' args')
      | [] => None
      end
    else if c =? 37 then out [c] (printf false fmt' args)
    else out [37; c] (printf false fmt' args)
  end.

(** The loop of [cprintf] of console.c, without [%c]. *)
Fixpoint cprintf (fmt args : list Z) : option (list Z) :=
  match fmt with
  | [] => Some []
  | c :: fmt' =>
    if negb (c =? 37) then out [c] (cprintf fmt' args)
    else
    match fmt' with
    | [] => Some []
    | c :: fmt'' =>
      if c =? 100 then
        match args with
        | a :: args' => printint digits (s32 a) 10 true ≫= fun l => out l (cprintf fmt'' args')
        | [] => None
        end
      else if (c =? 120) || (c =? 112) then
        match args with
        | a :: args' => printint digits (s32 a) 16 false ≫= fun l => out l (cprintf fmt'' args')
        | [] => None
        end
      else if c =? 115 then
        match args with
        | a :: args' => out (str_arg a) (cprintf fmt'' args')
        | [] => None
        end
      else if c =? 37 then out [37] (cprintf fmt'' args)
      else out [37; c] (cprintf fmt'' args)
    end
  end.
End formats.

(** ** Numbers *)

(** The number written by big-endian digits [l] of a base. *)
Definition value (base : Z) (l : list Z) : Z := fold_left (fun n d => n * base + d) l 0.

(** The digit a character stands for: its position in the table. *)
Definition digit_of (digits : list Z) (c : Z) : Z :=
  match index_of (Z.eqb c) digits with Some i => Z.of_nat i | None => 0 end.

Record digit_table (digits : list Z) (base : Z) : Prop := {
  dt_base : 2 <= base <= 16;
  dt_digit : forall i, 0 <= i < base -> digit_of digits (nth (Z.to_nat i) digits 0) = i
}.

Lemma value_app base l d : value base (l ++ [d]) = value base l * base + d.
Proof. unfold value. by rewrite fold_left_app. Qed.

Lemma digit_loop_value digits base fuel x : digit_table digits base -> 0 <= x < 2 ^ Z.of_nat fuel -> (0 < fuel)%nat ->
  value base (digit_of digits <$> rev (digit_loop fuel digits x base)) = x.
Proof.
  intros [Hb Hd]. revert x. induction fuel as [|fuel IH]; intros x Hx Hf; [lia|].
  cbn [digit_loop]. pose proof (Z.mod_pos_bound x base ltac:(lia)). pose proof (Z.div_mod x base ltac:(lia)) as E.
  cbn [rev]. rewrite fmap_app. cbn [fmap list_fmap]. rewrite value_app, Hd by lia.
  destruct (Z.eqb_spec (x / base) 0) as [E0|E0]; [cbn; lia|].
  rewrite Nat2Z.inj_succ, Z.pow_succ_r in Hx by lia.
  assert (0 <= x / base) by (apply Z.div_pos; lia).
  assert (x / base < 2 ^ Z.of_nat fuel) by (apply Z.div_lt_upper_bound; nia).
  destruct fuel as [|fuel]; [cbn in *; lia|]. rewrite IH by lia. lia.
Qed.

Lemma digit_loop_length digits base fuel x k : 2 <= base -> 0 <= x < base ^ Z.of_nat k -> (0 < k)%nat ->
  (length (digit_loop fuel digits x base) <= k)%nat.
Proof.
  intros Hb. revert x k. induction fuel as [|fuel IH]; intros x k Hx Hk; cbn [digit_loop length]; [lia|].
  destruct (Z.eqb_spec (x / base) 0); cbn [length]; [lia|].
  destruct k as [|k]; [lia|]. rewrite Nat2Z.inj_succ, Z.pow_succ_r in Hx by lia.
  assert (0 <= x / base) by (apply Z.div_pos; lia).
  assert (x / base < base ^ Z.of_nat k) by (apply Z.div_lt_upper_bound; nia).
  destruct k as [|k]; [cbn in *; lia|]. apply le_n_S, IH; lia.
Qed.

Lemma u32_mul_add n a b : u32 (u32 n * a + b) = u32 (n * a + b).
Proof.
  with_strategy transparent [u32] unfold u32.
  by rewrite <- Zplus_mod_idemp_l, Zmult_mod_idemp_l, Zplus_mod_idemp_l.
Qed.

Lemma s32_mul_add n a b : s32 (s32 n * a + b) = s32 (n * a + b).
Proof.
  rewrite <- (s32_u32 (s32 n * a + b)), <- (u32_mul_add (s32 n)), u32_s32, u32_mul_add. apply s32_u32.
Qed.

(** The decimal digits of both tables are the ASCII ones [atoi] reads. *)
Definition table (digits : list Z) : Prop := digits = upper_digits \/ digits = lower_digits.
Definition decimal (digits : list Z) (c : Z) : Prop := is_digit c = true /\ digit_of digits c = c - 48.

Lemma table_ok digits base : table digits -> base = 10 \/ base = 16 -> digit_table digits base.
Proof.
  intros Ht Hb. split; [lia|]. intros i Hi.
  assert (Forall (fun k => digit_of digits (nth k digits 0) = Z.of_nat k) (seq 0 16)) as H
    by (destruct Ht as [-> | ->]; by_evaluation).
  rewrite Forall_forall in H. rewrite H; [lia|]. apply elem_of_seq. lia.
Qed.

Lemma digit_loop_decimal digits fuel x : table digits -> Forall (decimal digits) (digit_loop fuel digits x 10).
Proof.
  intros Ht. assert (Forall (fun k => decimal digits (nth k digits 0)) (seq 0 10)) as H.
  { unfold decimal. destruct Ht as [-> | ->]; by_evaluation. }
  rewrite Forall_forall in H. revert x. induction fuel as [|fuel IH]; intros x; cbn [digit_loop]; constructor.
  - apply H, elem_of_seq. pose proof (Z.mod_pos_bound x 10 ltac:(lia)). lia.
  - by destruct (x / 10 =? 0).
Qed.

Lemma atoi_value digits l : Forall (decimal digits) l -> atoi l = s32 (value 10 (digit_of digits <$> l)).
Proof.
  unfold atoi, value. change 0 with (s32 0) at 1. generalize 0. intros n H. revert n.
  induction H as [|c l [Hc Hd] _ IH]; intros n; [done|]. cbn [atoi_loop fmap list_fmap fold_left].
  rewrite Hc, Hd, <- Z.add_sub_assoc, s32_mul_add. apply IH.
Qed.

Lemma printint_decimal digits xx : table digits -> -2147483648 <= xx < 2147483648 ->
  exists l, printint digits xx 10 true = Some (if xx <? 0 then 45 :: l else l) /\ s32 (if xx <? 0 then - atoi l else atoi l) = xx.
Proof.
  intros Ht Hx. pose proof (u32_range xx) as Hu. pose proof (u32_range (- xx)) as Hn.
  unfold printint. cbn [andb]. set (x := if xx <? 0 then u32 (- xx) else u32 xx).
  assert (0 <= x < 2 ^ Z.of_nat 32) as Hr by (subst x; destruct (xx <? 0); cbn; lia).
  pose proof (digit_loop_length digits 10 32 x 10 ltac:(lia) ltac:(cbn in *; lia) ltac:(lia)) as Hl.
  exists (rev (digit_loop 32 digits x 10)). split.
  - destruct (Nat.leb_spec (length (digit_loop 32 digits x 10 ++ (if xx <? 0 then [45] else []))) 16) as [_|H].
    + destruct (xx <? 0); [by rewrite rev_app_distr|by rewrite app_nil_r].
    + rewrite length_app in H. destruct (xx <? 0); cbn [length] in H; lia.
  - rewrite (atoi_value digits).
    2:{ apply Forall_rev. by apply digit_loop_decimal. }
    rewrite digit_loop_value; [|apply table_ok; auto|exact Hr|lia]. subst x.
    destruct (Z.ltb_spec xx 0).
    + rewrite s32_u32. pose proof (s32_mul_add (- xx) (-1) 0) as E.
      rewrite Z.add_0_r, <- Z.opp_eq_mul_m1 in E. rewrite E, s32_small; lia.
    + rewrite s32_u32. rewrite (s32_small xx) by lia. apply s32_small; lia.
Qed.

Lemma printint_hex digits xx : table digits ->
  exists l, printint digits xx 16 false = Some l /\ (length l <= 8)%nat /\ value 16 (digit_of digits <$> l) = u32 xx.
Proof.
  intros Ht. pose proof (u32_range xx) as Hu. unfold printint. cbn [andb]. rewrite app_nil_r.
  pose proof (digit_loop_length digits 16 32 (u32 xx) 8 ltac:(lia) ltac:(cbn in *; lia) ltac:(lia)) as Hl.
  destruct (Nat.leb_spec (length (digit_loop 32 digits (u32 xx) 16)) 16); [|lia].
  eexists. split; [done|]. rewrite length_rev. split; [done|].
  apply digit_loop_value; [apply table_ok; auto|cbn; lia|lia].
Qed.

(** Printing numbers is lossless: both [printint]s (of the user's [printf] and
    of the kernel's [cprintf]) stay within their 16-byte buffer; [atoi] reads
    every [%d] back, also for the most negative integer, whose negation overflows;
    [%x] gives at most eight digits, which denote the word printed. *)
Theorem printint_roundtrip digits xx : table digits -> -2147483648 <= xx < 2147483648 ->
  (exists l, printint digits xx 10 true = Some (if xx <? 0 then 45 :: l else l) /\
     s32 (if xx <? 0 then - atoi l else atoi l) = xx) /\
  (exists l, printint digits xx 16 false = Some l /\ (length l <= 8)%nat /\
     value 16 (digit_of digits <$> l) = u32 xx).
Proof. intros Ht Hx. split; [by apply printint_decimal|by apply printint_hex]. Qed.

Lemma printint_roundtrip_witness :
  printint upper_digits (-2147483648) 10 true = Some (lit "-2147483648") /\
  printint upper_digits (-1) 16 false = Some (lit "FFFFFFFF") /\
  exists l, printint lower_digits 255 16 false = Some l /\ value 16 (digit_of lower_digits <$> l) = 255.
Proof.
  split; [reflexivity|]. split; [reflexivity|].
  destruct (printint_roundtrip lower_digits 255 (or_intror eq_refl) ltac:(by split)) as [_ (l & E & _ & V)].
  exists l. split; [exact E|exact V].
Defined.

(** ** The two interpreters *)

(** No [%c] in the format. *)
Fixpoint no_percent_c (percent : bool) (fmt : list Z) : bool :=
  match fmt with
  | [] => true
  | c :: fmt' => if percent then negb (c =? 99) && no_percent_c false fmt' else no_percent_c (c =? 37) fmt'
  end.

(** The user's [printf], a state machine over the format, and the kernel's
    [cprintf], which looks one character ahead, write the same characters for
    every format without [%c] and all arguments, unfinished [%] and missing
    arguments included. *)
Theorem printf_cprintf digits string fmt args : no_percent_c false fmt = true ->
  printf digits string false fmt args = cprintf digits string fmt args.
Proof.
  remember (length fmt) as n eqn:Hn. revert fmt args Hn. induction n as [n IH] using lt_wf_ind.
  intros [|c fmt] args -> Hc; [done|]. cbn [printf cprintf negb no_percent_c length] in *.
  destruct (c =? 37); cbn [negb].
  - destruct fmt as [|d fmt]; [done|]. cbn [printf negb no_percent_c] in *.
    apply andb_true_iff in Hc as [Hd Hc]. apply negb_true_iff in Hd.
    assert (forall args, printf digits string false fmt args = cprintf digits string fmt args) as E
      by (intros; apply (IH (length fmt)); cbn; lia || done).
    rewrite Hd. destruct (d =? 100); [destruct args; by rewrite ?E|].
    destruct ((d =? 120) || (d =? 112)); [destruct args; by rewrite ?E|].
    destruct (d =? 115); [destruct args; by rewrite ?E|].
    destruct (Z.eqb_spec d 37) as [->|]; by rewrite E.
  - by rewrite (IH (length fmt)) by (lia || done).
Qed.

Lemma printf_cprintf_witness :
  printf lower_digits (fun _ => lit "init") false (lit "%d %s%") [1; 4096] = Some (lit "1 init") /\
  cprintf lower_digits (fun _ => lit "init") (lit "%d %s%") [1; 4096] = Some (lit "1 init").
Proof.
  split; [reflexivity|]. rewrite <- (printf_cprintf lower_digits (fun _ => lit "init") (lit "%d %s%") [1; 4096]); reflexivity.
Defined.
