(* ===== verification/Tools.v ===== *)
(** The user programs wc.c, cat.c, pcat.c and echo.c, and the name format of ls.c,
    over an interface of the system calls they make. *)
From S2P Require Import Prelude Str Fs Printf.

(** ** System calls *)

(** [read] returns its result and the bytes it stored. *)
Class Sys (S : Type) := {
  sys_open : list Z -> Z -> K S Z;
  sys_forceopen : list Z -> Z -> K S Z;
  sys_iopen : Z -> Z -> K S Z;
  sys_read : Z -> Z -> K S (Z * list Z);
  sys_write : Z -> list Z -> K S unit;
  sys_close : Z -> K S unit
}.

(** What the programs rely on: a descriptor stands for the bytes [unread] of it, of which each [read] gives at least one, and what is written to
    descriptor 1 is appended to the output. *)
Class SysLaws (S : Type) `{Sys S} := {
  unread : S -> Z -> list Z;
  written : S -> list Z;
  read_law : forall s fd n, 0 < n -> exists k s', sys_read fd n s = Ret (Z.of_nat k, take k (unread s fd)) s' /\
    (Z.of_nat k <= n) /\ (k <= length (unread s fd))%nat /\ (k = 0%nat -> unread s fd = []) /\ unread s' fd = drop k (unread s fd) /\ written s' = written s;
  write_law : forall s l, exists s', sys_write 1 l s = Ret tt s' /\ unread s' = unread s /\ written s' = written s ++ l
}.

Section tools.
Context {S : Type} `{Sys S}.

(** What [printf] prints, by [putc] one byte at a time. *)
Fixpoint puts (fd : Z) (l : list Z) : K S unit :=
  match l with
  | [] => ret tt
  | c :: l' => sys_write fd [c];;; puts fd l'
  end.

(** [printf(fd, fmt, ...)], with the strings of the call by number. *)
Definition say (fd : Z) (strings : list (list Z)) (fmt : list Z) (args : list Z) : K S unit :=
  match printf upper_digits (fun a => default [] (strings !! Z.to_nat (a - 1))) false fmt args with
  | Some l => puts fd l
  | None => undef "printf: argument"
  end.

(** ** cat.c and pcat.c

    The result [false] tells that the program has called [exit]. *)
Fixpoint cat (fuel : nat) (prog : list Z) (fd : Z) : K S bool :=
  match fuel with
  | O => nofuel
  | Datatypes.S f =>
    let! r := sys_read fd 512 in
    if 0 <? r.1 then sys_write 1 r.2;;; cat f prog fd
    else if r.1 <? 0 then say 1 [prog] (lit "%s: read error" ++ [10]) [1];;; ret false
    else ret true
  end.

Definition cat_main (fuel : nat) (argv : list (list Z)) : K S unit :=
  match argv with
  | [] | [_] => cat fuel (lit "cat") 0;;; ret tt
  | [_; path] =>
    let! fd := sys_open path 0 in
    if fd =? E_CORRUPTED then say 1 [path] (lit "cat: %s is corrupted" ++ [10]) [1]
    else if fd <? 0 then say 1 [path] (lit "cat: cannot open %s" ++ [10]) [1]
    else let! go := cat fuel (lit "cat") fd in if (go : bool) then sys_close fd else ret tt
  | [_; flag; path] =>
    if (chr flag =? 45) && (chr (tail flag) =? 102) then
      let! fd := sys_forceopen path 0 in
      if fd <? 0 then say 1 [path] (lit "cat: cannot open %s" ++ [10]) [1]
      else let! go := cat fuel (lit "cat") fd in if (go : bool) then sys_close fd else ret tt
    else say 1 [] (lit "usage: cat [-f]? [PATH]" ++ [10]) []
  | _ => ret tt
  end.

Definition pcat_main (fuel : nat) (argv : list (list Z)) : K S unit :=
  match argv with
  | [_; a; b] =>
    let dev := atoi a in
    let inum := atoi b in
    let! fd := sys_iopen dev inum in
    if fd <? 0 then say 1 [] (lit "pcat: cannot open inode %d on device %d" ++ [10]) [u32 inum; u32 dev]
    else let! go := cat fuel (lit "pcat") fd in if (go : bool) then sys_close fd else ret tt
  | _ => say 1 [] (lit "usage: pcat [DEV] [INUM]" ++ [10]) []
  end.

(** ** wc.c *)

Record counts := Counts { n_lines : Z; n_words : Z; n_chars : Z; in_word : bool }.
Definition separators : list Z := [32; 13; 9; 10; 11].

Definition wc_char (c : Z) (k : counts) : counts :=
  let l := if c =? 10 then n_lines k + 1 else n_lines k in
  if strchr separators c then Counts l (n_words k) (n_chars k + 1) false
  else if negb (in_word k) then Counts l (n_words k + 1) (n_chars k + 1) true
  else Counts l (n_words k) (n_chars k + 1) true.

Fixpoint wc_loop (fuel : nat) (fd : Z) (k : counts) : K S (option counts) :=
  match fuel with
  | O => nofuel
  | Datatypes.S f =>
    let! r := sys_read fd 512 in
    if 0 <? r.1 then wc_loop f fd (foldl (fun k c => wc_char c k) k r.2)
    else if r.1 <? 0 then ret None
    else ret (Some k)
  end.
Definition wc (fuel : nat) (fd : Z) (name : list Z) : K S bool :=
  let! r := wc_loop fuel fd (Counts 0 0 0 false) in
  match r with
  | None => say 1 [] (lit "wc: read error" ++ [10]) [];;; ret false
  | Some k => say 1 [name] (lit "%d %d %d %s" ++ [10]) [u32 (n_lines k); u32 (n_words k); u32 (n_chars k); 1];;; ret true
  end.

Fixpoint wc_files (fuel : nat) (argv : list (list Z)) : K S unit :=
  match argv with
  | [] => ret tt
  | path :: argv' =>
    let! fd := sys_open path 0 in
    if fd <? 0 then say 1 [path] (lit "wc: cannot open %s" ++ [10]) [1]
    else
      let! go := wc fuel fd path in
      if (go : bool) then sys_close fd;;; wc_files fuel argv' else ret tt
  end.
Definition wc_main (fuel : nat) (argv : list (list Z)) : K S unit :=
  if (length argv <=? 1)%nat then wc fuel 0 [];;; ret tt else wc_files fuel (tail argv).

(** ** echo.c *)

Fixpoint echo_loop (argv : list (list Z)) : K S unit :=
  match argv with
  | [] => ret tt
  | a :: argv' => say 1 [a; if (length argv' =? 0)%nat then [10] else [32]] (lit "%s%s") [1; 2];;; echo_loop argv'
  end.
Definition echo_main (argv : list (list Z)) : K S unit := echo_loop (tail argv).
End tools.

(** ** ls.c *)

(** The loop of [fmtname] from [p = path + n] downwards: the index of the last slash,
    or -1. *)
Fixpoint last_slash (path : list Z) (n : nat) : Z :=
  if default 0 (path !! n) =? 47 then Z.of_nat n
  else match n with O => -1 | Datatypes.S n' => last_slash path n' end.

(** The string returned and the static buffer, whose last byte is not written. *)
Definition fmtname (path buf : list Z) : list Z * list Z :=
  let p := drop (Z.to_nat (last_slash path (length path) + 1)) path in
  if DIRSIZ <=? Z.of_nat (length p) then (p, buf)
  else
    let buf := splice buf 0 p in
    let buf := splice buf (Z.of_nat (length p)) (replicate (Z.to_nat DIRSIZ - length p) 32) in
    (cstr buf, buf).

(** ** Specification *)

(** A word starts at a byte that is not a separator, at the beginning or after one. *)
Definition is_sep (c : Z) : bool := bool_decide (c ∈ separators).
Fixpoint word_starts (prev : bool) (l : list Z) : Z :=
  match l with
  | [] => 0
  | c :: l' => (if prev && negb (is_sep c) then 1 else 0) + word_starts (is_sep c) l'
  end.
Definition lines (l : list Z) : Z := Z.of_nat (length (filter (fun c => c = 10) l)).

Lemma strchr_found l c : Forall (fun x => x <> 0) l -> (if strchr l c then true else false) = bool_decide (c ∈ l).
Proof.
  induction 1 as [|x l Hx _ IH]; cbn [strchr]; [by rewrite bool_decide_false by apply not_elem_of_nil|].
  rewrite (proj2 (Z.eqb_neq _ _) Hx). destruct (Z.eqb_spec x c) as [->|Hne]; [by rewrite bool_decide_true by (by left)|].
  rewrite IH. apply bool_decide_ext. rewrite elem_of_cons. split; [by right|]. by intros [->|].
Qed.

Lemma strchr_sep c : (if strchr separators c then true else false) = is_sep c.
Proof. apply strchr_found. by_evaluation. Qed.

Lemma wc_chars l : forall k, foldl (fun k c => wc_char c k) k l =
  Counts (n_lines k + lines l) (n_words k + word_starts (negb (in_word k)) l) (n_chars k + Z.of_nat (length l))
    (match last l with Some c => negb (is_sep c) | None => in_word k end).
Proof.
  induction l as [|c l IH]; intros k.
  { destruct k; cbn. unfold lines. cbn. by rewrite !Z.add_0_r. }
  cbn [foldl]. rewrite IH. unfold wc_char. pose proof (strchr_sep c) as Hs. unfold lines. rewrite filter_cons. cbn [word_starts length].
  assert (last (c :: l) = match last l with Some x => Some x | None => Some c end) as -> by apply last_cons.
  destruct (strchr separators c); rewrite <- Hs; cbn [negb andb]; destruct (in_word k) eqn:Ew; cbn [negb andb n_lines n_words n_chars in_word];
    (destruct (Z.eqb_spec c 10) as [->|]; [rewrite decide_True by done|rewrite decide_False by done]; cbn [length]; destruct (last l); f_equal; try lia; by rewrite <- Hs).
Qed.

Section laws.
Context {S : Type} `{SysLaws S}.

Lemma puts_ok l : forall s, exists s', puts 1 l s = Ret tt s' /\ unread s' = unread s /\ written s' = written s ++ l.
Proof.
  induction l as [|c l IH]; intros s; cbn [puts]; [exists s; by rewrite app_nil_r|].
  destruct (write_law s [c]) as (s1 & E & Hu & Hw). destruct (IH s1) as (s2 & E2 & Hu2 & Hw2). exists s2.
  rewrite (bind_eq _ _ _ _ _ E), E2, Hw2, Hw, Hu2, Hu, <- app_assoc. by cbn.
Qed.

Lemma wc_loop_ok fuel : forall fd k s, (length (unread s fd) < fuel)%nat ->
  exists s', wc_loop fuel fd k s = Ret (Some (foldl (fun k c => wc_char c k) k (unread s fd))) s' /\ unread s' fd = [] /\ written s' = written s.
Proof.
  induction fuel as [|fuel IH]; intros fd k s Hf; [lia|]. cbn [wc_loop].
  destruct (read_law s fd 512 ltac:(lia)) as (n & s1 & E & Hn & Hl & Hz & Hu & Hw). rewrite (bind_eq _ _ _ _ _ E). cbn [fst snd].
  destruct n as [|n].
  - exists s1. rewrite Hu, (Hz eq_refl). split_and!; done.
  - rewrite (proj2 (Z.ltb_lt _ _)) by lia. destruct (IH fd (foldl (fun k c => wc_char c k) k (take (Datatypes.S n) (unread s fd))) s1) as (s' & E' & Hu' & Hw').
    { rewrite Hu, length_drop. lia. }
    exists s'. rewrite E', Hu. split_and!; [|done|congruence]. do 2 f_equal. rewrite <- foldl_app. by rewrite take_drop.
Qed.

Lemma cat_ok fuel : forall prog fd s, (length (unread s fd) < fuel)%nat ->
  exists s', cat fuel prog fd s = Ret true s' /\ written s' = written s ++ unread s fd /\ unread s' fd = [].
Proof.
  induction fuel as [|fuel IH]; intros prog fd s Hf; [lia|]. cbn [cat].
  destruct (read_law s fd 512 ltac:(lia)) as (n & s1 & E & Hn & Hl & Hz & Hu & Hw). rewrite (bind_eq _ _ _ _ _ E). cbn [fst snd].
  destruct n as [|n].
  - exists s1. rewrite Hu, (Hz eq_refl), app_nil_r. split_and!; done.
  - rewrite (proj2 (Z.ltb_lt _ _)) by lia. destruct (write_law s1 (take (Datatypes.S n) (unread s fd))) as (s2 & E2 & Hu2 & Hw2).
    rewrite (bind_eq _ _ _ _ _ E2). destruct (IH prog fd s2) as (s' & E' & Hw' & Hu').
    { rewrite Hu2, Hu, length_drop. lia. }
    exists s'. split_and!; [done| |done]. rewrite Hw', Hw2, Hw, Hu2, Hu, <- app_assoc. by rewrite take_drop.
Qed.
End laws.

(** ** fmtname *)

Lemma last_slash_ok path n : (forall k, (k <= n)%nat -> default 0 (path !! k) <> 47) -> last_slash path n = -1.
Proof.
  induction n as [|n IH]; intros Hk; cbn [last_slash]; rewrite (proj2 (Z.eqb_neq _ _)) by (by apply Hk); [done|]. apply IH. intros k H. apply Hk. lia.
Qed.

Lemma last_slash_at dir name : Forall (fun c => c <> 47) name -> last_slash (dir ++ 47 :: name) (length (dir ++ 47 :: name)) = Z.of_nat (length dir).
Proof.
  intros Hn. assert (forall n, (length dir <= n <= length (dir ++ 47%Z :: name))%nat -> last_slash (dir ++ 47 :: name) n = Z.of_nat (length dir)) as H.
  { induction n as [|n IH]; intros Hr; cbn [last_slash].
    - rewrite (list_lookup_middle dir name 47%Z 0) by lia. cbn. lia.
    - destruct (decide (Datatypes.S n = length dir)) as [E|E].
      + rewrite E, (list_lookup_middle dir name 47%Z (length dir)) by done. done.
      + rewrite IH by lia. rewrite (proj2 (Z.eqb_neq _ _)); [done|].
        rewrite lookup_app_r by lia. destruct (Datatypes.S n - length dir)%nat as [|j] eqn:Ej; [lia|]. cbn.
        destruct (name !! j) as [c|] eqn:Ec; cbn; [by eapply Forall_lookup in Hn|done]. }
  apply H. rewrite length_app. cbn. lia.
Qed.

(** The name after the last slash, padded with blanks to [DIRSIZ] characters. *)
Lemma fmtname_ok dir name buf : Forall (fun c => c <> 47) name -> Forall (fun c => c <> 0) name -> length buf = 15%nat -> buf !! 14%nat = Some 0 ->
  let r := fmtname (dir ++ 47 :: name) buf in
  r.1 = name ++ replicate (14 - length name) 32 /\ length r.2 = 15%nat /\ r.2 !! 14%nat = Some 0.
Proof.
  intros Hn Hz Hl H0 r. unfold r, fmtname. rewrite last_slash_at by done. replace (Z.to_nat (Z.of_nat (length dir) + 1)) with (Datatypes.S (length dir)) by lia.
  assert (drop (Datatypes.S (length dir)) (dir ++ 47 :: name) = name) as ->.
  { rewrite drop_app_ge by lia. by replace (Datatypes.S (length dir) - length dir)%nat with 1%nat by lia. }
  destruct (Z.leb_spec DIRSIZ (Z.of_nat (length name))) as [Hd|Hd]; change DIRSIZ with 14 in *; cbn [fst snd].
  { replace (14 - length name)%nat with 0%nat by lia. by rewrite app_nil_r. }
  change (Z.to_nat 14) with 14%nat. set (pad := replicate (14 - length name) 32).
  assert (length pad = 14 - length name)%nat as Lp by apply length_replicate.
  assert (splice (splice buf 0 name) (Z.of_nat (length name)) pad = name ++ pad ++ [0]) as E.
  { rewrite splice_app by (rewrite ?Hl; lia). unfold splice. change (Z.to_nat 0) with 0%nat. rewrite take_0, app_nil_l, Nat.add_0_l, length_app, Lp.
    replace (length name + (14 - length name))%nat with 14%nat by lia. rewrite (drop_S _ _ _ H0), drop_ge by lia. by rewrite <- app_assoc. }
  rewrite E. split_and!.
  - unfold cstr. assert (forall l, Forall (fun c => c <> 0) l -> strlen (l ++ [0]) = Z.of_nat (length l)) as Hs.
    { induction 1 as [|c l Hc _ IH]; [done|]. cbn [strlen app]. rewrite (proj2 (Z.eqb_neq _ _) Hc), IH. cbn. lia. }
    rewrite app_assoc, Hs, Nat2Z.id; [by rewrite take_app_length|]. apply Forall_app. split; [done|]. apply Forall_replicate. lia.
  - rewrite !length_app, Lp. cbn. lia.
  - rewrite lookup_app_r, lookup_app_r by lia. rewrite Lp. by replace (14 - length name - (14 - length name))%nat with 0%nat by lia.
Qed.

(** ** Filters *)

(** A number as [%d] prints it. *)
Definition decimal_of (x : Z) (l : list Z) : Prop := printint upper_digits x 10 true = Some l /\ atoi l = x.

Lemma decimal_exists x : 0 <= x < 2147483648 -> exists l, decimal_of x l.
Proof.
  intros Hx. destruct (printint_decimal upper_digits x ltac:(by left)) as (l & E & Ha); [lia|]. rewrite (proj2 (Z.ltb_ge _ _)) in E, Ha by lia.
  exists l. split; [done|]. rewrite <- Ha. unfold atoi in *. assert (forall l n, -2147483648 <= n < 2147483648 -> -2147483648 <= atoi_loop l n < 2147483648) as Hr.
  { induction l0 as [|c l0 IH]; intros n Hn; [done|]. cbn [atoi_loop]. destruct (is_digit c); [|done]. apply IH. apply s32_range. }
  symmetry. apply s32_small. apply Hr. lia.
Qed.

Section filters.
Context {S : Type} `{SysLaws S}.

Lemma word_starts_bound l : forall b, 0 <= word_starts b l <= Z.of_nat (length l).
Proof. induction l as [|c l IH]; intros b; cbn; [lia|]. pose proof (IH (is_sep c)). destruct (b && _); lia. Qed.

(** The arguments with a blank between them and a newline at the end. *)
Fixpoint spaced (args : list (list Z)) : list Z :=
  match args with
  | [] => []
  | [a] => a ++ [10]
  | a :: args' => a ++ 32 :: spaced args'
  end.

Lemma echo_ok args : forall s, exists s', echo_loop args s = Ret tt s' /\ written s' = written s ++ spaced args.
Proof.
  induction args as [|a args IH]; intros s; cbn [echo_loop]; [exists s; by rewrite app_nil_r|].
  set (e := if (length args =? 0)%nat then [10] else [32]).
  assert (forall l, say 1 [a; e] (lit "%s%s") [1; 2] l = puts 1 (a ++ e) l) as Es.
  { intros l. unfold say. change (lit "%s%s") with [37; 115; 37; 115]. cbn -[puts e]. unfold out. cbn -[puts e]. by rewrite app_nil_r. }
  destruct (puts_ok (a ++ e) s) as (s1 & E1 & _ & Hw). destruct (IH s1) as (s2 & E2 & Hw2). exists s2.
  rewrite (bind_eq _ _ _ _ _ (eq_trans (Es s) E1)), E2, Hw2, Hw, <- app_assoc. split; [done|]. f_equal. unfold e.
  destruct args as [|b args]; cbn [length Nat.eqb spaced]; [by rewrite app_nil_r|by rewrite <- app_assoc].
Qed.

(** The filters, over any system that delivers the bytes of a descriptor in
    pieces of any size: [cat] copies them all to its output; [wc] prints how many
    lines, words and characters they have, wherever the pieces end; [echo] prints its
    arguments with blanks between them. *)
Theorem filters_correct fuel prog fd name argv s : (length (unread s fd) < fuel)%nat -> Z.of_nat (length (unread s fd)) < 2147483648 ->
  let inp := unread s fd in
  (exists s', cat fuel prog fd s = Ret true s' /\ written s' = written s ++ inp) /\
  (exists s', echo_main argv s = Ret tt s' /\ written s' = written s ++ spaced (tail argv)) /\
  (exists s' l w c, wc fuel fd name s = Ret true s' /\ decimal_of (lines inp) l /\ decimal_of (word_starts true inp) w /\
     decimal_of (Z.of_nat (length inp)) c /\ written s' = written s ++ (l ++ [32] ++ w ++ [32] ++ c ++ [32] ++ name) ++ [10]).
Proof.
  intros Hf Hl inp. split; [|split; [apply echo_ok|]].
  { destruct (cat_ok fuel prog fd s Hf) as (s' & E & Hw & _). by exists s'. }
  destruct (wc_loop_ok fuel fd (Counts 0 0 0 false) s Hf) as (s1 & E1 & _ & Hw1). rewrite wc_chars in E1. fold inp in E1, Hl.
  assert (0 <= lines inp <= Z.of_nat (length inp)) as Hli by (unfold lines; pose proof (length_filter (fun c => c = 10) inp); lia).
  pose proof (word_starts_bound inp true) as Hwo.
  destruct (decimal_exists (lines inp)) as [l Dl]; [lia|]. destruct (decimal_exists (word_starts true inp)) as [w Dw]; [lia|].
  destruct (decimal_exists (Z.of_nat (length inp))) as [c Dc]; [lia|].
  set (t := (l ++ [32] ++ w ++ [32] ++ c ++ [32] ++ name) ++ [10]).
  destruct (puts_ok t s1) as (s2 & E2 & _ & Hw2).
  exists s2, l, w, c. split_and!; [|done|done|done|by rewrite Hw2, Hw1].
  unfold wc. rewrite (bind_eq _ _ _ _ _ E1). cbn [n_lines n_words n_chars in_word negb]. rewrite !Z.add_0_l.
  assert (say 1 [name] (lit "%d %d %d %s" ++ [10]) [u32 (lines inp); u32 (word_starts true inp); u32 (Z.of_nat (length inp)); 1] s1 = Ret tt s2) as Es.
  { unfold say. change (lit "%d %d %d %s" ++ [10]) with [37; 100; 32; 37; 100; 32; 37; 100; 32; 37; 115; 10].
    cbn -[printint u32 s32 upper_digits puts]. rewrite !s32_u32, !s32_small by lia.
    destruct Dl as [-> _], Dw as [-> _], Dc as [-> _]. unfold out. cbn -[puts]. rewrite <- E2. f_equal. unfold t.
    change (default [] ([name] !! Z.to_nat (1 - 1))) with name. cbn [app]. by repeat (rewrite <- app_assoc; cbn [app]). }
  by rewrite (bind_eq _ _ _ _ _ Es).
Qed.
End filters.

(** A system whose files deliver at most two bytes at a time. *)
#[local] Instance slow_sys : Sys (list Z * list Z) := {
  sys_open _ _ := ret 3;
  sys_forceopen _ _ := ret 3;
  sys_iopen _ _ := ret 3;
  sys_read _ n := fun s => let k := Nat.min (Nat.min 2 (Z.to_nat n)) (length s.1) in Ret (Z.of_nat k, take k s.1) (drop k s.1, s.2);
  sys_write _ l := fun s => Ret tt (s.1, s.2 ++ l);
  sys_close _ := ret tt
}.
#[local] Instance slow_laws : SysLaws (list Z * list Z).
Proof.
  refine {| unread := fun s _ => s.1; written := fun s => s.2 |}.
  - intros [i o] fd n Hn. cbn -[Nat.min]. eexists _, _. split_and!; [done|lia|lia| |done|done]. intros Hk. apply length_zero_iff_nil. lia.
  - intros [i o] l. by eexists.
Defined.

Lemma filters_correct_witness : let inp := lit "to be or" ++ [10] ++ lit "not" in
  exists s', wc 20 0 [] (inp, []) = Ret true s' /\ s'.2 = lit "1 4 12 " ++ [10].
Proof.
  destruct (filters_correct 20 (lit "cat") 0 [] [lit "echo"; lit "a"] (lit "to be or" ++ [10] ++ lit "not", [])) as (_ & _ & s' & l & w & c & E & _);
    [cbn; lia|cbn; lia|]. exists s'. split; [exact E|]. vm_compute in E. by injection E as <-.
Defined.
