(* ===== verification/Programs.v ===== *)
(** User programs that work on files: init.c, which makes the backup copies, ls.c,
    the small programs rm.c, ln.c, mkdir.c, kill.c, idesignate.c, pinode.c and
    pchecksum.c, and [stat] and [hasdittos] of ulib.c. *)
From S2P Require Import Prelude Str Fs Sysfile Printf Tools.

(** ** System calls *)

(** [fstat] returns its result and what it stored, if anything. *)
Class SysFiles (S : Type) := {
  sys_fstat : Z -> K S (Z * option stat);
  sys_duplicate : list Z -> Z -> K S Z;
  sys_ichecksum : Z -> Z -> K S Z;
  sys_link : list Z -> list Z -> K S Z;
  sys_mkdir : list Z -> K S Z;
  sys_mknod : list Z -> Z -> Z -> K S Z;
  sys_unlink : list Z -> K S Z;
  sys_kill : Z -> K S Z;
  sys_dup : Z -> K S Z;
  sys_fork : K S Z;
  sys_wait : K S Z;
  sys_exec : list Z -> list (list Z) -> K S Z
}.

Section programs.
Context {S : Type} `{Sys S} `{SysFiles S}.

(** ** ulib.c *)

(** [stat(n, st)]: the result and what is stored in [*st]. *)
Definition ustat (n : list Z) : K S (Z * option stat) :=
  let! fd := sys_open n O_RDONLY in
  if fd <? 0 then ret (- fd, None)
  else
    let! r := sys_fstat fd in
    sys_close fd;;;
    ret r.

Definition hasdittos (path : list Z) : K S Z :=
  let! fd := sys_forceopen path O_RDONLY in
  let! r := sys_fstat fd in
  sys_close fd;;;
  match r.2 with
  | None => undef "hasdittos: st is not initialised"
  | Some st => ret (if st_child1 st =? 0 then 0 else 1)
  end.

(** ** init.c *)

Definition spared : list (list Z) :=
  lit <$> ["console"; "stressfs"; "usertests"; "pinode"; "pchecksum"; "pcat"; "idesignate"].

(** A file without copies gets two. *)
Definition backup_one (name : list Z) : K S unit :=
  let! h := hasdittos name in
  when (h =? 0)
    (say 1 [name] (lit "Creating backup copy for: %s " ++ [10]) [1];;;
     sys_duplicate name 2;;; ret tt).

(** The loop over the directory entries in [buf], from entry [de]. *)
Fixpoint backup_loop (fuel : nat) (buf : list Z) (de : Z) : K S unit :=
  match fuel with
  | O => nofuel
  | Datatypes.S f =>
    let name := drop (Z.to_nat (16 * de + 2)) buf in
    if 512 <=? 16 * de + 2 then undef "init: reads past buf"
    else if chr name =? 0 then ret tt
    else if (chr name =? 46) || existsb (fun w => strcmp name w =? 0) spared then backup_loop f buf (de + 1)
    else if 512 <=? 16 * de + 2 + strlen name then undef "init: reads past buf"
    else backup_one (cstr name);;; backup_loop f buf (de + 1)
  end.

(** [main] up to the loops: the standard descriptors, and the first block of the
    root directory in [buf]; [junk] is what the stack holds there. *)
Definition init_root (junk : list Z) : K S (list Z) :=
  let! fd := sys_open (lit "console") O_RDWR in
  when (fd <? 0) (sys_mknod (lit "console") 1 1;;; sys_open (lit "console") O_RDWR;;; ret tt);;;
  sys_dup 0;;;
  sys_dup 0;;;
  let! root_fd := sys_open (lit ".") O_RDONLY in
  let! r := sys_read root_fd 512 in
  sys_close root_fd;;;
  ret (splice junk 0 r.2).

(** [main] up to the loop that starts shells. *)
Definition init_backup (junk : list Z) : K S unit :=
  let! buf := init_root junk in
  backup_loop 33 buf 0.

Fixpoint wait_loop (fuel : nat) (pid : Z) : K S unit :=
  match fuel with
  | O => nofuel
  | Datatypes.S f =>
    let! wpid := sys_wait in
    if (0 <=? wpid) && negb (wpid =? pid) then say 1 [] (lit "zombie!" ++ [10]) [];;; wait_loop f pid
    else ret tt
  end.

(** The loop that starts shells, which only [exit] ends. *)
Fixpoint shell_loop (fuel : nat) : K S unit :=
  match fuel with
  | O => nofuel
  | Datatypes.S f =>
    say 1 [] (lit "init: starting sh" ++ [10]) [];;;
    let! pid := sys_fork in
    if pid <? 0 then say 1 [] (lit "init: fork failed" ++ [10]) []
    else if pid =? 0 then
      sys_exec (lit "sh") [lit "sh"];;;
      say 1 [] (lit "init: exec sh failed" ++ [10]) []
    else wait_loop f pid;;; shell_loop f
  end.

Definition init_main (fuel : nat) (junk : list Z) : K S unit := init_backup junk;;; shell_loop fuel.

(** ** ls.c *)

(** The line for a file, after its name. *)
Definition stat_line (name : list Z) (st : stat) : K S unit :=
  say 1 [name] (lit "%s %d %d %d %d %d %x" ++ [10])
    [1; u32 (st_type st); st_ino st; st_sz st; u32 (st_child1 st); u32 (st_child2 st); st_checksum st].

(** The loop over the entries of a directory; [fb] is the buffer of [fmtname] and [st]
    the variable [st], both kept from one entry to the next. *)
Fixpoint ls_loop (fuel : nat) (fd : Z) (path fb : list Z) (st : option stat) : K S (list Z) :=
  match fuel with
  | O => nofuel
  | Datatypes.S f =>
    let! r := sys_read fd 16 in
    if negb (r.1 =? 16) then ret fb
    else if le_dec (take 2 r.2) =? 0 then ls_loop f fd path fb st
    else
      let buf := path ++ [47] ++ cstr (drop 2 r.2) in
      let! r := ustat buf in
      let st := match r.2 with Some x => Some x | None => st end in
      if (r.1 =? E_CORRUPTED) || (r.1 =? - E_CORRUPTED) then
        let n := fmtname buf fb in
        say 1 [n.1] (lit "%s CORRUPTED" ++ [10]) [1];;;
        ls_loop f fd path n.2 st
      else if r.1 <? 0 then
        say 1 [buf] (lit "ls: cannot stat %s" ++ [10]) [1];;;
        ls_loop f fd path fb st
      else
        let n := fmtname buf fb in
        match st with
        | None => undef "ls: st is not initialised"
        | Some x => stat_line n.1 x;;; ls_loop f fd path n.2 st
        end
  end.

Definition cannot (what path : list Z) (r : Z) : K S unit :=
  say 2 [path] (lit "ls: cannot " ++ what ++ lit " %s") [1];;;
  when (r =? E_CORRUPTED) (say 2 [] (lit ": CORRUPTED") []);;;
  say 2 [] [10] [].

Definition ls (fuel : nat) (path fb : list Z) : K S (list Z) :=
  let! fd := sys_open path 0 in
  if fd <? 0 then cannot (lit "open") path fd;;; ret fb
  else
    let! r := sys_fstat fd in
    if r.1 <? 0 then cannot (lit "stat") path r.1;;; sys_close fd;;; ret fb
    else
      match r.2 with
      | None => undef "ls: st is not initialised"
      | Some st =>
        let! fb :=
          (if st_type st =? T_FILE then let n := fmtname path fb in stat_line n.1 st;;; ret n.2
           else if st_type st =? T_DIR then
             if 512 <? strlen path + 1 + DIRSIZ + 1 then say 1 [] (lit "ls: path too long" ++ [10]) [];;; ret fb
             else ls_loop fuel fd path fb (Some st)
           else ret fb) in
        sys_close fd;;;
        ret fb
      end.

Fixpoint ls_args (fuel : nat) (argv : list (list Z)) (fb : list Z) : K S unit :=
  match argv with
  | [] => ret tt
  | path :: argv' => let! fb := ls fuel path fb in ls_args fuel argv' fb
  end.
Definition ls_main (fuel : nat) (argv : list (list Z)) : K S unit :=
  let fb := replicate 15 0 in
  if (length argv <? 2)%nat then ls fuel (lit ".") fb;;; ret tt else ls_args fuel (tail argv) fb.

(** ** Small programs *)

(** The loop of rm.c and mkdir.c: the first failure ends it. *)
Fixpoint each (f : list Z -> K S Z) (msg : list Z) (args : list (list Z)) : K S unit :=
  match args with
  | [] => ret tt
  | a :: args' => let! r := f a in if r <? 0 then say 2 [a] msg [1] else each f msg args'
  end.

Definition rm_main (argv : list (list Z)) : K S unit :=
  if (length argv <? 2)%nat then say 2 [] (lit "Usage: rm files..." ++ [10]) []
  else each sys_unlink (lit "rm: %s failed to delete" ++ [10]) (tail argv).
Definition mkdir_main (argv : list (list Z)) : K S unit :=
  if (length argv <? 2)%nat then say 2 [] (lit "Usage: mkdir files..." ++ [10]) []
  else each sys_mkdir (lit "mkdir: %s failed to create" ++ [10]) (tail argv).

Definition ln_main (argv : list (list Z)) : K S unit :=
  match argv with
  | [_; old; new] =>
    let! r := sys_link old new in
    when (r <? 0) (say 2 [old; new] (lit "link %s %s: failed" ++ [10]) [1; 2])
  | _ => say 2 [] (lit "Usage: ln old new" ++ [10]) []
  end.

Definition kill_main (argv : list (list Z)) : K S unit :=
  if (length argv <? 1)%nat then say 2 [] (lit "usage: kill pid..." ++ [10]) []
  else forK (fun a => sys_kill (atoi a);;; ret tt) (tail argv).

Definition idesignate_main (argv : list (list Z)) : K S unit :=
  match argv with
  | [_; path; n] =>
    let! h := hasdittos path in
    if h =? 0 then
      let! r := sys_duplicate path (atoi n) in
      when (r <? 0) (say 1 [] (lit "Something went wrong with duplicate" ++ [10]) [])
    else say 1 [] (lit "Inode already has ditto inodes" ++ [10]) []
  | _ => say 1 [] (lit "usage: idesignate [PATH] [IMPORTANCE]" ++ [10]) []
  end.

Definition pinode (devnum inum : list Z) : K S unit :=
  let dev := atoi devnum in
  let iint := atoi inum in
  let! fd := sys_iopen dev iint in
  if fd <? 0 then say 2 [] (lit "pinode: cannot open inode %d on dev %d" ++ [10]) [u32 iint; u32 dev]
  else
    let! r := sys_fstat fd in
    if r.1 <? 0 then
      say 2 [] (lit "pinode: cannot stat inode %d on dev %d (fd=%d)" ++ [10]) [u32 iint; u32 dev; u32 fd];;;
      sys_close fd
    else
      sys_close fd;;;
      match r.2 with
      | None => undef "pinode: st is not initialised"
      | Some st => say 1 [] (lit "%d  %d  %d  %x" ++ [10]) [u32 iint; u32 (st_child1 st); u32 (st_child2 st); st_checksum st]
      end.

Definition pchecksum (devnum inum : list Z) : K S unit :=
  let dev := atoi devnum in
  let iint := atoi inum in
  let! checksum := sys_ichecksum dev iint in
  if s32 checksum <? 0 then
    say 2 [] (lit "checksum: cannont open inode %d on dev %d (err %d)" ++ [10]) [u32 iint; u32 dev; u32 checksum]
  else say 1 [] (lit "%d  %d:  %x" ++ [10]) [u32 dev; u32 iint; u32 checksum].

(** The arguments of pinode.c and pchecksum.c come in pairs. *)
Fixpoint pairs (f : list Z -> list Z -> K S unit) (args : list (list Z)) : K S unit :=
  match args with
  | a :: b :: args' => f a b;;; pairs f args'
  | _ => ret tt
  end.
Definition pairs_main (f : list Z -> list Z -> K S unit) (usage : list Z) (argv : list (list Z)) : K S unit :=
  if (length argv <? 2)%nat || negb (Nat.odd (length argv)) then say 1 [] usage [] else pairs f (tail argv).
Definition pinode_main : list (list Z) -> K S unit := pairs_main pinode (lit "Usage: pinode ([DEV] [FILE/DIR])+" ++ [10]).
Definition pchecksum_main : list (list Z) -> K S unit := pairs_main pchecksum (lit "Usage: checksum ([DEV] [FILE/DIR])+" ++ [10]).
End programs.

(** ** Specification *)



(** ** init *)




(** ** ls *)

(** [stat] negates the error of [open], which [ls] then takes for success: for an entry
    it cannot open, unless the file is corrupted, it prints the data of the last
    file it has read. *)
Lemma ls_stale_line {S} `{Sys S} `{SysFiles S} fuel fd path fb st s de s1 e s2 (buf := path ++ [47] ++ cstr (drop 2 de)) (n := fmtname buf fb) :
  sys_read fd 16 s = Ret (16, de) s1 -> le_dec (take 2 de) <> 0 -> sys_open buf O_RDONLY s1 = Ret e s2 -> e < 0 -> e <> E_CORRUPTED ->
  ls_loop (Datatypes.S fuel) fd path fb (Some st) s = (stat_line n.1 st;;; ls_loop fuel fd path n.2 (Some st)) s2.
Proof.
  intros E1 Hi E2 He Hc. cbn [ls_loop]. rewrite (bind_eq _ _ _ _ _ E1). cbn [fst snd Z.eqb Pos.eqb negb]. rewrite (proj2 (Z.eqb_neq _ _) Hi). fold buf.
  assert (ustat buf s1 = Ret (- e, None) s2) as E3 by (unfold ustat; rewrite (bind_eq _ _ _ _ _ E2); by rewrite (proj2 (Z.ltb_lt _ _) He)).
  rewrite (bind_eq _ _ _ _ _ E3). cbn [fst snd]. change E_CORRUPTED with (-10) in *.
  rewrite (proj2 (Z.eqb_neq (- e) (-10))), (proj2 (Z.eqb_neq (- e) (- -10))), (proj2 (Z.ltb_ge (- e) 0)) by lia. done.
Qed.

Section init.
Context {S : Type} `{Sys S} `{SysFiles S}.







End init.

(** A directory in which every file can be opened; the descriptor 3 is the last one,
    and [d_root] is what the root directory holds. *)
Record demo := Demo { d_root : list Z; d_files : gmap (list Z) Z; d_open : list Z }.
#[local] Instance demo_sys : Sys demo := {
  sys_open _ _ := ret 3;
  sys_forceopen n _ := fun s => Ret 3 (Demo (d_root s) (d_files s) n);
  sys_iopen _ _ := ret 3;
  sys_read _ n := fun s => Ret (Z.min n (Z.of_nat (length (d_root s))), take (Z.to_nat n) (d_root s)) s;
  sys_write _ _ := ret tt;
  sys_close _ := ret tt
}.
#[local] Instance demo_files : SysFiles demo := {
  sys_fstat _ := fun s => match d_files s !! d_open s with
    | Some c => Ret (0, Some (Stat 2 1 2 1 0 c 0 0)) s
    | None => Ret (-1, None) s
    end;
  sys_duplicate n k := fun s => Ret 0 (Demo (d_root s) (<[n := 7]> (d_files s)) (d_open s));
  sys_ichecksum _ _ := ret 0;
  sys_link _ _ := ret 0;
  sys_mkdir _ := ret 0;
  sys_mknod _ _ _ := ret 0;
  sys_unlink _ := ret 0;
  sys_kill _ := ret 0;
  sys_dup _ := ret 0;
  sys_fork := ret 1;
  sys_wait := ret 1;
  sys_exec _ _ := ret 0
}.


