(* ===== verification/Grep.v ===== *)
(** The user program grep.c: the regular-expression matcher of Kernighan and
    Pike against a relational semantics of its patterns, and the loop that reads
    a file into a fixed buffer and prints the lines that match. *)
From S2P Require Import Prelude Str Fs.

(** ** The matcher

    Patterns and texts are the bytes before the terminating NUL. *)

Definition any (c : Z) : bool := c =? 46.
Definition starts_star (re : list Z) : bool := chr re =? 42.

(** [*text != '\0' && (c == '.' || c == *text)] on the first byte [x] of a text. *)
Definition same (c x : Z) : bool := any c || (c =? x).

(** [matchstar(c, re, text)], with [matchhere(re, _)] as the argument [here]. *)
Fixpoint matchstar (here : list Z -> bool) (c : Z) (text : list Z) : bool :=
  here text ||
  match text with
  | [] => false
  | x :: text' => same c x && matchstar here c text'
  end.

Definition null {A} (l : list A) : bool := match l with [] => true | _ => false end.

Fixpoint matchhere (re text : list Z) {struct re} : bool :=
  match re with
  | [] => true
  | c :: re' =>
    let one :=
      if (c =? 36) && null re' then null text
      else
      match text with
      | [] => false
      | x :: text' => same c x && matchhere re' text'
      end in
    match re' with
    | s :: re'' => if s =? 42 then matchstar (matchhere re'') c text else one
    | [] => one
    end
  end.

(** The [do ... while] of [match] tries every suffix, the empty one included. *)
Fixpoint match_from (re text : list Z) : bool :=
  matchhere re text ||
  match text with [] => false | _ :: text' => match_from re text' end.

Definition re_match (re text : list Z) : bool :=
  match re with
  | c :: re' => if c =? 94 then matchhere re' text else match_from re text
  | [] => match_from re text
  end.

(** ** grep *)

Definition BUFSZ : Z := 1024.

(** The global [buf] and the bytes written to file descriptor 1. *)
Record gst := Gst { g_buf : list Z; g_out : list Z }.

Definition set_gbuf (b : list Z) : K gst unit := modify (fun s => Gst b (g_out s)).
Definition emit (l : list Z) : K gst unit := modify (fun s => Gst (g_buf s) (g_out s ++ l)).

(** Where [strchr(p, '\n')] stops on the bytes from [p] to the end of the buffer. *)
Inductive found := At (i : nat) | Nowhere | Past.
Fixpoint find_newline (l : list Z) : found :=
  match l with
  | [] => Past
  | x :: l' =>
    if x =? 0 then Nowhere else if x =? 10 then At 0
    else match find_newline l' with At i => At (S i) | r => r end
  end.

(** The inner loop from [p = buf + p]: the final [p - buf]. *)
Fixpoint grep_lines (fuel : nat) (pattern : list Z) (p : nat) : K gst nat :=
  match fuel with
  | O => nofuel
  | S f =>
    let! b := gets g_buf in
    match find_newline (drop p b) with
    | Past => undef "grep: strchr past the buffer"
    | Nowhere => ret p
    | At i =>
      let q := (p + i)%nat in
      let line := take i (drop p b) in
      set_gbuf (<[q := 0]> b);;;
      when (re_match pattern line)
        (set_gbuf (<[q := 10]> (<[q := 0]> b));;; emit (line ++ [10]));;;
      grep_lines f pattern (q + 1)
    end
  end.

(** [grep(pattern, fd)] on a regular file with the bytes [inp] left to read;
    [m] is the number of bytes kept from earlier reads. *)
Fixpoint grep_loop (fuel : nat) (pattern inp : list Z) (m : Z) : K gst unit :=
  match fuel with
  | O => nofuel
  | S f =>
    let chunk := take (Z.to_nat (BUFSZ - m)) inp in
    match chunk with
    | [] => ret tt
    | _ :: _ =>
      if m <? 0 then undef "grep: read before the buffer" else
      let! b := gets g_buf in
      set_gbuf (splice b m chunk);;;
      let m := m + Z.of_nat (length chunk) in
      let! p := grep_lines (S (Z.to_nat BUFSZ)) pattern 0 in
      let m := if (p =? 0)%nat then 0 else m in
      let! m :=
        if 0 <? m then
          let m := m - Z.of_nat p in
          let! b := gets g_buf in
          set_gbuf (splice b 0 (slice b (Z.of_nat p) m));;; ret m
        else ret m in
      grep_loop f pattern (drop (length chunk) inp) m
    end
  end.

Definition grep (pattern inp : list Z) : K gst unit := grep_loop (S (length inp)) pattern inp 0.

(** The loop of [main] over the files named on the command line, each with what
    [open] gives: its contents or an error, which ends the program. *)
Fixpoint grep_files (pattern : list Z) (files : list (list Z * (Z + list Z))) : K gst unit :=
  match files with
  | [] => ret tt
  | (name, inl e) :: _ =>
    emit (lit "grep: cannot open " ++ name ++ (if e =? E_CORRUPTED then lit ": CORRUPTED" else []) ++ [10])
  | (_, inr inp) :: files' => grep pattern inp;;; grep_files pattern files'
  end.

(** ** What a pattern means

    [pat re text rest]: a prefix of [text] matches [re] and leaves [rest]. *)
Inductive pat : list Z -> list Z -> list Z -> Prop :=
| pat_nil text : pat [] text text
| pat_star c re run text rest :
    Forall (fun x => same c x) run -> pat re text rest -> pat (c :: 42 :: re) (run ++ text) rest
| pat_end : pat [36] [] []
| pat_char c re x text rest :
    starts_star re = false -> (c, re) <> (36, []) -> same c x ->
    pat re text rest -> pat (c :: re) (x :: text) rest.

(** ** The matcher decides the semantics *)

Lemma matchstar_spec here c text : matchstar here c text = true <->
  exists run text', text = run ++ text' /\ Forall (fun x => same c x) run /\ here text' = true.
Proof.
  induction text as [|x text IH]; cbn [matchstar]; rewrite orb_true_iff.
  - split; [intros [H|[=]]; by exists [], []|].
    intros (run & text' & E & _ & H). symmetry in E. apply app_nil in E as [-> ->]. by left.
  - rewrite andb_true_iff, IH. split.
    + intros [H|(Hc & run & text' & -> & Hr & H)]; [by exists [], (x :: text)|].
      exists (x :: run), text'. split_and!; [done|by constructor; [apply Is_true_true|]|done].
    + intros ([|y run] & text' & E & Hr & H); cbn in E; [subst; by left|].
      injection E as <- ->. apply Forall_cons in Hr as [Hx Hr]. right.
      split; [by apply Is_true_true|]. by exists run, text'.
Qed.

Lemma starts_star_true re : starts_star re = true -> exists re', re = 42 :: re'.
Proof. destruct re as [|x re]; [done|]. intros H%Z.eqb_eq. cbn in H. subst x. by eexists. Qed.

(** One character of a pattern, not starred. *)
Lemma matchhere_char c re text : starts_star re = false ->
  matchhere (c :: re) text =
    if (c =? 36) && null re then null text
    else match text with [] => false | x :: text' => same c x && matchhere re text' end.
Proof.
  destruct re as [|y re]; [done|]. unfold starts_star. cbn [chr matchhere]. intros H. by rewrite H.
Qed.

Lemma matchhere_pat re text : matchhere re text = true <-> exists rest, pat re text rest.
Proof.
  remember (length re) as n eqn:Hn. revert re text Hn.
  induction n as [n IH] using lt_wf_ind. intros [|c re] text ->.
  { split; [eauto using pat_nil|done]. }
  destruct (starts_star re) eqn:Hs.
  - apply starts_star_true in Hs as [re' ->].
    change (matchhere (c :: 42 :: re') text) with (matchstar (matchhere re') c text).
    rewrite matchstar_spec. split.
    + intros (run & text' & -> & Hr & H). apply (IH (length re')) in H as [rest H]; [|cbn; lia|done].
      exists rest. by apply pat_star.
    + intros [rest H]. inversion H; subst; [|done].
      do 2 eexists. split_and!; [done..|]. apply (IH (length re')); [cbn; lia|done|by eexists].
  - rewrite matchhere_char by done. destruct ((c =? 36) && null re) eqn:Hd.
    + apply andb_true_iff in Hd as [->%Z.eqb_eq Hre]. destruct re; [|done].
      split; [destruct text; [eauto using pat_end|done]|].
      intros [rest H]. inversion H; subst; done.
    + destruct text as [|x text].
      * split; [done|]. intros [rest H]. inversion H; subst; try done.
      * rewrite andb_true_iff, (IH (length re)) by (cbn; lia || done). split.
        -- intros [Hx [rest H]]. exists rest. apply pat_char; [done| |by apply Is_true_true|done].
           intros [= -> ->]. done.
        -- intros [rest H]. inversion H; subst; try done.
           split; [by apply Is_true_true|by eexists].
Qed.

Lemma match_from_spec re text : match_from re text = true <->
  exists pre text', text = pre ++ text' /\ matchhere re text' = true.
Proof.
  induction text as [|x text IH]; cbn [match_from]; rewrite orb_true_iff.
  - split; [intros [H|[=]]; by exists [], []|].
    intros (pre & text' & E & H). symmetry in E. apply app_nil in E as [-> ->]. by left.
  - rewrite IH. split.
    + intros [H|(pre & text' & -> & H)]; [by exists [], (x :: text)|by exists (x :: pre), text'].
    + intros ([|y pre] & text' & E & H); cbn in E; [subst; by left|].
      injection E as <- ->. right. by exists pre, text'.
Qed.

(** A text matches when a prefix of it (for an anchored pattern) or of one of its
    suffixes (for another) matches. *)
Inductive matches : list Z -> list Z -> Prop :=
| matches_anchored re text rest : pat re text rest -> matches (94 :: re) text
| matches_anywhere re pre text rest : chr re <> 94 -> pat re text rest -> matches re (pre ++ text).

(** C39. The matcher of grep is correct and always answers: [match] accepts a text
    exactly when the pattern matches it, where [c*] is any run of characters that
    match [c], [.] is any character, a final [$] is the end of the text and a
    leading [^] is its beginning. *)
Theorem grep_matcher re text : re_match re text = true <-> matches re text.
Proof.
  assert (chr re <> 94 -> match_from re text = true <-> matches re text) as Hany.
  { intros Hre. rewrite match_from_spec. split.
    - intros (pre & text' & -> & [rest H]%matchhere_pat). by eapply matches_anywhere.
    - intros H. inversion H; subst; [done|]. do 2 eexists. split; [done|]. apply matchhere_pat. by eexists. }
  destruct re as [|c re]; [by apply Hany|]. unfold re_match.
  destruct (Z.eqb_spec c 94) as [->|Hc]; [|by apply Hany].
  rewrite matchhere_pat. split; [intros [rest H]; by eapply matches_anchored|].
  intros H. inversion H; subst; [by eexists|done].
Qed.

(** ** Files that fit the buffer *)

(** The lines of [l] that end in a newline, without it. *)
Fixpoint complete_lines (l : list Z) : list (list Z) :=
  match l with
  | [] => []
  | x :: l' =>
    if x =? 10 then [] :: complete_lines l'
    else match complete_lines l' with [] => [] | line :: ls => (x :: line) :: ls end
  end.

(** What grep should print. *)
Definition grep_output (pattern l : list Z) : list Z :=
  concat ((fun line => line ++ [10]) <$> filter (fun line => re_match pattern line = true) (complete_lines l)).

Lemma find_newline_spec l z : Forall (fun x => x <> 0) l ->
  (find_newline (l ++ 0 :: z) = Nowhere /\ complete_lines l = []) \/
  (exists line rest, l = line ++ 10 :: rest /\ find_newline (l ++ 0 :: z) = At (length line) /\
     complete_lines l = line :: complete_lines rest).
Proof.
  induction 1 as [|x l Hx Hl IH]; [by left|]. cbn [find_newline complete_lines app].
  destruct (Z.eqb_spec x 0); [done|]. destruct (Z.eqb_spec x 10) as [->|Hn].
  - right. by exists [], l.
  - destruct IH as [[-> ->]|(line & rest & -> & -> & ->)]; [by left|].
    right. by exists (x :: line), rest.
Qed.

Lemma grep_lines_spec pattern fuel l : forall pre z out,
  Forall (fun x => x <> 0) l -> (length l < fuel)%nat ->
  exists p b, grep_lines fuel pattern (length pre) (Gst (pre ++ l ++ 0 :: z) out) =
    Ret p (Gst b (out ++ grep_output pattern l)).
Proof.
  revert l. induction fuel as [|fuel IH]; intros l pre z out Hl Hf; [lia|].
  cbn [grep_lines]. unfold bind, gets. cbn [g_buf]. rewrite drop_app_length.
  unfold grep_output at 1. destruct (find_newline_spec l z Hl) as [[-> ->]|(line & rest & -> & -> & ->)].
  - do 2 eexists. unfold ret. by rewrite app_nil_r.
  - apply Forall_app in Hl as [Hline Hrest]. apply Forall_cons in Hrest as [_ Hrest].
    rewrite length_app in Hf. cbn [length] in Hf.
    rewrite <-(app_assoc line), take_app_length.
    assert (forall v, <[(length pre + length line)%nat := v]> (pre ++ line ++ (10 :: rest) ++ 0 :: z) =
      (pre ++ line ++ [v]) ++ rest ++ 0 :: z) as Ev.
    { intros v. rewrite insert_app_r_alt by lia. rewrite Nat.add_sub'.
      rewrite insert_app_r_alt by lia. rewrite Nat.sub_diag. cbn. by rewrite <-!app_assoc. }
    assert (forall v, length (pre ++ line ++ [v : Z]) = (length pre + length line + 1)%nat) as Hlen.
    { intros v. rewrite !length_app. cbn. lia. }
    unfold set_gbuf, emit, modify, when, bind, ret. cbn [g_buf g_out].
    destruct (re_match pattern line) eqn:Hm; cbn [g_buf g_out].
    + rewrite list_insert_insert, decide_True by done. rewrite Ev, <-(Hlen 10).
      rewrite filter_cons_True by done. cbn [fmap list_fmap concat].
      rewrite (app_assoc out (line ++ [10])). apply IH; [done|lia].
    + rewrite Ev, <-(Hlen 0). rewrite filter_cons_False by congruence. apply IH; [done|lia].
Qed.

Definition no_buf : list Z := replicate (Z.to_nat BUFSZ) 0.

Lemma fill_buf l : Z.of_nat (length l) < BUFSZ -> exists z, splice no_buf 0 l = [] ++ l ++ 0 :: z.
Proof.
  intros Hl. exists (replicate (Z.to_nat BUFSZ - length l - 1) 0). unfold splice, no_buf.
  change (Z.to_nat 0) with 0%nat. rewrite take_0, Nat.add_0_l, drop_replicate, <-replicate_S.
  do 3 f_equal. lia.
Qed.

(** On the first file, when it has no NUL and is smaller than the buffer, grep
    ends and writes exactly the complete lines of the file that match the
    pattern, in their order. *)
Theorem grep_first pattern inp out : Z.of_nat (length inp) < BUFSZ -> Forall (fun x => x <> 0) inp ->
  exists b, grep pattern inp (Gst no_buf out) = Ret tt (Gst b (out ++ grep_output pattern inp)).
Proof.
  intros Hlen Hz. unfold grep. cbn [grep_loop]. rewrite take_ge by lia.
  destruct inp as [|x inp]; [eexists; cbn; by rewrite app_nil_r|].
  remember (x :: inp) as l. destruct (fill_buf l Hlen) as [z E].
  destruct (grep_lines_spec pattern (S (Z.to_nat BUFSZ)) l [] z out) as (p & b & Hl); [done|lia|].
  unfold bind at 1 2 3, gets, set_gbuf, modify at 1. cbn [g_buf g_out Z.ltb Z.compare]. rewrite E.
  cbn [length] in Hl. rewrite Hl.
  set (m := if (p =? 0)%nat then 0 else _). clearbody m. rewrite drop_ge by done.
  unfold bind, ret, modify, gets. subst l. destruct (0 <? m); cbn [g_buf g_out length grep_loop].
  all: rewrite take_nil; by eexists.
Qed.

Lemma grep_first_witness : exists b,
  grep (lit "^a.*z$") (lit "abz" ++ [10] ++ lit "b" ++ [10] ++ lit "az" ++ [10]) (Gst no_buf []) =
    Ret tt (Gst b (lit "abz" ++ [10] ++ lit "az" ++ [10])).
Proof.
  destruct (grep_first (lit "^a.*z$") (lit "abz" ++ [10] ++ lit "b" ++ [10] ++ lit "az" ++ [10]) []) as [b E].
  - reflexivity.
  - by_evaluation.
  - exists b. exact E.
Defined.

(** The buffer is not terminated after a read: a shorter second file is searched
    together with what is left of the first one, and a line of the first file is
    printed again. *)
Lemma grep_stale_line :
  let a := lit "foo1" ++ [10] ++ lit "foo2" ++ [10] in
  let b := lit "b" ++ [10] in
  exists s, grep_files (lit "foo") [(lit "a", inr a); (lit "b", inr b)] (Gst no_buf []) = Ret tt s /\
    g_out s = grep_output (lit "foo") a ++ lit "foo2" ++ [10] /\ grep_output (lit "foo") b = [].
Proof. eexists. split; [vm_compute; reflexivity|]. by split. Qed.
