(* ===== verification/Fds.v ===== *)
(** Descriptors and open files across processes: over every run of system calls,
    the reference count of a file is the number of descriptors, in all processes,
    that refer to it. *)
From S2P Require Import Prelude Bio Log Str Fs Kalloc Vm Pipe File Proc Syscall Exec Sysfile.

(** ** Counting *)

(** The descriptors of a process that refer to [f], and those of all processes. *)
Definition fds_to (f : nat) (o : list (option nat)) : nat := length (filter (fun x => x = Some f) o).
Definition total (l : list nat) : nat := foldr Nat.add 0%nat l.
Definition descs (f : nat) (t : list proc) : nat := total ((fun p => fds_to f (proc_ofile p)) <$> t).

#[global] Arguments descs : simpl never.

(** The slot is free or waits for its parent: its descriptors are closed. *)
Definition idle (p : proc) : bool := in_state UNUSED p || in_state ZOMBIE p.

Definition closed (o : list (option nat)) : Prop := Forall (fun x => x = None) o.

(** [w f] are the references to [f] that local variables of the running system
    call hold, less the descriptors that are not counted yet. *)
Record fd_inv (w : nat -> Z) (g : kernel) : Prop := {
  fi_refs : forall f,
    match s_ftable (g_sys g) !! f with
    | Some x => fl_ref x = Z.of_nat (descs f (g_ptable g)) + w f
    | None => Z.of_nat (descs f (g_ptable g)) + w f = 0
    end;
  fi_idle : forall i p, g_ptable g !! i = Some p ->
    length (proc_ofile p) = Z.to_nat NOFILE /\ (idle p -> closed (proc_ofile p));
  fi_run : forall i p, g_proc g = Some i -> g_ptable g !! i = Some p -> idle p = false
}.

Lemma total_insert (l : list nat) i x y : l !! i = Some x -> (total (<[i := y]> l) + x = total l + y)%nat.
Proof.
  revert i. induction l as [|z l IH]; intros [|i] H; [done|done| |].
  - injection H as ->. cbn. lia.
  - specialize (IH i H). change (z + total (<[i := y]> l) + x = z + total l + y)%nat. lia.
Qed.

Lemma descs_insert f t i p p' : t !! i = Some p ->
  (descs f (<[i := p']> t) + fds_to f (proc_ofile p) = descs f t + fds_to f (proc_ofile p'))%nat.
Proof.
  intros H. unfold descs. rewrite list_fmap_insert. apply total_insert. by rewrite list_lookup_fmap, H.
Qed.

Lemma fds_to_insert f o i x y : o !! i = Some x ->
  (fds_to f (<[i := y]> o) + (if decide (x = Some f) then 1 else 0) = fds_to f o + (if decide (y = Some f) then 1 else 0))%nat.
Proof.
  unfold fds_to. revert i. induction o as [|z o IH]; intros [|i] H; cbn [lookup list_lookup] in H; [done|done| |].
  - injection H as ->. cbn [insert list_insert]. rewrite !filter_cons. destruct (decide (x = Some f)), (decide (y = Some f)); cbn [length]; lia.
  - specialize (IH i H). change (<[S i := y]> (z :: o)) with (z :: <[i := y]> o). rewrite !filter_cons. destruct (decide (z = Some f)); cbn [length]; lia.
Qed.

(** [d] more references to [f]. *)
Definition add (f : nat) (d : Z) (w : nat -> Z) (k : nat) : Z := w k + (if decide (f = k) then d else 0).

Lemma fds_to_closed f o : closed o -> fds_to f o = 0%nat.
Proof. unfold fds_to. induction 1 as [|x o -> _ IH]; [done|]. rewrite filter_cons. by destruct (decide (None = Some f)). Qed.

(** ** Steps that do not touch descriptors *)

Definition kf_proc (p p' : proc) : Prop := proc_ofile p' = proc_ofile p /\ (idle p' -> idle p).

Definition kf (g g' : kernel) : Prop :=
  same_refs (g_sys g) (g_sys g') /\ Forall2 kf_proc (g_ptable g) (g_ptable g') /\ g_proc g' = g_proc g.

#[export] Instance kf_proc_refl : Reflexive kf_proc.
Proof. by intros p. Qed.
#[export] Instance kf_proc_trans : Transitive kf_proc.
Proof. intros p q r [H1 H2] [H3 H4]. split; [congruence|tauto]. Qed.
#[export] Instance kf_refl : Reflexive kf.
Proof. intros g. by split_and!. Qed.
#[export] Instance kf_trans : Transitive kf.
Proof. intros g h k (H1 & H2 & H3) (H4 & H5 & H6). split_and!; [by etrans|by etrans|congruence]. Qed.

Lemma descs_same f t t' : Forall2 kf_proc t t' -> descs f t' = descs f t.
Proof. unfold descs. induction 1 as [|p p' t t' [E _] _ IH]; [done|]. unfold total in *. cbn in *. by rewrite E, IH. Qed.

Lemma kf_inv w g g' : kf g g' -> fd_inv w g -> fd_inv w g'.
Proof.
  intros (Hr & Ht & Hp) [H1 H2 H3]. split.
  - intros f. specialize (H1 f). unfold same_refs, refs in Hr. rewrite (descs_same f _ _ Ht).
    assert ((fl_ref <$> s_ftable (g_sys g')) !! f = (fl_ref <$> s_ftable (g_sys g)) !! f) as E by (by rewrite Hr).
    rewrite !list_lookup_fmap in E. destruct (s_ftable (g_sys g') !! f), (s_ftable (g_sys g) !! f); cbn in *; try done.
    injection E as ->. done.
  - intros i p' Hp'. destruct (Forall2_lookup_r _ _ _ _ _ Ht Hp') as (p & Hpt & E & Himp). rewrite E.
    destruct (H2 i p Hpt). auto.
  - intros i p' Hg Hp'. destruct (Forall2_lookup_r _ _ _ _ _ Ht Hp') as (p & Hpt & E & Himp). rewrite Hp in Hg.
    specialize (H3 i p Hg Hpt). destruct (idle p') eqn:Ei; [|done]. rewrite H3 in Himp. by destruct Himp.
Qed.

Lemma kf_insert g i p p' : g_ptable g !! i = Some p -> kf_proc p p' -> kf g (set_ptable (<[i := p']> (g_ptable g)) g).
Proof.
  intros Hp Hq. split_and!; [done| |done]. cbn. rewrite <- (list_insert_id (g_ptable g) i p Hp) at 1. by apply Forall2_insert.
Qed.

Lemma kf_getp i : keeps kf (getp i).
Proof. unfold getp. keeps_tac. Qed.
Lemma kf_myproc : keeps kf myproc.
Proof. unfold myproc. keeps_tac. Qed.
Lemma kf_updp i f : (forall p, kf_proc p (f p)) -> keeps kf (updp i f).
Proof.
  intros Hf g. destruct (g_ptable g !! i) as [p|] eqn:E.
  - rewrite (updp_eq g i p f E). by apply (kf_insert g i p).
  - unfold updp, getp, bind, get. by rewrite E.
Qed.
Lemma kf_fl {A} (m : K sys A) : keeps same_refs m -> keeps kf (fl m).
Proof.
  intros Hm g. unfold fl, zoom. specialize (Hm (g_sys g)). by destruct (m (g_sys g)); try done; split_and!.
Qed.
Lemma kf_fsk {A} (m : K fs A) : keeps kf (fsk m).
Proof. apply keeps_zoom. intros t g. by split_and!. Qed.
#[export] Hint Resolve kf_getp kf_myproc kf_fsk : keeps.
#[export] Hint Extern 2 (keeps kf (fl _)) => apply kf_fl : keeps.

Lemma kf_mm {A} (m : K kmem A) : keeps kf (mm m).
Proof. unfold mm. apply kf_fl, keeps_kmm. Qed.
Lemma kf_me : keeps kf me.
Proof. unfold me. keeps_tac. Qed.
Lemma kf_updme f : (forall p, kf_proc p (f p)) -> keeps kf (updme f).
Proof. intros Hf. unfold updme. pose proof (fun i => kf_updp i f Hf). keeps_tac. Qed.
#[export] Hint Resolve kf_mm kf_me : keeps.

Ltac kf_field := intros ?; split; [reflexivity|done].
#[export] Hint Extern 1 (keeps kf (updp _ _)) => apply kf_updp; kf_field : keeps.
#[export] Hint Extern 1 (keeps kf (updme _)) => apply kf_updme; kf_field : keeps.

Lemma kf_wakeup1 c : keeps kf (wakeup1 c).
Proof.
  apply keeps_modify. intros g. split_and!; [done| |done]. cbn. apply Forall2_fmap_r.
  induction (g_ptable g) as [|p t IH]; constructor; [|done]. cbn. unfold wake_one. case_match; [|reflexivity]. split; [reflexivity|done].
Qed.
Lemma kf_sched {A} : keeps kf (@sched A).
Proof. unfold sched, sched_to. keeps_tac. Qed.
#[export] Hint Resolve kf_wakeup1 kf_sched : keeps.
Lemma kf_sleep {A} c : keeps kf (@sleep A c).
Proof. unfold sleep. keeps_tac. Qed.
#[export] Hint Resolve kf_sleep : keeps.

(** *** Memory and arguments *)

Lemma kf_kload va : keeps kf (kload va).
Proof. unfold kload. keeps_tac. Qed.
Lemma kf_kstore va b : keeps kf (kstore va b).
Proof. unfold kstore. keeps_tac. Qed.
#[export] Hint Resolve kf_kload kf_kstore : keeps.
Lemma kf_kloads n va : keeps kf (kloads n va).
Proof. revert va. induction n; intros va; cbn [kloads]; keeps_tac. Qed.
Lemma kf_kstores l va : keeps kf (kstores l va).
Proof. revert va. induction l; intros va; cbn [kstores]; keeps_tac. Qed.
#[export] Hint Resolve kf_kloads kf_kstores : keeps.
Lemma kf_fetchint a : keeps kf (fetchint a).
Proof. unfold fetchint. keeps_tac. Qed.
Lemma kf_fetchstr_loop n s : keeps kf (fetchstr_loop n s).
Proof. revert s. induction n; intros s; cbn [fetchstr_loop]; keeps_tac. Qed.
#[export] Hint Resolve kf_fetchint kf_fetchstr_loop : keeps.
Lemma kf_fetchstr a : keeps kf (fetchstr a).
Proof. unfold fetchstr. keeps_tac. Qed.
Lemma kf_argint n : keeps kf (argint n).
Proof. unfold argint. keeps_tac. Qed.
#[export] Hint Resolve kf_fetchstr kf_argint : keeps.
Lemma kf_argptr n size : keeps kf (argptr n size).
Proof. unfold argptr. keeps_tac. Qed.
Lemma kf_argstr n : keeps kf (argstr n).
Proof. unfold argstr. keeps_tac. Qed.
Lemma kf_argfd n : keeps kf (argfd n).
Proof. unfold argfd. keeps_tac. Qed.
#[export] Hint Resolve kf_argptr kf_argstr kf_argfd : keeps.

(** *** System calls that leave the descriptors alone *)

Section kf_calls.
Context (devsw : Z -> devsw_t) (levels : nat) (kend kdata fr tr : Z).

Lemma kf_read : keeps kf (sys_read devsw).
Proof. pose proof fileread_refs. unfold sys_read. keeps_tac. Qed.
Lemma kf_write : keeps kf (sys_write devsw).
Proof. pose proof filewrite_refs. unfold sys_write. keeps_tac. Qed.
Lemma kf_fstat : keeps kf (sys_fstat devsw).
Proof. pose proof filestat_refs. unfold sys_fstat, store_stat. keeps_tac. Qed.
Lemma kf_link : keeps kf (sys_link devsw).
Proof. unfold sys_link. keeps_tac. Qed.
Lemma kf_unlink : keeps kf (sys_unlink devsw).
Proof. unfold sys_unlink. keeps_tac. Qed.
Lemma kf_mkdir : keeps kf (sys_mkdir devsw levels).
Proof. unfold sys_mkdir. keeps_tac. Qed.
Lemma kf_mknod : keeps kf (sys_mknod devsw levels).
Proof. unfold sys_mknod. keeps_tac. Qed.
Lemma kf_duplicate : keeps kf (sys_duplicate devsw).
Proof. unfold sys_duplicate. keeps_tac. Qed.
Lemma kf_chdir : keeps kf (sys_chdir devsw).
Proof. unfold sys_chdir. keeps_tac. Qed.
Lemma kf_kill : keeps kf sys_kill.
Proof. unfold sys_kill, kill. keeps_tac. Qed.
Lemma kf_getpid : keeps kf sys_getpid.
Proof. unfold sys_getpid. keeps_tac. Qed.
Lemma kf_growproc n : keeps kf (growproc kend n).
Proof. unfold growproc. keeps_tac. Qed.
Lemma kf_sbrk : keeps kf (sys_sbrk kend).
Proof. pose proof kf_growproc. unfold sys_sbrk. keeps_tac. Qed.
Lemma kf_sys_sleep : keeps kf sys_sleep.
Proof. unfold sys_sleep, sys_sleep_from. keeps_tac. Qed.
Lemma kf_uptime : keeps kf sys_uptime.
Proof. unfold sys_uptime. keeps_tac. Qed.
Lemma kf_fetch_argv n a : keeps kf (fetch_argv n a).
Proof. revert a. induction n; intros a; cbn [fetch_argv]; keeps_tac. Qed.
Lemma kf_mfs {A} (m : K (kmem * fs) A) : keeps kf (mfs m).
Proof. apply keeps_zoom. intros t g. by split_and!. Qed.
Lemma kf_load_segments n ip pg sz off : keeps kf (load_segments devsw kend n ip pg sz off).
Proof. pose proof @kf_mfs. revert sz off. induction n; intros sz off; cbn [load_segments]; keeps_tac. Qed.
Lemma kf_exec path argv : keeps kf (exec devsw kend kdata path argv).
Proof. pose proof kf_load_segments. unfold exec, exec_bad. keeps_tac. Qed.
Lemma kf_sys_exec : keeps kf (sys_exec devsw kend kdata).
Proof. pose proof kf_fetch_argv. pose proof kf_exec. unfold sys_exec. keeps_tac. Qed.
End kf_calls.

(** ** Steps that move references *)

(** [m] keeps the table of processes, and takes the invariant from [w] to [w' r]. *)
Definition moves {A} (w : nat -> Z) (m : K kernel A) (w' : A -> nat -> Z) : Prop :=
  forall g, fd_inv w g -> wlp m (fun r g' => fd_inv (w' r) g' /\ g_ptable g' = g_ptable g /\ g_proc g' = g_proc g) g.

(** The table of files [t'] is [t] up to the count of [f], which changes by [d]. *)
Definition ref_moves (f : nat) (d : Z) (t t' : list file) : Prop :=
  forall k, fl_ref <$> t' !! k = (fun x => fl_ref x + (if decide (f = k) then d else 0)) <$> t !! k.

Lemma ref_moves_same f d t t' t'' : ref_moves f d t t' -> refs t'' = refs t' -> ref_moves f d t t''.
Proof. intros H E k. rewrite <- H. unfold refs in E. by rewrite <- !list_lookup_fmap, E. Qed.

Lemma ref_moves_insert f d t x x' : t !! f = Some x -> fl_ref x' = fl_ref x + d -> ref_moves f d t (<[f := x']> t).
Proof.
  intros Hx Hd k. pose proof (lookup_lt_Some _ _ _ Hx). destruct (decide (f = k)) as [<-|N].
  - rewrite list_lookup_insert_eq, Hx by done. cbn. by rewrite Hd.
  - rewrite list_lookup_insert_ne by done. destruct (t !! k); cbn; [f_equal; lia|done].
Qed.

Lemma fd_inv_moves w g s' f d : fd_inv w g -> ref_moves f d (s_ftable (g_sys g)) (s_ftable s') ->
  is_Some (s_ftable (g_sys g) !! f) -> fd_inv (add f d w) (set_sys s' g).
Proof.
  intros [H1 H2 H3] Hm [y Hy]. split; [|exact H2|exact H3]. intros k. cbn. specialize (H1 k). specialize (Hm k). unfold add. revert H1 Hm.
  destruct (s_ftable s' !! k) as [x'|], (s_ftable (g_sys g) !! k) as [x|] eqn:Ek; cbn; intros H1 Hm; try done.
  - injection Hm as Hm. lia.
  - destruct (decide (f = k)) as [<-|]; [congruence|]. lia.
Qed.

Lemma fd_inv_ext w w' g : fd_inv w g -> (forall f, w' f = w f) -> fd_inv w' g.
Proof. intros [H1 H2 H3] E. split; [|done|done]. intros f. rewrite E. apply H1. Qed.

Section moves.
Context (devsw : Z -> devsw_t) (levels : nat) (kend kdata fr tr : Z).

Lemma filealloc_moves w : moves w (fl filealloc) (fun r => match r with Some f => add f 1 w | None => w end).
Proof.
  intros g H. unfold wlp, fl, zoom. pose proof (filealloc_eq (g_sys g)) as E. destruct (index_of _ _) as [f|].
  - destruct E as (x & Hx & Hr & ->). split; [|done]. eapply (fd_inv_moves w g _ f 1 H).
    + cbn. apply (ref_moves_insert _ _ _ x); [done|cbn; lia].
    + by eexists.
  - rewrite E. split; [|done]. by destruct g.
Qed.

Lemma filedup_moves w f : moves w (fl (filedup f)) (fun _ => add f 1 w).
Proof.
  intros g H. unfold wlp, fl, zoom. destruct (s_ftable (g_sys g) !! f) as [x|] eqn:Hx.
  2:{ unfold filedup, getf, bind, get. by rewrite Hx. }
  destruct (Z.ltb_spec (fl_ref x) 1) as [Hr|Hr].
  { unfold filedup, bind. rewrite (getf_eq _ f x Hx). by rewrite (proj2 (Z.ltb_lt _ _) Hr). }
  rewrite (filedup_eq _ f x Hx) by lia. split; [|done]. eapply (fd_inv_moves w g _ f 1 H).
  - cbn. by apply (ref_moves_insert _ _ _ x).
  - by eexists.
Qed.

Lemma fileclose_moves w f : moves w (fl (fileclose devsw kend f)) (fun _ => add f (-1) w).
Proof.
  intros g H. unfold wlp, fl, zoom. destruct (s_ftable (g_sys g) !! f) as [x|] eqn:Hx.
  2:{ unfold fileclose, getf, bind, get. by rewrite Hx. }
  destruct (Z.ltb_spec (fl_ref x) 1) as [Hr|Hr].
  { unfold fileclose, bind. rewrite (getf_eq _ f x Hx). by rewrite (proj2 (Z.ltb_lt _ _) Hr). }
  assert (forall s', ref_moves f (-1) (s_ftable (g_sys g)) (s_ftable s') -> fd_inv (add f (-1) w) (set_sys s' g)) as Hend.
  { intros s' Hm. apply (fd_inv_moves w g s' f (-1) H Hm). by eexists. }
  rewrite (fileclose_eq devsw kend _ f x Hx) by lia. destruct (Z.ltb_spec 1 (fl_ref x)).
  - split; [|done]. apply Hend. cbn. apply (ref_moves_insert _ _ _ x); [done|cbn; lia].
  - set (s1 := set_ftable _ _). pose proof (release_file_refs devsw kend (with_ref 0 x) s1) as Hs.
    destruct (release_file devsw kend (with_ref 0 x) s1) as [r s2| | | |]; try done. split; [|done]. apply Hend.
    eapply ref_moves_same; [|exact Hs]. cbn.
    apply (ref_moves_insert _ _ _ x); [done|cbn; lia].
Qed.
End moves.

(** *** Descriptors of the running process *)

Definition has_fd (g : kernel) (fd f : nat) : Prop :=
  exists i p, g_proc g = Some i /\ g_ptable g !! i = Some p /\ proc_ofile p !! fd = Some (Some f).

Lemma has_fd_kf g g' fd f : kf g g' -> has_fd g fd f -> has_fd g' fd f.
Proof.
  intros (_ & Ht & Hg) (i & p & Hi & Hp & Ho). destruct (Forall2_lookup_l _ _ _ _ _ Ht Hp) as (p' & Hp' & E & _).
  exists i, p'. rewrite E. split_and!; [congruence|done|done].
Qed.

(** Descriptor [fd] changes from [x] to [y]. *)
Lemma set_fd_inv w w' g i p fd x y : fd_inv w g -> g_ptable g !! i = Some p -> idle p = false ->
  proc_ofile p !! fd = Some x ->
  (forall f, w' f + (if decide (y = Some f) then 1 else 0) = w f + (if decide (x = Some f) then 1 else 0)) ->
  fd_inv w' (set_ptable (<[i := with_ofile fd y p]> (g_ptable g)) g).
Proof.
  intros [H1 H2 H3] Hp Hi Hx Hc. pose proof (lookup_lt_Some _ _ _ Hp). split; cbn.
  - intros f. specialize (H1 f). specialize (Hc f). pose proof (descs_insert f (g_ptable g) i p (with_ofile fd y p) Hp) as Hd.
    pose proof (fds_to_insert f (proc_ofile p) fd x y Hx) as Hf. cbn [with_ofile proc_ofile] in Hd.
    destruct (decide (x = Some f)), (decide (y = Some f)), (s_ftable (g_sys g) !! f); lia.
  - intros j q Hq. destruct (decide (i = j)) as [<-|N].
    + rewrite list_lookup_insert_eq in Hq by done. injection Hq as <-. cbn. rewrite length_insert.
      split; [by apply (H2 i)|]. unfold idle, in_state in *. cbn. by rewrite Hi.
    + rewrite list_lookup_insert_ne in Hq by done. by eapply H2.
  - intros j q Hj Hq. destruct (decide (i = j)) as [<-|N].
    + rewrite list_lookup_insert_eq in Hq by done. by injection Hq as <-.
    + rewrite list_lookup_insert_ne in Hq by done. by eapply H3.
Qed.

Lemma wlp_kf {A} (m : K kernel A) w g : keeps kf m -> fd_inv w g -> wlp m (fun _ g' => fd_inv w g' /\ kf g g') g.
Proof. intros Hm H. unfold wlp. specialize (Hm g). destruct (m g); try done. split; [by eapply kf_inv|done]. Qed.

Lemma wlp_Ret {A} (m : K kernel A) Q g : (forall a g', m g = Ret a g' -> Q a g') -> wlp m Q g.
Proof. intros H. unfold wlp. destruct (m g) eqn:E; try done. by apply H. Qed.

(** [fdalloc] puts the reference it is given into a descriptor. *)
Lemma fdalloc_moves w f g : fd_inv w g ->
  wlp (fdalloc f) (fun fd g' => if fd <? 0 then g' = g else fd_inv (add f (-1) w) g' /\ has_fd g' (Z.to_nat fd) f) g.
Proof.
  intros H. apply wlp_Ret. intros fd g' E. unfold fdalloc in E. apply bind_Ret in E as (p & g1 & E1 & E).
  apply me_Ret in E1 as [-> (i & Hi & Hp)]. destruct (index_of _ _) as [k|] eqn:Ek; [|by injection E as <- <-].
  apply index_of_Some in Ek as (x & Hx & Hn & _). apply bool_decide_eq_true in Hn as ->.
  apply bind_Ret in E as ([] & g2 & E2 & [= <- <-]). apply updme_Ret in E2 as (i' & p' & Hi' & Hp' & ->).
  rewrite Hi in Hi'. injection Hi' as <-. rewrite Hp in Hp'. injection Hp' as <-.
  rewrite (proj2 (Z.ltb_ge _ _)) by lia. rewrite Nat2Z.id. pose proof (lookup_lt_Some _ _ _ Hp). pose proof (lookup_lt_Some _ _ _ Hx). split.
  - eapply (set_fd_inv w _ g i p k None (Some f) H Hp); [by eapply fi_run|done|].
    intros j. unfold add. destruct (decide (f = j)), (decide (Some f = Some j)), (decide (None = Some j)); try congruence; lia.
  - exists i, (with_ofile k (Some f) p). cbn. rewrite !list_lookup_insert_eq by done. done.
Qed.

(** Clearing a descriptor takes its reference out. *)
Lemma clear_fd_moves w fd f g : fd_inv w g -> has_fd g fd f ->
  wlp (updme (with_ofile fd None)) (fun _ g' => fd_inv (add f 1 w) g') g.
Proof.
  intros H (i & p & Hi & Hp & Ho). apply wlp_Ret. intros [] g' E. apply updme_Ret in E as (i' & p' & Hi' & Hp' & ->).
  rewrite Hi in Hi'. injection Hi' as <-. rewrite Hp in Hp'. injection Hp' as <-.
  eapply (set_fd_inv w _ g i p fd (Some f) None H Hp); [by eapply fi_run|done|].
  intros j. unfold add. destruct (decide (f = j)), (decide (Some f = Some j)), (decide (None = Some j)); try congruence; lia.
Qed.

Lemma argfd_has n g : wlp (argfd n) (fun r g' => match r with inr (fd, f) => has_fd g' (Z.to_nat fd) f | inl _ => True end) g.
Proof.
  apply wlp_Ret. intros r g' E. unfold argfd in E. apply bind_Ret in E as ([fd|] & g1 & _ & E); [|by injection E as <- <-].
  destruct (_ || _); [by injection E as <- <-|]. apply bind_Ret in E as (p & g2 & E2 & E).
  apply me_Ret in E2 as [-> (i & Hi & Hp)]. apply bind_Ret in E as (o & g3 & E3 & E).
  destruct (proc_ofile p !! Z.to_nat fd) as [o'|] eqn:Ho; cbn in E3; [|done]. injection E3 as -> <-.
  destruct o as [f|]; injection E as <- <-; [|done]. by exists i, p.
Qed.

Lemma wlp_and {A} (m : K kernel A) P Q g : wlp m P g -> wlp m Q g -> wlp m (fun a g' => P a g' /\ Q a g') g.
Proof. unfold wlp. by destruct (m g). Qed.

Lemma argfd_moves w n g : fd_inv w g ->
  wlp (argfd n) (fun r g' => fd_inv w g' /\ match r with inr (fd, f) => has_fd g' (Z.to_nat fd) f | inl _ => True end) g.
Proof.
  intros H. apply wlp_and; [|apply argfd_has]. eapply wlp_mono; [by apply wlp_kf; [apply kf_argfd|]|]. by intros ? ? [].
Qed.

(** Take the next step of a routine: with its specification, or as one that does
    not touch descriptors. *)
Ltac fd_by L := rewrite wlp_bind; eapply wlp_mono; [eapply L; eassumption|cbn beta].
Ltac fd_frame H Hk :=
  rewrite wlp_bind; eapply wlp_mono; [eapply wlp_kf; [solve [eauto with keeps]|exact H]|cbn beta];
  clear H; intros ? ? [H Hk].
Ltac fd_skip H := let Hk := fresh "Hk" in fd_frame H Hk; clear Hk.
(** The same, with a fact that [L] carries over. *)
Ltac fd_carry H Hf L := let Hk := fresh "Hk" in fd_frame H Hk; eapply L in Hf; [|exact Hk]; clear Hk.
(** The references are back where they were. *)
Ltac fd_done H := eapply fd_inv_ext; [exact H|intros ?; unfold add; repeat case_decide; lia].

(** A system call preserves the invariant when it returns. *)
Definition fd_call {A} (m : K kernel A) : Prop := forall w g, fd_inv w g -> wlp m (fun _ g' => fd_inv w g') g.

Lemma fd_call_kf {A} (m : K kernel A) : keeps kf m -> fd_call m.
Proof. intros Hm T g H. eapply wlp_mono; [by apply wlp_kf|]. by intros ? ? []. Qed.

Section fd_calls.
Context (devsw : Z -> devsw_t) (levels : nat) (kend kdata fr tr : Z).

Lemma dup_fds : fd_call sys_dup.
Proof.
  intros w g H. unfold sys_dup. fd_by argfd_moves. intros [e|[fd f]] g1 [H1 Hf]; [done|]. cbn [snd].
  fd_by fdalloc_moves. intros fd' g2 H2. destruct (fd' <? 0); [by subst|]. destruct H2 as [H2 _].
  fd_by filedup_moves. intros _ g3 (H3 & _). fd_done H3.
Qed.

Lemma close_fds : fd_call (sys_close devsw kend).
Proof.
  intros w g H. unfold sys_close. fd_by argfd_moves. intros [e|[fd f]] g1 [H1 Hf]; [done|]. cbn [fst snd].
  fd_by clear_fd_moves. intros _ g2 H2. fd_by fileclose_moves. intros _ g3 (H3 & _). fd_done H3.
Qed.

Lemma open_file_fds ip fail w g : fd_inv w g ->
  wlp (open_file devsw kend ip fail) (fun r g' => fd_inv w g' /\
    match r with inr (fd, f) => has_fd g' (Z.to_nat fd) f | inl _ => True end) g.
Proof.
  intros H. unfold open_file. fd_by filealloc_moves. intros [f|] g1 (H1 & _).
  - fd_by fdalloc_moves. intros fd g2 H2. destruct (fd <? 0).
    + subst g2. fd_by fileclose_moves. intros _ g3 (H3 & _). fd_skip H3. split; [fd_done H3|done].
    + destruct H2 as [H2 Hf]. split; [fd_done H2|done].
  - fd_skip H1. done.
Qed.

Lemma finish_open_fds ip omode fail : fd_call (finish_open devsw kend ip omode fail).
Proof.
  intros w g H. unfold finish_open. fd_by open_file_fds. intros [e|[fd f]] g1 [H1 _]; [done|].
  fd_skip H1. fd_skip H1. done.
Qed.

Lemma open_fds : fd_call (sys_open devsw levels kend).
Proof.
  intros w g H. unfold sys_open, create_file. fd_skip H. destruct a as [path|]; [|done]. fd_skip H. destruct a as [omode|]; [|done].
  destruct (flag omode O_CREATE).
  - fd_skip H. destruct a; [|done]. by apply finish_open_fds.
  - fd_skip H. destruct a; [|done]. fd_skip H. destruct (_ =? _); [done|]. fd_skip H. destruct (_ && _); [by fd_skip H|].
    by apply finish_open_fds.
Qed.
Lemma forceopen_fds : fd_call (sys_forceopen devsw levels kend).
Proof.
  intros w g H. unfold sys_forceopen, create_file. fd_skip H. destruct a as [path|]; [|done]. fd_skip H. destruct a as [omode|]; [|done].
  destruct (flag omode O_CREATE).
  - fd_skip H. destruct a; [|done]. by apply finish_open_fds.
  - fd_skip H. destruct a; [|done]. fd_skip H. fd_skip H. destruct (_ && _); [by fd_skip H|]. by apply finish_open_fds.
Qed.

Lemma iopen_fds : fd_call (sys_iopen devsw kend).
Proof.
  intros w g H. unfold sys_iopen. fd_skip H. destruct a as [dev|]; [|done]. fd_skip H. destruct a as [inum|]; [|done].
  fd_skip H. destruct a; [|done]. fd_skip H. destruct (_ =? _); [done|]. destruct (negb _); [done|]. by apply finish_open_fds.
Qed.

Lemma ichecksum_fds : fd_call (sys_ichecksum devsw kend).
Proof.
  intros w g H. unfold sys_ichecksum. fd_skip H. destruct a as [dev|]; [|done]. fd_skip H. destruct a as [inum|]; [|done].
  fd_skip H. destruct a; [|done]. fd_skip H. destruct (_ =? _); [done|].
  fd_by open_file_fds. intros [e|[fd f]] g1 [H1 Hf]; [done|]. fd_carry H1 Hf has_fd_kf. fd_carry H1 Hf has_fd_kf. fd_carry H1 Hf has_fd_kf.
  fd_by clear_fd_moves. intros _ g2 H2. fd_by fileclose_moves. intros _ g3 (H3 & _). fd_done H3.
Qed.
End fd_calls.

(** *** Pipes *)

Lemma wlp_fl_bind {A B} (m : K sys A) (f : A -> K sys B) Q g :
  wlp (fl (bind m f)) Q g <-> wlp (fl m) (fun a => wlp (fl (f a)) Q) g.
Proof. unfold wlp, fl, zoom, bind. by destruct (m (g_sys g)). Qed.

Lemma wlp_fl_ret {A} (a : A) Q g : Q a g -> wlp (fl (ret a)) Q g.
Proof. by destruct g. Qed.

Ltac fd_fl_by L := rewrite wlp_fl_bind; eapply wlp_mono; [eapply L; eassumption|cbn beta].
Ltac fd_fl_skip H :=
  rewrite wlp_fl_bind; eapply wlp_mono; [eapply wlp_kf; [solve [eauto with keeps]|exact H]|cbn beta];
  clear H; intros ? ? [H _].

Section fd_pipe.
Context (devsw : Z -> devsw_t) (kend : Z).

Lemma pipealloc_moves w g : fd_inv w g ->
  wlp (fl (pipealloc devsw kend)) (fun r g' =>
    fd_inv (match r with Some (f0, f1) => add f0 1 (add f1 1 w) | None => w end) g') g.
Proof.
  intros H. unfold pipealloc. fd_fl_by filealloc_moves. intros [f0|] g1 (H1 & _); [|by apply wlp_fl_ret].
  fd_fl_by filealloc_moves. intros [f1|] g2 (H2 & _).
  2:{ fd_fl_by fileclose_moves. intros _ g3 (H3 & _). apply wlp_fl_ret. fd_done H3. }
  fd_fl_skip H2. destruct (_ =? 0).
  - fd_fl_by fileclose_moves. intros _ g3 (H3 & _). fd_fl_by fileclose_moves. intros _ g4 (H4 & _). apply wlp_fl_ret. fd_done H4.
  - fd_fl_skip H2. fd_fl_skip H2. fd_fl_skip H2. apply wlp_fl_ret. fd_done H2.
Qed.

Lemma pipe_fds : fd_call (sys_pipe devsw kend).
Proof.
  intros w g H. unfold sys_pipe. fd_skip H. destruct a as [a|]; [|done].
  fd_by pipealloc_moves. intros [[f0 f1]|] g1 H1; [|done].
  fd_by fdalloc_moves. intros fd0 g2 H2. destruct (fd0 <? 0).
  { subst g2. fd_by fileclose_moves. intros _ g3 (H3 & _). fd_by fileclose_moves. intros _ g4 (H4 & _). fd_done H4. }
  destruct H2 as [H2 Hf]. fd_by fdalloc_moves. intros fd1 g3 H3. destruct (fd1 <? 0).
  - subst g3. fd_by clear_fd_moves. intros _ g4 H4. fd_by fileclose_moves. intros _ g5 (H5 & _).
    fd_by fileclose_moves. intros _ g6 (H6 & _). fd_done H6.
  - destruct H3 as [H3 _]. fd_skip H3. fd_skip H3. fd_done H3.
Qed.
End fd_pipe.

(** *** Processes *)

(** A slot that is not run, and has no descriptors from [k] on. *)
Definition growing (k : nat) (g : kernel) (np : nat) : Prop :=
  g_proc g <> Some np /\ exists q, g_ptable g !! np = Some q /\ idle q = false /\
    forall j x, (k <= j)%nat -> proc_ofile q !! j = Some x -> x = None.
Definition unborn : kernel -> nat -> Prop := growing 0.

Lemma growing_kf k g g' np : kf g g' -> growing k g np -> growing k g' np.
Proof.
  intros (_ & Ht & Hg) (Hn & q & Hq & Hi & Hc). split; [congruence|].
  destruct (Forall2_lookup_l _ _ _ _ _ Ht Hq) as (q' & Hq' & E & Himp). exists q'. split; [done|]. rewrite E. split; [|done].
  destruct (idle q'); [|done]. rewrite Hi in Himp. by destruct Himp.
Qed.
Definition unborn_kf := growing_kf 0.

(** A slot that is not run and has no descriptors: it may become idle. *)
Definition dormant (g : kernel) (k : nat) : Prop :=
  g_proc g <> Some k /\ exists q, g_ptable g !! k = Some q /\ closed (proc_ofile q).

Lemma dormant_kf g g' k : kf g g' -> dormant g k -> dormant g' k.
Proof.
  intros (_ & Ht & Hg) (Hn & q & Hq & Hc). split; [congruence|].
  destruct (Forall2_lookup_l _ _ _ _ _ Ht Hq) as (q' & Hq' & E & _). exists q'. by rewrite E.
Qed.

Lemma unborn_dormant g np : unborn g np -> dormant g np.
Proof.
  intros (Hn & q & Hq & _ & Hc). split; [done|]. exists q. split; [done|].
  apply Forall_lookup. intros j x. apply Hc. lia.
Qed.

Lemma dormant_inv w g k f : fd_inv w g -> dormant g k -> (forall p, proc_ofile (f p) = proc_ofile p) ->
  wlp (updp k f) (fun _ g' => fd_inv w g') g.
Proof.
  intros [H1 H2 H3] (Hn & p & Hp & Hc) Hf. pose proof (lookup_lt_Some _ _ _ Hp). unfold wlp. rewrite (updp_eq g k p _ Hp). split; cbn.
  - intros j. specialize (H1 j). pose proof (descs_insert j (g_ptable g) k p (f p) Hp) as Hd. rewrite Hf in Hd.
    destruct (s_ftable (g_sys g) !! j); lia.
  - intros j q Hq. destruct (decide (k = j)) as [<-|N].
    + rewrite list_lookup_insert_eq in Hq by done. injection Hq as <-. rewrite Hf. destruct (H2 k p Hp) as [Hl _]. by split.
    + rewrite list_lookup_insert_ne in Hq by done. by eapply H2.
  - intros j q Hj Hq. rewrite list_lookup_insert_ne in Hq by congruence. by eapply H3.
Qed.

Section fd_procs.
Context (devsw : Z -> devsw_t) (kend kdata fr tr : Z).

Lemma allocproc_fds w g : fd_inv w g ->
  wlp (allocproc fr tr) (fun r g' => fd_inv w g' /\ match r with Some np => unborn g' np | None => True end) g.
Proof.
  intros H. unfold allocproc. rewrite wlp_bind. unfold wlp at 1, get. destruct (index_of _ _) as [i|] eqn:Ei; [|done].
  apply index_of_Some in Ei as (p & Hp & Hs & _). apply bool_decide_eq_true in Hs.
  rewrite wlp_bind. unfold wlp at 1. rewrite (updp_eq g i p _ Hp). set (p' := with_pid _ _). set (g1 := set_ptable _ g).
  assert (kf g g1) as Hk by (apply (kf_insert g i p); [done|by split]).
  assert (idle p = true) as Hi by (unfold idle, in_state; by rewrite Hs).
  assert (unborn g1 i) as Hu.
  { pose proof (lookup_lt_Some _ _ _ Hp). split.
    - intros E. pose proof (fi_run _ _ H i p E Hp). congruence.
    - exists p'. cbn. rewrite list_lookup_insert_eq by done. split; [done|]. split; [done|].
      destruct (fi_idle _ _ H i p Hp) as [_ Hc]. intros j x _. cbn. rewrite Hi in Hc. specialize (Hc I).
      by apply (proj1 (Forall_lookup _ _) Hc). }
  apply (kf_inv _ _ _ Hk) in H. clearbody g1. clear Hk.
  rewrite wlp_bind. unfold wlp at 1, modify. set (g2 := set_nextpid _ g1).
  assert (kf g1 g2) as Hk by done. apply (kf_inv _ _ _ Hk) in H. apply (unborn_kf _ _ _ Hk) in Hu. clearbody g2. clear Hk.
  fd_carry H Hu unborn_kf. fd_carry H Hu unborn_kf. destruct (a =? 0).
  - rewrite wlp_bind. eapply wlp_mono; [by apply dormant_inv; [|apply unborn_dormant|]|]. by intros [] g' H'.
  - fd_carry H Hu unborn_kf. done.
Qed.
(** The child gets a reference for each descriptor of its parent. *)
Lemma dup_ofile_fds w g np k : fd_inv w g -> growing k g np -> (k < Z.to_nat NOFILE)%nat ->
  wlp (dup_ofile np (Z.of_nat k)) (fun _ g' => fd_inv w g' /\ growing (S k) g' np) g.
Proof.
  intros H (Hn & q & Hq & Hi & Hc) Hk. apply wlp_Ret. intros [] g' E. unfold dup_ofile in E. rewrite Nat2Z.id in E.
  apply bind_Ret in E as (p & g1 & E1 & E). apply me_Ret in E1 as [-> _].
  apply bind_Ret in E as (o & g2 & E2 & E). destruct (proc_ofile p !! k) as [o'|]; cbn in E2; [|done]. injection E2 as -> <-.
  assert (forall l, (forall j x, (S k <= j)%nat -> l !! j = Some x -> x = None) -> forall g', g_proc g' = g_proc g ->
    g_ptable g' !! np = Some (Proc (proc_sz q) (proc_pgdir q) (proc_kstack q) (proc_state q) (proc_pid q) (proc_parent q)
      (proc_tf q) (proc_context q) (proc_chan q) (proc_killed q) l (proc_cwd q) (proc_name q)) -> growing (S k) g' np) as Hgrow.
  { intros l Hl g'' Eg Et. split; [congruence|]. by eexists. }
  destruct o as [f|].
  - apply bind_Ret in E as (f' & g3 & E3 & E).
    pose proof (filedup_moves w f g H) as Hm. unfold wlp in Hm. rewrite E3 in Hm. destruct Hm as (H3 & Et & Ep).
    assert (f' = f) as ->.
    { unfold fl, zoom in E3. destruct (filedup f (g_sys g)) eqn:Ef; try done. injection E3 as <- <-. unfold filedup in Ef.
      apply bind_Ret in Ef as (? & ? & _ & Ef). destruct (_ <? 1); [done|]. by apply bind_Ret in Ef as (? & ? & _ & [= <-]). }
    rewrite <- Et in Hq. apply updp_Ret in E as (q' & Hq' & ->). rewrite Hq in Hq'. injection Hq' as <-.
    pose proof (lookup_lt_Some _ _ _ Hq).
    destruct (lookup_lt_is_Some_2 (proc_ofile q) k) as [x Hx]; [destruct (fi_idle _ _ H3 np q Hq); lia|].
    assert (x = None) as -> by (by apply (Hc k)). split.
    + eapply (set_fd_inv _ w g3 np q k None (Some f) H3 Hq Hi Hx). intros j. unfold add.
      destruct (decide (f = j)), (decide (Some f = Some j)), (decide (None = Some j)); try congruence; lia.
    + apply (Hgrow (<[k := Some f]> (proc_ofile q))); [|done|cbn; by rewrite list_lookup_insert_eq].
      intros j x Hj. rewrite list_lookup_insert_ne by lia. apply Hc. lia.
  - injection E as <-. split; [done|]. split; [done|]. exists q. split_and!; [done..|]. intros j x Hj. apply Hc. lia.
Qed.
Lemma dup_loop_fds w g np : fd_inv w g -> unborn g np ->
  wlp (forK (dup_ofile np) (zrange 0 NOFILE)) (fun _ g' => fd_inv w g') g.
Proof.
  intros H Hu. apply wlp_Ret. intros [] g' E.
  apply (forK_Ret _ _ (fun k s => fd_inv w s /\ growing k s np)) in E; [by destruct E|done|].
  intros k x s s' Hx [Hs Hg] Es. apply lookup_seqZ in Hx as [-> Hk]. rewrite Z.add_0_l in Es.
  pose proof (dup_ofile_fds w s np k Hs Hg ltac:(lia)) as Hw. unfold wlp in Hw. rewrite Es in Hw. done.
Qed.

Lemma fork_fds : fd_call (fork kend kdata fr tr).
Proof.
  intros w g H. unfold fork. fd_by allocproc_fds. intros [np|] g1 [H1 Hu]; [|done].
  fd_carry H1 Hu unborn_kf. fd_carry H1 Hu unborn_kf. fd_carry H1 Hu unborn_kf. destruct (_ =? 0).
  - fd_carry H1 Hu unborn_kf. fd_carry H1 Hu unborn_kf. fd_carry H1 Hu unborn_kf.
    rewrite wlp_bind. eapply wlp_mono; [by apply dormant_inv; [|apply unborn_dormant|]|]. by intros [] g2 H2.
  - fd_carry H1 Hu unborn_kf. fd_carry H1 Hu unborn_kf. fd_by dup_loop_fds. intros [] g2 H2.
    fd_skip H2. fd_skip H2. fd_skip H2. fd_skip H2. fd_skip H2. done.
Qed.

(** The zombie that [wait] finds has no descriptors. *)
Lemma wait_fds : fd_call (wait kend).
Proof.
  intros w g H. unfold wait. rewrite wlp_bind. apply wlp_Ret. intros i g1 E1. apply myproc_Ret in E1 as [-> Hi].
  rewrite wlp_bind. unfold wlp at 1, get. destruct (index_of _ _) as [k|] eqn:Ek.
  - apply index_of_Some in Ek as (q & Hq & Hz & _). apply andb_true_iff in Hz as [_ Hz].
    assert (idle q = true) as Hidle by (unfold idle; by rewrite Hz, orb_true_r).
    unfold reap. rewrite wlp_bind. unfold wlp at 1. rewrite (getp_eq g k q Hq).
    assert (dormant g k) as Hd.
    { split; [intros E; pose proof (fi_run _ _ H k q E Hq); congruence|]. exists q. split; [done|].
      destruct (fi_idle _ _ H k q Hq) as [_ Hc]. apply Hc. by rewrite Hidle. }
    fd_carry H Hd dormant_kf. fd_carry H Hd dormant_kf. fd_carry H Hd dormant_kf.
    rewrite wlp_bind. eapply wlp_mono; [by apply dormant_inv|]. by intros [] g2 H2.
  - fd_skip H. destruct (negb _ || _); [done|]. by apply (fd_call_kf _ (kf_sleep _)).
Qed.
(** The descriptors of the running process below [k] are closed. *)
Definition closing (k : nat) (g : kernel) : Prop :=
  exists i p, g_proc g = Some i /\ g_ptable g !! i = Some p /\ forall j, (j < k)%nat -> proc_ofile p !! j = Some None.

Lemma close_fd_fds w g k : fd_inv w g -> closing k g ->
  wlp (close_fd devsw kend (Z.of_nat k)) (fun _ g' => fd_inv w g' /\ closing (S k) g') g.
Proof.
  intros H (i & p & Hi & Hp & Hc). apply wlp_Ret. intros [] g' E. unfold close_fd in E. rewrite Nat2Z.id in E.
  apply bind_Ret in E as (p' & g1 & E1 & E). apply me_Ret in E1 as [-> (i' & Hi' & Hp')].
  rewrite Hi in Hi'. injection Hi' as <-. rewrite Hp in Hp'. injection Hp' as <-.
  apply bind_Ret in E as (o & g2 & E2 & E). destruct (proc_ofile p !! k) as [o'|] eqn:Ho; cbn in E2; [|done]. injection E2 as -> <-.
  destruct o as [f|].
  - apply bind_Ret in E as ([] & g3 & E3 & E).
    pose proof (fileclose_moves devsw kend w f g H) as Hm. unfold wlp in Hm. rewrite E3 in Hm. destruct Hm as (H3 & Et & Ep).
    assert (has_fd g3 k f) as Hf by (exists i, p; split_and!; congruence).
    pose proof (clear_fd_moves _ k f g3 H3 Hf) as Hm. unfold wlp in Hm. rewrite E in Hm. split; [fd_done Hm|].
    apply updme_Ret in E as (i' & q & Hi' & Hq & ->). rewrite Ep, Hi in Hi'. injection Hi' as <-.
    rewrite Et, Hp in Hq. injection Hq as <-. pose proof (lookup_lt_Some _ _ _ Hp). pose proof (lookup_lt_Some _ _ _ Ho).
    exists i, (with_ofile k None p). cbn. rewrite Et, list_lookup_insert_eq by done. split_and!; [congruence|done|].
    intros j Hj. destruct (decide (k = j)) as [<-|]; [by rewrite list_lookup_insert_eq|]. rewrite list_lookup_insert_ne by done. apply Hc. lia.
  - injection E as <-. split; [done|]. exists i, p. split_and!; [done..|]. intros j Hj.
    destruct (decide (j = k)) as [->|]; [done|]. apply Hc. lia.
Qed.

Lemma close_loop_fds w g : fd_inv w g -> closing 0 g ->
  wlp (forK (close_fd devsw kend) (zrange 0 NOFILE)) (fun _ g' => fd_inv w g' /\ closing (Z.to_nat NOFILE) g') g.
Proof.
  intros H Hc. apply wlp_Ret. intros [] g' E.
  apply (forK_Ret _ _ (fun k s => fd_inv w s /\ closing k s)) in E; [done|done|].
  intros k x s s' Hx [Hs Hg] Es. apply lookup_seqZ in Hx as [-> Hk]. rewrite Z.add_0_l in Es.
  pose proof (close_fd_fds w s k Hs Hg) as Hw. unfold wlp in Hw. rewrite Es in Hw. done.
Qed.

Lemma reparent_kf c k : keeps kf (reparent c k).
Proof. unfold reparent. keeps_tac. Qed.

Lemma sleep_step {A B} (m : K kernel A) (f : A -> K kernel B) g g1 g2 g' : quiet g g2 -> kf g1 g2 ->
  keeps quiet m -> keeps kf m -> bind m f g2 = Sleeps g' ->
  quiet g g' \/ exists a g3, quiet g g3 /\ kf g1 g3 /\ f a g3 = Sleeps g'.
Proof.
  intros Q Hk Hq Hf [E|(a & g3 & E & E')]%bind_Sleeps.
  - left. by eapply keeps_Sleeps.
  - right. exists a, g3. split; [by eapply quiet_keeps|]. split; [|done]. etrans; [exact Hk|]. by eapply keeps_Ret.
Qed.

(** [exit] gives up the processor while it closes its files, or at its end. *)
Lemma exit_Sleeps g g' : exit devsw kend g = Sleeps g' ->
  quiet g g' \/ exists g1 g2, is_Some (g_proc g) /\ forK (close_fd devsw kend) (zrange 0 NOFILE) g = Ret tt g1 /\
    kf g1 g2 /\ updme (with_state ZOMBIE) g2 = Ret tt g'.
Proof.
  intros E. unfold exit in E. apply bind_Sleeps in E as [E|(c & g1 & Ec & E)].
  { left. pose proof (keeps_myproc g) as Hq. by rewrite E in Hq. }
  apply myproc_Ret in Ec as [-> Hc]. apply bind_Sleeps in E as [?|(? & ? & [= <- <-] & E)]; [done|].
  case_bool_decide; [done|].
  assert (keeps quiet (forK (close_fd devsw kend) (zrange 0 NOFILE))) as Hq by (pose proof close_fd_quiet; keeps_tac).
  apply bind_Sleeps in E as [E|([] & g2 & E2 & E)]; [left; specialize (Hq g); by rewrite E in Hq|].
  assert (quiet g g2) as Q by (by eapply keeps_Ret). assert (kf g2 g2) as Hk by reflexivity.
  apply (sleep_step _ _ _ _ _ _ Q Hk) in E as [?|(p & g3 & Q3 & Hk3 & E)]; [by left| |eauto with keeps..].
  apply (sleep_step _ _ _ _ _ _ Q3 Hk3) in E as [?|([] & g4 & Q4 & Hk4 & E)]; [by left| |eauto with keeps..].
  apply (sleep_step _ _ _ _ _ _ Q4 Hk4) in E as [?|([] & g5 & Q5 & Hk5 & E)]; [by left| |eauto with keeps..].
  apply (sleep_step _ _ _ _ _ _ Q5 Hk5) in E as [?|(p' & g6 & Q6 & Hk6 & E)]; [by left| |eauto with keeps..].
  apply (sleep_step _ _ _ _ _ _ Q6 Hk6) in E as [?|([] & g7 & Q7 & Hk7 & E)]; [by left| |keeps_tac..].
  apply bind_Sleeps in E as [E|([] & g8 & E8 & E)]; [by apply reparent_no_sleep in E|].
  apply bind_Sleeps in E as [E|([] & g9 & E9 & E)]; [by apply updme_no_sleep in E|].
  apply bind_Sleeps in E as [E|([] & g10 & _ & E)]; [|done]. apply sched_Sleeps in E as ->.
  right. exists g2, g8. split; [by eexists|]. split; [done|]. split; [|done]. etrans; [exact Hk7|].
  eapply keeps_Ret; [|exact E8]. pose proof reparent_kf. keeps_tac.
Qed.

(** Once [exit] has closed the descriptors, the slot is left as a zombie. *)
Lemma exit_fds w g g' p : fd_inv w g -> exit devsw kend g = Sleeps g' -> current g' = Some p -> proc_state p = ZOMBIE ->
  fd_inv w (set_proc None g').
Proof.
  intros H E Hp Hz. apply exit_Sleeps in E as [Q|(g1 & g2 & [i Hi] & E1 & Hk & E2)].
  { exfalso. unfold current in Hp. destruct (g_proc g') as [i|] eqn:Ei; [|done]. cbn in Hp.
    destruct Q as (Q & _ & _ & Ep). destruct (Forall2_lookup_r _ _ _ _ _ Q Hp) as (q & Hq & _ & _ & Hs).
    rewrite Ei in Ep. symmetry in Ep. pose proof (fi_run _ _ H i q Ep Hq) as Hn. unfold idle, in_state in Hn.
    rewrite Hz in Hs. destruct Hs as [Hs|[_ Hs]]; [|done]. rewrite <- Hs in Hn. done. }
  assert (exists q, g_ptable g !! i = Some q) as [q Hq].
  { change (zrange 0 NOFILE) with (0 :: zrange 1 NOFILE) in E1. unfold forK in E1. cbn [foldK] in E1.
    apply bind_Ret in E1 as (? & ? & Ec & _). unfold close_fd in Ec. apply bind_Ret in Ec as (q & ? & Em & _).
    apply me_Ret in Em as [_ (c & Hc & Hq)]. exists q. congruence. }
  assert (closing 0 g) as Hc0 by (exists i, q; split_and!; [done..|intros; lia]).
  pose proof (close_loop_fds w g H Hc0) as Hl. unfold wlp in Hl. rewrite E1 in Hl. destruct Hl as [H1 (j & q1 & Hj & Hq1 & Hc)].
  pose proof Hk as (_ & Ht & Ep). destruct (Forall2_lookup_l _ _ _ _ _ Ht Hq1) as (q2 & Hq2 & Eo & _).
  apply (kf_inv _ _ _ Hk) in H1. apply updme_Ret in E2 as (j' & q2' & Hj' & Hq2' & ->).
  rewrite Ep, Hj in Hj'. injection Hj' as <-. rewrite Hq2 in Hq2'. injection Hq2' as <-.
  assert (fd_inv w (set_proc None g2)) as H2 by (destruct H1; by split).
  assert (dormant (set_proc None g2) j) as Hd.
  { split; [done|]. exists q2. split; [done|]. rewrite Eo. apply Forall_lookup. intros n x Hx.
    destruct (fi_idle _ _ H1 j q2 Hq2) as [Hlen _]. rewrite Eo in Hlen. pose proof (lookup_lt_Some _ _ _ Hx).
    rewrite Hc in Hx by lia. congruence. }
  pose proof (dormant_inv w _ j (with_state ZOMBIE) H2 Hd ltac:(done)) as Hw. unfold wlp in Hw.
  rewrite (updp_eq (set_proc None g2) j q2 _ Hq2) in Hw. exact Hw.
Qed.
End fd_procs.

(** ** Runs *)

Section runs.
Context (devsw : Z -> devsw_t) (levels : nat) (kend kdata fr tr : Z).

(** What happens to the kernel: system calls that return, reads and writes that
    have to wait, [exit], and the steps of the scheduler. *)
Inductive kstep (g g' : kernel) : Prop :=
| ks_call num call r : syscalls devsw levels kend kdata fr tr num = Some call -> call g = Ret r g' -> kstep g g'
| ks_read g1 : sys_read devsw g = Sleeps g1 -> back_to_scheduler g1 = Ret tt g' -> kstep g g'
| ks_write g1 : sys_write devsw g = Sleeps g1 -> back_to_scheduler g1 = Ret tt g' -> kstep g g'
| ks_sleep c g1 : @sleep unit c g = Sleeps g1 -> back_to_scheduler g1 = Ret tt g' -> kstep g g'
| ks_yield g1 : yield g = Sleeps g1 -> back_to_scheduler g1 = Ret tt g' -> kstep g g'
| ks_exit g1 p : exit devsw kend g = Sleeps g1 -> current g1 = Some p -> proc_state p = ZOMBIE ->
    back_to_scheduler g1 = Ret tt g' -> kstep g g'
| ks_run i p : g_proc g = None -> g_ptable g !! i = Some p -> proc_state p = RUNNABLE -> run_proc i g = Ret tt g' -> kstep g g'
| ks_wakeup c : wakeup c g = Ret tt g' -> kstep g g'.

Lemma syscall_fds num call : syscalls devsw levels kend kdata fr tr num = Some call -> fd_call call.
Proof.
  unfold syscalls. repeat (case_match; [intros [= <-]|]); try done;
    eauto using fd_call_kf, fork_fds, wait_fds, pipe_fds, kf_read, kf_kill, kf_sys_exec, kf_fstat, kf_chdir, dup_fds,
      kf_getpid, kf_sbrk, kf_sys_sleep, kf_uptime, open_fds, kf_write, kf_mknod, kf_unlink, kf_link, kf_mkdir, close_fds,
      iopen_fds, ichecksum_fds, kf_duplicate, forceopen_fds.
  intros w g Hg. unfold sys_exit. rewrite wlp_bind. apply wlp_Ret. intros r g' E. by apply exit_no_return in E.
Qed.

Lemma set_proc_none w g : fd_inv w g -> fd_inv w (set_proc None g).
Proof. intros []. by split. Qed.

Lemma kf_yield : keeps kf yield.
Proof. unfold yield, yield_to. keeps_tac. Qed.

Lemma kf_Sleeps {A} (m : K kernel A) w g g' : keeps kf m -> fd_inv w g -> m g = Sleeps g' -> fd_inv w g'.
Proof. intros Hm H E. specialize (Hm g). rewrite E in Hm. by eapply kf_inv. Qed.

Lemma kstep_fds w g g' : fd_inv w g -> kstep g g' -> fd_inv w g'.
Proof.
  intros H [num call r Hc E|g1 E [= <-]|g1 E [= <-]|c g1 E [= <-]|g1 E [= <-]|g1 p E Hp Hz [= <-]|i p Hn Hp Hs E|c E].
  - pose proof (syscall_fds num call Hc w g H) as Hw. unfold wlp in Hw. by rewrite E in Hw.
  - eapply set_proc_none, kf_Sleeps; [apply kf_read|exact H|exact E].
  - eapply set_proc_none, kf_Sleeps; [apply kf_write|exact H|exact E].
  - eapply set_proc_none, kf_Sleeps; [apply kf_sleep|exact H|exact E].
  - eapply set_proc_none, kf_Sleeps; [apply kf_yield|exact H|exact E].
  - by eapply exit_fds.
  - unfold run_proc, bind, modify in E. rewrite (updp_eq (set_proc (Some i) g) i p _ Hp) in E. injection E as <-.
    assert (kf g (set_ptable (<[i := with_state RUNNING p]> (g_ptable g)) g)) as Hk by (apply (kf_insert g i p); [done|by split]).
    apply (kf_inv _ _ _ Hk) in H. destruct H as [H1 H2 H3]. split; [done|done|]. cbn. intros j q [= <-] Hq.
    pose proof (lookup_lt_Some _ _ _ Hp). rewrite list_lookup_insert_eq in Hq by done. by injection Hq as <-.
  - eapply kf_inv; [|exact H]. eapply keeps_Ret; [apply kf_wakeup1|exact E].
Qed.
End runs.

(** ** Theorem *)

(** Start-up: no open files, no descriptors, no process running. *)
Definition no_descriptors (g : kernel) : Prop :=
  Forall (fun x => fl_ref x = 0) (s_ftable (g_sys g)) /\
  Forall (fun p => proc_ofile p = replicate (Z.to_nat NOFILE) None) (g_ptable g) /\ g_proc g = None.

Lemma closed_none n : closed (replicate n None).
Proof. by apply Forall_replicate. Qed.

Lemma no_descriptors_inv g : no_descriptors g -> fd_inv (fun _ => 0) g.
Proof.
  intros (Hf & Hp & Hn). rewrite Forall_lookup in Hf. rewrite Forall_lookup in Hp. split.
  - intros f. assert (descs f (g_ptable g) = 0%nat) as ->.
    { unfold descs. revert Hp. generalize (g_ptable g). induction l as [|p t IH]; intros Hp; [done|]. unfold total in *. cbn.
      rewrite (Hp 0%nat p eq_refl), IH, fds_to_closed; [done|apply closed_none|]. intros i q. apply (Hp (S i)). }
    destruct (s_ftable (g_sys g) !! f) as [x|] eqn:E; [by apply (Hf f)|done].
  - intros i p E. rewrite (Hp i p E). split; [apply length_replicate|intros _; apply closed_none].
  - intros i p E. congruence.
Qed.

Lemma fds_to_elem f o k : o !! k = Some (Some f) -> (1 <= fds_to f o)%nat.
Proof.
  intros H. pose proof (fds_to_insert f o k (Some f) None H) as E. rewrite decide_True in E by done.
  rewrite decide_False in E by done. lia.
Qed.

(** C16. Open files and descriptors agree. Over every run of system calls (each of
    the 25 calls, successful or failing in any way that returns), blocking reads
    and writes, exits and scheduling by any processes, the reference count of
    every file is the number of descriptors, in all processes together, that refer
    to it: no call leaks a file, closes one in use or leaves a descriptor to a
    file that is closed. *)
Theorem descriptor_refcounts devsw levels kend kdata fr tr g0 g :
  no_descriptors g0 -> rtc (kstep devsw levels kend kdata fr tr) g0 g ->
  (forall f x, s_ftable (g_sys g) !! f = Some x -> fl_ref x = Z.of_nat (descs f (g_ptable g))) /\
  (forall i p fd f, g_ptable g !! i = Some p -> proc_ofile p !! fd = Some (Some f) ->
     exists x, s_ftable (g_sys g) !! f = Some x /\ 1 <= fl_ref x).
Proof.
  intros H0%no_descriptors_inv Hrun.
  assert (fd_inv (fun _ => 0) g) as H by (induction Hrun; eauto using kstep_fds). clear H0 Hrun.
  assert (forall f x, s_ftable (g_sys g) !! f = Some x -> fl_ref x = Z.of_nat (descs f (g_ptable g))) as Hr.
  { intros f x Hx. pose proof (fi_refs _ _ H f) as Hf. rewrite Hx in Hf. lia. }
  split; [done|]. intros i p fd f Hp Ho.
  assert (1 <= Z.of_nat (descs f (g_ptable g))) as Hd.
  { pose proof (descs_insert f (g_ptable g) i p (with_ofile fd None p) Hp) as E. pose proof (fds_to_insert f _ fd _ None Ho) as E2.
    cbn [with_ofile proc_ofile] in E. rewrite decide_True in E2 by done. rewrite decide_False in E2 by done. lia. }
  pose proof (fi_refs _ _ H f) as Hf. destruct (s_ftable (g_sys g) !! f) as [x|]; [|lia]. exists x. split; [done|]. lia.
Qed.

(** The process of [small_kernel] is dispatched and calls [pipe]. *)
Definition pipe_mem (a : Z) : list Z := if a =? 2149593088 then replicate (Z.to_nat PGSIZE) 0 else small_mem a.
Definition pipe_kernel : kernel :=
  Kernel (set_kmem (Kmem pipe_mem 2149593088) (bare_sys (iinit (boot ∅ 0)))) [with_state RUNNABLE small_proc] 2 (Some 0%nat) None 0.
Definition running_kernel : kernel := set_ptable [small_proc] (set_proc (Some 0%nat) pipe_kernel).
Definition piped_kernel : kernel :=
  match sys_pipe (fun _ => Devsw None None) 2148532224 running_kernel with Ret _ g => g | _ => running_kernel end.

Lemma descriptor_refcounts_witness :
  sys_pipe (fun _ => Devsw None None) 2148532224 running_kernel = Ret 0 piped_kernel /\
  forall f x, s_ftable (g_sys piped_kernel) !! f = Some x -> fl_ref x = Z.of_nat (descs f (g_ptable piped_kernel)).
Proof.
  assert (sys_pipe (fun _ => Devsw None None) 2148532224 running_kernel = Ret 0 piped_kernel) as E.
  { vm_compute. reflexivity. }
  split; [exact E|].
  destruct (descriptor_refcounts (fun _ => Devsw None None) 0 2148532224 0 0 0 pipe_kernel piped_kernel) as [H _].
  - split; [|split; [|reflexivity]]; by_evaluation.
  - eapply rtc_l; [eapply (ks_run _ _ _ _ _ _ _ _ 0%nat); reflexivity|].
    apply rtc_once. exact (ks_call _ _ _ _ _ _ running_kernel piped_kernel 4 _ 0 eq_refl E).
  - exact H.
Defined.
