(* ===== verification/Ide.v ===== *)
(** The IDE driver of ide.c: the request queue threaded through the buffers, the
    interrupt handler, and its refinement to the synchronous memory disk of
    memide.c that the buffer cache is verified with. *)
From S2P Require Import Prelude Bio.

(** ** Data *)

(** A command given to the controller: drive, sector, and the data of a write. *)
Record ide_cmd := Cmd { cmd_drive : Z; cmd_lba : Z; cmd_data : option block }.

(** The buffers and disk 1 (as in memide.c), disk 0, [b->qnext] of the buffers,
    [idequeue], [havedisk1], and the command the controller works on. *)
Record ide := Ide {
  id_bio : bio; id_disk0 : gmap Z block; id_qnext : nat -> option nat; id_queue : option nat;
  id_have1 : bool; id_cmd : option ide_cmd
}.

Definition set_bio (x : bio) (s : ide) : ide :=
  Ide x (id_disk0 s) (id_qnext s) (id_queue s) (id_have1 s) (id_cmd s).
Definition set_qnext (b : nat) (n : option nat) (s : ide) : ide :=
  Ide (id_bio s) (id_disk0 s) (<[b := n]> (id_qnext s)) (id_queue s) (id_have1 s) (id_cmd s).
Definition set_queue (q : option nat) (s : ide) : ide :=
  Ide (id_bio s) (id_disk0 s) (id_qnext s) q (id_have1 s) (id_cmd s).
Definition set_cmd (c : option ide_cmd) (s : ide) : ide :=
  Ide (id_bio s) (id_disk0 s) (id_qnext s) (id_queue s) (id_have1 s) c.
Definition onbio {A} (m : K bio A) : K ide A := zoom id_bio set_bio m.

(** ** The controller

    A documented ATA command transfers one sector of the drive and then raises an
    interrupt; the sector number is what the driver puts into the registers 0x1f3
    to 0x1f6. *)

Definition drive_sector (s : ide) (drive lba : Z) : block :=
  if drive =? 1 then dsk (id_bio s) lba else default zblock (id_disk0 s !! lba).

Definition hw_finish : K ide unit :=
  let! s := get in
  match id_cmd s with
  | Some (Cmd drive lba (Some d)) =>
    (if drive =? 1 then onbio (modify (disk_write lba d))
     else put (Ide (id_bio s) (<[lba := d]> (id_disk0 s)) (id_qnext s) (id_queue s) (id_have1 s) (id_cmd s)));;;
    modify (set_cmd (Some (Cmd drive lba None)))
  | _ => ret tt
  end.

(** [insl(0x1f0, ...)]: the sector of the current command. *)
Definition insl : K ide block :=
  let! s := get in
  match id_cmd s with
  | Some c => ret (drive_sector s (cmd_drive c) (cmd_lba c))
  | None => undef "insl without a command"
  end.

(** ** The driver *)

(** The sector number as the registers get it, in four pieces. *)
Definition lba_regs (sector : Z) : Z :=
  Z.land sector 255 + 256 * Z.land (Z.shiftr sector 8) 255 + 65536 * Z.land (Z.shiftr sector 16) 255
  + 16777216 * Z.land (Z.shiftr sector 24) 15.

Definition idestart (b : option nat) : K ide unit :=
  match b with
  | None => panic "idestart"
  | Some b =>
    let! x := onbio (getbuf b) in
    modify (set_cmd (Some (Cmd (Z.land (b_dev x) 1) (lba_regs (b_sector x))
                               (if dirty x then Some (b_data x) else None))))
  end.

(** [ideintr]; [err] tells that the status register reports an error. The result
    is the buffer whose waiters are awakened. *)
Definition ideintr (err : bool) : K ide (option nat) :=
  let! s := get in
  match id_queue s with
  | None => ret None
  | Some b =>
    modify (set_queue (id_qnext s b));;;
    let! x := onbio (getbuf b) in
    (if negb (dirty x) && negb err then let! d := insl in onbio (updbuf b (set_data d)) else ret tt);;;
    onbio (updbuf b (set_flags (fun f => flag_set f B_VALID)));;;
    onbio (updbuf b (set_flags (fun f => flag_clr f B_DIRTY)));;;
    let! s := get in
    (match id_queue s with Some n => idestart (Some n) | None => ret tt end);;;
    ret (Some b)
  end.

(** The walk to the end of [idequeue]: the last buffer of the queue that starts
    at [b]. *)
Fixpoint queue_end (fuel : nat) (next : nat -> option nat) (b : nat) : option nat :=
  match fuel with
  | O => None
  | S f => match next b with None => Some b | Some n => queue_end f next n end
  end.

(** [iderw] up to its loop. *)
Definition ide_submit (b : nat) : K ide unit :=
  let! x := onbio (getbuf b) in
  let! s := get in
  if negb (busy x) then panic "iderw: buf not busy"
  else if Z.land (b_flags x) (Z.lor B_VALID B_DIRTY) =? B_VALID then panic "iderw: nothing to do"
  else if negb (b_dev x =? 0) && negb (id_have1 s) then panic "iderw: ide disk 1 not present"
  else
  modify (set_qnext b None);;;
  let! s := get in
  (match id_queue s with
   | None => modify (set_queue (Some b))
   | Some h =>
     match queue_end (S (length (bufs (id_bio s)))) (id_qnext s) h with
     | Some e => modify (set_qnext e (Some b))
     | None => nofuel
     end
   end);;;
  let! s := get in
  if bool_decide (id_queue s = Some b) then idestart (Some b) else ret tt.

(** The test of the loop of [iderw]: the process sleeps until its request is done. *)
Definition ide_wait (b : nat) : K ide unit :=
  let! x := onbio (getbuf b) in
  if Z.land (b_flags x) (Z.lor B_VALID B_DIRTY) =? B_VALID then ret tt else sleeps.

Definition ide_iderw (b : nat) : K ide unit := ide_submit b;;; ide_wait b.

(** The controller finishes its command and interrupts. *)
Definition irq : K ide (option nat) := hw_finish;;; ideintr false.

(** ** Refinement

    The requests [q] wait, the first one being worked on; [σ] is the memory disk
    on which the requests served so far were executed. *)

(** A request the driver accepts. *)
Record request (σ : bio) (b : nat) (x : buf) : Prop := {
  rq_buf : bufs σ !! b = Some x;
  rq_busy : busy x = true;
  rq_work : (Z.land (b_flags x) (Z.lor B_VALID B_DIRTY) =? B_VALID) = false;
  rq_dev : b_dev x = 1;
  rq_sector : 0 <= b_sector x < Z.min (disksize σ) (2 ^ 28)
}.

(** The queue [q] as the driver links it. *)
Fixpoint chain (head : option nat) (next : nat -> option nat) (q : list nat) : Prop :=
  match q with
  | [] => head = None
  | b :: q' => head = Some b /\ chain (next b) next q'
  end.

(** The command of a request. *)
Definition cmd_of (x : buf) : ide_cmd := Cmd 1 (b_sector x) (if dirty x then Some (b_data x) else None).

Record ide_rep (s : ide) (σ : bio) (q : list nat) : Prop := {
  ir_bio : id_bio s = σ;
  ir_chain : chain (id_queue s) (id_qnext s) q;
  ir_nodup : NoDup q;
  ir_reqs : forall b, b ∈ q -> exists x, request σ b x;
  ir_have1 : id_have1 s = true;
  ir_cmd : match q with
           | [] => forall c, id_cmd s = Some c -> cmd_data c = None
           | b :: _ => exists x, bufs σ !! b = Some x /\ id_cmd s = Some (cmd_of x)
           end
}.

Lemma lba_regs_id s : 0 <= s < 2 ^ 28 -> lba_regs s = s.
Proof.
  intros H. unfold lba_regs. change 255 with (Z.ones 8). change 15 with (Z.ones 4). rewrite !Z.land_ones by lia.
  rewrite !Z.shiftr_div_pow2 by lia.
  rewrite (Z.mod_small (s / 2 ^ 24)) by (split; [apply Z.div_pos|apply Z.div_lt_upper_bound]; lia).
  pose proof (Z.div_mod s (2 ^ 8) ltac:(lia)). pose proof (Z.div_mod (s / 2 ^ 8) (2 ^ 8) ltac:(lia)).
  pose proof (Z.div_mod (s / 2 ^ 16) (2 ^ 8) ltac:(lia)).
  replace (s / 2 ^ 24) with (s / 2 ^ 16 / 2 ^ 8) in * by (rewrite Z.div_div by lia; done).
  replace (s / 2 ^ 16) with (s / 2 ^ 8 / 2 ^ 8) in * by (rewrite Z.div_div by lia; done). lia.
Qed.

Lemma chain_ext head next next' q : chain head next q -> (forall b, b ∈ q -> next' b = next b) -> chain head next' q.
Proof.
  revert head. induction q as [|b q IH]; intros head; cbn; [done|]. intros [-> Hc] He. split; [done|].
  rewrite He by set_solver. apply IH; [done|]. set_solver.
Qed.

(** The last element of [a :: q]. *)
Fixpoint end_of (a : nat) (q : list nat) : nat := match q with [] => a | c :: q' => end_of c q' end.

Lemma end_of_elem a q : end_of a q ∈ a :: q.
Proof. revert a. induction q as [|c q IH]; intros a; cbn; [by constructor|]. constructor. apply IH. Qed.

Lemma chain_snoc head next a q b : chain head next (a :: q) -> NoDup (a :: q ++ [b]) ->
  chain head (<[end_of a q := Some b]> (<[b := None]> next)) (a :: q ++ [b]).
Proof.
  revert head a. induction q as [|c q IH]; intros head a [-> Hc] Hd; apply NoDup_cons in Hd as [Ha Hd].
  - cbn [end_of app chain]. assert (a <> b) by (intros ->; apply Ha; by constructor).
    rewrite fn_lookup_insert. rewrite fn_lookup_insert_ne, fn_lookup_insert by done. done.
  - split; [done|]. cbn [end_of]. rewrite !fn_lookup_insert_ne.
    + by apply IH.
    + intros ->. apply Ha. apply elem_of_app. right. by constructor.
    + intros E. apply Ha. rewrite <- E. apply elem_of_app. left. apply end_of_elem.
Qed.

Lemma queue_end_chain fuel next a q : chain (Some a) next (a :: q) -> (length q < fuel)%nat ->
  queue_end fuel next a = Some (end_of a q).
Proof.
  revert a q. induction fuel as [|fuel IH]; intros a q [_ Hc] Hl; [lia|]. cbn [queue_end].
  destruct q as [|b q]; [by rewrite Hc|]. pose proof Hc as [E _]. rewrite E in *. apply (IH b q); [done|]. cbn in Hl. lia.
Qed.

(** Requests are distinct buffers, so the walk ends. *)
Lemma requests_bound σ q : NoDup q -> (forall b, b ∈ q -> exists x, request σ b x) -> (length q <= length (bufs σ))%nat.
Proof.
  intros Hd Hr. rewrite <- (length_seq (length (bufs σ)) 0). apply submseteq_length. apply NoDup_submseteq; [done|].
  intros b Hb. destruct (Hr b Hb) as [x [Hx _ _ _ _]]. apply elem_of_seq. apply lookup_lt_Some in Hx. lia.
Qed.

Lemma onbio_getbuf b x s : bufs (id_bio s) !! b = Some x -> onbio (getbuf b) s = Ret x s.
Proof. intros H. unfold onbio, zoom, getbuf, bind, get. rewrite H. cbn. by destruct s. Qed.

Lemma onbio_updbuf b x f s : bufs (id_bio s) !! b = Some x ->
  onbio (updbuf b f) s = Ret tt (set_bio (setb b (f x) (id_bio s)) s).
Proof. intros H. unfold onbio, zoom, updbuf, getbuf, bind, get. by rewrite H. Qed.

Lemma idestart_eq s σ b x : id_bio s = σ -> request σ b x -> idestart (Some b) s = Ret tt (set_cmd (Some (cmd_of x)) s).
Proof.
  intros E [Hx _ _ Hd Hs]. unfold idestart, bind. rewrite (onbio_getbuf b x) by congruence. unfold modify.
  rewrite Hd, lba_regs_id by lia. done.
Qed.

Lemma submit_sim s σ q b x : ide_rep s σ q -> request σ b x -> b ∉ q ->
  exists s', ide_submit b s = Ret tt s' /\ ide_rep s' σ (q ++ [b]).
Proof.
  intros [Eb Hc Hd Hr Hh Hcmd] Hx Hn. unfold ide_submit. unfold bind at 1.
  rewrite (onbio_getbuf b x) by (destruct Hx; congruence). unfold bind at 1, get.
  rewrite (rq_busy _ _ _ Hx), (rq_work _ _ _ Hx), Hh, andb_false_r. cbn [negb].
  assert (NoDup (q ++ [b])) as Hd'.
  { apply NoDup_app. split; [done|]. split; [|apply NoDup_singleton]. intros c Hc' ->%list_elem_of_singleton. done. }
  assert (forall c, c ∈ q ++ [b] -> exists x, request σ c x) as Hr'.
  { intros c [?|Ec%list_elem_of_singleton]%elem_of_app; [by apply Hr|subst c; by exists x]. }
  unfold bind at 1, modify at 1. set (s1 := set_qnext b None s). unfold bind at 1. cbn [id_queue set_qnext s1].
  destruct q as [|h q].
  - rewrite Hc. unfold bind at 1, modify at 1. unfold bind at 1. cbn [id_queue set_queue]. rewrite bool_decide_true by done.
    rewrite (idestart_eq _ σ b x) by done. eexists. split; [done|]. split; try done; cbn.
    + by rewrite fn_lookup_insert.
    + exists x. by destruct Hx.
  - pose proof Hc as [Eq _]. rewrite Eq. rewrite Eq in Hc.
    assert (chain (Some h) (id_qnext s1) (h :: q)) as Hc1.
    { eapply chain_ext; [exact Hc|]. intros c Hcq. cbn. apply fn_lookup_insert_ne. by intros ->. }
    rewrite (queue_end_chain _ _ h q Hc1).
    2:{ pose proof (requests_bound σ (h :: q) Hd Hr). cbn in *. rewrite Eb. lia. }
    unfold bind at 1, modify. unfold bind at 1. change (id_queue (set_qnext ?e ?n s1)) with (id_queue s). rewrite Eq.
    rewrite bool_decide_false by (intros [= ->]; apply Hn; by constructor).
    eexists. split; [done|]. split; try done; cbn [id_bio id_queue id_qnext set_qnext s1 id_cmd app].
    rewrite Eq. by apply chain_snoc.
Qed.

(** What serving a request does to a buffer, in either driver. *)
Definition served (σ : bio) (x : buf) : buf :=
  set_flags (fun f => flag_clr (flag_set f B_VALID) B_DIRTY) (if dirty x then x else set_data (dsk σ (b_sector x)) x).
Definition serve (b : nat) (x : buf) (σ : bio) : bio :=
  setb b (served σ x) (if dirty x then disk_write (b_sector x) (b_data x) σ else σ).

Lemma flags_served f : flag_clr (flag_set f B_VALID) B_DIRTY = flag_set (flag_clr f B_DIRTY) B_VALID.
Proof.
  unfold flag_clr, flag_set. apply Z.bits_inj'. intros i Hi. rewrite Z.land_spec, !Z.lor_spec, Z.land_spec, Z.lnot_spec by done.
  destruct (decide (i = 1)) as [->|]; [by destruct (Z.testbit f 1)|].
  assert (Z.testbit B_VALID i = false) as ->; [|by rewrite !orb_false_r].
  change B_VALID with (2 ^ 1). apply Z.pow2_bits_false. lia.
Qed.

Lemma flags_clean f : flag f B_DIRTY = false -> flag_clr f B_DIRTY = f.
Proof.
  intros H. apply Z.bits_inj'. intros i Hi. unfold flag_clr. rewrite Z.land_spec, Z.lnot_spec by done.
  change B_DIRTY with (2 ^ 2) in *. rewrite flag_testbit in H by lia. rewrite Z.pow2_bits_eqb by lia.
  destruct (Z.eqb_spec 2 i) as [<-|]; [by rewrite H|by rewrite andb_true_r].
Qed.

Lemma updbuf_eq b x f σ : bufs σ !! b = Some x -> updbuf b f σ = Ret tt (setb b (f x) σ).
Proof. intros H. unfold updbuf, getbuf, bind, get. by rewrite H. Qed.

(** The memory disk serves a request at once. *)
Lemma memide_serves σ b x : request σ b x -> iderw b σ = Ret tt (serve b x σ).
Proof.
  intros [Hx Hb Hw Hd Hs]. unfold iderw, serve, served. pose proof (lookup_lt_Some _ _ _ Hx).
  assert (getbuf b σ = Ret x σ) as E by (unfold getbuf, bind, get; by rewrite Hx).
  unfold bind at 1. rewrite E, Hb, Hw, Hd. cbn [negb Z.eqb Pos.eqb]. unfold bind at 1, get.
  rewrite (proj2 (Z.leb_gt _ _)) by lia. unfold bind at 1. destruct (dirty x) eqn:Hdirty.
  - unfold bind at 1. rewrite (updbuf_eq b x) by done. unfold modify.
    rewrite (updbuf_eq b (set_flags (fun f => flag_clr f B_DIRTY) x)) by (cbn; by rewrite list_lookup_insert_eq).
    unfold set_bufs, disk_write, set_flags. cbn. by rewrite list_insert_insert_eq, flags_served.
  - rewrite (updbuf_eq b x) by done.
    rewrite (updbuf_eq b (set_data (dsk σ (b_sector x)) x)) by (cbn; by rewrite list_lookup_insert_eq).
    unfold set_bufs, set_flags, set_data. cbn. by rewrite list_insert_insert_eq, flags_served, flags_clean.
Qed.

(** A served buffer is valid and clean: its process does not sleep again. *)
Lemma served_done σ x : (Z.land (b_flags (served σ x)) (Z.lor B_VALID B_DIRTY) =? B_VALID) = true.
Proof. rewrite nothing_to_do. unfold served. destruct (dirty x); flags; done. Qed.

Lemma request_serve σ b x c y : request σ c y -> b <> c -> request (serve b x σ) c y.
Proof.
  intros [Hx Hb Hw Hd Hs] N. unfold serve. split; try done.
  - rewrite setb_lookup_ne by done. by destruct (dirty x).
  - by destruct (dirty x).
Qed.

Lemma hw_finish_eq s σ x : id_bio s = σ -> id_cmd s = Some (cmd_of x) ->
  hw_finish s = Ret tt (set_cmd (Some (Cmd 1 (b_sector x) None))
                         (set_bio (if dirty x then disk_write (b_sector x) (b_data x) σ else σ) s)).
Proof.
  intros Eb Ec. unfold hw_finish, bind at 1, get. rewrite Ec. destruct s. cbn in *. subst. unfold cmd_of.
  by destruct (dirty x).
Qed.

(** The handler up to the start of the next request. *)
Lemma ideintr_serves s σ b x : id_queue s = Some b -> request σ b x ->
  id_bio s = (if dirty x then disk_write (b_sector x) (b_data x) σ else σ) ->
  id_cmd s = Some (Cmd 1 (b_sector x) None) ->
  ideintr false s =
    (let! s := get in
     (match id_queue s with Some n => idestart (Some n) | None => ret tt end);;;
     ret (Some b)) (set_bio (serve b x σ) (set_queue (id_qnext s b) s)).
Proof.
  intros Eq [Hx _ _ _ _] Eb Ec. unfold ideintr. unfold bind at 1, get at 1. rewrite Eq. unfold bind at 1, modify.
  set (s2 := set_queue _ s). pose proof (lookup_lt_Some _ _ _ Hx) as Hlt.
  assert (bufs (id_bio s2) !! b = Some x) as Hx2 by (cbn; rewrite Eb; by destruct (dirty x)).
  unfold bind at 1. rewrite (onbio_getbuf b x) by done.
  assert (((if negb (dirty x) && negb false then let! d := insl in onbio (updbuf b (set_data d)) else ret tt) : K ide unit) s2 =
    Ret tt (set_bio (if dirty x then id_bio s2 else setb b (set_data (dsk σ (b_sector x)) x) (id_bio s2)) s2)) as E.
  { rewrite andb_true_r. destruct (dirty x) eqn:Hd; cbn [negb]; [by destruct s2|].
    unfold insl. unfold bind at 1 2, get. cbn [id_cmd set_queue s2]. rewrite Ec. unfold ret.
    rewrite (onbio_updbuf b x) by done. unfold drive_sector. cbn. by rewrite Eb. }
  unfold bind at 1. rewrite E. set (y := if dirty x then x else set_data (dsk σ (b_sector x)) x).
  set (s3 := set_bio _ s2). assert (bufs (id_bio s3) !! b = Some y) as Hy.
  { cbn. unfold y. destruct (dirty x); [done|]. apply list_lookup_insert_eq. rewrite Eb. done. }
  unfold bind at 1. rewrite (onbio_updbuf b y) by done.
  unfold bind at 1. rewrite (onbio_updbuf b (set_flags (fun f => flag_set f B_VALID) y)).
  2:{ cbn [id_bio set_bio]. by apply (setb_lookup b _ y). }
  f_equal. unfold s3, s2, set_bio, set_queue. cbn [id_bio id_disk0 id_qnext id_queue id_have1 id_cmd]. f_equal.
  rewrite setb_setb. unfold serve, served. fold y. rewrite Eb. unfold y.
  destruct (dirty x); unfold set_bufs; cbn [bufs disk disksize writes lru]; rewrite ?list_insert_insert_eq; done.
Qed.

Lemma irq_sim s σ b q : ide_rep s σ (b :: q) ->
  exists s' x, request σ b x /\ irq s = Ret (Some b) s' /\ ide_rep s' (serve b x σ) q.
Proof.
  intros [Eb [Eq Hc] Hd Hr Hh (x & Hxb & Ecmd)]. destruct (Hr b ltac:(by constructor)) as (x' & Hx).
  assert (x' = x) as -> by (destruct Hx; congruence). apply NoDup_cons in Hd as [Hnb Hd].
  unfold irq, bind. rewrite (hw_finish_eq s σ x) by done. set (s1 := set_cmd _ _).
  rewrite (ideintr_serves s1 σ b x) by done. set (s3 := set_bio _ _).
  assert (forall c, c ∈ q -> exists y, request (serve b x σ) c y) as Hr'.
  { intros c Hcq. destruct (Hr c ltac:(by constructor)) as [y Hy]. exists y. apply request_serve; [done|]. by intros ->. }
  unfold get, bind. cbn [id_queue s3 set_bio set_queue]. change (id_qnext s1 b) with (id_qnext s b).
  destruct q as [|n q].
  - rewrite Hc. eexists _, x. split; [done|]. split; [done|]. split; try done. cbn. by intros c [= <-].
  - pose proof Hc as [En Hc']. rewrite En. destruct (Hr' n ltac:(by constructor)) as [y Hy].
    rewrite (idestart_eq s3 (serve b x σ) n y) by done. eexists _, x. split; [done|]. split; [done|].
    split; try done; cbn [id_bio id_queue id_qnext id_cmd set_cmd s3 set_bio set_queue s1].
    + exists y. by destruct Hy.
Qed.

(** [n] interrupts, and the buffers whose waiters they wake. *)
Fixpoint irqs (n : nat) : K ide (list nat) :=
  match n with
  | O => ret []
  | S n' => let! b := irq in let! l := irqs n' in ret (match b with Some b => b :: l | None => l end)
  end.

Definition finished (σ : bio) (b : nat) : Prop :=
  exists x, bufs σ !! b = Some x /\ (Z.land (b_flags x) (Z.lor B_VALID B_DIRTY) =? B_VALID) = true.

Lemma serve_finished σ b x : request σ b x -> finished (serve b x σ) b.
Proof.
  intros [Hx _ _ _ _]. exists (served σ x). split; [|apply served_done]. unfold serve.
  apply list_lookup_insert_eq. apply lookup_lt_Some in Hx. by destruct (dirty x).
Qed.

Lemma finished_serve σ b x c : finished σ c -> b <> c -> finished (serve b x σ) c.
Proof. intros (y & Hy & Hd) N. exists y. split; [|done]. unfold serve. rewrite setb_lookup_ne by done. by destruct (dirty x). Qed.

Lemma irqs_sim q : forall s σ, ide_rep s σ q ->
  exists s' σ', irqs (length q) s = Ret q s' /\ forK iderw q σ = Ret tt σ' /\ ide_rep s' σ' [] /\
    (forall b, b ∈ q -> finished σ' b) /\ (forall b, b ∉ q -> finished σ b -> finished σ' b).
Proof.
  induction q as [|b q IH]; intros s σ H.
  { exists s, σ. split_and!; try done. by intros b ?%elem_of_nil. }
  pose proof (ir_nodup _ _ _ H) as [Hnb Hd]%NoDup_cons.
  destruct (irq_sim s σ b q H) as (s1 & x & Hx & E1 & H1). destruct (IH s1 _ H1) as (s' & σ' & E2 & E3 & H2 & Hf & Hk).
  exists s', σ'. cbn [length irqs]. unfold bind. rewrite E1, E2. split; [done|]. split.
  { unfold forK in *. cbn [foldK]. unfold bind. by rewrite (memide_serves σ b x Hx). }
  split; [done|]. split.
  - intros c [->|Hc]%elem_of_cons; [|by apply Hf]. apply Hk; [done|]. by apply serve_finished.
  - intros c [N Hc]%not_elem_of_cons Hfc. apply Hk; [done|]. apply finished_serve; [done|]. congruence.
Qed.

(** C40. The interrupt-driven disk driver implements the memory disk the buffer
    cache is verified with, when the drive reports no errors, interrupts once per
    finished command, and the requests are for sectors below 2^28 of disk 1. With
    requests [q] pending, a new request is accepted and put last; the interrupts
    serve the requests in the order in which they were made, each exactly as the
    synchronous [iderw] of memide.c would, and wake the process that waits for it;
    after as many interrupts as there are requests every one is served, no process
    sleeps again, and the queue is empty; an interrupt without a request changes
    nothing. (For errors of the drive see [ide_read_error_valid].) *)
Theorem ide_refines_memide s σ q : ide_rep s σ q ->
  (forall b x, request σ b x -> b ∉ q -> exists s', ide_submit b s = Ret tt s' /\ ide_rep s' σ (q ++ [b])) /\
  (exists s' σ', irqs (length q) s = Ret q s' /\ forK iderw q σ = Ret tt σ' /\ ide_rep s' σ' [] /\
     forall b, b ∈ q -> ide_wait b s' = Ret tt s') /\
  (q = [] -> irq s = Ret None s).
Proof.
  intros H. split; [intros b x; by apply submit_sim|]. split.
  - destruct (irqs_sim q s σ H) as (s' & σ' & E1 & E2 & H' & Hf & _). exists s', σ'. split_and!; try done.
    intros b Hb. destruct (Hf b Hb) as (x & Hx & Hd). unfold ide_wait, bind.
    rewrite (onbio_getbuf b x) by (by rewrite (ir_bio _ _ _ H')). by rewrite Hd.
  - intros ->. destruct H as [_ Hq _ _ _ Hc]. cbn in Hq. unfold irq, hw_finish, ideintr, bind, get.
    destruct (id_cmd s) as [[dr lba [d|]]|] eqn:Ec; [by specialize (Hc _ eq_refl)| |]; cbn; by rewrite Hq.
Qed.

(** Two requests on disk 1: a write of sector 5 and a read of sector 7. *)
Definition two_requests : bio :=
  Bio (<[7 := replicate 512 9]> ∅) 100 [] [Buf 5 1 5 (replicate 512 3); Buf 1 1 7 zblock] [0%nat; 1%nat].
Definition idle_ide : ide := Ide two_requests ∅ (fun _ => None) None true None.

Lemma idle_ide_rep : ide_rep idle_ide two_requests [].
Proof. split; try done; [constructor|by intros b ?%elem_of_nil]. Qed.

Lemma ide_refines_memide_witness : exists s1, ide_submit 0 idle_ide = Ret tt s1 /\ ide_rep s1 two_requests [0%nat].
Proof.
  destruct (ide_refines_memide idle_ide two_requests [] idle_ide_rep) as (H & _).
  destruct (H 0%nat (Buf 5 1 5 (replicate 512 3))) as (s1 & E & R).
  - split; [reflexivity..|split; [discriminate|reflexivity]].
  - intros N. inversion N.
  - exists s1. split; [exact E|exact R].
Defined.

(** When the drive reports an error, the handler skips the transfer of a read but
    marks the buffer valid all the same: its old contents are taken for sector 7. *)
Lemma ide_read_error_valid : exists s x,
  (ide_submit 1;;; hw_finish;;; ideintr true) idle_ide = Ret (Some 1%nat) s /\
  bufs (id_bio s) !! 1%nat = Some x /\ valid x = true /\ b_data x = zblock /\ dsk two_requests 7 <> zblock.
Proof. do 2 eexists. split; [reflexivity|]. split; [reflexivity|]. split; [reflexivity|]. split; [reflexivity|]. by vm_compute. Qed.
